(* ===== verification/_CoqProject ===== *)
-Q . S2P
Prelude.v
Words.v
Headers.v
Checksum.v
HeaderConv.v
Printing.v
Backend.v
Pcap.v
FileIO.v
FileTesting.v
RawSocket.v
PcapTrace.v
TcpMimic.v
TcpTrace.v
Arp.v
NetworkSide.v
NetworkInit.v
SimCpu.v
Segments.v
Replay.v
TcpSession.v
System.v
SocDefs.v
SimDriver.v
Rtl.v
Fifo.v
Fifo2w.v
SlabAlloc.v
PacketQueue.v
PacketQueueController.v
ChksumCalc.v
TcpPkg.v
AckEngines.v
RamDual.v
EstArbiter.v
FlowStores.v
EstPipe.v
EstBackend.v
EstRun.v
EstFlow.v
FlowId.v
TcpStateMachine.v
Lfsr.v
RxFsm.v
FsmHistory.v
Cam.v
IssuePipe.v
TmpBuf.v
PayloadPath.v
RxPipe.v
SendStage.v
SendPipe.v
SendSched.v
SendRun.v
HdrAssembler.v
SendPath.v
Engine.v
TcpEngine.v
Handshake.v
