(* ===== verification/Prelude.v ===== *)
(** * The TCP engine and its DPI testbench

    The repository is a TCP engine in SystemVerilog with a testbench whose
    software half, sim_dpi/, is C++ called through the DPI.  This development
    models that C++: it stands for the network the simulated device is plugged
    into, so what the device is tested against is what this code does.  It also
    models, cycle by cycle, the SystemVerilog module that calls it and the heart
    of the engine: its queues, memories and allocator, the pipeline that
    receives, the handshake, the pipeline that sends, and all of them wired
    together.

    ** The program's parts

    - The simulated MAC calls [get_data] and [put_data]
      (sim_network_side_queue.cpp) once per clock tick that wants or has data.
      [get_data] takes a packet from the backend and gives it to the device in
      32-byte beats; [put_data] gathers the beats of the device and puts the
      packet on the backend.  [init_network_side_state] sets the host's
      addresses and creates the backend; [finish_simulation] deletes it.
    - A backend (dpi_testing_lib.hpp) is where packets come from and go to: two
      pcap files shared with another process (file_io_testing_lib.cpp), a trace
      replayed in order (pcap_trace_testing_lib.cpp), or a trace replayed per
      TCP flow (tcp_pcap_trace_testing_lib.cpp, with class [TCPMimic] for the
      state of a flow).  The pcap format is in pcap_helpers.cpp.
    - ARP requests do not reach the device: [handle_arp] (testing_utils.cpp)
      answers them through the backend.
    - testing_utils.cpp also has the checksums, the filling of headers and the
      conversions between the wire, the engine's structs and Verilog vectors.
    - sim_cpu.cpp announces flows to the device.
    - Two older ways to exchange packets are still in the tree and no longer
      called: raw sockets (raw_testing_lib.cpp) and the two files without a
      backend class (file_testing_lib.cpp).
    - sim_network_side_queue.sv calls [get_data] and [put_data] on the negative
      edges of the clock, and queues the lines in both directions.
    - The engine's modules under common/ share one memory,
      ram/ram_1r1w_sync_backpressure.sv (over basejump_files/bsg_mem).  A queue
      (fifo/fifo_1r1w.sv) is that memory with two pointers; the queue of packets
      (packet_queue/packet_queue.sv) has a third, the end of the last packet
      committed; packet_queue_controller.sv drops the frames that do not fit;
      mem_allocator/slab_alloc_tracker.sv hands out the slabs of the receive
      buffer, from a counter first and then from a queue of freed ones.
    - frontend/chksum_calc.sv is the checksum engine of the frontend: a tree of
      adders over the words of a beat, an accumulator over the beats of a frame.
    - tcp_engine_wrapper.sv wires the engine.  A packet that comes in goes
      through recv_pipe/rx_issue_pipe.sv, which finds the number of its
      connection in a content-addressable memory, or opens one with a number of
      flowid_manager.sv, and reads its state.  A packet of an established
      connection then goes through recv_pipe/est_pipe.sv: it reads the state of the
      connection (R), computes with the engines of acknowledgements
      rx_ack_engine.sv and tx_ack_engine.sv (C), and writes the state back (W),
      with bypasses from W to C.  Packets of other connections go through
      recv_pipe/rx_fsm_pipe.sv, which takes its decisions with
      tcp_state_machine.sv and takes first sequence numbers from
      bsg_misc/bsg_lfsr.sv; a packet that finds its connection established after
      all is given back, through a queue and est_pipe_input_merger.sv.  The two
      share the ports of the stores through fsm_est_arbiter.sv.
    - The payload of a packet that comes in waits in a slab of the buffer
      recv_pipe/tcp_tmp_rx_buf_wrap.sv.  The pipelines say of each packet whether
      its payload is accepted, through a queue (rx_pipe_wrap.sv) to
      recv_pipe/rx_payload_store_buf_cp.sv, which copies it into the receive
      buffer of the connection at the commit pointer, moves the pointer on and
      frees the slab.
    - The state of the connections is in send_pipe/tx_state_store.sv and
      recv_pipe/rx_state_store.sv, the pointers of their buffers in
      send_pipe/payload_pointers.sv and recv_pipe/rx_payload_ptrs.sv, all on
      common/ram/ram_2r1w_sync_backpressure.sv.
    - send_pipe/send_pipe_wrapper.sv serves the connections in turn, from a
      queue (scheduling_fifos.sv, over common/fifo/fifo_2w.v):
      protocol_logic_pipe.sv reads the state, the tail of the buffer and the
      flags of rt_timeout_flag_store.sv, numbers a segment
      (segment_calculator.sv) and puts the connection back;
      hdr_assembler_pipe.sv makes the header, with what the receive side says of
      the connection and the addresses in flowid_to_addr.sv.
      send_merger.sv merges these packets with the answers of the handshake.

    ** The files

    - Prelude: traces of effects, the state monad with its laws, invariants of
      computations, lemmas on lists.
    - Words: machine integers as [Z] with their wrap-around, loads and stores
      in byte buffers, byte order.
    - Headers: the constants, structs and packed layouts of flows.h and
      testing_utils.h.
    - Checksum: [csum], [add_tcp_checksum], [add_ip_checksum].
    - HeaderConv: the [fill_*], [convert_*], [bitvec_*] and [data_swizzle_*]
      functions of testing_utils.cpp.
    - Printing: the three [print_*] functions of testing_utils.cpp, with the
      text [printf] makes of a format.
    - Backend: [DPITestingLib] as a class with its laws, the object behind
      [sim_backend], [finish_simulation].
    - Pcap: stdio streams, pcap_helpers.cpp.
    - FileIO, PcapTrace, TcpTrace: the three backends, each an instance of the
      class; TcpMimic: [TCPMimic] and the two functions that parse packets
      into it.
    - FileTesting: file_testing_lib.cpp; RawSocket: raw_testing_lib.cpp, over a
      class of the system calls it makes.
    - Arp: [handle_arp].
    - NetworkSide: [get_data], [put_data] and the static functions they call,
      for any backend; NetworkInit: virtual calls over the classes the program
      can create, [init_network_side_state].
    - SimCpu: sim_cpu.cpp.
    - Segments: TCP segments as frames, and what the code loads from them.
    - Replay: whole sessions of [get_data] and [put_data] over the file exchange
      and over a trace, for any interleaving of the calls, from an interface
      ([ReplayBackend]) both backends discharge.
    - TcpSession: whole sessions of the TCP trace backend, against a state
      machine that is its specification.
    - System: the parts put together, on the replay of a connection request.
    - SocDefs: the width of the MAC interface in SystemVerilog; SimDriver:
      sim_network_side_queue.sv on top of [get_data] and [put_data].
    - Rtl: synchronous modules and their simulation by a specification, the
      memory; Fifo, SlabAlloc, PacketQueue, PacketQueueController: one module
      each, every one proved on the specification of the one below.
    - ChksumCalc: chksum_calc.sv from its input stream to its checksum queue.
    - TcpPkg: the structs and constants of tcp_pkg.sv.  AckEngines: the two
      engines of acknowledgements.  RamDual: the memory with two read ports.
      EstArbiter: the arbiter, over BaseJump's round robin.  FlowStores: the two
      stores of states and the pointers of the receive buffers.
    - EstPipe: est_pipe.sv; EstBackend: est_pipe.sv with the arbiter and the
      stores; EstRun: its runs, against a machine that treats a packet at a
      time; EstFlow: what a connection receives.
    - FlowId: flowid_manager.sv.  TcpStateMachine: tcp_state_machine.sv and
      tcp_hdr_assembler.sv.  Lfsr: bsg_lfsr.sv.  RxFsm: rx_fsm_pipe.sv;
      FsmHistory: what follows when every packet it deals with is dealt with on
      the state the ones before it left.
    - Cam: BaseJump's content-addressable memory.  IssuePipe: rx_issue_pipe.sv
      with it, tcp_state_store.sv and the manager of FlowId, against a
      dispatcher that treats a packet at a time.
    - TmpBuf: tcp_tmp_rx_buf_wrap.sv.  PayloadPath: the way of a payload, TmpBuf,
      the queue of rx_pipe_wrap.sv, rx_payload_store_buf_cp.sv and the commit
      pointers, in one cycle, against a log of what was enqueued and opened.
    - RxPipe: the front of rx_pipe_wrap.sv: IssuePipe, the queue to RxFsm, RxFsm
      and Lfsr, the queue of the packets given back, est_pipe_input_merger.sv.
    - SendStage: the numbering of a segment; Fifo2w: fifo_2w.v; SendPipe:
      protocol_logic_pipe.sv with its queue, flags, pointers and store;
      SendSched: the turns of the connections, abstractly; SendRun: the runs of
      SendPipe against them.
    - HdrAssembler: hdr_assembler_pipe.sv with its memories; SendPath: all of
      send_pipe_wrapper.sv, and send_merger.sv; Engine: the pipelines of
      tcp_engine_wrapper.sv for established connections over one set of stores,
      for any handshake that opens a number once and before its packets come.
    - TcpEngine: all of tcp_engine_wrapper.sv, RxPipe wired to Engine, which it
      uses as Engine supposes.  Handshake: the numbers of a handshake through
      the whole.

    ** How the code is modelled

    A C++ function is a definition of the same name (with the class in front
    where two classes share it) in the monad [M S]: state passing, with the
    trace of the [printf]s and DPI calls.  It returns ([Done]) or it stops:
    [Exit] for [exit], [Undefined] for undefined behaviour (an access outside a
    buffer, a use of freed memory, a call through a dangling [sim_backend]).
    Integers are [Z] with the conversions written out ([u16], [s32], ...).
    The target is little-endian, with 64-bit [long].  A struct the code
    overlays on a buffer is a table of fields ([field], [ld], [st]); a struct
    it passes by value is a record, with its bytes given by an encoder.

    What a call finds in memory it has not initialised is an argument: a
    [frame] holds the leftovers of the stack.  So the theorems that do not
    mention it hold for any leftovers, and those that depend on it say so
    ([Tcp_get_flow_from_stack], [stack_ok]).

    A SystemVerilog module ([circuit]) is its registers as a record, its outputs
    as a function of registers and inputs, and the registers after a clock edge,
    in and out of reset.  A width is a [mod 2 ^ w], 'X is [None], and nothing is
    assumed of registers that were never reset.  Where a pipeline latches a
    response that is 'X, the bits it sees are an argument ([unknowns],
    [send_unknowns], [asm_unknowns]): the theorems hold for any.  Modules that
    are wired to each other without a register between them are one circuit
    whose wires are functions of all their registers; a ready that depends on
    another is computed first.  Its contract is a [spec]: an
    abstract state, the inputs it may be given, what it shows, how the state
    moves.  Widths and sizes are parameters.

    Parameters, for code that is not in the sources: BaseJump's
    bsg_fifo_1r1w_small ([BsgFifo], a bounded queue, with an instance);
    four_tuple_struct, which no file declares and TcpPkg takes from its uses;
    boost's hash functions; the order in which [std::unordered_map] iterates ([FlowOrder], which
    promises a permutation and no more); [TCPMimic::check_my_ack], declared and
    nowhere defined; the system calls on sockets ([Kernel], with the promises of
    the manual pages in [KernelLaws] and a loopback kernel as an instance).
    [gettimeofday] is the field [w_now], [fopen] the streams
    the constructors are given, a DPI scope is its name.

    Loops are structural where they can be.  The others have fuel:
    [fill_loop] the length of the file, since a record takes at least 17
    bytes ([fill_pkt_vectors_terminates] shows that it is never used up, on any
    file); [compare_pending] one more than the length of the queue it empties
    ([Tcp_put_terminates]); [beats] the length of the packet
    ([beats_fuel_enough]).

    ** What the theorems show

    - System: a replay from initialization to the device's answer, through
      every layer ([handshake_replay]).
    - TcpSession: any sequence of calls of the TCP trace backend, from its
      constructor on, is a run of the specification ([Tcp_session_refines]):
      so on every flow the device gets the packets of the trace in order, none
      lost and none twice, and all of them once it has polled twice per segment
      of the trace ([Tcp_session_delivers]); and a device that sends what the
      trace has from it is never complained about, however its calls are
      interleaved with the polls ([Tcp_session_conforming]).
    - Replay: the two directions of the interface do not disturb each other
      ([session_interleaved]); a trace replayed to its end ends the simulation
      with its very last beat ([Pcap_replay_complete]); two simulations linked
      by a file exchange exactly their beats ([linked_simulations]).
    - NetworkSide: the beats of a packet and the packet of the beats
      ([get_data_transmits], [put_data_receives]), one call of the interface
      per call of [get_data] ([get_data_drives_once], from the laws of the
      backend), memory safety and no leak from an invariant of the buffer
      ([get_data_safe]), the frames that are dropped or answered
      ([get_data_no_packet], [get_data_answers_arp]) and the over-read on a
      short packet ([recv_from_socket_over_read]).
    - TcpTrace: [put_buf_on_io] refines a specification that compares the k-th
      packet of the device with the k-th the trace expects on the flow
      ([Tcp_put_refines_matching], [Tcp_get_expects]); in every reachable
      state no handshake is done, so what comes for a flow that is known is
      deferred and sent in the end ([Tcp_reachable_defers], [Tcp_get_defers],
      [Tcp_drain]); termination.
    - PcapTrace, FileIO, Pcap: a trace is loaded whole and in order, a
      conforming device passes and ends the simulation with its last packet,
      the diagnostics are exactly the bytes that differ; records written are
      read back, across two simulations too; what happens on cut, truncated and
      oversized records.
    - FileTesting: a session goes the same way through the old functions and
      through the backend that replaced them ([fd_session_agrees]).
    - RawSocket: the sockets are opened as they should or the program stops at
      the first failure with its message ([init_with_raw_socket_opens],
      [init_with_raw_socket_stops]); polling hands over the waiting packets
      whole and in order, then nothing ([get_buffer_from_raw_socket_drains]).
    - Printing: the text of a header determines the header
      ([print_tcp_header_faithful], [print_ip_header_faithful]); the text of a
      packet is that of its fields ([print_wire_header_text]), and it is printed
      exactly when the packet has its headers ([print_wire_header_bounds]).
    - Checksum, HeaderConv: [csum] is the RFC 1071 checksum up to 131076 bytes
      and not beyond; the packets that are filled or completed verify; the
      conversions are inverse to each other up to the fields they fix.
    - Arp: requests for the host are answered as RFC 826 says, everything else
      is ignored.
    - SimDriver: whatever the engine's stalls and whichever of its two blocks
      the simulator runs first, the engine gets the beats of the packets in
      order, all of them once it was ready often enough, each in the lower half
      of a line of 64 bytes whose upper half is memory behind a buffer; and the
      lower halves of what it sends reach the backend ([driver_session]).
    - Rtl, Fifo: a read shows the last value written ([ram_reads_last_write]); a
      queue is first in, first out, and its flags count ([fifo_first_in_first_out]).
    - SlabAlloc: a slab is offered only while nobody has it, and an error only
      when all are in use ([slab_alloc_exclusive]).
    - PacketQueue, PacketQueueController: what is read are the committed packets,
      whole, and a dumped packet leaves nothing behind
      ([packet_queue_all_or_nothing]); of the frames that arrive, those that fit
      are read whole and with their size, the others not at all
      ([packet_queue_controller_whole_frames]).
    - ChksumCalc: the hardware gives the checksum the C++ computes, of every frame
      and at a fixed latency ([chksum_calc_rfc1071]), while its checksum queue
      has room ([sum_0_not_held]).
    - SimCpu: over any sequence of calls the flags are the set of the flows
      announced and not yet reported.
    - AckEngines: acknowledgements are cumulative modulo 2^32
      ([tx_ack_run_cumulative]); what they miss at the ends of the range
      ([tx_ack_engine_overtakes], [tx_ack_engine_deaf]).
    - EstRun, EstFlow: whatever the stalls, the arbiter and the other users of
      the stores do, the pipeline leaves what a machine leaves that treats one
      packet after the other ([est_backend_sequential]), except for the tail of
      the receive buffer, which can be old ([stale_tail_overflows]); a
      connection accepts the segments of its stream in order, each once, and
      only what its buffer has room for, in any run of the pipeline in which that
      does not happen ([est_receives_stream]).
    - RxFsm, TcpStateMachine, FlowId: the handshake treats one packet at a time
      and announces, answers and stores each once ([rx_fsm_one_at_a_time]); a
      SYN and its acknowledgement establish a connection with the state both
      pipelines start from ([three_way_handshake]); numbers handed out are
      free ([flowid_manager_numbers]) until the queue and the counter mix
      ([flowid_in_use_again]); a lost answer is never made good
      ([lost_syn_ack]).
    - IssuePipe: whatever stalls and whatever the handshake writes, the packets
      are numbered and sent as the dispatcher does, to the pipeline of the last
      state written ([rx_issue_sequential]); each pair of addresses has one
      number, and no packet with a number is lost ([rx_issue_delivers]); the
      others are dropped with their payloads ([seventeenth_dropped]).
    - TmpBuf, PayloadPath: no payload is lost, doubled or mixed up between the
      packet it comes in and the receive buffer ([payload_path_copies]), and
      every one has got there after 1253 cycles in which nothing holds the copying
      up, 38 for each of the 32 that can wait and 37 for the one under way
      ([payload_path_drains]).  What is left to suppose
      ([path_ok]) is that a payload fits into a slab, which nothing checks
      ([oversized_payload_overwrites]), that what is enqueued was sent on, once,
      and that a connection is opened before.
    - SendStage, SendRun: the connections are served in turn, those that are
      opened join at the end ([send_pipe_round_robin]), and none waits for ever
      ([send_pipe_serves_all]); the packets of a connection are the segments of
      its stream with consecutive numbers, from the last acknowledged one after
      a request to send again ([send_pipe_stream], [sender_sends_stream]); such
      a request can be lost ([request_lost]).
    - SendPath: a packet leaves with the addresses its connection was opened
      with and a header made of what was read for it, in the order of the turns
      ([send_pipe_wrapper_sends]), and it does leave
      ([send_pipe_wrapper_delivers]); the merger loses and invents nothing
      ([send_merger_transfers]).
    - Lfsr: the generator never gives zero and can be run backwards; its first
      number comes again much sooner than it could ([gen_period_short]).
    - FsmHistory, RxPipe: whatever the network sends and whatever stalls, each
      packet of the handshake is dealt with on the state the ones before it left,
      and the first pipeline sends packets by the states written
      ([rx_pipe_consistent]); nothing is given to the pipeline of established
      connections but after a SYN and a fitting ACK
      ([no_data_without_handshake]); a connection is opened once, while nobody
      works on it ([opened_once_before_data]).  A packet given back can be
      overtaken ([given_back_overtaken]).
    - Engine, TcpEngine: of the whole, packets are treated one at a time by both
      pipelines, and what leaves is a merge of the answers of the handshake and
      the packets of the turns, in their orders ([wrapper_exchanges]); in every
      cycle, the acknowledgement and the window a header made then gets are what
      the packets processed before the cycle give, all of its connection or all
      but the one in the last stage ([up_to_date], [dated]), the acknowledged
      number a turn finds is of the same kind, and the number a packet is
      processed with is the one the turns taken before have reached
      ([wrapper_closes_loop]).  What is left to suppose ([wrapper_ok]) is that the application writes pointers of numbers
      there are, and that no packet meets one of its connection at the end of
      est_pipe.sv, where it would read an old tail ([stale_tail_overflows]).
    - Handshake: the ACK that establishes a connection carries the number of the
      SYN plus one, as read back through the stores and the arbiter that the
      other pipeline uses too ([established_by_numbers]).  A first packet that is
      not a SYN spoils its connection ([stray_first_packet]), which can then be
      established without having been opened ([ghost_connection]).

    A theorem with hypotheses is followed by a witness, an instance on concrete
    values.

    ** What is not modelled

    The rest of the SystemVerilog: the way of the lines from PayloadPath over the
    network on chip (a queue of BaseJump and wr_circ_buf.sv), whose readies are
    inputs;
    the parsing and formatting of headers in frontend/, of chksum_calc.sv its
    two queues and what is behind them; the applications, the stream adapters
    and the circular buffers under common/.  In TcpEngine the network and the
    application are inputs, and of PayloadPath whether its queue is full; in
    PayloadPath the decisions of the pipelines are.
    soc_defs.vh gives the interface 512 bits where testing_utils.h gives it 256:
    SimDriver has both, and what the simulator reads behind the smaller buffer
    is an input.
    In the C++: structs that nothing uses
    (eth_vlan_hdr, sliding_win_state, rx_header_interface_struct,
    tx_data_interface_struct) and [TCPPcapTestingLib::fill_pkt_vectors], an
    empty body that nothing calls.  file_testing_lib.cpp uses two members of
    [sock_state] that testing_utils.h no longer declares: it is modelled over a
    record of those two members.
    Deleting a backend through its base class, which has no virtual destructor,
    is modelled as a plain deletion.  [malloc] and [fopen] for writing do not
    run out of resources, except that a stream being written has bounded
    [room]. *)

From stdpp Require Export base gmap list strings.
From coqutil Require Export Byte.
From coqutil Require Export Word.LittleEndianList.
From Stdlib Require Export ZArith Lia.

#[global] Open Scope Z_scope.


(** ** Decidable equality of bytes *)

#[global] Instance byte_eq_dec : EqDecision Init.Byte.byte := Stdlib.Strings.Byte.byte_eq_dec.

(** ** Observable effects

    [event] is what the C++ code does to the outside: [printf] on standard
    output, [perror] and [fprintf] on standard error, and the DPI calls into
    Verilog. *)

Inductive arg :=
| ANum (z : Z)
| AStr (s : string).

Inductive event :=
| Printf (fmt : string) (args : list arg)
| Perror (s : string)
| Eprintf (s : string)
| FinishFromC
| DriveRxIf (val : bool) (data : list Init.Byte.byte) (last : bool) (padbytes : Z)
| WriteFlowidLookup (new_lookup_entry : list Z) (new_flowid init_ack_num : Z)
| SvSetScope (scope : string).

(** The part of a trace the Verilog side can see. *)
Definition is_dpi (e : event) : bool :=
  match e with Printf _ _ | Perror _ | Eprintf _ => false | _ => true end.

Definition dpi_calls (tr : list event) : list event :=
  List.filter is_dpi tr.

(** ** The state-and-effects monad

    [M S A] is a C++ computation over the state [S]: it returns, with a new
    state, or it stops, because it calls [exit] or because its behaviour is
    undefined (an access out of bounds, a use of freed memory).  The trace of
    the effects is kept in both cases.  [OutOfFuel] is the end of the model of
    a loop; the theorems on the loops show that it is not reached. *)

Inductive stop_reason :=
| Exit (code : Z)
| Undefined
| OutOfFuel.

Inductive outcome (S A : Type) :=
| Done (a : A) (s : S) (tr : list event)
| Stopped (why : stop_reason) (tr : list event).
Arguments Done {S A} _ _ _.
Arguments Stopped {S A} _ _.

Definition M (S A : Type) : Type := S → outcome S A.

Definition after {S A} (tr : list event) (o : outcome S A) : outcome S A :=
  match o with
  | Done a s tr' => Done a s (tr ++ tr')
  | Stopped why tr' => Stopped why (tr ++ tr')
  end.

#[global] Instance M_ret {S} : MRet (M S) := λ A a s, Done a s [].
#[global] Instance M_bind {S} : MBind (M S) := λ A B f m s,
  match m s with
  | Done a s' tr => after tr (f a s')
  | Stopped why tr => Stopped why tr
  end.

Definition get {S} : M S S := λ s, Done s s [].
Definition put {S} (s : S) : M S unit := λ _, Done tt s [].
Definition gets {S A} (f : S → A) : M S A := λ s, Done (f s) s [].
Definition modify {S} (f : S → S) : M S unit := λ s, Done tt (f s) [].
Definition emit {S} (e : event) : M S unit := λ s, Done tt s [e].
Definition stop {S A} (why : stop_reason) : M S A := λ _, Stopped why [].
Definition printf {S} (fmt : string) (args : list arg) : M S unit := emit (Printf fmt args).
Definition perror {S} (s : string) : M S unit := emit (Perror s).
Definition eprintf {S} (s : string) : M S unit := emit (Eprintf s).

(** A partial operation whose failure is undefined behaviour. *)
Definition defined {S A} (o : option A) : M S A := λ s,
  match o with Some a => Done a s [] | None => Stopped Undefined [] end.

(** Running a computation on a component of the state. *)
Definition zoom {S T A} (getT : S → T) (setT : T → S → S) (m : M T A) : M S A := λ s,
  match m (getT s) with
  | Done a t tr => Done a (setT t s) tr
  | Stopped why tr => Stopped why tr
  end.

(** Running a computation on a local variable, whose final value is returned. *)
Definition run_local {S T A} (t : T) (m : M T A) : M S (A * T) := λ s,
  match m t with
  | Done a t' tr => Done (a, t') s tr
  | Stopped why tr => Stopped why tr
  end.

Lemma run_local_done {S T A} (t : T) (m : M T A) (s : S) a t' tr :
  m t = Done a t' tr → run_local t m s = Done (a, t') s tr.
Proof. unfold run_local. by intros ->. Qed.

(** A sequence of calls. *)
Fixpoint run_all {S A} (ms : list (M S A)) : M S (list A) :=
  match ms with
  | [] => mret []
  | m :: ms' => a ← m; l ← run_all ms'; mret (a :: l)
  end.

(** ** The laws of the monad

    Computations are compared pointwise, so that the laws are usable by
    setoid rewriting without functional extensionality. *)

Definition M_equiv {S A} (m1 m2 : M S A) : Prop := ∀ s, m1 s = m2 s.

#[global] Instance M_equiv_equivalence {S A} : Equivalence (@M_equiv S A).
Proof.
  split.
  - intros m s. reflexivity.
  - intros m1 m2 H s. symmetry. apply H.
  - intros m1 m2 m3 H1 H2 s. etransitivity; [apply H1 | apply H2].
Qed.

#[global] Instance M_bind_proper {S A B} :
  Proper (pointwise_relation A (@M_equiv S B) ==> @M_equiv S A ==> @M_equiv S B)
         (@mbind (M S) _ A B).
Proof.
  intros f1 f2 Hf m1 m2 Hm s. unfold mbind, M_bind. rewrite (Hm s).
  destruct (m2 s) as [a s' tr|]; [|reflexivity]. by rewrite (Hf a s').
Qed.

Lemma after_nil {S A} (o : outcome S A) : after [] o = o.
Proof. by destruct o. Qed.

Lemma after_after {S A} t1 t2 (o : outcome S A) :
  after t1 (after t2 o) = after (t1 ++ t2) o.
Proof. destruct o; simpl; by rewrite app_assoc. Qed.

Lemma ret_bind {S A B} (a : A) (f : A → M S B) : M_equiv (mret a ≫= f) (f a).
Proof. intros s. apply after_nil. Qed.

Lemma bind_ret {S A} (m : M S A) : M_equiv (m ≫= mret) m.
Proof.
  intros s. unfold mbind, M_bind. destruct (m s); simpl; [|done].
  by rewrite app_nil_r.
Qed.

Lemma bind_assoc {S A B C} (m : M S A) (f : A → M S B) (g : B → M S C) :
  M_equiv ((m ≫= f) ≫= g) (m ≫= (λ a, f a ≫= g)).
Proof.
  intros s. unfold mbind, M_bind. destruct (m s) as [a s' tr|]; simpl; [|done].
  destruct (f a s') as [b s'' tr'|]; simpl; [|done].
  by rewrite after_after.
Qed.

Lemma bind_done {S A B} (m : M S A) (f : A → M S B) s a s1 t1 :
  m s = Done a s1 t1 → (m ≫= f) s = after t1 (f a s1).
Proof. intros H. unfold mbind, M_bind. by rewrite H. Qed.

Lemma bind_done_nil {S A B} (m : M S A) (f : A → M S B) s a s1 :
  m s = Done a s1 [] → (m ≫= f) s = f a s1.
Proof. intros H. rewrite (bind_done _ _ _ _ _ _ H). apply after_nil. Qed.

Lemma bind_defined {S A B} (o : option A) (f : A → M S B) s a res :
  o = Some a → f a s = res → (defined o ≫= f) s = res.
Proof. intros -> <-. apply after_nil. Qed.

Lemma bind_printf {S B} fmt args (f : unit → M S B) s b s' tr :
  f tt s = Done b s' tr → (printf fmt args ≫= f) s = Done b s' (Printf fmt args :: tr).
Proof. intros H. unfold mbind, M_bind. simpl. by rewrite H. Qed.

Lemma bind_stopped {S A B} (m : M S A) (f : A → M S B) s why tr :
  m s = Stopped why tr → (m ≫= f) s = Stopped why tr.
Proof. intros H. unfold mbind, M_bind. by rewrite H. Qed.

Lemma bind_inv_done {S A B} (m : M S A) (f : A → M S B) s b s2 tr :
  (m ≫= f) s = Done b s2 tr →
  ∃ a s1 t1 t2, m s = Done a s1 t1 ∧ f a s1 = Done b s2 t2 ∧ tr = t1 ++ t2.
Proof.
  unfold mbind, M_bind. destruct (m s) as [a s1 t1|] eqn:Hm; [|done].
  destruct (f a s1) as [b' s2' t2|] eqn:Hf; [|done].
  simpl. intros [= -> -> <-]. eauto 10.
Qed.

(** Every step of a run that returns was defined. *)
Lemma bind_defined_inv {S A B} (o : option A) (f : A → M S B) s b s' tr :
  (defined o ≫= f) s = Done b s' tr → ∃ a, o = Some a ∧ f a s = Done b s' tr.
Proof. destruct o as [a|]; [|done]. rewrite (bind_defined _ _ _ a (f a s)) by done. eauto. Qed.

Lemma bind_printf_inv {S B} fmt args (f : unit → M S B) s b s' tr :
  (printf fmt args ≫= f) s = Done b s' tr → ∃ tr', f tt s = Done b s' tr'.
Proof.
  intros H. apply bind_inv_done in H as (? & ? & ? & ? & [= <- <- <-] & H & _). eauto.
Qed.

Ltac steps_inv :=
  repeat match goal with
  | H : (defined _ ≫= _) _ = Done _ _ _ |- _ => apply bind_defined_inv in H as (? & ? & H)
  | H : (printf _ _ ≫= _) _ = Done _ _ _ |- _ => apply bind_printf_inv in H as [? H]
  end.

Lemma run_all_app {S A} (ms1 ms2 : list (M S A)) s us1 s1 t1 us2 s2 t2 :
  run_all ms1 s = Done us1 s1 t1 → run_all ms2 s1 = Done us2 s2 t2 →
  run_all (ms1 ++ ms2) s = Done (us1 ++ us2) s2 (t1 ++ t2).
Proof.
  revert s us1 t1. induction ms1 as [|m ms1 IH]; intros s us1 t1 H1 H2.
  { injection H1 as <- <- <-. done. }
  cbn [run_all app] in *. apply bind_inv_done in H1 as (a & s3 & t3 & t4 & Hm & H1 & ->).
  apply bind_inv_done in H1 as (l & s4 & t5 & t6 & Hl & H1 & ->). injection H1 as <- <- <-.
  rewrite (bind_done _ _ _ _ _ _ Hm), (bind_done _ _ _ _ _ _ (IH _ _ _ Hl H2)).
  simpl. by rewrite !app_nil_r, <- app_assoc.
Qed.

(** ** Invariants of a computation *)

(** [preserves P m]: a state where [P] holds is left, when [m] returns, in
    a state where [P] holds. *)
Definition preserves {S A} (P : S → Prop) (m : M S A) : Prop := ∀ s a s' tr,
  P s → m s = Done a s' tr → P s'.

Lemma preserves_ret {S A} (P : S → Prop) (a : A) : preserves P (mret a).
Proof. by intros s a' s' tr HP [= _ <- _]. Qed.
Lemma preserves_gets {S A} (P : S → Prop) (f : S → A) : preserves P (gets f).
Proof. by intros s a' s' tr HP [= _ <- _]. Qed.
Lemma preserves_get {S} (P : S → Prop) : preserves P get.
Proof. by intros s a' s' tr HP [= _ <- _]. Qed.
Lemma preserves_emit {S} (P : S → Prop) e : preserves P (emit e).
Proof. by intros s a' s' tr HP [= _ <- _]. Qed.
Lemma preserves_printf {S} (P : S → Prop) fmt args : preserves P (printf fmt args).
Proof. apply preserves_emit. Qed.
Lemma preserves_stop {S A} (P : S → Prop) why : preserves P (stop why : M S A).
Proof. done. Qed.
Lemma preserves_defined {S A} (P : S → Prop) (o : option A) : preserves P (defined o).
Proof. intros s a s' tr HP. unfold defined. destruct o; [|done]. by intros [= _ <- _]. Qed.
Lemma preserves_modify {S} (P : S → Prop) (f : S → S) :
  (∀ s, P s → P (f s)) → preserves P (modify f).
Proof. intros Hf s a s' tr HP [= _ <- _]. by apply Hf. Qed.

Lemma preserves_bind {S A B} (P : S → Prop) (m : M S A) (f : A → M S B) :
  preserves P m → (∀ a, preserves P (f a)) → preserves P (m ≫= f).
Proof.
  intros Hm Hf s b s' tr HP H. apply bind_inv_done in H as (a & s1 & t1 & t2 & H1 & H2 & _).
  eapply Hf, H2. by eapply Hm, H1.
Qed.

Lemma preserves_run_local {S T A} (P : S → Prop) (t : T) (m : M T A) : preserves P (run_local t m).
Proof. intros s a s' tr HP. unfold run_local. destruct (m t); [|done]. by intros [= _ <- _]. Qed.

Create HintDb preserves.
#[export] Hint Resolve preserves_ret preserves_gets preserves_get preserves_emit preserves_printf
  preserves_stop preserves_defined preserves_modify preserves_run_local : preserves.

(** [preserves_tac] follows the shape of the code. *)
Ltac preserves_tac :=
  repeat first
    [ progress intros
    | solve [eauto with preserves]
    | apply preserves_bind
    | case_match ].

(** ** Traces *)

Lemma dpi_calls_app t1 t2 : dpi_calls (t1 ++ t2) = dpi_calls t1 ++ dpi_calls t2.
Proof. apply List.filter_app. Qed.

Lemma dpi_calls_printf fmt args tr : dpi_calls (Printf fmt args :: tr) = dpi_calls tr.
Proof. reflexivity. Qed.

(** ** Automation of the development *)

Create HintDb dpi.

(** ** Generic lemmas on lists *)

Lemma take_app_exact {A} (l1 l2 : list A) n : n = length l1 → take n (l1 ++ l2) = l1.
Proof. intros ->. apply take_app_length. Qed.

Lemma drop_app_exact {A} (l1 l2 : list A) n : n = length l1 → drop n (l1 ++ l2) = l2.
Proof. intros ->. apply drop_app_length. Qed.

Create Rewrite HintDb len.
#[export] Hint Rewrite @length_app @length_take @length_drop @length_cons @length_nil
  @length_reverse @length_replicate : len.

Ltac len := autorewrite with len in *; try lia.
