(* ===== verification/Words.v ===== *)
(** Words: machine integers at their width, byte buffers in memory and the
    byte-order conversions of <arpa/inet.h>.

    The target is the one the simulator is built for: a little-endian LP64
    machine (x86-64 Linux).  An integer of width [w] is a [Z]; every
    assignment that narrows or wraps says so with [u8] ... [u64], [s16],
    [s32].  A memory region is a [list byte]; an access outside it is
    [None]. *)

From S2P Require Import Prelude.

Abbreviation byte := Init.Byte.byte.

(** ** Fixed-width integers *)

Definition u8 (z : Z) : Z := z mod 2 ^ 8.
Definition u16 (z : Z) : Z := z mod 2 ^ 16.
Definition u32 (z : Z) : Z := z mod 2 ^ 32.
Definition u64 (z : Z) : Z := z mod 2 ^ 64.
Definition s16 (z : Z) : Z := (z + 2 ^ 15) mod 2 ^ 16 - 2 ^ 15.
Definition s32 (z : Z) : Z := (z + 2 ^ 31) mod 2 ^ 32 - 2 ^ 31.

(** [fits n z]: [z] is a value of an unsigned [n]-byte integer. *)
Definition fits (n : nat) (z : Z) : Prop := 0 ≤ z < 2 ^ (8 * Z.of_nat n).

#[global] Instance fits_dec n z : Decision (fits n z).
Proof. unfold fits. apply _. Defined.

Lemma u8_fits z : fits 1 (u8 z).
Proof. apply Z.mod_pos_bound. lia. Qed.
Lemma u16_fits z : fits 2 (u16 z).
Proof. apply Z.mod_pos_bound. lia. Qed.
Lemma u32_fits z : fits 4 (u32 z).
Proof. apply Z.mod_pos_bound. lia. Qed.

Lemma u8_small z : fits 1 z → u8 z = z.
Proof. apply Z.mod_small. Qed.
Lemma u16_small z : fits 2 z → u16 z = z.
Proof. apply Z.mod_small. Qed.
Lemma u32_small z : fits 4 z → u32 z = z.
Proof. apply Z.mod_small. Qed.

Lemma u16_s16 z : u16 (s16 z) = u16 z.
Proof.
  unfold u16, s16. rewrite Zminus_mod_idemp_l. f_equal. lia.
Qed.

Lemma s32_small z : - 2 ^ 31 ≤ z < 2 ^ 31 → s32 z = z.
Proof. intros. unfold s32. rewrite Z.mod_small; lia. Qed.

#[export] Hint Resolve u8_fits u16_fits u32_fits : dpi.

(** ** Little-endian encodings *)

Lemma le_split_length n z : length (le_split n z) = n.
Proof. apply length_le_split. Qed.

#[export] Hint Rewrite le_split_length : len.

Lemma le_combine_fits bs : fits (length bs) (le_combine bs).
Proof. apply le_combine_bound. Qed.

Lemma le_combine_split_fits n z : fits n z → le_combine (le_split n z) = z.
Proof.
  intros H. rewrite le_combine_split. apply Z.mod_small.
  unfold fits in H. by rewrite Z.mul_comm.
Qed.

(** Two fields that do not overlap: [|] is [+]. *)
Lemma lor_shiftl_add n a b :
  0 ≤ n → 0 ≤ a < 2 ^ n → Z.lor a (Z.shiftl b n) = b * 2 ^ n + a.
Proof.
  intros Hn Ha. pose proof (Z.add_lor_land a (Z.shiftl b n)) as E.
  assert (Z.land a (Z.shiftl b n) = 0) as H0.
  { apply Z.bits_inj'. intros i Hi. rewrite Z.land_spec, Z.bits_0.
    destruct (Z.lt_ge_cases i n).
    - rewrite Z.shiftl_spec_low by lia. apply andb_false_r.
    - rewrite <- (Z.mod_small a (2 ^ n)) by lia.
      by rewrite Z.mod_pow2_bits_high by lia. }
  rewrite Z.shiftl_mul_pow2 in * by lia. lia.
Qed.

(** ** Memory accesses *)

(** [n] bytes at offset [off] of a region. *)
Definition rd_bytes (n off : nat) (buf : list byte) : option (list byte) :=
  if decide (off + n ≤ length buf)%nat then Some (take n (drop off buf)) else None.

(** [memcpy] into a region at offset [off]. *)
Definition wr_bytes (off : nat) (bs buf : list byte) : option (list byte) :=
  if decide (off + length bs ≤ length buf)%nat
  then Some (take off buf ++ bs ++ drop (off + length bs) buf) else None.

(** An [n]-byte unsigned integer of the target at offset [off]. *)
Definition rd (n off : nat) (buf : list byte) : option Z :=
  le_combine <$> rd_bytes n off buf.

Definition wr (n off : nat) (v : Z) (buf : list byte) : option (list byte) :=
  wr_bytes off (le_split n v) buf.

Lemma rd_bytes_Some n off buf bs :
  rd_bytes n off buf = Some bs ↔ (off + n ≤ length buf)%nat ∧ bs = take n (drop off buf).
Proof. unfold rd_bytes. case_decide; naive_solver. Qed.

Lemma rd_bytes_None n off buf : rd_bytes n off buf = None ↔ (length buf < off + n)%nat.
Proof. unfold rd_bytes. case_decide; split; intros; done || lia. Qed.

Lemma rd_bytes_length n off buf bs : rd_bytes n off buf = Some bs → length bs = n.
Proof. intros [? ->]%rd_bytes_Some. len. Qed.

Lemma rd_bytes_all buf : rd_bytes (length buf) 0 buf = Some buf.
Proof. apply rd_bytes_Some. split; [lia|]. by rewrite drop_0, take_ge. Qed.

(** A read that stays in the first part of a region. *)
Lemma rd_bytes_app_l n off l1 l2 :
  (off + n ≤ length l1)%nat → rd_bytes n off (l1 ++ l2) = rd_bytes n off l1.
Proof.
  intros. unfold rd_bytes. do 2 case_decide; len.
  by rewrite drop_app_le, take_app_le by len.
Qed.

Lemma rd_app_l n off l1 l2 :
  (off + n ≤ length l1)%nat → rd n off (l1 ++ l2) = rd n off l1.
Proof. intros. unfold rd. by rewrite rd_bytes_app_l. Qed.

(** The bytes in the middle of an explicit concatenation. *)
Lemma rd_bytes_app n off l1 l2 l3 :
  off = length l1 → n = length l2 → rd_bytes n off (l1 ++ l2 ++ l3) = Some l2.
Proof.
  intros -> ->. apply rd_bytes_Some. split; [len|].
  by rewrite drop_app_length, take_app_length.
Qed.

Lemma rd_app n off l1 l2 l3 :
  off = length l1 → n = length l2 → rd n off (l1 ++ l2 ++ l3) = Some (le_combine l2).
Proof. intros. unfold rd. by rewrite (rd_bytes_app _ _ _ l2). Qed.

Lemma rd_fits n off buf v : rd n off buf = Some v → fits n v.
Proof.
  unfold rd. destruct (rd_bytes n off buf) as [bs|] eqn:H; [|done].
  simpl. intros [= <-]. rewrite <- (rd_bytes_length _ _ _ _ H). apply le_combine_fits.
Qed.

Lemma rd_None n off buf : rd n off buf = None ↔ (length buf < off + n)%nat.
Proof. unfold rd. rewrite fmap_None. apply rd_bytes_None. Qed.

Lemma rd_is_Some n off buf : (off + n ≤ length buf)%nat → is_Some (rd n off buf).
Proof.
  intros. destruct (rd n off buf) eqn:E; [eauto|]. apply rd_None in E. lia.
Qed.

Lemma wr_bytes_Some off bs buf buf' :
  wr_bytes off bs buf = Some buf' ↔
  (off + length bs ≤ length buf)%nat ∧
  buf' = take off buf ++ bs ++ drop (off + length bs) buf.
Proof. unfold wr_bytes. case_decide; naive_solver. Qed.

Lemma wr_bytes_None off bs buf :
  wr_bytes off bs buf = None ↔ (length buf < off + length bs)%nat.
Proof. unfold wr_bytes. case_decide; split; intros; done || lia. Qed.

Lemma wr_bytes_length off bs buf buf' :
  wr_bytes off bs buf = Some buf' → length buf' = length buf.
Proof. intros [? ->]%wr_bytes_Some. len. Qed.

(** A write that covers the middle of an explicit concatenation. *)
Lemma wr_bytes_app off l1 l2 l3 bs :
  off = length l1 → length bs = length l2 →
  wr_bytes off bs (l1 ++ l2 ++ l3) = Some (l1 ++ bs ++ l3).
Proof.
  intros -> Hl. apply wr_bytes_Some. split; [len|].
  rewrite take_app_length. do 2 f_equal.
  rewrite Hl, <- drop_drop, drop_app_length, drop_app_length. done.
Qed.

Lemma rd_bytes_wr_bytes_eq off bs buf buf' :
  wr_bytes off bs buf = Some buf' → rd_bytes (length bs) off buf' = Some bs.
Proof.
  intros [? ->]%wr_bytes_Some. apply rd_bytes_app; len.
Qed.

Lemma rd_wr_eq n off v buf buf' :
  wr n off v buf = Some buf' → fits n v → rd n off buf' = Some v.
Proof.
  unfold wr, rd. intros H%rd_bytes_wr_bytes_eq Hv. rewrite le_split_length in H.
  rewrite H. simpl. by rewrite le_combine_split_fits.
Qed.

Lemma rd_bytes_wr_bytes_ne n off off' bs buf buf' :
  wr_bytes off bs buf = Some buf' →
  (off' + n ≤ off ∨ off + length bs ≤ off')%nat →
  rd_bytes n off' buf' = rd_bytes n off' buf.
Proof.
  intros Hw Hd. pose proof (wr_bytes_length _ _ _ _ Hw) as Hl.
  apply wr_bytes_Some in Hw as [Hb ->]. unfold rd_bytes. rewrite Hl.
  case_decide; [|done]. f_equal. destruct Hd as [Hd|Hd].
  - rewrite drop_app_le by len. rewrite take_app_le by len.
    rewrite <- (take_drop off buf) at 2.
    rewrite drop_app_le by len. rewrite take_app_le by len. done.
  - rewrite (drop_app_ge _ _ off') by len.
    rewrite drop_app_ge by len. rewrite drop_drop. do 2 f_equal. len.
Qed.

Lemma rd_wr_ne n m off off' v buf buf' :
  wr m off v buf = Some buf' →
  (off' + n ≤ off ∨ off + m ≤ off')%nat →
  rd n off' buf' = rd n off' buf.
Proof.
  unfold wr, rd. intros H Hd. f_equal. eapply rd_bytes_wr_bytes_ne; [done|len].
Qed.

(** Writing back what is there changes nothing. *)
Lemma wr_bytes_rd_bytes n off buf bs :
  rd_bytes n off buf = Some bs → wr_bytes off bs buf = Some buf.
Proof.
  intros H. pose proof (rd_bytes_length _ _ _ _ H) as Hl.
  apply rd_bytes_Some in H as [? ->]. apply wr_bytes_Some. split; [lia|].
  rewrite Hl, <- drop_drop, take_drop, take_drop. done.
Qed.

(** ** Byte order: [htons], [htonl] and their inverses *)

Definition bswap (n : nat) (z : Z) : Z := le_combine (reverse (le_split n z)).

Definition htons (z : Z) : Z := bswap 2 z.
Definition ntohs (z : Z) : Z := bswap 2 z.
Definition htonl (z : Z) : Z := bswap 4 z.
Definition ntohl (z : Z) : Z := bswap 4 z.

(** The value of bytes in network order. *)
Definition be_combine (bs : list byte) : Z := le_combine (reverse bs).
Definition be_split (n : nat) (z : Z) : list byte := reverse (le_split n z).

Lemma bswap_fits n z : fits n (bswap n z).
Proof.
  unfold bswap. pose proof (le_combine_fits (reverse (le_split n z))) as H.
  by rewrite length_reverse, le_split_length in H.
Qed.

Lemma le_split_bswap n z : le_split n (bswap n z) = reverse (le_split n z).
Proof. unfold bswap. apply split_le_combine'. len. Qed.

Lemma bswap_involutive n z : fits n z → bswap n (bswap n z) = z.
Proof.
  intros H. unfold bswap at 1. rewrite le_split_bswap, reverse_involutive.
  by apply le_combine_split_fits.
Qed.

Lemma bswap_mod n z : bswap n (z mod 2 ^ (Z.of_nat n * 8)) = bswap n z.
Proof. unfold bswap. by rewrite <- le_split_mod. Qed.

(** Whatever the width of the argument, swapping twice truncates it. *)
Lemma bswap_bswap n z : bswap n (bswap n z) = z mod 2 ^ (Z.of_nat n * 8).
Proof.
  rewrite <- (bswap_mod n z). apply bswap_involutive. unfold fits.
  rewrite Z.mul_comm. apply Z.mod_pos_bound, Z.pow_pos_nonneg; lia.
Qed.

Lemma le_split_htons z : le_split 2 (htons z) = be_split 2 z.
Proof. apply le_split_bswap. Qed.
Lemma le_split_htonl z : le_split 4 (htonl z) = be_split 4 z.
Proof. apply le_split_bswap. Qed.

Lemma bswap_le_combine bs : bswap (length bs) (le_combine bs) = be_combine bs.
Proof. unfold bswap, be_combine. by rewrite split_le_combine. Qed.

Lemma bswap_inj n x y : fits n x → fits n y → bswap n x = bswap n y → x = y.
Proof.
  intros Hx Hy H. rewrite <- (bswap_involutive n x), <- (bswap_involutive n y) by done.
  by rewrite H.
Qed.

Lemma ntohs_htons z : fits 2 z → ntohs (htons z) = z.
Proof. apply bswap_involutive. Qed.
Lemma ntohl_htonl z : fits 4 z → ntohl (htonl z) = z.
Proof. apply bswap_involutive. Qed.
Lemma htons_fits z : fits 2 (htons z).
Proof. apply bswap_fits. Qed.
Lemma htonl_fits z : fits 4 (htonl z).
Proof. apply bswap_fits. Qed.

#[export] Hint Resolve htons_fits htonl_fits : dpi.
