(* ===== verification/Headers.v ===== *)
(** Headers: the data of sim_dpi/flows.h and sim_dpi/testing_utils.h.

    A struct that the code only reaches by casting a buffer pointer is a list
    of fields (offset and width, the packed layout), read with [ld].  A struct
    the code keeps as a value is a record, with the bytes it occupies in
    memory ([.._enc]) and the record a region holds ([.._dec]). *)

From S2P Require Import Prelude Words.

(** ** Constants *)

Definition HOST_IP : Z := 0x12700000.
Definition BASE_DEST_IP : Z := 0x12800000.
Definition HOST_PORT : Z := 0x100.
Definition BASE_DEST_PORT : Z := 0x1000.
Definition ACTIVE_FLOW_CNT : nat := 4.
Definition NUM_PAYLOADS : nat := 16.

Definition TCP_FIN : Z := 1.
Definition TCP_SYN : Z := 2.
Definition TCP_RST : Z := 4.
Definition TCP_PSH : Z := 8.
Definition TCP_ACK : Z := 16.
Definition TCP_URG : Z := 32.
Definition TCP_ECE : Z := 64.
Definition TCP_CWR : Z := 128.

Definition ETH_TYPE_IPV4 : Z := 0x0800.
Definition ETH_TYPE_VLAN : Z := 0x8100.

Definition RAW : Z := 0.
Definition FILE_IO : Z := 1.
Definition PCAP_TRACE : Z := 2.
Definition BACKEND : Z := PCAP_TRACE.
Definition MAC_INTERFACE_W : Z := 256.

(** Constants of the system headers the code uses. *)
Definition IPPROTO_TCP : Z := 6.
Definition AF_INET : Z := 2.
Definition ETHERTYPE_IP : Z := 0x0800.
Definition ETHERTYPE_ARP : Z := 0x0806.
Definition ARPHRD_ETHER : Z := 1.
Definition ARPOP_REQUEST : Z := 1.
Definition ARPOP_REPLY : Z := 2.
Definition ETHER_ADDR_LEN : nat := 6.

(** ** Fields of packed structs *)

Record field := Field { f_off : nat; f_len : nat }.

Definition ld (base : nat) (f : field) (buf : list byte) : option Z :=
  rd (f_len f) (base + f_off f) buf.
Definition ld_bytes (base : nat) (f : field) (buf : list byte) : option (list byte) :=
  rd_bytes (f_len f) (base + f_off f) buf.
Definition st (base : nat) (f : field) (v : Z) (buf : list byte) : option (list byte) :=
  wr (f_len f) (base + f_off f) v buf.

(** [struct eth_hdr], and [struct ether_header] of <net/ethernet.h>. *)
Definition eth_dst_addr : field := Field 0 6.
Definition eth_src_addr : field := Field 6 6.
Definition eth_type : field := Field 12 2.
Definition sizeof_eth_hdr : nat := 14.

(** [struct ip_hdr], and [struct iphdr] of <netinet/ip.h>. *)
Definition ip_ver_ihl : field := Field 0 1.
Definition ip_tos : field := Field 1 1.
Definition ip_total_length : field := Field 2 2.
Definition ip_id : field := Field 4 2.
Definition ip_flags_fo : field := Field 6 2.
Definition ip_ttl : field := Field 8 1.
Definition ip_protocol : field := Field 9 1.
Definition ip_checksum : field := Field 10 2.
Definition ip_src_addr : field := Field 12 4.
Definition ip_dst_addr : field := Field 16 4.
Definition sizeof_ip_hdr : nat := 20.

(** [struct tcp_header], and [struct tcphdr] of <netinet/tcp.h>. *)
Definition tcp_src_port : field := Field 0 2.
Definition tcp_dst_port : field := Field 2 2.
Definition tcp_seq_num : field := Field 4 4.
Definition tcp_ack_num : field := Field 8 4.
Definition tcp_hdrlen_rsvd_nonce : field := Field 12 1.
Definition tcp_flags : field := Field 13 1.
Definition tcp_win_size : field := Field 14 2.
Definition tcp_chksum : field := Field 16 2.
Definition tcp_urg_pointer : field := Field 18 2.
Definition sizeof_tcphdr : nat := 20.

(** [struct ether_arp] of <netinet/if_ether.h>. *)
Definition ar_hrd : field := Field 0 2.
Definition ar_pro : field := Field 2 2.
Definition ar_hln : field := Field 4 1.
Definition ar_pln : field := Field 5 1.
Definition ar_op : field := Field 6 2.
Definition arp_sha : field := Field 8 6.
Definition arp_spa : field := Field 14 4.
Definition arp_tha : field := Field 18 6.
Definition arp_tpa : field := Field 24 4.
Definition sizeof_ether_arp : nat := 28.

(** ** Records *)

Record tcp_header := {
  src_port : Z;
  dst_port : Z;
  seq_num : Z;
  ack_num : Z;
  hdrlen_rsvd_nonce : Z;
  flags : Z;
  win_size : Z;
  chksum : Z;
  urg_pointer : Z }.

Definition tcp_header_ok (h : tcp_header) : Prop :=
  fits 2 (src_port h) ∧ fits 2 (dst_port h) ∧ fits 4 (seq_num h) ∧ fits 4 (ack_num h) ∧
  fits 1 (hdrlen_rsvd_nonce h) ∧ fits 1 (flags h) ∧ fits 2 (win_size h) ∧
  fits 2 (chksum h) ∧ fits 2 (urg_pointer h).

Definition tcp_header_enc (h : tcp_header) : list byte :=
  le_split 2 (src_port h) ++ le_split 2 (dst_port h) ++ le_split 4 (seq_num h) ++
  le_split 4 (ack_num h) ++ le_split 1 (hdrlen_rsvd_nonce h) ++ le_split 1 (flags h) ++
  le_split 2 (win_size h) ++ le_split 2 (chksum h) ++ le_split 2 (urg_pointer h).

Definition tcp_header_dec (buf : list byte) : option tcp_header :=
  v_src ← ld 0 tcp_src_port buf; v_dst ← ld 0 tcp_dst_port buf;
  v_seq ← ld 0 tcp_seq_num buf; v_ack ← ld 0 tcp_ack_num buf;
  v_hl ← ld 0 tcp_hdrlen_rsvd_nonce buf; v_fl ← ld 0 tcp_flags buf;
  v_win ← ld 0 tcp_win_size buf; v_ck ← ld 0 tcp_chksum buf;
  v_urg ← ld 0 tcp_urg_pointer buf;
  Some {| src_port := v_src; dst_port := v_dst; seq_num := v_seq; ack_num := v_ack;
          hdrlen_rsvd_nonce := v_hl; flags := v_fl; win_size := v_win; chksum := v_ck;
          urg_pointer := v_urg |}.

(** [struct tcphdr]: the bit-fields of bytes 12 and 13 start at the low bit. *)
Record tcphdr := {
  th_source : Z;
  th_dest : Z;
  th_seq : Z;
  th_ack_seq : Z;
  th_res1 : Z;
  th_doff : Z;
  th_fin : Z;
  th_syn : Z;
  th_rst : Z;
  th_psh : Z;
  th_ack : Z;
  th_urg : Z;
  th_res2 : Z;
  th_window : Z;
  th_check : Z;
  th_urg_ptr : Z }.

Definition bits (n : Z) (v : Z) : Prop := 0 ≤ v < 2 ^ n.

Definition tcphdr_ok (h : tcphdr) : Prop :=
  fits 2 (th_source h) ∧ fits 2 (th_dest h) ∧ fits 4 (th_seq h) ∧ fits 4 (th_ack_seq h) ∧
  bits 4 (th_res1 h) ∧ bits 4 (th_doff h) ∧ bits 1 (th_fin h) ∧ bits 1 (th_syn h) ∧
  bits 1 (th_rst h) ∧ bits 1 (th_psh h) ∧ bits 1 (th_ack h) ∧ bits 1 (th_urg h) ∧
  bits 2 (th_res2 h) ∧ fits 2 (th_window h) ∧ fits 2 (th_check h) ∧ fits 2 (th_urg_ptr h).

Definition th_byte12 (h : tcphdr) : Z := th_res1 h + 16 * th_doff h.
Definition th_byte13 (h : tcphdr) : Z :=
  th_fin h + 2 * th_syn h + 4 * th_rst h + 8 * th_psh h + 16 * th_ack h +
  32 * th_urg h + 64 * th_res2 h.

Definition tcphdr_enc (h : tcphdr) : list byte :=
  le_split 2 (th_source h) ++ le_split 2 (th_dest h) ++ le_split 4 (th_seq h) ++
  le_split 4 (th_ack_seq h) ++ le_split 1 (th_byte12 h) ++ le_split 1 (th_byte13 h) ++
  le_split 2 (th_window h) ++ le_split 2 (th_check h) ++ le_split 2 (th_urg_ptr h).

Definition tcphdr_dec (buf : list byte) : option tcphdr :=
  v_src ← ld 0 tcp_src_port buf; v_dst ← ld 0 tcp_dst_port buf;
  v_seq ← ld 0 tcp_seq_num buf; v_ack ← ld 0 tcp_ack_num buf;
  b12 ← ld 0 tcp_hdrlen_rsvd_nonce buf; b13 ← ld 0 tcp_flags buf;
  v_win ← ld 0 tcp_win_size buf; v_ck ← ld 0 tcp_chksum buf;
  v_urg ← ld 0 tcp_urg_pointer buf;
  Some {| th_source := v_src; th_dest := v_dst; th_seq := v_seq; th_ack_seq := v_ack;
          th_res1 := b12 mod 16; th_doff := b12 / 16;
          th_fin := b13 mod 2; th_syn := b13 / 2 mod 2; th_rst := b13 / 4 mod 2;
          th_psh := b13 / 8 mod 2; th_ack := b13 / 16 mod 2; th_urg := b13 / 32 mod 2;
          th_res2 := b13 / 64;
          th_window := v_win; th_check := v_ck; th_urg_ptr := v_urg |}.

(** [struct iphdr]: [ihl] is the low half of byte 0, [version] the high half. *)
Record iphdr := {
  ih_ihl : Z;
  ih_version : Z;
  ih_tos : Z;
  ih_tot_len : Z;
  ih_id : Z;
  ih_frag_off : Z;
  ih_ttl : Z;
  ih_protocol : Z;
  ih_check : Z;
  ih_saddr : Z;
  ih_daddr : Z }.

Definition iphdr_ok (h : iphdr) : Prop :=
  bits 4 (ih_ihl h) ∧ bits 4 (ih_version h) ∧ fits 1 (ih_tos h) ∧ fits 2 (ih_tot_len h) ∧
  fits 2 (ih_id h) ∧ fits 2 (ih_frag_off h) ∧ fits 1 (ih_ttl h) ∧ fits 1 (ih_protocol h) ∧
  fits 2 (ih_check h) ∧ fits 4 (ih_saddr h) ∧ fits 4 (ih_daddr h).

Definition iphdr_enc (h : iphdr) : list byte :=
  le_split 1 (ih_ihl h + 16 * ih_version h) ++ le_split 1 (ih_tos h) ++
  le_split 2 (ih_tot_len h) ++ le_split 2 (ih_id h) ++ le_split 2 (ih_frag_off h) ++
  le_split 1 (ih_ttl h) ++ le_split 1 (ih_protocol h) ++ le_split 2 (ih_check h) ++
  le_split 4 (ih_saddr h) ++ le_split 4 (ih_daddr h).

Definition iphdr_dec (buf : list byte) : option iphdr :=
  b0 ← ld 0 ip_ver_ihl buf; v_tos ← ld 0 ip_tos buf; v_len ← ld 0 ip_total_length buf;
  v_id ← ld 0 ip_id buf; v_fo ← ld 0 ip_flags_fo buf; v_ttl ← ld 0 ip_ttl buf;
  v_pr ← ld 0 ip_protocol buf; v_ck ← ld 0 ip_checksum buf;
  v_sa ← ld 0 ip_src_addr buf; v_da ← ld 0 ip_dst_addr buf;
  Some {| ih_ihl := b0 mod 16; ih_version := b0 / 16; ih_tos := v_tos; ih_tot_len := v_len;
          ih_id := v_id; ih_frag_off := v_fo; ih_ttl := v_ttl; ih_protocol := v_pr;
          ih_check := v_ck; ih_saddr := v_sa; ih_daddr := v_da |}.

(** [struct TCPChecksumHeader], the pseudo header of the TCP checksum. *)
Record TCPChecksumHeader := {
  srcAddr : Z;
  dstAddr : Z;
  zero : Z;
  protocol : Z;
  TCP_len : Z }.

Definition TCPChecksumHeader_enc (p : TCPChecksumHeader) : list byte :=
  le_split 4 (srcAddr p) ++ le_split 4 (dstAddr p) ++ le_split 1 (zero p) ++
  le_split 1 (protocol p) ++ le_split 2 (TCP_len p).

Definition sizeof_TCPChecksumHeader : nat := 12.

(** [struct sockaddr_in], the fields the code uses. *)
Record sockaddr_in := {
  sin_family : Z;
  sin_port : Z;
  s_addr : Z }.

Record sock_state := {
  send_sock : Z;
  recv_sock : Z;
  source_addr : sockaddr_in;
  dest_addr : sockaddr_in;
  source_mac_addr : list byte;
  dest_mac_addr : list byte;
  has_syn_acked : Z;
  init_ack_num : Z }.

Definition sock_state_ok (s : sock_state) : Prop :=
  length (source_mac_addr s) = 6%nat ∧ length (dest_mac_addr s) = 6%nat ∧
  fits 4 (s_addr (source_addr s)).

Definition set_dest_mac_addr (mac : list byte) (s : sock_state) : sock_state :=
  {| send_sock := send_sock s; recv_sock := recv_sock s; source_addr := source_addr s;
     dest_addr := dest_addr s; source_mac_addr := source_mac_addr s; dest_mac_addr := mac;
     has_syn_acked := has_syn_acked s; init_ack_num := init_ack_num s |}.

(** ** Flow tuples *)

Record TCPFlowTuple := {
  my_ip : Z;
  their_ip : Z;
  my_port : Z;
  their_port : Z }.

(** [TCPFlowTuple::operator==] *)
Definition flow_tuple_eqb (a b : TCPFlowTuple) : bool :=
  (my_ip a =? my_ip b) && (their_ip a =? their_ip b) &&
  (my_port a =? my_port b) && (their_port a =? their_port b).

#[global] Instance TCPFlowTuple_eq_dec : EqDecision TCPFlowTuple.
Proof. solve_decision. Defined.

#[global] Program Instance TCPFlowTuple_countable : Countable TCPFlowTuple :=
  inj_countable' (λ t, (my_ip t, their_ip t, my_port t, their_port t))
    (λ '(a, b, c, d), {| my_ip := a; their_ip := b; my_port := c; their_port := d |}) _.
Next Obligation. by intros []. Qed.

(** [TCPFlowTupleHash]: boost's two functions are not part of this code. *)
Section Hash.
Variable hash_value : Z → Z.
Variable hash_combine : Z → Z → Z.

Definition TCPFlowTupleHash (t : TCPFlowTuple) : Z :=
  let seed := 0 in
  let seed := hash_combine seed (hash_value (my_ip t)) in
  let seed := hash_combine seed (hash_value (their_ip t)) in
  let seed := hash_combine seed (hash_value (my_port t)) in
  let seed := hash_combine seed (hash_value (their_port t)) in
  seed.
End Hash.

(** ** Lemmas *)

Lemma flow_tuple_eqb_eq a b : flow_tuple_eqb a b = true ↔ a = b.
Proof.
  unfold flow_tuple_eqb. rewrite !andb_true_iff, !Z.eqb_eq.
  destruct a, b; simpl. naive_solver.
Qed.

(** Reading a concatenation of encoded fields, from the left. *)
Lemma rd_cons_hit n l v : fits n v → rd n 0 (le_split n v ++ l) = Some v.
Proof.
  intros Hv. pose proof (rd_app n 0 [] (le_split n v) l) as H. simpl in H.
  rewrite H by len. by rewrite le_combine_split_fits.
Qed.

Lemma rd_last_hit n v : fits n v → rd n 0 (le_split n v) = Some v.
Proof. intros Hv. rewrite <- (app_nil_r (le_split n v)). by apply rd_cons_hit. Qed.

Lemma rd_bytes_skip n off l1 l :
  (length l1 ≤ off)%nat → rd_bytes n off (l1 ++ l) = rd_bytes n (off - length l1) l.
Proof.
  intros H. unfold rd_bytes. rewrite length_app.
  case_decide; case_decide; try lia; [|done].
  by rewrite drop_app_ge by lia.
Qed.

Lemma rd_skip n off l1 l :
  (length l1 ≤ off)%nat → rd n off (l1 ++ l) = rd n (off - length l1) l.
Proof. intros. unfold rd. by rewrite rd_bytes_skip. Qed.

Lemma ld_app_l base f l1 l2 :
  (base + f_off f + f_len f ≤ length l1)%nat → ld base f (l1 ++ l2) = ld base f l1.
Proof. apply rd_app_l. Qed.

(** [rd_enc] reads a field of an encoded struct. *)
Ltac rd_enc :=
  repeat (rewrite rd_skip by len);
  rewrite ?le_split_length; cbn [Nat.sub];
  first [ rewrite rd_cons_hit by assumption | rewrite rd_last_hit by assumption ].

Ltac ld_concrete :=
  match goal with
  | |- context [ld ?b ?f ?l] =>
      let off := eval cbv in (b + f_off f)%nat in
      let n := eval cbv in (f_len f) in
      change (ld b f l) with (rd n off l)
  end.

Ltac ld_enc := repeat (ld_concrete; rd_enc; cbn [mbind option_bind]).

Lemma tcp_header_enc_length h : length (tcp_header_enc h) = 20%nat.
Proof. reflexivity. Qed.
Lemma tcphdr_enc_length h : length (tcphdr_enc h) = 20%nat.
Proof. reflexivity. Qed.
Lemma iphdr_enc_length h : length (iphdr_enc h) = 20%nat.
Proof. reflexivity. Qed.
Lemma TCPChecksumHeader_enc_length p :
  length (TCPChecksumHeader_enc p) = 12%nat.
Proof. reflexivity. Qed.

#[export] Hint Rewrite tcp_header_enc_length tcphdr_enc_length iphdr_enc_length
  TCPChecksumHeader_enc_length : len.

Lemma tcp_header_dec_enc h : tcp_header_ok h → tcp_header_dec (tcp_header_enc h) = Some h.
Proof.
  destruct h. intros (?&?&?&?&?&?&?&?&?).
  simpl in * |-. unfold tcp_header_dec, tcp_header_enc.
  cbn [src_port dst_port seq_num ack_num hdrlen_rsvd_nonce flags win_size chksum urg_pointer].
  ld_enc. reflexivity.
Qed.

Lemma th_byte12_fits h : tcphdr_ok h → fits 1 (th_byte12 h).
Proof. unfold tcphdr_ok, th_byte12, fits, bits. intros. lia. Qed.

Lemma th_byte13_fits h : tcphdr_ok h → fits 1 (th_byte13 h).
Proof. unfold tcphdr_ok, th_byte13, fits, bits. intros. lia. Qed.

Lemma tcphdr_dec_enc h : tcphdr_ok h → tcphdr_dec (tcphdr_enc h) = Some h.
Proof.
  intros Hok. pose proof (th_byte12_fits h Hok). pose proof (th_byte13_fits h Hok).
  destruct Hok as (?&?&?&?&?&?&?&?&?&?&?&?&?&?&?&?).
  unfold tcphdr_dec, tcphdr_enc. ld_enc.
  unfold th_byte12, th_byte13, bits in *. destruct h. simpl in *.
  do 2 f_equal; Z.div_mod_to_equations; lia.
Qed.

Lemma iphdr_dec_enc h : iphdr_ok h → iphdr_dec (iphdr_enc h) = Some h.
Proof.
  intros (?&?&?&?&?&?&?&?&?&?&?).
  assert (fits 1 (ih_ihl h + 16 * ih_version h)) by (unfold fits, bits in *; lia).
  unfold iphdr_dec, iphdr_enc. ld_enc.
  unfold bits in *. destruct h. simpl in *. do 2 f_equal; Z.div_mod_to_equations; lia.
Qed.

(** A field of a struct in the middle of a packet. *)
Lemma ld_struct pre enc post base f v :
  base = length pre → ld 0 f enc = Some v → ld base f (pre ++ enc ++ post) = Some v.
Proof.
  intros -> H. unfold ld in *. rewrite rd_skip by lia.
  replace (length pre + f_off f - length pre)%nat with (0 + f_off f)%nat by lia.
  rewrite rd_app_l; [done|]. destruct (Nat.lt_ge_cases (length enc) (0 + f_off f + f_len f)); [|done].
  apply rd_None in H0. congruence.
Qed.

(** The fields of an encoded header. *)
Lemma iphdr_enc_fields h :
  iphdr_ok h →
  ld 0 ip_ver_ihl (iphdr_enc h) = Some (ih_ihl h + 16 * ih_version h) ∧
  ld 0 ip_total_length (iphdr_enc h) = Some (ih_tot_len h) ∧
  ld 0 ip_id (iphdr_enc h) = Some (ih_id h) ∧
  ld 0 ip_protocol (iphdr_enc h) = Some (ih_protocol h) ∧
  ld 0 ip_src_addr (iphdr_enc h) = Some (ih_saddr h) ∧
  ld 0 ip_dst_addr (iphdr_enc h) = Some (ih_daddr h).
Proof.
  intros (?&?&?&?&?&?&?&?&?&?&?).
  assert (fits 1 (ih_ihl h + 16 * ih_version h)) by (unfold fits, bits in *; lia).
  unfold iphdr_enc. repeat split; ld_enc; reflexivity.
Qed.

Lemma tcphdr_enc_fields t :
  tcphdr_ok t →
  ld 0 tcp_src_port (tcphdr_enc t) = Some (th_source t) ∧
  ld 0 tcp_dst_port (tcphdr_enc t) = Some (th_dest t) ∧
  ld 0 tcp_ack_num (tcphdr_enc t) = Some (th_ack_seq t) ∧
  ld 0 tcp_hdrlen_rsvd_nonce (tcphdr_enc t) = Some (th_byte12 t) ∧
  ld 0 tcp_flags (tcphdr_enc t) = Some (th_byte13 t).
Proof.
  intros Hok. pose proof (th_byte12_fits t Hok). pose proof (th_byte13_fits t Hok).
  destruct Hok as (?&?&?&?&?&?&?&?&?&?&?&?&?&?&?&?).
  unfold tcphdr_enc. repeat split; ld_enc; reflexivity.
Qed.

Lemma tcphdr_bits t :
  tcphdr_ok t →
  th_byte12 t / 16 = th_doff t ∧ th_byte13 t / 2 mod 2 = th_syn t ∧
  th_byte13 t / 16 mod 2 = th_ack t.
Proof.
  unfold tcphdr_ok, bits, th_byte12, th_byte13. intros.
  repeat split; Z.div_mod_to_equations; lia.
Qed.

Lemma ld_Some_bound base f buf v :
  ld base f buf = Some v → (base + f_off f + f_len f ≤ length buf)%nat.
Proof.
  intros H. destruct (Nat.lt_ge_cases (length buf) (base + f_off f + f_len f)); [|done].
  apply rd_None in H0. unfold ld in H. congruence.
Qed.

Lemma ld_is_Some base f buf :
  (base + f_off f + f_len f ≤ length buf)%nat → ∃ v, ld base f buf = Some v.
Proof. intros H. by destruct (rd_is_Some (f_len f) (base + f_off f) buf); eauto. Qed.

Lemma ld_bytes_is_Some base f buf :
  (base + f_off f + f_len f ≤ length buf)%nat → ∃ v, ld_bytes base f buf = Some v.
Proof.
  intros H. unfold ld_bytes. destruct (rd_bytes _ _ buf) eqn:E; [eauto|].
  apply rd_bytes_None in E. lia.
Qed.
