(* ===== verification/Checksum.v ===== *)
(** Checksum: the Internet checksum of sim_dpi/testing_utils.cpp ([csum],
    [add_tcp_checksum], [add_ip_checksum]) and its reference, the one's
    complement sum of RFC 1071. *)

From S2P Require Import Prelude Words Headers.

(** ** The code *)

(** The [while (nbytes > 1)] loop: [ptr] is what is left of the memory region,
    reading past its end is undefined.  [sum] is a [long]; [csum_no_overflow]
    shows that it never overflows. *)
Fixpoint csum_words (ptr : list byte) (nbytes sum : Z) {struct ptr}
    : option (list byte * Z * Z) :=
  if 1 <? nbytes then
    match ptr with
    | b0 :: b1 :: ptr' => csum_words ptr' (nbytes - 2) (sum + le_combine [b0; b1])
    | _ => None
    end
  else Some (ptr, nbytes, sum).

(** The two folding steps and the complement, on the accumulated [sum]. *)
Definition csum_finish (sum : Z) : Z :=
  let sum := Z.shiftr sum 16 + Z.land sum 0xffff in
  let sum := sum + Z.shiftr sum 16 in
  let answer := s16 (Z.lnot sum) in
  u16 answer.

Definition csum (ptr : list byte) (nbytes : Z) : option Z :=
  '(ptr, nbytes, sum) ← csum_words ptr nbytes 0;
  sum ← (if nbytes =? 1 then
           b ← head ptr; Some (sum + le_combine [b; Byte.x00])
         else Some sum);
  Some (csum_finish sum).

(** [tcp_segment] is the region that holds the TCP header and the payload. *)
Definition add_tcp_checksum (tcp_segment : list byte) (payload_len source_addr dest_addr : Z)
    : option (list byte) :=
  b12 ← ld 0 tcp_hdrlen_rsvd_nonce tcp_segment;
  let tcp_header_len := Z.shiftl (b12 / 16) 2 in
  _ ← ld 0 tcp_chksum tcp_segment;
  let pseudo_header :=
    {| srcAddr := source_addr; dstAddr := dest_addr; zero := 0; protocol := IPPROTO_TCP;
       TCP_len := htons (u16 (tcp_header_len + payload_len)) |} in
  (* the copied length is a uint32_t, the size of the array is not *)
  if decide (tcp_header_len + payload_len < 2 ^ 32) then
    part ← rd_bytes (Z.to_nat (tcp_header_len + payload_len)) 0 tcp_segment;
    pseudogram ← st 12 tcp_chksum 0 (TCPChecksumHeader_enc pseudo_header ++ part);
    checksum ← csum pseudogram (s32 (12 + tcp_header_len + payload_len));
    st 0 tcp_chksum checksum tcp_segment
  else None.

Definition add_ip_checksum (ip_header : list byte) : option (list byte) :=
  b0 ← ld 0 ip_ver_ihl ip_header;
  c ← csum ip_header (Z.shiftl (b0 mod 16) 2);
  st 0 ip_checksum c ip_header.

(** ** The reference *)

(** The 16-bit words of a message, in the order of the target's memory, the
    last one padded with a zero byte. *)
Fixpoint words (bs : list byte) : list Z :=
  match bs with
  | b0 :: b1 :: bs' => le_combine [b0; b1] :: words bs'
  | [b] => [le_combine [b; Byte.x00]]
  | [] => []
  end.

(** One's complement addition: the carry is added back. *)
Definition onec_add (x y : Z) : Z :=
  if x + y <? 2 ^ 16 then x + y else x + y - (2 ^ 16 - 1).

Definition onec_sum (bs : list byte) : Z := fold_left onec_add (words bs) 0.

Definition rfc1071 (bs : list byte) : Z := 0xffff - onec_sum bs.

(** A message carries a valid checksum when its one's complement sum is
    negative zero. *)
Definition checksum_valid (bs : list byte) : Prop := onec_sum bs = 0xffff.

(** ** The accumulated sum *)

Definition word_sum (bs : list byte) : Z := foldr Z.add 0 (words bs).

Lemma le_word_bound b0 b1 : 0 ≤ le_combine [b0; b1] < 2 ^ 16.
Proof. apply (le_combine_bound [b0; b1]). Qed.

(** Induction two bytes at a time. *)
Lemma words_ind (P : list byte → Prop) :
  P [] → (∀ b, P [b]) → (∀ b0 b1 bs, P bs → P (b0 :: b1 :: bs)) → ∀ bs, P bs.
Proof.
  intros Hnil Hone Htwo bs.
  enough (P bs ∧ ∀ b, P (b :: bs)) by naive_solver.
  induction bs as [|b bs [IH1 IH2]]; split; auto.
Qed.

Lemma word_sum_bounds bs :
  0 ≤ word_sum bs ≤ 65535 * ((Z.of_nat (length bs) + 1) / 2).
Proof.
  unfold word_sum.
  induction bs as [|b|b0 b1 bs IH] using words_ind; cbn [words foldr length].
  - done.
  - pose proof (le_word_bound b Byte.x00). Z.div_mod_to_equations. lia.
  - pose proof (le_word_bound b0 b1). Z.div_mod_to_equations. lia.
Qed.

Lemma words_app l1 l2 :
  Nat.Even (length l1) → words (l1 ++ l2) = words l1 ++ words l2.
Proof.
  induction l1 as [|b|b0 b1 bs IH] using words_ind; simpl; intros Hev.
  - done.
  - destruct Hev as [k ?]. lia.
  - f_equal. apply IH. destruct Hev as [k ?]. exists (k - 1)%nat. lia.
Qed.

Lemma foldr_add_app l1 l2 :
  foldr Z.add 0 (l1 ++ l2) = foldr Z.add 0 l1 + foldr Z.add 0 l2.
Proof. induction l1; simpl; lia. Qed.

Lemma word_sum_app l1 l2 :
  Nat.Even (length l1) → word_sum (l1 ++ l2) = word_sum l1 + word_sum l2.
Proof. intros. unfold word_sum. by rewrite words_app, foldr_add_app. Qed.

(** ** What the loop computes *)

Lemma csum_words_spec bs rest sum :
  csum_words (bs ++ rest) (Z.of_nat (length bs)) sum
  = Some (match (length bs mod 2)%nat with
          | O => rest
          | _ => drop (length bs - 1) bs ++ rest
          end,
          Z.of_nat (length bs mod 2),
          sum + word_sum (take (2 * (length bs / 2)) bs)).
Proof.
  revert sum. induction bs as [|b|b0 b1 bs IH] using words_ind; intros sum.
  - simpl. destruct rest as [|? [|]]; simpl; do 2 f_equal; unfold word_sum; simpl; lia.
  - simpl. destruct rest; simpl; do 2 f_equal; unfold word_sum; simpl; lia.
  - change (length (b0 :: b1 :: bs)) with (S (S (length bs))).
    replace (S (S (length bs))) with (length bs + 1 * 2)%nat by lia.
    rewrite Nat.Div0.mod_add, Nat.div_add by lia.
    simpl app. cbn [csum_words].
    destruct (Z.ltb_spec 1 (Z.of_nat (length bs + 1 * 2))) as [_|?]; [|lia].
    replace (Z.of_nat (length bs + 1 * 2) - 2) with (Z.of_nat (length bs)) by lia.
    rewrite IH. do 2 f_equal; [f_equal|].
    + destruct (length bs mod 2)%nat eqn:Hm; [done|].
      assert (1 ≤ length bs)%nat by (destruct bs; simpl in *; lia).
      replace (length bs + 2 - 1)%nat with (S (S (length bs - 1))) by lia. done.
    + replace (2 * (length bs / 2 + 1))%nat with (S (S (2 * (length bs / 2)))) by lia.
      cbn [take]. change (word_sum (b0 :: b1 :: ?l)) with (le_combine [b0; b1] + word_sum l).
      lia.
Qed.

(** [csum] of the first [length bs] bytes of a region. *)
Lemma csum_prefix bs rest :
  csum (bs ++ rest) (Z.of_nat (length bs)) = Some (csum_finish (word_sum bs)).
Proof.
  unfold csum. rewrite csum_words_spec. cbn [mbind option_bind].
  pose proof (Nat.div_mod_eq (length bs) 2) as Hdm.
  pose proof (Nat.mod_upper_bound (length bs) 2 ltac:(lia)).
  destruct (length bs mod 2)%nat as [|[|]] eqn:Hm; [| |lia]; simpl Z.of_nat; cbn -[take drop Nat.mul Nat.div].
  - rewrite take_ge by lia. done.
  - destruct (drop (length bs - 1) bs) as [|b l] eqn:Hd.
    { apply (f_equal length) in Hd. rewrite length_drop in Hd. simpl in Hd. lia. }
    assert (l = []) as ->.
    { apply (f_equal length) in Hd. rewrite length_drop in Hd. simpl in Hd.
      destruct l; [done|simpl in Hd; lia]. }
    pose proof (take_drop (length bs - 1) bs) as Hsplit. rewrite Hd in Hsplit.
    assert (word_sum bs = word_sum (take (length bs - 1) bs) + le_combine [b; Byte.x00]) as ->.
    { rewrite <- Hsplit at 1. rewrite word_sum_app by (exists (length bs / 2)%nat; len).
      unfold word_sum at 2. simpl. lia. }
    replace (2 * (length bs / 2))%nat with (length bs - 1)%nat by lia. done.
Qed.

Lemma csum_all bs : csum bs (Z.of_nat (length bs)) = Some (csum_finish (word_sum bs)).
Proof. pose proof (csum_prefix bs []) as H. by rewrite app_nil_r in H. Qed.

(** ** Folding *)

(** The one's complement sum, as a function of the plain sum. *)
Definition onec_norm (s : Z) : Z := if s =? 0 then 0 else (s - 1) mod 65535 + 1.

Lemma onec_norm_bounds s : 0 ≤ s → 0 ≤ onec_norm s ≤ 65535.
Proof.
  intros. unfold onec_norm. destruct (Z.eqb_spec s 0); [lia|].
  pose proof (Z.mod_pos_bound (s - 1) 65535). lia.
Qed.

Lemma onec_add_norm s y :
  0 ≤ s → 0 ≤ y < 2 ^ 16 → onec_add (onec_norm s) y = onec_norm (s + y).
Proof.
  intros Hs Hy. unfold onec_add, onec_norm.
  destruct (Z.eqb_spec s 0); destruct (Z.eqb_spec (s + y) 0);
    match goal with |- context [?a <? ?b] => destruct (Z.ltb_spec a b) end;
    Z.div_mod_to_equations; nia.
Qed.

Lemma onec_sum_norm bs : onec_sum bs = onec_norm (word_sum bs).
Proof.
  unfold onec_sum, word_sum.
  enough (∀ s, 0 ≤ s → fold_left onec_add (words bs) (onec_norm s)
                        = onec_norm (s + foldr Z.add 0 (words bs))) as H.
  { specialize (H 0). rewrite Z.add_0_l in H. by apply H. }
  induction bs as [|b|b0 b1 bs IH] using words_ind; intros s Hs; cbn [words fold_left foldr].
  - by rewrite Z.add_0_r.
  - pose proof (le_word_bound b Byte.x00).
    rewrite onec_add_norm by lia. f_equal. lia.
  - pose proof (le_word_bound b0 b1).
    rewrite onec_add_norm, IH by lia. f_equal. lia.
Qed.

Lemma u16_lnot z : 0 ≤ z < 2 ^ 16 → u16 (Z.lnot z) = 65535 - z.
Proof.
  intros. unfold u16, Z.lnot. replace (Z.pred (- z)) with (65535 - z + (-1) * 2 ^ 16) by lia.
  rewrite Z.mod_add by lia. apply Z.mod_small. lia.
Qed.

Lemma u16_lnot_mod z : u16 (Z.lnot z) = u16 (Z.lnot (z mod 2 ^ 16)).
Proof.
  unfold u16, Z.lnot. rewrite <- !Z.sub_1_r. Z.div_mod_to_equations. lia.
Qed.

(** Two folding steps are enough for sums up to 65538 times 65535. *)
Lemma csum_finish_norm s : 0 ≤ s ≤ 65538 * 65535 → csum_finish s = 65535 - onec_norm s.
Proof.
  intros Hs. unfold csum_finish. rewrite u16_s16, u16_lnot_mod.
  rewrite !Z.shiftr_div_pow2 by lia. change 0xffff with (Z.ones 16).
  rewrite Z.land_ones by lia. change (Z.ones 16) with 65535.
  pose proof (Z.mod_pos_bound (s / 2 ^ 16 + s mod 2 ^ 16 + (s / 2 ^ 16 + s mod 2 ^ 16) / 2 ^ 16)
                              (2 ^ 16)) as Hb.
  rewrite u16_lnot by lia. f_equal. clear Hb. unfold onec_norm.
  destruct (Z.eqb_spec s 0) as [->|]; [done|].
  change (2 ^ 16) with 65536 in *.
  Z.div_mod_to_equations. nia.
Qed.

(** The longest region for which this holds whatever its contents. *)
Definition csum_limit : Z := 131076.

Lemma word_sum_limit bs :
  Z.of_nat (length bs) ≤ csum_limit → 0 ≤ word_sum bs ≤ 65538 * 65535.
Proof.
  intros Hl. pose proof (word_sum_bounds bs).
  assert ((Z.of_nat (length bs) + 1) / 2 ≤ 65538).
  { unfold csum_limit in Hl. Z.div_mod_to_equations. lia. }
  lia.
Qed.

Lemma csum_prefix_rfc bs rest :
  Z.of_nat (length bs) ≤ csum_limit →
  csum (bs ++ rest) (Z.of_nat (length bs)) = Some (rfc1071 bs).
Proof.
  intros Hl. rewrite csum_prefix, csum_finish_norm by by apply word_sum_limit.
  unfold rfc1071. by rewrite onec_sum_norm.
Qed.

Lemma rfc1071_fits bs : fits 2 (rfc1071 bs).
Proof.
  unfold rfc1071, fits. rewrite onec_sum_norm.
  pose proof (onec_norm_bounds (word_sum bs)). pose proof (word_sum_bounds bs). lia.
Qed.

(** ** Inserting a checksum *)

Lemma word_sum_two b0 b1 : word_sum [b0; b1] = le_combine [b0; b1].
Proof. unfold word_sum. simpl. lia. Qed.

Lemma word_sum_split2 v : fits 2 v → word_sum (le_split 2 v) = v.
Proof.
  intros. rewrite <- (le_combine_split_fits 2 v) at 2 by done.
  destruct (le_split 2 v) as [|b0 [|b1 [|]]] eqn:E;
    try (apply (f_equal length) in E; rewrite le_split_length in E; discriminate).
  apply word_sum_two.
Qed.

(** The checksum computed with the field at zero, once it is in the field,
    makes the whole message valid. *)
Lemma checksum_inserted pre post :
  Nat.Even (length pre) →
  checksum_valid (pre ++ le_split 2 (rfc1071 (pre ++ le_split 2 0 ++ post)) ++ post).
Proof.
  intros Hev. unfold checksum_valid.
  pose proof (rfc1071_fits (pre ++ le_split 2 0 ++ post)) as Hf.
  rewrite onec_sum_norm, !word_sum_app by (done || (exists 1%nat; len)).
  rewrite word_sum_split2 by done. unfold rfc1071. rewrite onec_sum_norm.
  rewrite !word_sum_app by (done || (exists 1%nat; len)).
  rewrite word_sum_split2 by (unfold fits; lia).
  pose proof (word_sum_bounds pre). pose proof (word_sum_bounds post).
  set (x := word_sum pre) in *. set (y := word_sum post) in *.
  assert (0 ≤ x ∧ 0 ≤ y) as [Hx Hy] by (split; lia). clearbody x y. clear - Hx Hy.
  rewrite Z.add_0_l. unfold onec_norm.
  destruct (Z.eqb_spec (x + y) 0); [by replace x with 0 by lia; replace y with 0 by lia|].
  match goal with |- context [?a =? 0] => destruct (Z.eqb_spec a 0) end;
    Z.div_mod_to_equations; nia.
Qed.

(** Checking a valid message yields zero. *)
Lemma rfc1071_valid bs : checksum_valid bs ↔ rfc1071 bs = 0.
Proof. unfold checksum_valid, rfc1071. lia. Qed.

(** A region cut around a two-byte field. *)
Lemma split_field off (buf : list byte) :
  (off + 2 ≤ length buf)%nat →
  ∃ pre cur post, buf = pre ++ cur ++ post ∧ length pre = off ∧ length cur = 2%nat.
Proof.
  intros. exists (take off buf), (take 2 (drop off buf)), (drop 2 (drop off buf)).
  rewrite take_drop, take_drop. repeat split; len.
Qed.

Lemma st_field base f v pre cur post :
  (base + f_off f)%nat = length pre → length cur = f_len f →
  st base f v (pre ++ cur ++ post) = Some (pre ++ le_split (f_len f) v ++ post).
Proof. intros. unfold st, wr. apply wr_bytes_app; len. Qed.

Lemma csum_len bs n :
  n = Z.of_nat (length bs) → n ≤ csum_limit → csum bs n = Some (rfc1071 bs).
Proof.
  intros -> Hl. pose proof (csum_prefix_rfc bs [] Hl) as H.
  by rewrite app_nil_r in H.
Qed.

Definition tcp_pseudo_header (n src dst : Z) : list byte :=
  TCPChecksumHeader_enc
    {| srcAddr := src; dstAddr := dst; zero := 0; protocol := IPPROTO_TCP;
       TCP_len := htons (u16 n) |}.

(** A segment of [n] bytes whose TCP checksum is right. *)
Definition tcp_segment_valid (n src dst : Z) (seg : list byte) : Prop :=
  checksum_valid (tcp_pseudo_header n src dst ++ take (Z.to_nat n) seg).

Lemma tcp_pseudo_header_length n src dst : length (tcp_pseudo_header n src dst) = 12%nat.
Proof. reflexivity. Qed.

#[export] Hint Rewrite tcp_pseudo_header_length : len.

(** The whole computation, on a segment cut around the checksum field. *)
Lemma add_tcp_checksum_eq pre cur post payload_len src dst hl :
  length pre = 16%nat → length cur = 2%nat →
  (b12 ← ld 0 tcp_hdrlen_rsvd_nonce pre; Some (Z.shiftl (b12 / 16) 2)) = Some hl →
  let n := hl + payload_len in
  18 ≤ n → n ≤ 18 + Z.of_nat (length post) → 12 + n ≤ csum_limit →
  let body := take (Z.to_nat n - 18) post in
  add_tcp_checksum (pre ++ cur ++ post) payload_len src dst
  = Some (pre ++ le_split 2 (rfc1071 ((tcp_pseudo_header n src dst ++ pre)
                                        ++ le_split 2 0 ++ body)) ++ post).
Proof.
  intros Hpre Hcur Hhl n Hn Hpost Hlim body. unfold add_tcp_checksum.
  rewrite (ld_app_l 0 tcp_hdrlen_rsvd_nonce) by (simpl; lia).
  destruct (ld 0 tcp_hdrlen_rsvd_nonce pre) as [b12|]; [|done].
  cbn [mbind option_bind] in Hhl |- *. injection Hhl as ->.
  unfold ld at 1. cbn [f_off f_len tcp_chksum Nat.add].
  rewrite rd_app by len. cbn [mbind option_bind]. fold n.
  rewrite decide_True by (unfold csum_limit in Hlim; lia).
  assert (rd_bytes (Z.to_nat n) 0 (pre ++ cur ++ post) = Some (pre ++ cur ++ body)) as ->.
  { apply rd_bytes_Some. split; [len|]. rewrite drop_0, !take_app_ge by len. unfold body.
    by replace (Z.to_nat n - length pre - length cur)%nat with (Z.to_nat n - 18)%nat by len. }
  cbn [mbind option_bind]. fold (tcp_pseudo_header n src dst).
  rewrite (app_assoc (tcp_pseudo_header n src dst)), (st_field 12 tcp_chksum) by (cbn [f_off f_len tcp_chksum]; len).
  cbn [mbind option_bind f_len tcp_chksum].
  assert (s32 (12 + hl + payload_len) = 12 + n) as ->.
  { rewrite s32_small; unfold csum_limit in Hlim; lia. }
  rewrite csum_len by (unfold body; len). cbn [mbind option_bind].
  by rewrite st_field by (cbn [f_off f_len tcp_chksum]; len).
Qed.

(** The IP computation, on a header cut around the checksum field. *)
Lemma add_ip_checksum_eq pre cur post b0 :
  length pre = 10%nat → length cur = 2%nat → ld 0 ip_ver_ihl pre = Some b0 →
  let n := Z.shiftl (b0 mod 16) 2 in
  12 ≤ n → n ≤ 12 + Z.of_nat (length post) →
  let body := take (Z.to_nat n - 12) post in
  add_ip_checksum (pre ++ cur ++ post)
  = Some (pre ++ le_split 2 (rfc1071 (pre ++ cur ++ body)) ++ post).
Proof.
  intros Hpre Hcur Hb0 n Hn Hpost body. unfold add_ip_checksum.
  rewrite (ld_app_l 0 ip_ver_ihl), Hb0 by (simpl; lia).
  cbn [mbind option_bind]. fold n.
  assert (n < 64).
  { unfold n. rewrite Z.shiftl_mul_pow2 by lia.
    pose proof (Z.mod_pos_bound b0 16). lia. }
  assert (pre ++ cur ++ post = (pre ++ cur ++ body) ++ drop (Z.to_nat n - 12) post) as Hcut.
  { unfold body. by rewrite <- !app_assoc, take_drop. }
  assert (csum (pre ++ cur ++ post) n = Some (rfc1071 (pre ++ cur ++ body))) as ->.
  { assert (n = Z.of_nat (length (pre ++ cur ++ body))) as Hlen by (unfold body; len).
    rewrite Hlen, Hcut.
    apply csum_prefix_rfc. unfold csum_limit, body; len. }
  cbn [mbind option_bind]. by rewrite st_field by (cbn [f_off f_len ip_checksum]; len).
Qed.

(** An IP header, options included, whose checksum is right. *)
Definition ip_header_valid (n : Z) (hdr : list byte) : Prop :=
  checksum_valid (take (Z.to_nat n) hdr).

(** [nbytes] past an even region stops on the last byte. *)
Lemma csum_words_even bs sum r :
  Nat.Even (length bs) → 0 ≤ r ≤ 1 →
  csum_words bs (Z.of_nat (length bs) + r) sum = Some ([], r, sum + word_sum bs).
Proof.
  revert sum. induction bs as [|b|b0 b1 bs IH] using words_ind; intros sum Hev Hr;
    cbn [csum_words length] in *.
  - destruct (Z.ltb_spec 1 (Z.of_nat 0 + r)); [lia|]. unfold word_sum. simpl.
    by rewrite !Z.add_0_r.
  - destruct Hev as [k ?]. lia.
  - destruct (Z.ltb_spec 1 (Z.of_nat (S (S (length bs))) + r)); [|lia].
    replace (Z.of_nat (S (S (length bs))) + r - 2) with (Z.of_nat (length bs) + r) by lia.
    rewrite IH; [|destruct Hev as [k ?]; exists (k - 1)%nat; lia|done].
    unfold word_sum. cbn [words foldr]. do 2 f_equal. lia.
Qed.

Lemma csum_words_short ptr nbytes sum :
  Z.of_nat (length ptr) < nbytes - nbytes mod 2 → csum_words ptr nbytes sum = None.
Proof.
  revert nbytes sum.
  induction ptr as [|b|b0 b1 ptr IH] using words_ind; intros nbytes sum Hlt;
    cbn [csum_words length] in *; destruct (Z.ltb_spec 1 nbytes); try done.
  1, 2: Z.div_mod_to_equations; lia.
  - apply IH. replace (nbytes - 2) with (nbytes + (-1) * 2) by lia.
    rewrite Z.mod_add by lia. lia.
  - Z.div_mod_to_equations; lia.
Qed.

(** ** Properties *)

(** C33: on any region of at most 131076 bytes, [csum] returns the RFC 1071
    checksum of the first [nbytes] bytes, an odd last byte padded with zero. *)
Theorem csum_rfc1071 bs rest :
  Z.of_nat (length bs) ≤ csum_limit →
  csum (bs ++ rest) (Z.of_nat (length bs)) = Some (rfc1071 bs).
Proof. apply csum_prefix_rfc. Qed.

Lemma csum_rfc1071_witness :
  csum [Byte.x45; Byte.x00; Byte.x1c; Byte.xff] 3 = Some 65438.
Proof.
  exact (csum_rfc1071 [Byte.x45; Byte.x00; Byte.x1c] [Byte.xff] ltac:(vm_compute; discriminate)).
Defined.

(** [csum] is defined exactly when the region holds [nbytes] bytes: it
    never reads past the region, and a negative [nbytes] reads nothing. *)
Theorem csum_defined_iff ptr nbytes :
  is_Some (csum ptr nbytes) ↔ nbytes ≤ Z.of_nat (length ptr).
Proof.
  split.
  - intros [c Hc]. destruct (Z.le_gt_cases nbytes (Z.of_nat (length ptr))) as [|Hgt]; [done|].
    exfalso. unfold csum in Hc.
    destruct (Z.le_gt_cases (nbytes - nbytes mod 2) (Z.of_nat (length ptr))).
    + assert (nbytes = Z.of_nat (length ptr) + 1 ∧ Z.even (Z.of_nat (length ptr)) = true) as [-> Hev].
      { rewrite Zeven_mod. pose proof (Z.mod_pos_bound nbytes 2).
        split; [lia|]. apply Z.eqb_eq. Z.div_mod_to_equations; lia. }
      apply Z.even_spec in Hev as [k Hk].
      assert (csum_words ptr (Z.of_nat (length ptr) + 1) 0 = Some ([], 1, 0 + word_sum ptr)) as Hw.
      { apply csum_words_even; [exists (Z.to_nat k)|]; lia. }
      by rewrite Hw in Hc.
    + by rewrite csum_words_short in Hc by lia.
  - intros Hle. destruct (Z.le_gt_cases 0 nbytes).
    + rewrite <- (take_drop (Z.to_nat nbytes) ptr).
      assert (nbytes = Z.of_nat (length (take (Z.to_nat nbytes) ptr))) as Hn by len.
      rewrite Hn at 3. rewrite csum_prefix. eauto.
    + unfold csum. destruct ptr; cbn [csum_words];
        destruct (Z.ltb_spec 1 nbytes); try lia; cbn [mbind option_bind];
        destruct (Z.eqb_spec nbytes 1); try lia; eauto.
Qed.

Lemma csum_words_sum ptr nbytes sum ptr' nbytes' sum' :
  csum_words ptr nbytes sum = Some (ptr', nbytes', sum') →
  sum ≤ sum' ≤ sum + 65535 * Z.max 0 (nbytes / 2) ∧ nbytes' ≤ 1 ∧ nbytes' ≤ nbytes.
Proof.
  revert nbytes sum.
  induction ptr as [|b|b0 b1 ptr IH] using words_ind; intros nbytes sum;
    cbn [csum_words]; destruct (Z.ltb_spec 1 nbytes); intros Hc; simplify_eq;
    try (split; [|lia]; pose proof (Z.le_max_l 0 (nbytes' / 2)); lia).
  apply IH in Hc. pose proof (le_word_bound b0 b1).
  assert ((nbytes - 2) / 2 = nbytes / 2 - 1) as Hd.
  { replace (nbytes - 2) with (nbytes + (-1) * 2) by lia. rewrite Z.div_add by lia. lia. }
  rewrite Hd in Hc. assert (1 ≤ nbytes / 2) by (apply Z.div_le_lower_bound; lia). lia.
Qed.

(** Whatever its [int] argument and the memory, the [long] accumulator of
    [csum] stays below 2^47 through the loop and the odd byte: it never
    overflows. *)
Theorem csum_no_overflow ptr nbytes ptr' nbytes' sum :
  nbytes < 2 ^ 31 →
  csum_words ptr nbytes 0 = Some (ptr', nbytes', sum) →
  0 ≤ sum ∧ ∀ b, sum + le_combine [b; Byte.x00] < 2 ^ 47.
Proof.
  intros Hn Hc. apply csum_words_sum in Hc as [Hs _]. split; [lia|]. intros b.
  pose proof (le_word_bound b Byte.x00).
  assert (nbytes / 2 ≤ 2 ^ 30) by (apply Z.div_le_upper_bound; lia). lia.
Qed.

Lemma csum_no_overflow_witness :
  0 ≤ 65535 ∧ ∀ b, 65535 + le_combine [b; Byte.x00] < 2 ^ 47.
Proof.
  apply (csum_no_overflow [Byte.xff; Byte.xff] 2 [] 0); [lia|vm_compute; reflexivity].
Defined.

Lemma word_sum_ones k post :
  word_sum (replicate (2 * k) Byte.xff ++ post) = 65535 * Z.of_nat k + word_sum post.
Proof.
  rewrite word_sum_app by (exists k; len). f_equal.
  induction k as [|k IH]; [done|].
  replace (2 * S k)%nat with (S (S (2 * k))) by lia. cbn [replicate].
  change (word_sum (Byte.xff :: Byte.xff :: ?l)) with (65535 + word_sum l). lia.
Qed.

(** The limit of 131076 bytes is exact: one byte more, and the second
    folding step can lose a carry. *)
Theorem csum_limit_tight :
  ∃ bs, Z.of_nat (length bs) = csum_limit + 1 ∧
        csum bs (Z.of_nat (length bs)) ≠ Some (rfc1071 bs).
Proof.
  exists (replicate (2 * Z.to_nat 65538) Byte.xff ++ [Byte.x01]).
  split; [unfold csum_limit; len; simpl; lia|].
  rewrite csum_all. unfold rfc1071. rewrite onec_sum_norm, word_sum_ones.
  rewrite Z2Nat.id by lia. vm_compute. congruence.
Qed.

(** [add_tcp_checksum] on a segment whose header and payload are in the
    buffer returns the same bytes with a checksum that makes the pseudo header
    and the segment valid, whatever was in the field before. *)
Theorem add_tcp_checksum_valid seg b12 payload_len src dst :
  let n := Z.shiftl (b12 / 16) 2 + payload_len in
  ld 0 tcp_hdrlen_rsvd_nonce seg = Some b12 →
  18 ≤ n → n ≤ Z.of_nat (length seg) → 12 + n ≤ csum_limit →
  ∃ seg', add_tcp_checksum seg payload_len src dst = Some seg' ∧
          tcp_segment_valid n src dst seg' ∧
          take 16 seg' = take 16 seg ∧ drop 18 seg' = drop 18 seg.
Proof.
  intros n Hb12 Hn Hlen Hlim.
  destruct (split_field 16 seg) as (pre & cur & post & -> & Hpre & Hcur); [lia|].
  rewrite (ld_app_l 0 tcp_hdrlen_rsvd_nonce) in Hb12 by (simpl; lia).
  eexists. split.
  { apply (add_tcp_checksum_eq _ _ _ _ _ _ (Z.shiftl (b12 / 16) 2)); try done.
    - by rewrite Hb12.
    - len. }
  fold n. split; [|split].
  - unfold tcp_segment_valid. rewrite !take_app_ge by len. rewrite le_split_length, Hpre.
    rewrite !(app_assoc (tcp_pseudo_header n src dst)).
    replace (Z.to_nat n - 16 - 2)%nat with (Z.to_nat n - 18)%nat by lia.
    apply checksum_inserted. exists 14%nat. len.
  - by rewrite !take_app_exact by len.
  - by rewrite !app_assoc, !drop_app_exact by len.
Qed.

(** A 20-byte header with a SYN, and one byte of payload. *)
Definition sample_segment : list byte :=
  [Byte.x04; Byte.xd2; Byte.x00; Byte.x50; Byte.x00; Byte.x00; Byte.x00; Byte.x01;
   Byte.x00; Byte.x00; Byte.x00; Byte.x00; Byte.x50; Byte.x02; Byte.x16; Byte.xd0;
   Byte.xaa; Byte.xaa; Byte.x00; Byte.x00; Byte.x7f].

Lemma add_tcp_checksum_valid_witness :
  ∃ seg', add_tcp_checksum sample_segment 1 0x0100007f 0x0200007f = Some seg' ∧
          tcp_segment_valid 21 0x0100007f 0x0200007f seg' ∧
          take 16 seg' = take 16 sample_segment ∧ drop 18 seg' = drop 18 sample_segment.
Proof.
  apply (add_tcp_checksum_valid sample_segment 0x50 1 0x0100007f 0x0200007f);
    [reflexivity|vm_compute; discriminate..].
Defined.

(** Computing the TCP checksum again changes nothing: the old value of
    the field does not matter. *)
Theorem add_tcp_checksum_idempotent seg b12 payload_len src dst seg' :
  let n := Z.shiftl (b12 / 16) 2 + payload_len in
  ld 0 tcp_hdrlen_rsvd_nonce seg = Some b12 →
  18 ≤ n → n ≤ Z.of_nat (length seg) → 12 + n ≤ csum_limit →
  add_tcp_checksum seg payload_len src dst = Some seg' →
  add_tcp_checksum seg' payload_len src dst = Some seg'.
Proof.
  intros n Hb12 Hn Hlen Hlim.
  destruct (split_field 16 seg) as (pre & cur & post & -> & Hpre & Hcur); [lia|].
  rewrite (ld_app_l 0 tcp_hdrlen_rsvd_nonce) in Hb12 by (simpl; lia).
  rewrite !length_app in Hlen.
  rewrite (add_tcp_checksum_eq _ _ _ _ _ _ (Z.shiftl (b12 / 16) 2)); [|done..|by rewrite Hb12|done|lia|done].
  intros <-%(inj Some).
  by rewrite (add_tcp_checksum_eq _ _ _ _ _ _ (Z.shiftl (b12 / 16) 2));
    [|done|len|by rewrite Hb12|done|lia|done].
Qed.

Definition sample_checksummed : list byte :=
  default [] (add_tcp_checksum sample_segment 1 0x0100007f 0x0200007f).

Lemma add_tcp_checksum_idempotent_witness :
  add_tcp_checksum sample_checksummed 1 0x0100007f 0x0200007f = Some sample_checksummed.
Proof.
  apply (add_tcp_checksum_idempotent sample_segment 0x50 1 0x0100007f 0x0200007f);
    [reflexivity|vm_compute; discriminate..|vm_compute; reflexivity].
Defined.

(** [add_ip_checksum] on a header (options included) whose checksum field
    is zero returns the header with a valid checksum. *)
Theorem add_ip_checksum_valid hdr b0 :
  let n := Z.shiftl (b0 mod 16) 2 in
  ld 0 ip_ver_ihl hdr = Some b0 →
  12 ≤ n → n ≤ Z.of_nat (length hdr) →
  ld_bytes 0 ip_checksum hdr = Some (le_split 2 0) →
  ∃ hdr', add_ip_checksum hdr = Some hdr' ∧ ip_header_valid n hdr' ∧
          take 10 hdr' = take 10 hdr ∧ drop 12 hdr' = drop 12 hdr.
Proof.
  intros n Hb0 Hn Hlen Hck.
  destruct (split_field 10 hdr) as (pre & cur & post & -> & Hpre & Hcur); [lia|].
  rewrite (ld_app_l 0 ip_ver_ihl) in Hb0 by (simpl; lia).
  unfold ld_bytes in Hck. cbn [f_off f_len ip_checksum Nat.add] in Hck.
  rewrite (rd_bytes_app _ _ _ cur) in Hck by len. injection Hck as ->.
  rewrite !length_app in Hlen.
  eexists. split; [apply (add_ip_checksum_eq _ _ _ b0); [done..|lia]|].
  fold n. split; [|split].
  - unfold ip_header_valid. rewrite !take_app_ge by len. rewrite le_split_length, Hpre.
    replace (Z.to_nat n - 10 - 2)%nat with (Z.to_nat n - 12)%nat by lia.
    apply checksum_inserted. exists 5%nat. len.
  - by rewrite !take_app_exact by len.
  - by rewrite !app_assoc, !drop_app_exact by len.
Qed.

Definition sample_ip_header : list byte :=
  [Byte.x45; Byte.x00; Byte.x00; Byte.x3c; Byte.x1c; Byte.x46; Byte.x40; Byte.x00;
   Byte.x40; Byte.x06; Byte.x00; Byte.x00; Byte.xac; Byte.x10; Byte.x0a; Byte.x63;
   Byte.xac; Byte.x10; Byte.x0a; Byte.x0c].

Lemma add_ip_checksum_valid_witness :
  ∃ hdr', add_ip_checksum sample_ip_header = Some hdr' ∧ ip_header_valid 20 hdr' ∧
          take 10 hdr' = take 10 sample_ip_header ∧ drop 12 hdr' = drop 12 sample_ip_header.
Proof.
  apply (add_ip_checksum_valid sample_ip_header 0x45); [reflexivity|vm_compute; discriminate..|reflexivity].
Defined.

(** [add_ip_checksum] does not clear the field first: on a header that
    already carries a valid checksum it writes zero, so a second call destroys
    the checksum the first one computed. *)
Theorem add_ip_checksum_not_idempotent hdr b0 c :
  let n := Z.shiftl (b0 mod 16) 2 in
  ld 0 ip_ver_ihl hdr = Some b0 →
  12 ≤ n → n ≤ Z.of_nat (length hdr) →
  ld 0 ip_checksum hdr = Some c → 0 < c < 0xffff →
  ip_header_valid n hdr →
  ∃ hdr', add_ip_checksum hdr = Some hdr' ∧ ld 0 ip_checksum hdr' = Some 0 ∧
          ¬ ip_header_valid n hdr'.
Proof.
  intros n Hb0 Hn Hlen Hck Hc Hv.
  destruct (split_field 10 hdr) as (pre & cur & post & -> & Hpre & Hcur); [lia|].
  rewrite (ld_app_l 0 ip_ver_ihl) in Hb0 by (simpl; lia).
  unfold ld in Hck. cbn [f_off f_len ip_checksum Nat.add] in Hck.
  rewrite (rd_app _ _ _ cur) in Hck by len. injection Hck as Hck.
  rewrite !length_app in Hlen.
  unfold ip_header_valid in *. rewrite !take_app_ge in Hv by len.
  rewrite Hpre, Hcur in Hv.
  replace (Z.to_nat n - 10 - 2)%nat with (Z.to_nat n - 12)%nat in Hv by lia.
  eexists. split; [apply (add_ip_checksum_eq _ _ _ b0); [done..|lia]|].
  fold n. rewrite (proj1 (rfc1071_valid _) Hv). split.
  { unfold ld. cbn [f_off f_len ip_checksum Nat.add].
    rewrite (rd_app _ _ _ (le_split 2 0)) by len. reflexivity. }
  rewrite !take_app_ge by len. rewrite le_split_length, Hpre.
  replace (Z.to_nat n - 10 - 2)%nat with (Z.to_nat n - 12)%nat by lia.
  revert Hv. unfold checksum_valid. rewrite !onec_sum_norm.
  rewrite !word_sum_app by (exists 5%nat + exists 1%nat; len).
  rewrite word_sum_split2 by (unfold fits; lia).
  destruct cur as [|x0 [|x1 [|]]]; try done. rewrite word_sum_two, Hck.
  set (rest := take _ post). pose proof (word_sum_bounds pre). pose proof (word_sum_bounds rest).
  assert (0 ≤ word_sum pre + word_sum rest) by lia.
  rewrite Z.add_0_l, (Z.add_assoc _ c), (Z.add_comm _ c), <- Z.add_assoc.
  unfold onec_norm. repeat case_match; rewrite ?Z.eqb_eq, ?Z.eqb_neq in *;
    Z.div_mod_to_equations; nia.
Qed.

Lemma add_ip_checksum_not_idempotent_witness :
  let hdr := default [] (add_ip_checksum sample_ip_header) in
  ∃ hdr', add_ip_checksum hdr = Some hdr' ∧ ld 0 ip_checksum hdr' = Some 0 ∧
          ¬ ip_header_valid 20 hdr'.
Proof.
  apply (add_ip_checksum_not_idempotent _ 0x45 0xe6b1);
    [reflexivity|vm_compute; discriminate..|vm_compute; reflexivity|lia|vm_compute; reflexivity].
Defined.
