(* ===== verification/HeaderConv.v ===== *)
(** HeaderConv: the struct filling and struct conversions of
    sim_dpi/testing_utils.cpp: IP and TCP headers built field by field,
    internal and wire order, Verilog bit vectors, and the byte swizzles of the
    64-bit interface. *)

From S2P Require Import Prelude Words Headers Checksum.

(** ** Struct filling *)

(** [fill_ip_header]: every field but the addresses is written, the checksum
    is computed with the field at zero.  [id] is a 16-bit field that receives
    the result of [htonl]. *)
Definition fill_ip_header (state : sock_state) (ip_header : iphdr) (payload_len : Z)
    : option iphdr :=
  let h := {| ih_ihl := 5; ih_version := 4; ih_tos := 0;
              ih_tot_len := htons (u16 (20 + 20 + payload_len));
              ih_id := u16 (htonl 54321); ih_frag_off := 0; ih_ttl := 255;
              ih_protocol := IPPROTO_TCP; ih_check := 0;
              ih_saddr := ih_saddr ip_header; ih_daddr := ih_daddr ip_header |} in
  c ← csum (iphdr_enc h) (Z.shiftl (ih_ihl h) 2);
  Some {| ih_ihl := ih_ihl h; ih_version := ih_version h; ih_tos := ih_tos h;
          ih_tot_len := ih_tot_len h; ih_id := ih_id h; ih_frag_off := ih_frag_off h;
          ih_ttl := ih_ttl h; ih_protocol := ih_protocol h; ih_check := c;
          ih_saddr := ih_saddr h; ih_daddr := ih_daddr h |}.

Definition set_th_check (c : Z) (h : tcphdr) : tcphdr :=
  {| th_source := th_source h; th_dest := th_dest h; th_seq := th_seq h;
     th_ack_seq := th_ack_seq h; th_res1 := th_res1 h; th_doff := th_doff h;
     th_fin := th_fin h; th_syn := th_syn h; th_rst := th_rst h; th_psh := th_psh h;
     th_ack := th_ack h; th_urg := th_urg h; th_res2 := th_res2 h;
     th_window := th_window h; th_check := c; th_urg_ptr := th_urg_ptr h |}.

(** [fill_tcp_header]: [syn] and [ack] are stored in one-bit fields. *)
Definition fill_tcp_header (state : sock_state) (seq_num ack_num syn ack : Z)
    (dest : sockaddr_in) : option tcphdr :=
  let h := {| th_source := htons (sin_port (source_addr state));
              th_dest := htons (sin_port dest);
              th_seq := htonl seq_num; th_ack_seq := htonl ack_num;
              th_res1 := 0; th_doff := 5; th_fin := 0; th_syn := syn mod 2; th_rst := 0;
              th_psh := 0; th_ack := ack mod 2; th_urg := 0; th_res2 := 0;
              th_window := htons 5840; th_check := 0; th_urg_ptr := 0 |} in
  let psh := {| srcAddr := s_addr (source_addr state); dstAddr := s_addr dest; zero := 0;
                protocol := IPPROTO_TCP; TCP_len := htons 20 |} in
  c ← csum (TCPChecksumHeader_enc psh ++ tcphdr_enc h) (12 + 20);
  Some (set_th_check c h).

(** ** Internal struct and wire struct *)

Definition convert_tcp_header_to_external (internal_header : tcp_header)
    (state : sock_state) : option tcphdr :=
  w ← tcphdr_dec (tcp_header_enc internal_header);
  Some {| th_source := htons (th_source w); th_dest := htons (th_dest w);
          th_seq := htonl (th_seq w); th_ack_seq := htonl (th_ack_seq w);
          th_res1 := th_res1 w; th_doff := th_doff w; th_fin := th_fin w;
          th_syn := th_syn w; th_rst := th_rst w; th_psh := th_psh w; th_ack := th_ack w;
          th_urg := th_urg w; th_res2 := th_res2 w; th_window := htons 5840;
          th_check := th_check w; th_urg_ptr := th_urg_ptr w |}.

Definition convert_ip_header_to_external (internal_header : iphdr) : iphdr :=
  let w := internal_header in
  {| ih_ihl := ih_ihl w; ih_version := ih_version w; ih_tos := ih_tos w;
     ih_tot_len := htons (ih_tot_len w); ih_id := ih_id w; ih_frag_off := ih_frag_off w;
     ih_ttl := ih_ttl w; ih_protocol := ih_protocol w; ih_check := ih_check w;
     ih_saddr := ih_saddr w; ih_daddr := ih_daddr w |}.

Definition convert_external_to_tcp_header (wire_header : tcphdr) (state : sock_state)
    : option tcp_header :=
  h ← tcp_header_dec (tcphdr_enc wire_header);
  Some {| src_port := ntohs (src_port h); dst_port := ntohs (dst_port h);
          seq_num := ntohl (seq_num h); ack_num := ntohl (ack_num h);
          hdrlen_rsvd_nonce := Z.shiftl 5 4; flags := flags h;
          win_size := ntohs (win_size h); chksum := chksum h; urg_pointer := urg_pointer h |}.

(** ** Verilog bit vectors

    A packed vector of [n] 32-bit words, the low word first. *)

Definition bitvec_to_tcp_header (bitvec : list Z) : option tcp_header :=
  w4 ← bitvec !! 4%nat; w3 ← bitvec !! 3%nat; w2 ← bitvec !! 2%nat;
  w1 ← bitvec !! 1%nat; w0 ← bitvec !! 0%nat;
  Some {| src_port := u16 (Z.shiftr w4 16); dst_port := u16 (Z.land w4 0xFFFF);
          seq_num := w3; ack_num := w2;
          hdrlen_rsvd_nonce := u8 (Z.shiftr w1 24);
          flags := u8 (Z.land (Z.shiftr w1 16) 0xFF);
          win_size := u16 (Z.land w1 0xFFFF);
          chksum := ntohs (u16 (Z.shiftr w0 16));
          urg_pointer := u16 (Z.land w0 0xFFFF) |}.

Definition bitvec_to_ip_header (bitvec : list Z) : option iphdr :=
  w4 ← bitvec !! 4%nat; w3 ← bitvec !! 3%nat; w2 ← bitvec !! 2%nat;
  w1 ← bitvec !! 1%nat; w0 ← bitvec !! 0%nat;
  Some {| ih_ihl := Z.land (Z.shiftr w4 28) 0xF; ih_version := Z.land (Z.shiftr w4 24) 0xF;
          ih_tos := Z.land (Z.shiftr w4 16) 0xFF; ih_tot_len := Z.land w4 0xFFFF;
          ih_id := Z.land (Z.shiftr w3 16) 0xFFFF; ih_frag_off := Z.land w3 0xFFFF;
          ih_ttl := Z.land (Z.shiftr w2 24) 0xFF; ih_protocol := Z.land (Z.shiftr w2 16) 0xFF;
          ih_check := Z.land w2 0xFFFF; ih_saddr := htonl w1; ih_daddr := htonl w0 |}.

Definition tcp_header_to_bitvec (h : tcp_header) : list Z :=
  [ u32 (Z.shiftl (chksum h) 16 + urg_pointer h);
    u32 (Z.shiftl (hdrlen_rsvd_nonce h) 24 + Z.shiftl (flags h) 16 + win_size h);
    ack_num h;
    seq_num h;
    u32 (Z.shiftl (src_port h) 16 + dst_port h) ].

(** ** Swizzles of the 64-bit interface *)

Definition nth_byte (v : Z) (i : nat) : byte := nth i (le_split 4 v) Byte.x00.

Definition data_swizzle_64_bitvec_to_c_buf (data_input : list Z) (dest_buf : list byte)
    : option (list byte) :=
  low_addr_bytes ← data_input !! 1%nat;
  high_addr_bytes ← data_input !! 0%nat;
  let t := nth_byte low_addr_bytes in
  dest_buf ← wr_bytes 0 [t 3%nat; t 2%nat; t 1%nat; t 0%nat] dest_buf;
  let t := nth_byte high_addr_bytes in
  wr_bytes 4 [t 3%nat; t 2%nat; t 1%nat; t 0%nat] dest_buf.

(** The loop [for (int i = 0; i < 8; i++)], [n] iterations being left; the
    result is the [uint64_t] the eight bytes are. *)
Fixpoint swizzle_loop (n i : nat) (data_input temp : list byte) : option (list byte) :=
  match n with
  | O => Some temp
  | S n' =>
      b ← data_input !! (7 - i)%nat;
      temp ← wr_bytes i [b] temp;
      swizzle_loop n' (S i) data_input temp
  end.

Definition data_swizzle_64_c_buf_to_dpi_longint (data_input : list byte) (dest_buf : Z)
    : option Z :=
  le_combine <$> swizzle_loop 8 0 data_input (le_split 8 dest_buf).

(** ** Lemmas *)

Lemma ones16 z : Z.land z 0xFFFF = u16 z.
Proof. change 0xFFFF with (Z.ones 16). by rewrite Z.land_ones. Qed.
Lemma ones8 z : Z.land z 0xFF = u8 z.
Proof. change 0xFF with (Z.ones 8). by rewrite Z.land_ones. Qed.
Lemma ones4 z : Z.land z 0xF = z mod 2 ^ 4.
Proof. change 0xF with (Z.ones 4). by rewrite Z.land_ones. Qed.

(** Bit fields of a word as quotients and remainders, for [lia]. *)
Ltac bitarith :=
  rewrite ?ones16, ?ones8, ?ones4, ?Z.shiftr_div_pow2, ?Z.shiftl_mul_pow2 by lia;
  unfold u8, u16, u32, fits in *;
  change (2 ^ 4) with 16 in *; change (2 ^ 8) with 256 in *; change (2 ^ 16) with 65536 in *;
  change (2 ^ 24) with 16777216 in *; change (2 ^ 28) with 268435456 in *;
  change (2 ^ 32) with 4294967296 in *;
  change (2 ^ (8 * Z.of_nat 1)) with 256 in *; change (2 ^ (8 * Z.of_nat 2)) with 65536 in *;
  change (2 ^ (8 * Z.of_nat 4)) with 4294967296 in *;
  Z.div_mod_to_equations; lia.

Lemma iphdr_enc_cut h :
  ∃ pre post, length pre = 10%nat ∧ length post = 8%nat ∧
    iphdr_enc h = pre ++ le_split 2 (ih_check h) ++ post ∧
    ∀ c, iphdr_enc {| ih_ihl := ih_ihl h; ih_version := ih_version h; ih_tos := ih_tos h;
          ih_tot_len := ih_tot_len h; ih_id := ih_id h; ih_frag_off := ih_frag_off h;
          ih_ttl := ih_ttl h; ih_protocol := ih_protocol h; ih_check := c;
          ih_saddr := ih_saddr h; ih_daddr := ih_daddr h |} = pre ++ le_split 2 c ++ post.
Proof. exists (take 10 (iphdr_enc h)), (drop 12 (iphdr_enc h)). repeat split. Qed.

Lemma tcphdr_enc_cut h :
  ∃ pre post, length pre = 16%nat ∧ length post = 2%nat ∧
    ∀ c, tcphdr_enc (set_th_check c h) = pre ++ le_split 2 c ++ post.
Proof. exists (take 16 (tcphdr_enc h)), (drop 18 (tcphdr_enc h)). repeat split. Qed.

(** ** Properties *)

(** [fill_ip_header] always returns a header in the wire format, with the
    caller's addresses, the total length in network order and a valid
    checksum. *)
Theorem fill_ip_header_valid state h payload_len :
  0 ≤ payload_len ≤ 65495 →
  ∃ h', fill_ip_header state h payload_len = Some h' ∧
        ip_header_valid 20 (iphdr_enc h') ∧
        ih_version h' = 4 ∧ ih_ihl h' = 5 ∧ ih_protocol h' = IPPROTO_TCP ∧
        ntohs (ih_tot_len h') = 40 + payload_len ∧
        ih_saddr h' = ih_saddr h ∧ ih_daddr h' = ih_daddr h.
Proof.
  intros Hp. unfold fill_ip_header. cbv zeta.
  match goal with |- context [csum (iphdr_enc ?x)] => set (h0 := x) end.
  rewrite csum_len by (unfold csum_limit; len; reflexivity || done).
  cbn [mbind option_bind]. eexists. split; [done|].
  destruct (iphdr_enc_cut h0) as (pre & post & Hpre & Hpost & Henc & Hset).
  rewrite Hset, Henc. repeat split.
  - unfold ip_header_valid. rewrite take_ge by len.
    change (ih_check h0) with 0. apply checksum_inserted. exists 5%nat. lia.
  - unfold h0. cbn [ih_tot_len]. rewrite ntohs_htons by apply u16_fits.
    rewrite u16_small; [lia|]. unfold fits. lia.
Qed.

Definition sample_iphdr : iphdr :=
  {| ih_ihl := 0; ih_version := 0; ih_tos := 9; ih_tot_len := 9; ih_id := 9; ih_frag_off := 9;
     ih_ttl := 9; ih_protocol := 9; ih_check := 9; ih_saddr := 0x020000c0;
     ih_daddr := 0x0100000a |}.

Definition sample_state : sock_state :=
  {| send_sock := 0; recv_sock := 0;
     source_addr := {| sin_family := AF_INET; sin_port := 1234; s_addr := 0x020000c0 |};
     dest_addr := {| sin_family := AF_INET; sin_port := 80; s_addr := 0x0100000a |};
     source_mac_addr := [Byte.x24; Byte.xbe; Byte.x05; Byte.xbf; Byte.x5b; Byte.x91];
     dest_mac_addr := replicate 6 Byte.x00;
     has_syn_acked := 0; init_ack_num := 0 |}.

Lemma fill_ip_header_valid_witness :
  ∃ h', fill_ip_header sample_state sample_iphdr 100 = Some h' ∧
        ip_header_valid 20 (iphdr_enc h') ∧
        ih_version h' = 4 ∧ ih_ihl h' = 5 ∧ ih_protocol h' = IPPROTO_TCP ∧
        ntohs (ih_tot_len h') = 40 + 100 ∧
        ih_saddr h' = 0x020000c0 ∧ ih_daddr h' = 0x0100000a.
Proof. apply (fill_ip_header_valid sample_state sample_iphdr 100). lia. Defined.

(** The identification is never the 54321 the code means: [htonl] of a
    16-bit constant leaves its bytes in the high half, and the field gets 0. *)
Theorem fill_ip_header_id_zero state h payload_len h' :
  fill_ip_header state h payload_len = Some h' → ih_id h' = 0 ∧ ntohs (ih_id h') ≠ 54321.
Proof.
  unfold fill_ip_header. cbv zeta. destruct (csum _ _); [|done].
  cbn [mbind option_bind]. intros <-%(inj Some). cbn [ih_id]. vm_compute. done.
Qed.

Lemma fill_ip_header_id_zero_witness :
  let h' := default sample_iphdr (fill_ip_header sample_state sample_iphdr 100) in
  ih_id h' = 0 ∧ ntohs (ih_id h') ≠ 54321.
Proof.
  apply (fill_ip_header_id_zero sample_state sample_iphdr 100). vm_compute. reflexivity.
Defined.

(** [fill_tcp_header] always returns a header that carries the ports and
    sequence numbers in network order, the requested SYN and ACK bits and no
    other flag, and a checksum that makes the pseudo header and the header
    valid. *)
Theorem fill_tcp_header_valid state seq_num ack_num syn ack dest :
  ∃ h', fill_tcp_header state seq_num ack_num syn ack dest = Some h' ∧
        checksum_valid (tcp_pseudo_header 20 (s_addr (source_addr state)) (s_addr dest)
                          ++ tcphdr_enc h') ∧
        ntohs (th_source h') = u16 (sin_port (source_addr state)) ∧
        ntohs (th_dest h') = u16 (sin_port dest) ∧
        ntohl (th_seq h') = u32 seq_num ∧ ntohl (th_ack_seq h') = u32 ack_num ∧
        th_byte12 h' = 0x50 ∧
        th_byte13 h' = TCP_SYN * (syn mod 2) + TCP_ACK * (ack mod 2).
Proof.
  unfold fill_tcp_header. cbv zeta.
  match goal with |- context [tcphdr_enc ?x] => set (h0 := x) end.
  rewrite csum_len by (unfold csum_limit; len; reflexivity || done).
  cbn [mbind option_bind]. eexists. split; [done|].
  destruct (tcphdr_enc_cut h0) as (pre & post & Hpre & Hpost & Hset).
  rewrite Hset. repeat split.
  - change (tcphdr_enc h0) with (tcphdr_enc (set_th_check 0 h0)). rewrite Hset.
    unfold tcp_pseudo_header. rewrite !(app_assoc (TCPChecksumHeader_enc _)).
    apply checksum_inserted. exists 14%nat. len.
  - apply bswap_bswap.
  - apply bswap_bswap.
  - apply bswap_bswap.
  - apply bswap_bswap.
  - unfold th_byte13, h0, set_th_check, TCP_SYN, TCP_ACK. cbn. lia.
Qed.

(** The wire struct that [memcpy] makes of an internal header. *)
Lemma tcphdr_of_tcp_header h :
  tcp_header_ok h →
  ∃ w, tcphdr_dec (tcp_header_enc h) = Some w ∧
       th_source w = src_port h ∧ th_dest w = dst_port h ∧ th_seq w = seq_num h ∧
       th_ack_seq w = ack_num h ∧ th_byte12 w = hdrlen_rsvd_nonce h ∧
       th_byte13 w = flags h ∧ th_check w = chksum h ∧ th_urg_ptr w = urg_pointer h.
Proof.
  intros (?&?&?&?&?&?&?&?&?). unfold tcphdr_dec, tcp_header_enc. ld_enc.
  eexists. split; [done|]. cbn. repeat split; unfold th_byte12, th_byte13; cbn;
    Z.div_mod_to_equations; lia.
Qed.

Lemma convert_tcp_header_enc h state :
  tcp_header_ok h →
  ∃ w, convert_tcp_header_to_external h state = Some w ∧
       tcphdr_enc w =
         be_split 2 (src_port h) ++ be_split 2 (dst_port h) ++
         be_split 4 (seq_num h) ++ be_split 4 (ack_num h) ++
         be_split 1 (hdrlen_rsvd_nonce h) ++ be_split 1 (flags h) ++
         be_split 2 5840 ++ le_split 2 (chksum h) ++ le_split 2 (urg_pointer h).
Proof.
  intros Hok. destruct (tcphdr_of_tcp_header h Hok) as (w & Hw & E1 & E2 & E3 & E4 & E5 & E6 & E7 & E8).
  unfold convert_tcp_header_to_external. rewrite Hw. cbn [mbind option_bind].
  eexists. split; [done|]. unfold tcphdr_enc.
  change (th_byte12 _) with (th_byte12 w). change (th_byte13 _) with (th_byte13 w).
  cbn [th_source th_dest th_seq th_ack_seq th_window th_check th_urg_ptr].
  rewrite E1, E2, E3, E4, E5, E6, E7, E8, !le_split_htons, !le_split_htonl. done.
Qed.

(** On the wire, the converted header has every field of the internal one
    in network byte order, except the checksum and the urgent pointer, copied
    as they are, and the window, always 5840. *)
Theorem convert_tcp_header_to_external_wire h state :
  tcp_header_ok h →
  ∃ w, convert_tcp_header_to_external h state = Some w ∧
       tcphdr_enc w =
         be_split 2 (src_port h) ++ be_split 2 (dst_port h) ++
         be_split 4 (seq_num h) ++ be_split 4 (ack_num h) ++
         be_split 1 (hdrlen_rsvd_nonce h) ++ be_split 1 (flags h) ++
         be_split 2 5840 ++ le_split 2 (chksum h) ++ le_split 2 (urg_pointer h).
Proof. apply convert_tcp_header_enc. Qed.

Definition sample_tcp_header : tcp_header :=
  {| src_port := 1234; dst_port := 80; seq_num := 0x01020304; ack_num := 0x0a0b0c0d;
     hdrlen_rsvd_nonce := 0x50; flags := 0x12; win_size := 17; chksum := 0xbeef;
     urg_pointer := 0 |}.

Lemma sample_tcp_header_ok : tcp_header_ok sample_tcp_header.
Proof. repeat split; vm_compute; done. Defined.

Lemma convert_tcp_header_to_external_wire_witness :
  ∃ w, convert_tcp_header_to_external sample_tcp_header sample_state = Some w ∧
       tcphdr_enc w =
         be_split 2 1234 ++ be_split 2 80 ++ be_split 4 0x01020304 ++ be_split 4 0x0a0b0c0d ++
         be_split 1 0x50 ++ be_split 1 0x12 ++ be_split 2 5840 ++ le_split 2 0xbeef ++
         le_split 2 0.
Proof.
  apply (convert_tcp_header_to_external_wire sample_tcp_header sample_state), sample_tcp_header_ok.
Defined.

(** Converting to the wire and back gives the internal header, with the
    window and the header length replaced by the constants of the two
    conversions. *)
Theorem convert_tcp_header_roundtrip h state w :
  tcp_header_ok h →
  convert_tcp_header_to_external h state = Some w →
  convert_external_to_tcp_header w state =
    Some {| src_port := src_port h; dst_port := dst_port h; seq_num := seq_num h;
            ack_num := ack_num h; hdrlen_rsvd_nonce := 0x50; flags := flags h;
            win_size := 5840; chksum := chksum h; urg_pointer := urg_pointer h |}.
Proof.
  intros Hok Hw.
  destruct (convert_tcp_header_enc h state Hok) as (w' & Hw' & Henc).
  assert (w' = w) as -> by congruence.
  unfold convert_external_to_tcp_header. rewrite Henc. clear Hw Hw' Henc.
  destruct Hok as (?&?&?&?&?&?&?&?&?).
  rewrite <- !le_split_htons, <- !le_split_htonl.
  change (be_split 1 ?v) with (le_split 1 v).
  unfold tcp_header_dec.
  pose proof (htons_fits (src_port h)). pose proof (htons_fits (dst_port h)).
  pose proof (htonl_fits (seq_num h)). pose proof (htonl_fits (ack_num h)).
  pose proof (htons_fits 5840). ld_enc.
  cbn [src_port dst_port seq_num ack_num flags win_size chksum urg_pointer].
  rewrite !ntohs_htons, !ntohl_htonl by (done || (vm_compute; done)). done.
Qed.

Definition sample_wire : tcphdr :=
  {| th_source := htons 1234; th_dest := htons 80; th_seq := htonl 0x01020304;
     th_ack_seq := htonl 0x0a0b0c0d; th_res1 := 0; th_doff := 5; th_fin := 0; th_syn := 1;
     th_rst := 0; th_psh := 0; th_ack := 1; th_urg := 0; th_res2 := 0;
     th_window := htons 5840; th_check := 0xbeef; th_urg_ptr := 0 |}.

Lemma convert_tcp_header_roundtrip_witness :
  convert_external_to_tcp_header sample_wire sample_state =
    Some {| src_port := 1234; dst_port := 80; seq_num := 0x01020304; ack_num := 0x0a0b0c0d;
            hdrlen_rsvd_nonce := 0x50; flags := 0x12; win_size := 5840; chksum := 0xbeef;
            urg_pointer := 0 |}.
Proof.
  apply (convert_tcp_header_roundtrip sample_tcp_header sample_state sample_wire);
    [apply sample_tcp_header_ok|vm_compute; reflexivity].
Defined.

(** Packing a header into the Verilog vector and unpacking it gives back
    every field, but the checksum comes back with its bytes swapped: only one
    of the two directions converts it. *)
Theorem tcp_header_bitvec_roundtrip h :
  tcp_header_ok h →
  bitvec_to_tcp_header (tcp_header_to_bitvec h) =
    Some {| src_port := src_port h; dst_port := dst_port h; seq_num := seq_num h;
            ack_num := ack_num h; hdrlen_rsvd_nonce := hdrlen_rsvd_nonce h; flags := flags h;
            win_size := win_size h; chksum := ntohs (chksum h);
            urg_pointer := urg_pointer h |}.
Proof.
  destruct h. intros (?&?&?&?&?&?&?&?&?). simpl in *.
  unfold bitvec_to_tcp_header, tcp_header_to_bitvec. simpl lookup. cbn [mbind option_bind].
  f_equal. f_equal; [bitarith..| |bitarith]. f_equal. bitarith.
Qed.

Lemma tcp_header_bitvec_roundtrip_witness :
  bitvec_to_tcp_header (tcp_header_to_bitvec sample_tcp_header) =
    Some {| src_port := 1234; dst_port := 80; seq_num := 0x01020304; ack_num := 0x0a0b0c0d;
            hdrlen_rsvd_nonce := 0x50; flags := 0x12; win_size := 17; chksum := ntohs 0xbeef;
            urg_pointer := 0 |}.
Proof. apply (tcp_header_bitvec_roundtrip sample_tcp_header), sample_tcp_header_ok. Defined.

(** The other way round: a vector that comes from the hardware is rebuilt
    word for word when the two checksum bytes are equal, and only then. *)
Theorem bitvec_tcp_header_roundtrip w0 w1 w2 w3 w4 :
  fits 4 w0 → fits 4 w1 → fits 4 w4 →
  (tcp_header_to_bitvec <$> bitvec_to_tcp_header [w0; w1; w2; w3; w4]
     = Some [w0; w1; w2; w3; w4])
  ↔ ntohs (w0 / 2 ^ 16) = w0 / 2 ^ 16.
Proof.
  intros H0 H1 H4. unfold bitvec_to_tcp_header, tcp_header_to_bitvec. simpl lookup.
  cbn [mbind option_bind fmap option_fmap option_map src_port dst_port seq_num ack_num
       hdrlen_rsvd_nonce flags win_size chksum urg_pointer].
  rewrite Z.shiftr_div_pow2 by lia.
  rewrite (u16_small (w0 / 2 ^ 16)) by (unfold fits in *; Z.div_mod_to_equations; lia).
  pose proof (htons_fits (w0 / 2 ^ 16)) as Hc. change (htons ?x) with (ntohs x) in Hc.
  set (c := ntohs (w0 / 2 ^ 16)) in *. clearbody c.
  assert (u32 (Z.shiftl (u16 (Z.shiftr w4 16)) 16 + u16 (Z.land w4 0xFFFF)) = w4) as -> by bitarith.
  assert (u32 (Z.shiftl (u8 (Z.shiftr w1 24)) 24 + Z.shiftl (u8 (Z.land (Z.shiftr w1 16) 0xFF)) 16
               + u16 (Z.land w1 0xFFFF)) = w1) as -> by bitarith.
  split.
  - intros [= E]. revert E. bitarith.
  - intros E. do 2 f_equal. bitarith.
Qed.

Lemma bitvec_tcp_header_roundtrip_witness :
  (tcp_header_to_bitvec <$> bitvec_to_tcp_header [0xabab0000; 0x50120010; 7; 6; 0x04d20050]
     = Some [0xabab0000; 0x50120010; 7; 6; 0x04d20050])
  ↔ ntohs 0xabab = 0xabab.
Proof.
  apply (bitvec_tcp_header_roundtrip 0xabab0000 0x50120010 7 6 0x04d20050); vm_compute; done.
Defined.

(** [ip_pkt_hdr] of include/packet_struct_pkg.sv, packed from the most
    significant bit: the version is the first four bits. *)
Definition ip_pkt_hdr_to_bitvec (h : iphdr) : list Z :=
  [ ih_daddr h;
    ih_saddr h;
    ih_ttl h * 2 ^ 24 + ih_protocol h * 2 ^ 16 + ih_check h;
    ih_id h * 2 ^ 16 + ih_frag_off h;
    ih_version h * 2 ^ 28 + ih_ihl h * 2 ^ 24 + ih_tos h * 2 ^ 16 + ih_tot_len h ].

(** On a header packed the way the RTL packs it, [bitvec_to_ip_header]
    recovers every field, with the addresses in network order, except that it
    exchanges the version and the header length. *)
Theorem bitvec_to_ip_header_swaps_version h :
  iphdr_ok h →
  bitvec_to_ip_header (ip_pkt_hdr_to_bitvec h) =
    Some {| ih_ihl := ih_version h; ih_version := ih_ihl h; ih_tos := ih_tos h;
            ih_tot_len := ih_tot_len h; ih_id := ih_id h; ih_frag_off := ih_frag_off h;
            ih_ttl := ih_ttl h; ih_protocol := ih_protocol h; ih_check := ih_check h;
            ih_saddr := htonl (ih_saddr h); ih_daddr := htonl (ih_daddr h) |}.
Proof.
  destruct h as [ihl ver tos len id fo ttl pr ck sa da].
  intros (?&?&?&?&?&?&?&?&?&?&?). simpl in * |-.
  unfold bitvec_to_ip_header, ip_pkt_hdr_to_bitvec, bits in *. simpl lookup.
  cbn [mbind option_bind ih_ihl ih_version ih_tos ih_tot_len ih_id ih_frag_off ih_ttl
       ih_protocol ih_check ih_saddr ih_daddr].
  f_equal. f_equal; bitarith.
Qed.

Definition sample_ip_pkt_hdr : iphdr :=
  {| ih_ihl := 5; ih_version := 4; ih_tos := 0; ih_tot_len := 60; ih_id := 7;
     ih_frag_off := 0x4000; ih_ttl := 64; ih_protocol := 6; ih_check := 0xb1e6;
     ih_saddr := 0xc0000002; ih_daddr := 0x0a000001 |}.

Lemma bitvec_to_ip_header_swaps_version_witness :
  bitvec_to_ip_header (ip_pkt_hdr_to_bitvec sample_ip_pkt_hdr) =
    Some {| ih_ihl := 4; ih_version := 5; ih_tos := 0; ih_tot_len := 60; ih_id := 7;
            ih_frag_off := 0x4000; ih_ttl := 64; ih_protocol := 6; ih_check := 0xb1e6;
            ih_saddr := htonl 0xc0000002; ih_daddr := htonl 0x0a000001 |}.
Proof.
  apply (bitvec_to_ip_header_swaps_version sample_ip_pkt_hdr).
  repeat split; vm_compute; done.
Defined.

Lemma nth_bytes_rev v :
  [nth_byte v 3; nth_byte v 2; nth_byte v 1; nth_byte v 0] = be_split 4 v.
Proof. reflexivity. Qed.

(** The two swizzles agree: the bytes written to the C buffer are the two
    words in network order, high word first, the rest of the buffer is kept,
    and reading the buffer back as a 64-bit DPI value gives the vector. *)
Theorem data_swizzle_roundtrip w0 w1 dest old :
  fits 4 w0 → fits 4 w1 → (8 ≤ length dest)%nat →
  ∃ buf, data_swizzle_64_bitvec_to_c_buf [w0; w1] dest = Some buf ∧
         buf = be_split 4 w1 ++ be_split 4 w0 ++ drop 8 dest ∧
         data_swizzle_64_c_buf_to_dpi_longint buf old = Some (w1 * 2 ^ 32 + w0).
Proof.
  intros H0 H1 Hlen.
  destruct dest as [|d0 [|d1 [|d2 [|d3 [|d4 [|d5 [|d6 [|d7 rest]]]]]]]]; simpl in Hlen; try lia.
  exists (be_split 4 w1 ++ be_split 4 w0 ++ rest). split; [|split; [done|]].
  - unfold data_swizzle_64_bitvec_to_c_buf. simpl lookup. cbn [mbind option_bind].
    rewrite !nth_bytes_rev.
    assert (wr_bytes 0 (be_split 4 w1) (d0 :: d1 :: d2 :: d3 :: d4 :: d5 :: d6 :: d7 :: rest)
            = Some (be_split 4 w1 ++ d4 :: d5 :: d6 :: d7 :: rest)) as ->
      by (apply (wr_bytes_app 0 [] [d0; d1; d2; d3]); done).
    by apply (wr_bytes_app 4 (be_split 4 w1) [d4; d5; d6; d7]).
  - unfold data_swizzle_64_c_buf_to_dpi_longint.
    assert (swizzle_loop 8 0 (be_split 4 w1 ++ be_split 4 w0 ++ rest) (le_split 8 old)
            = Some (le_split 4 w0 ++ le_split 4 w1)) as -> by reflexivity.
    cbn [fmap option_fmap option_map]. f_equal. rewrite le_combine_app, !le_combine_split_fits by done.
    rewrite le_split_length. change (Z.of_nat 4 * 8) with 32.
    unfold fits in H0, H1. change (8 * Z.of_nat 4) with 32 in *.
    apply lor_shiftl_add; lia.
Qed.

Lemma data_swizzle_roundtrip_witness :
  ∃ buf, data_swizzle_64_bitvec_to_c_buf [0x44332211; 0x88776655] (replicate 9 Byte.xee) = Some buf ∧
         buf = be_split 4 0x88776655 ++ be_split 4 0x44332211 ++ [Byte.xee] ∧
         data_swizzle_64_c_buf_to_dpi_longint buf 0 = Some (0x88776655 * 2 ^ 32 + 0x44332211).
Proof.
  apply (data_swizzle_roundtrip 0x44332211 0x88776655 (replicate 9 Byte.xee) 0);
    vm_compute; done || lia.
Defined.
