(* ===== verification/Printing.v ===== *)
(** Printing: the [print_*] functions of sim_dpi/testing_utils.cpp, with the
    text that [printf], [inet_ntoa] and [ether_ntoa] produce.

    A trace records a [printf] as its format, spelt as in the source, and its
    arguments; [stdout] is the text that comes out.  The theorems say what a
    reader of that text can tell. *)

From S2P Require Import Prelude Words Headers.
From Stdlib Require Import Ascii DecimalString HexadecimalString DecimalN HexadecimalN.

(** ** Numbers and addresses as text *)

(** ["%u"] of a non-negative number, ["%d"] of any. *)
Definition dec_of_N (n : N) : string := DecimalString.NilEmpty.string_of_uint (N.to_uint n).
Definition dec (z : Z) : string :=
  match z with Zneg p => "-" +:+ dec_of_N (Npos p) | _ => dec_of_N (Z.to_N z) end.

(** ["%x"]: lower case, no leading zeros. *)
Definition hex (z : Z) : string :=
  HexadecimalString.NilEmpty.string_of_uint (N.to_hex_uint (Z.to_N z)).

(** Texts with a character between them. *)
Fixpoint join (c : ascii) (l : list string) : string :=
  match l with
  | [] => EmptyString
  | [s] => s
  | s :: l' => s +:+ String c (join c l')
  end.

(** [inet_ntoa]: the four bytes of [s_addr] in memory order. *)
Definition inet_ntoa (s_addr : Z) : string :=
  join "." ((λ b, dec (byte.unsigned b)) <$> le_split 4 s_addr).

(** [ether_ntoa]. *)
Definition ether_ntoa (addr : list byte) : string :=
  join ":" ((λ b, hex (byte.unsigned b)) <$> addr).

(** ** [printf] *)

Definition nl : ascii := "010".

(** The text of one [printf]; the conversions are those the code uses.
    [None] is a format whose argument is missing or of the wrong kind. *)
Fixpoint format (fmt : string) (args : list arg) : option string :=
  match fmt with
  | EmptyString => Some EmptyString
  | String "\"%char (String "n"%char fmt') => String nl <$> format fmt' args
  | String "%"%char (String "d"%char fmt') =>
      match args with
      | ANum z :: args' => String.append (dec (s32 z)) <$> format fmt' args'
      | _ => None
      end
  | String "%"%char (String "u"%char fmt') =>
      match args with
      | ANum z :: args' => String.append (dec (u32 z)) <$> format fmt' args'
      | _ => None
      end
  | String "%"%char (String "x"%char fmt') =>
      match args with
      | ANum z :: args' => String.append (hex (u32 z)) <$> format fmt' args'
      | _ => None
      end
  | String "%"%char (String "s"%char fmt') =>
      match args with
      | AStr s :: args' => String.append s <$> format fmt' args'
      | _ => None
      end
  | String c fmt' => String c <$> format fmt' args
  end.

(** What a trace leaves on the standard output. *)
Fixpoint stdout (tr : list event) : option string :=
  match tr with
  | [] => Some EmptyString
  | Printf fmt args :: tr' => s ← format fmt args; String.append s <$> stdout tr'
  | _ :: tr' => stdout tr'
  end.

(** ** The functions *)

Definition print_tcp_header {S} (print_header : tcp_header) : M S unit :=
  printf "tcp src port: %d\n" [ANum (src_port print_header)];;
  printf "tcp dst port: %d\n" [ANum (dst_port print_header)];;
  printf "tcp seq num: %x\n" [ANum (seq_num print_header)];;
  printf "tcp ack num: %x\n" [ANum (ack_num print_header)];;
  printf "tcp hdr len: %x\n" [ANum (Z.shiftr (hdrlen_rsvd_nonce print_header) 4)];;
  printf "tcp rsved: %x\n" [ANum (Z.land (Z.shiftr (hdrlen_rsvd_nonce print_header) 1) 0x7)];;
  printf "tcp flags: %x\n" [ANum (flags print_header)];;
  printf "tcp win size: %x\n" [ANum (win_size print_header)];;
  printf "tcp chksum: %x\n" [ANum (chksum print_header)];;
  printf "tcp urg pointer: %x\n" [ANum (urg_pointer print_header)].

Definition print_ip_header {S} (print_header : iphdr) : M S unit :=
  let source_addr := ih_saddr print_header in
  let dest_addr := ih_daddr print_header in
  printf "ip ihl: %d\n" [ANum (ih_ihl print_header)];;
  printf "ip version: %d\n" [ANum (ih_version print_header)];;
  printf "ip tos: %d\n" [ANum (ih_tos print_header)];;
  printf "ip tot len: %d\n" [ANum (ih_tot_len print_header)];;
  printf "ip id: %d\n" [ANum (ih_id print_header)];;
  printf "ip frag off: %d\n" [ANum (ih_frag_off print_header)];;
  printf "ip ttl: %d\n" [ANum (ih_ttl print_header)];;
  printf "ip protocol: %d\n" [ANum (ih_protocol print_header)];;
  printf "ip checksum: %x\n" [ANum (ih_check print_header)];;
  printf "ip source address: %s\n" [AStr (inet_ntoa source_addr)];;
  printf "ip dest address: %s\n" [AStr (inet_ntoa dest_addr)].

(** The offset of the TCP header, from the [ihl] bit-field. *)
Definition wire_tcp_offset (ver_ihl : Z) : nat :=
  (sizeof_eth_hdr + Z.to_nat (Z.shiftl (ver_ihl mod 16) 2))%nat.

Definition print_wire_header {S} (packet_buffer : list byte) : M S unit :=
  let ip := sizeof_eth_hdr in
  ver_ihl ← defined (ld ip ip_ver_ihl packet_buffer);
  let tcp := wire_tcp_offset ver_ihl in
  saddr ← defined (ld ip ip_src_addr packet_buffer);
  source ← defined (ld tcp tcp_src_port packet_buffer);
  let source_socket_address :=
    {| sin_family := 0; sin_port := ntohs source; s_addr := saddr |} in
  daddr ← defined (ld ip ip_dst_addr packet_buffer);
  dest ← defined (ld tcp tcp_dst_port packet_buffer);
  let dest_socket_address :=
    {| sin_family := 0; sin_port := ntohs dest; s_addr := daddr |} in
  tot_len ← defined (ld ip ip_total_length packet_buffer);
  printf "Packet Size (bytes): %d\n" [ANum (ntohs tot_len)];;
  ether_shost ← defined (ld_bytes 0 eth_src_addr packet_buffer);
  printf "Source MAC: %s\n" [AStr (ether_ntoa ether_shost)];;
  ether_dhost ← defined (ld_bytes 0 eth_dst_addr packet_buffer);
  printf "Dest MAC: %s\n" [AStr (ether_ntoa ether_dhost)];;
  printf "Source Address: %s\n" [AStr (inet_ntoa (s_addr source_socket_address))];;
  printf "Destination Address: %s\n" [AStr (inet_ntoa (s_addr dest_socket_address))];;
  id ← defined (ld ip ip_id packet_buffer);
  printf "Identification: %d\n" [ANum (ntohs id)];;
  protocol ← defined (ld ip ip_protocol packet_buffer);
  printf "Protocol: %d\n" [ANum protocol];;
  byte12 ← defined (ld tcp tcp_hdrlen_rsvd_nonce packet_buffer);
  printf "TCP header size (bytes): %d\n" [ANum (Z.shiftl (byte12 / 16) 2)];;
  printf "Source Port: %d\n" [ANum (ntohs source)];;
  printf "Dest Port: %d\n" [ANum (ntohs dest)];;
  byte13 ← defined (ld tcp tcp_flags packet_buffer);
  printf "SYN: %d\n" [ANum (byte13 / 2 mod 2)];;
  printf "ACK: %d\n" [ANum (byte13 / 16 mod 2)];;
  (if negb (byte13 / 16 mod 2 =? 0)
   then ack_seq ← defined (ld tcp tcp_ack_num packet_buffer);
        printf "ACK num: %u\n" [ANum (ntohl ack_seq)]
   else mret tt);;
  printf "\n" [].

(** ** Texts that do not contain a character *)

Fixpoint lacks (c : ascii) (s : string) : bool :=
  match s with
  | EmptyString => true
  | String d s' => negb (Ascii.eqb c d) && lacks c s'
  end.

Lemma lacks_app c s1 s2 : lacks c (s1 +:+ s2) = lacks c s1 && lacks c s2.
Proof. induction s1 as [|d s1 IH]; simpl; [done|]. by rewrite IH, andb_assoc. Qed.

(** A separator that two texts lack splits them from what follows. *)
Lemma split_at c a1 a2 b1 b2 :
  lacks c a1 = true → lacks c a2 = true →
  a1 +:+ String c b1 = a2 +:+ String c b2 → a1 = a2 ∧ b1 = b2.
Proof.
  revert a2. induction a1 as [|d a1 IH]; intros [|d2 a2] H1 H2 H; simpl in *.
  - by injection H.
  - injection H as <- _. by rewrite Ascii.eqb_refl in H2.
  - injection H as -> _. by rewrite Ascii.eqb_refl in H1.
  - apply andb_true_iff in H1 as [_ H1]. apply andb_true_iff in H2 as [_ H2].
    injection H as <- H. destruct (IH a2 H1 H2 H) as [<- <-]. done.
Qed.

Lemma join_inj c l1 l2 :
  length l1 = length l2 → Forall (λ s, lacks c s = true) l1 → Forall (λ s, lacks c s = true) l2 →
  join c l1 = join c l2 → l1 = l2.
Proof.
  intros Hl H1. revert l2 Hl. induction H1 as [|s1 l1 Hs1 H1 IH]; intros [|s2 l2] Hl H2 H; try done.
  injection Hl as Hl. apply Forall_cons in H2 as [Hs2 H2].
  destruct l1 as [|x1 l1], l2 as [|x2 l2]; try done; [by simpl in H; subst|].
  apply split_at in H as [-> H]; [|done..]. f_equal. by apply IH.
Qed.

Lemma join_lacks c d l :
  Ascii.eqb d c = false → Forall (λ s, lacks d s = true) l → lacks d (join c l) = true.
Proof.
  intros Hcd H. induction H as [|s l Hs H IH]; [done|].
  destruct l as [|s' l]; [done|]. cbn [join].
  rewrite lacks_app, Hs. simpl in *. by rewrite Hcd, IH.
Qed.

(** ** Decimal and hexadecimal text *)

Definition alnum (c : ascii) : bool :=
  let n := N_of_ascii c in ((48 <=? n) && (n <=? 57) || (97 <=? n) && (n <=? 102))%N.

Lemma dec_lacks c z : 0 ≤ z → alnum c = false → lacks c (dec z) = true.
Proof.
  intros Hz Hc. assert (dec z = dec_of_N (Z.to_N z)) as -> by (by destruct z).
  unfold dec_of_N. induction (N.to_uint (Z.to_N z)); simpl; [done|..];
    rewrite IHu, andb_true_r; apply negb_true_iff, Ascii.eqb_neq; by intros ->.
Qed.

Lemma hex_lacks c z : alnum c = false → lacks c (hex z) = true.
Proof.
  intros Hc. unfold hex. induction (N.to_hex_uint (Z.to_N z)); simpl; [done|..];
    rewrite IHu, andb_true_r; apply negb_true_iff, Ascii.eqb_neq; by intros ->.
Qed.

Lemma dec_inj x y : 0 ≤ x → 0 ≤ y → dec x = dec y → x = y.
Proof.
  intros Hx Hy H. apply Z2N.inj; [done..|].
  apply DecimalN.Unsigned.to_uint_inj.
  apply (f_equal DecimalString.NilEmpty.uint_of_string) in H.
  assert (∀ z, 0 ≤ z → dec z = dec_of_N (Z.to_N z)) as E by (by intros []).
  rewrite !E in H by done. unfold dec_of_N in H.
  rewrite !DecimalString.NilEmpty.usu in H. by injection H.
Qed.

Lemma hex_inj x y : 0 ≤ x → 0 ≤ y → hex x = hex y → x = y.
Proof.
  intros Hx Hy H. apply Z2N.inj; [done..|].
  apply HexadecimalN.Unsigned.to_uint_inj.
  apply (f_equal HexadecimalString.NilEmpty.uint_of_string) in H. unfold hex in H.
  rewrite !HexadecimalString.NilEmpty.usu in H. by injection H.
Qed.

Lemma byte_unsigned_range b : 0 ≤ byte.unsigned b < 256.
Proof. apply byte.unsigned_range. Qed.

Lemma byte_unsigned_inj a b : byte.unsigned a = byte.unsigned b → a = b.
Proof. intros H. by rewrite <- (byte.of_Z_unsigned a), H, byte.of_Z_unsigned. Qed.

(** An address is determined by its text, which is one word. *)
Lemma inet_ntoa_inj x y : fits 4 x → fits 4 y → inet_ntoa x = inet_ntoa y → x = y.
Proof.
  intros Hx Hy H. apply join_inj in H.
  - apply list_fmap_eq_inj in H.
    + rewrite <- (le_combine_split_fits 4 x), <- (le_combine_split_fits 4 y) by done. by rewrite H.
    + intros a b Hab. pose proof (byte_unsigned_range a). pose proof (byte_unsigned_range b).
      apply dec_inj in Hab; [|lia..]. by apply byte_unsigned_inj.
  - by rewrite !length_fmap, !le_split_length.
  - apply Forall_fmap, Forall_true. intros b. pose proof (byte_unsigned_range b).
    apply dec_lacks; [lia|done].
  - apply Forall_fmap, Forall_true. intros b. pose proof (byte_unsigned_range b).
    apply dec_lacks; [lia|done].
Qed.

(** ** Texts of labelled lines *)

Fixpoint lines (l : list (string * string)) : string :=
  match l with
  | [] => EmptyString
  | (label, value) :: l' => label +:+ value +:+ String nl (lines l')
  end.

Definition prints_line (e : event) (lv : string * string) : Prop :=
  ∃ fmt args, e = Printf fmt args ∧
    format fmt args = Some (lv.1 +:+ lv.2 +:+ String nl EmptyString).

Lemma string_app_assoc s1 s2 s3 : (s1 +:+ s2) +:+ s3 = s1 +:+ s2 +:+ s3.
Proof. induction s1 as [|c s1 IH]; [done|]. exact (f_equal (String c) IH). Qed.

Lemma stdout_lines tr ls : Forall2 prints_line tr ls → stdout tr = Some (lines ls).
Proof.
  intros H. induction H as [|e [label value] tr ls (fmt & args & -> & Hf) H IH]; [done|].
  simpl in *. rewrite Hf, IH. simpl. by rewrite !string_app_assoc.
Qed.

Lemma lines_inj l1 l2 :
  l1.*1 = l2.*1 → Forall (λ v, lacks nl v = true) l1.*2 → Forall (λ v, lacks nl v = true) l2.*2 →
  lines l1 = lines l2 → l1.*2 = l2.*2.
Proof.
  revert l2. induction l1 as [|[k1 v1] l1 IH]; intros [|[k2 v2] l2] Hk H1 H2 H; try done.
  simpl in *. injection Hk as <- Hk.
  apply Forall_cons in H1 as [Hv1 H1]. apply Forall_cons in H2 as [Hv2 H2].
  apply (inj (String.app k1)) in H. apply split_at in H as [-> H]; [|done..].
  f_equal. by apply IH.
Qed.

(** A format starts with a label, its own text. *)
Lemma format_label label fmt args :
  lacks "%" label = true → lacks "\" label = true →
  format (label +:+ fmt) args = String.append label <$> format fmt args.
Proof.
  intros H1 H2. induction label as [|c label IH].
  { change (EmptyString +:+ fmt) with fmt. by destruct (format fmt args). }
  simpl in H1, H2.
  apply andb_true_iff in H1 as [Hc1 H1]. apply andb_true_iff in H2 as [Hc2 H2].
  change (String c label +:+ fmt) with (String c (label +:+ fmt)).
  transitivity (String c <$> format (label +:+ fmt) args);
    [|rewrite (IH H1 H2); by destruct (format fmt args)].
  destruct c as [[] [] [] [] [] [] [] []]; try reflexivity; try discriminate Hc1; try discriminate Hc2.
Qed.

(** The lines of one number or address. *)
Section Lines.
Variable label : string.
Hypothesis Hpercent : lacks "%" label = true.
Hypothesis Hbackslash : lacks "\" label = true.

Lemma line_d z : 0 ≤ z < 2 ^ 31 → prints_line (Printf (label +:+ "%d\n") [ANum z]) (label, dec z).
Proof.
  intros Hz. eexists _, _. split; [done|]. rewrite format_label by done. simpl.
  by rewrite s32_small by lia.
Qed.

Lemma line_u z : fits 4 z → prints_line (Printf (label +:+ "%u\n") [ANum z]) (label, dec z).
Proof.
  intros Hz. eexists _, _. split; [done|]. rewrite format_label by done. simpl.
  by rewrite u32_small by done.
Qed.

Lemma line_x z : fits 4 z → prints_line (Printf (label +:+ "%x\n") [ANum z]) (label, hex z).
Proof.
  intros Hz. eexists _, _. split; [done|]. rewrite format_label by done. simpl.
  by rewrite u32_small by done.
Qed.

Lemma line_s v : prints_line (Printf (label +:+ "%s\n") [AStr v]) (label, v).
Proof. eexists _, _. split; [done|]. by rewrite format_label by done. Qed.
End Lines.

Lemma line_empty : prints_line (Printf "\n" []) (EmptyString, EmptyString).
Proof. eexists _, _. by split. Qed.

(** [prints] computes the lines of a trace of [printf]s whose numbers fit. *)
Ltac prints_one :=
  lazymatch goal with
  | |- prints_line _ (?label, _) =>
      first [ apply (line_d label); [reflexivity..|lia]
            | apply (line_x label); [reflexivity..|unfold fits; lia]
            | apply (line_s label); reflexivity
            | apply (line_u label); [reflexivity..|unfold fits; lia]
            | apply line_empty ]
  end.
Ltac prints := repeat (apply Forall2_cons_2; [prints_one|]); apply Forall2_nil_2.

Lemma inet_ntoa_lacks c x : alnum c = false → Ascii.eqb c "." = false → lacks c (inet_ntoa x) = true.
Proof.
  intros Hc Hd. apply join_lacks; [done|]. apply Forall_fmap, Forall_true.
  intros b. pose proof (byte_unsigned_range b). apply dec_lacks; [lia|done].
Qed.

(** [one_line]: values that are numbers or addresses are on one line. *)
Ltac one_line :=
  repeat (apply Forall_cons_2; [first [apply hex_lacks; done | apply inet_ntoa_lacks; done
                                      | apply dec_lacks; [lia|done]]|]);
  apply Forall_nil_2.

(** ** [print_tcp_header] *)

Definition tcp_header_lines (h : tcp_header) : list (string * string) :=
  [("tcp src port: ", dec (src_port h)); ("tcp dst port: ", dec (dst_port h));
   ("tcp seq num: ", hex (seq_num h)); ("tcp ack num: ", hex (ack_num h));
   ("tcp hdr len: ", hex (hdrlen_rsvd_nonce h / 16));
   ("tcp rsved: ", hex (hdrlen_rsvd_nonce h / 2 mod 8));
   ("tcp flags: ", hex (flags h)); ("tcp win size: ", hex (win_size h));
   ("tcp chksum: ", hex (chksum h)); ("tcp urg pointer: ", hex (urg_pointer h))].

Lemma land_shiftr_7 z : Z.land (Z.shiftr z 1) 0x7 = z / 2 mod 8.
Proof. rewrite Z.shiftr_div_pow2 by lia. by rewrite (Z.land_ones _ 3) by lia. Qed.

Lemma print_tcp_header_run {S} (h : tcp_header) (s : S) :
  tcp_header_ok h →
  ∃ tr, print_tcp_header h s = Done tt s tr ∧ stdout tr = Some (lines (tcp_header_lines h)).
Proof.
  intros (?&?&?&?&?&?&?&?&?). eexists. split; [reflexivity|].
  apply stdout_lines. unfold tcp_header_lines, fits in *. cbn [app]. rewrite land_shiftr_7, Z.shiftr_div_pow2 by lia. change (2 ^ 4) with 16.
  assert (0 ≤ hdrlen_rsvd_nonce h / 16 < 16) by (Z.div_mod_to_equations; lia).
  assert (0 ≤ hdrlen_rsvd_nonce h / 2 mod 8 < 8) by (Z.div_mod_to_equations; lia).
  prints.
Qed.

(** What [print_tcp_header] prints tells all of the header but its nonce bit:
    two headers print the same text exactly when they agree on every other
    bit. *)
Theorem print_tcp_header_faithful {S} (h1 h2 : tcp_header) (s : S) :
  tcp_header_ok h1 → tcp_header_ok h2 →
  ∃ tr1 tr2, print_tcp_header h1 s = Done tt s tr1 ∧ print_tcp_header h2 s = Done tt s tr2 ∧
    (stdout tr1 = stdout tr2 ↔
     ∃ nonce, h1 = {| src_port := src_port h2; dst_port := dst_port h2; seq_num := seq_num h2;
                      ack_num := ack_num h2;
                      hdrlen_rsvd_nonce := 2 * (hdrlen_rsvd_nonce h2 / 2) + nonce;
                      flags := flags h2; win_size := win_size h2; chksum := chksum h2;
                      urg_pointer := urg_pointer h2 |} ∧ 0 ≤ nonce < 2).
Proof.
  intros Hok1 Hok2.
  destruct (print_tcp_header_run h1 s Hok1) as (tr1 & Hr1 & Ht1).
  destruct (print_tcp_header_run h2 s Hok2) as (tr2 & Hr2 & Ht2).
  exists tr1, tr2. split; [done|]. split; [done|]. rewrite Ht1, Ht2.
  destruct Hok1 as (?&?&?&?&?&?&?&?&?), Hok2 as (?&?&?&?&?&?&?&?&?). unfold fits in *.
  split.
  - intros Ht%(inj Some). apply lines_inj in Ht; [|done|one_line..].
    simpl in Ht. injection Ht as E0 E1 E2 E3 E4 E5 E6 E7 E8 E9.
    apply dec_inj in E0, E1; [|lia..]. apply hex_inj in E2, E3, E6, E7, E8, E9; [|lia..].
    apply hex_inj in E4; [|Z.div_mod_to_equations; lia..].
    apply hex_inj in E5; [|Z.div_mod_to_equations; lia..].
    exists (hdrlen_rsvd_nonce h1 mod 2). split; [|Z.div_mod_to_equations; lia].
    destruct h1, h2; simpl in *. f_equal; try done. Z.div_mod_to_equations; lia.
  - intros (nonce & Hh & Hn). do 2 f_equal. unfold tcp_header_lines. rewrite Hh. simpl.
    assert ((2 * (hdrlen_rsvd_nonce h2 / 2) + nonce) / 16 = hdrlen_rsvd_nonce h2 / 16) as ->
      by (Z.div_mod_to_equations; lia).
    assert ((2 * (hdrlen_rsvd_nonce h2 / 2) + nonce) / 2 = hdrlen_rsvd_nonce h2 / 2) as ->
      by (Z.div_mod_to_equations; lia).
    done.
Qed.

Definition sample_tcp_header : tcp_header :=
  {| src_port := 80; dst_port := 4096; seq_num := 0xdeadbeef; ack_num := 0;
     hdrlen_rsvd_nonce := 0x5e; flags := 2; win_size := 65535; chksum := 0xab;
     urg_pointer := 0 |}.

Lemma print_tcp_header_faithful_witness :
  ∃ tr1 tr2, print_tcp_header sample_tcp_header tt = Done tt tt tr1 ∧
    print_tcp_header sample_tcp_header tt = Done tt tt tr2 ∧
    (stdout tr1 = stdout tr2 ↔
     ∃ nonce, sample_tcp_header
       = {| src_port := 80; dst_port := 4096; seq_num := 0xdeadbeef; ack_num := 0;
            hdrlen_rsvd_nonce := 2 * (0x5e / 2) + nonce; flags := 2; win_size := 65535;
            chksum := 0xab; urg_pointer := 0 |} ∧ 0 ≤ nonce < 2).
Proof.
  apply (print_tcp_header_faithful sample_tcp_header sample_tcp_header tt);
    repeat split; vm_compute; done.
Defined.

(** ** [print_ip_header] *)

Definition ip_header_lines (h : iphdr) : list (string * string) :=
  [("ip ihl: ", dec (ih_ihl h)); ("ip version: ", dec (ih_version h));
   ("ip tos: ", dec (ih_tos h)); ("ip tot len: ", dec (ih_tot_len h));
   ("ip id: ", dec (ih_id h)); ("ip frag off: ", dec (ih_frag_off h));
   ("ip ttl: ", dec (ih_ttl h)); ("ip protocol: ", dec (ih_protocol h));
   ("ip checksum: ", hex (ih_check h)); ("ip source address: ", inet_ntoa (ih_saddr h));
   ("ip dest address: ", inet_ntoa (ih_daddr h))].

Lemma print_ip_header_run {S} (h : iphdr) (s : S) :
  iphdr_ok h →
  ∃ tr, print_ip_header h s = Done tt s tr ∧ stdout tr = Some (lines (ip_header_lines h)).
Proof.
  intros (?&?&?&?&?&?&?&?&?&?&?). eexists. split; [reflexivity|].
  apply stdout_lines. unfold ip_header_lines, fits, bits in *. cbn [app]. prints.
Qed.

(** [print_ip_header] loses nothing: two IP headers print the same text only
    if they are the same header. *)
Theorem print_ip_header_faithful {S} (h1 h2 : iphdr) (s : S) :
  iphdr_ok h1 → iphdr_ok h2 →
  ∃ tr1 tr2, print_ip_header h1 s = Done tt s tr1 ∧ print_ip_header h2 s = Done tt s tr2 ∧
    is_Some (stdout tr1) ∧ (stdout tr1 = stdout tr2 → h1 = h2).
Proof.
  intros Hok1 Hok2.
  destruct (print_ip_header_run h1 s Hok1) as (tr1 & Hr1 & Ht1).
  destruct (print_ip_header_run h2 s Hok2) as (tr2 & Hr2 & Ht2).
  exists tr1, tr2. do 2 (split; [done|]). rewrite Ht1, Ht2. split; [done|].
  destruct Hok1 as (?&?&?&?&?&?&?&?&?&?&?), Hok2 as (?&?&?&?&?&?&?&?&?&?&?). unfold bits in *.
  intros Ht%(inj Some). apply lines_inj in Ht; [|done|unfold fits in *; one_line..].
  simpl in Ht. injection Ht as E0 E1 E2 E3 E4 E5 E6 E7 E8 E9 E10.
  apply inet_ntoa_inj in E9, E10; [|done..]. unfold fits in *.
  apply dec_inj in E0, E1, E2, E3, E4, E5, E6, E7; [|lia..]. apply hex_inj in E8; [|lia..].
  destruct h1, h2; simpl in *. by f_equal.
Qed.

Definition sample_iphdr : iphdr :=
  {| ih_ihl := 5; ih_version := 4; ih_tos := 0; ih_tot_len := 0x2800; ih_id := 0;
     ih_frag_off := 0; ih_ttl := 64; ih_protocol := 6; ih_check := 0xbeef;
     ih_saddr := 0x0100007f; ih_daddr := 0x020000c0 |}.

Lemma print_ip_header_faithful_witness :
  ∃ tr1 tr2, print_ip_header sample_iphdr tt = Done tt tt tr1 ∧
    print_ip_header sample_iphdr tt = Done tt tt tr2 ∧
    is_Some (stdout tr1) ∧ (stdout tr1 = stdout tr2 → sample_iphdr = sample_iphdr).
Proof.
  apply (print_ip_header_faithful sample_iphdr sample_iphdr tt);
    repeat split; vm_compute; done.
Defined.

(** ** [print_wire_header] *)

Lemma wire_tcp_offset_ihl h :
  iphdr_ok h → wire_tcp_offset (ih_ihl h + 16 * ih_version h) = (14 + 4 * Z.to_nat (ih_ihl h))%nat.
Proof.
  intros (?&?&_). unfold bits in *. unfold wire_tcp_offset, sizeof_eth_hdr.
  replace ((ih_ihl h + 16 * ih_version h) mod 16) with (ih_ihl h) by (Z.div_mod_to_equations; lia).
  rewrite Z.shiftl_mul_pow2 by lia. lia.
Qed.

Definition wire_lines (dst src : list byte) (h : iphdr) (t : tcphdr) : list (string * string) :=
  [("Packet Size (bytes): ", dec (ntohs (ih_tot_len h))); ("Source MAC: ", ether_ntoa src);
   ("Dest MAC: ", ether_ntoa dst); ("Source Address: ", inet_ntoa (ih_saddr h));
   ("Destination Address: ", inet_ntoa (ih_daddr h)); ("Identification: ", dec (ntohs (ih_id h)));
   ("Protocol: ", dec (ih_protocol h)); ("TCP header size (bytes): ", dec (4 * th_doff t));
   ("Source Port: ", dec (ntohs (th_source t))); ("Dest Port: ", dec (ntohs (th_dest t)));
   ("SYN: ", dec (th_syn t)); ("ACK: ", dec (th_ack t))] ++
  (if th_ack t =? 0 then [] else [("ACK num: ", dec (ntohl (th_ack_seq t)))]) ++
  [(EmptyString, EmptyString)].

(** The line that depends on the ACK bit, and the empty line after it. *)
Lemma print_ack_line {S} (ack : Z) o v (s : S) :
  o = Some v →
  ((if negb (ack =? 0)
    then ack_seq ← defined o; printf "ACK num: %u\n" [ANum (ntohl ack_seq)]
    else mret tt);; printf "\n" []) s
  = Done tt s ((if ack =? 0 then [] else [Printf "ACK num: %u\n" [ANum (ntohl v)]]) ++
               [Printf "\n" []]).
Proof. intros ->. by destruct (ack =? 0). Qed.

(** On a frame made of an Ethernet header, an IP header with its options and a
    TCP header, [print_wire_header] prints the fields of those headers in host
    order; the acknowledgement number only when the ACK bit is set. *)
Theorem print_wire_header_text {S} dst src ty h opts t rest (s : S) :
  length dst = 6%nat → length src = 6%nat → length ty = 2%nat →
  iphdr_ok h → 20 + Z.of_nat (length opts) = 4 * ih_ihl h → tcphdr_ok t →
  ∃ tr, print_wire_header (dst ++ src ++ ty ++ iphdr_enc h ++ opts ++ tcphdr_enc t ++ rest) s
        = Done tt s tr ∧
    stdout tr = Some (lines (wire_lines dst src h t)).
Proof.
  intros Hd Hs Ht Hh Ho Htcp.
  set (buf := dst ++ src ++ ty ++ iphdr_enc h ++ opts ++ tcphdr_enc t ++ rest).
  set (tcp := wire_tcp_offset (ih_ihl h + 16 * ih_version h)).
  assert (∀ f v, ld 0 f (iphdr_enc h) = Some v → ld sizeof_eth_hdr f buf = Some v) as Hip.
  { intros f v Hv. subst buf.
    rewrite (app_assoc src), (app_assoc dst). apply ld_struct; [|done]. unfold sizeof_eth_hdr. len. }
  assert (∀ f v, ld 0 f (tcphdr_enc t) = Some v → ld tcp f buf = Some v) as Htc.
  { intros f v Hv. subst buf tcp. rewrite wire_tcp_offset_ihl by done.
    rewrite (app_assoc (iphdr_enc h)), (app_assoc ty), (app_assoc src), (app_assoc dst).
    apply ld_struct; [|done]. len. }
  assert (ld_bytes 0 eth_src_addr buf = Some src) as Hsrc.
  { unfold ld_bytes. apply rd_bytes_app; simpl; lia. }
  assert (ld_bytes 0 eth_dst_addr buf = Some dst) as Hdst.
  { unfold ld_bytes. apply (rd_bytes_app 6 0 [] dst); simpl; lia. }
  destruct (iphdr_enc_fields h Hh) as (Fver & Flen & Fid & Fpr & Fsa & Fda).
  destruct (tcphdr_enc_fields t Htcp) as (Fsrc & Fdst & Fack & F12 & F13).
  destruct (tcphdr_bits t Htcp) as (E12 & Esyn & Eack).
  eexists. split.
  { unfold print_wire_header.
    repeat first
      [ eapply bind_defined; [first [exact Hsrc | exact Hdst | eapply Hip; eassumption
                                    | eapply Htc; eassumption]|cbv zeta]
      | apply bind_printf ].
    rewrite Eack. apply (print_ack_line _ _ (th_ack_seq t)). by apply Htc. }
  rewrite E12, Esyn, Eack, Z.shiftl_mul_pow2, (Z.mul_comm _ (2 ^ 2)) by lia.
  apply stdout_lines. unfold wire_lines.
  assert (∀ z, fits 2 (ntohs z)) as Hn2 by (intros; apply bswap_fits).
  assert (fits 4 (ntohl (th_ack_seq t))) by apply bswap_fits.
  pose proof (Hn2 (ih_tot_len h)). pose proof (Hn2 (ih_id h)).
  pose proof (Hn2 (th_source t)). pose proof (Hn2 (th_dest t)). clear Hn2.
  destruct Hh as (?&?&?&?&?&?&?&?&?&?&?), Htcp as (?&?&?&?&?&?&?&?&?&?&?&?&?&?&?&?).
  unfold fits, bits in *. destruct (th_ack t =? 0); cbn [app]; prints.
Qed.

Definition sample_tcphdr : tcphdr :=
  {| th_source := 0x5000; th_dest := 0x0010; th_seq := 1; th_ack_seq := 0x02000000; th_res1 := 0;
     th_doff := 5; th_fin := 0; th_syn := 1; th_rst := 0; th_psh := 0; th_ack := 1; th_urg := 0;
     th_res2 := 0; th_window := 0xffff; th_check := 0; th_urg_ptr := 0 |}.

Lemma print_wire_header_text_witness :
  let mac := [Byte.x24; Byte.xbe; Byte.x05; Byte.xbf; Byte.x5b; Byte.x91] in
  ∃ tr, print_wire_header (mac ++ mac ++ [Byte.x08; Byte.x00] ++ iphdr_enc sample_iphdr ++ [] ++
                           tcphdr_enc sample_tcphdr ++ []) tt = Done tt tt tr ∧
    stdout tr = Some (lines
      [("Packet Size (bytes): ", "40"); ("Source MAC: ", "24:be:5:bf:5b:91");
       ("Dest MAC: ", "24:be:5:bf:5b:91"); ("Source Address: ", "127.0.0.1");
       ("Destination Address: ", "192.0.0.2"); ("Identification: ", "0"); ("Protocol: ", "6");
       ("TCP header size (bytes): ", "20"); ("Source Port: ", "80"); ("Dest Port: ", "4096");
       ("SYN: ", "1"); ("ACK: ", "1"); ("ACK num: ", "2"); (EmptyString, EmptyString)]).
Proof.
  intros mac.
  apply (print_wire_header_text mac mac [Byte.x08; Byte.x00] sample_iphdr [] sample_tcphdr [] tt);
    repeat split; vm_compute; done.
Defined.

(** C38: [print_wire_header] trusts the header length of the packet: it returns
    exactly on the buffers that hold both headers as far as it reads them (14
    bytes of the TCP header, at the offset the first byte of the IP header
    gives), and reads outside the buffer otherwise. *)
Theorem print_wire_header_bounds {S} (packet_buffer : list byte) (s : S) :
  (∃ tr, print_wire_header packet_buffer s = Done tt s tr) ↔
  (34 ≤ length packet_buffer)%nat ∧
  ∃ b0, ld 14 ip_ver_ihl packet_buffer = Some b0 ∧
    (14 + Z.to_nat (4 * (b0 mod 16)) + 14 ≤ length packet_buffer)%nat.
Proof.
  split.
  - intros [tr H]. unfold print_wire_header in H. cbv zeta in H. steps_inv.
    match goal with E : ld _ ip_ver_ihl _ = Some ?b |- _ => rename b into b0; rename E into Hb end.
    repeat match goal with E : ld _ _ _ = Some _ |- _ =>
      lazymatch E with Hb => fail | _ => apply ld_Some_bound in E end end.
    unfold wire_tcp_offset, sizeof_eth_hdr in *. rewrite Z.shiftl_mul_pow2 in * by lia.
    change (2 ^ 2) with 4 in *. simpl in *. split; [lia|]. exists b0. split; [done|lia].
  - intros (Hl & b0 & Hb & Ht).
    assert (∀ f, (f_off f + f_len f ≤ 20)%nat → ∃ v, ld sizeof_eth_hdr f packet_buffer = Some v) as Hip.
    { intros f Hf. apply ld_is_Some. unfold sizeof_eth_hdr. lia. }
    assert (∀ f, (f_off f + f_len f ≤ 14)%nat →
              ∃ v, ld (wire_tcp_offset b0) f packet_buffer = Some v) as Htc.
    { intros f Hf. apply ld_is_Some. unfold wire_tcp_offset, sizeof_eth_hdr.
      rewrite Z.shiftl_mul_pow2, Z.mul_comm by lia. change (2 ^ 2) with 4. lia. }
    destruct (Hip ip_src_addr) as [? ?], (Hip ip_dst_addr) as [? ?], (Hip ip_total_length) as [? ?],
      (Hip ip_id) as [? ?], (Hip ip_protocol) as [? ?], (Htc tcp_src_port) as [? ?],
      (Htc tcp_dst_port) as [? ?], (Htc tcp_hdrlen_rsvd_nonce) as [? ?], (Htc tcp_flags) as [? ?],
      (Htc tcp_ack_num) as [? ?]; try (simpl; lia).
    destruct (ld_bytes_is_Some 0 eth_src_addr packet_buffer) as [? ?]; [simpl; lia|].
    destruct (ld_bytes_is_Some 0 eth_dst_addr packet_buffer) as [? ?]; [simpl; lia|].
    eexists. unfold print_wire_header.
    repeat first [eapply bind_defined; [eassumption|cbv zeta] | apply bind_printf].
    by eapply print_ack_line.
Qed.
