(* ===== verification/Backend.v ===== *)
(** Backend: the interface of sim_dpi/dpi_testing_lib.hpp, the global state a
    backend lives in, and [finish_simulation].

    The abstract class is a typeclass.  Its two methods run in a [bworld]: the
    globals the backends share with the rest of the simulation
    ([instance_state], the wall clock) and the object behind the global pointer
    [sim_backend].  [DPITestingLibLaws] states what the network side relies on;
    every backend has an instance. *)

From S2P Require Import Prelude Words Headers.

(** The object behind [sim_backend].  [finish_simulation] deletes it without
    clearing the pointer. *)
Inductive backend_ptr (B : Type) :=
| Null
| Live (obj : B)
| Dangling.
Arguments Null {B}.
Arguments Live {B} _.
Arguments Dangling {B}.

Record bworld (B : Type) := BWorld {
  w_instance_state : sock_state;
  w_now : Z * Z;
  w_sim_backend : backend_ptr B }.
Arguments BWorld {B} _ _ _.
Arguments w_instance_state {B} _.
Arguments w_now {B} _.
Arguments w_sim_backend {B} _.

Definition set_sim_backend {B C} (p : backend_ptr C) (w : bworld B) : bworld C :=
  BWorld (w_instance_state w) (w_now w) p.

(** What the stack of a call holds before it is written: the bytes of the
    locals that the code does not initialise ([struct pcap_pkthdr],
    [uint8_t buffer[2048]], the four sequence numbers of a new [TCPMimic], the
    [resp_buffer] of an ARP reply and the vector of [drive_rx_if]). *)
Record frame := Frame {
  fr_hdr : list byte;
  fr_buf : list byte;
  fr_mimic : Z * Z * Z * Z;
  fr_resp : list byte;
  fr_vec : list byte }.

Definition frame_ok (fr : frame) : Prop :=
  length (fr_hdr fr) = 16%nat ∧ Z.of_nat (length (fr_buf fr)) = 2048 ∧
  length (fr_resp fr) = 42%nat ∧ length (fr_vec fr) = 32%nat.

(** ** The interface *)

Class DPITestingLib (B : Type) := {
  get_buf_fr_io : frame → M (bworld B) (list byte);
  put_buf_on_io : list byte → M (bworld B) Z }.

(** ** Access to the object *)

(** A member access through [sim_backend]. *)
Definition this {B} : M (bworld B) B := λ w,
  match w_sim_backend w with
  | Live b => Done b w []
  | Null | Dangling => Stopped Undefined []
  end.

Definition set_this {B} (b : B) : M (bworld B) unit :=
  modify (set_sim_backend (Live b)).

(** A computation on the members of the object. *)
Definition on_this {B A} (m : M B A) : M (bworld B) A := λ w,
  match w_sim_backend w with
  | Live b =>
      match m b with
      | Done a b' tr => Done a (set_sim_backend (Live b') w) tr
      | Stopped why tr => Stopped why tr
      end
  | Null | Dangling => Stopped Undefined []
  end.

(** [finish_simulation] of sim_network_side_queue.cpp.  Deleting a null
    pointer does nothing, deleting twice is undefined. *)
Definition finish_simulation {B} : M (bworld B) unit := λ w,
  match w_sim_backend w with
  | Null => Done tt w [FinishFromC]
  | Live _ => Done tt (set_sim_backend Dangling w) [FinishFromC]
  | Dangling => Stopped Undefined []
  end.

(** ** Well-behaved computations

    A backend prints and may end the simulation: it drives no other DPI call
    and leaves the shared globals alone. *)

Definition quiet_event (e : event) : Prop :=
  match e with Printf _ _ | Perror _ | Eprintf _ | FinishFromC => True | _ => False end.

Definition quiet (tr : list event) : Prop := Forall quiet_event tr.

Definition keeps {B A} (m : M (bworld B) A) : Prop := ∀ w a w' tr,
  m w = Done a w' tr →
  w_instance_state w' = w_instance_state w ∧ w_now w' = w_now w ∧ quiet tr.

(** The same for a computation on the object alone. *)
Definition silent {S A} (m : M S A) : Prop := ∀ s a s' tr, m s = Done a s' tr → quiet tr.

Class DPITestingLibLaws (B : Type) `{!DPITestingLib B} := {
  get_keeps fr : keeps (get_buf_fr_io fr);
  put_keeps buf : keeps (put_buf_on_io buf);
  get_needs_object fr w : w_sim_backend w = Dangling → get_buf_fr_io fr w = Stopped Undefined [] }.

(** ** Closure of [keeps] and [silent] *)

Create HintDb keeps.

Lemma keeps_ret {B A} (a : A) : keeps (mret a : M (bworld B) A).
Proof. intros w a' w' tr [= <- <- <-]. repeat split. constructor. Qed.

Lemma keeps_bind {B A C} (m : M (bworld B) A) (f : A → M (bworld B) C) :
  keeps m → (∀ a, keeps (f a)) → keeps (m ≫= f).
Proof.
  intros Hm Hf w c w' tr H. apply bind_inv_done in H as (a & w1 & t1 & t2 & H1 & H2 & ->).
  apply Hm in H1 as (E1 & E2 & Q1). apply Hf in H2 as (E3 & E4 & Q2).
  repeat split; [congruence..|]. by apply Forall_app.
Qed.

Lemma keeps_printf {B} fmt args : keeps (printf fmt args : M (bworld B) unit).
Proof. intros w a w' tr [= <- <- <-]. repeat split. by repeat constructor. Qed.

Lemma keeps_defined {B A} (o : option A) : keeps (defined o : M (bworld B) A).
Proof.
  intros w a w' tr. unfold defined. destruct o; [|done].
  intros [= <- <- <-]. repeat split. constructor.
Qed.

Lemma keeps_get {B} : keeps (get : M (bworld B) _).
Proof. intros w a w' tr [= <- <- <-]. repeat split. constructor. Qed.

Lemma keeps_gets {B A} (f : bworld B → A) : keeps (gets f).
Proof. intros w a w' tr [= <- <- <-]. repeat split. constructor. Qed.

Lemma keeps_this {B} : keeps (@this B).
Proof.
  intros w a w' tr. unfold this. destruct (w_sim_backend w); [done| |done].
  intros [= <- <- <-]. repeat split. constructor.
Qed.

Lemma keeps_set_this {B} (b : B) : keeps (set_this b).
Proof. intros w a w' tr [= <- <- <-]. repeat split. constructor. Qed.

Lemma keeps_on_this {B A} (m : M B A) : silent m → keeps (on_this m).
Proof.
  intros Hm w a w' tr. unfold on_this. destruct (w_sim_backend w) as [|b|]; [done| |done].
  destruct (m b) as [a' b' t|] eqn:E; [|done].
  intros [= <- <- <-]. repeat split. by apply Hm in E.
Qed.

Lemma keeps_finish {B} : keeps (@finish_simulation B).
Proof.
  intros w a w' tr. unfold finish_simulation.
  destruct (w_sim_backend w); [| |done]; intros [= <- <- <-]; repeat split; by repeat constructor.
Qed.

Lemma keeps_if {B A} (b : bool) (m1 m2 : M (bworld B) A) :
  keeps m1 → keeps m2 → keeps (if b then m1 else m2).
Proof. by destruct b. Qed.

Lemma silent_ret {S A} (a : A) : silent (mret a : M S A).
Proof. intros s a' s' tr [= <- <- <-]. constructor. Qed.

Lemma silent_bind {S A C} (m : M S A) (f : A → M S C) :
  silent m → (∀ a, silent (f a)) → silent (m ≫= f).
Proof.
  intros Hm Hf s c s' tr H. apply bind_inv_done in H as (a & s1 & t1 & t2 & H1 & H2 & ->).
  apply Forall_app. split; [by eapply Hm|by eapply Hf].
Qed.

Lemma silent_printf {S} fmt args : silent (printf fmt args : M S unit).
Proof. intros s a s' tr [= <- <- <-]. by repeat constructor. Qed.

Lemma silent_defined {S A} (o : option A) : silent (defined o : M S A).
Proof.
  intros s a s' tr. unfold defined. destruct o; [|done]. intros [= <- <- <-]. constructor.
Qed.

Lemma silent_get {S} : silent (get : M S S).
Proof. intros s a s' tr [= <- <- <-]. constructor. Qed.
Lemma silent_gets {S A} (f : S → A) : silent (gets f).
Proof. intros s a s' tr [= <- <- <-]. constructor. Qed.
Lemma silent_put {S} (x : S) : silent (put x).
Proof. intros s a s' tr [= <- <- <-]. constructor. Qed.
Lemma silent_modify {S} (f : S → S) : silent (modify f).
Proof. intros s a s' tr [= <- <- <-]. constructor. Qed.
Lemma silent_if {S A} (b : bool) (m1 m2 : M S A) :
  silent m1 → silent m2 → silent (if b then m1 else m2).
Proof. by destruct b. Qed.

Lemma silent_zoom {S T A} (g : S → T) (p : T → S → S) (m : M T A) :
  silent m → silent (zoom g p m).
Proof.
  intros Hm s a s' tr. unfold zoom. destruct (m (g s)) eqn:E; [|done].
  intros [= <- <- <-]. by apply Hm in E.
Qed.

Lemma keeps_run_local {B T A} (t : T) (m : M T A) :
  silent m → keeps (run_local t m : M (bworld B) _).
Proof.
  intros Hm w a w' tr. unfold run_local. destruct (m t) as [a' t' tr'|] eqn:E; [|done].
  intros [= <- <- <-]. repeat split. by apply Hm in E.
Qed.

#[export] Hint Resolve keeps_run_local keeps_ret keeps_bind keeps_printf keeps_defined keeps_get keeps_gets
  keeps_this keeps_set_this keeps_on_this keeps_finish keeps_if
  silent_ret silent_bind silent_printf silent_defined silent_get silent_gets silent_put
  silent_modify silent_if silent_zoom : keeps.

(** [keeps_tac] closes [keeps] and [silent] goals by the shape of the code. *)
Ltac keeps_tac :=
  repeat first
    [ progress intros
    | solve [auto with keeps]
    | apply keeps_bind | apply silent_bind
    | apply keeps_if | apply silent_if
    | case_match ].

Lemma quiet_app t1 t2 : quiet (t1 ++ t2) ↔ quiet t1 ∧ quiet t2.
Proof. apply Forall_app. Qed.

(** ** Sample values, for the concrete instances of the theorems *)

Definition sample_mac : list byte := [Byte.x24; Byte.xbe; Byte.x05; Byte.xbf; Byte.x5b; Byte.x91].

Definition sample_world {B} (p : backend_ptr B) : bworld B :=
  BWorld {| send_sock := 0; recv_sock := 0;
            source_addr := {| sin_family := AF_INET; sin_port := 1234; s_addr := 0x020000c0 |};
            dest_addr := {| sin_family := 0; sin_port := 0; s_addr := 0 |};
            source_mac_addr := sample_mac; dest_mac_addr := replicate 6 Byte.x00;
            has_syn_acked := 0; init_ack_num := 0 |} (1700000000, 0) p.

Definition sample_frame : frame :=
  Frame (replicate 16 Byte.x00) (replicate (Z.to_nat 2048) Byte.x00) (0, 0, 0, 0)
    (replicate 42 Byte.x00) (replicate 32 Byte.x00).

Lemma sample_frame_ok : frame_ok sample_frame.
Proof. repeat split; vm_compute; reflexivity. Defined.
