(* ===== verification/Pcap.v ===== *)
(** Pcap: sim_dpi/pcap_helpers.cpp over a model of <stdio.h> streams. *)

From S2P Require Import Prelude Words Headers Backend.

(** ** Streams

    A stream has one position, a sticky end-of-file indicator and the number
    of bytes its device still takes.  The files that are written are open in
    append mode ("ab+"): a write goes to the end and moves the position there. *)

Record stream := Stream {
  content : list byte;
  pos : nat;
  at_eof : bool;
  room : nat }.

(** [fread(buf, 1, total, f)]: the bytes that were read. *)
Definition fread (total : Z) : M stream (list byte) := λ f,
  if at_eof f then Done [] f []
  else
    let avail := drop (pos f) (content f) in
    let got := take (Z.to_nat (Z.min total (Z.of_nat (length avail)))) avail in
    Done got (Stream (content f) (pos f + length got)
                     (Z.of_nat (length got) <? total) (room f)) [].

(** [fwrite(bs, 1, length bs, f)]: the number of bytes that were written. *)
Definition fwrite (bs : list byte) : M stream nat := λ f,
  let k := Nat.min (length bs) (room f) in
  let content' := content f ++ take k bs in
  Done k (Stream content' (length content') (at_eof f) (room f - k)) [].

(** ** The file header *)

Record pcap_file_header := {
  magic_number : Z;
  version_major : Z;
  version_minor : Z;
  thiszone : Z;
  sigfigs : Z;
  snaplen : Z;
  network : Z }.

(** The 24 bytes of the header on the target. *)
Definition pcap_file_header_enc (h : pcap_file_header) : list byte :=
  le_split 4 (magic_number h) ++ le_split 2 (version_major h) ++ le_split 2 (version_minor h) ++
  le_split 4 (thiszone h) ++ le_split 4 (sigfigs h) ++ le_split 4 (snaplen h) ++
  le_split 4 (network h).

(** [fread(&field, size, 1, f)] for each field in turn; the first that yields
    no item ends the function. *)
Fixpoint consume_fields (sizes : list Z) : M stream Z :=
  match sizes with
  | [] => mret 0
  | size :: sizes' =>
      got ← fread size;
      let nread := Z.of_nat (length got) / size in
      if nread <=? 0 then mret (-1) else consume_fields sizes'
  end.

Definition consumePCAPHeader : M stream Z := consume_fields [4; 2; 2; 4; 4; 4; 4].

Definition write_field (size : nat) (v : Z) : M stream unit :=
  _ ← fwrite (le_split size v); mret tt.

Definition pcap_header_written : pcap_file_header :=
  {| magic_number := 0xa1b2c3d4; version_major := 2; version_minor := 4; thiszone := 0;
     sigfigs := 0; snaplen := 65535; network := 1 |}.

Definition writePCAPHeader : M stream unit :=
  let hdr := pcap_header_written in
  write_field 4 (magic_number hdr);;
  write_field 2 (version_major hdr);;
  write_field 2 (version_minor hdr);;
  write_field 4 (thiszone hdr);;
  write_field 4 (sigfigs hdr);;
  write_field 4 (snaplen hdr);;
  write_field 4 (network hdr).

(** ** Records *)

Record pcap_pkthdr := {
  ts_sec : Z;
  ts_usec : Z;
  caplen : Z;
  len_ : Z }.

Definition pcap_pkthdr_enc (h : pcap_pkthdr) : list byte :=
  le_split 4 (ts_sec h) ++ le_split 4 (ts_usec h) ++ le_split 4 (caplen h) ++ le_split 4 (len_ h).

Arguments pcap_pkthdr_enc : simpl never.

Definition pcap_pkthdr_len : field := Field 12 4.

(** [hdr_junk] is what the local [pcap_header] holds before the read, [buffer]
    the caller's array; bytes that do not fit in it are written past its end. *)
Definition read_pcap_record (hdr_junk buffer : list byte) : M stream (Z * list byte) :=
  got ← fread 16;
  let read_len := s32 (Z.of_nat (length got)) in
  if read_len =? 0 then mret (0, buffer)
  else
    (if negb (read_len =? 16) then printf "Error reading pcap packet header\n" [] else mret tt);;
    let pcap_header := got ++ drop (length got) hdr_junk in
    len ← defined (ld 0 pcap_pkthdr_len pcap_header);
    printf "Packet len is %d\n" [ANum (s32 len)];;
    got ← fread len;
    buffer ← defined (wr_bytes 0 got buffer);
    let read_len := s32 (Z.of_nat (length got)) in
    (if negb (u32 read_len =? len) then printf "Error reading pcap packet capture\n" []
     else mret tt);;
    mret (read_len, buffer).

(** [curr_time] is what [gettimeofday] returned. *)
Definition write_pcap_record (curr_time : Z * Z) (buffer : list byte) (buffer_len : Z)
    : M stream Z :=
  let total_packet_len := buffer_len in
  let pcap_header := {| ts_sec := u32 (fst curr_time); ts_usec := u32 (snd curr_time);
                        caplen := total_packet_len; len_ := total_packet_len |} in
  k ← fwrite (pcap_pkthdr_enc pcap_header);
  let write_len := s32 (Z.of_nat k) in
  (if negb (write_len =? 16) then printf "Error writing pcap packet header\n" [] else mret tt);;
  bs ← defined (rd_bytes (Z.to_nat total_packet_len) 0 buffer);
  k ← fwrite bs;
  let write_len := s32 (Z.of_nat k) in
  (if negb (u32 write_len =? total_packet_len)
   then printf "Error writing pcap packet capture\n" [] else mret tt);;
  mret write_len.

(** ** Lemmas on streams *)

Lemma pcap_pkthdr_enc_length h : length (pcap_pkthdr_enc h) = 16%nat.
Proof. reflexivity. Qed.

#[export] Hint Rewrite pcap_pkthdr_enc_length : len.

Lemma ld_pcap_pkthdr_len h rest :
  fits 4 (len_ h) → ld 0 pcap_pkthdr_len (pcap_pkthdr_enc h ++ rest) = Some (len_ h).
Proof.
  intros. rewrite ld_app_l by (simpl; lia). unfold pcap_pkthdr_enc. by ld_enc.
Qed.

(** A read that the file can serve. *)
Lemma fread_full pre bs post r total :
  total = Z.of_nat (length bs) →
  fread total (Stream (pre ++ bs ++ post) (length pre) false r)
  = Done bs (Stream (pre ++ bs ++ post) (length pre + length bs) false r) [].
Proof.
  intros ->. unfold fread. cbn [at_eof content pos room].
  rewrite drop_app_length.
  replace (Z.to_nat _) with (length bs) by len.
  rewrite take_app_length, Z.ltb_irrefl. done.
Qed.

(** A read that meets the end of the file. *)
Lemma fread_short pre bs r total :
  Z.of_nat (length bs) < total →
  fread total (Stream (pre ++ bs) (length pre) false r)
  = Done bs (Stream (pre ++ bs) (length pre + length bs) true r) [].
Proof.
  intros. unfold fread. cbn [at_eof content pos room].
  rewrite drop_app_length.
  replace (Z.to_nat _) with (length bs) by lia.
  rewrite take_ge by lia. destruct (Z.ltb_spec (Z.of_nat (length bs)) total); [done|lia].
Qed.

Lemma fread_eof total f : at_eof f = true → fread total f = Done [] f [].
Proof. unfold fread. by intros ->. Qed.

Lemma fwrite_room bs f :
  (length bs ≤ room f)%nat →
  fwrite bs f = Done (length bs) (Stream (content f ++ bs) (length (content f ++ bs)) (at_eof f)
                                         (room f - length bs)) [].
Proof.
  intros. unfold fwrite. rewrite Nat.min_l by done. by rewrite take_ge by lia.
Qed.

Lemma silent_fread total : silent (fread total).
Proof.
  intros f a s' tr. unfold fread. case_match; intros [= <- <- <-]; constructor.
Qed.
Lemma silent_fwrite bs : silent (fwrite bs).
Proof. intros f a s' tr [= <- <- <-]. constructor. Qed.
#[export] Hint Resolve silent_fread silent_fwrite : keeps.

Lemma silent_consume_fields sizes : silent (consume_fields sizes).
Proof. induction sizes; simpl; keeps_tac. Qed.
#[export] Hint Resolve silent_consume_fields : keeps.

Lemma silent_read_pcap_record j b : silent (read_pcap_record j b).
Proof. unfold read_pcap_record. keeps_tac. Qed.
Lemma silent_write_pcap_record t b n : silent (write_pcap_record t b n).
Proof. unfold write_pcap_record. keeps_tac. Qed.
#[export] Hint Resolve silent_read_pcap_record silent_write_pcap_record : keeps.

(** [read_pcap_record] once the 16 bytes of the record header are there. *)
Lemma read_record_body pre h rest r j buffer :
  fits 4 (len_ h) →
  let f := Stream (pre ++ pcap_pkthdr_enc h ++ rest) (length pre) false r in
  let f16 := Stream (pre ++ pcap_pkthdr_enc h ++ rest) (length pre + 16) false r in
  read_pcap_record j buffer f =
  (printf "Packet len is %d\n" [ANum (s32 (len_ h))];;
   got ← fread (len_ h);
   buffer ← defined (wr_bytes 0 got buffer);
   let read_len := s32 (Z.of_nat (length got)) in
   (if negb (u32 read_len =? len_ h) then printf "Error reading pcap packet capture\n" []
    else mret tt);;
   mret (read_len, buffer)) f16.
Proof.
  intros Hl f f16. unfold read_pcap_record.
  rewrite (bind_done_nil _ _ _ (pcap_pkthdr_enc h) f16) by (by apply fread_full).
  rewrite pcap_pkthdr_enc_length. change (s32 (Z.of_nat 16)) with 16. cbn [Z.eqb negb].
  change (16 =? 0) with false. change (16 =? 16) with true. cbn [negb].
  rewrite (bind_done_nil _ _ _ tt f16) by done.
  rewrite ld_pcap_pkthdr_len by done.
  rewrite (bind_done_nil _ _ _ (len_ h) f16) by done. done.
Qed.

(** A record that is whole in the file and fits the caller's array. *)
Lemma read_record_whole pre h data post r j buffer :
  len_ h = Z.of_nat (length data) →
  (length data ≤ length buffer)%nat → Z.of_nat (length buffer) < 2 ^ 31 →
  read_pcap_record j buffer (Stream (pre ++ pcap_pkthdr_enc h ++ data ++ post) (length pre) false r)
  = Done (Z.of_nat (length data), data ++ drop (length data) buffer)
         (Stream (pre ++ pcap_pkthdr_enc h ++ data ++ post)
                 (length pre + 16 + length data) false r)
         [Printf "Packet len is %d\n" [ANum (Z.of_nat (length data))]].
Proof.
  intros Hl Hb Hb31.
  rewrite (read_record_body pre h (data ++ post)) by (unfold fits; lia).
  set (f16 := Stream _ _ _ _).
  rewrite (bind_done _ _ _ tt f16 [Printf "Packet len is %d\n" [ANum (s32 (len_ h))]]) by done.
  assert (fread (len_ h) f16 = Done data (Stream (pre ++ pcap_pkthdr_enc h ++ data ++ post)
                                                 (length pre + 16 + length data) false r) []) as Hr.
  { pose proof (fread_full (pre ++ pcap_pkthdr_enc h) data post r (len_ h) Hl) as H.
    rewrite length_app, pcap_pkthdr_enc_length, <- !app_assoc in H. done. }
  rewrite (bind_done_nil _ _ _ _ _ Hr).
  assert (wr_bytes 0 data buffer = Some (data ++ drop (length data) buffer)) as ->.
  { apply wr_bytes_Some. split; [lia|done]. }
  rewrite (bind_done_nil _ _ _ (data ++ drop (length data) buffer)
             (Stream (pre ++ pcap_pkthdr_enc h ++ data ++ post)
                     (length pre + 16 + length data) false r)) by done.
  cbv zeta. rewrite Hl, s32_small by lia.
  rewrite u32_small by (unfold fits; lia). rewrite Z.eqb_refl. done.
Qed.

(** Writing a record. *)
Lemma write_record_room now data f :
  (16 + length data ≤ room f)%nat → Z.of_nat (length data) < 2 ^ 31 →
  let h := {| ts_sec := u32 (fst now); ts_usec := u32 (snd now);
              caplen := Z.of_nat (length data); len_ := Z.of_nat (length data) |} in
  write_pcap_record now data (Z.of_nat (length data)) f
  = Done (Z.of_nat (length data))
         (Stream (content f ++ pcap_pkthdr_enc h ++ data)
                 (length (content f ++ pcap_pkthdr_enc h ++ data)) (at_eof f)
                 (room f - (16 + length data))) [].
Proof.
  intros Hr H31 h. unfold write_pcap_record. cbv zeta. fold h.
  set (f1 := Stream (content f ++ pcap_pkthdr_enc h) (length (content f ++ pcap_pkthdr_enc h))
                    (at_eof f) (room f - 16)).
  rewrite (bind_done_nil _ _ _ 16%nat f1)
    by (rewrite fwrite_room by (rewrite pcap_pkthdr_enc_length; lia); done).
  change (s32 (Z.of_nat 16) =? 16) with true. cbn [negb].
  rewrite (bind_done_nil _ _ _ tt f1) by done.
  rewrite Nat2Z.id, rd_bytes_all.
  rewrite (bind_done_nil _ _ _ data f1) by done.
  rewrite (bind_done_nil _ _ _ (length data)
    (Stream (content f1 ++ data) (length (content f1 ++ data)) (at_eof f1)
            (room f1 - length data)))
    by (apply fwrite_room; simpl; lia).
  rewrite s32_small by lia. rewrite u32_small by (unfold fits; lia). rewrite Z.eqb_refl.
  cbn [negb]. rewrite (bind_done_nil _ _ _ tt _) by done.
  unfold mret, M_ret. simpl. rewrite <- !app_assoc. do 2 f_equal; len.
Qed.

Lemma write_field_room size v f :
  (size ≤ room f)%nat →
  write_field size v f = Done tt (Stream (content f ++ le_split size v)
    (length (content f ++ le_split size v)) (at_eof f) (room f - size)) [].
Proof.
  intros. unfold write_field.
  erewrite bind_done_nil by (apply fwrite_room; len). by rewrite le_split_length.
Qed.

Lemma consume_fields_spec sizes pre rest r :
  Forall (λ s, 0 < s) sizes →
  let total := foldr Z.add 0 sizes in
  (total ≤ Z.of_nat (length rest) →
     consume_fields sizes (Stream (pre ++ rest) (length pre) false r)
     = Done 0 (Stream (pre ++ rest) (length pre + Z.to_nat total) false r) []) ∧
  (Z.of_nat (length rest) < total →
     ∃ f', consume_fields sizes (Stream (pre ++ rest) (length pre) false r)
           = Done (-1) f' []).
Proof.
  intros Hs. revert pre rest. induction Hs as [|s sizes Hpos Hs IH]; intros pre rest; simpl.
  { split; [|lia]. intros _. by rewrite Nat.add_0_r. }
  set (total := foldr Z.add 0 sizes) in *.
  assert (0 ≤ total) as Htot.
  { unfold total. clear - Hs. induction Hs; simpl; lia. }
  destruct (Z.le_gt_cases s (Z.of_nat (length rest))) as [Hle|Hgt].
  - set (g := take (Z.to_nat s) rest).
    assert (length g = Z.to_nat s) as Hg by (unfold g; len).
    rewrite <- (take_drop (Z.to_nat s) rest). fold g.
    set (rest' := drop (Z.to_nat s) rest).
    rewrite (bind_done_nil _ _ _ g (Stream (pre ++ g ++ rest') (length pre + length g) false r))
      by (apply fread_full; lia).
    cbv zeta. rewrite Hg, Z2Nat.id, Z_div_same by lia. cbn [Z.leb Z.compare].
    destruct (IH (pre ++ g) rest') as [IH1 IH2].
    rewrite <- app_assoc, length_app, Hg in IH1, IH2. split.
    + intros. rewrite IH1 by len. do 2 f_equal. lia.
    + intros. destruct IH2 as [f' IH2]; [len|]. exists f'. by rewrite IH2.
  - split; [lia|]. intros _. exists (Stream (pre ++ rest) (length pre + length rest) true r).
    rewrite (bind_done_nil _ _ _ rest (Stream (pre ++ rest) (length pre + length rest) true r))
      by (by apply fread_short).
    cbv zeta. rewrite Z.div_small by lia. done.
Qed.

(** The file header, at the start of a file. *)
Lemma consumePCAPHeader_whole hdr rest r :
  length hdr = 24%nat →
  consumePCAPHeader (Stream (hdr ++ rest) 0 false r) = Done 0 (Stream (hdr ++ rest) 24 false r) [].
Proof.
  intros Hhdr. pose proof (consume_fields_spec [4; 2; 2; 4; 4; 4; 4] [] (hdr ++ rest) r) as H.
  destruct H as [H _]; [repeat (constructor; [lia|]); done|]. apply H. simpl. len.
Qed.

Lemma consumePCAPHeader_short file r :
  (length file < 24)%nat →
  ∃ f', consumePCAPHeader (Stream file 0 false r) = Done (-1) f' [].
Proof.
  intros Hl. pose proof (consume_fields_spec [4; 2; 2; 4; 4; 4; 4] [] file r) as H.
  destruct H as [_ H]; [repeat (constructor; [lia|]); done|]. apply H. simpl. lia.
Qed.

(** ** Properties *)

(** [consumePCAPHeader] succeeds exactly when 24 bytes are left, and then
    leaves the stream after them; it never looks at the magic number. *)
Theorem consumePCAPHeader_spec pre rest r :
  (24 ≤ Z.of_nat (length rest) →
     consumePCAPHeader (Stream (pre ++ rest) (length pre) false r)
     = Done 0 (Stream (pre ++ rest) (length pre + 24) false r) []) ∧
  (Z.of_nat (length rest) < 24 →
     ∃ f', consumePCAPHeader (Stream (pre ++ rest) (length pre) false r) = Done (-1) f' []).
Proof. apply (consume_fields_spec [4; 2; 2; 4; 4; 4; 4]). repeat (constructor; [lia|]). done. Qed.

(** The header [writePCAPHeader] appends to an empty file is the 24 bytes
    of a little-endian pcap header of link type Ethernet, and
    [consumePCAPHeader] accepts it. *)
Theorem pcap_header_roundtrip r r' :
  (24 ≤ r)%nat →
  ∃ hdr, writePCAPHeader (Stream [] 0 false r) = Done tt (Stream hdr 24 false (r - 24)) [] ∧
         ld 0 (Field 0 4) hdr = Some 0xa1b2c3d4 ∧ ld 0 (Field 20 4) hdr = Some 1 ∧
         consumePCAPHeader (Stream hdr 0 false r') = Done 0 (Stream hdr 24 false r') [].
Proof.
  intros Hr. exists (pcap_file_header_enc pcap_header_written).
  split; [|split; [|split]].
  - unfold writePCAPHeader. cbv zeta.
    do 6 (erewrite bind_done_nil by (apply write_field_room; simpl; lia)).
    rewrite write_field_room by (simpl; lia). cbn [content at_eof room].
    by replace (r - 4 - 2 - 2 - 4 - 4 - 4 - 4)%nat with (r - 24)%nat by lia.
  - reflexivity.
  - reflexivity.
  - reflexivity.
Qed.

Lemma pcap_header_roundtrip_witness :
  ∃ hdr, writePCAPHeader (Stream [] 0 false 30) = Done tt (Stream hdr 24 false (30 - 24)) [] ∧
         ld 0 (Field 0 4) hdr = Some 0xa1b2c3d4 ∧ ld 0 (Field 20 4) hdr = Some 1 ∧
         consumePCAPHeader (Stream hdr 0 false 0) = Done 0 (Stream hdr 24 false 0) [].
Proof. apply (pcap_header_roundtrip 30 0). lia. Defined.

(** A packet written with [write_pcap_record] is read back exactly by
    [read_pcap_record] from where the record starts, without any diagnostic,
    and the reader ends on the byte after the record. *)
Theorem pcap_record_roundtrip now data f j buffer r :
  (16 + length data ≤ room f)%nat →
  (length data ≤ length buffer)%nat → Z.of_nat (length buffer) < 2 ^ 31 →
  ∃ f', write_pcap_record now data (Z.of_nat (length data)) f
        = Done (Z.of_nat (length data)) f' [] ∧
        length (content f') = (length (content f) + 16 + length data)%nat ∧
        read_pcap_record j buffer (Stream (content f') (length (content f)) false r)
        = Done (Z.of_nat (length data), data ++ drop (length data) buffer)
               (Stream (content f') (length (content f')) false r)
               [Printf "Packet len is %d\n" [ANum (Z.of_nat (length data))]].
Proof.
  intros Hr Hb H31. eexists. split; [apply write_record_room; lia|].
  cbn [content]. split; [len|].
  match goal with |- context [pcap_pkthdr_enc ?h] => set (hd := h) end.
  pose proof (read_record_whole (content f) hd data [] r j buffer eq_refl Hb H31) as H.
  rewrite app_nil_r in H. rewrite H. do 2 f_equal. len.
Qed.

Lemma pcap_record_roundtrip_witness :
  ∃ f', write_pcap_record (1700000000, 5) [Byte.x01; Byte.x02; Byte.x03] 3
          (Stream [] 0 false 100) = Done 3 f' [] ∧
        length (content f') = 19%nat ∧
        read_pcap_record [] (replicate 8 Byte.xee) (Stream (content f') 0 false 0)
        = Done (3, [Byte.x01; Byte.x02; Byte.x03] ++ replicate 5 Byte.xee)
               (Stream (content f') (length (content f')) false 0)
               [Printf "Packet len is %d\n" [ANum 3]].
Proof.
  apply (pcap_record_roundtrip (1700000000, 5) [Byte.x01; Byte.x02; Byte.x03]
           (Stream [] 0 false 100) [] (replicate 8 Byte.xee) 0); simpl; lia.
Defined.

(** [read_pcap_record] takes the length off the wire, [len], for the length
    in the file, [caplen]: on a record captured with [caplen < len] it returns
    bytes of the next record as part of this packet. *)
Theorem read_pcap_record_ignores_caplen pre h captured next after r j buffer :
  caplen h = Z.of_nat (length captured) →
  len_ h = Z.of_nat (length captured + length next) →
  (length captured + length next ≤ length buffer)%nat → Z.of_nat (length buffer) < 2 ^ 31 →
  ∃ f' tr, read_pcap_record j buffer
        (Stream (pre ++ pcap_pkthdr_enc h ++ captured ++ next ++ after) (length pre) false r)
      = Done (len_ h, captured ++ next ++ drop (length captured + length next) buffer) f' tr.
Proof.
  intros Hc Hl Hb H31.
  pose proof (read_record_whole pre h (captured ++ next) after r j buffer) as H.
  rewrite length_app, <- !app_assoc in H. rewrite H, Hl by done. eauto.
Qed.

Lemma read_pcap_record_ignores_caplen_witness :
  ∃ f' tr, read_pcap_record [] (replicate 4 Byte.x00)
      (Stream ([] ++ pcap_pkthdr_enc {| ts_sec := 0; ts_usec := 0; caplen := 1; len_ := 2 |}
                 ++ [Byte.x41] ++ [Byte.x42] ++ []) 0 false 0)
    = Done (2, [Byte.x41] ++ [Byte.x42] ++ [Byte.x00; Byte.x00]) f' tr.
Proof.
  apply (read_pcap_record_ignores_caplen [] {| ts_sec := 0; ts_usec := 0; caplen := 1; len_ := 2 |}
           [Byte.x41] [Byte.x42]); simpl; done || lia.
Defined.

(** A record longer than the caller's array is written past its end. *)
Theorem read_pcap_record_overflow pre h data post r j buffer :
  len_ h = Z.of_nat (length data) → fits 4 (len_ h) → (length buffer < length data)%nat →
  ∃ tr, read_pcap_record j buffer
          (Stream (pre ++ pcap_pkthdr_enc h ++ data ++ post) (length pre) false r)
        = Stopped Undefined tr.
Proof.
  intros Hl Hf Hb. rewrite (read_record_body pre h (data ++ post)) by done.
  set (f16 := Stream _ _ _ _).
  rewrite (bind_done _ _ _ tt f16 [Printf "Packet len is %d\n" [ANum (s32 (len_ h))]]) by done.
  pose proof (fread_full (pre ++ pcap_pkthdr_enc h) data post r (len_ h) Hl) as H.
  rewrite length_app, pcap_pkthdr_enc_length, <- !app_assoc in H.
  rewrite (bind_done_nil _ _ _ _ _ H).
  assert (wr_bytes 0 data buffer = None) as -> by (apply wr_bytes_None; lia).
  eexists. reflexivity.
Qed.

Lemma read_pcap_record_overflow_witness :
  ∃ tr, read_pcap_record [] [Byte.x00]
          (Stream ([] ++ pcap_pkthdr_enc {| ts_sec := 0; ts_usec := 0; caplen := 2; len_ := 2 |}
                     ++ [Byte.x41; Byte.x42] ++ []) 0 false 0)
        = Stopped Undefined tr.
Proof.
  apply (read_pcap_record_overflow [] {| ts_sec := 0; ts_usec := 0; caplen := 2; len_ := 2 |}
           [Byte.x41; Byte.x42] [] 0 [] [Byte.x00]); [done|vm_compute; done|simpl; lia].
Defined.

(** At the end of the file nothing is read, and the indicator stays set. *)
Lemma read_record_eof j buffer f : at_eof f = true → read_pcap_record j buffer f = Done (0, buffer) f [].
Proof.
  intros H. unfold read_pcap_record. by rewrite (bind_done_nil _ _ _ [] f) by (by apply fread_eof).
Qed.

Lemma read_record_end pre r j buffer :
  read_pcap_record j buffer (Stream pre (length pre) false r)
  = Done (0, buffer) (Stream pre (length pre) true r) [].
Proof.
  unfold read_pcap_record.
  pose proof (fread_short pre [] r 16 ltac:(simpl; lia)) as H.
  rewrite app_nil_r, Nat.add_0_r in H. by rewrite (bind_done_nil _ _ _ _ _ H).
Qed.

(** A file cut inside a record header: the code says so, but goes on with
    a header completed by whatever the stack held, and ends up returning 0,
    as at a clean end of file. *)
Theorem read_pcap_record_cut_header pre bs r j buffer :
  (0 < length bs < 16)%nat → length j = 16%nat →
  ∃ len tr, fits 4 len ∧
    read_pcap_record j buffer (Stream (pre ++ bs) (length pre) false r)
    = Done (0, buffer) (Stream (pre ++ bs) (length pre + length bs) true r)
        (Printf "Error reading pcap packet header\n" [] ::
         Printf "Packet len is %d\n" [ANum (s32 len)] :: tr) ∧
    ld 0 pcap_pkthdr_len (bs ++ drop (length bs) j) = Some len ∧
    tr = (if len =? 0 then [] else [Printf "Error reading pcap packet capture\n" []]).
Proof.
  intros Hbs Hj.
  destruct (rd_is_Some 4 12 (bs ++ drop (length bs) j)) as [v Hlen]; [len|].
  exists v, (if v =? 0 then [] else [Printf "Error reading pcap packet capture\n" []]).
  split; [by eapply rd_fits|]. split; [|done].
  set (f := Stream (pre ++ bs) (length pre + length bs) true r).
  unfold read_pcap_record. rewrite (bind_done_nil _ _ _ bs f) by (apply fread_short; lia).
  rewrite s32_small by lia.
  destruct (Z.eqb_spec (Z.of_nat (length bs)) 0); [lia|].
  destruct (Z.eqb_spec (Z.of_nat (length bs)) 16); [lia|]. cbn [negb].
  rewrite (bind_done _ _ _ tt f [Printf "Error reading pcap packet header\n" []]) by done.
  unfold ld. cbn [f_off f_len pcap_pkthdr_len Nat.add]. rewrite Hlen.
  rewrite (bind_done_nil _ _ _ v f) by done.
  rewrite (bind_done _ _ _ tt f [Printf "Packet len is %d\n" [ANum (s32 v)]]) by done.
  rewrite (bind_done_nil _ _ _ [] f) by (by apply fread_eof).
  assert (wr_bytes 0 [] buffer = Some buffer) as -> by (apply wr_bytes_Some; split; [simpl; lia|done]).
  rewrite (bind_done_nil _ _ _ buffer f) by done.
  cbv zeta. change (u32 (s32 (Z.of_nat (length [])))) with 0.
  rewrite (Z.eqb_sym 0 v). by destruct (Z.eqb_spec v 0).
Qed.

Lemma read_pcap_record_cut_header_witness :
  ∃ len tr, fits 4 len ∧
    read_pcap_record (replicate 16 Byte.x01) [] (Stream ([] ++ [Byte.x00; Byte.x02]) 0 false 0)
    = Done (0, []) (Stream ([] ++ [Byte.x00; Byte.x02]) 2 true 0)
        (Printf "Error reading pcap packet header\n" [] ::
         Printf "Packet len is %d\n" [ANum (s32 len)] :: tr) ∧
    ld 0 pcap_pkthdr_len ([Byte.x00; Byte.x02] ++ replicate 14 Byte.x01) = Some len ∧
    tr = (if len =? 0 then [] else [Printf "Error reading pcap packet capture\n" []]).
Proof.
  apply (read_pcap_record_cut_header [] [Byte.x00; Byte.x02] 0 (replicate 16 Byte.x01) []);
    simpl; lia.
Defined.
