(* ===== verification/FileIO.v ===== *)
(** FileIO: sim_dpi/file_io_testing_lib.cpp, the backend that exchanges
    packets with another process through two pcap files. *)

From S2P Require Import Prelude Words Headers Backend Pcap.

Record FileIOTestingLib := {
  send_file : stream;
  recv_file : stream }.

Definition set_send_file (f : stream) (o : FileIOTestingLib) : FileIOTestingLib :=
  {| send_file := f; recv_file := recv_file o |}.
Definition set_recv_file (f : stream) (o : FileIOTestingLib) : FileIOTestingLib :=
  {| send_file := send_file o; recv_file := f |}.

(** The constructor; the arguments are what [fopen(.., "ab+")] returned for
    the two names. *)
Definition FileIOTestingLib_new {B} (send recv : option stream)
    : M (bworld B) FileIOTestingLib :=
  match send with
  | None => perror "Failed to open hw to sw file";; stop (Exit 1)
  | Some send_file =>
      match recv with
      | None => perror "Failed to open sw to hw_file";; stop (Exit 1)
      | Some recv_file =>
          '(_, send_file) ← run_local send_file writePCAPHeader;
          '(_, recv_file) ← run_local recv_file writePCAPHeader;
          mret {| send_file := send_file; recv_file := recv_file |}
      end
  end.

Definition FileIO_get_buf_fr_io (fr : frame) : M (bworld FileIOTestingLib) (list byte) :=
  '(n, buffer) ← on_this (zoom recv_file set_recv_file (read_pcap_record (fr_hdr fr) (fr_buf fr)));
  let packet_len := u32 n in
  defined (rd_bytes (Z.to_nat packet_len) 0 buffer).

Definition FileIO_put_buf_on_io (pkt_buf : list byte) : M (bworld FileIOTestingLib) Z :=
  now ← gets w_now;
  on_this (zoom send_file set_send_file
             (write_pcap_record now pkt_buf (u32 (Z.of_nat (length pkt_buf))))).

#[export] Instance FileIO_backend : DPITestingLib FileIOTestingLib := {
  get_buf_fr_io := FileIO_get_buf_fr_io;
  put_buf_on_io := FileIO_put_buf_on_io }.

#[export] Instance FileIO_laws : DPITestingLibLaws FileIOTestingLib.
Proof.
  split.
  - intros fr. simpl. unfold FileIO_get_buf_fr_io.
    apply keeps_bind; [auto with keeps|intros [n b]; auto with keeps].
  - intros buf. simpl. unfold FileIO_put_buf_on_io. keeps_tac.
  - intros fr w Hw. simpl. unfold FileIO_get_buf_fr_io.
    apply bind_stopped. unfold on_this. by rewrite Hw.
Qed.

(** ** Properties *)

(** A packet another process appended to the receive file is delivered whole;
    the stream has room for nothing else to go wrong. *)
Lemma FileIO_get_record w o pre h data post r fr :
  frame_ok fr → w_sim_backend w = Live o →
  recv_file o = Stream (pre ++ pcap_pkthdr_enc h ++ data ++ post) (length pre) false r →
  len_ h = Z.of_nat (length data) → Z.of_nat (length data) ≤ 2048 →
  FileIO_get_buf_fr_io fr w
  = Done data
      (set_sim_backend (Live (set_recv_file
         (Stream (pre ++ pcap_pkthdr_enc h ++ data ++ post)
                 (length pre + 16 + length data) false r) o)) w)
      [Printf "Packet len is %d\n" [ANum (Z.of_nat (length data))]].
Proof.
  intros (_ & Hfr & _) Hw Hf Hl Hd. unfold FileIO_get_buf_fr_io.
  pose proof (read_record_whole pre h data post r (fr_hdr fr) (fr_buf fr) Hl
                ltac:(lia) ltac:(lia)) as Hr.
  erewrite bind_done by (unfold on_this, zoom; rewrite Hw, Hf, Hr; reflexivity).
  cbv beta iota zeta. rewrite u32_small by (unfold fits; lia). rewrite Nat2Z.id.
  assert (rd_bytes (length data) 0 (data ++ drop (length data) (fr_buf fr)) = Some data) as ->.
  { apply rd_bytes_Some. split; [len|]. by rewrite drop_0, take_app_length. }
  done.
Qed.

(** Two simulations connected back to back: a packet of 1 to 2048 bytes
    that one puts on its send file is what the other, whose receive stream is
    at the end of the same file, gets. *)
Theorem FileIO_transport w1 o1 data :
  w_sim_backend w1 = Live o1 →
  Z.of_nat (length data) ≤ 2048 → (16 + length data ≤ room (send_file o1))%nat →
  ∃ w1' o1', FileIO_put_buf_on_io data w1 = Done (Z.of_nat (length data)) w1' [] ∧
    w_sim_backend w1' = Live o1' ∧
    ∀ w2 o2 fr r, frame_ok fr → w_sim_backend w2 = Live o2 →
    recv_file o2 = Stream (content (send_file o1')) (length (content (send_file o1))) false r →
    ∃ w2' o2', FileIO_get_buf_fr_io fr w2
      = Done data w2' [Printf "Packet len is %d\n" [ANum (Z.of_nat (length data))]] ∧
      w_sim_backend w2' = Live o2' ∧
      recv_file o2' = Stream (content (send_file o1')) (length (content (send_file o1'))) false r.
Proof.
  intros Hw1 Hd Hroom. unfold FileIO_put_buf_on_io.
  pose proof (write_record_room (w_now w1) data (send_file o1) ltac:(lia) ltac:(lia)) as Hwr.
  cbv zeta in Hwr. match type of Hwr with context [pcap_pkthdr_enc ?x] => set (h := x) in * end.
  rewrite u32_small by (unfold fits; lia).
  erewrite bind_done_nil by reflexivity.
  unfold on_this at 1, zoom. rewrite Hw1, Hwr.
  eexists _, _. split; [reflexivity|]. split; [reflexivity|].
  cbn [send_file set_send_file content]. intros w2 o2 fr r Hfr Hw2 Hr.
  assert (content (send_file o1) ++ pcap_pkthdr_enc h ++ data
          = content (send_file o1) ++ pcap_pkthdr_enc h ++ data ++ []) as E by by rewrite app_nil_r.
  rewrite E in Hr |- *.
  eexists _, _. split; [by apply (FileIO_get_record w2 o2 (content (send_file o1)) h data [] r)|].
  split; [reflexivity|]. cbn [recv_file set_recv_file]. f_equal. len.
Qed.

Lemma FileIO_transport_witness :
  let o1 := {| send_file := Stream [] 0 false 100; recv_file := Stream [] 0 false 0 |} in
  let data := [Byte.x41; Byte.x42] in
  ∃ w1' o1', FileIO_put_buf_on_io data (sample_world (Live o1)) = Done 2 w1' [] ∧
    w_sim_backend w1' = Live o1' ∧
    ∀ w2 o2 fr r, frame_ok fr → w_sim_backend w2 = Live o2 →
    recv_file o2 = Stream (content (send_file o1')) 0 false r →
    ∃ w2' o2', FileIO_get_buf_fr_io fr w2 = Done data w2' [Printf "Packet len is %d\n" [ANum 2]] ∧
      w_sim_backend w2' = Live o2' ∧
      recv_file o2' = Stream (content (send_file o1')) (length (content (send_file o1'))) false r.
Proof.
  intros o1 data. apply (FileIO_transport (sample_world (Live o1)) o1 data);
    [reflexivity|vm_compute; discriminate|vm_compute; lia].
Defined.

Lemma FileIO_get_eof w o fr :
  w_sim_backend w = Live o → at_eof (recv_file o) = true →
  get_buf_fr_io fr w = Done [] w [].
Proof.
  intros Hw Ho. simpl. unfold FileIO_get_buf_fr_io.
  erewrite bind_done_nil by (unfold on_this, zoom; rewrite Hw, read_record_eof by done; reflexivity).
  cbv beta iota zeta. change (Z.to_nat (u32 0)) with 0%nat.
  assert (rd_bytes 0 0 (fr_buf fr) = Some []) as ->.
  { apply rd_bytes_Some. split; [lia|done]. }
  destruct w as [i n p]. simpl in *. subst. by destruct o.
Qed.

(** What the other process does to the receive file between two polls. *)
Definition append_recv (bs : list byte) (w : bworld FileIOTestingLib) : bworld FileIOTestingLib :=
  match w_sim_backend w with
  | Live o => set_sim_backend (Live (set_recv_file
      (Stream (content (recv_file o) ++ bs) (pos (recv_file o)) (at_eof (recv_file o))
              (room (recv_file o))) o)) w
  | _ => w
  end.

(** The end-of-file indicator of a stream is sticky and nothing clears it:
    once a poll has met the end of the receive file, every later poll is empty,
    whatever the other process appends in between. *)
Theorem FileIO_poll_starves w o fr bs w1 a tr :
  w_sim_backend w = Live o →
  pos (recv_file o) = length (content (recv_file o)) →
  get_buf_fr_io fr w = Done a w1 tr →
  a = [] ∧ ∀ fr', ∃ w2, get_buf_fr_io fr' (append_recv bs w1) = Done [] w2 [].
Proof.
  intros Hw Hp H.
  assert (∃ o1, a = [] ∧ w_sim_backend w1 = Live o1 ∧ at_eof (recv_file o1) = true) as (o1 & -> & Hw1 & He).
  { destruct (at_eof (recv_file o)) eqn:Ho.
    - rewrite (FileIO_get_eof w o fr Hw Ho) in H. injection H as <- <- <-. eauto.
    - destruct o as [s [c p e r]]. simpl in Hp, Ho. subst p e.
      simpl in H. unfold FileIO_get_buf_fr_io in H.
      erewrite bind_done_nil in H
        by (unfold on_this, zoom; rewrite Hw; cbn [recv_file];
            rewrite read_record_end; reflexivity).
      cbv beta iota zeta in H. change (Z.to_nat (u32 0)) with 0%nat in H.
      assert (rd_bytes 0 0 (fr_buf fr) = Some []) as E by (apply rd_bytes_Some; split; [lia|done]).
      rewrite E in H. injection H as <- <- <-. eauto. }
  split; [done|]. intros fr'. eexists.
  apply (FileIO_get_eof _ (set_recv_file
    (Stream (content (recv_file o1) ++ bs) (pos (recv_file o1)) (at_eof (recv_file o1))
            (room (recv_file o1))) o1)); [|done].
  unfold append_recv. by rewrite Hw1.
Qed.

Lemma FileIO_poll_starves_witness :
  let o := {| send_file := Stream [] 0 false 0; recv_file := Stream [] 0 false 0 |} in
  ([] : list byte) = [] ∧ ∀ fr', ∃ w2,
    get_buf_fr_io fr' (append_recv [Byte.x41]
      (sample_world (Live {| send_file := Stream [] 0 false 0;
                             recv_file := Stream [] 0 true 0 |}))) = Done [] w2 [].
Proof.
  intros o.
  apply (FileIO_poll_starves (sample_world (Live o)) o sample_frame [Byte.x41] _ [] []);
    reflexivity.
Defined.
