(* ===== verification/FileTesting.v ===== *)
(** FileTesting: sim_dpi/file_testing_lib.cpp, the file exchange of before the
    backend classes.  It keeps its two streams in members [send_file] and
    [recv_file] of [sock_state], which testing_utils.h no longer declares; the
    model has these two members and the clock, all that the file uses.

    The file has its own copy of the pcap functions.  The theorem of this file
    is that nothing was lost when it was replaced: any session of calls goes
    the same way through it and through [FileIOTestingLib]. *)

From S2P Require Import Prelude Words Headers Backend Pcap FileIO.

Record fd_state := FdState {
  fd_send_file : stream;
  fd_recv_file : stream;
  fd_now : Z * Z }.

Definition set_fd_send_file (f : stream) (s : fd_state) : fd_state :=
  FdState f (fd_recv_file s) (fd_now s).
Definition set_fd_recv_file (f : stream) (s : fd_state) : fd_state :=
  FdState (fd_send_file s) f (fd_now s).

(** ** Its pcap functions *)

Definition fd_file_header : pcap_file_header :=
  {| magic_number := 0xa1b2c3d4; version_major := 2; version_minor := 4; thiszone := 0;
     sigfigs := 0; snaplen := 65535; network := 1 |}.

(** One [fwrite] per field, its count ignored. *)
Fixpoint fd_write_fields (fields : list (nat * Z)) : M stream unit :=
  match fields with
  | [] => mret tt
  | (size, v) :: fields' => _ ← fwrite (le_split size v); fd_write_fields fields'
  end.

Definition fd_writePCAPHeader : M stream unit :=
  let hdr := fd_file_header in
  fd_write_fields
    [(4%nat, magic_number hdr); (2%nat, version_major hdr); (2%nat, version_minor hdr);
     (4%nat, thiszone hdr); (4%nat, sigfigs hdr); (4%nat, snaplen hdr); (4%nat, network hdr)].

Definition fd_read_pcap_record (hdr_junk buffer : list byte) : M stream (Z * list byte) :=
  got ← fread 16;
  let read_len := s32 (Z.of_nat (length got)) in
  if read_len =? 0 then mret (0, buffer)
  else
    (if negb (read_len =? 16) then printf "Error reading pcap packet header\n" [] else mret tt);;
    let pcap_header := got ++ drop (length got) hdr_junk in
    len ← defined (ld 0 pcap_pkthdr_len pcap_header);
    printf "Packet len is %d\n" [ANum (s32 len)];;
    got ← fread len;
    buffer ← defined (wr_bytes 0 got buffer);
    let read_len := s32 (Z.of_nat (length got)) in
    (if negb (u32 read_len =? len) then printf "Error reading pcap packet capture\n" []
     else mret tt);;
    mret (read_len, buffer).

Definition fd_write_pcap_record (curr_time : Z * Z) (buffer : list byte) (buffer_len : Z)
    : M stream Z :=
  let total_packet_len := buffer_len in
  let pcap_header := {| ts_sec := u32 (fst curr_time); ts_usec := u32 (snd curr_time);
                        caplen := total_packet_len; len_ := total_packet_len |} in
  k ← fwrite (pcap_pkthdr_enc pcap_header);
  let write_len := s32 (Z.of_nat k) in
  (if negb (write_len =? 16) then printf "Error writing pcap packet header\n" [] else mret tt);;
  bs ← defined (rd_bytes (Z.to_nat total_packet_len) 0 buffer);
  k ← fwrite bs;
  let write_len := s32 (Z.of_nat k) in
  (if negb (u32 write_len =? total_packet_len)
   then printf "Error writing pcap packet capture\n" [] else mret tt);;
  mret write_len.

(** ** Its interface *)

(** The arguments are what [fopen] returned for the two names. *)
Definition init_with_fds (send recv : option stream) : M fd_state unit :=
  match send with
  | None => perror "Failed to open hw to sw file";; stop (Exit 1)
  | Some f =>
      modify (set_fd_send_file f);;
      match recv with
      | None => perror "Failed to open sw to hw file";; stop (Exit 1)
      | Some f =>
          modify (set_fd_recv_file f);;
          zoom fd_send_file set_fd_send_file fd_writePCAPHeader;;
          zoom fd_recv_file set_fd_recv_file fd_writePCAPHeader
      end
  end.

Definition get_buffer_from_fd (hdr_junk buffer : list byte) : M fd_state (Z * list byte) :=
  '(n, buffer) ← zoom fd_recv_file set_fd_recv_file (fd_read_pcap_record hdr_junk buffer);
  let packet_len := u32 n in
  mret (s32 packet_len, buffer).

Definition put_buffer_to_fd (buffer : list byte) (buffer_len : Z) : M fd_state Z :=
  now ← gets fd_now;
  write_len ← zoom fd_send_file set_fd_send_file (fd_write_pcap_record now buffer buffer_len);
  mret write_len.

Arguments fd_writePCAPHeader : simpl never.

(** ** The same files through both interfaces

    [agree] relates a run of the old functions with a run on the backend: they
    return the same value and leave the same files, or stop for the same
    reason, with the same output. *)

Definition same_files (s : fd_state) (w : bworld FileIOTestingLib) : Prop :=
  w_sim_backend w = Live {| send_file := fd_send_file s; recv_file := fd_recv_file s |} ∧
  w_now w = fd_now s.

Definition agree {A} (o1 : outcome fd_state A) (o2 : outcome (bworld FileIOTestingLib) A) : Prop :=
  match o1, o2 with
  | Done a1 s t1, Done a2 w t2 => a1 = a2 ∧ same_files s w ∧ t1 = t2
  | Stopped y1 t1, Stopped y2 t2 => y1 = y2 ∧ t1 = t2
  | _, _ => False
  end.

Lemma agree_after {A} tr (o1 : outcome _ A) o2 : agree o1 o2 → agree (after tr o1) (after tr o2).
Proof.
  destruct o1, o2; simpl; [|done..|].
  - by intros (-> & H & ->).
  - by intros [-> ->].
Qed.

Lemma agree_bind {A B} (m1 : M fd_state A) (m2 : M (bworld _) A)
    (f1 : A → M fd_state B) (f2 : A → M (bworld _) B) s w :
  agree (m1 s) (m2 w) → (∀ a s' w', same_files s' w' → agree (f1 a s') (f2 a w')) →
  agree ((m1 ≫= f1) s) ((m2 ≫= f2) w).
Proof.
  intros H Hf. unfold mbind, M_bind. destruct (m1 s), (m2 w); simpl in H; try done.
  destruct H as (-> & H & ->). by apply agree_after, Hf.
Qed.

Lemma agree_ret {A} (a : A) s w : same_files s w → agree ((mret a : M fd_state A) s) ((mret a : M (bworld _) A) w).
Proof. by intros H. Qed.

Lemma agree_defined {A} (o : option A) s w : same_files s w → agree (defined o s) (defined o w).
Proof. intros H. by destruct o. Qed.

Lemma agree_recv {A} (m : M stream A) s w :
  same_files s w →
  agree (zoom fd_recv_file set_fd_recv_file m s) (on_this (zoom recv_file set_recv_file m) w).
Proof.
  intros [Hw Hn]. unfold on_this, zoom. rewrite Hw. simpl. by destruct (m (fd_recv_file s)).
Qed.

Lemma agree_send {A} (m : M stream A) s w :
  same_files s w →
  agree (zoom fd_send_file set_fd_send_file m s) (on_this (zoom send_file set_send_file m) w).
Proof.
  intros [Hw Hn]. unfold on_this, zoom. rewrite Hw. simpl. by destruct (m (fd_send_file s)).
Qed.

(** A request to send or receive, and its reply. *)
Inductive request := RGet (fr : frame) | RPut (pkt : list byte).
Inductive reply := Got (pkt : list byte) | Sent (n : Z).

(** The caller of the old functions takes the bytes that were read. *)
Definition old_call (r : request) : M fd_state reply :=
  match r with
  | RGet fr =>
      '(n, buffer) ← get_buffer_from_fd (fr_hdr fr) (fr_buf fr);
      pkt ← defined (rd_bytes (Z.to_nat (u32 n)) 0 buffer);
      mret (Got pkt)
  | RPut pkt =>
      n ← put_buffer_to_fd pkt (u32 (Z.of_nat (length pkt)));
      mret (Sent n)
  end.

Definition new_call (r : request) : M (bworld FileIOTestingLib) reply :=
  match r with
  | RGet fr => pkt ← get_buf_fr_io fr; mret (Got pkt)
  | RPut pkt => n ← put_buf_on_io pkt; mret (Sent n)
  end.

Lemma u32_s32_u32 z : u32 (s32 (u32 z)) = u32 z.
Proof. unfold u32, s32. Z.div_mod_to_equations. lia. Qed.

Lemma fd_call_agrees r s w : same_files s w → agree (old_call r s) (new_call r w).
Proof.
  intros Hs. destruct r as [fr|pkt]; simpl.
  - unfold get_buffer_from_fd, FileIO_get_buf_fr_io.
    assert (∀ n b s' w', same_files s' w' →
      agree (('(n, buffer) ← (mret (s32 (u32 n), b) : M fd_state _);
              pkt ← defined (rd_bytes (Z.to_nat (u32 n)) 0 buffer); mret (Got pkt)) s')
            ((pkt ← defined (rd_bytes (Z.to_nat (u32 n)) 0 b); mret (Got pkt)) w')) as Hrest.
    { intros n b s' w' H. rewrite (ret_bind _ _ s'). cbv beta iota.
      rewrite u32_s32_u32. apply agree_bind; [by apply agree_defined|].
      intros pkt s2 w2 H2. by apply agree_ret. }
    rewrite (bind_assoc _ _ _ s), (bind_assoc _ _ _ w).
    apply agree_bind; [by apply agree_recv|]. intros [n b]. apply Hrest.
  - unfold put_buffer_to_fd, FileIO_put_buf_on_io.
    rewrite (bind_assoc _ _ _ s), (bind_assoc _ _ _ w).
    destruct Hs as [Hw Hn]. apply agree_bind; [by repeat split|].
    intros now s' w' H. rewrite (bind_assoc _ _ _ s').
    apply agree_bind; [by apply agree_send|]. intros n s2 w2 H2.
    rewrite (ret_bind _ _ s2). by apply agree_ret.
Qed.

Lemma fd_calls_agree rs s w :
  same_files s w → agree (run_all (old_call <$> rs) s) (run_all (new_call <$> rs) w).
Proof.
  revert s w. induction rs as [|r rs IH]; intros s w Hs; simpl; [by apply agree_ret|].
  apply agree_bind; [by apply fd_call_agrees|]. intros a s1 w1 H1.
  apply agree_bind; [by apply IH|]. intros l s2 w2 H2. by apply agree_ret.
Qed.

Lemma write_field_step size v (m : M stream unit) :
  M_equiv (write_field size v;; m) (_ ← fwrite (le_split size v); m).
Proof.
  intros f. unfold write_field. rewrite (bind_assoc _ _ _ f).
  unfold mbind, M_bind. destruct (fwrite _ f); [|done]. f_equal. apply after_nil.
Qed.

Lemma write_header_equiv : M_equiv fd_writePCAPHeader writePCAPHeader.
Proof.
  unfold writePCAPHeader. cbv zeta. rewrite !write_field_step. intros f. reflexivity.
Qed.

Lemma fd_write_fields_total fields f : ∃ f', fd_write_fields fields f = Done tt f' [].
Proof.
  revert f. induction fields as [|[size v] fields IH]; intros f; simpl; [by eexists|].
  edestruct IH as [f' Hf]. exists f'. by rewrite (bind_done_nil _ _ f _ _ eq_refl).
Qed.

Lemma fd_write_header f :
  ∃ f', fd_writePCAPHeader f = Done tt f' [] ∧ writePCAPHeader f = Done tt f' [].
Proof.
  assert (∃ f', fd_writePCAPHeader f = Done tt f' []) as [f' Hf] by apply fd_write_fields_total.
  exists f'. by rewrite <- (write_header_equiv f).
Qed.

(** A whole session: the files are opened, then the requests are served. *)
Definition old_session (send recv : option stream) (rs : list request) : M fd_state (list reply) :=
  init_with_fds send recv;; run_all (old_call <$> rs).

Definition new_session (send recv : option stream) (rs : list request)
    : M (bworld FileIOTestingLib) (list reply) :=
  o ← FileIOTestingLib_new send recv; set_this o;; run_all (new_call <$> rs).

(** C35: the backend class does what the functions it replaced did: on any two
    files and for any sequence of requests, a session through the old functions
    and one through [FileIOTestingLib] give the same replies, the same output
    and the same files, or stop at the same point for the same reason.  When a
    file cannot be opened both end the program with status 1. *)
Theorem fd_session_agrees send recv rs s w :
  w_now w = fd_now s →
  match send, recv with
  | Some _, Some _ => agree (old_session send recv rs s) (new_session send recv rs w)
  | _, _ => ∃ tr tr', old_session send recv rs s = Stopped (Exit 1) [Perror tr] ∧
      new_session send recv rs w = Stopped (Exit 1) [Perror tr']
  end.
Proof.
  intros Hn. destruct send as [f1|], recv as [f2|]; [|by do 2 eexists..].
  unfold old_session, new_session.
  destruct (fd_write_header f1) as (f1' & E1 & E1'), (fd_write_header f2) as (f2' & E2 & E2').
  assert (init_with_fds (Some f1) (Some f2) s = Done tt (FdState f1' f2' (fd_now s)) []) as Ho.
  { unfold init_with_fds. rewrite (bind_done_nil _ _ _ tt (set_fd_send_file f1 s)) by done.
    rewrite (bind_done_nil _ _ _ tt (FdState f1 f2 (fd_now s))) by done.
    rewrite (bind_done_nil _ _ _ tt (FdState f1' f2 (fd_now s))) by (unfold zoom; cbn [fd_send_file]; by rewrite E1).
    unfold zoom. cbn [fd_recv_file]. by rewrite E2. }
  assert (FileIOTestingLib_new (Some f1) (Some f2) w
          = Done {| send_file := f1'; recv_file := f2' |} w []) as Hnew.
  { unfold FileIOTestingLib_new.
    rewrite (bind_done_nil _ _ _ _ _ (run_local_done _ _ w _ _ _ E1')).
    by rewrite (bind_done_nil _ _ _ _ _ (run_local_done _ _ w _ _ _ E2')). }
  rewrite (bind_done_nil _ _ _ _ _ Ho), (bind_done_nil _ _ _ _ _ Hnew).
  rewrite (bind_done_nil _ _ _ tt (set_sim_backend (Live {| send_file := f1'; recv_file := f2' |}) w))
    by done.
  cbv beta. apply fd_calls_agree.
  by split.
Qed.

Lemma fd_session_agrees_witness :
  let f := Stream [] 0 false 100 in
  let rs := [RPut [Byte.x41; Byte.x42]; RGet sample_frame] in
  agree (old_session (Some f) (Some f) rs (FdState f f (1700000000, 0)))
        (new_session (Some f) (Some f) rs (sample_world Null)).
Proof.
  intros f rs.
  exact (fd_session_agrees (Some f) (Some f) rs (FdState f f (1700000000, 0)) (sample_world Null)
           eq_refl).
Defined.
