(* ===== verification/RawSocket.v ===== *)
(** RawSocket: sim_dpi/raw_testing_lib.cpp, packets exchanged with the host's
    network through raw sockets.

    The system calls are not part of the program: class [Kernel] has the calls
    the code makes, with the values they return, and [KernelLaws] what the
    manual pages socket(2), packet(7), raw(7) and recv(2) promise of them. *)

From S2P Require Import Prelude Words Headers Backend.

(** ** Constants of the system headers *)

Definition AF_PACKET : Z := 17.
Definition SOCK_DGRAM : Z := 2.
Definition SOCK_RAW : Z := 3.
Definition ETH_P_IP : Z := 0x0800.
Definition IPPROTO_RAW : Z := 255.
Definition IPPROTO_IP : Z := 0.
Definition IP_HDRINCL : Z := 3.
Definition MSG_DONTWAIT : Z := 0x40.
Definition SIOCGIFINDEX : Z := 0x8933.
Definition IFNAMSIZ : nat := 16.
Definition EAGAIN : Z := 11.
Definition EWOULDBLOCK : Z := 11.

(** [struct sockaddr_ll] of <linux/if_packet.h>. *)
Record sockaddr_ll := {
  sll_family : Z;
  sll_protocol : Z;
  sll_ifindex : Z;
  sll_hatype : Z;
  sll_pkttype : Z;
  sll_halen : Z;
  sll_addr : list byte }.

(** ** The system calls

    Each returns what the C function returns and the new state of the kernel.
    [ioctl] takes the request and the 16 bytes of [ifr_name], and also yields
    [ifr_ifindex]; [recvfrom] also yields the bytes it stores in the buffer. *)

Class Kernel (K : Type) := {
  socket : Z → Z → Z → K → Z * K;
  ioctl : Z → Z → list byte → K → (Z * Z) * K;
  bind : Z → sockaddr_ll → K → Z * K;
  setsockopt : Z → Z → Z → Z → K → Z * K;
  recvfrom : Z → Z → Z → K → (Z * list byte) * K;
  sendto : Z → list byte → Z → sockaddr_in → K → Z * K;
  errno : K → Z }.

(** The host side of the simulation, and the kernel under it. *)
Record rworld (K : Type) := RWorld {
  r_instance_state : sock_state;
  r_kernel : K }.
Arguments RWorld {K} _ _.
Arguments r_instance_state {K} _.
Arguments r_kernel {K} _.

Definition sys {K A} (call : K → A * K) : M (rworld K) A := λ w,
  let '(a, k) := call (r_kernel w) in Done a (RWorld (r_instance_state w) k) [].

Definition set_recv_sock (fd : Z) (s : sock_state) : sock_state :=
  {| send_sock := send_sock s; recv_sock := fd; source_addr := source_addr s;
     dest_addr := dest_addr s; source_mac_addr := source_mac_addr s;
     dest_mac_addr := dest_mac_addr s; has_syn_acked := has_syn_acked s;
     init_ack_num := init_ack_num s |}.
Definition set_send_sock (fd : Z) (s : sock_state) : sock_state :=
  {| send_sock := fd; recv_sock := recv_sock s; source_addr := source_addr s;
     dest_addr := dest_addr s; source_mac_addr := source_mac_addr s;
     dest_mac_addr := dest_mac_addr s; has_syn_acked := has_syn_acked s;
     init_ack_num := init_ack_num s |}.

Definition on_state {K} (f : sock_state → sock_state) : M (rworld K) unit :=
  modify (λ w, RWorld (f (r_instance_state w)) (r_kernel w)).

(** [strlen]: the bytes before the first NUL of a region, if there is one. *)
Fixpoint strlen (mem : list byte) : option nat :=
  match mem with
  | [] => None
  | b :: mem' => if decide (b = Byte.x00) then Some 0%nat else S <$> strlen mem'
  end.

(** The literal ["lo"]. *)
Definition if_name_lo : list byte := [Byte.x6c; Byte.x6f; Byte.x00].

(** ** The functions *)

Section Functions.
Context {K : Type} `{!Kernel K}.

(** [ifr_junk] is what the local [ifr] holds before the name is stored. *)
Definition get_netif_index (ifr_junk : list byte) (fd : Z) (if_name : list byte)
    : M (rworld K) Z :=
  if_name_len ← defined (strlen if_name);
  ifr_name ←
    (if (if_name_len <? IFNAMSIZ)%nat then
       name ← defined (rd_bytes if_name_len 0 if_name);
       ifr_name ← defined (wr_bytes 0 name ifr_junk);
       defined (wr_bytes if_name_len [Byte.x00] ifr_name)
     else eprintf "interface name is too long\n";; stop (Exit 1));
  '(ret, ifr_ifindex) ← sys (ioctl fd SIOCGIFINDEX ifr_name);
  if ret =? -1 then perror "ioctl";; stop (Exit 1) else mret ifr_ifindex.

Definition init_with_raw_socket (ifr_junk : list byte) : M (rworld K) unit :=
  fd ← sys (socket AF_PACKET SOCK_DGRAM (htons ETH_P_IP));
  on_state (set_recv_sock fd);;
  (if fd =? -1 then perror "Failed to create socket";; stop (Exit 1) else mret tt);;
  ifindex ← get_netif_index ifr_junk fd if_name_lo;
  let addr := {| sll_family := AF_PACKET; sll_protocol := htons ETH_P_IP;
                 sll_ifindex := ifindex; sll_hatype := 0; sll_pkttype := 0; sll_halen := 0;
                 sll_addr := replicate 8 Byte.x00 |} in
  ret ← sys (bind fd addr);
  (if ret =? -1 then perror "bind";; stop (Exit 1) else mret tt);;
  fd ← sys (socket AF_INET SOCK_RAW IPPROTO_RAW);
  on_state (set_send_sock fd);;
  (if fd =? -1 then perror "Failed to create send socket";; stop (Exit 1) else mret tt);;
  let one := 1 in
  ret ← sys (setsockopt fd IPPROTO_IP IP_HDRINCL one);
  if ret <? 0 then perror "Error setting IP_HDRINCL for send socket";; stop (Exit 0)
  else mret tt.

(** The caller's [buffer] is returned with what was stored in it. *)
Definition get_buffer_from_raw_socket (buffer : list byte) : M (rworld K) (Z * list byte) :=
  fd ← gets (λ w, recv_sock (r_instance_state w));
  '(ret, data) ← sys (recvfrom fd 65536 MSG_DONTWAIT);
  let packet_size := s32 ret in
  buffer ← defined (wr_bytes 0 data buffer);
  if packet_size =? -1 then
    e ← gets (λ w, errno (r_kernel w));
    if (e =? EAGAIN) || (e =? EWOULDBLOCK) then mret (0, buffer) else stop (Exit 1)
  else mret (packet_size, buffer).

Definition put_buffer_to_raw_socket (buffer : list byte) (buffer_len : Z) : M (rworld K) Z :=
  state ← gets r_instance_state;
  let dest_address := dest_addr state in
  let total_packet_len := buffer_len in
  bs ← defined (rd_bytes (Z.to_nat total_packet_len) 0 buffer);
  ret ← sys (sendto (send_sock state) bs 0 dest_address);
  let bytes := s32 ret in
  if bytes <? 0 then perror "Error sending";; stop (Exit 0) else mret bytes.
End Functions.

(** ** What the system calls promise *)

(** What a socket is for. *)
Record sock_info := SockInfo {
  si_domain : Z;
  si_type : Z;
  si_protocol : Z;
  si_bound : option (Z * Z);
  si_hdrincl : bool }.

Definition set_bound (idx proto : Z) (i : sock_info) : sock_info :=
  SockInfo (si_domain i) (si_type i) (si_protocol i) (Some (idx, proto)) (si_hdrincl i).
Definition set_hdrincl (b : bool) (i : sock_info) : sock_info :=
  SockInfo (si_domain i) (si_type i) (si_protocol i) (si_bound i) b.

(** The name the kernel reads from [ifr_name]. *)
Definition c_string (mem : list byte) : option (list byte) :=
  n ← strlen mem; Some (take n mem).

Class KernelLaws (K : Type) `{!Kernel K} := {
  sockets : K → gmap Z sock_info;
  if_index : list byte → option Z;
  incoming : K → Z → list (list byte);
  socket_law d t p k fd k' :
    socket d t p k = (fd, k') → fd ≠ -1 →
    sockets k !! fd = None ∧ sockets k' = <[fd := SockInfo d t p None false]> (sockets k);
  ioctl_law fd name k r idx k' :
    ioctl fd SIOCGIFINDEX name k = ((r, idx), k') → r ≠ -1 →
    sockets k' = sockets k ∧ ∃ s, c_string name = Some s ∧ if_index s = Some idx;
  bind_law fd addr k r k' :
    bind fd addr k = (r, k') → r ≠ -1 →
    sockets k' = alter (set_bound (sll_ifindex addr) (sll_protocol addr)) fd (sockets k);
  setsockopt_law fd v k r k' :
    setsockopt fd IPPROTO_IP IP_HDRINCL v k = (r, k') → 0 ≤ r →
    sockets k' = alter (set_hdrincl (negb (v =? 0))) fd (sockets k);
  recvfrom_none fd n k r data k' :
    incoming k fd = [] → recvfrom fd n MSG_DONTWAIT k = ((r, data), k') →
    r = -1 ∧ data = [] ∧ (errno k' = EAGAIN ∨ errno k' = EWOULDBLOCK) ∧ incoming k' fd = [];
  recvfrom_some fd n k p ps r data k' :
    incoming k fd = p :: ps → recvfrom fd n MSG_DONTWAIT k = ((r, data), k') →
    data = take (Z.to_nat n) p ∧ r = Z.of_nat (length data) ∧ incoming k' fd = ps }.

(** ** [get_netif_index] *)

Lemma strlen_Some mem n : strlen mem = Some n → mem !! n = Some Byte.x00 ∧ (n < length mem)%nat.
Proof.
  revert n. induction mem as [|b mem IH]; intros n H; simpl in H; [done|].
  case_decide as Hb; [injection H as <-; subst; simpl; split; [done|lia]|].
  destruct (strlen mem) as [m|]; [|done]. injection H as <-.
  destruct (IH m eq_refl). simpl. split; [done|lia].
Qed.

Lemma strlen_app s rest : Byte.x00 ∉ s → strlen (s ++ Byte.x00 :: rest) = Some (length s).
Proof.
  induction s as [|b s IH]; intros H; [done|]. simpl. apply not_elem_of_cons in H as [Hb H].
  case_decide; [congruence|]. by rewrite (IH H).
Qed.

(** The first bytes of a string are not NUL. *)
Lemma strlen_take mem n : strlen mem = Some n → Byte.x00 ∉ take n mem.
Proof.
  revert n. induction mem as [|b mem IH]; intros n H; simpl in H; [done|].
  case_decide; [injection H as <-; apply not_elem_of_nil|].
  destruct (strlen mem) as [m|]; [|done]. injection H as <-. simpl.
  apply not_elem_of_cons. split; [congruence|by apply IH].
Qed.

(** The name that reaches the kernel is the caller's, cut nowhere: it is
    NUL-terminated inside [ifr_name]. *)
Lemma ifr_name_c_string junk name mem ifr1 ifr2 n :
  strlen mem = Some n → rd_bytes n 0 mem = Some name →
  wr_bytes 0 name junk = Some ifr1 → wr_bytes n [Byte.x00] ifr1 = Some ifr2 →
  c_string ifr2 = Some name.
Proof.
  intros Hn Hr H1 H2. pose proof (rd_bytes_length _ _ _ _ Hr) as Hl.
  apply rd_bytes_Some in Hr as [_ ->]. rewrite drop_0 in *.
  pose proof (strlen_take _ _ Hn) as Hnul. set (name := take n mem) in *.
  apply wr_bytes_Some in H1 as [_ ->]. apply wr_bytes_Some in H2 as [_ ->].
  rewrite take_0, Nat.add_0_l. simpl. rewrite take_app_exact by done.
  unfold c_string. rewrite strlen_app by done. simpl. by rewrite take_app_length.
Qed.

(** ** A kernel with one interface

    A concrete kernel for the instances of the theorems: the loopback interface
    "lo", index 1, that gives back every datagram it is sent. *)

Record lo_kernel := LoKernel {
  lk_sockets : gmap Z sock_info;
  lk_next : Z;
  lk_queue : list (list byte);
  lk_errno : Z }.

Definition lo_start : lo_kernel := LoKernel ∅ 3 [] 0.

Definition lo_if_index (name : list byte) : option Z :=
  if decide (name = [Byte.x6c; Byte.x6f]) then Some 1 else None.

Definition lo_alter (f : sock_info → sock_info) (fd : Z) (k : lo_kernel) : Z * lo_kernel :=
  match lk_sockets k !! fd with
  | Some _ => (0, LoKernel (alter f fd (lk_sockets k)) (lk_next k) (lk_queue k) (lk_errno k))
  | None => (-1, LoKernel (lk_sockets k) (lk_next k) (lk_queue k) 9)
  end.

#[export] Instance lo_ops : Kernel lo_kernel := {
  socket d t p k :=
    match lk_sockets k !! lk_next k with
    | None => (lk_next k, LoKernel (<[lk_next k := SockInfo d t p None false]> (lk_sockets k))
                                   (lk_next k + 1) (lk_queue k) (lk_errno k))
    | Some _ => (-1, LoKernel (lk_sockets k) (lk_next k) (lk_queue k) 24)
    end;
  ioctl fd req name k :=
    match c_string name ≫= lo_if_index with
    | Some idx => ((0, idx), k)
    | None => ((-1, 0), LoKernel (lk_sockets k) (lk_next k) (lk_queue k) 19)
    end;
  bind fd addr k := lo_alter (set_bound (sll_ifindex addr) (sll_protocol addr)) fd k;
  setsockopt fd level opt v k := lo_alter (set_hdrincl (negb (v =? 0))) fd k;
  recvfrom fd n flags k :=
    match lk_queue k with
    | [] => ((-1, []), LoKernel (lk_sockets k) (lk_next k) [] EAGAIN)
    | p :: ps => let data := take (Z.to_nat n) p in
        ((Z.of_nat (length data), data), LoKernel (lk_sockets k) (lk_next k) ps (lk_errno k))
    end;
  sendto fd bs flags addr k :=
    (Z.of_nat (length bs), LoKernel (lk_sockets k) (lk_next k) (lk_queue k ++ [bs]) (lk_errno k));
  errno := lk_errno }.

#[export] Program Instance lo_laws : KernelLaws lo_kernel := {
  sockets := lk_sockets;
  if_index := lo_if_index;
  incoming k fd := lk_queue k }.
Next Obligation.
  intros d t p k fd k' H Hfd. simpl in H. destruct (lk_sockets k !! lk_next k) eqn:E.
  - by injection H as <- _.
  - injection H as <- <-. done.
Qed.
Next Obligation.
  intros fd name k r idx k' H Hr. simpl in H.
  destruct (c_string name) as [s|] eqn:Es; simpl in H; [|by injection H as <- _].
  destruct (lo_if_index s) as [i|] eqn:Ei; [|by injection H as <- _].
  injection H as _ <- <-. eauto.
Qed.
Next Obligation.
  intros fd addr k r k' H Hr. simpl in H. unfold lo_alter in H.
  destruct (lk_sockets k !! fd); [by injection H as _ <-|by injection H as <- _].
Qed.
Next Obligation.
  intros fd v k r k' H Hr. simpl in H. unfold lo_alter in H.
  destruct (lk_sockets k !! fd); [by injection H as _ <-|injection H as <- _; lia].
Qed.
Next Obligation.
  intros fd n k r data k' Hq H. simpl in H. rewrite Hq in H. injection H as <- <- <-. auto.
Qed.
Next Obligation.
  intros fd n k p ps r data k' Hq H. simpl in H. rewrite Hq in H. by injection H as <- <- <-.
Qed.

Definition sample_host : sock_state := w_instance_state (@sample_world unit Null).

(** ** Properties *)

Section Properties.
Context {K : Type} `{!Kernel K}.

Lemma get_netif_index_run ifr_junk fd if_name n (w : rworld K) :
  length ifr_junk = IFNAMSIZ → strlen if_name = Some n →
  ((IFNAMSIZ ≤ n)%nat ∧
   get_netif_index ifr_junk fd if_name w
   = Stopped (Exit 1) [Eprintf "interface name is too long\n"]) ∨
  ((n < IFNAMSIZ)%nat ∧ ∃ ifr_name,
   length ifr_name = IFNAMSIZ ∧ c_string ifr_name = Some (take n if_name) ∧
   get_netif_index ifr_junk fd if_name w
   = let '((ret, ifr_ifindex), k') := ioctl fd SIOCGIFINDEX ifr_name (r_kernel w) in
     if ret =? -1 then Stopped (Exit 1) [Perror "ioctl"]
     else Done ifr_ifindex (RWorld (r_instance_state w) k') []).
Proof.
  intros Hj Hn. pose proof (strlen_Some _ _ Hn) as [_ Hlen].
  destruct (Nat.ltb_spec n IFNAMSIZ) as [Hlt|Hge]; [right|left]; (split; [done|]).
  - destruct (wr_bytes 0 (take n if_name) ifr_junk) as [ifr1|] eqn:E1;
      [|apply wr_bytes_None in E1; len].
    pose proof (wr_bytes_length _ _ _ _ E1) as Hl1.
    destruct (wr_bytes n [Byte.x00] ifr1) as [ifr2|] eqn:E2;
      [|apply wr_bytes_None in E2; simpl in E2; lia].
    pose proof (wr_bytes_length _ _ _ _ E2) as Hl2.
    assert (rd_bytes n 0 if_name = Some (take n if_name)) as Hr
      by (apply rd_bytes_Some; split; [lia|by rewrite drop_0]).
    exists ifr2. split; [lia|]. split; [by eapply ifr_name_c_string|].
    unfold get_netif_index. eapply bind_defined; [exact Hn|].
    rewrite (proj2 (Nat.ltb_lt _ _) Hlt).
    rewrite (bind_done_nil _ _ _ ifr2 w) by
      (eapply bind_defined; [exact Hr|]; eapply bind_defined; [exact E1|]; by rewrite E2).
    unfold mbind, M_bind, sys. destruct (ioctl _ _ _ _) as [[ret idx] k']. simpl.
    by destruct (ret =? -1).
  - unfold get_netif_index. eapply bind_defined; [exact Hn|].
    by rewrite (proj2 (Nat.ltb_ge _ _) Hge).
Qed.

(** [get_netif_index] never writes outside the 16 bytes of [ifr_name]: a name
    of 16 characters or more ends the program with status 1, a shorter one
    reaches the kernel whole and NUL-terminated, whatever the stack held. *)
Theorem get_netif_index_spec ifr_junk fd if_name n (w : rworld K) :
  length ifr_junk = IFNAMSIZ → strlen if_name = Some n →
  ((IFNAMSIZ ≤ n)%nat ∧
   get_netif_index ifr_junk fd if_name w
   = Stopped (Exit 1) [Eprintf "interface name is too long\n"]) ∨
  ((n < IFNAMSIZ)%nat ∧ ∃ ifr_name,
   length ifr_name = IFNAMSIZ ∧ c_string ifr_name = Some (take n if_name) ∧
   get_netif_index ifr_junk fd if_name w
   = let '((ret, ifr_ifindex), k') := ioctl fd SIOCGIFINDEX ifr_name (r_kernel w) in
     if ret =? -1 then Stopped (Exit 1) [Perror "ioctl"]
     else Done ifr_ifindex (RWorld (r_instance_state w) k') []).
Proof. apply get_netif_index_run. Qed.

(** [init_with_raw_socket] always ends: it returns, silently, or ends the
    program with the message of the first call that failed.  The status is 1,
    except for [setsockopt], whose failure ends the program with status 0. *)
Theorem init_with_raw_socket_stops ifr_junk (w : rworld K) :
  length ifr_junk = IFNAMSIZ →
  match init_with_raw_socket ifr_junk w with
  | Done _ _ tr => tr = []
  | Stopped why tr =>
      (∃ msg, msg ∈ ["Failed to create socket"; "ioctl"; "bind"; "Failed to create send socket"] ∧
         why = Exit 1 ∧ tr = [Perror msg]) ∨
      (∃ fd k k' r, setsockopt fd IPPROTO_IP IP_HDRINCL 1 k = (r, k') ∧ r < 0 ∧
         why = Exit 0 ∧ tr = [Perror "Error setting IP_HDRINCL for send socket"])
  end.
Proof.
  intros Hj. unfold init_with_raw_socket, mbind, M_bind, sys, on_state, modify. simpl.
  destruct (socket AF_PACKET SOCK_DGRAM _ _) as [fd k1]. simpl.
  destruct (fd =? -1); simpl; [left; eexists; split; [|done]; set_solver|].
  set (w1 := RWorld _ k1).
  destruct (get_netif_index_run ifr_junk fd if_name_lo 2 w1 Hj eq_refl)
    as [[H _]|(_ & ifr & _ & _ & ->)]; [unfold IFNAMSIZ in H; lia|].
  destruct (ioctl _ _ _ _) as [[ret idx] k2].
  destruct (ret =? -1); simpl; [left; eexists; split; [|done]; set_solver|].
  destruct (bind _ _ k2) as [ret2 k3]. simpl.
  destruct (ret2 =? -1); simpl; [left; eexists; split; [|done]; set_solver|].
  destruct (socket AF_INET SOCK_RAW IPPROTO_RAW k3) as [fd2 k4]. simpl.
  destruct (fd2 =? -1); simpl; [left; eexists; split; [|done]; set_solver|].
  destruct (setsockopt _ _ _ _ k4) as [ret3 k5] eqn:E. simpl.
  destruct (Z.ltb_spec ret3 0); simpl; [right; eauto 10|done].
Qed.
End Properties.

Lemma get_netif_index_spec_witness :
  let name := [Byte.x65; Byte.x74; Byte.x68; Byte.x30; Byte.x00] in
  let w := RWorld sample_host lo_start in
  ((IFNAMSIZ ≤ 4)%nat ∧
   get_netif_index (replicate 16 Byte.x55) 3 name w
   = Stopped (Exit 1) [Eprintf "interface name is too long\n"]) ∨
  ((4 < IFNAMSIZ)%nat ∧ ∃ ifr_name,
   length ifr_name = IFNAMSIZ ∧ c_string ifr_name = Some (take 4 name) ∧
   get_netif_index (replicate 16 Byte.x55) 3 name w
   = let '((ret, ifr_ifindex), k') := ioctl 3 SIOCGIFINDEX ifr_name lo_start in
     if ret =? -1 then Stopped (Exit 1) [Perror "ioctl"]
     else Done ifr_ifindex (RWorld (r_instance_state w) k') []).
Proof.
  intros name w. apply (get_netif_index_spec (replicate 16 Byte.x55) 3 name 4 w); reflexivity.
Defined.

Lemma init_with_raw_socket_stops_witness :
  match init_with_raw_socket (replicate 16 Byte.x55)
          (RWorld sample_host lo_start) with
  | Done _ _ tr => tr = []
  | Stopped why tr =>
      (∃ msg, msg ∈ ["Failed to create socket"; "ioctl"; "bind"; "Failed to create send socket"] ∧
         why = Exit 1 ∧ tr = [Perror msg]) ∨
      (∃ fd (k k' : lo_kernel) r, setsockopt fd IPPROTO_IP IP_HDRINCL 1 k = (r, k') ∧ r < 0 ∧
         why = Exit 0 ∧ tr = [Perror "Error setting IP_HDRINCL for send socket"])
  end.
Proof.
  apply (init_with_raw_socket_stops (replicate 16 Byte.x55)
           (RWorld sample_host lo_start)). reflexivity.
Defined.

Section Lawful.
Context {K : Type} `{!Kernel K} `{!KernelLaws K}.

(** When [init_with_raw_socket] returns, the host has two new sockets: one
    that receives the IP packets of the interface "lo" and no others, and one
    whose packets carry their own IP header.  Nothing else changed. *)
Theorem init_with_raw_socket_opens ifr_junk (w w' : rworld K) tr :
  length ifr_junk = IFNAMSIZ → init_with_raw_socket ifr_junk w = Done tt w' tr →
  ∃ recv send idx,
    if_index [Byte.x6c; Byte.x6f] = Some idx ∧
    r_instance_state w' = set_send_sock send (set_recv_sock recv (r_instance_state w)) ∧
    sockets (r_kernel w) !! recv = None ∧ sockets (r_kernel w) !! send = None ∧ recv ≠ send ∧
    sockets (r_kernel w')
    = <[send := SockInfo AF_INET SOCK_RAW IPPROTO_RAW None true]>
      (<[recv := SockInfo AF_PACKET SOCK_DGRAM (htons ETH_P_IP)
                          (Some (idx, htons ETH_P_IP)) false]> (sockets (r_kernel w))).
Proof.
  intros Hj. unfold init_with_raw_socket, mbind, M_bind, sys, on_state, modify. simpl.
  destruct (socket AF_PACKET SOCK_DGRAM _ _) as [fd k1] eqn:E1. simpl.
  destruct (Z.eqb_spec fd (-1)) as [|Hfd]; [done|simpl].
  apply socket_law in E1 as [Hnew1 E1]; [|done].
  set (w1 := RWorld _ k1).
  destruct (get_netif_index_run ifr_junk fd if_name_lo 2 w1 Hj eq_refl)
    as [[H _]|(_ & ifr & _ & Hifr & ->)]; [unfold IFNAMSIZ in H; lia|].
  destruct (ioctl _ _ _ _) as [[ret idx] k2] eqn:E2.
  destruct (Z.eqb_spec ret (-1)) as [|Hret]; [done|simpl].
  apply ioctl_law in E2 as (E2 & s & Hs & Hidx); [|done].
  rewrite Hifr in Hs. injection Hs as <-.
  destruct (bind _ _ k2) as [ret2 k3] eqn:E3. simpl.
  destruct (Z.eqb_spec ret2 (-1)) as [|Hret2]; [done|simpl].
  apply bind_law in E3; [|done].
  destruct (socket AF_INET SOCK_RAW IPPROTO_RAW k3) as [fd2 k4] eqn:E4. simpl.
  destruct (Z.eqb_spec fd2 (-1)) as [|Hfd2]; [done|simpl].
  apply socket_law in E4 as [Hnew2 E4]; [|done].
  destruct (setsockopt _ _ _ _ k4) as [ret3 k5] eqn:E5. simpl.
  destruct (Z.ltb_spec ret3 0) as [|Hret3]; [done|simpl].
  apply setsockopt_law in E5; [|done]. intros [= <- <-]. simpl in *.
  rewrite E2, E1 in E3. subst w1. simpl in *.
  rewrite alter_insert, decide_True in E3 by done. rewrite E3 in Hnew2, E4.
  apply lookup_insert_None in Hnew2 as [Hnew2 Hne].
  exists fd, fd2, idx. repeat split; try done.
  rewrite E5, E4, alter_insert, decide_True by done. done.
Qed.

(** One poll of a socket that has a packet. *)
Lemma get_buffer_some (w : rworld K) p ps buffer :
  incoming (r_kernel w) (recv_sock (r_instance_state w)) = p :: ps →
  Z.of_nat (length p) ≤ 65536 ≤ Z.of_nat (length buffer) →
  ∃ k', get_buffer_from_raw_socket buffer w
      = Done (Z.of_nat (length p), p ++ drop (length p) buffer)
             (RWorld (r_instance_state w) k') [] ∧
    incoming k' (recv_sock (r_instance_state w)) = ps.
Proof.
  intros Hin [Hp Hb]. unfold get_buffer_from_raw_socket.
  rewrite (bind_done_nil _ _ _ (recv_sock (r_instance_state w)) w) by done.
  unfold mbind, M_bind, sys. destruct (recvfrom _ _ _ _) as [[r data] k'] eqn:E.
  apply (recvfrom_some _ _ _ p ps) in E as (-> & -> & Hin'); [|done].
  exists k'. split; [|done]. simpl. rewrite take_ge by lia.
  assert (wr_bytes 0 p buffer = Some (p ++ drop (length p) buffer)) as ->
    by (apply wr_bytes_Some; split; [lia|done]).
  simpl. rewrite s32_small by lia. destruct (Z.eqb_spec (Z.of_nat (length p)) (-1)); [lia|done].
Qed.

(** A poll of a socket that has none. *)
Lemma get_buffer_none (w : rworld K) buffer :
  incoming (r_kernel w) (recv_sock (r_instance_state w)) = [] →
  ∃ k', get_buffer_from_raw_socket buffer w
      = Done (0, buffer) (RWorld (r_instance_state w) k') [] ∧
    incoming k' (recv_sock (r_instance_state w)) = [].
Proof.
  intros Hin. unfold get_buffer_from_raw_socket.
  rewrite (bind_done_nil _ _ _ (recv_sock (r_instance_state w)) w) by done.
  unfold mbind, M_bind, sys. destruct (recvfrom _ _ _ _) as [[r data] k'] eqn:E.
  apply recvfrom_none in E as (-> & -> & He & Hin'); [|done].
  exists k'. split; [|done]. cbv beta iota zeta.
  assert (wr_bytes 0 [] buffer = Some buffer) as -> by (apply wr_bytes_Some; split; [simpl; lia|done]).
  simpl. by destruct He as [-> | ->].
Qed.

(** Polling is complete and in order: with buffers of 65536 bytes, one poll per
    packet waiting on the socket gives exactly these packets, in the order in
    which they arrived, and the next poll returns 0. *)
Theorem get_buffer_from_raw_socket_drains ps bufs buffer (w : rworld K) :
  incoming (r_kernel w) (recv_sock (r_instance_state w)) = ps → length bufs = length ps →
  Forall (λ p, Z.of_nat (length p) ≤ 65536) ps →
  Forall (λ b, 65536 ≤ Z.of_nat (length b)) bufs →
  ∃ k', run_all ((get_buffer_from_raw_socket <$> bufs) ++ [get_buffer_from_raw_socket buffer]) w
      = Done (zip_with (λ p b, (Z.of_nat (length p), p ++ drop (length p) b)) ps bufs ++ [(0, buffer)])
             (RWorld (r_instance_state w) k') [] ∧
    incoming k' (recv_sock (r_instance_state w)) = [].
Proof.
  intros Hin Hl Hp Hb. revert bufs Hl Hb w Hin.
  induction Hp as [|p ps Hp1 Hp IH]; intros [|b bufs] Hl Hb w Hin; try done; simpl run_all.
  - destruct (get_buffer_none w buffer Hin) as (k' & Hg & Hk). exists k'. split; [|done].
    by rewrite (bind_done_nil _ _ _ _ _ Hg).
  - apply Forall_cons in Hb as [Hb1 Hb]. injection Hl as Hl.
    destruct (get_buffer_some w p ps b Hin) as (k1 & Hg & Hk1); [lia|].
    rewrite (bind_done_nil _ _ _ _ _ Hg).
    destruct (IH bufs Hl Hb (RWorld (r_instance_state w) k1) Hk1) as (k' & Hr & Hk').
    simpl in Hr. exists k'. split; [|done].
    by rewrite (bind_done_nil _ _ _ _ _ Hr).
Qed.

(** The caller must bring 65536 bytes, though the function does not ask for its
    size: a packet longer than the buffer is stored past its end. *)
Lemma get_buffer_from_raw_socket_overflow (w : rworld K) p ps buffer :
  incoming (r_kernel w) (recv_sock (r_instance_state w)) = p :: ps →
  (length buffer < length p)%nat → Z.of_nat (length p) ≤ 65536 →
  get_buffer_from_raw_socket buffer w = Stopped Undefined [].
Proof.
  intros Hin Hb Hp. unfold get_buffer_from_raw_socket.
  rewrite (bind_done_nil _ _ _ (recv_sock (r_instance_state w)) w) by done.
  unfold mbind, M_bind, sys. destruct (recvfrom _ _ _ _) as [[r data] k'] eqn:E.
  apply (recvfrom_some _ _ _ p ps) in E as (-> & -> & _); [|done].
  cbv beta iota zeta. rewrite take_ge by lia.
  assert (wr_bytes 0 p buffer = None) as -> by (apply wr_bytes_None; lia). done.
Qed.
End Lawful.

(** A send that fails ends the program with the status of success. *)
Lemma put_buffer_to_raw_socket_failure {K} `{!Kernel K} (w : rworld K) buffer r k' :
  sendto (send_sock (r_instance_state w)) buffer 0 (dest_addr (r_instance_state w)) (r_kernel w)
  = (r, k') → - 2 ^ 31 ≤ r < 0 →
  put_buffer_to_raw_socket buffer (Z.of_nat (length buffer)) w
  = Stopped (Exit 0) [Perror "Error sending"].
Proof.
  intros Hs Hr. unfold put_buffer_to_raw_socket.
  rewrite (bind_done_nil _ _ _ (r_instance_state w) w) by done.
  rewrite Nat2Z.id. eapply bind_defined; [apply rd_bytes_all|].
  unfold mbind, M_bind, sys. rewrite Hs. cbv beta iota zeta.
  rewrite s32_small by lia. destruct (Z.ltb_spec r 0); [done|lia].
Qed.

Lemma init_with_raw_socket_opens_witness :
  ∃ recv send idx,
    if_index [Byte.x6c; Byte.x6f] = Some idx ∧
    set_send_sock 4 (set_recv_sock 3 sample_host)
      = set_send_sock send (set_recv_sock recv sample_host) ∧
    sockets lo_start !! recv = None ∧ sockets lo_start !! send = None ∧ recv ≠ send ∧
    sockets (r_kernel
      (RWorld (set_send_sock 4 (set_recv_sock 3 sample_host))
         (LoKernel (<[4 := SockInfo AF_INET SOCK_RAW IPPROTO_RAW None true]>
            (<[3 := SockInfo AF_PACKET SOCK_DGRAM 8 (Some (1, 8)) false]> ∅)) 5 [] 0)))
    = <[send := SockInfo AF_INET SOCK_RAW IPPROTO_RAW None true]>
      (<[recv := SockInfo AF_PACKET SOCK_DGRAM (htons ETH_P_IP)
                          (Some (idx, htons ETH_P_IP)) false]> (sockets lo_start)).
Proof.
  apply (init_with_raw_socket_opens (replicate 16 Byte.x55) (RWorld sample_host lo_start)
           (RWorld (set_send_sock 4 (set_recv_sock 3 sample_host))
             (LoKernel (<[4 := SockInfo AF_INET SOCK_RAW IPPROTO_RAW None true]>
                (<[3 := SockInfo AF_PACKET SOCK_DGRAM 8 (Some (1, 8)) false]> ∅)) 5 [] 0)) []);
    vm_compute; reflexivity.
Defined.

Definition lo_two_packets : lo_kernel := LoKernel ∅ 3 [[Byte.x45; Byte.x00]; [Byte.x46]] 0.

Lemma get_buffer_from_raw_socket_drains_witness :
  let ps := [[Byte.x45; Byte.x00]; [Byte.x46]] in
  let buffer := replicate (Z.to_nat 65536) Byte.x00 in
  ∃ k' : lo_kernel,
    run_all ((get_buffer_from_raw_socket <$> [buffer; buffer]) ++ [get_buffer_from_raw_socket buffer])
      (RWorld sample_host lo_two_packets)
    = Done (zip_with (λ p b, (Z.of_nat (length p), p ++ drop (length p) b)) ps [buffer; buffer]
              ++ [(0, buffer)]) (RWorld sample_host k') [] ∧
    incoming k' (recv_sock sample_host) = [].
Proof.
  intros ps buffer.
  assert (65536 ≤ Z.of_nat (length buffer)) as Hb by (subst buffer; rewrite length_replicate; lia).
  apply (get_buffer_from_raw_socket_drains ps [buffer; buffer] buffer
           (RWorld sample_host lo_two_packets)); [done|done|repeat constructor; simpl; lia|].
  repeat (apply Forall_cons_2; [exact Hb|]). apply Forall_nil_2.
Defined.

(** With this kernel, what the host sends to itself comes back. *)
Example lo_echo :
  let pkt := [Byte.x45; Byte.x00; Byte.x00; Byte.x03] in
  match (_ ← init_with_raw_socket (replicate 16 Byte.x00);
         n ← put_buffer_to_raw_socket pkt 4;
         '(m, buf) ← get_buffer_from_raw_socket (replicate 8 Byte.xee);
         mret (n, m, take 4 buf)) (RWorld sample_host lo_start) with
  | Done r _ tr => r = (4, 4, pkt) ∧ tr = []
  | Stopped _ _ => False
  end.
Proof. vm_compute. by split. Qed.
