(* ===== verification/PcapTrace.v ===== *)
(** PcapTrace: sim_dpi/pcap_trace_testing_lib.cpp, the backend that replays
    the packets of a trace addressed to the device and checks, in order, the
    packets the device sends against the others. *)

From S2P Require Import Prelude Words Headers Backend Pcap.

Record PcapTestingLib := {
  send_pkts : list (list byte);
  recv_pkts : list (list byte) }.

Definition TRACE_FILE_PATH : string :=
  "/homes/sys/katielim/beehive/tcp_apps/echo_app/build/tcp_pull_1_req_test.pcap".

(** ** Code shared by the two trace backends *)

(** The loop over the six bytes of the destination address: [Some true] when
    the packet goes to the device. *)
Fixpoint mac_loop (n i : nat) (dst_addr source_mac : list byte) : option bool :=
  match n with
  | O => Some true
  | S n' =>
      x ← dst_addr !! i;
      y ← source_mac !! i;
      if bool_decide (x = y) then mac_loop n' (S i) dst_addr source_mac else Some false
  end.

Definition is_send_packet (eth_frame source_mac : list byte) : option bool :=
  mac_loop 6 0 eth_frame source_mac.

Definition byte_num (b : byte) : arg := ANum (byte.unsigned b).

Definition mismatch (i : Z) (expected got : byte) : event :=
  Printf "recved pkt different at byte %d. Expected %hhx, Got %hhx\n"
    [ANum i; byte_num expected; byte_num got].

Fixpoint compare_loop {S} (i : Z) (ref_buf recved_buf : list byte) : M S unit :=
  match ref_buf, recved_buf with
  | r :: ref_buf', g :: recved_buf' =>
      (if bool_decide (r = g) then mret tt else emit (mismatch i r g));;
      compare_loop (i + 1) ref_buf' recved_buf'
  | _, _ => mret tt
  end.

(** ** The code *)

Definition compare_bufs {B} (ref_buf recved_buf : list byte) : M (bworld B) Z :=
  (if negb (length ref_buf =? length recved_buf)%nat then
     printf "recved pkt different size\n" [];; finish_simulation
   else compare_loop 0 ref_buf recved_buf);;
  mret 0.

(** The [while (bytes_read > 0)] loop.  [junk k] is what the stack holds at
    the [k]-th call of [read_pcap_record]. *)
Fixpoint fill_loop (fuel k : nat) (junk : nat → list byte) (source_mac : list byte)
    (bytes_read : Z) (buffer : list byte) : M (stream * PcapTestingLib) unit :=
  match fuel with
  | O => stop OutOfFuel
  | S fuel' =>
      if 0 <? bytes_read then
        send_packet ← defined (is_send_packet buffer source_mac);
        pkt_buf ← defined (rd_bytes (Z.to_nat bytes_read) 0 buffer);
        modify (λ '(f, o),
          (f, if send_packet : bool
              then {| send_pkts := send_pkts o ++ [pkt_buf]; recv_pkts := recv_pkts o |}
              else {| send_pkts := send_pkts o; recv_pkts := recv_pkts o ++ [pkt_buf] |}));;
        '(bytes_read, buffer) ← zoom fst (λ f s, (f, snd s)) (read_pcap_record (junk k) buffer);
        fill_loop fuel' (S k) junk source_mac bytes_read buffer
      else mret tt
  end.

(** The fuel is enough: every packet takes more than 16 bytes of the file. *)
Definition fill_pkt_vectors (junk : nat → list byte) (buffer : list byte)
    (instance_state : sock_state) : M (stream * PcapTestingLib) unit :=
  '(f, _) ← get;
  '(bytes_read, buffer) ← zoom fst (λ f s, (f, snd s)) (read_pcap_record (junk 0%nat) buffer);
  fill_loop (S (length (content f))) 1 junk (source_mac_addr instance_state) bytes_read buffer.

(** The constructor, on what [fopen] returned; the object is under
    construction, [sim_backend] still has its old value. *)
Definition PcapTestingLib_new {B} (pcap_file : option stream) (junk : nat → list byte)
    (buffer : list byte) : M (bworld B) PcapTestingLib :=
  match pcap_file with
  | None => perror "Failed to open pcap file";; stop (Exit 1)
  | Some f =>
      '(r, f) ← run_local f consumePCAPHeader;
      (if r <? 0 then printf "Error reading PCAP file header\n" [];; finish_simulation
       else mret tt);;
      inst ← gets w_instance_state;
      '(_, (_, o)) ← run_local (f, {| send_pkts := []; recv_pkts := [] |})
                               (fill_pkt_vectors junk buffer inst);
      mret o
  end.

Definition Pcap_get_buf_fr_io (fr : frame) : M (bworld PcapTestingLib) (list byte) :=
  o ← this;
  match send_pkts o with
  | [] => mret []
  | pkt_buf :: rest =>
      set_this {| send_pkts := rest; recv_pkts := recv_pkts o |};;
      mret pkt_buf
  end.

Definition Pcap_put_buf_on_io (pkt_buf : list byte) : M (bworld PcapTestingLib) Z :=
  o ← this;
  match recv_pkts o with
  | [] => printf "got a packet not in the trace\n" []
  | ref_pkt :: rest =>
      set_this {| send_pkts := send_pkts o; recv_pkts := rest |};;
      _ ← compare_bufs ref_pkt pkt_buf;
      o ← this;
      printf "Packets left: %d\n" [ANum (s32 (Z.of_nat (length (recv_pkts o))))];;
      match recv_pkts o with
      | [] => printf "All packets received\n" [];; finish_simulation
      | _ => mret tt
      end
  end;;
  mret (s32 (Z.of_nat (length pkt_buf))).

Definition get_packets_to_send : M (bworld PcapTestingLib) Z :=
  o ← this; mret (u32 (Z.of_nat (length (send_pkts o)))).
Definition get_packets_to_recv : M (bworld PcapTestingLib) Z :=
  o ← this; mret (u32 (Z.of_nat (length (recv_pkts o)))).

#[export] Instance Pcap_backend : DPITestingLib PcapTestingLib := {
  get_buf_fr_io := Pcap_get_buf_fr_io;
  put_buf_on_io := Pcap_put_buf_on_io }.

(** ** The interface's laws *)

Lemma keeps_emit_mismatch {B} i r g : keeps (emit (mismatch i r g) : M (bworld B) unit).
Proof. apply keeps_printf. Qed.
#[export] Hint Resolve keeps_emit_mismatch : keeps.

Lemma keeps_compare_loop {B} i a b : keeps (compare_loop i a b : M (bworld B) unit).
Proof.
  revert i b. induction a as [|x a IH]; intros i [|y b]; simpl; auto 6 with keeps.
Qed.
#[export] Hint Resolve keeps_compare_loop : keeps.

Lemma keeps_compare_bufs {B} a b : keeps (compare_bufs a b : M (bworld B) Z).
Proof. unfold compare_bufs. keeps_tac. Qed.
#[export] Hint Resolve keeps_compare_bufs : keeps.

#[export] Instance Pcap_laws : DPITestingLibLaws PcapTestingLib.
Proof.
  split.
  - intros fr. simpl. unfold Pcap_get_buf_fr_io. keeps_tac.
  - intros buf. simpl. unfold Pcap_put_buf_on_io. keeps_tac.
  - intros fr w Hw. simpl. apply bind_stopped. unfold this. by rewrite Hw.
Qed.

(** ** Lemmas *)

Lemma mac_loop_spec n i a b :
  (i + n ≤ length a)%nat → (i + n ≤ length b)%nat →
  mac_loop n i a b = Some (bool_decide (take n (drop i a) = take n (drop i b))).
Proof.
  revert i. induction n as [|n IH]; intros i Ha Hb; [done|]. cbn [mac_loop].
  destruct (lookup_lt_is_Some_2 a i) as [x Hx]; [lia|].
  destruct (lookup_lt_is_Some_2 b i) as [y Hy]; [lia|].
  rewrite Hx, Hy. cbn [mbind option_bind].
  rewrite (drop_S a x i Hx), (drop_S b y i Hy). cbn [take].
  case_bool_decide; subst.
  - rewrite IH by lia. f_equal. apply bool_decide_ext. split; congruence.
  - rewrite bool_decide_eq_false_2; [done|]. congruence.
Qed.

Lemma is_send_packet_spec a mac :
  (6 ≤ length a)%nat → length mac = 6%nat →
  is_send_packet a mac = Some (bool_decide (take 6 a = mac)).
Proof.
  intros Ha Hm. unfold is_send_packet. rewrite mac_loop_spec by lia.
  by rewrite !drop_0, (take_ge mac) by lia.
Qed.

(** What [compare_loop] prints. *)
Fixpoint mismatches (i : Z) (ref_buf recved_buf : list byte) : list event :=
  match ref_buf, recved_buf with
  | r :: ref_buf', g :: recved_buf' =>
      (if bool_decide (r = g) then [] else [mismatch i r g])
        ++ mismatches (i + 1) ref_buf' recved_buf'
  | _, _ => []
  end.

Lemma compare_loop_mismatches {S} i a b (s : S) :
  compare_loop i a b s = Done tt s (mismatches i a b).
Proof.
  revert i b. induction a as [|x a IH]; intros i [|y b]; try done.
  cbn [compare_loop mismatches].
  case_bool_decide; unfold mbind, M_bind; cbn; by rewrite IH.
Qed.

Lemma mismatches_refl i a : mismatches i a a = [].
Proof.
  revert i. induction a as [|x a IH]; intros i; [done|]. cbn [mismatches].
  by rewrite bool_decide_eq_true_2, IH.
Qed.

Lemma elem_of_mismatches e i a b :
  e ∈ mismatches i a b ↔
  ∃ k x y, a !! k = Some x ∧ b !! k = Some y ∧ x ≠ y ∧ e = mismatch (i + Z.of_nat k) x y.
Proof.
  revert i b. induction a as [|x a IH]; intros i b; [set_solver|].
  destruct b as [|y b]; [set_solver|]. cbn [mismatches].
  rewrite elem_of_app, IH. split.
  - intros [H|(k & x' & y' & ? & ? & ? & ->)].
    + case_bool_decide; [set_solver|]. apply list_elem_of_singleton in H as ->.
      exists 0%nat, x, y. by rewrite Z.add_0_r.
    + exists (S k), x', y'. repeat split; [done..|]. f_equal. lia.
  - intros ([|k] & x' & y' & H1 & H2 & H3 & ->); simpl in *.
    + left. simplify_eq. rewrite bool_decide_eq_false_2 by done.
      rewrite Z.add_0_r. set_solver.
    + right. exists k, x', y'. repeat split; [done..|]. f_equal. lia.
Qed.

Lemma compare_bufs_same_size {B} a b (w : bworld B) :
  length a = length b → compare_bufs a b w = Done 0 w (mismatches 0 a b).
Proof.
  intros Hl. unfold compare_bufs. rewrite Hl, Nat.eqb_refl. cbn [negb].
  unfold mbind, M_bind. rewrite compare_loop_mismatches. cbn. by rewrite app_nil_r.
Qed.

Lemma compare_bufs_other_size {B} a b (w : bworld B) o :
  length a ≠ length b → w_sim_backend w = Live o →
  compare_bufs a b w
  = Done 0 (set_sim_backend Dangling w) [Printf "recved pkt different size\n" []; FinishFromC].
Proof.
  intros Hl Hw. unfold compare_bufs. apply Nat.eqb_neq in Hl as ->. cbn [negb].
  unfold mbind, M_bind, printf, emit, finish_simulation. rewrite Hw. done.
Qed.

(** ** Loading a trace *)

Definition trace_file (recs : list (pcap_pkthdr * list byte)) : list byte :=
  concat (map (λ '(h, d), pcap_pkthdr_enc h ++ d) recs).

Lemma trace_file_cons h d recs :
  trace_file ((h, d) :: recs) = (pcap_pkthdr_enc h ++ d) ++ trace_file recs.
Proof. reflexivity. Qed.

Lemma trace_file_length recs : (length recs ≤ length (trace_file recs))%nat.
Proof.
  induction recs as [|[h d] recs IH]; [simpl; lia|]. rewrite trace_file_cons. len.
Qed.

(** A record that is complete and that the code can classify. *)
Definition record_ok (rec : pcap_pkthdr * list byte) : Prop :=
  len_ (fst rec) = Z.of_nat (length (snd rec)) ∧ (6 ≤ length (snd rec))%nat ∧
  Z.of_nat (length (snd rec)) ≤ 2048.

Definition classify (mac : list byte) (pkts : list (list byte)) (o : PcapTestingLib)
    : PcapTestingLib :=
  {| send_pkts := send_pkts o ++ filter (λ p, take 6 p = mac) pkts;
     recv_pkts := recv_pkts o ++ filter (λ p, take 6 p ≠ mac) pkts |}.

Lemma classify_nil mac o : classify mac [] o = o.
Proof. unfold classify. destruct o. cbn. by rewrite !app_nil_r. Qed.

Lemma classify_cons mac p pkts o :
  classify mac (p :: pkts) o
  = classify mac pkts
      (if bool_decide (take 6 p = mac)
       then {| send_pkts := send_pkts o ++ [p]; recv_pkts := recv_pkts o |}
       else {| send_pkts := send_pkts o; recv_pkts := recv_pkts o ++ [p] |}).
Proof.
  unfold classify. rewrite !filter_cons.
  case_bool_decide; repeat case_decide; try done; cbn; by rewrite <- app_assoc.
Qed.

(** One call of [read_pcap_record] of the loop. *)
Lemma read_trace_step pre recs r j buffer :
  Forall record_ok recs → Z.of_nat (length buffer) = 2048 →
  let f := Stream (pre ++ trace_file recs) (length pre) false r in
  ∃ tr, dpi_calls tr = [] ∧
    match recs with
    | [] => read_pcap_record j buffer f
            = Done (0, buffer) (Stream pre (length pre) true r) tr
    | (h, d) :: recs' =>
        read_pcap_record j buffer f
        = Done (Z.of_nat (length d), d ++ drop (length d) buffer)
            (Stream ((pre ++ pcap_pkthdr_enc h ++ d) ++ trace_file recs')
                    (length (pre ++ pcap_pkthdr_enc h ++ d)) false r) tr
    end.
Proof.
  intros Hrecs Hb f. destruct recs as [|[h d] recs].
  - exists []. split; [done|]. unfold f, trace_file. simpl. rewrite app_nil_r.
    apply read_record_end.
  - inversion_clear Hrecs as [|? ? (Hl & H6 & H2) _]. simpl in Hl, H6, H2.
    eexists. split; cycle 1.
    + unfold f. rewrite trace_file_cons.
      rewrite <- !app_assoc, read_record_whole by lia.
      do 2 f_equal. len.
    + done.
Qed.

Lemma fill_loop_trace fuel k junk mac recs pre r d buffer o :
  length mac = 6%nat → Forall record_ok recs → (length recs + 1 < fuel)%nat →
  (6 ≤ length d)%nat → Z.of_nat (length d) ≤ 2048 →
  Z.of_nat (length (d ++ buffer)) = 2048 →
  ∃ s tr, dpi_calls tr = [] ∧
    fill_loop fuel k junk mac (Z.of_nat (length d)) (d ++ buffer)
      (Stream (pre ++ trace_file recs) (length pre) false r, o)
    = Done tt (s, classify mac (d :: map snd recs) o) tr.
Proof.
  intros Hmac Hrecs. revert fuel k pre d buffer o.
  induction Hrecs as [|[h d'] recs Hrec Hrecs IH]; intros fuel k pre d buffer o Hfuel H6 H2 Hb;
    (destruct fuel as [|fuel]; [lia|]); cbn [fill_loop];
    destruct (Z.ltb_spec 0 (Z.of_nat (length d))) as [_|]; try lia;
    rewrite is_send_packet_spec by len; rewrite take_app_le by lia.
  all: assert (rd_bytes (Z.to_nat (Z.of_nat (length d))) 0 (d ++ buffer) = Some d) as ->
    by (apply rd_bytes_Some; rewrite Nat2Z.id, drop_0, take_app_length; split; [len|done]).
  all: rewrite classify_cons;
    set (o' := if bool_decide (take 6 d = mac) then _ else _).
  - destruct (read_trace_step pre [] r (junk k) (d ++ buffer)) as (t & Ht & Hr); [done..|].
    destruct fuel as [|fuel]; [simpl in Hfuel; lia|].
    exists (Stream pre (length pre) true r), t. split; [done|].
    unfold mbind, M_bind, defined, modify, zoom. cbn [after app fst snd].
    fold o'. rewrite Hr, classify_nil. clearbody o'. cbn. by rewrite !app_nil_r.
  - destruct (read_trace_step pre ((h, d') :: recs) r (junk k) (d ++ buffer)) as (t & Ht & Hr);
      [by constructor|done|].
    destruct Hrec as (Hl & H6' & H2'). simpl in Hl, H6', H2', Hfuel.
    destruct (IH fuel (S k) (pre ++ pcap_pkthdr_enc h ++ d') d' (drop (length d') (d ++ buffer)) o')
      as (s & t' & Ht' & Hloop); [lia|done|done|len|].
    exists s, (t ++ t'). split; [by rewrite dpi_calls_app, Ht, Ht'|].
    unfold mbind, M_bind, defined, modify, zoom. cbn [after app fst snd].
    fold o'. clearbody o'. rewrite Hr. cbv beta iota zeta. cbn [snd]. rewrite Hloop. done.
Qed.

Lemma fill_pkt_vectors_trace pre recs r junk buffer inst o :
  length (source_mac_addr inst) = 6%nat → Forall record_ok recs →
  Z.of_nat (length buffer) = 2048 →
  ∃ s tr, dpi_calls tr = [] ∧
    fill_pkt_vectors junk buffer inst (Stream (pre ++ trace_file recs) (length pre) false r, o)
    = Done tt (s, classify (source_mac_addr inst) (map snd recs) o) tr.
Proof.
  intros Hmac Hrecs Hb. unfold fill_pkt_vectors.
  destruct (read_trace_step pre recs r (junk 0%nat) buffer Hrecs Hb) as (t & Ht & Hr).
  destruct Hrecs as [|[h d] recs Hrec Hrecs].
  - eexists _, (t ++ []). rewrite dpi_calls_app, Ht. split; [done|].
    rewrite classify_nil. unfold mbind, M_bind, get, zoom. cbn [after app fst snd].
    rewrite Hr. done.
  - destruct Hrec as (Hl & H6 & H2). simpl in Hl, H6, H2.
    pose proof (trace_file_length recs) as Hlen.
    destruct (fill_loop_trace (S (length (pre ++ trace_file ((h, d) :: recs)))) 1 junk
                (source_mac_addr inst) recs (pre ++ pcap_pkthdr_enc h ++ d) r d
                (drop (length d) buffer) o) as (s & t' & Ht' & Hloop); [done..| |done|done|len|].
    { rewrite trace_file_cons. len. }
    exists s, (t ++ t'). split; [by rewrite dpi_calls_app, Ht, Ht'|].
    unfold mbind, M_bind, get, zoom. cbn [after app fst snd content].
    rewrite Hr. cbv beta iota zeta. cbn [snd]. rewrite Hloop. done.
Qed.

(** ** Termination of the loading loop, on any file *)

Lemma fread_bounds total f got f' tr :
  fread total f = Done got f' tr →
  content f' = content f ∧ (pos f + length got = pos f')%nat ∧
  (got = [] ∨ pos f' ≤ length (content f))%nat.
Proof.
  unfold fread. destruct (at_eof f); intros [= <- <- <-]; simpl; [auto with lia|].
  repeat split. set (avail := drop (pos f) (content f)).
  set (g := take _ avail). assert (length g ≤ length avail)%nat by (unfold g; len).
  destruct (decide (length g = 0%nat)) as [|Hg].
  - left. by apply length_zero_iff_nil.
  - right. unfold avail in *. len.
Qed.

Lemma read_record_progress j b f n b' f' tr :
  read_pcap_record j b f = Done (n, b') f' tr → 0 < n →
  content f' = content f ∧ (pos f + 2 ≤ pos f')%nat ∧ (pos f' ≤ length (content f))%nat.
Proof.
  unfold read_pcap_record. intros H Hn.
  apply bind_inv_done in H as (got & f1 & t1 & t2 & H1 & H & _).
  destruct (s32 (Z.of_nat (length got)) =? 0) eqn:E; [injection H as <- <- <- <-; lia|].
  apply fread_bounds in H1 as (C1 & P1 & _).
  assert (got ≠ []) as Hg by (intros ->; discriminate).
  apply bind_inv_done in H as ([] & f2 & t3 & t4 & H2 & H & _).
  assert (f2 = f1) as ->.
  { destruct (negb _); injection H2 as <- <-; done. }
  apply bind_inv_done in H as (l & f3 & t5 & t6 & H3 & H & _).
  assert (f3 = f1) as -> by (unfold defined in H3; destruct (ld _ _ _); naive_solver).
  apply bind_inv_done in H as ([] & f4 & t7 & t8 & H4 & H & _).
  injection H4 as <- <-.
  apply bind_inv_done in H as (got2 & f5 & t9 & t10 & H5 & H & _).
  apply fread_bounds in H5 as (C2 & P2 & B2).
  apply bind_inv_done in H as (buf & f6 & t11 & t12 & H6 & H & _).
  assert (f6 = f5) as -> by (unfold defined in H6; destruct (wr_bytes _ _ _); naive_solver).
  apply bind_inv_done in H as ([] & f7 & t13 & t14 & H7 & H & _).
  assert (f7 = f5) as ->.
  { destruct (negb _); injection H7 as <- <-; done. }
  injection H as <- <- <- <-.
  assert (got2 ≠ []) as Hg2 by (intros ->; change (s32 (Z.of_nat (length []))) with 0 in Hn; lia).
  destruct got as [|x got]; [done|]. destruct got2 as [|y got2]; [done|].
  simpl in P1, P2. destruct B2 as [|B2]; [done|]. rewrite C1 in *. repeat split; [done|lia..].
Qed.

Definition fueled {S A} (o : outcome S A) : Prop := ∀ tr, o ≠ Stopped OutOfFuel tr.

Lemma fueled_bind {S A C} (m : M S A) (f : A → M S C) s :
  fueled (m s) → (∀ a s' tr, m s = Done a s' tr → fueled (f a s')) → fueled ((m ≫= f) s).
Proof.
  intros Hm Hf tr. unfold mbind, M_bind. destruct (m s) as [a s' t|why t] eqn:E; [|intros [= -> ->]; by eapply Hm].
  specialize (Hf a s' t eq_refl). unfold fueled in Hf.
  destruct (f a s') as [|why t'] eqn:E'; simpl; [done|].
  intros [= -> _]. by eapply Hf.
Qed.

Lemma fueled_defined {S A} (o : option A) (s : S) : fueled (defined o s).
Proof. intros tr. unfold defined. by destruct o. Qed.

Lemma fueled_done {S A} (a : A) (s : S) t : fueled (Done a s t).
Proof. by intros tr. Qed.

Lemma fueled_fread n f : fueled (fread n f).
Proof. intros tr. unfold fread. by case_match. Qed.

Lemma fueled_read j b f : fueled (read_pcap_record j b f).
Proof.
  unfold read_pcap_record.
  repeat first
    [ apply fueled_bind | apply fueled_defined | apply fueled_fread | apply fueled_done
    | progress intros | case_match ].
Qed.

Lemma fill_loop_fueled fuel k junk mac n buffer f o :
  (1 ≤ fuel)%nat →
  (0 < n → (pos f ≤ length (content f) ∧ length (content f) - pos f + 2 ≤ fuel)%nat) →
  fueled (fill_loop fuel k junk mac n buffer (f, o)).
Proof.
  revert k n buffer f o. induction fuel as [|fuel IH]; intros k n buffer f o H1 Hn; [lia|].
  cbn [fill_loop]. destruct (Z.ltb_spec 0 n) as [Hpos|]; [|apply fueled_done].
  apply fueled_bind; [apply fueled_defined|]. intros snd_ [f1 o1] t1 E1.
  assert (f1 = f) as -> by (unfold defined in E1; destruct (is_send_packet _ _); naive_solver).
  apply fueled_bind; [apply fueled_defined|]. intros pkt [f2 o2] t2 E2.
  assert (f2 = f) as -> by (unfold defined in E2; destruct (rd_bytes _ _ _); naive_solver).
  apply fueled_bind; [apply fueled_done|]. intros [] [f3 o3] t3 E3.
  injection E3 as <- _ _.
  apply fueled_bind.
  { unfold zoom. cbn [fst]. pose proof (fueled_read (junk k) buffer f) as Hf.
    destruct (read_pcap_record (junk k) buffer f) as [? ? ?|why t0]; [apply fueled_done|].
    intros t' [= -> ->]. by eapply Hf. }
  intros [n' b'] [f4 o4] t4 E4. unfold zoom in E4. cbn [fst] in E4.
  destruct (read_pcap_record (junk k) buffer f) as [[n'' b''] f5 t5|] eqn:Hr; [|done].
  injection E4 as -> -> -> _ _. apply IH; [lia|].
  intros Hn'. destruct (read_record_progress _ _ _ _ _ _ _ Hr Hn') as (Hc & Hp & Hle).
  rewrite Hc. split; [done|]. specialize (Hn Hpos). lia.
Qed.

(** ** Properties *)

(** On a trace of complete packets of 6 to 2048 bytes, the constructor
    loads every packet, in the order of the file: those addressed to the
    device are to be sent, the others to be received. *)
Theorem PcapTestingLib_new_partitions (w : bworld PcapTestingLib) hdr recs r junk buffer :
  let mac := source_mac_addr (w_instance_state w) in
  length hdr = 24%nat → length mac = 6%nat → Z.of_nat (length buffer) = 2048 →
  Forall record_ok recs →
  ∃ o tr,
    PcapTestingLib_new (Some (Stream (hdr ++ trace_file recs) 0 false r)) junk buffer w
    = Done o w tr ∧ dpi_calls tr = [] ∧
    send_pkts o = filter (λ p, take 6 p = mac) (map snd recs) ∧
    recv_pkts o = filter (λ p, take 6 p ≠ mac) (map snd recs).
Proof.
  intros mac Hhdr Hmac Hb Hrecs.
  destruct (fill_pkt_vectors_trace hdr recs r junk buffer (w_instance_state w)
              {| send_pkts := []; recv_pkts := [] |} Hmac Hrecs Hb) as (s & tr & Htr & Hfill).
  exists (classify mac (map snd recs) {| send_pkts := []; recv_pkts := [] |}), tr.
  split; [|done]. unfold PcapTestingLib_new.
  assert (consumePCAPHeader (Stream (hdr ++ trace_file recs) 0 false r)
          = Done 0 (Stream (hdr ++ trace_file recs) (length hdr) false r) []) as Hc.
  { rewrite Hhdr. by apply consumePCAPHeader_whole. }
  rewrite (bind_done_nil _ _ _ _ _ (run_local_done _ _ w _ _ _ Hc)).
  cbv beta iota. change (0 <? 0) with false. cbv iota.
  rewrite (bind_done_nil _ _ _ tt w) by done.
  rewrite (bind_done_nil _ _ _ (w_instance_state w) w) by done.
  rewrite (bind_done _ _ _ _ _ _ (run_local_done _ _ w _ _ _ Hfill)).
  cbv beta iota. unfold mret, M_ret, after. by rewrite app_nil_r.
Qed.

Definition sample_pkt_in : list byte := sample_mac ++ [Byte.x01].
Definition sample_pkt_out : list byte := replicate 6 Byte.xff ++ [Byte.x02; Byte.x03].
Definition sample_hdr (n : Z) : pcap_pkthdr :=
  {| ts_sec := 0; ts_usec := 0; caplen := n; len_ := n |}.

Lemma PcapTestingLib_new_partitions_witness :
  ∃ o tr,
    PcapTestingLib_new
      (Some (Stream (replicate 24 Byte.x00 ++
                     trace_file [(sample_hdr 7, sample_pkt_in); (sample_hdr 8, sample_pkt_out)])
                    0 false 0)) (λ _, []) (replicate (Z.to_nat 2048) Byte.x00)
      (sample_world (B:=PcapTestingLib) Null)
    = Done o (sample_world Null) tr ∧ dpi_calls tr = [] ∧
    send_pkts o = filter (λ p, take 6 p = sample_mac) [sample_pkt_in; sample_pkt_out] ∧
    recv_pkts o = filter (λ p, take 6 p ≠ sample_mac) [sample_pkt_in; sample_pkt_out].
Proof.
  apply (PcapTestingLib_new_partitions (sample_world Null) (replicate 24 Byte.x00)
           [(sample_hdr 7, sample_pkt_in); (sample_hdr 8, sample_pkt_out)] 0 (λ _, [])
           (replicate (Z.to_nat 2048) Byte.x00)); [done|done|vm_compute; done|].
  repeat (constructor; [repeat split; vm_compute; done || lia|]). constructor.
Defined.

(** The loading loop ends on every file, whole or corrupt: the fuel the
    model gives it is never used up. *)
Theorem fill_pkt_vectors_terminates junk buffer inst f o :
  ∀ tr, fill_pkt_vectors junk buffer inst (f, o) ≠ Stopped OutOfFuel tr.
Proof.
  unfold fill_pkt_vectors. apply fueled_bind; [apply fueled_done|].
  intros [f1 o1] [f2 o2] t1 [= <- <- <- <- _]. apply fueled_bind.
  { unfold zoom. cbn [fst]. pose proof (fueled_read (junk 0%nat) buffer f) as Hf.
    destruct (read_pcap_record (junk 0%nat) buffer f) as [? ? ?|why t0]; [apply fueled_done|].
    intros t' [= -> ->]. by eapply Hf. }
  intros [n b] [f3 o3] t3 E. unfold zoom in E. cbn [fst] in E.
  destruct (read_pcap_record (junk 0%nat) buffer f) as [[n'' b''] f5 t5|] eqn:Hr; [|done].
  injection E as -> -> -> _ _. apply fill_loop_fueled; [lia|].
  intros Hn. destruct (read_record_progress _ _ _ _ _ _ _ Hr Hn) as (Hc & Hp & Hle).
  rewrite Hc. lia.
Qed.

(** A packet of the expected length is compared byte by byte: the
    diagnostics are exactly the positions that differ, with both bytes. *)
Theorem compare_bufs_exact {B} (ref_buf recved_buf : list byte) (w : bworld B) :
  length ref_buf = length recved_buf →
  ∃ tr, compare_bufs ref_buf recved_buf w = Done 0 w tr ∧
        (∀ e, e ∈ tr ↔ ∃ k x y, ref_buf !! k = Some x ∧ recved_buf !! k = Some y ∧ x ≠ y ∧
                                e = mismatch (Z.of_nat k) x y) ∧
        (tr = [] ↔ ref_buf = recved_buf).
Proof.
  intros Hl. exists (mismatches 0 ref_buf recved_buf).
  split; [by apply compare_bufs_same_size|]. split.
  { intros e. rewrite elem_of_mismatches. done. }
  split; [|intros ->; apply mismatches_refl].
  intros Hnil. apply list_eq_same_length with (n := length ref_buf); [done..|].
  intros i x y _ Hx Hy. destruct (decide (x = y)) as [|Hne]; [done|].
  assert (mismatch (0 + Z.of_nat i) x y ∈ mismatches 0 ref_buf recved_buf) as Hin
    by (apply elem_of_mismatches; eauto 10).
  rewrite Hnil in Hin. set_solver.
Qed.

Lemma compare_bufs_exact_witness :
  ∃ tr, compare_bufs [Byte.x01; Byte.x02] [Byte.x01; Byte.x03] (sample_world (B:=unit) Null)
        = Done 0 (sample_world Null) tr ∧
        (∀ e, e ∈ tr ↔ ∃ k x y, [Byte.x01; Byte.x02] !! k = Some x ∧
                                [Byte.x01; Byte.x03] !! k = Some y ∧ x ≠ y ∧
                                e = mismatch (Z.of_nat k) x y) ∧
        (tr = [] ↔ [Byte.x01; Byte.x02] = [Byte.x01; Byte.x03]).
Proof. apply compare_bufs_exact. reflexivity. Defined.

(** The calls of a conforming device, one per expected packet. *)
Definition packets_left (n : nat) : event :=
  Printf "Packets left: %d\n" [ANum (s32 (Z.of_nat n))].

Lemma Pcap_put_matching w o p rest :
  w_sim_backend w = Live o → recv_pkts o = p :: rest →
  Pcap_put_buf_on_io p w
  = Done (s32 (Z.of_nat (length p)))
      (set_sim_backend (match rest with [] => Dangling
                        | _ => Live {| send_pkts := send_pkts o; recv_pkts := rest |} end) w)
      (packets_left (length rest) ::
       match rest with [] => [Printf "All packets received\n" []; FinishFromC] | _ => [] end).
Proof.
  intros Hw Hp. unfold Pcap_put_buf_on_io, mbind, M_bind, this, set_this, modify.
  rewrite Hw, Hp, compare_bufs_same_size, mismatches_refl by done.
  cbn [w_sim_backend set_sim_backend recv_pkts]. by destruct rest.
Qed.

(** A device that sends exactly the packets the trace expects, in order,
    triggers no diagnostic but the countdown, and ends the simulation on the
    last packet and not before. *)
Theorem Pcap_put_conforming w o :
  w_sim_backend w = Live o → recv_pkts o ≠ [] →
  ∃ lens tr, run_all (map put_buf_on_io (recv_pkts o)) w
    = Done lens (set_sim_backend Dangling w) tr ∧
    lens = map (λ p, s32 (Z.of_nat (length p))) (recv_pkts o) ∧
    tr = map packets_left (reverse (seq 0 (length (recv_pkts o)))) ++
         [Printf "All packets received\n" []; FinishFromC].
Proof.
  intros Hw Hne. remember (recv_pkts o) as ps eqn:Hps.
  revert w o Hw Hps Hne. induction ps as [|p ps IH]; intros w o Hw Hps Hne; [done|].
  pose proof (Pcap_put_matching w o p ps Hw ltac:(done)) as Hput.
  destruct ps as [|q ps].
  - eexists _, _. split; [|split; reflexivity]. cbn [map run_all put_buf_on_io Pcap_backend].
    rewrite (bind_done _ _ _ _ _ _ Hput). done.
  - destruct (IH (set_sim_backend (Live {| send_pkts := send_pkts o; recv_pkts := q :: ps |}) w)
                 {| send_pkts := send_pkts o; recv_pkts := q :: ps |})
      as (lens & tr & Hrun & -> & ->); [done..|].
    eexists _, _. split; [|split; reflexivity].
    change (map put_buf_on_io (p :: q :: ps))
      with (Pcap_put_buf_on_io p :: map put_buf_on_io (q :: ps)).
    cbn [run_all]. rewrite (bind_done _ _ _ _ _ _ Hput), (bind_done _ _ _ _ _ _ Hrun).
    unfold mret, M_ret, after. rewrite app_nil_r.
    change (length (p :: q :: ps)) with (S (length (q :: ps))).
    rewrite seq_S, reverse_app, map_app. reflexivity.
Qed.

Lemma Pcap_put_conforming_witness :
  let o := {| send_pkts := []; recv_pkts := [sample_pkt_out; sample_pkt_in] |} in
  ∃ lens tr, run_all (map put_buf_on_io [sample_pkt_out; sample_pkt_in]) (sample_world (Live o))
    = Done lens (set_sim_backend Dangling (sample_world (Live o))) tr ∧
    lens = [8; 7] ∧
    tr = [packets_left 1; packets_left 0; Printf "All packets received\n" []; FinishFromC].
Proof.
  intros o. apply (Pcap_put_conforming (sample_world (Live o)) o); done.
Defined.

(** C40: a packet of the wrong length ends the simulation, which deletes the
    backend; [put_buf_on_io] then reads the deleted object. *)
Theorem Pcap_put_wrong_size_use_after_delete w o p ref_pkt rest :
  w_sim_backend w = Live o → recv_pkts o = ref_pkt :: rest → length ref_pkt ≠ length p →
  Pcap_put_buf_on_io p w
  = Stopped Undefined [Printf "recved pkt different size\n" []; FinishFromC].
Proof.
  intros Hw Hp Hl. unfold Pcap_put_buf_on_io, mbind, M_bind, this, set_this, modify.
  rewrite Hw, Hp. by erewrite compare_bufs_other_size by done.
Qed.

Lemma Pcap_put_wrong_size_use_after_delete_witness :
  Pcap_put_buf_on_io sample_pkt_in
    (sample_world (Live {| send_pkts := []; recv_pkts := [sample_pkt_out] |}))
  = Stopped Undefined [Printf "recved pkt different size\n" []; FinishFromC].
Proof.
  apply (Pcap_put_wrong_size_use_after_delete _
           {| send_pkts := []; recv_pkts := [sample_pkt_out] |} _ sample_pkt_out []);
    done || (vm_compute; lia).
Defined.

(** Polling delivers the packets to send in the order of the trace, once
    each, then nothing for ever, and leaves the expected packets alone. *)
Theorem Pcap_get_in_order w o frs :
  w_sim_backend w = Live o →
  ∃ w', run_all (map Pcap_get_buf_fr_io frs) w
    = Done (take (length frs) (send_pkts o) ++ replicate (length frs - length (send_pkts o)) [])
           w' [] ∧
    w_sim_backend w' = Live {| send_pkts := drop (length frs) (send_pkts o);
                               recv_pkts := recv_pkts o |}.
Proof.
  revert w o. induction frs as [|fr frs IH]; intros w o Hw.
  { exists w. rewrite drop_0, Hw. split; [done|by destruct o]. }
  cbn [map run_all]. destruct (send_pkts o) as [|p rest] eqn:Hs.
  - assert (Pcap_get_buf_fr_io fr w = Done [] w []) as Hg.
    { unfold Pcap_get_buf_fr_io, mbind, M_bind, this. by rewrite Hw, Hs. }
    destruct (IH w o Hw) as (w' & Hrun & Hw'). rewrite Hs in Hrun, Hw'.
    exists w'. rewrite (bind_done_nil _ _ _ _ _ Hg), (bind_done_nil _ _ _ _ _ Hrun).
    split; [|by rewrite Hw', drop_nil, drop_nil].
    rewrite !take_nil. simpl. by rewrite Nat.sub_0_r.
  - set (o1 := {| send_pkts := rest; recv_pkts := recv_pkts o |}).
    assert (Pcap_get_buf_fr_io fr w = Done p (set_sim_backend (Live o1) w) []) as Hg.
    { unfold Pcap_get_buf_fr_io, mbind, M_bind, this. by rewrite Hw, Hs. }
    destruct (IH (set_sim_backend (Live o1) w) o1) as (w' & Hrun & Hw'); [done|].
    exists w'. by rewrite (bind_done_nil _ _ _ _ _ Hg), (bind_done_nil _ _ _ _ _ Hrun).
Qed.

Lemma Pcap_get_in_order_witness :
  let o := {| send_pkts := [sample_pkt_in]; recv_pkts := [] |} in
  ∃ w', run_all (map Pcap_get_buf_fr_io (replicate 3 sample_frame)) (sample_world (Live o))
    = Done [sample_pkt_in; []; []] w' [] ∧
    w_sim_backend w' = Live {| send_pkts := []; recv_pkts := [] |}.
Proof.
  intros o. apply (Pcap_get_in_order (sample_world (Live o)) o (replicate 3 sample_frame)).
  reflexivity.
Defined.
