(* ===== verification/TcpMimic.v ===== *)
(** TcpMimic: the per-flow state of sim_dpi/tcp_pcap_trace_testing_lib.cpp,
    class [TCPMimic]: the sequence numbers the trace player follows and its
    three packet queues. *)

From S2P Require Import Prelude Words Headers Backend.

Record TCPMimic := {
  handshake_done : bool;
  my_seq : Z;
  my_expected_ack : Z;
  their_seq : Z;
  their_expected_ack : Z;
  pkts_recved_buf : list (list byte);
  pkts_to_recv : list (list byte);
  pkts_to_send : list (list byte) }.

(** The constructor initialises [handshake_done] only; the four numbers are
    what the memory held. *)
Definition TCPMimic_new (junk : Z * Z * Z * Z) (done : bool) : TCPMimic :=
  let '(a, b, c, d) := junk in
  {| handshake_done := done; my_seq := u32 a; my_expected_ack := u32 b; their_seq := u32 c;
     their_expected_ack := u32 d; pkts_recved_buf := []; pkts_to_recv := [];
     pkts_to_send := [] |}.

(** ** Member functions *)

Definition set_my_seq (seq_num : Z) : M TCPMimic unit := modify (λ m,
  {| handshake_done := handshake_done m; my_seq := seq_num;
     my_expected_ack := my_expected_ack m; their_seq := their_seq m;
     their_expected_ack := their_expected_ack m; pkts_recved_buf := pkts_recved_buf m;
     pkts_to_recv := pkts_to_recv m; pkts_to_send := pkts_to_send m |}).

Definition set_my_ack (ack_num : Z) : M TCPMimic unit := modify (λ m,
  {| handshake_done := handshake_done m; my_seq := my_seq m; my_expected_ack := ack_num;
     their_seq := their_seq m; their_expected_ack := their_expected_ack m;
     pkts_recved_buf := pkts_recved_buf m; pkts_to_recv := pkts_to_recv m;
     pkts_to_send := pkts_to_send m |}).

Definition set_their_seq (seq_num : Z) : M TCPMimic unit := modify (λ m,
  {| handshake_done := handshake_done m; my_seq := my_seq m;
     my_expected_ack := my_expected_ack m; their_seq := seq_num;
     their_expected_ack := their_expected_ack m; pkts_recved_buf := pkts_recved_buf m;
     pkts_to_recv := pkts_to_recv m; pkts_to_send := pkts_to_send m |}).

Definition set_their_ack (ack_num : Z) : M TCPMimic unit := modify (λ m,
  {| handshake_done := handshake_done m; my_seq := my_seq m;
     my_expected_ack := my_expected_ack m; their_seq := their_seq m;
     their_expected_ack := ack_num; pkts_recved_buf := pkts_recved_buf m;
     pkts_to_recv := pkts_to_recv m; pkts_to_send := pkts_to_send m |}).

Definition update_my_ack (buf_len : Z) : M TCPMimic Z :=
  return_val ← gets my_expected_ack;
  set_my_ack (u32 (return_val + buf_len));;
  mret return_val.

Definition update_their_ack (buf_len : Z) : M TCPMimic Z :=
  return_val ← gets their_expected_ack;
  set_their_ack (u32 (return_val + buf_len));;
  mret return_val.

Definition set_handshake_done (done : bool) : M TCPMimic unit := modify (λ m,
  {| handshake_done := done; my_seq := my_seq m; my_expected_ack := my_expected_ack m;
     their_seq := their_seq m; their_expected_ack := their_expected_ack m;
     pkts_recved_buf := pkts_recved_buf m; pkts_to_recv := pkts_to_recv m;
     pkts_to_send := pkts_to_send m |}).

Definition get_handshake_done : M TCPMimic bool := gets handshake_done.

(** The three queues.  [front] and [pop] of an empty queue are undefined. *)

Definition set_pkts_recved (q : list (list byte)) (m : TCPMimic) : TCPMimic :=
  {| handshake_done := handshake_done m; my_seq := my_seq m;
     my_expected_ack := my_expected_ack m; their_seq := their_seq m;
     their_expected_ack := their_expected_ack m; pkts_recved_buf := q;
     pkts_to_recv := pkts_to_recv m; pkts_to_send := pkts_to_send m |}.
Definition set_pkts_to_recv (q : list (list byte)) (m : TCPMimic) : TCPMimic :=
  {| handshake_done := handshake_done m; my_seq := my_seq m;
     my_expected_ack := my_expected_ack m; their_seq := their_seq m;
     their_expected_ack := their_expected_ack m; pkts_recved_buf := pkts_recved_buf m;
     pkts_to_recv := q; pkts_to_send := pkts_to_send m |}.
Definition set_pkts_to_send (q : list (list byte)) (m : TCPMimic) : TCPMimic :=
  {| handshake_done := handshake_done m; my_seq := my_seq m;
     my_expected_ack := my_expected_ack m; their_seq := their_seq m;
     their_expected_ack := their_expected_ack m; pkts_recved_buf := pkts_recved_buf m;
     pkts_to_recv := pkts_to_recv m; pkts_to_send := q |}.

Definition is_empty {A} (l : list A) : bool := match l with [] => true | _ => false end.

Definition pop_front {S A} (getq : S → list A) (setq : list A → S → S) : M S A := λ s,
  match getq s with
  | x :: q => Done x (setq q s) []
  | [] => Stopped Undefined []
  end.

Definition pkts_recved_empty : M TCPMimic bool := gets (λ m, is_empty (pkts_recved_buf m)).
Definition get_pkts_recved_front : M TCPMimic (list byte) := pop_front pkts_recved_buf set_pkts_recved.
Definition put_pkts_recved_back (pkt_buf : list byte) : M TCPMimic unit :=
  modify (λ m, set_pkts_recved (pkts_recved_buf m ++ [pkt_buf]) m).

Definition pkts_to_recv_empty : M TCPMimic bool := gets (λ m, is_empty (pkts_to_recv m)).
Definition get_pkts_to_recv_front : M TCPMimic (list byte) := pop_front pkts_to_recv set_pkts_to_recv.
Definition put_pkts_to_recv_back (pkt_buf : list byte) : M TCPMimic unit :=
  modify (λ m, set_pkts_to_recv (pkts_to_recv m ++ [pkt_buf]) m).
Definition pkts_to_recv_size : M TCPMimic Z := gets (λ m, Z.of_nat (length (pkts_to_recv m))).

Definition pkts_to_send_empty : M TCPMimic bool := gets (λ m, is_empty (pkts_to_send m)).
Definition get_pkts_to_send_front : M TCPMimic (list byte) := pop_front pkts_to_send set_pkts_to_send.
Definition put_pkts_to_send_back (pkt_buf : list byte) : M TCPMimic unit :=
  modify (λ m, set_pkts_to_send (pkts_to_send m ++ [pkt_buf]) m).

(** ** Packet parsing into the flow state *)

(** Where the TCP header starts, from the byte the code takes for [ver_ihl]. *)
Definition tcp_offset (ver_ihl : Z) : nat :=
  (14 + Z.to_nat (Z.shiftl (Z.land ver_ihl 0xf) 2))%nat.

(** The payload length of [buf_process_helper] and [recv_buf_helper]:
    [total_length] as it is in the packet. *)
Definition parse_payload_len (pkt_buf : list byte) : option Z :=
  ver_ihl ← ld 14 ip_ver_ihl pkt_buf;
  let ip_hdr_len := Z.shiftl (Z.land ver_ihl 0xf) 2 in
  hl ← ld (tcp_offset ver_ihl) tcp_hdrlen_rsvd_nonce pkt_buf;
  let tcp_hdr_len := Z.shiftl (Z.shiftr hl 4) 2 in
  total_length ← ld 14 ip_total_length pkt_buf;
  Some (u16 (total_length - ip_hdr_len - tcp_hdr_len)).

(** [TCPPcapTestingLib::buf_process_helper] *)
Definition buf_process_helper (pkt_buf : list byte) : M TCPMimic unit :=
  ver_ihl ← defined (ld 14 ip_ver_ihl pkt_buf);
  let tcp := tcp_offset ver_ihl in
  payload_len ← defined (parse_payload_len pkt_buf);
  seq_num ← defined (ld tcp tcp_seq_num pkt_buf);
  set_my_seq seq_num;;
  flags ← defined (ld tcp tcp_flags pkt_buf);
  if flags =? TCP_SYN then set_my_ack (u32 (seq_num + 1))
  else _ ← update_my_ack payload_len; mret tt.

(** [TCPPcapTestingLib::recv_buf_helper]; [TCPMimic::check_my_ack] is declared
    but its body is nowhere in the sources. *)
Section Recv.
Variable check_my_ack : Z → TCPMimic → bool.

Definition recv_buf_helper (pkt_buf : list byte) : M TCPMimic unit :=
  ver_ihl ← defined (ld 14 ip_ver_ihl pkt_buf);
  let tcp := tcp_offset ver_ihl in
  flags ← defined (ld tcp tcp_flags pkt_buf);
  if flags =? Z.lor TCP_ACK TCP_SYN then
    ack_num ← defined (ld tcp tcp_ack_num pkt_buf);
    ok ← gets (check_my_ack ack_num);
    (if negb ok then printf "Warning: SYN-ACK ack number not ok\n" [] else mret tt);;
    seq_num ← defined (ld tcp tcp_seq_num pkt_buf);
    set_their_seq seq_num;;
    set_their_ack (u32 (seq_num + 1));;
    set_handshake_done true
  else if flags =? TCP_ACK then
    payload_len ← defined (parse_payload_len pkt_buf);
    ack_num ← defined (ld tcp tcp_ack_num pkt_buf);
    ok ← gets (check_my_ack ack_num);
    (if negb ok then printf "Warning: ACK number not ok\n" [] else mret tt);;
    seq_num ← defined (ld tcp tcp_seq_num pkt_buf);
    set_their_seq seq_num;;
    _ ← update_their_ack payload_len;
    mret tt
  else printf "Warning: bad TCP flags\n" [].
End Recv.

(** ** Lemmas *)

Lemma silent_pop_front {S A} (g : S → list A) s : silent (pop_front g s).
Proof. intros x a x' tr. unfold pop_front. case_match; [done|]. intros [= <- <- <-]. constructor. Qed.
#[export] Hint Resolve silent_pop_front : keeps.

Lemma silent_buf_process_helper p : silent (buf_process_helper p).
Proof. unfold buf_process_helper, update_my_ack, set_my_ack, set_my_seq. keeps_tac. Qed.
#[export] Hint Resolve silent_buf_process_helper : keeps.

(** What [buf_process_helper] leaves alone. *)
Lemma buf_process_helper_queues p m u m' tr :
  buf_process_helper p m = Done u m' tr →
  handshake_done m' = handshake_done m ∧ pkts_recved_buf m' = pkts_recved_buf m ∧
  pkts_to_recv m' = pkts_to_recv m ∧ pkts_to_send m' = pkts_to_send m ∧ tr = [].
Proof.
  unfold buf_process_helper, mbind, M_bind, defined.
  destruct (ld 14 ip_ver_ihl p); [|done]. destruct (parse_payload_len p); [|done].
  destruct (ld _ tcp_seq_num p); [|done]. cbn. destruct (ld _ tcp_flags p); [|done]. cbn.
  case_match; intros [= <- <- <-]; done.
Qed.

(** A packet whose headers are in the buffer: version and header length,
    TCP data offset byte, raw total length, raw sequence number, flags. *)
Record parsed (p : list byte) (vi hl tl sq fl : Z) : Prop := {
  p_vi : ld 14 ip_ver_ihl p = Some vi;
  p_hl : ld (tcp_offset vi) tcp_hdrlen_rsvd_nonce p = Some hl;
  p_tl : ld 14 ip_total_length p = Some tl;
  p_sq : ld (tcp_offset vi) tcp_seq_num p = Some sq;
  p_fl : ld (tcp_offset vi) tcp_flags p = Some fl }.

(** Both header lengths, in bytes. *)
Definition header_bytes (vi hl : Z) : Z := 4 * (vi mod 16) + 4 * (hl / 16).

Lemma header_bytes_shift vi hl x :
  x - Z.shiftl (Z.land vi 0xf) 2 - Z.shiftl (Z.shiftr hl 4) 2 = x - header_bytes vi hl.
Proof.
  change 0xf with (Z.ones 4). rewrite Z.land_ones, !Z.shiftl_mul_pow2, Z.shiftr_div_pow2 by lia.
  unfold header_bytes. change (2 ^ 2) with 4. change (2 ^ 4) with 16. lia.
Qed.

Lemma parse_payload_len_parsed p vi hl tl sq fl :
  parsed p vi hl tl sq fl → parse_payload_len p = Some (u16 (tl - header_bytes vi hl)).
Proof.
  intros [H1 H2 H3 _ _]. unfold parse_payload_len.
  by rewrite H1; cbn [mbind option_bind]; rewrite H2; cbn [mbind option_bind];
    rewrite H3; cbn [mbind option_bind]; rewrite header_bytes_shift.
Qed.

Lemma buf_process_helper_parsed p vi hl tl sq fl m :
  parsed p vi hl tl sq fl →
  ∃ m', buf_process_helper p m = Done tt m' [] ∧
    my_seq m' = sq ∧
    my_expected_ack m' = (if fl =? TCP_SYN then u32 (sq + 1)
                          else u32 (my_expected_ack m + u16 (tl - header_bytes vi hl))) ∧
    their_seq m' = their_seq m ∧ their_expected_ack m' = their_expected_ack m.
Proof.
  intros Hp. unfold buf_process_helper. rewrite (parse_payload_len_parsed _ _ _ _ _ _ Hp).
  destruct Hp as [H1 H2 H3 H4 H5].
  unfold mbind, M_bind, defined. rewrite H1. cbn [after app]. rewrite H4, H5. cbn.
  by destruct (fl =? TCP_SYN); eexists.
Qed.

Lemma le_combine_4 b0 b1 b2 b3 :
  le_combine [b0; b1; b2; b3] =
  byte.unsigned b0 + 2 ^ 8 * byte.unsigned b1 + 2 ^ 16 * byte.unsigned b2
  + 2 ^ 24 * byte.unsigned b3.
Proof.
  unfold le_combine.
  pose proof (byte.unsigned_range b0). pose proof (byte.unsigned_range b1).
  pose proof (byte.unsigned_range b2). pose proof (byte.unsigned_range b3).
  rewrite Z.shiftl_0_l, Z.lor_0_r, !(lor_shiftl_add 8) by lia. lia.
Qed.

(** A 32-bit integer and its byte-swapped image, byte by byte. *)
Lemma htonl_bytes x :
  fits 4 x → ∃ b0 b1 b2 b3,
    0 ≤ b0 < 256 ∧ 0 ≤ b1 < 256 ∧ 0 ≤ b2 < 256 ∧ 0 ≤ b3 < 256 ∧
    x = b0 + 256 * b1 + 65536 * b2 + 16777216 * b3 ∧
    htonl x = b3 + 256 * b2 + 65536 * b1 + 16777216 * b0.
Proof.
  intros Hx. pose proof (le_combine_split_fits 4 x Hx) as Ex. unfold htonl, bswap.
  destruct (le_split 4 x) as [|c0 [|c1 [|c2 [|c3 [|]]]]] eqn:E;
    try (apply (f_equal length) in E; rewrite le_split_length in E; discriminate).
  change (reverse [c0; c1; c2; c3]) with [c3; c2; c1; c0]. rewrite !le_combine_4 in *.
  exists (byte.unsigned c0), (byte.unsigned c1), (byte.unsigned c2), (byte.unsigned c3).
  pose proof (byte.unsigned_range c0). pose proof (byte.unsigned_range c1).
  pose proof (byte.unsigned_range c2). pose proof (byte.unsigned_range c3). lia.
Qed.

(** Adding one to a number in network order. *)
Lemma htonl_succ_network s :
  fits 4 s → u32 (htonl s + 1) = htonl (u32 (s + 1)) ↔ s = 2 ^ 32 - 1.
Proof.
  intros Hs. pose proof (u32_fits (s + 1)) as Ht.
  destruct (htonl_bytes s Hs) as (b0 & b1 & b2 & b3 & ? & ? & ? & ? & Es & ->).
  destruct (htonl_bytes _ Ht) as (c0 & c1 & c2 & c3 & ? & ? & ? & ? & Et & ->).
  assert (digits : ∀ d r d' r' n, 0 ≤ d < n → 0 ≤ d' < n → d + n * r = d' + n * r' → d = d' ∧ r = r').
  { intros d r d' r' n K1 K2 K3.
    assert (r = r') by (apply (f_equal (λ z, z / n)) in K3;
      rewrite !(Z.add_comm _ (n * _)), !(Z.mul_comm n), !Z.div_add_l, !Z.div_small in K3 by lia; lia).
    subst. lia. }
  unfold fits, u32 in *. change (8 * Z.of_nat 4) with 32 in Hs.
  change (2 ^ 32) with 4294967296 in *. clear Ht.
  destruct (decide (s = 4294967295)) as [E|E].
  { split; [done|]. intros _. subst s. rewrite E in Et. change ((4294967295 + 1) mod 4294967296) with 0 in Et.
    assert (b0 = 255 ∧ b1 = 255 ∧ b2 = 255 ∧ b3 = 255) as (-> & -> & -> & ->) by lia.
    assert (c0 = 0 ∧ c1 = 0 ∧ c2 = 0 ∧ c3 = 0) as (-> & -> & -> & ->) by lia. reflexivity. }
  rewrite (Z.mod_small (s + 1)) in Et by lia. rewrite Z.mod_small by lia.
  split; [|done]. intros Heq. exfalso.
  destruct (decide (b3 = 255)) as [->|].
  - destruct (digits 0 (1 + b2 + 256 * b1 + 65536 * b0) c3 (c2 + 256 * c1 + 65536 * c0) 256); lia.
  - destruct (digits (b3 + 1) (b2 + 256 * b1 + 65536 * b0) c3 (c2 + 256 * c1 + 65536 * c0) 256)
      as [? E1]; [lia..|].
    destruct (digits b2 (b1 + 256 * b0) c2 (c1 + 256 * c0) 256) as [? E2]; [lia..|].
    destruct (digits b1 b0 c1 c0 256); lia.
Qed.

(** ** Properties *)

(** The helper stores the sequence number and adds the payload length as
    they are in the packet, in network order.  For a SYN with sequence number
    [s] the expected acknowledgement is the wire form of [s + 1] only when [s]
    is 2^32 - 1; for any other segment the length added is the payload length
    only when the two bytes of the total length are equal. *)
Theorem buf_process_helper_byte_order p vi hl s total fl m :
  parsed p vi hl (htons total) (htonl s) fl → fits 4 s → fits 2 total →
  fits 4 (my_expected_ack m) → header_bytes vi hl ≤ total →
  ∃ m', buf_process_helper p m = Done tt m' [] ∧ my_seq m' = htonl s ∧
    (fl = TCP_SYN → (my_expected_ack m' = htonl (u32 (s + 1)) ↔ s = 2 ^ 32 - 1)) ∧
    (fl ≠ TCP_SYN →
       (my_expected_ack m' = u32 (my_expected_ack m + (total - header_bytes vi hl))
        ↔ htons total = total)).
Proof.
  intros Hp Hs Ht Hm Hh.
  destruct (buf_process_helper_parsed _ _ _ _ _ _ m Hp) as (m' & Hrun & Hseq & Hack & _).
  exists m'. split; [done|]. split; [done|]. rewrite Hack. split.
  - intros ->. change (TCP_SYN =? TCP_SYN) with true. by apply htonl_succ_network.
  - intros Hfl. apply Z.eqb_neq in Hfl as ->.
    pose proof (htons_fits total) as Hn. set (n := htons total) in *. clearbody n.
    assert (0 ≤ header_bytes vi hl).
    { pose proof (rd_fits _ _ _ _ (p_hl _ _ _ _ _ _ Hp)) as Hl. unfold fits in Hl.
      unfold header_bytes. pose proof (Z.mod_pos_bound vi 16).
      pose proof (Z.div_pos hl 16). lia. }
    unfold u32, u16, fits in *. change (8 * Z.of_nat 4) with 32 in *.
    change (8 * Z.of_nat 2) with 16 in *. change (2 ^ 32) with 4294967296 in *.
    change (2 ^ 16) with 65536 in *. split; [|intros ->; f_equal; f_equal; apply Z.mod_small; lia].
    intros E. Z.div_mod_to_equations. lia.
Qed.

(** A packet with 20-byte IP and TCP headers; the arguments are raw, as the
    code loads them. *)
Definition sample_packet (dst_mac : list byte) (tot src_ip dst_ip sport dport seq ack flags : Z)
    (payload : list byte) : list byte :=
  dst_mac ++ replicate 6 Byte.x00 ++ le_split 2 8 ++
  le_split 1 0x45 ++ le_split 1 0 ++ le_split 2 tot ++ le_split 4 0 ++ le_split 1 64 ++
  le_split 1 6 ++ le_split 2 0 ++ le_split 4 src_ip ++ le_split 4 dst_ip ++
  le_split 2 sport ++ le_split 2 dport ++ le_split 4 seq ++ le_split 4 ack ++
  le_split 1 0x50 ++ le_split 1 flags ++ le_split 2 1024 ++ le_split 4 0 ++ payload.

Definition sample_mimic : TCPMimic := TCPMimic_new (1, 2, 3, 4) false.

Lemma buf_process_helper_byte_order_witness :
  let p := sample_packet sample_mac (htons 42) 1 2 3 4 (htonl 1000) 0 TCP_ACK
             [Byte.x68; Byte.x69] in
  ∃ m', buf_process_helper p sample_mimic = Done tt m' [] ∧ my_seq m' = htonl 1000 ∧
    (TCP_ACK = TCP_SYN → (my_expected_ack m' = htonl (u32 (1000 + 1)) ↔ 1000 = 2 ^ 32 - 1)) ∧
    (TCP_ACK ≠ TCP_SYN →
       (my_expected_ack m' = u32 (2 + (42 - header_bytes 0x45 0x50)) ↔ htons 42 = 42)).
Proof.
  intros p. apply (buf_process_helper_byte_order p 0x45 0x50 1000 42 TCP_ACK sample_mimic).
  - split; vm_compute; reflexivity.
  - unfold fits. lia.
  - unfold fits. lia.
  - unfold fits. simpl. vm_compute. intuition discriminate.
  - vm_compute. discriminate.
Defined.

(** Whatever [check_my_ack] answers, a SYN-ACK completes the handshake
    and sets the peer's numbers; the answer only adds a warning. *)
Theorem recv_buf_helper_syn_ack check_my_ack p vi ack sq m :
  ld 14 ip_ver_ihl p = Some vi → ld (tcp_offset vi) tcp_flags p = Some 18 →
  ld (tcp_offset vi) tcp_ack_num p = Some ack → ld (tcp_offset vi) tcp_seq_num p = Some sq →
  ∃ m', recv_buf_helper check_my_ack p m
    = Done tt m' (if check_my_ack ack m then []
                  else [Printf "Warning: SYN-ACK ack number not ok\n" []]) ∧
    handshake_done m' = true ∧ their_seq m' = sq ∧ their_expected_ack m' = u32 (sq + 1) ∧
    my_seq m' = my_seq m ∧ my_expected_ack m' = my_expected_ack m ∧
    pkts_to_send m' = pkts_to_send m ∧ pkts_to_recv m' = pkts_to_recv m ∧
    pkts_recved_buf m' = pkts_recved_buf m.
Proof.
  intros Hvi Hfl Hack Hsq. unfold recv_buf_helper, mbind, M_bind, defined.
  rewrite Hvi. cbn [after app]. rewrite Hfl.
  change (18 =? Z.lor TCP_ACK TCP_SYN) with true. cbn [after app]. rewrite Hack, Hsq. cbn.
  destruct (check_my_ack ack m); cbn; by eexists.
Qed.

Lemma recv_buf_helper_syn_ack_witness :
  let p := sample_packet sample_mac (htons 40) 1 2 3 4 (htonl 1000) 7 18 [] in
  ∃ m', recv_buf_helper (λ _ _, false) p sample_mimic
    = Done tt m' [Printf "Warning: SYN-ACK ack number not ok\n" []] ∧
    handshake_done m' = true ∧ their_seq m' = htonl 1000 ∧
    their_expected_ack m' = u32 (htonl 1000 + 1) ∧
    my_seq m' = 1 ∧ my_expected_ack m' = 2 ∧
    pkts_to_send m' = [] ∧ pkts_to_recv m' = [] ∧ pkts_recved_buf m' = [].
Proof.
  intros p. apply (recv_buf_helper_syn_ack (λ _ _, false) p 0x45 7 (htonl 1000) sample_mimic);
    vm_compute; reflexivity.
Defined.
