(* ===== verification/TcpTrace.v ===== *)
(** TcpTrace: sim_dpi/tcp_pcap_trace_testing_lib.cpp, class
    [TCPPcapTestingLib], the backend that replays a trace per TCP flow: the
    packets of the trace addressed to the device are sent or deferred, the
    others are kept and compared with what the device sends. *)

From S2P Require Import Prelude Words Headers Backend Pcap PcapTrace TcpMimic.

(** The order in which [std::unordered_map] iterates is not specified; it is
    a function of the order before an insertion and of the new key (there is
    no other update).  The library promises no more than a permutation. *)
Class FlowOrder := {
  place_flow : TCPFlowTuple → list TCPFlowTuple → list TCPFlowTuple;
  place_flow_perm k ks : place_flow k ks ≡ₚ k :: ks }.

(** [tcp_flows] is the map; [flow_order] its keys, as they are iterated. *)
Record TCPPcapTestingLib := {
  pcap_file : stream;
  tcp_flows : gmap TCPFlowTuple TCPMimic;
  flow_order : list TCPFlowTuple }.

Definition set_pcap_file (f : stream) (o : TCPPcapTestingLib) : TCPPcapTestingLib :=
  {| pcap_file := f; tcp_flows := tcp_flows o; flow_order := flow_order o |}.

Definition set_flow (k : TCPFlowTuple) (c : TCPMimic) (o : TCPPcapTestingLib) : TCPPcapTestingLib :=
  {| pcap_file := pcap_file o; tcp_flows := <[k := c]> (tcp_flows o); flow_order := flow_order o |}.

(** The constructor, on what [fopen] returned. *)
Definition TCPPcapTestingLib_new {B} (file : option stream)
    : M (bworld B) TCPPcapTestingLib :=
  match file with
  | None => perror "Failed to open pcap file";; stop (Exit 1)
  | Some f =>
      '(r, f) ← run_local f consumePCAPHeader;
      (if r <? 0 then printf "Error reading PCAP file header\n" [];; finish_simulation
       else mret tt);;
      mret {| pcap_file := f; tcp_flows := ∅; flow_order := [] |}
  end.

(** The flow a packet belongs to, its TCP header taken at [tcp_packet]. *)
Definition flow_lookup_tuple (send_packet : bool) (buffer : list byte) (tcp_packet : nat)
    : option TCPFlowTuple :=
  src_addr ← ld 14 ip_src_addr buffer;
  dst_addr ← ld 14 ip_dst_addr buffer;
  src_port ← ld tcp_packet tcp_src_port buffer;
  dst_port ← ld tcp_packet tcp_dst_port buffer;
  Some (if send_packet then {| my_ip := src_addr; their_ip := dst_addr;
                               my_port := src_port; their_port := dst_port |}
        else {| my_ip := dst_addr; their_ip := src_addr;
                my_port := dst_port; their_port := src_port |}).

(** A computation on the context of a flow, through the reference the code
    keeps into the map. *)
Definition with_flow {A} (k : TCPFlowTuple) (m : M TCPMimic A) : M (bworld TCPPcapTestingLib) A :=
  on_this (λ o,
    match tcp_flows o !! k with
    | Some c =>
        match m c with
        | Done a c' tr => Done a (set_flow k c' o) tr
        | Stopped why tr => Stopped why tr
        end
    | None => Stopped Undefined []
    end).

(** [compare_bufs] of this class. *)
Definition tcp_compare_bufs {B} (ref_buf recved_buf : list byte) : M (bworld B) Z :=
  printf "Comparing bufs\n" [];;
  (if negb (length ref_buf =? length recved_buf)%nat then
     printf "recved pkt different size\n" [];;
     printf "ref size: %lu, recved size: %lu\n"
       [ANum (Z.of_nat (length ref_buf)); ANum (Z.of_nat (length recved_buf))];;
     finish_simulation
   else compare_loop 0 ref_buf recved_buf);;
  mret 0.

Section Code.
Context `{FlowOrder}.

Definition insert_flow (k : TCPFlowTuple) (c : TCPMimic) (o : TCPPcapTestingLib)
    : TCPPcapTestingLib :=
  {| pcap_file := pcap_file o; tcp_flows := <[k := c]> (tcp_flows o);
     flow_order := place_flow k (flow_order o) |}.

(** A packet of the trace for a flow that has an entry. *)
Definition known_flow_packet (send_packet : bool) (pkt_buf : list byte) : M TCPMimic (list byte) :=
  if send_packet then
    done ← get_handshake_done;
    if done : bool then
      empty ← pkts_to_send_empty;
      if empty : bool then
        buf_process_helper pkt_buf;;
        mret pkt_buf
      else
        put_pkts_to_send_back pkt_buf;;
        buf_to_return ← get_pkts_to_send_front;
        buf_process_helper buf_to_return;;
        mret buf_to_return
    else
      put_pkts_to_send_back pkt_buf;;
      mret []
  else
    put_pkts_to_recv_back pkt_buf;;
    mret [].

(** A packet for a flow without an entry, on the new context. *)
Definition new_flow_packet (send_packet : bool) (pkt_buf : list byte) : M TCPMimic (list byte) :=
  if send_packet then
    buf_process_helper pkt_buf;;
    mret pkt_buf
  else
    put_pkts_to_recv_back pkt_buf;;
    mret [].

(** The loop over the map when the file has no more packets. *)
Fixpoint send_pending (flows : list TCPFlowTuple) : M (bworld TCPPcapTestingLib) (list byte) :=
  match flows with
  | [] => mret []
  | it :: flows' =>
      empty ← with_flow it pkts_to_send_empty;
      if negb empty then
        with_flow it (
          pkt_buf ← get_pkts_to_send_front;
          buf_process_helper pkt_buf;;
          mret pkt_buf)
      else send_pending flows'
  end.

(** [TCPPcapTestingLib::get_buf_fr_io].  The length of the IP header is
    taken from [buffer] before anything is read into it. *)
Definition Tcp_get_buf_fr_io (fr : frame) : M (bworld TCPPcapTestingLib) (list byte) :=
  ver_ihl ← defined (ld 14 ip_ver_ihl (fr_buf fr));
  let tcp_packet := tcp_offset ver_ihl in
  '(bytes_read, buffer) ← on_this (zoom pcap_file set_pcap_file
                                     (read_pcap_record (fr_hdr fr) (fr_buf fr)));
  if 0 <? bytes_read then
    pkt_buf ← defined (rd_bytes (Z.to_nat bytes_read) 0 buffer);
    inst ← gets w_instance_state;
    send_packet ← defined (is_send_packet buffer (source_mac_addr inst));
    printf (if send_packet : bool then "Sending packet\n" else "Receiving packet\n") [];;
    lookup_tuple ← defined (flow_lookup_tuple send_packet buffer tcp_packet);
    o ← this;
    match tcp_flows o !! lookup_tuple with
    | Some _ => with_flow lookup_tuple (known_flow_packet send_packet pkt_buf)
    | None =>
        '(buf, new_context) ← run_local (TCPMimic_new (fr_mimic fr) false)
                                        (new_flow_packet send_packet pkt_buf);
        on_this (modify (insert_flow lookup_tuple new_context));;
        mret buf
    end
  else
    o ← this;
    send_pending (flow_order o).

(** The loop that compares while both queues hold a packet. *)
Fixpoint compare_pending (fuel : nat) (flow : TCPFlowTuple) : M (bworld TCPPcapTestingLib) unit :=
  match fuel with
  | O => stop OutOfFuel
  | S fuel' =>
      to_recv_empty ← with_flow flow pkts_to_recv_empty;
      recved_empty ← with_flow flow pkts_recved_empty;
      if negb to_recv_empty && negb recved_empty then
        ref_pkt ← with_flow flow get_pkts_to_recv_front;
        test_pkt ← with_flow flow get_pkts_recved_front;
        _ ← tcp_compare_bufs ref_pkt test_pkt;
        compare_pending fuel' flow
      else mret tt
  end.

(** [TCPPcapTestingLib::put_buf_on_io] for a flow that has an entry.  The
    fuel is enough: each turn of the loop takes a packet to receive. *)
Definition put_known_flow (flow : TCPFlowTuple) (flow_context : TCPMimic) (pkt_buf : list byte)
    : M (bworld TCPPcapTestingLib) unit :=
  printf "Receive trace found an entry\n" [];;
  size ← with_flow flow pkts_to_recv_size;
  printf "%lu packets to receive\n" [ANum size];;
  compare_pending (S (length (pkts_to_recv flow_context))) flow;;
  empty ← with_flow flow pkts_to_recv_empty;
  if empty : bool then
    printf "No packets to compare to\n" [];;
    with_flow flow (put_pkts_recved_back pkt_buf)
  else
    ref_pkt ← with_flow flow get_pkts_to_recv_front;
    _ ← tcp_compare_bufs ref_pkt pkt_buf;
    mret tt.

Definition Tcp_put_buf_on_io (pkt_buf : list byte) : M (bworld TCPPcapTestingLib) Z :=
  ver_ihl ← defined (ld 14 ip_ver_ihl pkt_buf);
  inst ← gets w_instance_state;
  send_packet ← defined (is_send_packet pkt_buf (source_mac_addr inst));
  lookup_tuple ← defined (flow_lookup_tuple send_packet pkt_buf (tcp_offset ver_ihl));
  o ← this;
  match tcp_flows o !! lookup_tuple with
  | Some flow_context => put_known_flow lookup_tuple flow_context pkt_buf
  | None => mret tt
  end;;
  mret (s32 (Z.of_nat (length pkt_buf))).

#[export] Instance Tcp_backend : DPITestingLib TCPPcapTestingLib := {
  get_buf_fr_io := Tcp_get_buf_fr_io;
  put_buf_on_io := Tcp_put_buf_on_io }.
End Code.

(** ** The interface's laws *)

Lemma keeps_with_flow {A} k (m : M TCPMimic A) : silent m → keeps (with_flow k m).
Proof.
  intros Hm. apply keeps_on_this. intros o a o' tr.
  destruct (tcp_flows o !! k); [|done]. destruct (m t) eqn:E; [|done].
  intros [= <- <- <-]. by apply Hm in E.
Qed.

Lemma keeps_tcp_compare_bufs {B} a b : keeps (tcp_compare_bufs a b : M (bworld B) Z).
Proof. unfold tcp_compare_bufs. keeps_tac. Qed.
#[export] Hint Resolve keeps_tcp_compare_bufs : keeps.

Section Laws.
Context `{FlowOrder}.

Lemma silent_known_flow_packet s p : silent (known_flow_packet s p).
Proof.
  unfold known_flow_packet, get_handshake_done, pkts_to_send_empty, put_pkts_to_send_back,
    get_pkts_to_send_front, put_pkts_to_recv_back. keeps_tac.
Qed.
Lemma silent_new_flow_packet s p : silent (new_flow_packet s p).
Proof. unfold new_flow_packet, put_pkts_to_recv_back. keeps_tac. Qed.

Lemma keeps_send_pending ks : keeps (send_pending ks).
Proof.
  induction ks as [|k ks IH]; [apply keeps_ret|]. cbn [send_pending].
  unfold pkts_to_send_empty, get_pkts_to_send_front.
  apply keeps_bind; [apply keeps_with_flow; keeps_tac|]. intros e.
  apply keeps_if; [|done]. apply keeps_with_flow. keeps_tac.
Qed.

Lemma keeps_compare_pending fuel k : keeps (compare_pending fuel k).
Proof.
  induction fuel as [|fuel IH]; [by intros w a w' tr|]. cbn [compare_pending].
  unfold pkts_to_recv_empty, pkts_recved_empty, get_pkts_to_recv_front, get_pkts_recved_front.
  repeat first [ apply IH | progress intros | solve [auto with keeps]
               | apply keeps_with_flow; solve [keeps_tac] | apply keeps_bind | apply keeps_if ].
Qed.

#[export] Instance Tcp_laws : DPITestingLibLaws TCPPcapTestingLib.
Proof.
  split.
  - intros fr. simpl. unfold Tcp_get_buf_fr_io.
    repeat first
      [ progress intros | apply keeps_send_pending
      | apply keeps_with_flow, silent_known_flow_packet
      | apply keeps_run_local, silent_new_flow_packet
      | solve [auto with keeps] | apply keeps_bind | apply keeps_if | case_match ].
  - intros buf. simpl. unfold Tcp_put_buf_on_io, put_known_flow, pkts_to_recv_size, pkts_to_recv_empty,
      get_pkts_to_recv_front, put_pkts_recved_back.
    repeat first
      [ progress intros | apply keeps_compare_pending | solve [auto with keeps]
      | apply keeps_with_flow; solve [keeps_tac] | apply keeps_bind | apply keeps_if | case_match ].
  - intros fr w Hw. simpl. unfold Tcp_get_buf_fr_io, mbind, M_bind, defined.
    destruct (ld _ _ _); [|done]. unfold on_this. by rewrite Hw.
Qed.
End Laws.

(** ** Lemmas on the context of one flow *)

(** The world where the backend is [o] with context [c] for flow [k]. *)
Definition at_flow (w : bworld TCPPcapTestingLib) (o : TCPPcapTestingLib) (k : TCPFlowTuple)
    (c : TCPMimic) : bworld TCPPcapTestingLib :=
  set_sim_backend (Live (set_flow k c o)) w.

Lemma at_flow_id w o k c :
  w_sim_backend w = Live o → tcp_flows o !! k = Some c → at_flow w o k c = w.
Proof.
  intros Hw Hk. unfold at_flow, set_flow. rewrite insert_id by done.
  destruct w, o. simpl in *. by rewrite Hw.
Qed.

Lemma with_flow_at {A} k (m : M TCPMimic A) w o c :
  with_flow k m (at_flow w o k c) =
  match m c with
  | Done a c' tr => Done a (at_flow w o k c') tr
  | Stopped why tr => Stopped why tr
  end.
Proof.
  unfold with_flow, on_this, at_flow. cbn [w_sim_backend set_sim_backend tcp_flows set_flow].
  rewrite lookup_insert_eq. destruct (m c); [|done].
  unfold set_flow. cbn [pcap_file tcp_flows flow_order]. by rewrite insert_insert_eq.
Qed.

Lemma with_flow_done {A} k (m : M TCPMimic A) w o c a c' tr :
  m c = Done a c' tr → with_flow k m (at_flow w o k c) = Done a (at_flow w o k c') tr.
Proof. intros Hm. by rewrite with_flow_at, Hm. Qed.

(** What [tcp_compare_bufs] prints for two buffers of one length. *)
Definition compared (pair : list byte * list byte) : list event :=
  Printf "Comparing bufs\n" [] :: mismatches 0 (fst pair) (snd pair).

Definition same_size (pair : list byte * list byte) : Prop :=
  length (fst pair) = length (snd pair).

Lemma tcp_compare_bufs_same_size {B} a b (w : bworld B) :
  length a = length b → tcp_compare_bufs a b w = Done 0 w (compared (a, b)).
Proof.
  intros Hl. unfold tcp_compare_bufs. rewrite Hl, Nat.eqb_refl. cbn [negb].
  unfold mbind, M_bind, printf, emit. rewrite compare_loop_mismatches. unfold compared. cbn.
  by rewrite app_nil_r.
Qed.

Definition drop_queues (n : nat) (c : TCPMimic) : TCPMimic :=
  set_pkts_recved (drop n (pkts_recved_buf c)) (set_pkts_to_recv (drop n (pkts_to_recv c)) c).

Lemma drop_queues_0 c : drop_queues 0 c = c.
Proof. by destruct c. Qed.

(** The loop compares the two queues from the front until one is empty. *)
Lemma compare_pending_run `{FlowOrder} fuel w o k c :
  (length (pkts_to_recv c) < fuel)%nat →
  Forall same_size (zip (pkts_to_recv c) (pkts_recved_buf c)) →
  compare_pending fuel k (at_flow w o k c)
  = Done tt (at_flow w o k (drop_queues (length (zip (pkts_to_recv c) (pkts_recved_buf c))) c))
      (concat (map compared (zip (pkts_to_recv c) (pkts_recved_buf c)))).
Proof.
  revert c. induction fuel as [|fuel IH]; intros c Hf Hs; [lia|]. cbn [compare_pending].
  rewrite (bind_done_nil _ _ _ _ _ (with_flow_done k pkts_to_recv_empty w o c _ _ _ eq_refl)).
  rewrite (bind_done_nil _ _ _ _ _ (with_flow_done k pkts_recved_empty w o c _ _ _ eq_refl)).
  destruct (pkts_to_recv c) as [|r rs] eqn:Hr; [simpl; by rewrite drop_queues_0|].
  destruct (pkts_recved_buf c) as [|g gs] eqn:Hg; [simpl; by rewrite drop_queues_0|].
  cbn [is_empty negb andb].
  simpl in Hs. apply Forall_cons in Hs as [Hrg Hs]. unfold same_size in Hrg. cbn in Hrg.
  set (c1 := drop_queues 1 c).
  erewrite bind_done_nil
    by (apply with_flow_done; unfold get_pkts_to_recv_front, pop_front; rewrite Hr; reflexivity).
  erewrite bind_done_nil
    by (apply with_flow_done; unfold get_pkts_recved_front, pop_front; simpl; rewrite Hg; reflexivity).
  rewrite (bind_done _ _ _ _ _ _ (tcp_compare_bufs_same_size r g _ Hrg)).
  assert (set_pkts_recved gs (set_pkts_to_recv rs c) = c1) as ->
    by (unfold c1, drop_queues; by rewrite Hr, Hg).
  assert (pkts_to_recv c1 = rs) as Hr1 by (unfold c1, drop_queues; simpl; by rewrite Hr).
  assert (pkts_recved_buf c1 = gs) as Hg1 by (unfold c1, drop_queues; simpl; by rewrite Hg).
  rewrite (IH c1) by (rewrite ?Hr1, ?Hg1; simpl in Hf; try lia; done).
  rewrite Hr1, Hg1. simpl. f_equal. f_equal.
  unfold c1, drop_queues, set_pkts_recved, set_pkts_to_recv. simpl. by rewrite Hr, Hg.
Qed.

(** The context after a packet of the device was put. *)
Definition after_put (p : list byte) (c : TCPMimic) : TCPMimic :=
  let gots := pkts_recved_buf c ++ [p] in
  let n := length (zip (pkts_to_recv c) gots) in
  set_pkts_recved (drop n gots) (set_pkts_to_recv (drop n (pkts_to_recv c)) c).

Definition put_trace (refs gots : list (list byte)) (p : list byte) : list event :=
  [Printf "Receive trace found an entry\n" [];
   Printf "%lu packets to receive\n" [ANum (Z.of_nat (length refs))]] ++
  concat (map compared (zip refs (gots ++ [p]))) ++
  (if decide (length refs ≤ length gots)%nat then [Printf "No packets to compare to\n" []] else []).

Lemma zip_short {A B} (l : list A) (k : list B) x :
  (length l ≤ length k)%nat → zip l (k ++ [x]) = zip l k.
Proof.
  revert k. induction l as [|a l IH]; intros [|b k] Hl; simpl in *; [done..|lia|].
  f_equal. apply IH. lia.
Qed.

Lemma zip_long {A B} (l : list A) (k : list B) a x :
  l !! length k = Some a → zip l (k ++ [x]) = zip l k ++ [(a, x)].
Proof.
  revert k. induction l as [|b l IH]; intros [|d k] Hl; simpl in *; [done..| |].
  - simplify_eq. by destruct l.
  - f_equal. by apply IH.
Qed.

Lemma put_known_flow_run `{FlowOrder} w o k c p :
  Forall same_size (zip (pkts_to_recv c) (pkts_recved_buf c ++ [p])) →
  put_known_flow k c p (at_flow w o k c)
  = Done tt (at_flow w o k (after_put p c)) (put_trace (pkts_to_recv c) (pkts_recved_buf c) p).
Proof.
  intros Hs. unfold put_known_flow, put_trace.
  erewrite (bind_done (printf _ _)) by reflexivity.
  rewrite (bind_done_nil _ _ _ _ _ (with_flow_done k pkts_to_recv_size w o c _ _ _ eq_refl)).
  erewrite (bind_done (printf _ _)) by reflexivity. rewrite after_after.
  case_decide as Hl.
  - rewrite zip_short in * by done. erewrite bind_done by (apply compare_pending_run; [lia|done]).
    set (n := length (zip _ _)). set (c1 := drop_queues n c).
    assert (n = length (pkts_to_recv c)) as Hn by (unfold n; rewrite length_zip_with; lia).
    assert (pkts_to_recv c1 = []) as H1 by (unfold c1; simpl; rewrite Hn; apply drop_all).
    erewrite bind_done_nil by (apply with_flow_done; unfold pkts_to_recv_empty, gets; rewrite H1; reflexivity).
    cbn [is_empty]. erewrite bind_done by reflexivity.
    rewrite (with_flow_done _ _ _ _ _ _ _ _ eq_refl).
    cbn [after]. rewrite app_nil_r. unfold after_put. rewrite zip_short by done. fold n.
    rewrite drop_app_le by lia. reflexivity.
  - destruct (lookup_lt_is_Some_2 (pkts_to_recv c) (length (pkts_recved_buf c))) as [r Hr]; [lia|].
    rewrite (zip_long _ _ r) in * by done. apply Forall_app in Hs as [Hs Hrp].
    apply Forall_cons in Hrp as [Hrp _]. unfold same_size in Hrp. cbn in Hrp.
    erewrite bind_done by (apply compare_pending_run; [lia|done]).
    set (n := length (zip _ (pkts_recved_buf c))). set (c1 := drop_queues n c).
    assert (n = length (pkts_recved_buf c)) as Hn by (unfold n; rewrite length_zip_with; lia).
    assert (pkts_to_recv c1 = r :: drop (S n) (pkts_to_recv c)) as H1.
    { unfold c1. simpl. rewrite Hn. by apply drop_S. }
    erewrite bind_done_nil by (apply with_flow_done; unfold pkts_to_recv_empty, gets; rewrite H1; reflexivity).
    cbn [is_empty].
    erewrite bind_done_nil by (apply with_flow_done; unfold get_pkts_to_recv_front, pop_front; rewrite H1; reflexivity).
    rewrite (bind_done _ _ _ _ _ _ (tcp_compare_bufs_same_size r p _ Hrp)).
    cbn [mret M_ret after]. rewrite map_app, concat_app. simpl concat. rewrite !app_nil_r.
    f_equal. f_equal. unfold c1, after_put, drop_queues. rewrite (zip_long _ _ r) by done.
    rewrite length_app. fold n. cbn [length]. rewrite Nat.add_1_r.
    unfold set_pkts_recved, set_pkts_to_recv. cbn. f_equal.
    rewrite !drop_ge by len. done.
Qed.

(** ** The abstract specification of a flow's check

    [expected] are the packets of the trace the device should send on the
    flow, [received] those it sent, [checked] the number of pairs already
    compared.  The specification compares the k-th with the k-th as soon as
    both are there. *)

Record flow_spec := {
  expected : list (list byte);
  received : list (list byte);
  checked : nat }.

Definition spec_expect (p : list byte) (s : flow_spec) : flow_spec :=
  {| expected := expected s ++ [p]; received := received s; checked := checked s |}.

Definition spec_receive (p : list byte) (s : flow_spec) : flow_spec :=
  {| expected := expected s; received := received s ++ [p];
     checked := Nat.min (length (expected s)) (length (received s) + 1) |}.

(** The pairs compared by [spec_receive]. *)
Definition spec_pairs (p : list byte) (s : flow_spec) : list (list byte * list byte) :=
  drop (checked s) (zip (expected s) (received s ++ [p])).

(** The queues hold what is not compared yet. *)
Definition implements (s : flow_spec) (c : TCPMimic) : Prop :=
  (checked s ≤ length (expected s))%nat ∧ (checked s ≤ length (received s))%nat ∧
  pkts_to_recv c = drop (checked s) (expected s) ∧
  pkts_recved_buf c = drop (checked s) (received s).

(** The flow a packet of the device belongs to. *)
Definition packet_flow (mac p : list byte) : option TCPFlowTuple :=
  vi ← ld 14 ip_ver_ihl p;
  send ← is_send_packet p mac;
  flow_lookup_tuple send p (tcp_offset vi).

Lemma spec_pairs_queues p s c :
  implements s c → spec_pairs p s = zip (pkts_to_recv c) (pkts_recved_buf c ++ [p]).
Proof.
  intros (H1 & H2 & -> & ->). unfold spec_pairs.
  rewrite <- (drop_app_le (received s) [p]) by done. apply zip_with_drop.
Qed.

Lemma after_put_implements p s c :
  implements s c → implements (spec_receive p s) (after_put p c).
Proof.
  intros (H1 & H2 & Hr & Hg). unfold implements, after_put. cbn.
  rewrite Hr, Hg, length_zip_with, !length_app, !length_drop. cbn [length].
  repeat split; [lia|len|rewrite drop_drop; f_equal; lia|].
  rewrite <- (drop_app_le (received s) [p]) by done. rewrite drop_drop. f_equal. lia.
Qed.

Lemma expect_implements p s c :
  implements s c → implements (spec_expect p s) (set_pkts_to_recv (pkts_to_recv c ++ [p]) c).
Proof.
  intros (H1 & H2 & Hr & Hg). unfold implements. cbn. rewrite Hr. repeat split; [len|done| |done].
  by rewrite drop_app_le.
Qed.

Lemma Tcp_put_run `{FlowOrder} p w o k :
  w_sim_backend w = Live o → packet_flow (source_mac_addr (w_instance_state w)) p = Some k →
  Tcp_put_buf_on_io p w =
  match tcp_flows o !! k with
  | Some c =>
      match put_known_flow k c p w with
      | Done _ w' tr => Done (s32 (Z.of_nat (length p))) w' (tr ++ [])
      | Stopped why tr => Stopped why tr
      end
  | None => Done (s32 (Z.of_nat (length p))) w []
  end.
Proof.
  intros Hw Hk. unfold packet_flow in Hk. unfold Tcp_put_buf_on_io.
  destruct (ld 14 ip_ver_ihl p) as [vi|]; [|done]. cbn [mbind option_bind] in Hk.
  erewrite bind_done_nil by reflexivity. erewrite bind_done_nil by reflexivity.
  destruct (is_send_packet p _) as [s|]; [|done]. cbn [mbind option_bind] in Hk.
  erewrite bind_done_nil by reflexivity. rewrite Hk.
  erewrite bind_done_nil by reflexivity.
  erewrite bind_done_nil by (unfold this; rewrite Hw; reflexivity).
  destruct (tcp_flows o !! k) as [c|]; [|done].
  unfold mbind, M_bind. by destruct (put_known_flow k c p w).
Qed.

(** What a put does to a flow that implements its specification. *)
Lemma Tcp_put_known `{FlowOrder} w o k c s p :
  w_sim_backend w = Live o → tcp_flows o !! k = Some c → implements s c →
  packet_flow (source_mac_addr (w_instance_state w)) p = Some k →
  Forall same_size (spec_pairs p s) →
  Tcp_put_buf_on_io p w
  = Done (s32 (Z.of_nat (length p))) (set_sim_backend (Live (set_flow k (after_put p c) o)) w)
      ([Printf "Receive trace found an entry\n" [];
        Printf "%lu packets to receive\n" [ANum (Z.of_nat (length (expected s) - checked s))]] ++
       concat (map compared (spec_pairs p s)) ++
       (if decide (length (expected s) ≤ length (received s))%nat
        then [Printf "No packets to compare to\n" []] else [])).
Proof.
  intros Hw Hk Hi Hp Hs. rewrite (Tcp_put_run _ _ _ _ Hw Hp), Hk.
  rewrite (spec_pairs_queues _ _ _ Hi) in Hs |- *.
  pose proof (put_known_flow_run w o k c p Hs) as Hrun. rewrite at_flow_id in Hrun by done.
  rewrite Hrun, app_nil_r. unfold put_trace, at_flow. destruct Hi as (H1 & H2 & Hr & Hg).
  do 2 f_equal; [by rewrite Hr, length_drop|]. f_equal.
  rewrite Hr, Hg, !length_drop. do 2 case_decide; done || lia.
Qed.

(** ** Properties *)

(** A packet the device puts on a flow refines the specification: the
    k-th packet put on the flow is compared with the k-th packet the trace
    expects there, each pair once and in order, as soon as both are known,
    whatever order they came in; no other flow changes. *)
Theorem Tcp_put_refines_matching `{FlowOrder} w o k c s p :
  w_sim_backend w = Live o → tcp_flows o !! k = Some c → implements s c →
  packet_flow (source_mac_addr (w_instance_state w)) p = Some k →
  Forall same_size (spec_pairs p s) →
  ∃ c', put_buf_on_io p w
    = Done (s32 (Z.of_nat (length p))) (set_sim_backend (Live (set_flow k c' o)) w)
        ([Printf "Receive trace found an entry\n" [];
          Printf "%lu packets to receive\n" [ANum (Z.of_nat (length (expected s) - checked s))]] ++
         concat (map compared (spec_pairs p s)) ++
         (if decide (length (expected s) ≤ length (received s))%nat
          then [Printf "No packets to compare to\n" []] else [])) ∧
    implements (spec_receive p s) c'.
Proof.
  intros Hw Hk Hi Hp Hs. exists (after_put p c). split; [|by apply after_put_implements].
  by apply Tcp_put_known.
Qed.

(** An order for the concrete instances: the last flow first. *)
Definition last_first : FlowOrder := {| place_flow := cons; place_flow_perm _ _ := reflexivity _ |}.

(** The device's answer on the flow of the samples, and the object that
    expects it. *)
Definition sample_out : list byte :=
  sample_packet (replicate 6 Byte.xff) (htons 40) 1 2 3 4 (htonl 1000) 7 18 [].
Definition sample_flow : TCPFlowTuple :=
  {| my_ip := 2; their_ip := 1; my_port := 4; their_port := 3 |}.
Definition sample_tcp (sends recvs : list (list byte)) : TCPPcapTestingLib :=
  {| pcap_file := Stream [] 0 false 0;
     tcp_flows := {[ sample_flow := set_pkts_to_send sends (set_pkts_to_recv recvs sample_mimic) ]};
     flow_order := [sample_flow] |}.

Lemma Tcp_put_refines_matching_witness :
  let s := {| expected := [sample_out]; received := []; checked := 0 |} in
  let o := sample_tcp [] [sample_out] in
  ∃ c', put_buf_on_io (DPITestingLib := @Tcp_backend last_first) sample_out (sample_world (Live o))
    = Done 54 (set_sim_backend (Live (set_flow sample_flow c' o)) (sample_world (Live o)))
        [Printf "Receive trace found an entry\n" []; Printf "%lu packets to receive\n" [ANum 1];
         Printf "Comparing bufs\n" []] ∧
    implements (spec_receive sample_out s) c'.
Proof.
  intros s o.
  apply (@Tcp_put_refines_matching last_first (sample_world (Live o)) o sample_flow
           (set_pkts_to_recv [sample_out] sample_mimic) s sample_out).
  - reflexivity.
  - vm_compute. reflexivity.
  - repeat split; simpl; lia.
  - vm_compute. reflexivity.
  - repeat constructor.
Defined.

(** ** The reachable states *)

(** A well-formed context: the handshake is not done, and the four numbers are
    32-bit values. *)
Definition context_ok (c : TCPMimic) : Prop :=
  handshake_done c = false ∧ fits 4 (my_seq c) ∧ fits 4 (my_expected_ack c) ∧
  fits 4 (their_seq c) ∧ fits 4 (their_expected_ack c).

(** The contexts are well formed, and the map and its iteration order agree. *)
Definition flows_inv (o : TCPPcapTestingLib) : Prop :=
  map_Forall (λ _ c, context_ok c) (tcp_flows o) ∧
  NoDup (flow_order o) ∧ ∀ k, k ∈ flow_order o ↔ is_Some (tcp_flows o !! k).

Definition world_inv (w : bworld TCPPcapTestingLib) : Prop :=
  match w_sim_backend w with Live o => flows_inv o | _ => True end.

Lemma context_ok_new junk : context_ok (TCPMimic_new junk false).
Proof. destruct junk as [[[] ?] ?]. split_and!; [done|apply u32_fits..]. Qed.

Lemma context_ok_buf_process p : preserves context_ok (buf_process_helper p).
Proof.
  intros c u c' tr (H1 & H2 & H3 & H4 & H5) E. unfold buf_process_helper in E.
  apply bind_defined_inv in E as (vi & _ & E). apply bind_defined_inv in E as (len & _ & E).
  apply bind_defined_inv in E as (sq & Hsq & E). apply rd_fits in Hsq.
  change (fits 4 sq) in Hsq.
  unfold set_my_seq in E. erewrite bind_done_nil in E by reflexivity.
  apply bind_defined_inv in E as (fl & _ & E).
  case_match; injection E as _ <- _; split_and!; cbn; try apply u32_fits; done.
Qed.

Lemma context_ok_pop {A} (g : TCPMimic → list A) (f : list A → TCPMimic → TCPMimic) :
  (∀ q c, context_ok c → context_ok (f q c)) → preserves context_ok (pop_front g f).
Proof.
  intros Hf c a c' tr Hc. unfold pop_front. destruct (g c); [done|]. intros [= _ <- _]. by apply Hf.
Qed.

#[export] Hint Resolve context_ok_buf_process : preserves.
#[export] Hint Extern 1 (preserves context_ok (put_pkts_to_send_back _)) =>
  by apply preserves_modify : preserves.
#[export] Hint Extern 1 (preserves context_ok (put_pkts_to_recv_back _)) =>
  by apply preserves_modify : preserves.
#[export] Hint Extern 1 (preserves context_ok (put_pkts_recved_back _)) =>
  by apply preserves_modify : preserves.
#[export] Hint Extern 1 (preserves context_ok get_pkts_to_send_front) =>
  by apply context_ok_pop : preserves.
#[export] Hint Extern 1 (preserves context_ok get_pkts_to_recv_front) =>
  by apply context_ok_pop : preserves.
#[export] Hint Extern 1 (preserves context_ok get_pkts_recved_front) =>
  by apply context_ok_pop : preserves.
#[export] Hint Extern 1 (preserves context_ok pkts_to_send_empty) => apply preserves_gets : preserves.
#[export] Hint Extern 1 (preserves context_ok pkts_to_recv_empty) => apply preserves_gets : preserves.
#[export] Hint Extern 1 (preserves context_ok pkts_to_recv_size) => apply preserves_gets : preserves.
#[export] Hint Extern 1 (preserves context_ok pkts_recved_empty) => apply preserves_gets : preserves.
#[export] Hint Extern 1 (preserves context_ok get_handshake_done) => apply preserves_gets : preserves.

Lemma context_ok_known s p : preserves context_ok (known_flow_packet s p).
Proof. unfold known_flow_packet. preserves_tac. Qed.

Lemma context_ok_new_flow s p : preserves context_ok (new_flow_packet s p).
Proof. unfold new_flow_packet. preserves_tac. Qed.

Lemma world_inv_with_flow {A} k (m : M TCPMimic A) :
  preserves context_ok m → preserves world_inv (with_flow k m).
Proof.
  intros Hm w a w' tr Hinv. unfold with_flow, on_this, world_inv in *.
  destruct (w_sim_backend w) as [|o|]; [done| |done].
  destruct (tcp_flows o !! k) as [c|] eqn:Hk; [|done].
  destruct (m c) as [a' c' t|] eqn:E; [|done]. intros [= _ <- _].
  destruct Hinv as (H1 & H2 & H3). apply Hm in E; [|by apply (H1 k)].
  split; [|split; [done|intros j; split]]; cbn.
  - by apply map_Forall_insert_2.
  - intros Hin. apply H3 in Hin. by apply lookup_insert_is_Some'; right.
  - intros [<-|Hs]%lookup_insert_is_Some'; apply H3; [by eexists|done].
Qed.

Lemma world_inv_finish : preserves world_inv finish_simulation.
Proof.
  intros w a w' tr Hinv. unfold finish_simulation, world_inv in *.
  destruct (w_sim_backend w) eqn:E; [| |done]; intros [= _ <- _]; [by rewrite E|done].
Qed.

Lemma world_inv_compare_loop i a b : preserves world_inv (compare_loop i a b).
Proof.
  revert i b. induction a as [|x a IH]; intros i [|y b]; simpl; auto with preserves.
  apply preserves_bind; [|done]. case_match; auto with preserves.
Qed.

Lemma world_inv_compare_bufs a b : preserves world_inv (tcp_compare_bufs a b).
Proof.
  unfold tcp_compare_bufs. pose proof world_inv_finish. pose proof world_inv_compare_loop.
  preserves_tac.
Qed.

Lemma world_inv_this : preserves world_inv this.
Proof.
  intros w a w' tr Hinv. unfold this. destruct (w_sim_backend w); [done| |done]. by intros [= _ <- _].
Qed.
#[export] Hint Resolve world_inv_finish world_inv_this world_inv_compare_loop
  world_inv_compare_bufs : preserves.
#[export] Hint Extern 1 (preserves world_inv (with_flow _ _)) =>
  apply world_inv_with_flow; solve [auto with preserves] : preserves.

Section Reach.
Context `{FlowOrder}.

Lemma world_inv_compare_pending fuel k : preserves world_inv (compare_pending fuel k).
Proof.
  induction fuel as [|fuel IH]; [done|]. cbn [compare_pending].
  repeat first [ progress intros | apply IH | solve [auto with preserves]
               | apply preserves_bind | case_match ].
Qed.

Lemma world_inv_put p : preserves world_inv (Tcp_put_buf_on_io p).
Proof.
  unfold Tcp_put_buf_on_io, put_known_flow. pose proof world_inv_compare_pending. preserves_tac.
Qed.

Lemma world_inv_send_pending ks : preserves world_inv (send_pending ks).
Proof.
  induction ks as [|k ks IH]; [apply preserves_ret|]. cbn [send_pending].
  repeat first [ progress intros | apply IH | solve [auto with preserves]
               | apply world_inv_with_flow | apply preserves_bind | case_match ].
Qed.

Lemma world_inv_file f m w : world_inv w → w_sim_backend w = Live m →
  world_inv (set_sim_backend (Live (set_pcap_file f m)) w).
Proof. unfold world_inv. intros H1 H2. by rewrite H2 in H1. Qed.

Lemma flows_inv_insert k c o :
  flows_inv o → tcp_flows o !! k = None → context_ok c →
  flows_inv (insert_flow k c o).
Proof.
  intros (H1 & H2 & H3) Hk Hc. unfold insert_flow.
  split; [|split; [|intros j; split]]; cbn.
  - by apply map_Forall_insert_2.
  - rewrite place_flow_perm. constructor; [|done]. rewrite H3, Hk. by intros [? [=]].
  - rewrite place_flow_perm, elem_of_cons. intros [->|Hin].
    + rewrite lookup_insert_eq. by eexists.
    + apply lookup_insert_is_Some'. right. by apply H3.
  - rewrite place_flow_perm, elem_of_cons. intros [->|Hs]%lookup_insert_is_Some'; [by left|].
    right. by apply H3.
Qed.

Lemma world_inv_get fr : preserves world_inv (Tcp_get_buf_fr_io fr).
Proof.
  unfold Tcp_get_buf_fr_io. apply preserves_bind; [auto with preserves|]. intros vi.
  apply preserves_bind.
  { intros w a w' tr Hinv. unfold on_this, zoom.
    destruct (w_sim_backend w) as [|o|] eqn:E; [done| |done].
    destruct (read_pcap_record _ _ _); [|done]. intros [= _ <- _]. by apply world_inv_file. }
  intros [n buffer]. destruct (0 <? n).
  2: { apply preserves_bind; [auto with preserves|]. intros o. apply world_inv_send_pending. }
  do 5 (apply preserves_bind; [solve [auto with preserves]|intros ?]).
  intros w r w' tr Hinv Hrun.
  apply bind_inv_done in Hrun as (o & w1 & t1 & t2 & H1 & Hrun & _).
  unfold this in H1. destruct (w_sim_backend w) as [|o'|] eqn:Hw; [done| |done].
  injection H1 as -> <- _.
  destruct (tcp_flows o !! _) as [c|] eqn:Hk.
  { by eapply world_inv_with_flow in Hrun; [|apply context_ok_known|]. }
  apply bind_inv_done in Hrun as ([buf c] & w2 & t3 & t4 & H2 & Hrun & _).
  unfold run_local in H2. destruct (new_flow_packet _ _ _) as [b c' t|] eqn:Hn; [|done].
  injection H2 as -> -> <- _. apply context_ok_new_flow in Hn; [|apply context_ok_new].
  apply bind_inv_done in Hrun as ([] & w3 & t5 & t6 & H3 & Hrun & _).
  injection Hrun as _ <- _. unfold on_this in H3. rewrite Hw in H3. injection H3 as <- _.
  unfold world_inv in *. rewrite Hw in Hinv. cbn. by apply flows_inv_insert.
Qed.
End Reach.

(** The worlds a sequence of calls of the network side can reach. *)
Inductive tcp_reach `{FlowOrder} (w0 : bworld TCPPcapTestingLib)
    : bworld TCPPcapTestingLib → Prop :=
| reach_start : tcp_reach w0 w0
| reach_get fr w r w' tr :
    tcp_reach w0 w → get_buf_fr_io fr w = Done r w' tr → tcp_reach w0 w'
| reach_put p w r w' tr :
    tcp_reach w0 w → put_buf_on_io p w = Done r w' tr → tcp_reach w0 w'.

Lemma reach_inv `{FlowOrder} w0 w : world_inv w0 → tcp_reach w0 w → world_inv w.
Proof.
  intros H0. induction 1 as [|fr w r w' tr _ IH Hg|p w r w' tr _ IH Hp]; [done|..].
  - by eapply world_inv_get, Hg.
  - by eapply world_inv_put, Hp.
Qed.

(** The object the constructor leaves. *)
Lemma new_inv {B} file (w : bworld B) o w' tr :
  TCPPcapTestingLib_new file w = Done o w' tr → flows_inv o.
Proof.
  unfold TCPPcapTestingLib_new. destruct file as [f|]; [|done]. intros Hrun.
  apply bind_inv_done in Hrun as ([r f'] & w1 & t1 & t2 & _ & Hrun & _).
  apply bind_inv_done in Hrun as ([] & w2 & t3 & t4 & _ & Hrun & _).
  injection Hrun as <- _ _.
  split; [apply map_Forall_empty|]. split; [constructor|]. cbn. intros k. rewrite lookup_empty.
  split; [by intros ?%not_elem_of_nil|by intros []].
Qed.

(** ** Runs of [get_buf_fr_io] *)

Definition new_object (f : stream) : TCPPcapTestingLib :=
  {| pcap_file := f; tcp_flows := ∅; flow_order := [] |}.

Lemma TCPPcapTestingLib_new_run {B} hdr rest r (w : bworld B) :
  length hdr = 24%nat →
  TCPPcapTestingLib_new (Some (Stream (hdr ++ rest) 0 false r)) w
  = Done (new_object (Stream (hdr ++ rest) 24 false r)) w [].
Proof.
  intros Hh. unfold TCPPcapTestingLib_new.
  by rewrite (bind_done_nil _ _ _ _ _
    (run_local_done _ _ w _ _ _ (consumePCAPHeader_whole hdr rest r Hh))).
Qed.

Definition live (w : bworld TCPPcapTestingLib) (o : TCPPcapTestingLib) : bworld TCPPcapTestingLib :=
  set_sim_backend (Live o) w.

Lemma live_id w o : w_sim_backend w = Live o → live w o = w.
Proof. intros Hw. destruct w. simpl in *. by rewrite Hw. Qed.

(** The invariant of an object, as a call keeps it. *)
Lemma flows_inv_get `{FlowOrder} fr w o p o' tr :
  w_sim_backend w = Live o → flows_inv o → Tcp_get_buf_fr_io fr w = Done p (live w o') tr →
  flows_inv o'.
Proof.
  intros Hw Hi E.
  assert (world_inv w) as Hwi by (unfold world_inv; by rewrite Hw).
  exact (world_inv_get fr w p (live w o') tr Hwi E).
Qed.

Lemma flows_inv_put `{FlowOrder} p w o n o' tr :
  w_sim_backend w = Live o → flows_inv o → Tcp_put_buf_on_io p w = Done n (live w o') tr →
  flows_inv o'.
Proof.
  intros Hw Hi E.
  assert (world_inv w) as Hwi by (unfold world_inv; by rewrite Hw).
  exact (world_inv_put p w n (live w o') tr Hwi E).
Qed.

(** The next record of the trace, as the backend at [w] reads it with the
    stack [fr]: the packet, its direction and the flow it is filed under. *)
Record next_record (w : bworld TCPPcapTestingLib) (o : TCPPcapTestingLib) (fr : frame)
    (pkt : list byte) (send : bool) (k : TCPFlowTuple) (f' : stream) (tr : list event) : Prop := {
  nr_live : w_sim_backend w = Live o;
  nr_read : ∃ n buffer,
    read_pcap_record (fr_hdr fr) (fr_buf fr) (pcap_file o) = Done (n, buffer) f' tr ∧ 0 < n ∧
    rd_bytes (Z.to_nat n) 0 buffer = Some pkt ∧
    is_send_packet buffer (source_mac_addr (w_instance_state w)) = Some send ∧
    ∃ vi, ld 14 ip_ver_ihl (fr_buf fr) = Some vi ∧
          flow_lookup_tuple send buffer (tcp_offset vi) = Some k }.

Definition direction (send : bool) : event :=
  Printf (if send then "Sending packet\n" else "Receiving packet\n") [].

Lemma Tcp_get_record_run `{FlowOrder} w o fr pkt send k f' tr :
  next_record w o fr pkt send k f' tr →
  Tcp_get_buf_fr_io fr w =
  after (tr ++ [direction send])
    (match tcp_flows o !! k with
     | Some c =>
         match known_flow_packet send pkt c with
         | Done r c' tr => Done r (live w (set_flow k c' (set_pcap_file f' o))) tr
         | Stopped why tr => Stopped why tr
         end
     | None =>
         match new_flow_packet send pkt (TCPMimic_new (fr_mimic fr) false) with
         | Done r c' tr => Done r (live w (insert_flow k c' (set_pcap_file f' o))) tr
         | Stopped why tr => Stopped why tr
         end
     end).
Proof.
  intros [Hw (n & buffer & Hrd & Hn & Hpkt & Hs & vi & Hvi & Hk)]. unfold Tcp_get_buf_fr_io.
  rewrite Hvi. erewrite bind_done_nil by reflexivity.
  erewrite bind_done by (unfold on_this, zoom; rewrite Hw, Hrd; reflexivity).
  cbv beta iota. apply Z.ltb_lt in Hn as ->. rewrite Hpkt.
  erewrite bind_done_nil by reflexivity. erewrite bind_done_nil by reflexivity.
  cbn [w_instance_state set_sim_backend]. rewrite Hs.
  erewrite bind_done_nil by reflexivity. erewrite bind_done by reflexivity.
  rewrite Hk. erewrite bind_done_nil by reflexivity. rewrite after_after.
  erewrite bind_done_nil by reflexivity. cbn [tcp_flows set_pcap_file].
  f_equal. destruct (tcp_flows o !! k) as [c|] eqn:Hc.
  - unfold with_flow, on_this. cbn [w_sim_backend set_sim_backend tcp_flows set_pcap_file].
    rewrite Hc. by destruct (known_flow_packet send pkt c).
  - unfold mbind, M_bind, run_local. destruct (new_flow_packet _ _ _) as [r c' t|]; [|done].
    cbn. by rewrite !app_nil_r.
Qed.

(** What the object has to send, in the order of the flows. *)
Definition to_send (o : TCPPcapTestingLib) (k : TCPFlowTuple) : list (list byte) :=
  default [] (pkts_to_send <$> tcp_flows o !! k).
Definition pending (o : TCPPcapTestingLib) (ks : list TCPFlowTuple) : list (list byte) :=
  concat (map (to_send o) ks).

(** A packet [buf_process_helper] can parse. *)
Definition parsable (p : list byte) : Prop := ∃ vi hl tl sq fl, parsed p vi hl tl sq fl.

Lemma pending_other o k c ks : k ∉ ks → pending (set_flow k c o) ks = pending o ks.
Proof.
  intros Hk. unfold pending. f_equal. apply map_ext_in. intros k' Hin. unfold to_send. cbn.
  rewrite lookup_insert_ne; [done|]. intros ->. by apply Hk, list_elem_of_In.
Qed.

Lemma send_pending_run w o ks :
  w_sim_backend w = Live o → NoDup ks → (∀ k, k ∈ ks → is_Some (tcp_flows o !! k)) →
  Forall parsable (pending o ks) →
  match pending o ks with
  | [] => send_pending ks w = Done [] w []
  | p :: rest => ∃ k c c', send_pending ks w = Done p (live w (set_flow k c' o)) [] ∧ k ∈ ks ∧
      tcp_flows o !! k = Some c ∧ handshake_done c' = handshake_done c ∧
      pending (set_flow k c' o) ks = rest ∧ pkts_to_send c = p :: pkts_to_send c' ∧
      pkts_to_recv c' = pkts_to_recv c ∧ pkts_recved_buf c' = pkts_recved_buf c
  end.
Proof.
  intros Hw. induction ks as [|k ks IH]; intros Hnd Hin Hp; [done|].
  destruct (Hin k) as [c Hc]; [set_solver|]. apply NoDup_cons in Hnd as [Hk Hnd].
  change (pending o (k :: ks)) with (to_send o k ++ pending o ks) in Hp |- *. cbn [send_pending].
  assert (to_send o k = pkts_to_send c) as Hts by (unfold to_send; by rewrite Hc).
  pose proof (at_flow_id _ _ _ _ Hw Hc) as Hat.
  pose proof (with_flow_done k pkts_to_send_empty w o c _ _ _ eq_refl) as He. rewrite Hat in He.
  rewrite (bind_done_nil _ _ _ _ _ He), Hts in *.
  destruct (pkts_to_send c) as [|p q] eqn:Hq.
  - cbn [is_empty negb app] in *. specialize (IH Hnd ltac:(set_solver) Hp).
    destruct (pending o ks) as [|p rest]; [done|].
    destruct IH as (k' & c1 & c' & Hrun & Hk' & Hc1 & Hhs & Hrest & Hqs). exists k', c1, c'.
    split; [done|]. split; [set_solver|]. split; [done|]. split; [done|]. split; [|done].
    change (to_send (set_flow k' c' o) k ++ pending (set_flow k' c' o) ks = rest).
    unfold to_send. cbn. rewrite lookup_insert_ne, Hc by set_solver. cbn. by rewrite Hq.
  - cbn [is_empty negb app] in *. apply Forall_cons in Hp as [(vi & hl & tl & sq & fl & Hpp) _].
    destruct (buf_process_helper_parsed _ _ _ _ _ _ (set_pkts_to_send q c) Hpp) as (c' & Hb & _).
    destruct (buf_process_helper_queues _ _ _ _ _ Hb) as (Hhs & Hqg & Hqr & Hqs & _).
    exists k, c, c'. split.
    { rewrite <- Hat at 1. apply with_flow_done.
      erewrite bind_done_nil by (unfold get_pkts_to_send_front, pop_front; rewrite Hq; reflexivity).
      by rewrite (bind_done_nil _ _ _ _ _ Hb). }
    split; [set_solver|]. split; [done|]. split; [done|]. split; [|by rewrite Hqs, Hqr, Hqg, Hq].
    change (to_send (set_flow k c' o) k ++ pending (set_flow k c' o) ks = q ++ pending o ks).
    rewrite pending_other by done. f_equal. unfold to_send. cbn. by rewrite lookup_insert_eq.
Qed.

Lemma Tcp_get_eof `{FlowOrder} w o fr :
  frame_ok fr → w_sim_backend w = Live o → at_eof (pcap_file o) = true →
  Tcp_get_buf_fr_io fr w = send_pending (flow_order o) w.
Proof.
  intros (_ & Hfr & _) Hw He. unfold Tcp_get_buf_fr_io.
  destruct (rd_is_Some 1 14 (fr_buf fr)) as [vi Hvi]; [lia|].
  change (rd 1 14 (fr_buf fr)) with (ld 14 ip_ver_ihl (fr_buf fr)) in Hvi. rewrite Hvi.
  erewrite bind_done_nil by reflexivity.
  erewrite bind_done_nil by (unfold on_this, zoom; rewrite Hw, read_record_eof by done; reflexivity).
  cbv beta iota. change (0 <? 0) with false. cbv iota.
  assert (set_sim_backend (Live (set_pcap_file (pcap_file o) o)) w = w) as ->.
  { destruct o. by apply live_id. }
  erewrite bind_done_nil by (unfold this; rewrite Hw; reflexivity). done.
Qed.

(** ** The loop of [put_buf_on_io] ends *)

Lemma tcp_compare_bufs_ends {B} a b (w : bworld B) o :
  w_sim_backend w = Live o →
  ∃ tr, tcp_compare_bufs a b w = Done 0 w tr ∨
        tcp_compare_bufs a b w = Done 0 (set_sim_backend Dangling w) tr.
Proof.
  intros Hw. destruct (decide (length a = length b)) as [Hl|Hl].
  - eexists. left. by apply tcp_compare_bufs_same_size.
  - eexists. right. unfold tcp_compare_bufs. apply Nat.eqb_neq in Hl as ->. cbn [negb].
    unfold mbind, M_bind, printf, emit, finish_simulation. rewrite Hw. reflexivity.
Qed.

Lemma with_flow_dangling {A B} k (m : M TCPMimic A) (f : A → M (bworld TCPPcapTestingLib) B) w :
  w_sim_backend w = Dangling → (with_flow k m ≫= f) w = Stopped Undefined [].
Proof. intros Hw. apply bind_stopped. unfold with_flow, on_this. by rewrite Hw. Qed.

Lemma compare_pending_fueled `{FlowOrder} fuel w o k c :
  (length (pkts_to_recv c) < fuel)%nat → fueled (compare_pending fuel k (at_flow w o k c)).
Proof.
  revert c. induction fuel as [|fuel IH]; intros c Hf; [lia|]. cbn [compare_pending].
  rewrite (bind_done_nil _ _ _ _ _ (with_flow_done k pkts_to_recv_empty w o c _ _ _ eq_refl)).
  rewrite (bind_done_nil _ _ _ _ _ (with_flow_done k pkts_recved_empty w o c _ _ _ eq_refl)).
  destruct (pkts_to_recv c) as [|r rs] eqn:Hr; [apply fueled_done|].
  destruct (pkts_recved_buf c) as [|g gs] eqn:Hg; [apply fueled_done|].
  cbn [is_empty negb andb].
  erewrite bind_done_nil
    by (apply with_flow_done; unfold get_pkts_to_recv_front, pop_front; rewrite Hr; reflexivity).
  erewrite bind_done_nil
    by (apply with_flow_done; unfold get_pkts_recved_front, pop_front; simpl; rewrite Hg; reflexivity).
  match goal with |- context [at_flow w o k ?x] => set (c1 := x) end.
  simpl in Hf. assert (length (pkts_to_recv c1) < fuel)%nat as Hc1 by (simpl; lia).
  destruct (tcp_compare_bufs_ends r g (at_flow w o k c1) _ eq_refl) as (tr & [E|E]);
    apply fueled_bind; rewrite E; try apply fueled_done; intros a s' t [= _ <- _].
  - by apply IH.
  - destruct fuel as [|fuel]; [lia|]. cbn [compare_pending]. intros t'.
    by rewrite with_flow_dangling.
Qed.

Lemma fueled_with_flow {A} k (m : M TCPMimic A) w : (∀ c, fueled (m c)) → fueled (with_flow k m w).
Proof.
  intros Hm t. unfold with_flow, on_this. destruct (w_sim_backend w) as [|o|]; [done| |done].
  destruct (tcp_flows o !! k) as [c|]; [|done]. specialize (Hm c).
  destruct (m c) as [|why tr]; [done|]. intros [= -> ->]. by apply (Hm t).
Qed.

Lemma fueled_compare_bufs {B} a b (w : bworld B) : fueled (tcp_compare_bufs a b w).
Proof.
  unfold tcp_compare_bufs. apply fueled_bind; [apply fueled_done|]. intros ? w1 ? _.
  apply fueled_bind; [|intros; apply fueled_done]. case_match.
  - apply fueled_bind; [apply fueled_done|]. intros. apply fueled_bind; [apply fueled_done|].
    intros ? w2 ? _ t. unfold finish_simulation. by destruct (w_sim_backend w2).
  - rewrite compare_loop_mismatches. apply fueled_done.
Qed.

Lemma put_known_flow_fueled `{FlowOrder} w o k c p :
  w_sim_backend w = Live o → tcp_flows o !! k = Some c → fueled (put_known_flow k c p w).
Proof.
  intros Hw Hk. unfold put_known_flow.
  apply fueled_bind; [apply fueled_done|intros ? ? ? [= _ <- _]].
  rewrite <- (at_flow_id _ _ _ _ Hw Hk).
  rewrite (bind_done_nil _ _ _ _ _ (with_flow_done k pkts_to_recv_size w o c _ _ _ eq_refl)).
  apply fueled_bind; [apply fueled_done|intros ? ? ? [= _ <- _]].
  apply fueled_bind; [apply compare_pending_fueled; lia|].
  intros _ w2 t2 _. apply fueled_bind; [apply fueled_with_flow; intros; apply fueled_done|].
  intros [] w3 t3 _; (apply fueled_bind; [|intros ? w4 t4 _]).
  - apply fueled_done.
  - apply fueled_with_flow. intros. apply fueled_done.
  - apply fueled_with_flow. intros x t. unfold get_pkts_to_recv_front, pop_front. by case_match.
  - apply fueled_bind; [apply fueled_compare_bufs|intros; apply fueled_done].
Qed.

(** ** Properties, continued *)

(** C37: whatever the device sends and whatever state the backend is in, the
    comparison loop of [put_buf_on_io] ends: the fuel of the model is never
    used up. *)
Theorem Tcp_put_terminates `{FlowOrder} p (w : bworld TCPPcapTestingLib) :
  ∀ tr, put_buf_on_io p w ≠ Stopped OutOfFuel tr.
Proof.
  change (fueled (Tcp_put_buf_on_io p w)). unfold Tcp_put_buf_on_io.
  apply fueled_bind; [apply fueled_defined|]. intros vi w1 t1 _.
  apply fueled_bind; [apply fueled_done|]. intros inst w2 t2 _.
  apply fueled_bind; [apply fueled_defined|]. intros send w3 t3 _.
  apply fueled_bind; [apply fueled_defined|]. intros k w4 t4 _.
  apply fueled_bind; [intros t; unfold this; by destruct (w_sim_backend w4)|].
  intros o w5 t5 E. unfold this in E. destruct (w_sim_backend w4) as [|o'|] eqn:Hw; [done| |done].
  injection E as -> <- _. apply fueled_bind; [|intros; apply fueled_done].
  destruct (tcp_flows o !! k) as [c|] eqn:Hk; [|apply fueled_done].
  by apply (put_known_flow_fueled _ o).
Qed.

(** A packet of the trace the device should send is kept for its flow and
    nothing is returned; the flow is created on its first packet, in either
    direction; the specification gains one expected packet. *)
Theorem Tcp_get_expects `{FlowOrder} w o fr pkt k f' tr :
  next_record w o fr pkt false k f' tr →
  ∃ c o', get_buf_fr_io fr w = Done [] (live w o') (tr ++ [direction false]) ∧
    pcap_file o' = f' ∧ tcp_flows o' = <[k := c]> (tcp_flows o) ∧
    match tcp_flows o !! k with
    | Some c0 => ∀ s, implements s c0 → implements (spec_expect pkt s) c
    | None => implements {| expected := [pkt]; received := []; checked := 0 |} c
    end.
Proof.
  intros Hn. pose proof (Tcp_get_record_run _ _ _ _ _ _ _ _ Hn) as Hrun.
  simpl get_buf_fr_io. rewrite Hrun. destruct (tcp_flows o !! k) as [c|] eqn:Hc.
  - exists (set_pkts_to_recv (pkts_to_recv c ++ [pkt]) c), (set_flow k
      (set_pkts_to_recv (pkts_to_recv c ++ [pkt]) c) (set_pcap_file f' o)).
    change (known_flow_packet false pkt c)
      with (Done (S:=TCPMimic) (A:=list byte) [] (set_pkts_to_recv (pkts_to_recv c ++ [pkt]) c) []).
    unfold after. rewrite app_nil_r. split; [done|]. split; [done|]. split; [done|].
    intros s. apply expect_implements.
  - set (c := TCPMimic_new (fr_mimic fr) false).
    change (new_flow_packet false pkt c)
      with (Done (S:=TCPMimic) (A:=list byte) [] (set_pkts_to_recv (pkts_to_recv c ++ [pkt]) c) []).
    unfold after. rewrite app_nil_r. eexists _, _. split; [done|]. split; [done|]. split; [done|].
    unfold c, TCPMimic_new. destruct (fr_mimic fr) as [[[] ?] ?]. repeat split; simpl; lia.
Qed.

(** A segment of the trace on a flow that has an entry is not returned when it
    is read: it is queued, however far the connection is. *)
Theorem Tcp_get_defers `{FlowOrder} w o fr pkt k f' tr c :
  flows_inv o → next_record w o fr pkt true k f' tr → tcp_flows o !! k = Some c →
  get_buf_fr_io fr w =
  Done [] (live w (set_flow k (set_pkts_to_send (pkts_to_send c ++ [pkt]) c) (set_pcap_file f' o)))
       (tr ++ [direction true]).
Proof.
  intros (Hhs & _) Hn Hc. simpl get_buf_fr_io. rewrite (Tcp_get_record_run _ _ _ _ _ _ _ _ Hn), Hc.
  assert (known_flow_packet true pkt c
          = Done [] (set_pkts_to_send (pkts_to_send c ++ [pkt]) c) []) as ->.
  { unfold known_flow_packet. erewrite bind_done_nil by reflexivity. by rewrite (proj1 (Hhs k c Hc)). }
  unfold after. by rewrite app_nil_r.
Qed.

(** At the end of the file, polling sends every deferred packet once, in
    the order of each flow, and then nothing. *)
Theorem Tcp_drain `{FlowOrder} w o frs :
  w_sim_backend w = Live o → flows_inv o → at_eof (pcap_file o) = true →
  Forall frame_ok frs → Forall parsable (pending o (flow_order o)) →
  ∃ w', run_all (map get_buf_fr_io frs) w
    = Done (take (length frs) (pending o (flow_order o)) ++
            replicate (length frs - length (pending o (flow_order o))) []) w' [].
Proof.
  revert w o. induction frs as [|fr frs IH]; intros w o Hw Hinv He Hf Hp.
  { exists w. by rewrite take_0. }
  apply Forall_cons in Hf as [Hfr Hf]. pose proof Hinv as (H1 & H2 & H3).
  pose proof (send_pending_run w o (flow_order o) Hw H2 (λ k, proj1 (H3 k)) Hp) as Hs.
  rewrite <- (Tcp_get_eof w o fr) in Hs by done.
  cbn [map run_all]. destruct (pending o (flow_order o)) as [|p rest] eqn:Hpend.
  - destruct (IH w o) as (w' & Hrun); [done..|by rewrite Hpend|]. rewrite Hpend in Hrun.
    exists w'. change (get_buf_fr_io fr) with (Tcp_get_buf_fr_io fr).
    rewrite (bind_done_nil _ _ _ _ _ Hs), (bind_done_nil _ _ _ _ _ Hrun).
    rewrite take_nil. simpl. by rewrite Nat.sub_0_r.
  - destruct Hs as (k & c & c' & Hget & Hk & Hc & _ & Hrest & _).
    destruct (IH (live w (set_flow k c' o)) (set_flow k c' o)) as (w' & Hrun); [done| |done..| |].
    + by apply (flows_inv_get fr w o _ _ _ Hw Hinv Hget).
    + cbn [flow_order set_flow]. rewrite Hrest. by apply Forall_cons in Hp as [_ ?].
    + cbn [flow_order set_flow] in Hrun. rewrite Hrest in Hrun. exists w'.
      change (get_buf_fr_io fr) with (Tcp_get_buf_fr_io fr).
      by rewrite (bind_done_nil _ _ _ _ _ Hget), (bind_done_nil _ _ _ _ _ Hrun).
Qed.

(** C36: no connection ever gets past its handshake.  In every state that calls
    of [get_buf_fr_io] and [put_buf_on_io] reach from the constructor, whatever
    the memory of the contexts held: the handshake of no flow is done; so a
    segment of the trace for the device, on a flow that has an entry, is not
    returned when it is read but put behind the ones deferred on its flow, and
    the poll returns nothing; and once the trace is read to its end the polls
    return the deferred packets, if these have their headers, each once, flow by
    flow and on a flow in the order of the trace, and then nothing. *)
Theorem Tcp_reachable_defers `{FlowOrder} file (w : bworld TCPPcapTestingLib) o w' tr w1 o1 :
  TCPPcapTestingLib_new file w = Done o w' tr → tcp_reach (live w' o) w1 →
  w_sim_backend w1 = Live o1 →
  (∀ k c, tcp_flows o1 !! k = Some c → handshake_done c = false) ∧
  (∀ fr pkt k f' tr' c, next_record w1 o1 fr pkt true k f' tr' → tcp_flows o1 !! k = Some c →
     get_buf_fr_io fr w1 =
     Done [] (live w1 (set_flow k (set_pkts_to_send (pkts_to_send c ++ [pkt]) c) (set_pcap_file f' o1)))
       (tr' ++ [direction true])) ∧
  (∀ frs, at_eof (pcap_file o1) = true → Forall frame_ok frs → Forall parsable (pending o1 (flow_order o1)) →
     ∃ w2, run_all (map get_buf_fr_io frs) w1
       = Done (take (length frs) (pending o1 (flow_order o1)) ++
               replicate (length frs - length (pending o1 (flow_order o1))) []) w2 []).
Proof.
  intros Hnew Hr Ho1. apply new_inv in Hnew. apply reach_inv in Hr; [|done].
  unfold world_inv in Hr. rewrite Ho1 in Hr. split_and!.
  - intros k c Hk. by apply (proj1 Hr k c).
  - intros fr pkt k f' tr' c. by apply Tcp_get_defers.
  - intros frs. by apply Tcp_drain.
Qed.

(** The flow a packet of the trace is filed under depends on what the
    stack held before the packet was read: with the same world and the same
    packet, one stack files it under its own flow and another elsewhere. *)
Theorem Tcp_get_flow_from_stack :
  ∃ w o fr1 fr2 pkt k1 k2 f' tr,
    frame_ok fr1 ∧ frame_ok fr2 ∧
    next_record w o fr1 pkt false k1 f' tr ∧ next_record w o fr2 pkt false k2 f' tr ∧
    packet_flow (source_mac_addr (w_instance_state w)) pkt = Some k1 ∧ k1 ≠ k2.
Proof.
  set (o := {| pcap_file := Stream (pcap_pkthdr_enc (sample_hdr 54) ++ sample_out) 0 false 0;
               tcp_flows := ∅; flow_order := [] |}).
  set (buf x := replicate 14 Byte.x00 ++ x :: replicate (Z.to_nat 2033) Byte.x00).
  exists (sample_world (Live o)), o, (Frame (replicate 16 Byte.x00) (buf Byte.x45) (0, 0, 0, 0)
      (replicate 42 Byte.x00) (replicate 32 Byte.x00)),
    (Frame (replicate 16 Byte.x00) (buf Byte.x00) (0, 0, 0, 0)
      (replicate 42 Byte.x00) (replicate 32 Byte.x00)), sample_out, sample_flow.
  eexists _, _, _.
  split; [repeat split; vm_compute; reflexivity|].
  split; [repeat split; vm_compute; reflexivity|].
  split; [|split; [|split; [vm_compute; reflexivity|]]].
  - split; [reflexivity|]. eexists _, _. split; [vm_compute; reflexivity|].
    split; [lia|]. split; [vm_compute; reflexivity|]. split; [vm_compute; reflexivity|].
    exists 0x45. split; vm_compute; reflexivity.
  - split; [reflexivity|]. eexists _, _. split; [vm_compute; reflexivity|].
    split; [lia|]. split; [vm_compute; reflexivity|]. split; [vm_compute; reflexivity|].
    exists 0. split; vm_compute; reflexivity.
  - vm_compute. discriminate.
Qed.

(** ** Concrete instances *)

Definition sample_stack : frame :=
  Frame (replicate 16 Byte.x00) (replicate 14 Byte.x00 ++ Byte.x45 ::
                                 replicate (Z.to_nat 2033) Byte.x00) (1, 2, 3, 4)
    (replicate 42 Byte.x00) (replicate 32 Byte.x00).

(** A packet to the device, of the flow [sample_flow] seen from the peer. *)
Definition sample_in : list byte :=
  sample_packet sample_mac (htons 42) 2 1 4 3 (htonl 500) (htonl 1001) TCP_ACK [Byte.x68; Byte.x69].

Definition with_trace (pkt : list byte) (o : TCPPcapTestingLib) : TCPPcapTestingLib :=
  set_pcap_file (Stream (pcap_pkthdr_enc (sample_hdr (Z.of_nat (length pkt))) ++ pkt) 0 false 0) o.

Lemma sample_next_out :
  let o := with_trace sample_out (sample_tcp [] []) in
  next_record (sample_world (Live o)) o sample_stack sample_out false sample_flow
    (Stream (content (pcap_file o)) 70 false 0) [Printf "Packet len is %d\n" [ANum 54]].
Proof.
  split; [reflexivity|]. eexists _, _. split; [vm_compute; reflexivity|].
  split; [lia|]. split; [vm_compute; reflexivity|]. split; [vm_compute; reflexivity|].
  exists 0x45. split; vm_compute; reflexivity.
Defined.

Lemma sample_next_in :
  let o := with_trace sample_in (sample_tcp [] []) in
  next_record (sample_world (Live o)) o sample_stack sample_in true sample_flow
    (Stream (content (pcap_file o)) 72 false 0) [Printf "Packet len is %d\n" [ANum 56]].
Proof.
  split; [reflexivity|]. eexists _, _. split; [vm_compute; reflexivity|].
  split; [lia|]. split; [vm_compute; reflexivity|]. split; [vm_compute; reflexivity|].
  exists 0x45. split; vm_compute; reflexivity.
Defined.

Lemma sample_tcp_inv f sends recvs : flows_inv (set_pcap_file f (sample_tcp sends recvs)).
Proof.
  split; [|split].
  - intros k c Hk. cbn in Hk. apply lookup_singleton_Some in Hk as [_ <-].
    exact (context_ok_new (1, 2, 3, 4)).
  - repeat constructor. apply not_elem_of_nil.
  - intros k. cbn [tcp_flows flow_order sample_tcp set_pcap_file].
    rewrite list_elem_of_singleton. split.
    + intros ->. eexists. apply lookup_singleton_eq.
    + by intros [c [<- _]%lookup_singleton_Some].
Qed.

Lemma Tcp_get_expects_witness :
  let o := with_trace sample_out (sample_tcp [] []) in
  let w := sample_world (Live o) in
  ∃ c o', get_buf_fr_io (DPITestingLib := @Tcp_backend last_first) sample_stack w
    = Done [] (live w o') [Printf "Packet len is %d\n" [ANum 54]; direction false] ∧
    pcap_file o' = Stream (content (pcap_file o)) 70 false 0 ∧
    tcp_flows o' = <[sample_flow := c]> (tcp_flows o) ∧
    match tcp_flows o !! sample_flow with
    | Some c0 => ∀ s, implements s c0 → implements (spec_expect sample_out s) c
    | None => implements {| expected := [sample_out]; received := []; checked := 0 |} c
    end.
Proof.
  intros o w.
  exact (@Tcp_get_expects last_first w o sample_stack sample_out sample_flow
           (Stream (content (pcap_file o)) 70 false 0) [Printf "Packet len is %d\n" [ANum 54]]
           sample_next_out).
Defined.

(** A trace with two segments of one flow to the device: the state after the
    first poll has the flow, and the second segment is held back. *)
Definition two_segments : list byte :=
  replicate 24 Byte.x00 ++ (pcap_pkthdr_enc (sample_hdr 56) ++ sample_in) ++ (pcap_pkthdr_enc (sample_hdr 56) ++ sample_in).
Definition two_start : TCPPcapTestingLib :=
  {| pcap_file := Stream two_segments 24 false 0; tcp_flows := ∅; flow_order := [] |}.
Definition two_polled : bworld TCPPcapTestingLib :=
  match get_buf_fr_io (DPITestingLib := @Tcp_backend last_first) sample_stack (sample_world (Live two_start)) with
  | Done _ w _ => w
  | Stopped _ _ => sample_world Null
  end.
Definition two_object : TCPPcapTestingLib :=
  match w_sim_backend two_polled with Live o => o | _ => two_start end.

Lemma Tcp_reachable_defers_witness :
  ∃ c, tcp_flows two_object !! sample_flow = Some c ∧ handshake_done c = false ∧
    get_buf_fr_io (DPITestingLib := @Tcp_backend last_first) sample_stack two_polled =
    Done [] (live two_polled (set_flow sample_flow (set_pkts_to_send (pkts_to_send c ++ [sample_in]) c)
               (set_pcap_file (Stream two_segments 168 false 0) two_object)))
      [Printf "Packet len is %d\n" [ANum 56]; direction true].
Proof.
  assert (Hr : @tcp_reach last_first (sample_world (Live two_start)) two_polled).
  { apply (reach_get _ sample_stack (sample_world (Live two_start)) sample_in _
             [Printf "Packet len is %d\n" [ANum 56]; direction true] (reach_start _)).
    vm_compute. reflexivity. }
  assert (Hc : ∃ c, tcp_flows two_object !! sample_flow = Some c) by (eexists; vm_compute; reflexivity).
  destruct Hc as [c Hc]. exists c.
  destruct (@Tcp_reachable_defers last_first (Some (Stream two_segments 0 false 0)) (sample_world Null) two_start
              (sample_world Null) [] two_polled two_object) as (H1 & H2 & _).
  - vm_compute. reflexivity.
  - exact Hr.
  - vm_compute. reflexivity.
  - split; [exact Hc|]. split; [by apply (H1 sample_flow)|].
    apply (H2 sample_stack sample_in sample_flow (Stream two_segments 168 false 0)
             [Printf "Packet len is %d\n" [ANum 56]] c); [|exact Hc].
    split; [vm_compute; reflexivity|]. eexists _, _. split; [vm_compute; reflexivity|].
    split; [lia|]. split; [vm_compute; reflexivity|]. split; [vm_compute; reflexivity|].
    exists 0x45. split; vm_compute; reflexivity.
Defined.

Lemma Tcp_get_defers_witness :
  let o := with_trace sample_in (sample_tcp [] []) in
  let w := sample_world (Live o) in
  get_buf_fr_io (DPITestingLib := @Tcp_backend last_first) sample_stack w =
  Done [] (live w (set_flow sample_flow (set_pkts_to_send [sample_in] sample_mimic)
                     (set_pcap_file (Stream (content (pcap_file o)) 72 false 0) o)))
       [Printf "Packet len is %d\n" [ANum 56]; direction true].
Proof.
  intros o w.
  exact (@Tcp_get_defers last_first w o sample_stack sample_in sample_flow _ _ sample_mimic
           (sample_tcp_inv _ [] []) sample_next_in eq_refl).
Defined.

Lemma Tcp_drain_witness :
  let o := set_pcap_file (Stream [] 0 true 0) (sample_tcp [sample_in] []) in
  ∃ w', run_all (map (get_buf_fr_io (DPITestingLib := @Tcp_backend last_first))
                   [sample_stack; sample_stack]) (sample_world (Live o))
    = Done [sample_in; []] w' [].
Proof.
  intros o. apply (@Tcp_drain last_first (sample_world (Live o)) o [sample_stack; sample_stack]).
  - reflexivity.
  - apply sample_tcp_inv.
  - reflexivity.
  - repeat constructor.
  - repeat constructor. exists 0x45, 0x50, (htons 42), (htonl 500), TCP_ACK.
    split; vm_compute; reflexivity.
Defined.
