(* ===== verification/Arp.v ===== *)
(** Arp: [handle_arp] of sim_dpi/testing_utils.cpp, against any backend. *)

From S2P Require Import Prelude Words Headers Backend PcapTrace.

Definition set_instance_state {B} (st : sock_state) (w : bworld B) : bworld B :=
  BWorld st (w_now w) (w_sim_backend w).

(** Stores into a buffer, in order: [memcpy]s and assignments to fields. *)
Fixpoint stores (ops : list (nat * list byte)) (buf : list byte) : option (list byte) :=
  match ops with
  | [] => Some buf
  | (off, bs) :: ops' => buf' ← wr_bytes off bs buf; stores ops' buf'
  end.

(** The address of a field [f] of a struct at [base], with the bytes stored. *)
Definition at_field (base : nat) (f : field) (bs : list byte) : nat * list byte :=
  (base + f_off f, bs)%nat.

(** The four bytes of [source_addr.sin_addr.s_addr] in memory. *)
Definition s_addr_bytes (s : sock_state) : list byte := le_split 4 (s_addr (source_addr s)).

(** Where [struct ether_arp] starts in the frame of the reply. *)
Definition resp_arp_resp : nat := sizeof_eth_hdr.

(** [arp_req] points [base] bytes into [buf]; [resp_buffer] is the local array
    before it is written. *)
Definition handle_arp `{DPITestingLib B} (resp_buffer : list byte) (buf : list byte) (base : nat)
    : M (bworld B) unit :=
  state ← gets w_instance_state;
  ar_pro_v ← defined (ld base ar_pro buf);
  ar_op_v ← defined (ld base ar_op buf);
  if negb (ntohs ar_pro_v =? ETHERTYPE_IP) || negb (ntohs ar_op_v =? ARPOP_REQUEST) then
    printf "ARP is not for IPv4 or is not a request\n" []
  else
    tpa ← defined (ld_bytes base arp_tpa buf);
    if negb (bool_decide (tpa = s_addr_bytes state)) then
      printf "ARP not for our IP addr\n" []
    else
      sha ← defined (ld_bytes base arp_sha buf);
      spa ← defined (ld_bytes base arp_spa buf);
      modify (set_instance_state (set_dest_mac_addr sha state));;
      resp_vec ← defined (stores
        [ at_field 0 eth_dst_addr sha;
          at_field 0 eth_src_addr (source_mac_addr state);
          at_field 0 eth_type (le_split 2 (htons ETHERTYPE_ARP));
          at_field resp_arp_resp ar_hrd (le_split 2 (htons ARPHRD_ETHER));
          at_field resp_arp_resp ar_pro (le_split 2 (htons ETHERTYPE_IP));
          at_field resp_arp_resp ar_hln (le_split 1 6);
          at_field resp_arp_resp ar_pln (le_split 1 4);
          at_field resp_arp_resp ar_op (le_split 2 (htons ARPOP_REPLY));
          at_field resp_arp_resp arp_sha (source_mac_addr state);
          at_field resp_arp_resp arp_spa (s_addr_bytes state);
          at_field resp_arp_resp arp_tha sha;
          at_field resp_arp_resp arp_tpa spa ] resp_buffer);
      bytes ← put_buf_on_io resp_vec;
      printf "ARP response sent. Length: %d\n" [ANum bytes].

(** ** Specification: ARP over Ethernet, RFC 826 *)

Inductive arp_op := ArpRequest | ArpReply.
Record arp_packet := {
  arp_oper : arp_op;
  arp_eth_dst : list byte;
  arp_eth_src : list byte;
  arp_sender_mac : list byte;
  arp_sender_ip : list byte;
  arp_target_mac : list byte;
  arp_target_ip : list byte }.

Definition arp_opcode (o : arp_op) : Z :=
  match o with ArpRequest => ARPOP_REQUEST | ArpReply => ARPOP_REPLY end.

(** The frame of an ARP packet on the wire. *)
Definition arp_frame (a : arp_packet) : list byte :=
  arp_eth_dst a ++ arp_eth_src a ++ be_split 2 ETHERTYPE_ARP ++
  be_split 2 ARPHRD_ETHER ++ be_split 2 ETHERTYPE_IP ++ be_split 1 6 ++ be_split 1 4 ++
  be_split 2 (arp_opcode (arp_oper a)) ++
  arp_sender_mac a ++ arp_sender_ip a ++ arp_target_mac a ++ arp_target_ip a.

Definition arp_packet_ok (a : arp_packet) : Prop :=
  length (arp_eth_dst a) = 6%nat ∧ length (arp_eth_src a) = 6%nat ∧
  length (arp_sender_mac a) = 6%nat ∧ length (arp_sender_ip a) = 4%nat ∧
  length (arp_target_mac a) = 6%nat ∧ length (arp_target_ip a) = 4%nat.

(** The answer of a host with address [mac], [ip] to the request [a]. *)
Definition arp_answer (mac ip : list byte) (a : arp_packet) : arp_packet :=
  {| arp_oper := ArpReply; arp_eth_dst := arp_sender_mac a; arp_eth_src := mac;
     arp_sender_mac := mac; arp_sender_ip := ip;
     arp_target_mac := arp_sender_mac a; arp_target_ip := arp_sender_ip a |}.

(** ** Lemmas *)


(** The offset each chunk of a concatenation starts at. *)
Fixpoint layout (off : nat) (chunks : list (list byte)) : list (nat * list byte) :=
  match chunks with
  | [] => []
  | c :: chunks' => (off, c) :: layout (off + length c) chunks'
  end.

Lemma stores_layout pre chunks buf :
  length buf = length (concat chunks) →
  stores (layout (length pre) chunks) (pre ++ buf) = Some (pre ++ concat chunks).
Proof.
  revert pre buf. induction chunks as [|c chunks IH]; intros pre buf Hl; simpl in *.
  { by destruct buf. }
  rewrite length_app in Hl.
  rewrite <- (take_drop (length c) buf).
  rewrite (wr_bytes_app _ pre (take (length c) buf) _ c) by len. cbn [mbind option_bind].
  rewrite (app_assoc pre c), (app_assoc pre c (concat chunks)), <- (IH (pre ++ c) (drop (length c) buf)) by len.
  by rewrite length_app.
Qed.

Lemma arp_frame_length a : arp_packet_ok a → length (arp_frame a) = 42%nat.
Proof. intros (? & ? & ? & ? & ? & ?). unfold arp_frame, be_split. len. Qed.

(** An ARP packet in a buffer that holds its frame, and may hold more. *)
Lemma ld_arp a rest f bs :
  arp_packet_ok a → (14 + f_off f + f_len f ≤ 42)%nat →
  rd_bytes (f_len f) (14 + f_off f) (arp_frame a) = Some bs →
  ld_bytes 14 f (arp_frame a ++ rest) = Some bs.
Proof.
  intros Ha Hf Hr. unfold ld_bytes. rewrite rd_bytes_app_l; [done|].
  rewrite arp_frame_length by done. lia.
Qed.

(** The fields the handler loads from a frame. *)
Lemma arp_fields a rest :
  arp_packet_ok a →
  ld 14 ar_pro (arp_frame a ++ rest) = Some (htons ETHERTYPE_IP) ∧
  ld 14 ar_op (arp_frame a ++ rest) = Some (htons (arp_opcode (arp_oper a))) ∧
  ld_bytes 14 arp_tpa (arp_frame a ++ rest) = Some (arp_target_ip a) ∧
  ld_bytes 14 arp_sha (arp_frame a ++ rest) = Some (arp_sender_mac a) ∧
  ld_bytes 14 arp_spa (arp_frame a ++ rest) = Some (arp_sender_ip a).
Proof.
  intros Ha. pose proof Ha as (H1 & H2 & H3 & H4 & H5 & H6).
  assert (cut : ∀ f pre bs post, arp_frame a = pre ++ bs ++ post →
    (14 + f_off f)%nat = length pre → f_len f = length bs →
    ld_bytes 14 f (arp_frame a ++ rest) = Some bs).
  { intros f pre bs post E Ho Hl. unfold ld_bytes. rewrite E, <- !app_assoc.
    by apply rd_bytes_app. }
  assert (cut' : ∀ f pre v post, arp_frame a = pre ++ be_split 2 v ++ post →
    (14 + f_off f)%nat = length pre → f_len f = 2%nat →
    ld 14 f (arp_frame a ++ rest) = Some (htons v)).
  { intros f pre v post E Ho Hl. pose proof (cut f pre (be_split 2 v) post E Ho) as Hc.
    unfold ld, rd. unfold ld_bytes in Hc. rewrite Hc by (unfold be_split; len). done. }
  set (p1 := arp_eth_dst a ++ arp_eth_src a ++ be_split 2 ETHERTYPE_ARP ++ be_split 2 ARPHRD_ETHER).
  set (p2 := be_split 2 ETHERTYPE_IP ++ be_split 1 6 ++ be_split 1 4).
  set (o := be_split 2 (arp_opcode (arp_oper a))).
  assert (length p1 = 16%nat) as L1 by (unfold p1, be_split; len).
  assert (length p2 = 4%nat) as L2 by (unfold p2, be_split; len).
  assert (length o = 2%nat) as L3 by (unfold o, be_split; len).
  assert (arp_frame a = p1 ++ p2 ++ o ++ arp_sender_mac a ++ arp_sender_ip a ++
                        arp_target_mac a ++ arp_target_ip a ++ []) as E.
  { unfold arp_frame, p1, p2, o. by rewrite app_nil_r, <- !app_assoc. }
  split; [eapply (cut' ar_pro p1); [rewrite E; unfold p2; by rewrite <- !app_assoc|simpl; lia|done]|].
  split; [eapply (cut' ar_op (p1 ++ p2)); [rewrite E; by rewrite <- !app_assoc|simpl; len|done]|].
  split; [eapply (cut arp_tpa (p1 ++ p2 ++ o ++ arp_sender_mac a ++ arp_sender_ip a ++ arp_target_mac a));
          [rewrite E; by rewrite <- !app_assoc|simpl; len|done]|].
  split; [eapply (cut arp_sha (p1 ++ p2 ++ o)); [rewrite E; by rewrite <- !app_assoc|simpl; len|done]|].
  eapply (cut arp_spa (p1 ++ p2 ++ o ++ arp_sender_mac a));
    [rewrite E; by rewrite <- !app_assoc|simpl; len|done].
Qed.

(** The reply the handler builds. *)
Lemma arp_reply_stores mac ip sha spa resp_buffer :
  length mac = 6%nat → length ip = 4%nat → length sha = 6%nat → length spa = 4%nat →
  length resp_buffer = 42%nat →
  stores
    [ at_field 0 eth_dst_addr sha; at_field 0 eth_src_addr mac;
      at_field 0 eth_type (le_split 2 (htons ETHERTYPE_ARP));
      at_field resp_arp_resp ar_hrd (le_split 2 (htons ARPHRD_ETHER));
      at_field resp_arp_resp ar_pro (le_split 2 (htons ETHERTYPE_IP));
      at_field resp_arp_resp ar_hln (le_split 1 6);
      at_field resp_arp_resp ar_pln (le_split 1 4);
      at_field resp_arp_resp ar_op (le_split 2 (htons ARPOP_REPLY));
      at_field resp_arp_resp arp_sha mac; at_field resp_arp_resp arp_spa ip;
      at_field resp_arp_resp arp_tha sha; at_field resp_arp_resp arp_tpa spa ] resp_buffer
  = Some (arp_frame {| arp_oper := ArpReply; arp_eth_dst := sha; arp_eth_src := mac;
                       arp_sender_mac := mac; arp_sender_ip := ip;
                       arp_target_mac := sha; arp_target_ip := spa |}).
Proof.
  intros Hm Hi Hs Hp Hl.
  pose proof (stores_layout []
    [ sha; mac; le_split 2 (htons ETHERTYPE_ARP); le_split 2 (htons ARPHRD_ETHER);
      le_split 2 (htons ETHERTYPE_IP); le_split 1 6; le_split 1 4;
      le_split 2 (htons ARPOP_REPLY); mac; ip; sha; spa ] resp_buffer) as H.
  cbn [layout length app concat] in H.
  rewrite !length_app, !le_split_length, Hm, Hi, Hs, Hp in H. cbn [length Nat.add] in H.
  rewrite Hl in H. specialize (H eq_refl). cbn [app] in H. unfold at_field. cbn [f_off Nat.add].
  etransitivity; [exact H|]. f_equal. rewrite app_nil_r. unfold arp_frame. cbn. reflexivity.
Qed.

Section Run.
Context `{DPITestingLib B}.

Lemma handle_arp_run resp_buffer a rest (w : bworld B) n w' tr :
  let st := w_instance_state w in
  arp_packet_ok a → arp_oper a = ArpRequest → arp_target_ip a = s_addr_bytes st →
  length (source_mac_addr st) = 6%nat → length resp_buffer = 42%nat →
  put_buf_on_io (arp_frame (arp_answer (source_mac_addr st) (s_addr_bytes st) a))
    (set_instance_state (set_dest_mac_addr (arp_sender_mac a) st) w) = Done n w' tr →
  handle_arp resp_buffer (arp_frame a ++ rest) 14 w
  = Done tt w' (tr ++ [Printf "ARP response sent. Length: %d\n" [ANum n]]).
Proof.
  intros st Ha Hop Hip Hmac Hrb Hput. pose proof Ha as (H1 & H2 & H3 & H4 & H5 & H6).
  destruct (arp_fields a rest Ha) as (E1 & E2 & E3 & E4 & E5).
  unfold handle_arp. erewrite bind_done_nil by reflexivity. fold st.
  rewrite E1, E2, Hop. do 2 (erewrite bind_done_nil by reflexivity).
  change (negb (ntohs (htons ETHERTYPE_IP) =? ETHERTYPE_IP)
          || negb (ntohs (htons (arp_opcode ArpRequest)) =? ARPOP_REQUEST)) with false.
  cbv iota. rewrite E3, E4, E5. erewrite bind_done_nil by reflexivity.
  rewrite bool_decide_eq_true_2 by done. cbn [negb].
  do 3 (erewrite bind_done_nil by reflexivity).
  rewrite (arp_reply_stores _ _ _ _ _ Hmac) by (done || unfold s_addr_bytes; len).
  erewrite bind_done_nil by reflexivity.
  rewrite (bind_done _ _ _ _ _ _ Hput). done.
Qed.
End Run.

(** ** Properties *)

Section Properties.
Context `{DPITestingLib B}.

(** An ARP request for the simulated host's address is answered as RFC
    826 says: the reply, from the host to the requester, is put on the
    backend once, and the requester's address becomes the peer address. *)
Theorem handle_arp_answers resp_buffer a rest (w : bworld B) n w' tr :
  let st := w_instance_state w in
  arp_packet_ok a → arp_oper a = ArpRequest → arp_target_ip a = s_addr_bytes st →
  length (source_mac_addr st) = 6%nat → length resp_buffer = 42%nat →
  put_buf_on_io (arp_frame (arp_answer (source_mac_addr st) (s_addr_bytes st) a))
    (set_instance_state (set_dest_mac_addr (arp_sender_mac a) st) w) = Done n w' tr →
  handle_arp resp_buffer (arp_frame a ++ rest) 14 w
  = Done tt w' (tr ++ [Printf "ARP response sent. Length: %d\n" [ANum n]]).
Proof. apply handle_arp_run. Qed.

(** Every other ARP packet, a reply or a request for another host, is
    ignored: nothing is sent and no state changes. *)
Theorem handle_arp_ignores resp_buffer a rest (w : bworld B) :
  arp_packet_ok a →
  arp_oper a = ArpReply ∨ arp_target_ip a ≠ s_addr_bytes (w_instance_state w) →
  ∃ msg, handle_arp resp_buffer (arp_frame a ++ rest) 14 w = Done tt w [Printf msg []].
Proof.
  intros Ha Hcase. destruct (arp_fields a rest Ha) as (E1 & E2 & E3 & E4 & E5).
  unfold handle_arp. erewrite bind_done_nil by reflexivity.
  rewrite E1, E2. do 2 (erewrite bind_done_nil by reflexivity).
  destruct (arp_oper a) eqn:Hop; [|by eexists].
  destruct Hcase as [|Hip]; [done|].
  change (negb (ntohs (htons ETHERTYPE_IP) =? ETHERTYPE_IP)
          || negb (ntohs (htons (arp_opcode ArpRequest)) =? ARPOP_REQUEST)) with false.
  cbv iota. rewrite E3. erewrite bind_done_nil by reflexivity.
  rewrite bool_decide_eq_false_2 by done. by eexists.
Qed.
End Properties.

(** ** Concrete instances, with the trace backend of PcapTrace *)

Definition sample_request : arp_packet :=
  {| arp_oper := ArpRequest; arp_eth_dst := replicate 6 Byte.xff;
     arp_eth_src := replicate 6 Byte.x11; arp_sender_mac := replicate 6 Byte.x11;
     arp_sender_ip := [Byte.xc0; Byte.x00; Byte.x00; Byte.x01];
     arp_target_mac := replicate 6 Byte.x00;
     arp_target_ip := [Byte.xc0; Byte.x00; Byte.x00; Byte.x02] |}.

Definition sample_arp_world : bworld PcapTestingLib :=
  sample_world (Live {| send_pkts := []; recv_pkts := [] |}).

Lemma handle_arp_answers_witness :
  handle_arp (replicate 42 Byte.x00) (arp_frame sample_request ++ []) 14 sample_arp_world
  = Done tt (set_instance_state (set_dest_mac_addr (replicate 6 Byte.x11)
               (w_instance_state sample_arp_world)) sample_arp_world)
      [Printf "got a packet not in the trace\n" [];
       Printf "ARP response sent. Length: %d\n" [ANum 42]].
Proof.
  apply (handle_arp_answers (replicate 42 Byte.x00) sample_request [] sample_arp_world 42
           _ [Printf "got a packet not in the trace\n" []]); vm_compute; auto 10.
Defined.

Lemma handle_arp_ignores_witness :
  ∃ msg, handle_arp (replicate 42 Byte.x00)
    (arp_frame (arp_answer sample_mac [Byte.x01; Byte.x01; Byte.x01; Byte.x01] sample_request) ++ [])
    14 sample_arp_world
  = Done tt sample_arp_world [Printf msg []].
Proof. apply handle_arp_ignores; [repeat split|left]; reflexivity. Defined.
