(* ===== verification/NetworkSide.v ===== *)
(** NetworkSide: sim_dpi/sim_network_side_queue.cpp, the DPI functions the
    simulated MAC calls: [get_data] moves one beat of a packet of the backend
    to the device, [put_data] gathers the beats of the device into a packet
    for the backend. *)

From S2P Require Import Prelude Words Headers Backend PcapTrace FileIO TcpTrace TcpMimic Arp.

(** ** State *)

(** What [rx_data_if.buffer] points to. *)
Inductive heap_ptr :=
| NullPtr
| Alloc (bytes : list byte)
| Freed.

Record rx_data_interface_struct := {
  rx_buffer : heap_ptr;
  rx_buffer_len : Z;
  rx_buffer_pos : Z }.

(** The globals of the file; the unused [buffer_len] and [buffer_pos] of
    [tx_data_if] are left out. *)
Record net (B : Type) := Net {
  n_world : bworld B;
  rx_data_if : rx_data_interface_struct;
  tx_buffer : list byte }.
Arguments Net {B} _ _ _.
Arguments n_world {B} _.
Arguments rx_data_if {B} _.
Arguments tx_buffer {B} _.

Definition set_n_world {B} (w : bworld B) (s : net B) : net B := Net w (rx_data_if s) (tx_buffer s).
Definition set_rx {B} (rx : rx_data_interface_struct) (s : net B) : net B :=
  Net (n_world s) rx (tx_buffer s).
Definition set_tx_buffer {B} (tx : list byte) (s : net B) : net B :=
  Net (n_world s) (rx_data_if s) tx.

(** A call of the backend. *)
Definition on_world {B A} (m : M (bworld B) A) : M (net B) A := zoom n_world set_n_world m.

(** Bytes of a beat. *)
Definition MAC_BYTES : nat := Z.to_nat (Z.shiftr MAC_INTERFACE_W 3).

(** [rx_data_if.buffer[i]] *)
Definition rx_byte (rx : rx_data_interface_struct) (i : Z) : option byte :=
  match rx_buffer rx with
  | Alloc bytes => if i <? 0 then None else bytes !! Z.to_nat i
  | _ => None
  end.

(** [free(rx_data_if.buffer)] *)
Definition free_rx (rx : rx_data_interface_struct) : option rx_data_interface_struct :=
  match rx_buffer rx with
  | NullPtr => Some rx
  | Alloc _ => Some {| rx_buffer := Freed; rx_buffer_len := rx_buffer_len rx;
                       rx_buffer_pos := rx_buffer_pos rx |}
  | Freed => None
  end.

(** ** RX path *)

Section Code.
Context `{DPITestingLib B}.

(** [recv_from_socket] *)
Definition recv_from_socket (fr : frame) : M (net B) Z :=
  pkt_buf ← on_world (get_buf_fr_io fr);
  let buf_len := s32 (Z.of_nat (length pkt_buf)) in
  if buf_len =? 0 then mret 0
  else
    ether_type ← defined (ld 0 eth_type pkt_buf);
    if ntohs ether_type =? ETHERTYPE_ARP then
      printf "Got ARP\n" [];;
      on_world (handle_arp (fr_resp fr) pkt_buf sizeof_eth_hdr);;
      mret 0
    else if negb (ntohs ether_type =? ETHERTYPE_IP) then mret 0
    else
      tot_len ← defined (ld 14 ip_total_length pkt_buf);
      let buffer_len := ntohs tot_len + Z.of_nat sizeof_eth_hdr in
      bytes ← defined (rd_bytes (Z.to_nat buffer_len) 0 pkt_buf);
      modify (set_rx {| rx_buffer := Alloc bytes; rx_buffer_len := buffer_len;
                        rx_buffer_pos := 0 |});;
      printf "Buffer len: %d\n" [ANum (s32 buffer_len)];;
      mret (s32 buffer_len).

(** The loop that copies into the vector, from its last byte down: [n] is
    [i + 1].  It ends when the buffer or the vector is exhausted. *)
Fixpoint copy_loop (n : nat) (buffer_copy_ptr : list byte) : M (net B) (nat * list byte) :=
  match n with
  | O => mret (O, buffer_copy_ptr)
  | S i =>
      rx ← gets rx_data_if;
      if rx_buffer_pos rx <? rx_buffer_len rx then
        x ← defined (rx_byte rx (rx_buffer_pos rx));
        modify (set_rx {| rx_buffer := rx_buffer rx; rx_buffer_len := rx_buffer_len rx;
                          rx_buffer_pos := u64 (rx_buffer_pos rx + 1) |});;
        copy_loop i (<[i := x]> buffer_copy_ptr)
      else mret (n, buffer_copy_ptr)
  end.

(** The loop that pads the rest of the vector with zeros. *)
Fixpoint pad_loop (n : nat) (buffer_copy_ptr : list byte) : list byte :=
  match n with
  | O => buffer_copy_ptr
  | S i => pad_loop i (<[i := Byte.x00]> buffer_copy_ptr)
  end.

Fixpoint print_bytes {S} (bs : list byte) : M S unit :=
  match bs with
  | [] => mret tt
  | b :: bs' => printf "%hhx " [byte_num b];; print_bytes bs'
  end.

(** The part of [get_data] after a packet is in the buffer. *)
Definition drive_beat (fr : frame) : M (net B) unit :=
  '(n, vec) ← copy_loop MAC_BYTES (fr_vec fr);
  rx ← gets rx_data_if;
  let padbytes := Z.of_nat n in
  let last := rx_buffer_pos rx =? rx_buffer_len rx in
  let buffer_data := pad_loop n vec in
  printf "Buffer is: " [];;
  print_bytes buffer_data;;
  printf "\n" [];;
  emit (DriveRxIf true buffer_data last padbytes);;
  rx ← gets rx_data_if;
  if rx_buffer_len rx <=? rx_buffer_pos rx then
    rx' ← defined (free_rx rx);
    modify (set_rx rx')
  else mret tt.

(** [get_data]; the index of the loop of zeros goes up, each byte once. *)
Definition get_data (fr : frame) : M (net B) unit :=
  rx ← gets rx_data_if;
  if rx_buffer_len rx <=? rx_buffer_pos rx then
    status ← recv_from_socket fr;
    if status =? 0 then
      emit (DriveRxIf false (replicate MAC_BYTES Byte.x00) false 0)
    else drive_beat fr
  else drive_beat fr.

(** ** TX path *)

(** [send_on_socket] *)
Definition send_on_socket : M (net B) unit :=
  buffer ← gets tx_buffer;
  let buffer_len := u32 (Z.of_nat (length buffer)) in
  printf "========Outgoing packet========\n" [];;
  printf "Length: %d\n" [ANum (s32 buffer_len)];;
  bytes ← on_world (put_buf_on_io buffer);
  printf "Bytes sent: %d\n" [ANum bytes];;
  printf "===============================\n" [];;
  modify (set_tx_buffer []).

(** The loop that pushes the vector backwards: [n] is [i + 1].  With
    negative [dpi_padbytes] it would go on below the vector. *)
Fixpoint push_loop (n : nat) (dpi_padbytes : Z) (dpi_vector : list byte) : M (net B) unit :=
  match n with
  | O => if dpi_padbytes <? 0 then stop Undefined else mret tt
  | S i =>
      if dpi_padbytes <=? Z.of_nat i then
        x ← defined (dpi_vector !! i);
        printf "%hhx " [byte_num x];;
        modify (λ s, set_tx_buffer (tx_buffer s ++ [x]) s);;
        push_loop i dpi_padbytes dpi_vector
      else mret tt
  end.

(** [put_data] *)
Definition put_data (dpi_vector : list byte) (last : bool) (padbytes : Z) : M (net B) unit :=
  let dpi_padbytes := if last then padbytes else 0 in
  (if last then printf "Padbytes is: %d\n" [ANum dpi_padbytes] else mret tt);;
  printf "Putting data in vector. Buffer: " [];;
  push_loop MAC_BYTES dpi_padbytes dpi_vector;;
  printf "\n" [];;
  if last then send_on_socket else mret tt.
End Code.

(** ** The beats of a packet

    The wire order of the DPI vector: the first byte of the packet is the most
    significant one, the rest is padding. *)

Definition beat_data (chunk : list byte) : list byte :=
  replicate (MAC_BYTES - length chunk) Byte.x00 ++ reverse chunk.

Record beat := Beat { b_data : list byte; b_last : bool; b_padbytes : Z }.

Definition first_beat (p : list byte) : beat :=
  Beat (beat_data (take MAC_BYTES p)) (bool_decide (length p ≤ MAC_BYTES)%nat)
       (Z.of_nat (MAC_BYTES - length p)).

Fixpoint beats_fuel (fuel : nat) (p : list byte) : list beat :=
  match fuel, p with
  | S fuel', _ :: _ => first_beat p :: beats_fuel fuel' (drop MAC_BYTES p)
  | _, _ => []
  end.

(** A beat takes at least a byte: the length of the packet is enough fuel. *)
Definition beats (p : list byte) : list beat := beats_fuel (length p) p.

Definition drive (b : beat) : event := DriveRxIf true (b_data b) (b_last b) (b_padbytes b).
Definition invalid_beat : event := DriveRxIf false (replicate 32 Byte.x00) false 0.

Lemma MAC_BYTES_32 : MAC_BYTES = 32%nat.
Proof. reflexivity. Qed.

Lemma beats_fuel_enough fuel p : (length p ≤ fuel)%nat → beats_fuel fuel p = beats p.
Proof.
  unfold beats. assert (E : ∀ f1 f2 p, (length p ≤ f1)%nat → (length p ≤ f2)%nat →
    beats_fuel f1 p = beats_fuel f2 p).
  { clear. induction f1 as [|f1 IH]; intros [|f2] p H1 H2; destruct p as [|x p]; try done;
      [simpl in H1; lia|simpl in H2; lia|].
    change (first_beat (x :: p) :: beats_fuel f1 (drop MAC_BYTES (x :: p))
            = first_beat (x :: p) :: beats_fuel f2 (drop MAC_BYTES (x :: p))).
    f_equal. rewrite MAC_BYTES_32. simpl in *. apply IH; rewrite length_drop; lia. }
  intros. by apply E.
Qed.

Lemma beats_unfold p : p ≠ [] → beats p = first_beat p :: beats (drop MAC_BYTES p).
Proof.
  intros Hp. destruct p as [|x p]; [done|]. unfold beats at 1.
  change (first_beat (x :: p) :: beats_fuel (length p) (drop MAC_BYTES (x :: p))
          = first_beat (x :: p) :: beats (drop MAC_BYTES (x :: p))).
  f_equal. apply beats_fuel_enough. rewrite MAC_BYTES_32, length_drop. simpl. lia.
Qed.

(** What matters in a trace: the DPI calls and the complaints of the trace
    backends about a packet of the device. *)
Definition is_complaint (e : event) : bool :=
  match e with
  | Printf fmt _ =>
      bool_decide (fmt ∈ ["recved pkt different at byte %d. Expected %hhx, Got %hhx\n";
                          "recved pkt different size\n"; "got a packet not in the trace\n"])
  | _ => false
  end.

Definition visible (tr : list event) : list event :=
  List.filter (λ e, is_dpi e || is_complaint e) tr.

Lemma visible_app t1 t2 : visible (t1 ++ t2) = visible t1 ++ visible t2.
Proof. apply List.filter_app. Qed.

Lemma dpi_calls_visible tr : dpi_calls (visible tr) = dpi_calls tr.
Proof.
  induction tr as [|e tr IH]; [done|]. unfold visible, dpi_calls in *. cbn [List.filter].
  destruct (is_dpi e) eqn:E; cbn [orb List.filter]; rewrite ?E, ?IH; [done|].
  destruct (is_complaint e); cbn [List.filter]; by rewrite ?E, ?IH.
Qed.

(** ** Lemmas on the RX path *)

Section Rx.
Context {B : Type}.
Implicit Types (s : net B) (p : list byte).

(** The buffer holds [p] and [k] of its bytes are gone. *)
Definition rx_at (p : list byte) (k : nat) : rx_data_interface_struct :=
  {| rx_buffer := Alloc p; rx_buffer_len := Z.of_nat (length p); rx_buffer_pos := Z.of_nat k |}.

Lemma copy_loop_run n vec s p k :
  rx_data_if s = rx_at p k → (k ≤ length p)%nat → Z.of_nat (length p) < 2 ^ 64 →
  (n ≤ length vec)%nat →
  let m := Nat.min n (length p - k) in
  copy_loop n vec s
  = Done ((n - m)%nat, take (n - m) vec ++ reverse (take m (drop k p)) ++ drop n vec)
      (set_rx (rx_at p (k + m)) s) [].
Proof.
  revert vec s k. induction n as [|i IH]; intros vec s k Hrx Hk Hp Hn m.
  { destruct s as [w rx tx]. simpl in Hrx. subst rx m. simpl. by rewrite Nat.add_0_r. }
  cbn [copy_loop]. erewrite bind_done_nil by reflexivity. rewrite Hrx. cbn [rx_buffer_pos rx_buffer_len rx_at].
  destruct (Z.ltb_spec (Z.of_nat k) (Z.of_nat (length p))) as [Hlt|Hge].
  - destruct (lookup_lt_is_Some_2 p k) as [x Hx]; [lia|].
    assert (rx_byte (rx_at p k) (Z.of_nat k) = Some x) as ->.
    { unfold rx_byte. cbn. destruct (Z.ltb_spec (Z.of_nat k) 0); [lia|]. by rewrite Nat2Z.id. }
    do 2 (erewrite bind_done_nil by reflexivity).
    assert (u64 (Z.of_nat k + 1) = Z.of_nat (S k)) as Hu.
    { unfold u64. rewrite Z.mod_small; lia. }
    cbn [rx_buffer_len rx_buffer rx_at]. rewrite Hu. fold (rx_at p (S k)).
    rewrite (IH _ _ (S k)) by (done || rewrite ?length_insert; lia).
    assert (m = S (Nat.min i (length p - S k))) as -> by (unfold m; lia).
    set (m' := Nat.min i (length p - S k)). f_equal.
    2: { unfold set_rx. cbn. do 2 f_equal. lia. }
    f_equal. rewrite (drop_S p x k Hx). cbn [take]. rewrite reverse_cons.
    rewrite (drop_insert_ge _ _ _ x) by lia. rewrite take_insert_ge by lia.
    replace (i - i)%nat with 0%nat by lia.
    change (S i - S m')%nat with (i - m')%nat. f_equal. rewrite <- app_assoc. f_equal.
    destruct (lookup_lt_is_Some_2 vec i) as [y Hy]; [lia|].
    rewrite (drop_S vec y i Hy). done.
  - assert (m = 0%nat) as -> by (unfold m; lia).
    rewrite Nat.sub_0_r, Nat.add_0_r. destruct s as [w rx tx]. simpl in Hrx. subst rx.
    unfold mret, M_ret. f_equal. f_equal. cbn [take]. change (reverse []) with ([] : list byte).
    by rewrite app_nil_l, take_drop.
Qed.

Lemma pad_loop_run n vec :
  (n ≤ length vec)%nat → pad_loop n vec = replicate n Byte.x00 ++ drop n vec.
Proof.
  revert vec. induction n as [|i IH]; intros vec Hn; [by rewrite drop_0|]. cbn [pad_loop].
  rewrite IH by (rewrite length_insert; lia). rewrite (drop_insert_ge _ _ _ _) by lia.
  replace (i - i)%nat with 0%nat by lia. rewrite replicate_S_end, <- app_assoc. f_equal.
  destruct (lookup_lt_is_Some_2 vec i) as [y Hy]; [lia|].
  rewrite (drop_S vec y i Hy). done.
Qed.

Definition print_events (bs : list byte) : list event :=
  map (λ b, Printf "%hhx " [byte_num b]) bs.

Lemma print_bytes_run {S} bs (s : S) : print_bytes bs s = Done tt s (print_events bs).
Proof.
  induction bs as [|b bs IH]; [done|]. cbn [print_bytes print_events map].
  unfold mbind, M_bind, printf, emit. by rewrite IH.
Qed.

Lemma visible_print bs : visible (print_events bs) = [].
Proof. by induction bs. Qed.

(** One beat of a packet. *)
Definition rx_after (p : list byte) (k : nat) : rx_data_interface_struct :=
  if decide (length p ≤ k + MAC_BYTES)%nat
  then {| rx_buffer := Freed; rx_buffer_len := Z.of_nat (length p);
          rx_buffer_pos := Z.of_nat (length p) |}
  else rx_at p (k + MAC_BYTES).

Lemma drive_beat_run fr s p k :
  rx_data_if s = rx_at p k → (k < length p)%nat → Z.of_nat (length p) < 2 ^ 64 →
  length (fr_vec fr) = 32%nat →
  ∃ tr, drive_beat fr s = Done tt (set_rx (rx_after p k) s) tr ∧
        visible tr = [drive (first_beat (drop k p))].
Proof.
  intros Hrx Hk Hp Hv. pose proof MAC_BYTES_32 as HM. unfold drive_beat.
  rewrite (bind_done_nil _ _ _ _ _ (copy_loop_run MAC_BYTES (fr_vec fr) s p k Hrx ltac:(lia) Hp
             ltac:(rewrite MAC_BYTES_32; lia))).
  cbv beta iota. set (m := Nat.min MAC_BYTES (length p - k)).
  assert (Hm : (m ≤ 32)%nat) by (unfold m; lia).
  erewrite bind_done_nil by reflexivity. cbv zeta.
  rewrite pad_loop_run by len.
  rewrite (drop_app_exact (take _ _)) by len.
  rewrite (drop_ge (fr_vec fr)) by (rewrite MAC_BYTES_32; lia). rewrite app_nil_r.
  erewrite bind_done by reflexivity.
  rewrite (bind_done _ _ _ _ _ _ (print_bytes_run _ _)).
  do 2 (erewrite bind_done by reflexivity). erewrite bind_done_nil by reflexivity.
  cbn [rx_data_if set_rx rx_buffer_pos rx_buffer_len rx_at]. rewrite !after_after.
  assert (beat_data (take MAC_BYTES (drop k p))
          = replicate (MAC_BYTES - m) Byte.x00 ++ reverse (take m (drop k p))) as Ed.
  { unfold beat_data. rewrite length_take, length_drop. fold m. do 2 f_equal.
    unfold m. destruct (Nat.le_ge_cases MAC_BYTES (length p - k)).
    - by rewrite Nat.min_l. - rewrite Nat.min_r by done. rewrite !take_ge by len. done. }
  assert (Z.of_nat (MAC_BYTES - m) = Z.of_nat (MAC_BYTES - length (drop k p))) as Ep
    by (rewrite length_drop; unfold m; lia).
  assert (∀ b : bool, (Z.of_nat (k + m) =? Z.of_nat (length p)) = b →
            b = bool_decide (length (drop k p) ≤ MAC_BYTES)%nat) as El.
  { intros b <-. rewrite length_drop. case_bool_decide; [apply Z.eqb_eq|apply Z.eqb_neq];
      unfold m; lia. }
  set (ev := DriveRxIf _ _ _ _).
  assert (ev = drive (first_beat (drop k p))) as ->.
  { unfold ev, drive, first_beat. cbn. by rewrite Ed, <- Ep, <- (El _ eq_refl). }
  match goal with |- context [after ?t _] => set (tr := t) end.
  assert (visible tr = [drive (first_beat (drop k p))]) as Htr.
  { unfold tr. rewrite !visible_app, visible_print. reflexivity. }
  clearbody tr. unfold rx_after. destruct (decide (length p ≤ k + MAC_BYTES)%nat) as [Hd|Hd].
  - assert (k + m = length p)%nat as -> by (unfold m; lia).
    rewrite (proj2 (Z.leb_le _ _)) by lia. cbn. eexists. split; [reflexivity|].
    by rewrite ?app_nil_r.
  - assert (m = MAC_BYTES) as -> by (unfold m; lia).
    rewrite (proj2 (Z.leb_gt _ _)) by lia. cbn. eexists. split; [reflexivity|].
    by rewrite ?app_nil_r.
Qed.
End Rx.

(** ** Receiving and sending a whole packet *)

(** An IPv4 packet of which [total] + 14 bytes are there. *)
Definition ipv4_packet (pkt : list byte) (total : Z) : Prop :=
  ld 0 eth_type pkt = Some (htons ETHERTYPE_IP) ∧
  ld 14 ip_total_length pkt = Some (htons total) ∧ fits 2 total ∧
  Z.of_nat (length pkt) < 2 ^ 31.

(** The bytes of the packet that count: an Ethernet trailer is cut. *)
Definition ip_frame (pkt : list byte) (total : Z) : list byte := take (Z.to_nat (total + 14)) pkt.

(** No packet is on its way to the device. *)
Definition rx_idle {B} (s : net B) : Prop :=
  rx_buffer_len (rx_data_if s) ≤ rx_buffer_pos (rx_data_if s).

Section Net.
Context `{DPITestingLib B}.
Implicit Types (s : net B).

Lemma on_world_done {A} (m : M (bworld B) A) s a w tr :
  m (n_world s) = Done a w tr → on_world m s = Done a (set_n_world w s) tr.
Proof. intros E. unfold on_world, zoom. by rewrite E. Qed.

Lemma recv_from_socket_ipv4 fr s pkt total w tr :
  get_buf_fr_io fr (n_world s) = Done pkt w tr → ipv4_packet pkt total →
  total + 14 ≤ Z.of_nat (length pkt) →
  let p := ip_frame pkt total in
  ∃ tr', recv_from_socket fr s
    = Done (Z.of_nat (length p)) (set_rx (rx_at p 0) (set_n_world w s)) (tr ++ tr') ∧
    visible tr' = [] ∧ 14 ≤ Z.of_nat (length p) < 2 ^ 17.
Proof.
  intros Hg (He & Ht & Hf & Hl) Hlen p. unfold fits in Hf.
  assert (length p = Z.to_nat (total + 14)) as Hp by (unfold p, ip_frame; rewrite length_take; lia).
  unfold recv_from_socket. rewrite (bind_done _ _ _ _ _ _ (on_world_done _ _ _ _ _ Hg)).
  rewrite s32_small by lia. cbv zeta.
  rewrite (proj2 (Z.eqb_neq _ _)) by lia. rewrite He, Ht.
  erewrite bind_done_nil by reflexivity.
  change (ntohs (htons ETHERTYPE_IP) =? ETHERTYPE_ARP) with false.
  change (negb (ntohs (htons ETHERTYPE_IP) =? ETHERTYPE_IP)) with false. cbv iota.
  erewrite bind_done_nil by reflexivity. rewrite ntohs_htons by done.
  change (Z.of_nat sizeof_eth_hdr) with 14.
  assert (rd_bytes (Z.to_nat (total + 14)) 0 pkt = Some p) as ->.
  { apply rd_bytes_Some. split; [lia|]. by rewrite drop_0. }
  do 2 (erewrite bind_done_nil by reflexivity).
  eexists. split; [|split; [|lia]].
  - cbn. rewrite s32_small by lia. assert (total + 14 = Z.of_nat (length p)) as -> by lia. done.
  - done.
Qed.

(** The beats of a packet that is in the buffer. *)
Lemma get_data_rest frs s p k :
  rx_data_if s = rx_at p k → (k < length p)%nat → Z.of_nat (length p) < 2 ^ 63 →
  Forall frame_ok frs → length frs = length (beats (drop k p)) →
  ∃ us tr, run_all (map get_data frs) s
    = Done us (set_rx {| rx_buffer := Freed; rx_buffer_len := Z.of_nat (length p);
                         rx_buffer_pos := Z.of_nat (length p) |} s) tr ∧
    visible tr = map drive (beats (drop k p)).
Proof.
  revert s k. induction frs as [|fr frs IH]; intros s k Hrx Hk Hp Hf Hn.
  { rewrite beats_unfold in Hn by (intros E; apply (f_equal length) in E; rewrite length_drop in E; simpl in E; lia).
    done. }
  apply Forall_cons in Hf as [(_ & _ & _ & Hv) Hf].
  assert (drop k p ≠ []) as Hne
    by (intros E; apply (f_equal length) in E; rewrite length_drop in E; simpl in E; lia).
  rewrite (beats_unfold _ Hne) in Hn |- *. rewrite drop_drop in Hn |- *. simpl in Hn.
  destruct (drive_beat_run fr s p k Hrx Hk ltac:(lia) Hv) as (tr1 & Hrun & Htr1).
  assert (get_data fr s = Done tt (set_rx (rx_after p k) s) tr1) as Hg.
  { unfold get_data. erewrite bind_done_nil by reflexivity. rewrite Hrx. cbn [rx_buffer_len rx_buffer_pos rx_at].
    rewrite (proj2 (Z.leb_gt _ _)) by lia. done. }
  cbn [map run_all]. rewrite (bind_done _ _ _ _ _ _ Hg). clear Hg Hrun.
  unfold rx_after. destruct (decide (length p ≤ k + MAC_BYTES)%nat) as [Hd|Hd].
  - rewrite (drop_ge p (k + MAC_BYTES)) in Hn |- * by done.
    destruct frs; [|done]. eexists _, _. split; [reflexivity|].
    by rewrite app_nil_r, Htr1.
  - destruct (IH (set_rx (rx_at p (k + MAC_BYTES)) s) (k + MAC_BYTES)%nat)
      as (us & tr & Hrun & Htr); [done|lia|done..|lia|].
    rewrite (bind_done _ _ _ _ _ _ Hrun). eexists _, _. split; [reflexivity|].
    rewrite visible_app, Htr1, app_nil_r, Htr. done.
Qed.

Lemma get_data_packet frs s fr pkt total w tr :
  rx_idle s → get_buf_fr_io fr (n_world s) = Done pkt w tr → ipv4_packet pkt total →
  total + 14 ≤ Z.of_nat (length pkt) → Forall frame_ok (fr :: frs) →
  length (fr :: frs) = length (beats (ip_frame pkt total)) →
  ∃ us s' tr', run_all (map get_data (fr :: frs)) s = Done us s' (tr ++ tr') ∧
    visible tr' = map drive (beats (ip_frame pkt total)) ∧
    n_world s' = w ∧ tx_buffer s' = tx_buffer s ∧ rx_idle s' ∧ rx_buffer (rx_data_if s') = Freed.
Proof.
  intros Hidle Hg Hpkt Hlen Hf Hn.
  destruct (recv_from_socket_ipv4 _ _ _ _ _ _ Hg Hpkt Hlen) as (tr1 & Hrecv & Htr1 & Hp).
  set (p := ip_frame pkt total) in *. set (s1 := set_rx (rx_at p 0) (set_n_world w s)) in *.
  destruct (get_data_rest (fr :: frs) s1 p 0) as (us & tr2 & Hrun & Htr2);
    [done|lia|lia|done|by rewrite drop_0|].
  assert (get_data fr s = after (tr ++ tr1) (get_data fr s1)) as Hget.
  { unfold get_data at 1. erewrite bind_done_nil by reflexivity.
    rewrite (proj2 (Z.leb_le _ _)) by done. rewrite (bind_done _ _ _ _ _ _ Hrecv).
    rewrite (proj2 (Z.eqb_neq _ _)) by lia. f_equal.
    unfold get_data. symmetry. erewrite bind_done_nil by reflexivity.
    cbn [rx_data_if set_rx s1 rx_buffer_len rx_buffer_pos rx_at].
    rewrite (proj2 (Z.leb_gt _ _)) by lia. done. }
  rewrite drop_0 in Htr2.
  assert (run_all (map get_data (fr :: frs)) s
          = after (tr ++ tr1) (run_all (map get_data (fr :: frs)) s1)) as Hall.
  { cbn [map run_all]. unfold mbind, M_bind. rewrite Hget.
    destruct (get_data fr s1) as [u s2 t|]; [|done]. cbn [after].
    by rewrite after_after. }
  rewrite Hrun in Hall. cbn [after] in Hall. rewrite <- app_assoc in Hall.
  eexists _, _, _. split; [exact Hall|]. rewrite visible_app, Htr1, Htr2.
  repeat split. unfold rx_idle. simpl. lia.
Qed.
End Net.

Section Tx.
Context `{DPITestingLib B}.
Implicit Types (s : net B).

Lemma push_loop_run n pad vec s :
  (n ≤ length vec)%nat →
  ∃ tr, push_loop n (Z.of_nat pad) vec s
    = Done tt (set_tx_buffer (tx_buffer s ++ reverse (drop pad (take n vec))) s) tr ∧
    visible tr = [].
Proof.
  revert s. induction n as [|i IH]; intros s Hn; cbn [push_loop].
  { rewrite (proj2 (Z.ltb_ge _ _)) by lia. exists [].
    assert (reverse (drop pad (take 0 vec)) = []) as -> by (by destruct pad).
    rewrite app_nil_r. by destruct s. }
  destruct (lookup_lt_is_Some_2 vec i) as [x Hx]; [lia|].
  destruct (Z.leb_spec (Z.of_nat pad) (Z.of_nat i)) as [Hle|Hgt].
  - rewrite Hx. do 1 (erewrite bind_done_nil by reflexivity).
    erewrite bind_done by reflexivity. erewrite bind_done_nil by reflexivity.
    destruct (IH (set_tx_buffer (tx_buffer s ++ [x]) s) ltac:(lia)) as (tr & Hrun & Htr).
    rewrite Hrun. exists ([Printf "%hhx " [byte_num x]] ++ tr). cbn [after].
    split; [|by rewrite visible_app, Htr].
    f_equal. unfold set_tx_buffer. cbn [n_world rx_data_if tx_buffer]. f_equal.
    rewrite (take_S_r vec i x Hx), drop_app_le by (rewrite length_take; lia).
    rewrite reverse_app. by rewrite <- app_assoc.
  - exists []. rewrite drop_ge by (rewrite length_take; lia).
    change (reverse []) with ([] : list byte). rewrite app_nil_r. by destruct s.
Qed.

(** One beat of the device. *)
Definition put_beat (b : beat) : M (net B) unit := put_data (b_data b) (b_last b) (b_padbytes b).

Lemma beat_data_length p : length (beat_data (take MAC_BYTES p)) = 32%nat.
Proof. unfold beat_data. pose proof MAC_BYTES_32. len. Qed.

Lemma push_first_beat p s :
  ∃ tr, push_loop MAC_BYTES (b_padbytes (first_beat p)) (b_data (first_beat p)) s
    = Done tt (set_tx_buffer (tx_buffer s ++ take MAC_BYTES p) s) tr ∧ visible tr = [].
Proof.
  pose proof MAC_BYTES_32 as HM. pose proof (beat_data_length p) as Hl. cbn [b_data b_padbytes first_beat].
  destruct (push_loop_run MAC_BYTES (MAC_BYTES - length p) (beat_data (take MAC_BYTES p)) s)
    as (tr & Hrun & Htr); [lia|].
  exists tr. split; [|done]. rewrite Hrun. do 3 f_equal.
  rewrite take_ge by lia. unfold beat_data. rewrite drop_app_exact by len.
  apply reverse_involutive.
Qed.

Lemma send_on_socket_run s n w tr :
  put_buf_on_io (tx_buffer s) (n_world s) = Done n w tr →
  ∃ tr', send_on_socket s = Done tt (set_tx_buffer [] (set_n_world w s)) tr' ∧
         visible tr' = visible tr.
Proof.
  intros Hput. unfold send_on_socket. erewrite bind_done_nil by reflexivity.
  do 2 (erewrite bind_done by reflexivity).
  erewrite bind_done by (apply on_world_done, Hput).
  do 2 (erewrite bind_done by reflexivity). eexists. cbn [after modify]. split; [reflexivity|].
  rewrite !visible_app. cbn. by rewrite !app_nil_r.
Qed.

(** A beat that is not the last is kept; the last one sends the packet. *)
Lemma put_beat_more p s :
  (MAC_BYTES < length p)%nat →
  ∃ t, put_beat (first_beat p) s
    = Done tt (set_tx_buffer (tx_buffer s ++ take MAC_BYTES p) s) t ∧ visible t = [].
Proof.
  intros Hgt. destruct (push_first_beat p s) as (tr1 & Hpush & Htr1).
  unfold put_beat, put_data.
  assert (b_last (first_beat p) = false) as -> by (cbn; rewrite bool_decide_eq_false_2; [done|lia]).
  erewrite bind_done_nil by reflexivity. erewrite bind_done by reflexivity.
  assert (b_padbytes (first_beat p) = 0) as Hpad by (cbn; lia). rewrite Hpad in Hpush.
  erewrite bind_done by exact Hpush. erewrite bind_done by reflexivity.
  eexists. split; [reflexivity|]. by rewrite !visible_app, Htr1.
Qed.

Lemma put_beat_last p s n w tr :
  (length p ≤ MAC_BYTES)%nat → put_buf_on_io (tx_buffer s ++ p) (n_world s) = Done n w tr →
  ∃ t, put_beat (first_beat p) s = Done tt (set_tx_buffer [] (set_n_world w s)) t ∧
       visible t = visible tr.
Proof.
  intros Hle Hput. destruct (push_first_beat p s) as (tr1 & Hpush & Htr1).
  rewrite take_ge in Hpush by done.
  destruct (send_on_socket_run (set_tx_buffer (tx_buffer s ++ p) s) n w tr Hput)
    as (tr2 & Hsend & Htr2).
  unfold put_beat, put_data.
  assert (b_last (first_beat p) = true) as -> by (cbn; by rewrite bool_decide_eq_true_2).
  do 2 (erewrite bind_done by reflexivity). erewrite bind_done by exact Hpush.
  erewrite bind_done by reflexivity. rewrite Hsend. eexists. split; [reflexivity|].
  by rewrite !visible_app, Htr1, Htr2.
Qed.

Lemma put_beats_run p s n w tr :
  p ≠ [] → put_buf_on_io (tx_buffer s ++ p) (n_world s) = Done n w tr →
  ∃ us tr', run_all (map put_beat (beats p)) s
    = Done us (set_tx_buffer [] (set_n_world w s)) tr' ∧ visible tr' = visible tr.
Proof.
  pose proof MAC_BYTES_32 as HM.
  revert s. induction p as [p IH] using (induction_ltof1 _ length). unfold ltof in IH.
  intros s Hp Hput. rewrite (beats_unfold _ Hp). cbn [map run_all].
  assert (length p ≠ 0%nat) as Hlp by (by destruct p).
  destruct (decide (length p ≤ MAC_BYTES)%nat) as [Hle|Hgt].
  - destruct (put_beat_last p s n w tr Hle Hput) as (t & E & Ht).
    rewrite (drop_ge p) by done. erewrite bind_done by exact E.
    eexists _, _. split; [reflexivity|]. by rewrite app_nil_r.
  - destruct (put_beat_more p s) as (t & E & Ht); [lia|].
    destruct (IH (drop MAC_BYTES p)) with (s := set_tx_buffer (tx_buffer s ++ take MAC_BYTES p) s)
      as (us & tr2 & Hrun & Htr2).
    + rewrite length_drop. lia.
    + intros E'. apply (f_equal length) in E'. rewrite length_drop in E'. simpl in E'. lia.
    + cbn [tx_buffer set_tx_buffer n_world]. by rewrite <- app_assoc, take_drop.
    + erewrite bind_done by exact E. erewrite bind_done by exact Hrun.
      eexists _, _. split; [reflexivity|].
      by rewrite !visible_app, Ht, Htr2, app_nil_r.
Qed.
End Tx.

(** ** Properties *)

Section Properties.
Context `{DPITestingLib B}.
Implicit Types (s : net B).

(** C29: an IPv4 packet of the backend goes to the device as ceil(n/32)
    beats, one per call of [get_data]: the n bytes its total length covers,
    most significant byte first, zero padding and [last] on the final beat
    only; its buffer is then freed and the next call polls again. *)
Theorem get_data_transmits frs s fr pkt total w tr :
  rx_idle s → get_buf_fr_io fr (n_world s) = Done pkt w tr → ipv4_packet pkt total →
  total + 14 ≤ Z.of_nat (length pkt) → Forall frame_ok (fr :: frs) →
  length (fr :: frs) = length (beats (ip_frame pkt total)) →
  ∃ us s' tr', run_all (map get_data (fr :: frs)) s = Done us s' (tr ++ tr') ∧
    visible tr' = map drive (beats (ip_frame pkt total)) ∧
    n_world s' = w ∧ tx_buffer s' = tx_buffer s ∧ rx_idle s' ∧
    rx_buffer (rx_data_if s') = Freed.
Proof. apply get_data_packet. Qed.

(** C30: the beats of a packet, fed to [put_data], put that packet on the
    backend once, after the last beat, and leave the TX buffer empty. *)
Theorem put_data_receives p s n w tr :
  p ≠ [] → tx_buffer s = [] → put_buf_on_io p (n_world s) = Done n w tr →
  ∃ us tr', run_all (map (λ b, put_data (b_data b) (b_last b) (b_padbytes b)) (beats p)) s
    = Done us (set_n_world w s) tr' ∧ visible tr' = visible tr.
Proof.
  intros Hp Htx Hput. destruct (put_beats_run p s n w tr Hp) as (us & tr' & Hrun & Htr).
  { by rewrite Htx. }
  exists us, tr'. split; [|done]. unfold put_beat in Hrun. rewrite Hrun.
  destruct s as [ws rx tx]. simpl in Htx. by subst tx.
Qed.
End Properties.

(** ** Invariants *)

(** While bytes are left the buffer is allocated and holds the whole packet;
    otherwise nothing is allocated. *)
Definition rx_inv (rx : rx_data_interface_struct) : Prop :=
  0 ≤ rx_buffer_pos rx ≤ rx_buffer_len rx ∧
  ((∃ p k, rx = rx_at p k ∧ (k < length p)%nat ∧ Z.of_nat (length p) < 2 ^ 17) ∨
   (rx_buffer_pos rx = rx_buffer_len rx ∧ ∀ p, rx_buffer rx ≠ Alloc p)).

Definition is_drive (e : event) : bool := match e with DriveRxIf _ _ _ _ => true | _ => false end.

(** How many times [drive_rx_if] is called. *)
Definition drives (tr : list event) : nat := length (List.filter is_drive tr).

Lemma drives_app t1 t2 : drives (t1 ++ t2) = (drives t1 + drives t2)%nat.
Proof. unfold drives. by rewrite List.filter_app, length_app. Qed.

Lemma drives_quiet tr : quiet tr → drives tr = 0%nat.
Proof. induction 1 as [|e tr He _ IH]; [done|]. by destruct e. Qed.

Definition emits {S A} (n : nat) (m : M S A) : Prop := ∀ s a s' tr,
  m s = Done a s' tr → drives tr = n.

Lemma emits_bind {S A C} n1 n2 (m : M S A) (f : A → M S C) :
  emits n1 m → (∀ a, emits n2 (f a)) → emits (n1 + n2) (m ≫= f).
Proof.
  intros Hm Hf s c s' tr H. apply bind_inv_done in H as (a & s1 & t1 & t2 & H1 & H2 & ->).
  rewrite drives_app. apply Hm in H1. apply Hf in H2. lia.
Qed.

Lemma emits_silent {S A} (m : M S A) : silent m → emits 0 m.
Proof. intros Hm s a s' tr E. by apply drives_quiet, (Hm _ _ _ _ E). Qed.

Lemma emits_bind_0 {S A C} n (m : M S A) (f : A → M S C) :
  silent m → (∀ a, emits n (f a)) → emits n (m ≫= f).
Proof. intros Hm Hf. apply (emits_bind 0); [by apply emits_silent|done]. Qed.

Section Laws.
Context `{DPITestingLibLaws B}.
Implicit Types (s : net B).

Lemma silent_on_world {A} (m : M (bworld B) A) : keeps m → silent (on_world m : M (net B) A).
Proof. intros Hm. apply silent_zoom. intros w a w' tr E. by apply Hm in E as (_ & _ & ?). Qed.

Lemma quiet_handle_arp resp buf base w a w' tr :
  handle_arp resp buf base w = Done a w' tr → quiet tr.
Proof.
  revert w a w' tr. change (silent (handle_arp (B:=B) resp buf base)). unfold handle_arp.
  repeat first
    [ progress intros | solve [auto with keeps] | apply silent_bind | apply silent_if
    | intros w a' w' tr E; by apply put_keeps in E as (_ & _ & ?) | case_match ].
Qed.

Lemma silent_handle_arp resp buf base : silent (on_world (handle_arp (B:=B) resp buf base)).
Proof. apply silent_zoom. intros w a w' tr. apply quiet_handle_arp. Qed.

Lemma silent_recv_from_socket fr : silent (recv_from_socket (B:=B) fr).
Proof.
  unfold recv_from_socket.
  repeat first
    [ progress intros | apply silent_on_world, get_keeps | apply silent_handle_arp
    | solve [auto with keeps] | apply silent_bind | apply silent_if | case_match ].
Qed.

Lemma silent_copy_loop n vec : silent (copy_loop (B:=B) n vec).
Proof.
  revert vec. induction n as [|i IH]; intros vec; [apply silent_ret|]. cbn [copy_loop].
  repeat first [ progress intros | apply IH | solve [auto with keeps] | apply silent_bind
               | apply silent_if | case_match ].
Qed.

Lemma silent_print_bytes {S} bs : silent (print_bytes (S:=S) bs).
Proof.
  induction bs as [|b bs IH]; [apply silent_ret|]. cbn [print_bytes].
  apply silent_bind; [apply silent_printf|done].
Qed.

Lemma emits_drive_beat fr : emits 1 (drive_beat (B:=B) fr).
Proof.
  unfold drive_beat. apply emits_bind_0; [apply silent_copy_loop|]. intros [n vec].
  apply emits_bind_0; [auto with keeps|]. intros rx.
  apply emits_bind_0; [auto with keeps|]. intros _.
  apply emits_bind_0; [apply silent_print_bytes|]. intros _.
  apply emits_bind_0; [auto with keeps|]. intros _.
  apply (emits_bind 1 0); [by intros s a s' tr [= <- <- <-]|]. intros _.
  apply emits_silent. keeps_tac.
Qed.

(** Every call of [get_data] that returns drives the interface exactly
    once, whatever the backend does. *)
Theorem get_data_drives_once fr s s' tr :
  get_data fr s = Done tt s' tr → drives tr = 1%nat.
Proof.
  revert s s' tr. assert (emits 1 (get_data (B:=B) fr)) as He; [|intros s s' tr; apply He].
  unfold get_data. apply emits_bind_0; [auto with keeps|]. intros rx.
  destruct (_ <=? _); [|apply emits_drive_beat].
  apply emits_bind_0; [apply silent_recv_from_socket|]. intros status.
  destruct (status =? 0); [|apply emits_drive_beat].
  by intros s a s' tr [= <- <- <-].
Qed.
End Laws.

Section Safety.
Context `{DPITestingLib B}.
Implicit Types (s : net B).

Lemma get_data_live fr s p k :
  rx_data_if s = rx_at p k → (k < length p)%nat → get_data fr s = drive_beat fr s.
Proof.
  intros Hrx Hk. unfold get_data. erewrite bind_done_nil by reflexivity.
  rewrite Hrx. cbn [rx_buffer_len rx_buffer_pos rx_at]. by rewrite (proj2 (Z.leb_gt _ _)) by lia.
Qed.

Lemma rx_after_inv p k :
  (k < length p)%nat → Z.of_nat (length p) < 2 ^ 17 → rx_inv (rx_after p k).
Proof.
  intros Hk Hp. unfold rx_after. case_decide as Hd; unfold rx_inv; cbn.
  - split; [lia|]. right. split; [done|]. intros q. discriminate.
  - split; [lia|]. left. eexists _, _. split; [reflexivity|lia].
Qed.

(** What [recv_from_socket] leaves: nothing, or a whole packet. *)
Lemma recv_from_socket_inv fr s n s' tr :
  recv_from_socket fr s = Done n s' tr →
  tx_buffer s' = tx_buffer s ∧
  ((n = 0 ∧ rx_data_if s' = rx_data_if s) ∨
  (n ≠ 0 ∧ ∃ p, rx_data_if s' = rx_at p 0 ∧ (0 < length p)%nat ∧
              Z.of_nat (length p) < 2 ^ 17)).
Proof.
  intros E. unfold recv_from_socket in E.
  apply bind_inv_done in E as (pkt & s1 & t1 & t2 & H1 & E & _).
  assert (rx_data_if s1 = rx_data_if s ∧ tx_buffer s1 = tx_buffer s) as [Hs1 Ht1].
  { unfold on_world, zoom in H1. destruct (get_buf_fr_io fr _); [|done]. by injection H1 as _ <- _. }
  cbv zeta in E. destruct (s32 _ =? 0); [injection E as <- <- _; split; [done|by left]|].
  apply bind_inv_done in E as (et & s2 & t3 & t4 & H2 & E & _).
  assert (s2 = s1) as -> by (unfold defined in H2; destruct (ld _ _ _); naive_solver).
  destruct (_ =? ETHERTYPE_ARP).
  { apply bind_inv_done in E as ([] & s2 & t5 & t6 & H3 & E & _). injection H3 as <- _.
    apply bind_inv_done in E as ([] & s2 & t7 & t8 & H4 & E & _). injection E as <- <- _.
    unfold on_world, zoom in H4. destruct (handle_arp _ _ _ _); [|done]. injection H4 as _ <- _.
    split; [done|by left]. }
  destruct (negb _); [injection E as <- <- _; split; [done|by left]|].
  apply bind_inv_done in E as (tl & s3 & t5 & t6 & H3 & E & _).
  unfold defined in H3. destruct (ld 14 ip_total_length pkt) as [tl'|] eqn:Htl; [|done].
  injection H3 as -> <- _.
  apply bind_inv_done in E as (bs & s4 & t7 & t8 & H4 & E & _).
  unfold defined in H4. destruct (rd_bytes _ 0 pkt) as [bs'|] eqn:Hbs; [|done].
  injection H4 as -> <- _.
  apply bind_inv_done in E as ([] & s5 & t9 & t10 & H5 & E & _). injection H5 as <- _.
  apply bind_inv_done in E as ([] & s6 & t11 & t12 & H6 & E & _). injection H6 as <- _.
  injection E as <- <- _. split; [done|]. right. apply rd_bytes_length in Hbs.
  pose proof (bswap_fits 2 tl) as Hf. fold (ntohs tl) in Hf. unfold fits in Hf.
  change (8 * Z.of_nat 2) with 16 in Hf. change (Z.of_nat sizeof_eth_hdr) with 14 in *.
  split; [rewrite s32_small by lia; lia|]. exists bs. split; [|lia].
  cbn. unfold rx_at. f_equal. lia.
Qed.

(** C34: with the buffer invariant, which the initial state has and every
    call keeps, [get_data] is memory safe: it never reads outside the
    buffer, uses or frees it twice; the only way it can fail is that taking
    a packet from the backend fails.  The invariant also says that no packet
    is leaked: the pointer that a new packet overwrites is not allocated. *)
Theorem get_data_safe fr s :
  rx_inv (rx_data_if s) → frame_ok fr →
  match get_data fr s with
  | Done _ s' _ => rx_inv (rx_data_if s') ∧ tx_buffer s' = tx_buffer s
  | Stopped why tr => recv_from_socket fr s = Stopped why tr
  end.
Proof.
  intros Hinv (_ & _ & _ & Hv).
  assert (beat_ok : ∀ s1 p k, rx_data_if s1 = rx_at p k → (k < length p)%nat →
    Z.of_nat (length p) < 2 ^ 17 → ∃ s' tr, drive_beat fr s1 = Done tt s' tr ∧
    rx_inv (rx_data_if s') ∧ tx_buffer s' = tx_buffer s1).
  { intros s1 p k H1 H2 H3. destruct (drive_beat_run fr s1 p k H1 H2 ltac:(lia) Hv) as (tr & E & _).
    eexists _, _. split; [exact E|]. split; [by apply rx_after_inv|done]. }
  destruct Hinv as (Hb & [(p & k & Hrx & Hk & Hp)|(Heq & Hna)]).
  { rewrite (get_data_live _ _ _ _ Hrx Hk).
    by destruct (beat_ok _ _ _ Hrx Hk Hp) as (s' & tr & -> & ?). }
  assert (get_data fr s = (status ← recv_from_socket fr;
    if status =? 0 then emit (DriveRxIf false (replicate MAC_BYTES Byte.x00) false 0)
    else drive_beat fr) s) as ->.
  { unfold get_data. erewrite bind_done_nil by reflexivity. by rewrite (proj2 (Z.leb_le _ _)) by lia. }
  unfold mbind, M_bind. destruct (recv_from_socket fr s) as [n s1 t1|] eqn:E; [|done].
  apply recv_from_socket_inv in E as [Htx [(-> & Hrx)|(Hn & p & Hrx & H0 & Hp)]].
  - cbn. rewrite Hrx. split; [|done]. split; [done|]. by right.
  - apply Z.eqb_neq in Hn as ->. destruct (beat_ok _ _ _ Hrx H0 Hp) as (s' & tr & -> & Hi & Ht).
    cbn. split; [done|congruence].
Qed.
End Safety.

Section NoPacket.
Context `{DPITestingLib B}.
Implicit Types (s : net B).

Lemma get_data_none_run fr s pkt w tr :
  rx_idle s → get_buf_fr_io fr (n_world s) = Done pkt w tr →
  pkt = [] ∨ (Z.of_nat (length pkt) < 2 ^ 31 ∧
              ∃ et, ld 0 eth_type pkt = Some et ∧ ntohs et ≠ ETHERTYPE_ARP ∧
                    ntohs et ≠ ETHERTYPE_IP) →
  get_data fr s
  = Done tt (set_n_world w s) (tr ++ [DriveRxIf false (replicate 32 Byte.x00) false 0]).
Proof.
  intros Hidle Hg Hcase. unfold get_data. erewrite bind_done_nil by reflexivity.
  rewrite (proj2 (Z.leb_le _ _)) by done.
  assert (recv_from_socket fr s = Done 0 (set_n_world w s) tr) as Hr.
  { unfold recv_from_socket. rewrite (bind_done _ _ _ _ _ _ (on_world_done _ _ _ _ _ Hg)).
    destruct Hcase as [->|(Hl & et & He & H1 & H2)].
    { change (s32 (Z.of_nat (length []))) with 0. cbn. by rewrite app_nil_r. }
    rewrite s32_small by lia. cbv zeta. case_match; [cbn; by rewrite app_nil_r|].
    rewrite He. erewrite bind_done_nil by reflexivity.
    apply Z.eqb_neq in H1 as ->. apply Z.eqb_neq in H2 as ->. cbn. by rewrite app_nil_r. }
  by rewrite (bind_done _ _ _ _ _ _ Hr).
Qed.

(** When the backend has nothing, or a frame that is neither IPv4 nor
    ARP, the interface is driven invalid and nothing is kept. *)
Theorem get_data_no_packet fr s pkt w tr :
  rx_idle s → get_buf_fr_io fr (n_world s) = Done pkt w tr →
  pkt = [] ∨ (Z.of_nat (length pkt) < 2 ^ 31 ∧
              ∃ et, ld 0 eth_type pkt = Some et ∧ ntohs et ≠ ETHERTYPE_ARP ∧
                    ntohs et ≠ ETHERTYPE_IP) →
  get_data fr s
  = Done tt (set_n_world w s) (tr ++ [DriveRxIf false (replicate 32 Byte.x00) false 0]).
Proof. apply get_data_none_run. Qed.

(** C39: the copy of a packet takes as many bytes as its IP header announces:
    when the backend gave fewer, it reads past the end of the vector. *)
Theorem recv_from_socket_over_read fr s pkt total w tr :
  get_buf_fr_io fr (n_world s) = Done pkt w tr → ipv4_packet pkt total →
  Z.of_nat (length pkt) < total + 14 →
  recv_from_socket fr s = Stopped Undefined tr.
Proof.
  intros Hg (He & Ht & Hf & Hl) Hlen. unfold fits in Hf.
  assert (length pkt ≠ 0%nat) as H0.
  { intros E. apply nil_length_inv in E as ->. done. }
  unfold recv_from_socket. rewrite (bind_done _ _ _ _ _ _ (on_world_done _ _ _ _ _ Hg)).
  rewrite s32_small by lia. cbv zeta.
  rewrite (proj2 (Z.eqb_neq _ _)) by lia. rewrite He, Ht.
  erewrite bind_done_nil by reflexivity.
  change (ntohs (htons ETHERTYPE_IP) =? ETHERTYPE_ARP) with false.
  change (negb (ntohs (htons ETHERTYPE_IP) =? ETHERTYPE_IP)) with false. cbv iota.
  erewrite bind_done_nil by reflexivity. rewrite ntohs_htons by done.
  change (Z.of_nat sizeof_eth_hdr) with 14.
  assert (rd_bytes (Z.to_nat (total + 14)) 0 pkt = None) as ->
    by (apply rd_bytes_None; lia).
  rewrite (bind_stopped _ _ _ Undefined []) by done. unfold after. by rewrite app_nil_r.
Qed.

(** An ARP request for the host in the middle of a simulation: the beat
    is invalid, the answer goes to the backend in the same call. *)
Theorem get_data_answers_arp fr s a rest w1 tr1 n w2 tr2 :
  let st := w_instance_state w1 in
  rx_idle s → frame_ok fr →
  get_buf_fr_io fr (n_world s) = Done (arp_frame a ++ rest) w1 tr1 →
  Z.of_nat (length (arp_frame a ++ rest)) < 2 ^ 31 →
  arp_packet_ok a → arp_oper a = ArpRequest → arp_target_ip a = s_addr_bytes st →
  length (source_mac_addr st) = 6%nat →
  put_buf_on_io (arp_frame (arp_answer (source_mac_addr st) (s_addr_bytes st) a))
    (set_instance_state (set_dest_mac_addr (arp_sender_mac a) st) w1) = Done n w2 tr2 →
  ∃ tr, get_data fr s = Done tt (set_n_world w2 s) tr ∧
    dpi_calls tr = dpi_calls tr1 ++ dpi_calls tr2 ++
                   [DriveRxIf false (replicate 32 Byte.x00) false 0].
Proof.
  intros st Hidle (_ & _ & Hresp & _) Hg Hl Ha Hop Hip Hmac Hput.
  assert (handle_arp (fr_resp fr) (arp_frame a ++ rest) sizeof_eth_hdr w1
    = Done tt w2 (tr2 ++ [Printf "ARP response sent. Length: %d\n" [ANum n]])) as Harp
    by (by apply handle_arp_run).
  pose proof (arp_frame_length a Ha) as Hlen. rewrite length_app in Hl.
  assert (ld 0 eth_type (arp_frame a ++ rest) = Some (htons ETHERTYPE_ARP)) as He.
  { destruct Ha as (H1 & H2 & _). unfold ld, rd, arp_frame. rewrite <- !app_assoc.
    rewrite (app_assoc (arp_eth_dst a)).
    rewrite (rd_bytes_app _ _ _ (be_split 2 ETHERTYPE_ARP)) by (unfold be_split; cbn; len).
    reflexivity. }
  unfold get_data. erewrite bind_done_nil by reflexivity.
  rewrite (proj2 (Z.leb_le _ _)) by done.
  assert (∃ t, recv_from_socket fr s = Done 0 (set_n_world w2 s) t ∧
               dpi_calls t = dpi_calls tr1 ++ dpi_calls tr2) as (t & Hr & Ht).
  { unfold recv_from_socket. rewrite (bind_done _ _ _ _ _ _ (on_world_done _ _ _ _ _ Hg)).
    rewrite s32_small by (rewrite length_app; lia). cbv zeta.
    rewrite (proj2 (Z.eqb_neq _ _)) by (rewrite length_app; lia). rewrite He.
    erewrite bind_done_nil by reflexivity.
    change (ntohs (htons ETHERTYPE_ARP) =? ETHERTYPE_ARP) with true. cbv iota.
    erewrite bind_done by reflexivity.
    rewrite (bind_done _ _ _ _ _ _ (on_world_done _ (set_n_world w1 s) _ _ _ Harp)).
    eexists. split; [reflexivity|]. rewrite !dpi_calls_app. cbn. by rewrite !app_nil_r. }
  rewrite (bind_done _ _ _ _ _ _ Hr). eexists. split; [reflexivity|].
  by rewrite dpi_calls_app, Ht, <- app_assoc.
Qed.
End NoPacket.

(** ** Concrete instances, with the trace backend of PcapTrace *)

Definition idle_rx : rx_data_interface_struct :=
  {| rx_buffer := NullPtr; rx_buffer_len := 0; rx_buffer_pos := 0 |}.

Definition sample_net (sends recvs : list (list byte)) : net PcapTestingLib :=
  Net (sample_world (Live {| send_pkts := sends; recv_pkts := recvs |})) idle_rx [].

(** A 42-byte datagram in a frame with a 4-byte trailer. *)
Definition sample_framed : list byte := sample_in ++ replicate 4 Byte.x00.

Lemma sample_framed_ipv4 : ipv4_packet sample_framed 42.
Proof. repeat split; vm_compute; done. Defined.

Lemma get_data_transmits_witness :
  ∃ us s' tr', run_all (map get_data [sample_frame; sample_frame]) (sample_net [sample_framed] [])
    = Done us s' tr' ∧
    visible tr' = map drive (beats sample_in) ∧
    n_world s' = n_world (sample_net [] []) ∧ tx_buffer s' = [] ∧ rx_idle s' ∧
    rx_buffer (rx_data_if s') = Freed.
Proof.
  apply (get_data_transmits [sample_frame] (sample_net [sample_framed] []) sample_frame
           sample_framed 42 (n_world (sample_net [] [])) []).
  - vm_compute. discriminate.
  - reflexivity.
  - apply sample_framed_ipv4.
  - vm_compute. discriminate.
  - repeat constructor.
  - vm_compute. reflexivity.
Defined.

Lemma put_data_receives_witness :
  ∃ us tr', run_all (map (λ b, put_data (b_data b) (b_last b) (b_padbytes b)) (beats sample_in))
                    (sample_net [] [sample_in; sample_out])
    = Done us (sample_net [] [sample_out]) tr' ∧ visible tr' = [].
Proof.
  apply (put_data_receives sample_in (sample_net [] [sample_in; sample_out]) 56
           (n_world (sample_net [] [sample_out])) [packets_left 1]);
    [vm_compute; discriminate|reflexivity|vm_compute; reflexivity].
Defined.

Lemma get_data_drives_once_witness :
  drives [DriveRxIf false (replicate 32 Byte.x00) false 0] = 1%nat.
Proof.
  apply (get_data_drives_once sample_frame (sample_net [] []) (sample_net [] [])).
  vm_compute. reflexivity.
Defined.

Lemma get_data_safe_witness :
  match get_data sample_frame (sample_net [sample_framed] []) with
  | Done _ s' _ => rx_inv (rx_data_if s') ∧ tx_buffer s' = []
  | Stopped why tr => recv_from_socket sample_frame (sample_net [sample_framed] []) = Stopped why tr
  end.
Proof.
  apply (get_data_safe sample_frame (sample_net [sample_framed] [])).
  - split; [simpl; lia|]. right. split; [reflexivity|]. intros p. discriminate.
  - repeat split.
Defined.

Lemma get_data_no_packet_witness :
  get_data sample_frame (sample_net [] [])
  = Done tt (sample_net [] []) [DriveRxIf false (replicate 32 Byte.x00) false 0].
Proof.
  apply (get_data_no_packet sample_frame (sample_net [] []) [] (n_world (sample_net [] [])) []);
    [vm_compute; discriminate|reflexivity|by left].
Defined.

Lemma recv_from_socket_over_read_witness :
  recv_from_socket sample_frame (sample_net [take 40 sample_in] []) = Stopped Undefined [].
Proof.
  apply (recv_from_socket_over_read sample_frame (sample_net [take 40 sample_in] [])
           (take 40 sample_in) 42 (n_world (sample_net [] [])) []);
    [reflexivity|repeat split; vm_compute; done|vm_compute; reflexivity].
Defined.

Lemma get_data_answers_arp_witness :
  let st := w_instance_state (n_world (sample_net [] [])) in
  ∃ tr, get_data sample_frame (sample_net [arp_frame sample_request ++ []] [])
    = Done tt (set_n_world (set_instance_state (set_dest_mac_addr (replicate 6 Byte.x11) st)
                              (n_world (sample_net [] [])))
                 (sample_net [arp_frame sample_request ++ []] [])) tr ∧
    dpi_calls tr = [DriveRxIf false (replicate 32 Byte.x00) false 0].
Proof.
  intros st.
  apply (get_data_answers_arp sample_frame (sample_net [arp_frame sample_request ++ []] [])
           sample_request [] (n_world (sample_net [] [])) [] 42
           (set_instance_state (set_dest_mac_addr (replicate 6 Byte.x11) st)
              (n_world (sample_net [] []))) [Printf "got a packet not in the trace\n" []]);
    try (vm_compute; reflexivity); repeat split; vm_compute; done || discriminate.
Defined.
