(* ===== verification/NetworkInit.v ===== *)
(** NetworkInit: the backends of the simulator behind one pointer, and
    [init_network_side_state] of sim_dpi/sim_network_side_queue.cpp. *)

From S2P Require Import Prelude Words Headers Backend Pcap FileIO PcapTrace TcpMimic.
From S2P Require Import TcpTrace Arp NetworkSide.

(** ** Virtual calls

    [sim_backend] points to an object of either class; a call goes to the
    method of the object's class. *)

Definition ptr_map {B C} (f : B → C) (p : backend_ptr B) : backend_ptr C :=
  match p with Null => Null | Live b => Live (f b) | Dangling => Dangling end.

Definition dispatch {B C A} (inj : B → C) (b : B) (m : M (bworld B) A) : M (bworld C) A := λ w,
  match m (set_sim_backend (Live b) w) with
  | Done a w' tr => Done a (set_sim_backend (ptr_map inj (w_sim_backend w')) w') tr
  | Stopped why tr => Stopped why tr
  end.

Section Dispatch.
Context {B1 B2 : Type}.

Definition virtual_call {A} (m1 : M (bworld B1) A) (m2 : M (bworld B2) A)
    : M (bworld (B1 + B2)) A := λ w,
  match w_sim_backend w with
  | Live (inl b) => dispatch inl b m1 w
  | Live (inr b) => dispatch inr b m2 w
  | Null | Dangling => Stopped Undefined []
  end.

Lemma keeps_dispatch {B C A} (inj : B → C) b (m : M (bworld B) A) :
  keeps m → keeps (dispatch inj b m).
Proof.
  intros Hm w a w' tr. unfold dispatch. destruct (m _) as [a' w1 t|] eqn:E; [|done].
  intros [= <- <- <-]. by apply Hm in E.
Qed.

Lemma keeps_virtual_call {A} (m1 : M (bworld B1) A) (m2 : M (bworld B2) A) :
  keeps m1 → keeps m2 → keeps (virtual_call m1 m2).
Proof.
  intros H1 H2 w a w' tr. unfold virtual_call.
  destruct (w_sim_backend w) as [|[b|b]|]; [done| | |done]; by apply keeps_dispatch.
Qed.

#[export] Instance either_backend `{DPITestingLib B1} `{DPITestingLib B2}
    : DPITestingLib (B1 + B2) := {
  get_buf_fr_io fr := virtual_call (get_buf_fr_io fr) (get_buf_fr_io fr);
  put_buf_on_io buf := virtual_call (put_buf_on_io buf) (put_buf_on_io buf) }.

#[export] Instance either_laws `{DPITestingLibLaws B1} `{DPITestingLibLaws B2}
    : DPITestingLibLaws (B1 + B2).
Proof.
  split.
  - intros fr. apply keeps_virtual_call; apply get_keeps.
  - intros buf. apply keeps_virtual_call; apply put_keeps.
  - intros fr w Hw. simpl. unfold virtual_call. by rewrite Hw.
Qed.
End Dispatch.

(** ** Initialization *)

Definition sim_object : Type := FileIOTestingLib + TCPPcapTestingLib.

#[export] Instance sim_object_backend `{FlowOrder} : DPITestingLib sim_object :=
  either_backend (B1 := FileIOTestingLib) (B2 := TCPPcapTestingLib).
#[export] Instance sim_object_laws `{FlowOrder} : DPITestingLibLaws sim_object :=
  either_laws (B1 := FileIOTestingLib) (B2 := TCPPcapTestingLib).

(** The address [inet_pton] stores for four decimal numbers. *)
Definition inet_addr (a b c d : Z) : Z := a + 2 ^ 8 * b + 2 ^ 16 * c + 2 ^ 24 * d.

Definition host_mac : list byte := [Byte.x24; Byte.xbe; Byte.x05; Byte.xbf; Byte.x5b; Byte.x91].

Definition init_instance_state (s : sock_state) : sock_state :=
  {| send_sock := send_sock s; recv_sock := recv_sock s;
     source_addr := {| sin_family := AF_INET; sin_port := 1234; s_addr := inet_addr 192 0 0 2 |};
     dest_addr := dest_addr s; source_mac_addr := host_mac; dest_mac_addr := dest_mac_addr s;
     has_syn_acked := 0; init_ack_num := init_ack_num s |}.

(** What [fopen] returns for hw_to_sw.txt, sw_to_hw.txt and
    [TRACE_FILE_PATH]. *)
Record files := {
  hw_to_sw : option stream;
  sw_to_hw : option stream;
  trace : option stream }.

(** [init_network_side_state], for any value of the macro [BACKEND]. *)
Definition init_with (backend : Z) (fs : files) : M (net sim_object) unit :=
  modify (λ s, set_n_world (set_instance_state (init_instance_state (w_instance_state (n_world s)))
                              (n_world s)) s);;
  modify (λ s, set_rx {| rx_buffer := rx_buffer (rx_data_if s); rx_buffer_len := 0;
                         rx_buffer_pos := 0 |} s);;
  emit (DriveRxIf false (replicate MAC_BYTES Byte.x00) false 0);;
  (if backend =? FILE_IO then
     printf "Using files backend\n" [];;
     o ← on_world (FileIOTestingLib_new (hw_to_sw fs) (sw_to_hw fs));
     on_world (set_this (inl o))
   else if backend =? PCAP_TRACE then
     printf "Using PCAP trace backend with file %s\n" [AStr TRACE_FILE_PATH];;
     o ← on_world (TCPPcapTestingLib_new (trace fs));
     on_world (set_this (inr o))
   else
     printf "Invalid backend\n" [];;
     on_world finish_simulation);;
  printf "Initialized socket state\n" [].

Definition init_network_side_state (fs : files) : M (net sim_object) unit := init_with BACKEND fs.

(** ** Lemmas *)

(** The state at the start of the program. *)
Definition boot_state (inst : sock_state) (now : Z * Z) : net sim_object :=
  Net (BWorld inst now Null) idle_rx [].

Definition boot_trace : list event :=
  [DriveRxIf false (replicate 32 Byte.x00) false 0;
   Printf "Using PCAP trace backend with file %s\n" [AStr TRACE_FILE_PATH]].

(** Initialization on a trace with a complete header. *)
Definition booted (inst : sock_state) (now : Z * Z) (f : stream) : net sim_object :=
  Net (BWorld (init_instance_state inst) now
         (Live (inr {| pcap_file := f; tcp_flows := ∅; flow_order := [] |}))) idle_rx [].

Lemma init_network_side_state_run fs inst now hdr rest r :
  trace fs = Some (Stream (hdr ++ rest) 0 false r) → length hdr = 24%nat →
  init_network_side_state fs (boot_state inst now)
  = Done tt (booted inst now (Stream (hdr ++ rest) 24 false r))
      (boot_trace ++ [Printf "Initialized socket state\n" []]).
Proof.
  intros Htr Hhdr. unfold init_network_side_state, init_with.
  change (BACKEND =? FILE_IO) with false. change (BACKEND =? PCAP_TRACE) with true. cbv iota.
  do 2 (erewrite bind_done_nil by reflexivity). erewrite bind_done by reflexivity.
  set (o := {| pcap_file := Stream (hdr ++ rest) 24 false r; tcp_flows := ∅; flow_order := [] |}).
  assert (∀ w : bworld sim_object, TCPPcapTestingLib_new (trace fs) w = Done o w []) as Hnew
    by (intros w; rewrite Htr; by apply TCPPcapTestingLib_new_run).
  unfold mbind at 1, M_bind at 1. erewrite bind_done by reflexivity.
  rewrite (bind_done_nil _ _ _ _ _ (on_world_done _ _ _ _ _ (Hnew _))). reflexivity.
Qed.

(** ** Properties *)

(** With a trace whose file header is complete, initialization drives the
    interface invalid once, sets the host's addresses and leaves a trace
    backend with no flow, at the first packet; the buffer invariant holds. *)
Theorem init_network_side_state_ok fs inst now hdr rest r :
  trace fs = Some (Stream (hdr ++ rest) 0 false r) → length hdr = 24%nat →
  ∃ s, init_network_side_state fs (boot_state inst now)
    = Done tt s (boot_trace ++ [Printf "Initialized socket state\n" []]) ∧
    w_sim_backend (n_world s) = Live (inr {| pcap_file := Stream (hdr ++ rest) 24 false r;
                                             tcp_flows := ∅; flow_order := [] |}) ∧
    source_mac_addr (w_instance_state (n_world s)) = host_mac ∧
    s_addr_bytes (w_instance_state (n_world s)) = [Byte.xc0; Byte.x00; Byte.x00; Byte.x02] ∧
    rx_inv (rx_data_if s) ∧ rx_idle s ∧ tx_buffer s = [].
Proof.
  intros Htr Hhdr. eexists. split; [by apply (init_network_side_state_run _ _ _ hdr rest r)|].
  repeat split; try done. right. split; [done|]. intros p. discriminate.
Qed.

Definition sample_boot : net sim_object :=
  boot_state (w_instance_state (sample_world (B := unit) Null)) (0, 0).

Definition sample_files (file : list byte) : files :=
  {| hw_to_sw := None; sw_to_hw := None; trace := Some (Stream file 0 false 0) |}.

Lemma init_network_side_state_ok_witness :
  ∃ s, init_network_side_state (sample_files (replicate 24 Byte.x00 ++ [])) sample_boot
    = Done tt s (boot_trace
                 ++ [Printf "Initialized socket state\n" []]) ∧
    w_sim_backend (n_world s) = Live (inr {| pcap_file := Stream (replicate 24 Byte.x00 ++ []) 24 false 0;
                                             tcp_flows := ∅; flow_order := [] |}) ∧
    source_mac_addr (w_instance_state (n_world s)) = host_mac ∧
    s_addr_bytes (w_instance_state (n_world s)) = [Byte.xc0; Byte.x00; Byte.x00; Byte.x02] ∧
    rx_inv (rx_data_if s) ∧ rx_idle s ∧ tx_buffer s = [].
Proof.
  apply (init_network_side_state_ok (sample_files (replicate 24 Byte.x00 ++ []))
           (w_instance_state (sample_world (B := unit) Null)) (0, 0) (replicate 24 Byte.x00) [] 0);
    reflexivity.
Defined.

(** A trace file too short for its header ends the simulation, but
    initialization goes on and installs the backend all the same. *)
Theorem init_network_side_state_short_header fs inst now file r :
  trace fs = Some (Stream file 0 false r) → (length file < 24)%nat →
  ∃ s o, init_network_side_state fs (boot_state inst now)
    = Done tt s (boot_trace ++ [Printf "Error reading PCAP file header\n" []; FinishFromC;
                                   Printf "Initialized socket state\n" []]) ∧
    w_sim_backend (n_world s) = Live (inr o) ∧ tcp_flows o = ∅.
Proof.
  intros Htr Hl. unfold init_network_side_state, init_with.
  change (BACKEND =? FILE_IO) with false. change (BACKEND =? PCAP_TRACE) with true. cbv iota.
  do 2 (erewrite bind_done_nil by reflexivity). erewrite bind_done by reflexivity.
  destruct (consumePCAPHeader_short file r Hl) as [f' Hc].
  set (o := {| pcap_file := f'; tcp_flows := ∅; flow_order := [] |}).
  assert (∀ w : bworld sim_object, w_sim_backend w = Null → TCPPcapTestingLib_new (trace fs) w
    = Done o w [Printf "Error reading PCAP file header\n" []; FinishFromC]) as Hnew.
  { intros w Hw. rewrite Htr. unfold TCPPcapTestingLib_new.
    rewrite (bind_done_nil _ _ _ _ _ (run_local_done _ _ w _ _ _ Hc)). cbv beta iota.
    change (-1 <? 0) with true. cbv iota. unfold mbind, M_bind, printf, emit, finish_simulation.
    rewrite Hw. done. }
  eexists _, o. split; [|split; [|done]].
  { unfold mbind at 1, M_bind at 1. erewrite bind_done by reflexivity.
    erewrite bind_done by (apply on_world_done, Hnew; reflexivity). reflexivity. }
  done.
Qed.

Lemma init_network_side_state_short_header_witness :
  ∃ s o, init_network_side_state (sample_files []) sample_boot
    = Done tt s (boot_trace ++
                 [Printf "Error reading PCAP file header\n" []; FinishFromC;
                  Printf "Initialized socket state\n" []]) ∧
    w_sim_backend (n_world s) = Live (inr o) ∧ tcp_flows o = ∅.
Proof.
  apply (init_network_side_state_short_header (sample_files [])
           (w_instance_state (sample_world (B := unit) Null)) (0, 0) [] 0); simpl; [reflexivity|lia].
Defined.
