(* ===== verification/SimCpu.v ===== *)
(** SimCpu: sim_dpi/sim_cpu.cpp, the flow table the simulated CPU announces to
    the device. *)

From S2P Require Import Prelude Words Headers Backend.

(** ** State *)

Record flow_lookup := {
  host_ip : Z;
  dest_ip : Z;
  host_port : Z;
  dest_port : Z;
  flow_num : Z;
  flow_drive_valid : bool }.

Record flow_payloads := {
  payload_data : list byte;
  num_sent : Z;
  packet_drive_valid : bool }.

Record flow_state := {
  lookup_entry : flow_lookup;
  payloads : flow_payloads }.

(** [flows] and [local_sim_scope], and the scope of the running DPI call. *)
Record cpu := Cpu {
  flows : list flow_state;
  local_sim_scope : string;
  cur_scope : string }.

Definition set_lookup_entry (l : flow_lookup) (f : flow_state) : flow_state :=
  {| lookup_entry := l; payloads := payloads f |}.

Definition set_flow_drive_valid (b : bool) (l : flow_lookup) : flow_lookup :=
  {| host_ip := host_ip l; dest_ip := dest_ip l; host_port := host_port l;
     dest_port := dest_port l; flow_num := flow_num l; flow_drive_valid := b |}.

(** [flows + flow_id]; the table is zero at the start of the program. *)
Definition flow_at (flow_id : Z) : M cpu flow_state := λ s,
  match (if flow_id <? 0 then None else flows s !! Z.to_nat flow_id) with
  | Some f => Done f s []
  | None => Stopped Undefined []
  end.

Definition set_flow_at (flow_id : Z) (f : flow_state) : M cpu unit :=
  modify (λ s, Cpu (<[Z.to_nat flow_id := f]> (flows s)) (local_sim_scope s) (cur_scope s)).

Definition zero_flow : flow_state :=
  {| lookup_entry := {| host_ip := 0; dest_ip := 0; host_port := 0; dest_port := 0;
                        flow_num := 0; flow_drive_valid := false |};
     payloads := {| payload_data := replicate NUM_PAYLOADS Byte.x00; num_sent := 0;
                    packet_drive_valid := false |} |}.

(** ** Code *)

(** [svSetScope(svGetScopeFromName(name))] *)
Definition svSetScope (name : string) : M cpu unit :=
  modify (λ s, Cpu (flows s) (local_sim_scope s) name);;
  emit (SvSetScope name).

(** [set_new_flow]; [junk] is the word of the vector it does not write. *)
Definition set_new_flow (junk : Z) (flow_id : Z) (instance_state : sock_state) : M cpu unit :=
  orig_scope ← gets cur_scope;
  local ← gets local_sim_scope;
  printf "set new flow scope: %s\n" [AStr local];;
  svSetScope local;;
  f ← flow_at flow_id;
  let lookup :=
    {| host_ip := s_addr (source_addr instance_state);
       dest_ip := s_addr (dest_addr instance_state);
       host_port := sin_port (source_addr instance_state);
       dest_port := sin_port (dest_addr instance_state);
       flow_num := u32 flow_id;
       flow_drive_valid := flow_drive_valid (lookup_entry f) |} in
  set_flow_at flow_id (set_lookup_entry lookup f);;
  let dpi_flow_lookup :=
    [ u32 (Z.shiftl (host_port lookup) 16 + dest_port lookup);
      ntohl (dest_ip lookup); ntohl (host_ip lookup); junk ] in
  emit (WriteFlowidLookup dpi_flow_lookup flow_id (s32 (init_ack_num instance_state)));;
  set_flow_at flow_id (set_lookup_entry (set_flow_drive_valid true lookup) f);;
  svSetScope orig_scope.

(** [tick_flow_valid] *)
Definition tick_flow_valid (flow_id : Z) : M cpu bool :=
  f ← flow_at flow_id;
  let result := flow_drive_valid (lookup_entry f) in
  set_flow_at flow_id (set_lookup_entry (set_flow_drive_valid false (lookup_entry f)) f);;
  mret result.

(** [local_init] *)
Definition local_init : M cpu unit :=
  scope ← gets cur_scope;
  modify (λ s, Cpu (flows s) scope (cur_scope s));;
  printf "local init scope: %s\n" [AStr scope].

(** ** Specification: the announcements that are not taken yet *)

(** Which flows [tick_flow_valid] would report. *)
Definition announced (s : cpu) (i : Z) : bool :=
  if i <? 0 then false
  else match flows s !! Z.to_nat i with
       | Some f => flow_drive_valid (lookup_entry f)
       | None => false
       end.

Definition cpu_ok (s : cpu) : Prop := length (flows s) = ACTIVE_FLOW_CNT.

Definition in_table (i : Z) : Prop := 0 ≤ i < Z.of_nat ACTIVE_FLOW_CNT.

(** ** Lemmas *)

Lemma flow_at_in i s :
  cpu_ok s → in_table i → ∃ f, flow_at i s = Done f s [] ∧ flows s !! Z.to_nat i = Some f.
Proof.
  unfold cpu_ok, in_table. intros Hs Hi.
  destruct (lookup_lt_is_Some_2 (flows s) (Z.to_nat i)) as [f Hf]; [lia|].
  exists f. split; [|done]. unfold flow_at. rewrite (proj2 (Z.ltb_ge _ _)) by lia. by rewrite Hf.
Qed.

Lemma flow_at_out i s : cpu_ok s → ¬ in_table i → flow_at i s = Stopped Undefined [].
Proof.
  unfold cpu_ok, in_table, flow_at. intros Hs Hi. destruct (Z.ltb_spec i 0) as [|Hi0]; [done|].
  rewrite lookup_ge_None_2; [done|lia].
Qed.

Lemma announced_insert s f l sc cs i j :
  cpu_ok s → in_table i →
  announced (Cpu (<[Z.to_nat i := set_lookup_entry l f]> (flows s)) sc cs) j
  = if i =? j then flow_drive_valid l else announced s j.
Proof.
  unfold cpu_ok, in_table, announced. intros Hs Hi. cbn [flows].
  destruct (Z.eqb_spec i j) as [->|Hne].
  - rewrite (proj2 (Z.ltb_ge _ _)) by lia. by rewrite list_lookup_insert_eq by lia.
  - destruct (Z.ltb_spec j 0); [done|]. by rewrite list_lookup_insert_ne by lia.
Qed.

Lemma set_new_flow_run junk i st s :
  cpu_ok s → in_table i →
  ∃ s', set_new_flow junk i st s
    = Done tt s'
        [Printf "set new flow scope: %s\n" [AStr (local_sim_scope s)];
         SvSetScope (local_sim_scope s);
         WriteFlowidLookup
           [u32 (2 ^ 16 * sin_port (source_addr st) + sin_port (dest_addr st));
            ntohl (s_addr (dest_addr st)); ntohl (s_addr (source_addr st)); junk]
           i (s32 (init_ack_num st));
         SvSetScope (cur_scope s)] ∧
    cpu_ok s' ∧ cur_scope s' = cur_scope s ∧ local_sim_scope s' = local_sim_scope s ∧
    (∀ j, announced s' j = if i =? j then true else announced s j).
Proof.
  intros Hs Hi. unfold set_new_flow.
  do 2 (erewrite bind_done_nil by reflexivity). do 2 (erewrite bind_done by reflexivity).
  set (s1 := Cpu (flows s) (local_sim_scope s) (local_sim_scope s)).
  destruct (flow_at_in i s1 Hs Hi) as (f & Hf & Hl).
  rewrite (bind_done_nil _ _ _ _ _ Hf). cbv zeta.
  erewrite bind_done_nil by reflexivity. erewrite bind_done by reflexivity.
  erewrite bind_done_nil by reflexivity. rewrite !after_after.
  eexists. split; [|split; [|split; [|split]]].
  - unfold svSetScope, mbind, M_bind, modify, emit, after. cbn [app].
    cbn [host_port dest_port dest_ip host_ip].
    rewrite Z.shiftl_mul_pow2, (Z.mul_comm _ (2 ^ 16)) by lia. reflexivity.
  - unfold cpu_ok. cbn. by rewrite !length_insert.
  - done.
  - done.
  - intros j. cbn [flows s1]. rewrite list_insert_insert_eq.
    by rewrite (announced_insert s f).
Qed.

Lemma tick_flow_valid_run i s :
  cpu_ok s → in_table i →
  ∃ s', tick_flow_valid i s = Done (announced s i) s' [] ∧
    cpu_ok s' ∧ cur_scope s' = cur_scope s ∧ local_sim_scope s' = local_sim_scope s ∧
    (∀ j, announced s' j = if i =? j then false else announced s j).
Proof.
  intros Hs Hi. unfold tick_flow_valid. destruct (flow_at_in i s Hs Hi) as (f & Hf & Hl).
  rewrite (bind_done_nil _ _ _ _ _ Hf). cbv zeta. erewrite bind_done_nil by reflexivity.
  eexists. split; [|split; [|split; [|split]]].
  - unfold mret, M_ret, announced. unfold in_table in Hi.
    rewrite (proj2 (Z.ltb_ge _ _)) by lia. rewrite Hl. reflexivity.
  - unfold cpu_ok. cbn. by rewrite length_insert.
  - done.
  - done.
  - intros j. by rewrite (announced_insert s f).
Qed.

(** ** Properties *)

(** The calls of the testbench and of the simulated hardware. *)
Inductive cpu_op :=
| NewFlow (junk : Z) (flow_id : Z) (st : sock_state)
| Tick (flow_id : Z).

Definition op_flow (o : cpu_op) : Z :=
  match o with NewFlow _ i _ | Tick i => i end.

Definition run_op (o : cpu_op) : M cpu (option bool) :=
  match o with
  | NewFlow junk i st => set_new_flow junk i st;; mret None
  | Tick i => b ← tick_flow_valid i; mret (Some b)
  end.

(** The specification: the set of the flows announced and not yet reported. *)
Definition spec_op (o : cpu_op) (waiting : gset Z) : option bool * gset Z :=
  match o with
  | NewFlow _ i _ => (None, {[i]} ∪ waiting)
  | Tick i => (Some (bool_decide (i ∈ waiting)), waiting ∖ {[i]})
  end.

Fixpoint spec_run (ops : list cpu_op) (waiting : gset Z) : list (option bool) :=
  match ops with
  | [] => []
  | o :: ops' => let '(r, waiting') := spec_op o waiting in r :: spec_run ops' waiting'
  end.

(** [set_new_flow] tells the device the ports and addresses of both ends in
    host order, in the scope it was called in, and announces its flow only. *)
Theorem set_new_flow_spec junk i st s sp dp sa da :
  cpu_ok s → in_table i → sin_port (source_addr st) = sp → sin_port (dest_addr st) = dp →
  fits 2 sp → fits 2 dp → fits 4 sa → fits 4 da →
  s_addr (source_addr st) = htonl sa → s_addr (dest_addr st) = htonl da →
  ∃ s' tr, set_new_flow junk i st s = Done tt s' tr ∧
    dpi_calls tr = [SvSetScope (local_sim_scope s);
                    WriteFlowidLookup [2 ^ 16 * sp + dp; da; sa; junk] i (s32 (init_ack_num st));
                    SvSetScope (cur_scope s)] ∧
    cpu_ok s' ∧ cur_scope s' = cur_scope s ∧
    ∀ j, announced s' j = if i =? j then true else announced s j.
Proof.
  intros Hs Hi <- <- Hsp Hdp Hsa Hda Esa Eda.
  destruct (set_new_flow_run junk i st s Hs Hi) as (s' & Hrun & Hok & Hsc & _ & Hann).
  eexists s', _. split; [exact Hrun|]. split; [|done].
  rewrite Esa, Eda, !ntohl_htonl by done. unfold fits in Hsp, Hdp.
  change (8 * Z.of_nat 2) with 16 in *.
  rewrite u32_small, Z.mul_comm by (unfold fits; change (8 * Z.of_nat 4) with 32; lia).
  reflexivity.
Qed.

Definition sample_cpu : cpu := Cpu (replicate 4 zero_flow) "top.cpu" "top.tb".
Definition sample_conn : sock_state :=
  {| send_sock := 0; recv_sock := 0;
     source_addr := {| sin_family := AF_INET; sin_port := 1234; s_addr := htonl 0xc0000002 |};
     dest_addr := {| sin_family := AF_INET; sin_port := 80; s_addr := htonl 0xc0000001 |};
     source_mac_addr := sample_mac; dest_mac_addr := replicate 6 Byte.x00;
     has_syn_acked := 0; init_ack_num := 7 |}.

Lemma set_new_flow_spec_witness :
  ∃ s' tr, set_new_flow 0 2 sample_conn sample_cpu = Done tt s' tr ∧
    dpi_calls tr = [SvSetScope "top.cpu";
                    WriteFlowidLookup [2 ^ 16 * 1234 + 80; 0xc0000001; 0xc0000002; 0] 2 7;
                    SvSetScope "top.tb"] ∧
    cpu_ok s' ∧ cur_scope s' = "top.tb" ∧
    ∀ j, announced s' j = if 2 =? j then true else announced sample_cpu j.
Proof.
  apply (set_new_flow_spec 0 2 sample_conn sample_cpu 1234 80 0xc0000002 0xc0000001);
    reflexivity || (split; vm_compute; congruence).
Defined.

(** Over any sequence of calls for flows of the table, in any order, the
    flags refine the set of the flows announced and not yet reported: each
    announcement is reported by one tick, the first that follows it. *)
Theorem cpu_flags_refine_set ops s waiting :
  cpu_ok s → (∀ j, in_table j → announced s j = bool_decide (j ∈ waiting)) →
  Forall (λ o, in_table (op_flow o)) ops →
  ∃ s' tr, run_all (map run_op ops) s = Done (spec_run ops waiting) s' tr ∧ cpu_ok s'.
Proof.
  revert s waiting. induction ops as [|o ops IH]; intros s waiting Hs Hw Hops.
  { by eexists _, _. }
  apply Forall_cons in Hops as [Ho Hops]. cbn [map run_all spec_run].
  assert (∃ r w' s1 t1, spec_op o waiting = (r, w') ∧ run_op o s = Done r s1 t1 ∧ cpu_ok s1 ∧
            ∀ j, in_table j → announced s1 j = bool_decide (j ∈ w'))
    as (r & w' & s1 & t1 & Hspec & Hrun & Hok & Hann).
  { destruct o as [junk i st|i]; cbn [op_flow] in Ho; cbn [run_op spec_op].
    - destruct (set_new_flow_run junk i st s Hs Ho) as (s1 & Hrun & Hok & _ & _ & Hann).
      eexists _, _, s1, _. split; [done|]. split; [by rewrite (bind_done _ _ _ _ _ _ Hrun)|].
      split; [done|]. intros j Hj. rewrite Hann, Hw by done.
      destruct (Z.eqb_spec i j) as [->|Hne]; [by rewrite bool_decide_eq_true_2 by set_solver|].
      apply bool_decide_ext. set_solver.
    - destruct (tick_flow_valid_run i s Hs Ho) as (s1 & Hrun & Hok & _ & _ & Hann).
      rewrite Hw in Hrun by done.
      eexists _, _, s1, _. split; [done|]. split; [by rewrite (bind_done _ _ _ _ _ _ Hrun)|].
      split; [done|]. intros j Hj. rewrite Hann, Hw by done.
      destruct (Z.eqb_spec i j) as [->|Hne]; [by rewrite bool_decide_eq_false_2 by set_solver|].
      apply bool_decide_ext. set_solver. }
  rewrite Hspec. destruct (IH s1 w' Hok Hann Hops) as (s2 & t2 & Hrun2 & Hok2).
  rewrite (bind_done _ _ _ _ _ _ Hrun), (bind_done _ _ _ _ _ _ Hrun2).
  eexists _, _. split; [reflexivity|done].
Qed.

Lemma cpu_flags_refine_set_witness :
  ∃ s' tr, run_all (map run_op [Tick 1; NewFlow 0 1 sample_conn; Tick 0; Tick 1; Tick 1]) sample_cpu
    = Done [Some false; None; Some false; Some true; Some false] s' tr ∧ cpu_ok s'.
Proof.
  assert (spec_run [Tick 1; NewFlow 0 1 sample_conn; Tick 0; Tick 1; Tick 1] ∅
          = [Some false; None; Some false; Some true; Some false]) as <- by (vm_compute; reflexivity).
  apply (cpu_flags_refine_set [Tick 1; NewFlow 0 1 sample_conn; Tick 0; Tick 1; Tick 1] sample_cpu ∅).
  - reflexivity.
  - unfold in_table. intros j Hj. assert (j = 0 ∨ j = 1 ∨ j = 2 ∨ j = 3) as Hc
      by (change (Z.of_nat ACTIVE_FLOW_CNT) with 4 in Hj; lia).
    by destruct Hc as [->|[->|[->| ->]]].
  - repeat constructor; vm_compute; congruence.
Defined.

(** A flow number outside the table is not checked: both functions reach
    outside [flows]. *)
Theorem flow_id_out_of_table junk i st s :
  cpu_ok s → ¬ in_table i →
  tick_flow_valid i s = Stopped Undefined [] ∧
  ∃ tr, set_new_flow junk i st s = Stopped Undefined tr ∧
        dpi_calls tr = [SvSetScope (local_sim_scope s)].
Proof.
  intros Hs Hi. split.
  - unfold tick_flow_valid. apply bind_stopped. by apply flow_at_out.
  - unfold set_new_flow. do 2 (erewrite bind_done_nil by reflexivity).
    do 2 (erewrite bind_done by reflexivity). eexists.
    rewrite (bind_stopped _ _ _ Undefined []) by (by apply flow_at_out).
    split; [reflexivity|done].
Qed.

Lemma flow_id_out_of_table_witness :
  tick_flow_valid 4 sample_cpu = Stopped Undefined [] ∧
  ∃ tr, set_new_flow 0 4 sample_conn sample_cpu = Stopped Undefined tr ∧
        dpi_calls tr = [SvSetScope "top.cpu"].
Proof.
  apply (flow_id_out_of_table 0 4 sample_conn sample_cpu); [reflexivity|].
  unfold in_table. change (Z.of_nat ACTIVE_FLOW_CNT) with 4. lia.
Defined.
