(* ===== verification/Segments.v ===== *)
(** Segments: TCP segments as frames on the wire, what the code loads from
    them, and the record of a trace that holds one. *)

From S2P Require Import Prelude Words Headers Backend Pcap PcapTrace TcpMimic TcpTrace NetworkSide.

(** ** A TCP segment on the wire

    Twenty-byte IP and TCP headers; addresses, ports and numbers as the code
    loads them, in network order. *)

Record segment := {
  sg_dst_mac : list byte;
  sg_src_mac : list byte;
  sg_src_ip : Z;
  sg_dst_ip : Z;
  sg_src_port : Z;
  sg_dst_port : Z;
  sg_seq : Z;
  sg_ack : Z;
  sg_flags : Z;
  sg_payload : list byte }.

Definition segment_ok (g : segment) : Prop :=
  length (sg_dst_mac g) = 6%nat ∧ length (sg_src_mac g) = 6%nat ∧
  fits 4 (sg_src_ip g) ∧ fits 4 (sg_dst_ip g) ∧ fits 2 (sg_src_port g) ∧ fits 2 (sg_dst_port g) ∧
  fits 4 (sg_seq g) ∧ fits 4 (sg_ack g) ∧ fits 1 (sg_flags g) ∧
  Z.of_nat (length (sg_payload g)) ≤ 1460.

Definition sg_total (g : segment) : Z := 40 + Z.of_nat (length (sg_payload g)).

(** The 54 bytes of headers, without the addresses of the link. *)
Definition sg_headers (g : segment) : list byte :=
  le_split 2 (htons ETHERTYPE_IP) ++
  le_split 1 0x45 ++ le_split 1 0 ++ le_split 2 (htons (sg_total g)) ++ le_split 2 0 ++
  le_split 2 0 ++ le_split 1 64 ++ le_split 1 IPPROTO_TCP ++ le_split 2 0 ++
  le_split 4 (sg_src_ip g) ++ le_split 4 (sg_dst_ip g) ++
  le_split 2 (sg_src_port g) ++ le_split 2 (sg_dst_port g) ++ le_split 4 (sg_seq g) ++
  le_split 4 (sg_ack g) ++ le_split 1 0x50 ++ le_split 1 (sg_flags g) ++ le_split 2 1024 ++
  le_split 2 0 ++ le_split 2 0.

Definition frame_of (g : segment) : list byte :=
  sg_dst_mac g ++ sg_src_mac g ++ sg_headers g ++ sg_payload g.

(** The flow a segment belongs to, seen from the peer of the device. *)
Definition flow_of (to_device : bool) (g : segment) : TCPFlowTuple :=
  if to_device then {| my_ip := sg_src_ip g; their_ip := sg_dst_ip g;
                       my_port := sg_src_port g; their_port := sg_dst_port g |}
  else {| my_ip := sg_dst_ip g; their_ip := sg_src_ip g;
          my_port := sg_dst_port g; their_port := sg_src_port g |}.

(** [b] answers [a]: the ends are exchanged. *)
Definition answers (a b : segment) : Prop :=
  sg_src_ip b = sg_dst_ip a ∧ sg_dst_ip b = sg_src_ip a ∧
  sg_src_port b = sg_dst_port a ∧ sg_dst_port b = sg_src_port a.

Lemma sg_headers_length g : length (sg_headers g) = 42%nat.
Proof. unfold sg_headers. len. Qed.

Lemma frame_of_length g :
  segment_ok g → length (frame_of g) = (54 + length (sg_payload g))%nat.
Proof.
  intros (H1 & H2 & _). unfold frame_of. pose proof (sg_headers_length g). len.
Qed.

(** Loading a field of the headers. *)
Lemma ld_frame g rest base f v :
  segment_ok g → (12 ≤ base + f_off f)%nat →
  rd (f_len f) (base + f_off f - 12) (sg_headers g ++ sg_payload g ++ rest) = Some v →
  ld base f (frame_of g ++ rest) = Some v.
Proof.
  intros (H1 & H2 & _) Hb Hr. unfold ld, frame_of.
  replace (base + f_off f)%nat with (length (sg_dst_mac g ++ sg_src_mac g) + (base + f_off f - 12))%nat
    by len.
  rewrite <- !app_assoc, (app_assoc (sg_dst_mac g)).
  unfold rd in *. rewrite <- Hr. f_equal. unfold rd_bytes.
  rewrite drop_app_add. by repeat case_decide; len.
Qed.

(** What the code loads from a segment, whatever follows it in the buffer. *)
Lemma frame_fields g rest :
  segment_ok g →
  ld 0 eth_type (frame_of g ++ rest) = Some (htons ETHERTYPE_IP) ∧
  ld 14 ip_ver_ihl (frame_of g ++ rest) = Some 0x45 ∧
  ld 14 ip_total_length (frame_of g ++ rest) = Some (htons (sg_total g)) ∧
  ld 14 ip_src_addr (frame_of g ++ rest) = Some (sg_src_ip g) ∧
  ld 14 ip_dst_addr (frame_of g ++ rest) = Some (sg_dst_ip g) ∧
  ld 34 tcp_src_port (frame_of g ++ rest) = Some (sg_src_port g) ∧
  ld 34 tcp_dst_port (frame_of g ++ rest) = Some (sg_dst_port g) ∧
  ld 34 tcp_seq_num (frame_of g ++ rest) = Some (sg_seq g) ∧
  ld 34 tcp_hdrlen_rsvd_nonce (frame_of g ++ rest) = Some 0x50 ∧
  ld 34 tcp_flags (frame_of g ++ rest) = Some (sg_flags g).
Proof.
  intros Hg. pose proof Hg as (H1 & H2 & H3 & H4 & H5 & H6 & H7 & H8 & H9 & H10).
  pose proof (htons_fits (sg_total g)) as H11. pose proof (htons_fits ETHERTYPE_IP) as H12.
  assert (fits 1 0x45) as H13 by done. assert (fits 1 0x50) as H14 by done.
  repeat split; (apply ld_frame; [done|simpl; lia|]); unfold sg_headers; rewrite <- !app_assoc;
    cbn [f_off f_len eth_type ip_ver_ihl ip_total_length ip_src_addr ip_dst_addr tcp_src_port
         tcp_dst_port tcp_seq_num tcp_hdrlen_rsvd_nonce tcp_flags Nat.add Nat.sub];
    rd_enc; reflexivity.
Qed.

Section Segment.
Variables (g : segment) (Hg : segment_ok g).

Lemma frame_parsed : parsed (frame_of g) 0x45 0x50 (htons (sg_total g)) (sg_seq g) (sg_flags g).
Proof.
  destruct (frame_fields g [] Hg) as (_ & H1 & H2 & _ & _ & _ & _ & H3 & H4 & H5).
  rewrite app_nil_r in *. by split.
Qed.

Lemma frame_lookup send rest :
  flow_lookup_tuple send (frame_of g ++ rest) 34 = Some (flow_of send g).
Proof.
  destruct (frame_fields g rest Hg) as (_ & _ & _ & H1 & H2 & H3 & H4 & _).
  unfold flow_lookup_tuple. by rewrite H1, H2, H3, H4.
Qed.

Lemma frame_direction mac rest :
  length mac = 6%nat →
  is_send_packet (frame_of g ++ rest) mac = Some (bool_decide (sg_dst_mac g = mac)).
Proof.
  intros Hm. pose proof (frame_of_length g Hg). rewrite is_send_packet_spec by len.
  do 2 f_equal. destruct Hg as (H1 & _). unfold frame_of. rewrite <- !app_assoc.
  by rewrite take_app_exact.
Qed.

Lemma frame_packet_flow mac :
  length mac = 6%nat → sg_dst_mac g ≠ mac → packet_flow mac (frame_of g) = Some (flow_of false g).
Proof.
  intros Hm Hne. pose proof (frame_direction mac [] Hm) as Hd.
  pose proof (frame_lookup false []) as Hl.
  destruct (frame_fields g [] Hg) as (_ & H1 & _). rewrite app_nil_r in *.
  unfold packet_flow. rewrite H1. cbn [mbind option_bind]. rewrite Hd.
  rewrite bool_decide_eq_false_2 by done. exact Hl.
Qed.

Lemma frame_ipv4 : ipv4_packet (frame_of g) (sg_total g).
Proof.
  pose proof (frame_of_length g Hg) as Hl.
  destruct (frame_fields g [] Hg) as (H0 & _ & H2 & _). rewrite app_nil_r in *.
  destruct Hg as (_ & _ & _ & _ & _ & _ & _ & _ & _ & Hp).
  repeat split; [done|done|unfold sg_total; lia|unfold sg_total; simpl; lia|lia].
Qed.

Lemma frame_whole : ip_frame (frame_of g) (sg_total g) = frame_of g.
Proof.
  unfold ip_frame, sg_total. apply take_ge. rewrite frame_of_length by done. lia.
Qed.
End Segment.

(** ** In a trace *)

(** A stack whose leftover looks like an IP header of 20 bytes: the backend
    takes the length of the header from there. *)
Definition stack_ok (fr : frame) : Prop :=
  frame_ok fr ∧ ∃ vi, ld 14 ip_ver_ihl (fr_buf fr) = Some vi ∧ tcp_offset vi = 34%nat.

(** The record of the trace that holds [pkt]. *)
Definition whole_record (h : pcap_pkthdr) (pkt : list byte) : Prop :=
  len_ h = Z.of_nat (length pkt).

(** The next record of the trace, when it holds the segment [g]. *)
Lemma next_record_segment w o fr pre h g post r mac :
  stack_ok fr → segment_ok g → whole_record h (frame_of g) →
  w_sim_backend w = Live o → source_mac_addr (w_instance_state w) = mac → length mac = 6%nat →
  pcap_file o = Stream (pre ++ (pcap_pkthdr_enc h ++ frame_of g) ++ post) (length pre) false r →
  let send := bool_decide (sg_dst_mac g = mac) in
  next_record w o fr (frame_of g) send (flow_of send g)
    (Stream ((pre ++ pcap_pkthdr_enc h ++ frame_of g) ++ post)
            (length (pre ++ pcap_pkthdr_enc h ++ frame_of g)) false r)
    [Printf "Packet len is %d\n" [ANum (Z.of_nat (length (frame_of g)))]].
Proof.
  intros [(Hh & Hb & _) (vi & Hvi & Hoff)] Hg Hrec Hw Hmac Hm Hf send.
  pose proof (frame_of_length g Hg) as Hl.
  assert (Z.of_nat (length (frame_of g)) ≤ 1514) as Hmax by (destruct Hg; lia).
  split; [done|].
  exists (Z.of_nat (length (frame_of g))), (frame_of g ++ drop (length (frame_of g)) (fr_buf fr)).
  split.
  { rewrite Hf. rewrite <- !app_assoc, read_record_whole by (done || lia).
    do 2 f_equal. rewrite !length_app, pcap_pkthdr_enc_length. lia. }
  split; [lia|]. rewrite Nat2Z.id. split.
  { rewrite rd_bytes_app_l by lia. apply rd_bytes_all. }
  split; [rewrite Hmac; by apply frame_direction|].
  exists vi. split; [done|]. rewrite Hoff. by apply frame_lookup.
Qed.

(** ** A connection request to the device and the answer *)

Definition sample_syn : segment :=
  {| sg_dst_mac := sample_mac; sg_src_mac := replicate 6 Byte.x11; sg_src_ip := 1; sg_dst_ip := 2;
     sg_src_port := 3; sg_dst_port := 4; sg_seq := htonl 1000; sg_ack := 0; sg_flags := TCP_SYN;
     sg_payload := [] |}.
Definition sample_synack : segment :=
  {| sg_dst_mac := replicate 6 Byte.x11; sg_src_mac := sample_mac; sg_src_ip := 2; sg_dst_ip := 1;
     sg_src_port := 4; sg_dst_port := 3; sg_seq := htonl 7; sg_ack := htonl 1001; sg_flags := 18;
     sg_payload := [] |}.

Lemma sample_syn_ok : segment_ok sample_syn.
Proof. repeat split; vm_compute; (reflexivity || congruence). Defined.

Lemma sample_synack_ok : segment_ok sample_synack.
Proof. repeat split; vm_compute; (reflexivity || congruence). Defined.

Lemma sample_stack_ok : stack_ok sample_stack.
Proof. split; [repeat split|]. exists 0x45. split; vm_compute; reflexivity. Defined.
