(* ===== verification/Replay.v ===== *)
(** Replay: the network side over a backend that has packets for the device
    and takes the packets of the device, whatever the order in which the two
    directions of the interface are called.

    [ReplayBackend] is what such a backend promises; the trace backend of
    PcapTrace and the file exchange of FileIO are instances.  The session
    theorems are proved against the interface and then applied: to a whole
    replay of a trace, to its end, and to two simulations linked by a file. *)

From S2P Require Import Prelude Words Headers Backend Pcap FileIO PcapTrace TcpMimic TcpTrace NetworkSide.

(** An IPv4 packet without link-layer trailer. *)
Definition ipv4_exact (p : list byte) : Prop :=
  ∃ total, ipv4_packet p total ∧ Z.of_nat (length p) = total + 14.

(** ** The interface *)

(** [holds o outs ins]: [o] has the packets [outs] for the device, in this
    order, and will take the packets [ins]; taking the last of them may end the
    simulation. *)
Class ReplayBackend (B : Type) `{!DPITestingLib B} := {
  holds : B → list (list byte) → list (list byte) → Prop;
  holds_get fr (w : bworld B) o p outs ins :
    w_sim_backend w = Live o → frame_ok fr → holds o (p :: outs) ins →
    ∃ o' tr, get_buf_fr_io fr w = Done p (set_sim_backend (Live o') w) tr ∧
      holds o' outs ins ∧ visible tr = [];
  holds_poll fr (w : bworld B) o ins :
    w_sim_backend w = Live o → frame_ok fr → holds o [] ins →
    ∃ o' tr, get_buf_fr_io fr w = Done [] (set_sim_backend (Live o') w) tr ∧
      holds o' [] ins ∧ visible tr = [];
  holds_put (w : bworld B) o p q outs ins :
    w_sim_backend w = Live o → holds o outs (p :: q :: ins) →
    ∃ n o' tr, put_buf_on_io p w = Done n (set_sim_backend (Live o') w) tr ∧
      holds o' outs (q :: ins) ∧ visible tr = [] }.

(** ** Sequences of calls of the device *)

Inductive dev_call :=
| Poll (fr : frame)
| PutBeat (b : beat).

Definition exec `{DPITestingLib B} (c : dev_call) : M (net B) unit :=
  match c with
  | Poll fr => get_data fr
  | PutBeat b => put_data (b_data b) (b_last b) (b_padbytes b)
  end.

Fixpoint puts_of (cs : list dev_call) : list beat :=
  match cs with
  | [] => []
  | Poll _ :: cs' => puts_of cs'
  | PutBeat b :: cs' => b :: puts_of cs'
  end.

Fixpoint polls_of (cs : list dev_call) : nat :=
  match cs with
  | [] => 0
  | Poll _ :: cs' => S (polls_of cs')
  | PutBeat _ :: cs' => polls_of cs'
  end.

Definition frames_ok (cs : list dev_call) : Prop :=
  Forall (λ c, match c with Poll fr => frame_ok fr | PutBeat _ => True end) cs.

(** What [n] polls drive when the beats [D] are due. *)
Definition driven (n : nat) (D : list beat) : list event :=
  take n (map drive D ++ replicate n invalid_beat).

Lemma driven_S n D :
  driven (S n) D = match D with b :: _ => drive b | [] => invalid_beat end :: driven n (tail D).
Proof.
  unfold driven. destruct D as [|b D]; [done|]. simpl. f_equal.
  change (invalid_beat :: replicate n invalid_beat) with (replicate (S n) invalid_beat).
  rewrite replicate_S_end, app_assoc, take_app_le; [done|].
  rewrite length_app, length_replicate. lia.
Qed.

(** ** The simulation *)

Section Simulation.
Context `{ReplayBackend B}.
Implicit Types (s : net B).

(** The beats still to be driven, and those still to be taken. *)
Definition rx_todo (rx : rx_data_interface_struct) (outs : list (list byte)) (D : list beat) : Prop :=
  (rx_buffer_len rx ≤ rx_buffer_pos rx ∧ D = outs ≫= beats) ∨
  (∃ p k, rx = rx_at p k ∧ (k < length p)%nat ∧ Z.of_nat (length p) < 2 ^ 17 ∧
          D = beats (drop k p) ++ (outs ≫= beats)).

Definition tx_todo (tx : list byte) (ins : list (list byte)) (T : list beat) : Prop :=
  match ins with
  | [] => tx = [] ∧ T = []
  | f :: ins' => ∃ q, q ≠ [] ∧ f = tx ++ q ∧ T = beats q ++ (ins' ≫= beats)
  end.

Definition todo s (D T : list beat) : Prop :=
  ∃ o outs ins, w_sim_backend (n_world s) = Live o ∧ holds o outs ins ∧
    Forall ipv4_exact outs ∧ Forall (λ p, p ≠ []) ins ∧
    rx_todo (rx_data_if s) outs D ∧ tx_todo (tx_buffer s) ins T.

Lemma todo_start s o outs ins :
  w_sim_backend (n_world s) = Live o → holds o outs ins → rx_idle s → tx_buffer s = [] →
  Forall ipv4_exact outs → Forall (λ p, p ≠ []) ins →
  todo s (outs ≫= beats) (ins ≫= beats).
Proof.
  intros Hw Ho Hrx Htx Hout Hin. exists o, outs, ins. split_and!; try done; [by left|].
  rewrite Htx. destruct Hin as [|p ins Hp Hin]; [done|]. by exists p.
Qed.

(** After a beat of [p] the rest of [p] is due. *)
Lemma rx_after_todo p k outs :
  (k < length p)%nat → Z.of_nat (length p) < 2 ^ 17 →
  rx_todo (rx_after p k) outs (beats (drop (k + MAC_BYTES) p) ++ (outs ≫= beats)).
Proof.
  intros Hk Hp. unfold rx_after. case_decide as Hd.
  - left. simpl. rewrite (drop_ge p) by done. split; [lia|done].
  - right. eexists _, _. split; [reflexivity|]. split; [lia|done].
Qed.

Lemma drop_ne {A} k (p : list A) : (k < length p)%nat → drop k p ≠ [].
Proof. intros Hk E. apply (f_equal length) in E. rewrite length_drop in E. simpl in E. lia. Qed.

(** A beat of the packet in the buffer. *)
Lemma drive_todo fr s p k outs :
  rx_data_if s = rx_at p k → (k < length p)%nat → Z.of_nat (length p) < 2 ^ 17 → frame_ok fr →
  ∃ b D tr, beats (drop k p) ++ (outs ≫= beats) = b :: D ∧
    drive_beat fr s = Done tt (set_rx (rx_after p k) s) tr ∧ visible tr = [drive b] ∧
    rx_todo (rx_after p k) outs D.
Proof.
  intros Hrx Hk Hp (_ & _ & _ & Hv).
  destruct (drive_beat_run fr s p k Hrx Hk ltac:(lia) Hv) as (tr & Hrun & Htr).
  rewrite (beats_unfold _ (drop_ne k p Hk)), drop_drop.
  eexists _, _, tr. split; [reflexivity|]. split; [done|]. split; [done|].
  by apply rx_after_todo.
Qed.

Lemma poll_todo fr s D T :
  frame_ok fr → todo s D T →
  ∃ s' tr, get_data fr s = Done tt s' tr ∧ visible tr = driven 1 D ∧ todo s' (tail D) T.
Proof.
  intros Hfr (o & outs & ins & Hw & Ho & Hout & Hin & Hrx & Htx). rewrite driven_S.
  destruct Hrx as [[Hidle ->]|(p & k & Hrx & Hk & Hp & ->)].
  - destruct Hout as [|p outs Hpkt Hout].
    + destruct (holds_poll fr (n_world s) o ins Hw Hfr Ho) as (o' & tr & Hg & Ho' & Htr).
      pose proof (get_data_none_run fr s [] _ tr Hidle Hg ltac:(by left)) as Hrun.
      eexists _, _. split; [exact Hrun|]. rewrite visible_app, Htr. split; [done|].
      exists o', [], ins. split_and!; try done. by left.
    + destruct (holds_get fr (n_world s) o p outs ins Hw Hfr Ho) as (o' & tr & Hg & Ho' & Htr).
      destruct Hpkt as (total & Hpkt & Hlen).
      destruct (recv_from_socket_ipv4 _ _ _ _ _ _ Hg Hpkt ltac:(lia)) as (tr1 & Hr & Htr1 & Hl).
      assert (ip_frame p total = p) as E by (unfold ip_frame; rewrite take_ge by lia; done).
      rewrite E in *. set (s1 := set_rx (rx_at p 0) _) in Hr.
      destruct (drive_todo fr s1 p 0 outs eq_refl ltac:(lia) ltac:(lia) Hfr)
        as (b & D & tr2 & ED & Hrun & Htr2 & Hrx).
      rewrite drop_0 in ED. change (((p :: outs) ≫= beats)) with (beats p ++ (outs ≫= beats)).
      rewrite ED. eexists _, _. split; [|split].
      * unfold get_data. erewrite bind_done_nil by reflexivity.
        rewrite (proj2 (Z.leb_le _ _)) by done. rewrite (bind_done _ _ _ _ _ _ Hr).
        rewrite (proj2 (Z.eqb_neq _ _)) by lia. rewrite Hrun. reflexivity.
      * by rewrite !visible_app, Htr, Htr1, Htr2.
      * by exists o', outs, ins.
  - destruct (drive_todo fr s p k outs Hrx Hk Hp Hfr) as (b & D & tr & ED & Hrun & Htr & Hrx').
    rewrite ED. eexists _, _. split; [|split; [exact Htr|]].
    + by rewrite (get_data_live _ _ _ _ Hrx Hk).
    + by exists o, outs, ins.
Qed.

Lemma put_todo s D b T :
  todo s D (b :: T) → T ≠ [] →
  ∃ s' tr, put_beat b s = Done tt s' tr ∧ visible tr = [] ∧ todo s' D T.
Proof.
  intros (o & outs & ins & Hw & Ho & Hout & Hin & Hrx & Htx) HT.
  destruct Hin as [|f ins Hf Hin]; [by destruct Htx|].
  destruct Htx as (q & Hq & -> & E). rewrite (beats_unfold _ Hq) in E. injection E as -> ->.
  destruct (decide (length q ≤ MAC_BYTES)%nat) as [Hle|Hgt].
  - rewrite (drop_ge q) in HT |- * by done.
    destruct Hin as [|f2 ins Hf2 Hin]; [done|].
    destruct (holds_put (n_world s) o _ f2 outs ins Hw Ho) as (n & o' & tr & Hput & Ho' & Htr).
    destruct (put_beat_last q s n _ tr Hle Hput) as (t & Hrun & Ht).
    eexists _, t. split; [exact Hrun|]. split; [by rewrite Ht|].
    exists o', outs, (f2 :: ins). split_and!; try done; [by constructor|].
    exists f2. split; [done|]. by split.
  - destruct (put_beat_more q s) as (t & Hrun & Ht); [lia|].
    eexists _, t. split; [exact Hrun|]. split; [done|].
    exists o, outs, ((tx_buffer s ++ q) :: ins). split_and!; try done; [by constructor|].
    exists (drop MAC_BYTES q). split; [apply drop_ne; lia|].
    split; [|done]. cbn [tx_buffer set_tx_buffer]. by rewrite <- app_assoc, take_drop.
Qed.

(** The calls, in any order, as long as a beat is still to be taken after the
    last of them. *)
Lemma session_run cs s D T rest :
  frames_ok cs → todo s D T → T = puts_of cs ++ rest → rest ≠ [] ∨ puts_of cs = [] →
  ∃ us s' tr, run_all (map exec cs) s = Done us s' tr ∧
    visible tr = driven (polls_of cs) D ∧ todo s' (drop (polls_of cs) D) rest.
Proof.
  revert s D T. induction cs as [|c cs IH]; intros s D T Hfr Hs -> Hrest.
  { eexists _, s, _. split; [reflexivity|]. rewrite drop_0. split; [|done].
    unfold driven. by rewrite take_0. }
  apply Forall_cons in Hfr as [Hc Hfr]. cbn [map run_all].
  destruct c as [fr|b]; cbn [puts_of polls_of exec] in *.
  - destruct (poll_todo fr s D _ Hc Hs) as (s1 & tr1 & Hrun & Htr1 & Hs1).
    destruct (IH s1 (tail D) _ Hfr Hs1 eq_refl Hrest) as (us & s' & tr & Hrun' & Htr & Hs').
    eexists _, s', _. rewrite (bind_done _ _ _ _ _ _ Hrun), (bind_done _ _ _ _ _ _ Hrun').
    split; [reflexivity|]. rewrite app_nil_r, visible_app, Htr1, Htr, !driven_S.
    split; [by destruct D|]. by destruct D; [rewrite drop_nil in *|].
  - destruct Hrest as [Hrest|]; [|done].
    destruct (put_todo s D b (puts_of cs ++ rest) Hs) as (s1 & tr1 & Hrun & Htr1 & Hs1).
    { intros E. by apply app_eq_nil in E as [_ E]. }
    destruct (IH s1 D _ Hfr Hs1 eq_refl (or_introl Hrest)) as (us & s' & tr & Hrun' & Htr & Hs').
    eexists _, s', _. unfold put_beat in Hrun.
    rewrite (bind_done _ _ _ _ _ _ Hrun), (bind_done _ _ _ _ _ _ Hrun').
    split; [reflexivity|]. by rewrite app_nil_r, visible_app, Htr1, Htr.
Qed.
End Simulation.

(** ** The trace backend *)

#[export] Program Instance Pcap_replay : ReplayBackend PcapTestingLib := {
  holds o outs ins := send_pkts o = outs ∧ recv_pkts o = ins }.
Next Obligation.
  intros fr w o p outs ins Hw _ [Hs Hr]. eexists _, _. cbn [get_buf_fr_io Pcap_backend].
  unfold Pcap_get_buf_fr_io, mbind, M_bind, this. rewrite Hw, Hs. by split.
Qed.
Next Obligation.
  intros fr w o ins Hw _ [Hs Hr]. exists o, []. cbn [get_buf_fr_io Pcap_backend].
  unfold Pcap_get_buf_fr_io, mbind, M_bind, this. rewrite Hw, Hs. split; [|done].
  destruct w as [i n p]. simpl in *. by subst p.
Qed.
Next Obligation.
  intros w o p q outs ins Hw [Hs Hr].
  pose proof (Pcap_put_matching w o p (q :: ins) Hw Hr) as Hput.
  eexists _, _, _. split; [exact Hput|]. by split.
Qed.

(** ** The file exchange *)

(** Records of a pcap file that hold these packets. *)
Inductive records : list byte → list (list byte) → Prop :=
| records_nil : records [] []
| records_cons h p bs ps :
    len_ h = Z.of_nat (length p) → (0 < length p)%nat → Z.of_nat (length p) ≤ 2048 →
    records bs ps → records (pcap_pkthdr_enc h ++ p ++ bs) (p :: ps).

Lemma records_app bs1 ps1 bs2 ps2 :
  records bs1 ps1 → records bs2 ps2 → records (bs1 ++ bs2) (ps1 ++ ps2).
Proof.
  intros H1 H2. induction H1 as [|h p bs ps Hl H0 Hp H1 IH]; [done|].
  rewrite <- !app_assoc. by constructor.
Qed.

(** The bytes that packets take in a file. *)
Definition file_size (ps : list (list byte)) : nat := sum_list_with (λ p, 16 + length p)%nat ps.

Definition file_holds (o : FileIOTestingLib) (outs ins : list (list byte)) : Prop :=
  (∃ pre bs e r, recv_file o = Stream (pre ++ bs) (length pre) e r ∧ records bs outs ∧
                 (e = true → outs = [])) ∧
  (file_size ins ≤ room (send_file o))%nat ∧ Forall (λ p, Z.of_nat (length p) ≤ 2048) ins.

(** A packet that fits is appended as one record. *)
Lemma FileIO_put_record w o p :
  w_sim_backend w = Live o → Z.of_nat (length p) ≤ 2048 →
  (16 + length p ≤ room (send_file o))%nat →
  ∃ bs f, FileIO_put_buf_on_io p w
    = Done (Z.of_nat (length p)) (set_sim_backend (Live (set_send_file f o)) w) [] ∧
    ((0 < length p)%nat → records bs [p]) ∧ content f = content (send_file o) ++ bs ∧
    room f = (room (send_file o) - (16 + length p))%nat.
Proof.
  intros Hw Hp Hroom. unfold FileIO_put_buf_on_io.
  pose proof (write_record_room (w_now w) p (send_file o) ltac:(lia) ltac:(lia)) as Hwr.
  cbv zeta in Hwr. match type of Hwr with context [pcap_pkthdr_enc ?x] => set (h := x) in * end.
  rewrite u32_small by (unfold fits; lia). erewrite bind_done_nil by reflexivity.
  unfold on_this, zoom. rewrite Hw, Hwr. eexists (pcap_pkthdr_enc h ++ p ++ []), _.
  split; [reflexivity|]. split; [intros; by repeat constructor|]. split; [by rewrite app_nil_r|done].
Qed.

Lemma FileIO_get_end w o fr pre r :
  w_sim_backend w = Live o → recv_file o = Stream pre (length pre) false r →
  FileIO_get_buf_fr_io fr w
  = Done [] (set_sim_backend (Live (set_recv_file (Stream pre (length pre) true r) o)) w) [].
Proof.
  intros Hw Hr. unfold FileIO_get_buf_fr_io.
  erewrite bind_done_nil by (unfold on_this, zoom; rewrite Hw, Hr, read_record_end; reflexivity).
  cbv beta iota zeta. change (Z.to_nat (u32 0)) with 0%nat.
  assert (rd_bytes 0 0 (fr_buf fr) = Some []) as -> by (apply rd_bytes_Some; split; [lia|done]).
  done.
Qed.

#[export] Program Instance FileIO_replay : ReplayBackend FileIOTestingLib := { holds := file_holds }.
Next Obligation.
  intros fr w o p outs ins Hw Hfr ((pre & bs & e & r & Hf & Hb & He) & Hin).
  inversion Hb as [|h p' bs' ps Hl H0 Hp Hb']; subst. destruct e; [by specialize (He eq_refl)|].
  pose proof (FileIO_get_record w o pre h p bs' r fr Hfr Hw Hf Hl Hp) as Hg.
  eexists _, _. split; [exact Hg|]. split; [|done]. split; [|done].
  exists (pre ++ pcap_pkthdr_enc h ++ p), bs', false, r. split; [|done].
  cbn [recv_file set_recv_file]. rewrite <- !app_assoc. f_equal. len.
Qed.
Next Obligation.
  intros fr w o ins Hw Hfr ((pre & bs & e & r & Hf & Hb & He) & Hin).
  inversion Hb; subst. rewrite app_nil_r in Hf. destruct e.
  - exists o, []. split.
    + rewrite (FileIO_get_eof w o fr Hw) by (by rewrite Hf). f_equal. destruct w. simpl in *. by subst.
    + split; [|done]. split; [|done]. exists pre, [], true, r. by rewrite app_nil_r.
  - eexists _, _. split; [by eapply FileIO_get_end|]. split; [|done]. split; [|done].
    exists pre, [], true, r. by rewrite app_nil_r.
Qed.
Next Obligation.
  intros w o p q outs ins Hw (Hout & Hroom & Hp).
  apply Forall_cons in Hp as [Hp Hps]. unfold file_size in Hroom. cbn [sum_list_with] in Hroom.
  destruct (FileIO_put_record w o p Hw Hp) as (bs & f & Hput & _ & _ & Hf); [lia|].
  eexists _, _, _. split; [exact Hput|]. split; [|done]. split; [done|]. split; [|done].
  cbn [send_file set_send_file]. rewrite Hf. unfold file_size. cbn [sum_list_with]. lia.
Qed.

(** ** Sessions *)

Section Sessions.
Context `{ReplayBackend B}.
Implicit Types (s : net B).

(** C31: the two directions of the interface do not disturb each other: over a
    backend that has the packets [outs], IPv4 packets of exactly the length
    their header says with 14 bytes of Ethernet and no padding, and takes the
    packets [ins], not empty, with no packet under way at the start, and for any
    interleaving of the calls of [get_data] with the beats of [ins] (the last
    beat left out), the n polls drive the first n beats of [outs], then invalid
    beats, and nothing else is visible. *)
Theorem session_interleaved s o outs ins cs rest :
  w_sim_backend (n_world s) = Live o → holds o outs ins → rx_idle s → tx_buffer s = [] →
  Forall ipv4_exact outs → Forall (λ p, p ≠ []) ins →
  frames_ok cs → ins ≫= beats = puts_of cs ++ rest → rest ≠ [] ∨ puts_of cs = [] →
  ∃ us s' tr, run_all (map exec cs) s = Done us s' tr ∧
    visible tr = driven (polls_of cs) (outs ≫= beats).
Proof.
  intros Hw Ho Hrx Htx Hout Hin Hfr Hcs Hrest.
  pose proof (todo_start s o outs ins Hw Ho Hrx Htx Hout Hin) as Hs.
  destruct (session_run cs s _ _ rest Hfr Hs Hcs Hrest) as (us & s' & tr & Hrun & Htr & _).
  by exists us, s', tr.
Qed.
End Sessions.

(** The last beat of the last packet a trace expects. *)
Lemma Pcap_last_beat (s : net PcapTestingLib) D b :
  todo s D [b] →
  ∃ s' tr, put_beat b s = Done tt s' tr ∧ visible tr = [FinishFromC] ∧
           w_sim_backend (n_world s') = Dangling.
Proof.
  intros (o & outs & ins & Hw & [Ho1 Ho2] & Hout & Hin & Hrx & Htx).
  destruct Hin as [|f ins Hf Hin]; [by destruct Htx|].
  destruct Htx as (q & Hq & -> & E). rewrite (beats_unfold _ Hq) in E. injection E as -> E.
  symmetry in E. apply app_eq_nil in E as [E1 E2].
  assert (length q ≤ MAC_BYTES)%nat as Hle.
  { destruct (decide (length q ≤ MAC_BYTES)%nat); [done|].
    rewrite (beats_unfold _ (drop_ne MAC_BYTES q ltac:(lia))) in E1. done. }
  assert (ins = []) as ->.
  { destruct Hin as [|f2 ins Hf2 Hin]; [done|]. cbn in E2. apply app_eq_nil in E2 as [E2 _].
    by rewrite (beats_unfold _ Hf2) in E2. }
  pose proof (Pcap_put_matching (n_world s) o _ [] Hw Ho2) as Hput.
  destruct (put_beat_last (H:=Pcap_backend) q s _ _ _ Hle Hput) as (t & Hrun & Ht).
  eexists _, t. split; [exact Hrun|]. split; [|done]. rewrite Ht. reflexivity.
Qed.

(** C23: replaying a trace to its end, with no packet under way at the start.
    The packets the trace has for the device are IPv4 packets of exactly the
    length their header says, 14 bytes of Ethernet and no padding (what is
    received goes by that length: a padded frame would be cut, a short one read
    past its end). The device polls and sends in any order; when the beats it
    sends are those of the packets the trace expects, none of them empty, every
    poll gets the next beat of the trace, and an invalid beat when there is
    none, nothing is reported, and the simulation is finished by the very last
    beat and not before. *)
Theorem Pcap_replay_complete (s : net PcapTestingLib) sends recvs cs b :
  w_sim_backend (n_world s) = Live {| send_pkts := sends; recv_pkts := recvs |} →
  rx_idle s → tx_buffer s = [] → Forall ipv4_exact sends → Forall (λ p, p ≠ []) recvs →
  frames_ok cs → recvs ≫= beats = puts_of cs ++ [b] →
  ∃ us s' tr, run_all (map exec (cs ++ [PutBeat b])) s = Done us s' tr ∧
    visible tr = driven (polls_of cs) (sends ≫= beats) ++ [FinishFromC] ∧
    w_sim_backend (n_world s') = Dangling.
Proof.
  intros Hw Hrx Htx Hout Hin Hfr Hcs.
  pose proof (todo_start (H := Pcap_replay) s _ sends recvs Hw (conj eq_refl eq_refl) Hrx Htx Hout Hin) as Hs.
  destruct (session_run cs s _ _ [b] Hfr Hs Hcs) as (us & s1 & tr1 & Hrun & Htr1 & Hs1); [by left|].
  destruct (Pcap_last_beat s1 _ b Hs1) as (s' & tr & Hlast & Htr & Hw').
  rewrite map_app. eexists _, s', _. split; [|split; [|exact Hw']].
  - eapply run_all_app; [exact Hrun|]. cbn [map run_all exec]. unfold put_beat in Hlast.
    rewrite (bind_done _ _ _ _ _ _ Hlast). reflexivity.
  - by rewrite !visible_app, Htr1, Htr.
Qed.

(** Packets sent beat by beat to the file exchange. *)
Lemma FileIO_send_all ps (s : net FileIOTestingLib) o :
  w_sim_backend (n_world s) = Live o → tx_buffer s = [] →
  Forall (λ p, p ≠ [] ∧ Z.of_nat (length p) ≤ 2048) ps →
  (file_size ps ≤ room (send_file o))%nat →
  ∃ us s' tr bs o', run_all (map put_beat (ps ≫= beats)) s = Done us s' tr ∧ visible tr = [] ∧
    w_sim_backend (n_world s') = Live o' ∧ content (send_file o') = content (send_file o) ++ bs ∧
    records bs ps.
Proof.
  intros Hw Htx Hps. revert s o Hw Htx.
  induction Hps as [|p ps [Hne Hp] Hps IH]; intros s o Hw Htx Hroom.
  { eexists _, s, _, [], o. split; [reflexivity|]. rewrite app_nil_r. split_and!; done || constructor. }
  unfold file_size in Hroom. cbn [sum_list_with] in Hroom.
  destruct (FileIO_put_record (n_world s) o p Hw Hp) as (bs1 & f & Hput & Hb1 & Hc & Hf); [lia|].
  assert (0 < length p)%nat as H0 by (destruct p; [done|simpl; lia]).
  destruct (put_beats_run (H:=FileIO_backend) p s _ _ _ Hne ltac:(by rewrite Htx))
    as (us1 & tr1 & Hrun1 & Htr1).
  set (s1 := set_tx_buffer [] (set_n_world _ s)) in Hrun1.
  destruct (IH s1 (set_send_file f o)) as (us2 & s' & tr2 & bs2 & o' & Hrun2 & Htr2 & Hw' & Hc' & Hb2);
    [done..|cbn [send_file set_send_file]; unfold file_size; lia|].
  exists (us1 ++ us2), s', (tr1 ++ tr2), (bs1 ++ bs2), o'.
  change ((p :: ps) ≫= beats) with (beats p ++ (ps ≫= beats)). rewrite map_app.
  split; [by eapply run_all_app|]. rewrite visible_app, Htr1, Htr2. split; [done|].
  split; [done|]. split.
  - rewrite Hc'. cbn [send_file set_send_file]. by rewrite Hc, <- app_assoc.
  - apply (records_app bs1 [p]); auto.
Qed.

(** C24: two simulations linked by a file, with no packet under way in either.
    When the packets one device sends, beat by beat, are IPv4 packets of exactly
    the length their header says, with 14 bytes of Ethernet and no padding, of
    at most 2048 bytes, and there is room for them in the file, they are
    appended to it; a second simulation whose receive stream is where the file
    ended before gives its device exactly the same beats, in the same order, and
    then invalid beats: for such packets the link is transparent. *)
Theorem linked_simulations ps (sA : net FileIOTestingLib) oA :
  w_sim_backend (n_world sA) = Live oA → tx_buffer sA = [] →
  Forall (λ p, ipv4_exact p ∧ Z.of_nat (length p) ≤ 2048) ps →
  (file_size ps ≤ room (send_file oA))%nat →
  ∃ usA sA' trA oA',
    run_all (map (λ b, put_data (b_data b) (b_last b) (b_padbytes b)) (ps ≫= beats)) sA
    = Done usA sA' trA ∧ visible trA = [] ∧ w_sim_backend (n_world sA') = Live oA' ∧
    ∀ (sB : net FileIOTestingLib) oB frs r,
      w_sim_backend (n_world sB) = Live oB → rx_idle sB → tx_buffer sB = [] →
      recv_file oB = Stream (content (send_file oA')) (length (content (send_file oA))) false r →
      Forall frame_ok frs →
      ∃ usB sB' trB, run_all (map get_data frs) sB = Done usB sB' trB ∧
        visible trB = driven (length frs) (ps ≫= beats).
Proof.
  intros Hw Htx Hps Hroom.
  destruct (FileIO_send_all ps sA oA Hw Htx) as (us & sA' & trA & bs & oA' & Hrun & Htr & Hw' & Hc & Hb);
    [|done|].
  { eapply Forall_impl; [exact Hps|]. intros p [(total & (_ & _ & [H0 _] & _) & Hl) Hp].
    split; [|done]. intros ->. simpl in Hl. lia. }
  exists us, sA', trA, oA'. split; [exact Hrun|]. split; [done|]. split; [done|].
  intros sB oB frs r HwB Hidle HtxB Hrecv Hfr.
  assert (file_holds oB ps []) as Ho.
  { split; [|split; [simpl; lia|constructor]].
    eexists _, bs, false, r. split; [by rewrite Hrecv, Hc|]. by split. }
  pose proof (todo_start (H:=FileIO_replay) sB oB ps [] HwB Ho Hidle HtxB) as Hs.
  destruct (session_run (map Poll frs) sB (ps ≫= beats) [] []) as (us2 & s' & tr & Hr & Ht & _).
  - by apply Forall_map.
  - apply Hs; [|constructor]. eapply Forall_impl; [exact Hps|]. by intros p [Hp _].
  - by induction frs; [|apply Forall_cons in Hfr as [_ ?]; auto].
  - right. clear. by induction frs.
  - exists us2, s', tr. rewrite map_map in Hr. split; [exact Hr|].
    rewrite Ht. f_equal. clear. induction frs; simpl; congruence.
Qed.

(** ** Concrete instances *)

Lemma sample_in_exact : ipv4_exact sample_in.
Proof. exists 42. split; [|reflexivity]. repeat split; vm_compute; done. Defined.

(** The two beats of [sample_out]. *)
Definition out_beat1 : beat := first_beat sample_out.
Definition out_beat2 : beat := first_beat (drop MAC_BYTES sample_out).

Definition sample_calls : list dev_call :=
  [Poll sample_frame; PutBeat out_beat1; Poll sample_frame; Poll sample_frame].

Lemma sample_calls_ok : frames_ok sample_calls.
Proof. repeat constructor. Defined.

Lemma session_interleaved_witness :
  ∃ us s' tr, run_all (map exec sample_calls) (sample_net [sample_in] [sample_out]) = Done us s' tr ∧
    visible tr = driven 3 ([sample_in] ≫= beats).
Proof.
  apply (session_interleaved (H:=Pcap_replay) (sample_net [sample_in] [sample_out])
           {| send_pkts := [sample_in]; recv_pkts := [sample_out] |} [sample_in] [sample_out]
           sample_calls [out_beat2]).
  - reflexivity.
  - by split.
  - vm_compute. discriminate.
  - reflexivity.
  - constructor; [exact sample_in_exact|constructor].
  - constructor; [done|constructor].
  - exact sample_calls_ok.
  - vm_compute. reflexivity.
  - by left.
Defined.

Lemma Pcap_replay_complete_witness :
  ∃ us s' tr, run_all (map exec (sample_calls ++ [PutBeat out_beat2]))
                      (sample_net [sample_in] [sample_out]) = Done us s' tr ∧
    visible tr = driven 3 ([sample_in] ≫= beats) ++ [FinishFromC] ∧
    w_sim_backend (n_world s') = Dangling.
Proof.
  apply (Pcap_replay_complete (sample_net [sample_in] [sample_out]) [sample_in] [sample_out]
           sample_calls out_beat2).
  - reflexivity.
  - vm_compute. discriminate.
  - reflexivity.
  - constructor; [exact sample_in_exact|constructor].
  - constructor; [done|constructor].
  - exact sample_calls_ok.
  - vm_compute. reflexivity.
Defined.

Definition file_net (send recv : stream) : net FileIOTestingLib :=
  Net (sample_world (Live {| send_file := send; recv_file := recv |})) idle_rx [].

Lemma linked_simulations_witness :
  ∃ usA sA' trA oA',
    run_all (map (λ b, put_data (b_data b) (b_last b) (b_padbytes b)) ([sample_in] ≫= beats))
            (file_net (Stream [] 0 false 100) (Stream [] 0 false 0))
    = Done usA sA' trA ∧ visible trA = [] ∧ w_sim_backend (n_world sA') = Live oA' ∧
    ∀ (sB : net FileIOTestingLib) oB frs r,
      w_sim_backend (n_world sB) = Live oB → rx_idle sB → tx_buffer sB = [] →
      recv_file oB = Stream (content (send_file oA')) 0 false r →
      Forall frame_ok frs →
      ∃ usB sB' trB, run_all (map get_data frs) sB = Done usB sB' trB ∧
        visible trB = driven (length frs) ([sample_in] ≫= beats).
Proof.
  apply (linked_simulations [sample_in] (file_net (Stream [] 0 false 100) (Stream [] 0 false 0))
           {| send_file := Stream [] 0 false 100; recv_file := Stream [] 0 false 0 |}).
  - reflexivity.
  - reflexivity.
  - constructor; [|constructor]. split; [exact sample_in_exact|vm_compute; discriminate].
  - vm_compute. lia.
Defined.
