(* ===== verification/TcpSession.v ===== *)
(** TcpSession: whole sessions of the TCP trace backend.

    TcpTrace describes single calls on a flow.  Here is the specification of
    the backend as a state machine over all the flows of a trace of TCP
    segments: what each call may answer, and how each flow's log grows.  The
    backend refines it, call by call and so over any sequence of calls, and
    what the specification promises of a session holds of the backend: on
    each flow the device gets the packets of the trace in order, none lost,
    none twice. *)

From S2P Require Import Prelude Words Headers Backend Pcap PcapTrace TcpMimic TcpTrace.
From S2P Require Import NetworkSide Segments.

(** ** The specification *)

(** The history of a flow: the packets of the trace for the device, how many
    of them it got, and the matching of the packets it sent. *)
Record flow_log := FlowLog {
  fl_sent : list (list byte);
  fl_delivered : nat;
  fl_check : flow_spec }.

Definition no_log : flow_log := FlowLog [] 0 {| expected := []; received := []; checked := 0 |}.
Definition deferred (l : flow_log) : list (list byte) := drop (fl_delivered l) (fl_sent l).

Definition log_send (p : list byte) (l : flow_log) : flow_log :=
  FlowLog (fl_sent l ++ [p]) (fl_delivered l) (fl_check l).
Definition log_deliver (l : flow_log) : flow_log :=
  FlowLog (fl_sent l) (S (fl_delivered l)) (fl_check l).
Definition log_expect (p : list byte) (l : flow_log) : flow_log :=
  FlowLog (fl_sent l) (fl_delivered l) (spec_expect p (fl_check l)).
Definition log_receive (p : list byte) (l : flow_log) : flow_log :=
  FlowLog (fl_sent l) (fl_delivered l) (spec_receive p (fl_check l)).

(** The rest of the trace, and the logs. *)
Record session := Session {
  ss_trace : list segment;
  ss_flows : gmap TCPFlowTuple flow_log }.

Inductive call := CGet (fr : frame) | CPut (p : list byte).
Inductive reply := RGot (p : list byte) | RPut (n : Z).

Definition differences (pair : list byte * list byte) : list event := mismatches 0 pair.1 pair.2.

Section Spec.
Variable mac : list byte.

Definition to_device (g : segment) : bool := bool_decide (sg_dst_mac g = mac).
Definition seg_flow (g : segment) : TCPFlowTuple := flow_of (to_device g) g.

(** One call.  The first packet of a flow for the device is delivered at once,
    the later ones when the trace is over, from any flow that has one; a
    packet of the device is compared with those the trace expects on its flow,
    or ignored when the flow is not known. *)
Inductive step : session → call → reply → list event → session → Prop :=
| step_first fr g gs m :
    to_device g = true → m !! seg_flow g = None →
    step (Session (g :: gs) m) (CGet fr) (RGot (frame_of g)) []
         (Session gs (<[seg_flow g := log_deliver (log_send (frame_of g) no_log)]> m))
| step_defer fr g gs m l :
    to_device g = true → m !! seg_flow g = Some l →
    step (Session (g :: gs) m) (CGet fr) (RGot []) []
         (Session gs (<[seg_flow g := log_send (frame_of g) l]> m))
| step_expect fr g gs m :
    to_device g = false →
    step (Session (g :: gs) m) (CGet fr) (RGot []) []
         (Session gs (<[seg_flow g := log_expect (frame_of g) (default no_log (m !! seg_flow g))]> m))
| step_drain fr m k l p rest :
    m !! k = Some l → deferred l = p :: rest →
    step (Session [] m) (CGet fr) (RGot p) [] (Session [] (<[k := log_deliver l]> m))
| step_idle fr m :
    (∀ k l, m !! k = Some l → deferred l = []) →
    step (Session [] m) (CGet fr) (RGot []) [] (Session [] m)
| step_check p gs m k l :
    packet_flow mac p = Some k → m !! k = Some l →
    step (Session gs m) (CPut p) (RPut (s32 (Z.of_nat (length p))))
         (concat (map differences (spec_pairs p (fl_check l))))
         (Session gs (<[k := log_receive p l]> m))
| step_stray p gs m k :
    packet_flow mac p = Some k → m !! k = None →
    step (Session gs m) (CPut p) (RPut (s32 (Z.of_nat (length p)))) [] (Session gs m).

Inductive steps : session → list call → list reply → list event → session → Prop :=
| steps_nil s : steps s [] [] [] s
| steps_cons s c r ev s' cs rs evs s'' :
    step s c r ev s' → steps s' cs rs evs s'' →
    steps s (c :: cs) (r :: rs) (ev ++ evs) s''.

(** A call the refinement covers: the stack looks like a 20-byte IP header
    (see [Tcp_get_flow_from_stack]), a packet of the device has its headers,
    and the packets compared have one size. *)
Definition call_ok (s : session) (c : call) : Prop :=
  match c with
  | CGet fr => stack_ok fr
  | CPut p => ∃ k, packet_flow mac p = Some k ∧
      ∀ l, ss_flows s !! k = Some l → Forall same_size (spec_pairs p (fl_check l))
  end.

(** The same for all the calls, whatever the specification answers. *)
Fixpoint session_ok (s : session) (cs : list call) : Prop :=
  match cs with
  | [] => True
  | c :: cs' => call_ok s c ∧ ∀ r ev s', step s c r ev s' → session_ok s' cs'
  end.
End Spec.

(** ** The refinement relation *)

(** The records of a trace file that hold these segments. *)
Inductive seg_records : list byte → list segment → Prop :=
| seg_records_nil : seg_records [] []
| seg_records_cons h g bs gs :
    segment_ok g → whole_record h (frame_of g) → seg_records bs gs →
    seg_records ((pcap_pkthdr_enc h ++ frame_of g) ++ bs) (g :: gs).

Lemma seg_records_ok bs gs : seg_records bs gs → Forall segment_ok gs.
Proof. induction 1; [constructor|by constructor]. Qed.

Record logs (l : flow_log) (c : TCPMimic) : Prop := {
  lg_send : pkts_to_send c = deferred l;
  lg_delivered : (fl_delivered l ≤ length (fl_sent l))%nat;
  lg_check : implements (fl_check l) c;
  lg_parsable : Forall parsable (fl_sent l) }.

Record refines (mac : list byte) (s : session) (w : bworld TCPPcapTestingLib)
    (o : TCPPcapTestingLib) : Prop := {
  rf_live : w_sim_backend w = Live o;
  rf_mac : source_mac_addr (w_instance_state w) = mac;
  rf_len : length mac = 6%nat;
  rf_inv : flows_inv o;
  rf_file : ∃ pre bs e r, pcap_file o = Stream (pre ++ bs) (length pre) e r ∧
      seg_records bs (ss_trace s) ∧ (e = true → ss_trace s = []);
  rf_flows : ∀ k, option_Forall2 logs (ss_flows s !! k) (tcp_flows o !! k) }.

Lemma logs_insert (m : gmap TCPFlowTuple flow_log) (m' : gmap TCPFlowTuple TCPMimic) k0 l c :
  (∀ k, option_Forall2 logs (m !! k) (m' !! k)) → logs l c →
  ∀ k, option_Forall2 logs (<[k0 := l]> m !! k) (<[k0 := c]> m' !! k).
Proof.
  intros Hm Hl k. destruct (decide (k0 = k)) as [->|Hk].
  - rewrite !lookup_insert_eq. by constructor.
  - by rewrite !lookup_insert_ne.
Qed.

Lemma logs_lookup (m : gmap TCPFlowTuple flow_log) (m' : gmap TCPFlowTuple TCPMimic) k :
  (∀ k, option_Forall2 logs (m !! k) (m' !! k)) →
  (m !! k = None ∧ m' !! k = None) ∨ ∃ l c, m !! k = Some l ∧ m' !! k = Some c ∧ logs l c.
Proof. intros H. destruct (H k); [right; eauto|by left]. Qed.

Lemma logs_send l c p :
  logs l c → parsable p → logs (log_send p l) (set_pkts_to_send (pkts_to_send c ++ [p]) c).
Proof.
  intros [H1 H2 H3 H4] Hp. split; cbn; [|len|done|].
  - unfold deferred in *. cbn. by rewrite H1, drop_app_le.
  - apply Forall_app. by repeat constructor.
Qed.

Lemma logs_expect l c p :
  logs l c → logs (log_expect p l) (set_pkts_to_recv (pkts_to_recv c ++ [p]) c).
Proof. intros [H1 H2 H3 H4]. split; cbn; try done. by apply expect_implements. Qed.

Lemma logs_receive l c p : logs l c → logs (log_receive p l) (after_put p c).
Proof. intros [H1 H2 H3 H4]. split; cbn; try done. by apply after_put_implements. Qed.

Lemma logs_deliver l c c' p :
  logs l c → pkts_to_send c = p :: pkts_to_send c' → pkts_to_recv c' = pkts_to_recv c →
  pkts_recved_buf c' = pkts_recved_buf c → deferred l = p :: pkts_to_send c' ∧ logs (log_deliver l) c'.
Proof.
  intros [H1 H2 H3 H4] Hs Hr Hg. rewrite H1 in Hs. split; [done|].
  assert (fl_delivered l < length (fl_sent l))%nat as Hlt.
  { apply (f_equal length) in Hs. unfold deferred in Hs. rewrite length_drop in Hs. simpl in Hs. lia. }
  split; cbn; [|done| |done].
  - unfold deferred in *. cbn. destruct (lookup_lt_is_Some_2 _ _ Hlt) as [x Hx].
    rewrite (drop_S _ x _ Hx) in Hs. by injection Hs.
  - unfold implements in *. by rewrite Hr, Hg.
Qed.

Lemma logs_new fr : logs no_log (TCPMimic_new (fr_mimic fr) false).
Proof.
  unfold TCPMimic_new. destruct (fr_mimic fr) as [[[] ?] ?].
  split; cbn; [done|lia|repeat split; simpl; lia|constructor].
Qed.

(** ** One call *)

Section Calls.
Context `{FlowOrder}.

Definition exec_call (c : call) : M (bworld TCPPcapTestingLib) reply :=
  match c with
  | CGet fr => p ← get_buf_fr_io fr; mret (RGot p)
  | CPut p => n ← put_buf_on_io p; mret (RPut n)
  end.

Lemma exec_get fr w p w' tr :
  Tcp_get_buf_fr_io fr w = Done p w' tr → exec_call (CGet fr) w = Done (RGot p) w' tr.
Proof.
  intros E. cbn [exec_call get_buf_fr_io Tcp_backend]. rewrite (bind_done _ _ _ _ _ _ E).
  cbn. by rewrite app_nil_r.
Qed.

Lemma exec_put p w n w' tr :
  Tcp_put_buf_on_io p w = Done n w' tr → exec_call (CPut p) w = Done (RPut n) w' tr.
Proof.
  intros E. cbn [exec_call put_buf_on_io Tcp_backend]. rewrite (bind_done _ _ _ _ _ _ E).
  cbn. by rewrite app_nil_r.
Qed.

Lemma visible_packet_len p tr :
  visible (Printf "Packet len is %d\n" p :: tr) = visible tr.
Proof. reflexivity. Qed.

Lemma visible_direction b : visible [direction b] = [].
Proof. by destruct b. Qed.

Lemma visible_compared pairs :
  visible (concat (map compared pairs)) = concat (map differences pairs).
Proof.
  induction pairs as [|[a b] pairs IH]; [done|]. cbn [map concat].
  rewrite visible_app, IH. f_equal. unfold compared, differences. cbn [fst snd].
  change (visible (mismatches 0 a b) = mismatches 0 a b). generalize 0.
  revert b. induction a as [|x a IHa]; intros b i; [done|].
  destruct b as [|y b]; [done|]. cbn [mismatches]. rewrite visible_app, IHa. by case_match.
Qed.

(** What a packet for the device does to the context of its flow. *)
Lemma first_packet fr g :
  segment_ok g →
  ∃ c, new_flow_packet true (frame_of g) (TCPMimic_new (fr_mimic fr) false)
       = Done (frame_of g) c [] ∧
    logs (log_deliver (log_send (frame_of g) no_log)) c.
Proof.
  intros Hg. set (c0 := TCPMimic_new _ _).
  destruct (buf_process_helper_parsed _ _ _ _ _ _ c0 (frame_parsed g Hg)) as (c & Hb & _).
  destruct (buf_process_helper_queues _ _ _ _ _ Hb) as (_ & Hq1 & Hq2 & Hq3 & _).
  exists c. unfold new_flow_packet. rewrite (bind_done_nil _ _ _ _ _ Hb). split; [done|].
  pose proof (logs_new fr) as [_ _ Hc _]. fold c0 in Hc.
  assert (pkts_to_send c0 = []) as H0
    by (unfold c0, TCPMimic_new; by destruct (fr_mimic fr) as [[[] ?] ?]).
  split; cbn; [by rewrite Hq3|lia| |].
  - unfold implements in *. by rewrite Hq1, Hq2.
  - repeat constructor. eexists _, _, _, _, _. by apply frame_parsed.
Qed.

Lemma later_packet p c :
  handshake_done c = false →
  known_flow_packet true p c = Done [] (set_pkts_to_send (pkts_to_send c ++ [p]) c) [].
Proof.
  intros Hhs. unfold known_flow_packet. erewrite bind_done_nil by reflexivity. by rewrite Hhs.
Qed.

Lemma expected_packet p c :
  known_flow_packet false p c = Done [] (set_pkts_to_recv (pkts_to_recv c ++ [p]) c) [] ∧
  new_flow_packet false p c = Done [] (set_pkts_to_recv (pkts_to_recv c ++ [p]) c) [].
Proof. done. Qed.

(** What a segment of the trace does to its flow, as the code and as the
    specification have it. *)
Definition flow_packet (send : bool) (p : list byte) (junk : Z * Z * Z * Z) (oc : option TCPMimic)
    : outcome TCPMimic (list byte) :=
  match oc with
  | Some c => known_flow_packet send p c
  | None => new_flow_packet send p (TCPMimic_new junk false)
  end.

Lemma segment_effect mac fr g m oc :
  segment_ok g → option_Forall2 logs (m !! seg_flow mac g) oc →
  (∀ c, oc = Some c → handshake_done c = false) →
  ∃ p c l, flow_packet (to_device mac g) (frame_of g) (fr_mimic fr) oc = Done p c [] ∧ logs l c ∧
    ∀ gs, step mac (Session (g :: gs) m) (CGet fr) (RGot p) [] (Session gs (<[seg_flow mac g := l]> m)).
Proof.
  intros Hg Hm Hhs.
  assert (parsable (frame_of g)) as Hpars by (eexists _, _, _, _, _; by apply frame_parsed).
  inversion Hm as [l c Hl E1 E2|E1 E2]; subst oc; destruct (to_device mac g) eqn:Hd; cbn [flow_packet].
  - rewrite later_packet by auto. eexists _, _, _. split; [done|].
    split; [by apply logs_send|]. intros gs. by apply step_defer.
  - rewrite (proj1 (expected_packet _ _)). eexists _, _, _. split; [done|].
    split; [by apply logs_expect, Hl|]. intros gs.
    replace l with (default no_log (m !! seg_flow mac g)) by (by rewrite <- E1). by apply step_expect.
  - destruct (first_packet fr g Hg) as (c & E & Hl). rewrite E. eexists _, _, _. split; [done|].
    split; [exact Hl|]. intros gs. by apply step_first.
  - rewrite (proj2 (expected_packet _ _)). eexists _, _, _. split; [done|].
    split; [apply logs_expect, logs_new|]. intros gs.
    replace no_log with (default no_log (m !! seg_flow mac g)) by (by rewrite <- E1).
    by apply step_expect.
Qed.

(** A get that meets a record. *)
Lemma get_record mac s w o fr g gs :
  refines mac s w o → stack_ok fr → ss_trace s = g :: gs →
  ∃ r w' tr s' o', Tcp_get_buf_fr_io fr w = Done r w' tr ∧
    step mac s (CGet fr) (RGot r) (visible tr) s' ∧ refines mac s' w' o'.
Proof.
  intros [Hw Hmac Hlen Hinv (pre & bs & e & r & Hf & Hb & He) Hfl] Hfr Htr.
  destruct s as [tr0 m]. cbn in *. subst tr0.
  inversion Hb as [|h g' bs' gs' Hg Hrec Hb']; subst. destruct e; [by specialize (He eq_refl)|].
  pose proof (next_record_segment w o fr pre h g bs' r _ Hfr Hg Hrec Hw eq_refl Hlen Hf) as Hn.
  cbv zeta in Hn. set (mac := source_mac_addr _) in *.
  change (bool_decide (sg_dst_mac g = mac)) with (to_device mac g) in Hn.
  change (flow_of (to_device mac g) g) with (seg_flow mac g) in Hn.
  pose proof (Tcp_get_record_run _ _ _ _ _ _ _ _ Hn) as Hrun.
  set (f' := Stream _ _ _ _) in Hn, Hrun. set (k := seg_flow mac g) in *.
  destruct (segment_effect mac fr g m (tcp_flows o !! k) Hg (Hfl k)) as (p & c & l & E & Hl & Hs).
  { intros c Hc. by apply (proj1 Hinv k c). }
  assert (∃ o', Tcp_get_buf_fr_io fr w
            = Done p (live w o') ([Printf "Packet len is %d\n" [ANum (Z.of_nat (length (frame_of g)))];
                                   direction (to_device mac g)]) ∧
            pcap_file o' = f' ∧ tcp_flows o' = <[k := c]> (tcp_flows o)) as (o' & Hr & Hfile & Hfl').
  { rewrite Hrun. unfold flow_packet in E. destruct (tcp_flows o !! k); rewrite E;
      eexists; (split; [reflexivity|done]). }
  eexists _, _, _, _, _. split; [exact Hr|].
  replace (visible _) with (@nil event) by (by destruct (to_device mac g)).
  split; [apply Hs|]. split; try done.
  - by eapply flows_inv_get.
  - eexists _, bs', false, r. split; [exact Hfile|]. by split.
  - rewrite Hfl'. by apply logs_insert.
Qed.

(** A get at the end of the file. *)
Lemma Tcp_get_end w o fr pre e r :
  frame_ok fr → w_sim_backend w = Live o → pcap_file o = Stream pre (length pre) e r →
  Tcp_get_buf_fr_io fr w
  = send_pending (flow_order o) (live w (set_pcap_file (Stream pre (length pre) true r) o)).
Proof.
  intros Hfr Hw Hf. destruct e.
  { rewrite (Tcp_get_eof w o fr Hfr Hw) by (by rewrite Hf). rewrite <- Hf.
    assert (set_pcap_file (pcap_file o) o = o) as -> by (by destruct o). by rewrite live_id. }
  destruct Hfr as (_ & Hfr & _). unfold Tcp_get_buf_fr_io.
  destruct (rd_is_Some 1 14 (fr_buf fr)) as [vi Hvi]; [lia|].
  change (rd 1 14 (fr_buf fr)) with (ld 14 ip_ver_ihl (fr_buf fr)) in Hvi. rewrite Hvi.
  erewrite bind_done_nil by reflexivity.
  erewrite bind_done_nil by (unfold on_this, zoom; rewrite Hw, Hf, read_record_end; reflexivity).
  cbv beta iota. change (0 <? 0) with false. cbv iota. by erewrite bind_done_nil by reflexivity.
Qed.

Lemma get_over mac s w o fr :
  refines mac s w o → stack_ok fr → ss_trace s = [] →
  ∃ r w' tr s' o', Tcp_get_buf_fr_io fr w = Done r w' tr ∧
    step mac s (CGet fr) (RGot r) (visible tr) s' ∧ refines mac s' w' o'.
Proof.
  intros [Hw Hmac Hlen Hinv (pre & bs & e & r & Hf & Hb & He) Hfl] [Hfr _] Htr.
  destruct s as [tr0 m]. cbn in *. subst tr0. inversion Hb; subst. rewrite app_nil_r in Hf.
  pose proof (Tcp_get_end w o fr pre e r Hfr Hw Hf) as Hrun.
  set (o1 := set_pcap_file _ o) in Hrun. destruct Hinv as (Hhs & Hnd & Hks).
  assert (∀ k, to_send o1 k = default [] (deferred <$> m !! k)) as Hts.
  { intros k. unfold to_send. cbn. destruct (Hfl k) as [l c [H1 _ _ _]|]; [done|done]. }
  assert (Forall parsable (pending o1 (flow_order o))) as Hp.
  { apply Forall_concat, Forall_map, Forall_forall. intros k _. rewrite Hts.
    destruct (Hfl k) as [l c [_ _ _ H4]|]; [by apply Forall_drop|constructor]. }
  pose proof (send_pending_run (live w o1) o1 (flow_order o) eq_refl Hnd (λ k, proj1 (Hks k)) Hp) as Hs.
  rewrite <- Hrun in Hs.
  assert (pack : ∀ r0 o' m', Tcp_get_buf_fr_io fr w = Done r0 (live w o') [] →
    pcap_file o' = pcap_file o1 → (∀ k, option_Forall2 logs (m' !! k) (tcp_flows o' !! k)) →
    refines (source_mac_addr (w_instance_state w)) (Session [] m') (live w o') o').
  { intros r0 o' m' Hr Hfile Hfl'. split; try done.
    - eapply flows_inv_get; [exact Hw| |exact Hr]. by split.
    - exists pre, [], true, r. rewrite app_nil_r. by repeat constructor. }
  destruct (pending o1 (flow_order o)) as [|p rest] eqn:Hpend.
  - eexists _, _, _, _, _. split; [exact Hs|]. split.
    + apply step_idle. intros k l Hk.
      assert (k ∈ flow_order o) as Hin.
      { apply Hks. destruct (Hfl k) as [l0 c ?|]; [by eexists|congruence]. }
      unfold pending in Hpend. apply list_elem_of_In in Hin.
      assert (to_send o1 k = []) as E.
      { apply concat_nil_Forall in Hpend. rewrite List.Forall_forall in Hpend.
        apply Hpend. by apply in_map. }
      rewrite Hts, Hk in E. done.
    + by eapply pack.
  - destruct Hs as (k & c & c' & Hget & Hk & Hc & _ & _ & Hq & Hq1 & Hq2).
    pose proof (Hfl k) as Hk'. cbn in Hc. rewrite Hc in Hk'. inversion Hk' as [l c0 Hl El Ec|]; subst.
    destruct (logs_deliver l c c' p Hl Hq Hq1 Hq2) as [Hd Hl'].
    eexists _, _, _, _, _. split; [exact Hget|]. split; [by eapply step_drain|].
    eapply pack; [exact Hget|done|]. by apply logs_insert.
Qed.

Lemma put_call mac s w o p :
  refines mac s w o → call_ok mac s (CPut p) →
  ∃ n w' tr s' o', Tcp_put_buf_on_io p w = Done n w' tr ∧
    step mac s (CPut p) (RPut n) (visible tr) s' ∧ refines mac s' w' o'.
Proof.
  intros [Hw Hmac Hlen Hinv Hf Hfl] (k & Hk & Hsz). destruct s as [gs m]. cbn in *. subst mac.
  destruct (logs_lookup _ _ k Hfl) as [[Hm Hc]|(l & c & Hm & Hc & Hl)].
  - eexists _, w, _, _, o. split; [by rewrite (Tcp_put_run _ _ _ _ Hw Hk), Hc|].
    split; [by eapply step_stray|]. by split.
  - pose proof (Tcp_put_known w o k c _ p Hw Hc (lg_check _ _ Hl) Hk (Hsz l Hm)) as Hrun.
    eexists _, _, _, _, _. split; [exact Hrun|]. split.
    + rewrite !visible_app, visible_compared.
      assert (∀ b : bool, visible (if b then [Printf "No packets to compare to\n" []] else []) = [])
        as Hv by (by intros []).
      match goal with |- context [visible (if ?d then _ else _)] =>
        assert (visible (if d then [Printf "No packets to compare to\n" []] else []) = []) as ->
          by (by destruct d) end.
      rewrite app_nil_r. by eapply step_check.
    + split; try done.
      * by eapply flows_inv_put.
      * by apply logs_insert, logs_receive.
Qed.

(** Every call the specification covers returns, and answers as it says. *)
Lemma call_refines mac s w o c :
  refines mac s w o → call_ok mac s c →
  ∃ r w' tr s' o', exec_call c w = Done r w' tr ∧ step mac s c r (visible tr) s' ∧
    refines mac s' w' o'.
Proof.
  intros Hr Hc. destruct c as [fr|p].
  - destruct (ss_trace s) as [|g gs] eqn:E.
    + destruct (get_over mac s w o fr Hr Hc E) as (r & w' & tr & s' & o' & Hrun & Hs).
      exists (RGot r), w', tr, s', o'. split; [by apply exec_get|done].
    + destruct (get_record mac s w o fr g gs Hr Hc E) as (r & w' & tr & s' & o' & Hrun & Hs).
      exists (RGot r), w', tr, s', o'. split; [by apply exec_get|done].
  - destruct (put_call mac s w o p Hr Hc) as (n & w' & tr & s' & o' & Hrun & Hs).
    exists (RPut n), w', tr, s', o'. split; [by apply exec_put|done].
Qed.

Lemma session_refines mac cs s w o :
  refines mac s w o → session_ok mac s cs →
  ∃ rs w' tr s' o', run_all (map exec_call cs) w = Done rs w' tr ∧
    steps mac s cs rs (visible tr) s' ∧ refines mac s' w' o'.
Proof.
  revert s w o. induction cs as [|c cs IH]; intros s w o Hr Hok.
  { eexists _, w, _, s, o. split; [reflexivity|]. split; [constructor|done]. }
  destruct Hok as [Hc Hok].
  destruct (call_refines mac s w o c Hr Hc) as (r & w1 & tr1 & s1 & o1 & Hrun & Hs & Hr1).
  destruct (IH s1 w1 o1 Hr1 (Hok _ _ _ Hs)) as (rs & w' & tr2 & s' & o' & Hrun2 & Hs2 & Hr2).
  eexists _, w', _, s', o'. cbn [map run_all].
  rewrite (bind_done _ _ _ _ _ _ Hrun), (bind_done _ _ _ _ _ _ Hrun2).
  split; [reflexivity|]. rewrite visible_app. cbn. rewrite app_nil_r.
  split; [by econstructor|done].
Qed.
End Calls.

(** ** What the specification promises *)

Section Promises.
Variables (mac : list byte) (gs : list segment).
Hypotheses (Hmac : length mac = 6%nat) (Hgs : Forall segment_ok gs).

(** The packets of a list on a flow, and those of the trace on it: for the
    device, and of the device. *)
Definition on_flow (k : TCPFlowTuple) : list (list byte) → list (list byte) :=
  filter (λ p, packet_flow mac p = Some k).
Definition towards (k : TCPFlowTuple) (l : list segment) : list (list byte) :=
  on_flow k (map frame_of (filter (λ g, to_device mac g = true) l)).
Definition answers_on (k : TCPFlowTuple) (l : list segment) : list (list byte) :=
  on_flow k (map frame_of (filter (λ g, to_device mac g = false) l)).

Definition is_get (c : call) : nat := match c with CGet _ => 1 | CPut _ => 0 end.
Definition got_by (r : reply) : list (list byte) := match r with RGot p => [p] | RPut _ => [] end.
Definition put_by (c : call) : list (list byte) := match c with CGet _ => [] | CPut p => [p] end.
Definition polls (cs : list call) : nat := sum_list_with is_get cs.
Definition got (rs : list reply) : list (list byte) := rs ≫= got_by.
Definition put (cs : list call) : list (list byte) := cs ≫= put_by.

(** After [n] polls that got [ps], a flow's log agrees with the first [n]
    segments of the trace. *)
Record log_ok (k : TCPFlowTuple) (n : nat) (ps : list (list byte)) (l : flow_log) : Prop := {
  lo_sent : fl_sent l = towards k (take n gs);
  lo_delivered : (fl_delivered l ≤ length (fl_sent l))%nat;
  lo_got : take (fl_delivered l) (fl_sent l) = on_flow k ps;
  lo_expected : expected (fl_check l) = answers_on k (take n gs) }.

Record history (n : nat) (ps : list (list byte)) (s : session) : Prop := {
  hi_trace : ss_trace s = drop n gs;
  hi_known k : is_Some (ss_flows s !! k) ↔ k ∈ map (seg_flow mac) (take n gs);
  hi_log k : log_ok k n ps (default no_log (ss_flows s !! k)) }.

Lemma frame_flow g : segment_ok g → packet_flow mac (frame_of g) = Some (seg_flow mac g).
Proof.
  intros Hg. unfold packet_flow.
  pose proof (frame_direction g Hg mac [] Hmac) as Hd.
  pose proof (frame_lookup g Hg (to_device mac g) []) as Hl.
  destruct (frame_fields g [] Hg) as (_ & H1 & _). rewrite app_nil_r in *.
  rewrite H1. cbn [mbind option_bind]. rewrite Hd. exact Hl.
Qed.

Lemma on_flow_app k a b : on_flow k (a ++ b) = on_flow k a ++ on_flow k b.
Proof. apply filter_app. Qed.

Lemma on_flow_one k p j :
  packet_flow mac p = Some j → on_flow k [p] = if decide (k = j) then [p] else [].
Proof.
  intros Hp. unfold on_flow. rewrite filter_cons, filter_nil, Hp.
  by repeat case_decide; simplify_eq.
Qed.

Lemma on_flow_nil_packet k : on_flow k [[]] = [].
Proof. done. Qed.

Lemma towards_snoc k l g :
  segment_ok g →
  towards k (l ++ [g]) = towards k l ++ (if to_device mac g then on_flow k [frame_of g] else []).
Proof.
  intros Hg. unfold towards. rewrite filter_app, map_app, on_flow_app. f_equal.
  rewrite filter_cons, filter_nil. by destruct (to_device mac g).
Qed.

Lemma answers_on_snoc k l g :
  segment_ok g →
  answers_on k (l ++ [g]) = answers_on k l ++ (if to_device mac g then [] else on_flow k [frame_of g]).
Proof.
  intros Hg. unfold answers_on. rewrite filter_app, map_app, on_flow_app. f_equal.
  rewrite filter_cons, filter_nil. by destruct (to_device mac g).
Qed.

Lemma history_start : history 0 [] (Session gs ∅).
Proof.
  split; [done| |].
  - intros k. cbn. rewrite lookup_empty. split; [by intros []|]. by intros ?%not_elem_of_nil.
  - intros k. cbn. rewrite lookup_empty. by split.
Qed.

Lemma history_head n ps g rest m :
  history n ps (Session (g :: rest) m) → gs !! n = Some g ∧ segment_ok g.
Proof.
  intros [Ht _ _]. cbn in Ht.
  assert (gs !! n = Some g) as Hn by (by rewrite <- (Nat.add_0_r n), <- lookup_drop, <- Ht).
  split; [done|]. by eapply Forall_lookup_1.
Qed.

(** A poll that meets a segment: the log of its flow, and the others. *)
Lemma history_record n ps ps' m g rest l' :
  history n ps (Session (g :: rest) m) →
  let k := seg_flow mac g in let l := default no_log (m !! k) in
  fl_sent l' = fl_sent l ++ (if to_device mac g then [frame_of g] else []) →
  expected (fl_check l') = expected (fl_check l) ++ (if to_device mac g then [] else [frame_of g]) →
  (fl_delivered l' ≤ length (fl_sent l'))%nat →
  take (fl_delivered l') (fl_sent l') = on_flow k ps' →
  (∀ j, j ≠ k → on_flow j ps' = on_flow j ps) →
  history (S n) ps' (Session rest (<[k := l']> m)).
Proof.
  intros Hh k l Hsent Hexp Hdel Hgot Hps. destruct (history_head _ _ _ _ _ Hh) as [Hn Hg].
  destruct Hh as [Ht Hk Hl]. cbn in *.
  pose proof (take_S_r _ _ _ Hn) as Hts. pose proof (frame_flow g Hg) as Hf. fold k in Hf.
  split; cbn.
  - rewrite (drop_S _ _ _ Hn) in Ht. by injection Ht.
  - intros j. rewrite lookup_insert_is_Some', Hk, Hts, map_app, elem_of_app.
    cbn [map]. rewrite list_elem_of_singleton. naive_solver.
  - intros j. destruct (decide (j = k)) as [->|Hne].
    + rewrite lookup_insert_eq. cbn. specialize (Hl k). fold l in Hl. destruct Hl as [H1 H2 H3 H4].
      split; rewrite ?Hts, ?towards_snoc, ?answers_on_snoc by done;
        rewrite ?(on_flow_one k _ _ Hf), ?decide_True by done; [|done|done|].
      * by rewrite Hsent, H1.
      * by rewrite Hexp, H4.
    + rewrite lookup_insert_ne by done. destruct (Hl j) as [H1 H2 H3 H4].
      assert (on_flow j [frame_of g] = []) as Ho
        by (rewrite (on_flow_one _ _ _ Hf); by case_decide).
      split; rewrite ?Hts, ?towards_snoc, ?answers_on_snoc, ?Ho, ?Hps by done.
      * case_match; by rewrite app_nil_r.
      * done.
      * done.
      * case_match; by rewrite app_nil_r.
Qed.

(** A poll after the trace. *)
Lemma history_over n ps s : history n ps s → ss_trace s = [] → history (S n) ps s.
Proof.
  intros [Ht Hk Hl] E. rewrite E in Ht.
  assert (length gs ≤ n)%nat as Hn
    by (apply (f_equal length) in Ht; rewrite length_drop in Ht; simpl in Ht; lia).
  assert (take (S n) gs = take n gs) as Hts by (by rewrite !take_ge by lia).
  split.
  - by rewrite drop_ge by lia.
  - intros k. by rewrite Hts.
  - intros k. destruct (Hl k). split; by rewrite ?Hts.
Qed.

(** A change of one log that keeps what the history says of it. *)
Lemma history_update n ps ps' tr m k l l' :
  history n ps (Session tr m) → m !! k = Some l →
  fl_sent l' = fl_sent l → expected (fl_check l') = expected (fl_check l) →
  (fl_delivered l' ≤ length (fl_sent l))%nat → take (fl_delivered l') (fl_sent l) = on_flow k ps' →
  (∀ j, j ≠ k → on_flow j ps' = on_flow j ps) →
  history n ps' (Session tr (<[k := l']> m)).
Proof.
  intros [Ht Hk Hl] Hm Hs Hx Hd Hg Hps. cbn in *. split; [done| |]; cbn.
  - intros j. rewrite lookup_insert_is_Some', <- Hk. naive_solver.
  - intros j. specialize (Hl j). destruct (decide (j = k)) as [->|Hne].
    + rewrite lookup_insert_eq. rewrite Hm in Hl. destruct Hl as [H1 H2 H3 H4].
      cbn in *. split; by rewrite ?Hs, ?Hx.
    + rewrite lookup_insert_ne by done. destruct Hl as [H1 H2 H3 H4]. split; by rewrite ?Hps.
Qed.

Lemma delivered_S l p rest :
  deferred l = p :: rest → (fl_delivered l ≤ length (fl_sent l))%nat →
  (S (fl_delivered l) ≤ length (fl_sent l))%nat ∧
  take (S (fl_delivered l)) (fl_sent l) = take (fl_delivered l) (fl_sent l) ++ [p].
Proof.
  unfold deferred. intros Hd Hle.
  assert (fl_sent l !! fl_delivered l = Some p) as Hp
    by (by rewrite <- (Nat.add_0_r (fl_delivered l)), <- lookup_drop, Hd).
  split; [by apply lookup_lt_Some in Hp|by apply take_S_r].
Qed.

Lemma log_flow k n ps l p : log_ok k n ps l → p ∈ fl_sent l → packet_flow mac p = Some k.
Proof. intros [-> _ _ _]. unfold towards, on_flow. by intros [? _]%list_elem_of_filter. Qed.

(** A deferred packet is delivered. *)
Lemma history_drain n ps m k l p rest :
  history n ps (Session [] m) → m !! k = Some l → deferred l = p :: rest →
  history (S n) (ps ++ [p]) (Session [] (<[k := log_deliver l]> m)).
Proof.
  intros Hh Hm Hdef. pose proof (hi_log _ _ _ Hh k) as Hl. cbn in Hl. rewrite Hm in Hl. cbn in Hl.
  destruct (delivered_S l p rest Hdef (lo_delivered _ _ _ _ Hl)) as [H2 Ht].
  assert (packet_flow mac p = Some k) as Hp.
  { apply (log_flow _ _ _ _ _ Hl). unfold deferred in Hdef.
    rewrite <- (take_drop (fl_delivered l) (fl_sent l)), Hdef. set_solver. }
  apply history_over; [|done]. apply (history_update n ps _ _ _ _ l); try done; cbn.
  - by rewrite Ht, on_flow_app, (on_flow_one k _ _ Hp), decide_True, (lo_got _ _ _ _ Hl) by done.
  - intros j Hj. rewrite on_flow_app, (on_flow_one j _ _ Hp), decide_False by done.
    apply app_nil_r.
Qed.

Lemma history_step n ps s c r evs s' :
  history n ps s → step mac s c r evs s' → history (n + is_get c) (ps ++ got_by r) s'.
Proof.
  intros Hh Hs. pose proof (hi_log _ _ _ Hh) as Hl.
  assert (Hsame : ∀ k, on_flow k (ps ++ [[]]) = on_flow k ps)
    by (intros k; by rewrite on_flow_app, app_nil_r).
  destruct Hs as [fr g rest m Hd Hm|fr g rest m l Hd Hm|fr g rest m Hd|fr m k l p rest Hm Hdef
    |fr m Hdef|p rest m k l Hp Hm|p rest m k Hp Hm];
    cbn [is_get got_by]; rewrite ?Nat.add_1_r, ?Nat.add_0_r, ?app_nil_r.
  - specialize (Hl (seg_flow mac g)). cbn in Hl. rewrite Hm in Hl. destruct Hl as [_ _ H3 _].
    destruct (history_head _ _ _ _ _ Hh) as [_ Hg].
    pose proof (λ k, on_flow_one k _ _ (frame_flow g Hg)) as Hf.
    apply (history_record _ _ _ _ _ _ _ Hh); rewrite ?Hm, ?Hd; cbn; [done|done|lia| |].
    + rewrite on_flow_app, Hf, decide_True by done. cbn in H3. by rewrite <- H3.
    + intros j Hj. rewrite on_flow_app, Hf, decide_False by done. apply app_nil_r.
  - specialize (Hl (seg_flow mac g)). cbn in Hl. rewrite Hm in Hl. destruct Hl as [_ H2 H3 _].
    cbn in H2, H3.
    apply (history_record _ _ _ _ _ _ _ Hh); rewrite ?Hm, ?Hd; cbn; [done| |len| |done].
    + by rewrite app_nil_r.
    + by rewrite Hsame, take_app_le.
  - destruct (Hl (seg_flow mac g)) as [_ H2 H3 _].
    apply (history_record _ _ _ _ _ _ _ Hh); rewrite ?Hd; cbn; [|done|done| |done].
    + by rewrite app_nil_r.
    + by rewrite Hsame.
  - by eapply history_drain.
  - apply history_over; [|done]. destruct Hh as [H1 H2 _]. split; [done..|].
    intros k. destruct (Hl k). split; by rewrite ?Hsame.
  - specialize (Hl k). cbn in Hl. rewrite Hm in Hl. destruct Hl as [_ H2 H3 _].
    by apply (history_update n ps _ _ _ _ l).
  - done.
Qed.

Lemma history_steps n ps s cs rs evs s' :
  history n ps s → steps mac s cs rs evs s' → history (n + polls cs) (ps ++ got rs) s'.
Proof.
  intros Hh Hs. revert n ps Hh. induction Hs as [s|s c r evs s1 cs rs evs' s' Hc Hs IH]; intros n ps Hh.
  { unfold polls, got. cbn. by rewrite Nat.add_0_r, app_nil_r. }
  specialize (IH _ _ (history_step _ _ _ _ _ _ _ Hh Hc)). unfold polls, got in *.
  cbn [sum_list_with]. rewrite Nat.add_assoc. cbn [mbind list_bind]. by rewrite app_assoc.
Qed.

(** *** Nothing is left in the end *)

(** What polling still has to do: the segments not read, each of which may be
    deferred, and the packets deferred. *)
Definition owed (l : flow_log) : nat := length (deferred l).
Definition owed_all : gmap TCPFlowTuple flow_log → nat := map_fold (λ _ l n, (owed l + n)%nat) 0%nat.
Definition backlog (s : session) : nat := 2 * length (ss_trace s) + owed_all (ss_flows s).

Lemma owed_all_insert m k l :
  m !! k = None → owed_all (<[k := l]> m) = (owed l + owed_all m)%nat.
Proof. intros Hk. unfold owed_all. rewrite map_fold_insert_L; [done|lia|done]. Qed.

Lemma backlog_insert tr m k l :
  (backlog (Session tr (<[k := l]> m)) + owed (default no_log (m !! k))
   = backlog (Session tr m) + owed l)%nat.
Proof.
  unfold backlog. cbn [ss_trace ss_flows].
  assert (Hd : ∀ x, owed_all (<[k := x]> m) = (owed x + owed_all (delete k m))%nat)
    by (intros x; rewrite <- insert_delete_eq; by apply owed_all_insert, lookup_delete_eq).
  rewrite Hd. destruct (m !! k) as [l0|] eqn:E.
  - rewrite <- (insert_id _ _ _ E) at 2. rewrite Hd. cbn. lia.
  - rewrite delete_id by done. unfold owed, deferred. cbn. rewrite length_drop. lia.
Qed.

Lemma owed_all_zero m :
  (∀ k l, m !! k = Some l → deferred l = []) ↔ owed_all m = 0%nat.
Proof.
  induction m as [|k l m Hk IH] using map_ind; [done|].
  rewrite owed_all_insert by done. split.
  - intros Hm. rewrite (proj1 IH).
    + unfold owed. by rewrite (Hm k l) by apply lookup_insert_eq.
    + intros j l' Hj. apply (Hm j). rewrite lookup_insert_ne by naive_solver. done.
  - intros E j l' [[<- <-]|[_ Hj]]%lookup_insert_Some.
    + apply nil_length_inv. fold (owed l). lia.
    + apply (proj2 IH) with j; [lia|done].
Qed.

Lemma backlog_step s c r evs s' :
  step mac s c r evs s' → (backlog s' ≤ backlog s - is_get c)%nat.
Proof.
  intros Hs. destruct Hs as [fr g rest m Hd Hm|fr g rest m l Hd Hm|fr g rest m Hd|fr m k l p rest Hm Hdef
    |fr m Hdef|p rest m k l Hp Hm|p rest m k Hp Hm]; cbn [is_get].
  - pose proof (backlog_insert rest m (seg_flow mac g) (log_deliver (log_send (frame_of g) no_log))) as E.
    rewrite Hm in E. unfold backlog in *. cbn in *. lia.
  - pose proof (backlog_insert rest m (seg_flow mac g) (log_send (frame_of g) l)) as E.
    rewrite Hm in E. unfold backlog, owed, deferred in *. cbn in *.
    rewrite !length_drop, length_app in E. cbn in E. lia.
  - pose proof (backlog_insert rest m (seg_flow mac g)
      (log_expect (frame_of g) (default no_log (m !! seg_flow mac g)))) as E.
    unfold backlog, owed, deferred in *. cbn in *. lia.
  - pose proof (backlog_insert [] m k (log_deliver l)) as E. rewrite Hm in E.
    change (default no_log (Some l)) with l in E. unfold owed in E. rewrite Hdef in E. unfold deferred in *.
    cbn [log_deliver fl_delivered fl_sent] in E. apply (f_equal length) in Hdef.
    rewrite length_drop in *. simpl in *. lia.
  - unfold backlog. cbn. rewrite (proj1 (owed_all_zero m)) by done. lia.
  - pose proof (backlog_insert rest m k (log_receive p l)) as E. rewrite Hm in E.
    unfold owed, deferred in *. cbn in *. lia.
  - lia.
Qed.

Lemma backlog_steps s cs rs evs s' :
  steps mac s cs rs evs s' → (backlog s' ≤ backlog s - polls cs)%nat.
Proof.
  induction 1 as [s|s c r evs s1 cs rs evs' s' Hc Hs IH]; [cbn; lia|].
  apply backlog_step in Hc. unfold polls in *. cbn [sum_list_with]. lia.
Qed.

(** Polled twice for each segment of the trace, the backend has sent
    everything. *)
Lemma history_complete ps s k cs rs evs s' :
  history 0 ps s → steps mac s cs rs evs s' → (2 * length gs ≤ polls cs)%nat →
  owed_all (ss_flows s) = 0%nat → on_flow k (ps ++ got rs) = towards k gs.
Proof.
  intros Hh Hs Hn H0. pose proof (backlog_steps _ _ _ _ _ Hs) as Hb.
  pose proof (history_steps _ _ _ _ _ _ _ Hh Hs) as [Ht _ Hl]. specialize (Hl k).
  destruct Hh as [Ht0 _ _]. rewrite drop_0 in Ht0.
  unfold backlog in Hb. rewrite Ht0, H0 in Hb.
  assert (owed_all (ss_flows s') = 0%nat) as Hz by lia.
  assert (deferred (default no_log (ss_flows s' !! k)) = []) as Hd.
  { destruct (ss_flows s' !! k) as [l|] eqn:E; [|done].
    by apply (proj2 (owed_all_zero _) Hz k). }
  destruct Hl as [H1 _ <- _]. rewrite (take_ge gs) in H1 by lia. rewrite <- H1.
  rewrite <- (take_drop (fl_delivered (default no_log (ss_flows s' !! k)))
                        (fl_sent (default no_log (ss_flows s' !! k)))) at 2.
  fold (deferred (default no_log (ss_flows s' !! k))). by rewrite Hd, app_nil_r.
Qed.

(** *** A device that does as the trace *)

(** Read after [n] polls and the packets [ps] of the device: it only sends on
    a flow the trace has met, and on each flow a prefix of what the trace has
    from it. *)
Fixpoint conforming (n : nat) (ps : list (list byte)) (cs : list call) : Prop :=
  match cs with
  | [] => True
  | CGet fr :: cs' => stack_ok fr ∧ conforming (S n) ps cs'
  | CPut p :: cs' => ∃ k, packet_flow mac p = Some k ∧ k ∈ map (seg_flow mac) (take n gs) ∧
      on_flow k (ps ++ [p]) `prefix_of` answers_on k gs ∧ conforming n (ps ++ [p]) cs'
  end.

(** What a session has taken from the device. *)
Definition taken (ps : list (list byte)) (s : session) : Prop :=
  ∀ k, received (fl_check (default no_log (ss_flows s !! k))) = on_flow k ps.

Lemma answers_on_take k n : answers_on k (take n gs) `prefix_of` answers_on k gs.
Proof.
  rewrite <- (take_drop n gs) at 2. unfold answers_on.
  rewrite filter_app, map_app, on_flow_app. by apply prefix_app_r.
Qed.

Lemma zip_prefixes {A} (l a b : list A) :
  a `prefix_of` l → b `prefix_of` l → Forall (λ xy, xy.1 = xy.2) (zip a b).
Proof.
  intros [a' ->] [b' E]. revert b E. induction a as [|x a IH]; intros b E; [constructor|].
  destruct b as [|y b]; [constructor|]. simplify_eq/=. constructor; [done|]. by eapply IH.
Qed.

Lemma equal_pairs (pairs : list (list byte * list byte)) :
  Forall (λ xy, xy.1 = xy.2) pairs → Forall same_size pairs ∧ concat (map differences pairs) = [].
Proof.
  induction 1 as [|[a b] pairs Hab _ [IH1 IH2]]; [done|]. cbn in Hab. subst b.
  split; [by constructor|]. cbn [map concat]. unfold differences at 1. cbn [fst snd].
  by rewrite mismatches_refl.
Qed.

(** The packets compared when a conforming device sends. *)
Lemma conforming_pairs n qs ps s p k :
  history n qs s → taken ps s → on_flow k (ps ++ [p]) `prefix_of` answers_on k gs →
  packet_flow mac p = Some k →
  Forall (λ xy, xy.1 = xy.2) (spec_pairs p (fl_check (default no_log (ss_flows s !! k)))).
Proof.
  intros Hh Ht Hp Hk. unfold spec_pairs. apply Forall_drop, (zip_prefixes (answers_on k gs)).
  - rewrite (lo_expected _ _ _ _ (hi_log _ _ _ Hh k)). apply answers_on_take.
  - rewrite Ht. rewrite on_flow_app, (on_flow_one k _ _ Hk), decide_True in Hp by done. exact Hp.
Qed.

Lemma taken_insert ps ps' tr tr' m k l :
  taken ps (Session tr m) → received (fl_check l) = on_flow k ps' →
  (∀ j, j ≠ k → on_flow j ps' = on_flow j ps) →
  taken ps' (Session tr' (<[k := l]> m)).
Proof.
  intros Ht Hl Hps j. cbn. destruct (decide (j = k)) as [->|Hj].
  - by rewrite lookup_insert_eq.
  - rewrite lookup_insert_ne by done. rewrite Hps by done. apply (Ht j).
Qed.

Lemma taken_get ps s fr r evs s' : taken ps s → step mac s (CGet fr) r evs s' → taken ps s'.
Proof.
  intros Ht Hs. remember (CGet fr) as c eqn:Ec.
  destruct Hs as [fr' g rest m Hd Hm|fr' g rest m l Hd Hm|fr' g rest m Hd|fr' m k l p rest Hm Hdef
    |fr' m Hdef|p rest m k l Hp Hm|p rest m k Hp Hm]; [| | | | |done|done].
  1-3: apply (taken_insert ps ps (g :: rest) _ _ _ _ Ht); [|done];
    rewrite <- (Ht (seg_flow mac g)); cbn; by simplify_map_eq.
  - apply (taken_insert ps ps [] _ _ _ _ Ht); [|done]. rewrite <- (Ht k). cbn. by simplify_map_eq.
  - done.
Qed.

Lemma step_get_quiet s fr r evs s' : step mac s (CGet fr) r evs s' → evs = [].
Proof. by inversion 1. Qed.

(** The packet is compared with equal packets only. *)
Lemma conforming_put n qs ps s p k r evs s' :
  history n qs s → taken ps s → on_flow k (ps ++ [p]) `prefix_of` answers_on k gs →
  packet_flow mac p = Some k → k ∈ map (seg_flow mac) (take n gs) →
  step mac s (CPut p) r evs s' → evs = [] ∧ taken (ps ++ [p]) s'.
Proof.
  intros Hh Ht Hp Hk Hin Hs. apply (hi_known _ _ _ Hh) in Hin as [l Hl].
  pose proof (conforming_pairs n qs ps s p k Hh Ht Hp Hk) as Hpairs. rewrite Hl in Hpairs.
  remember (CPut p) as c eqn:Ec.
  destruct Hs as [| | | | |p' tr m j l' Hj Hm|p' tr m j Hj Hm]; cbn in *; simplify_eq.
  split; [by apply equal_pairs|]. specialize (Ht k) as Htk. cbn in Htk. rewrite Hl in Htk.
  apply (taken_insert ps _ tr _ _ _ _ Ht); cbn.
  - cbn in Htk. by rewrite Htk, on_flow_app, (on_flow_one k _ _ Hk), decide_True.
  - intros j Hne. rewrite on_flow_app, (on_flow_one j _ _ Hk), decide_False by done.
    apply app_nil_r.
Qed.

Lemma conforming_ok n qs ps s cs :
  history n qs s → taken ps s → conforming n ps cs → session_ok mac s cs.
Proof.
  revert n qs ps s. induction cs as [|[fr|p] cs IH]; intros n qs ps s Hh Ht Hc; [done| |].
  - destruct Hc as [Hfr Hc]. split; [done|]. intros r evs s' Hs.
    pose proof (history_step _ _ _ _ _ _ _ Hh Hs) as Hh'. cbn [is_get] in Hh'.
    rewrite Nat.add_1_r in Hh'. eapply IH; [done| |exact Hc]. by eapply taken_get.
  - destruct Hc as (k & Hk & Hin & Hp & Hc). split.
    + exists k. split; [done|]. intros l Hl.
      pose proof (conforming_pairs n qs ps s p k Hh Ht Hp Hk) as Hpairs. rewrite Hl in Hpairs.
      by apply equal_pairs.
    + intros r evs s' Hs. pose proof (history_step _ _ _ _ _ _ _ Hh Hs) as Hh'. cbn [is_get] in Hh'.
      rewrite Nat.add_0_r in Hh'. eapply IH; [done| |exact Hc].
      by destruct (conforming_put n qs ps s p k r evs s' Hh Ht Hp Hk Hin Hs).
Qed.

Lemma conforming_quiet n qs ps s cs rs evs s' :
  history n qs s → taken ps s → conforming n ps cs → steps mac s cs rs evs s' → evs = [].
Proof.
  intros Hh Ht Hc Hs. revert n qs ps Hh Ht Hc.
  induction Hs as [s|s c r evs s1 cs rs evs' s' Hc1 Hs IH]; intros n qs ps Hh Ht Hc; [done|].
  pose proof (history_step _ _ _ _ _ _ _ Hh Hc1) as Hh'. destruct c as [fr|p]; cbn [is_get] in Hh'.
  - destruct Hc as [_ Hc]. rewrite Nat.add_1_r in Hh'. rewrite (step_get_quiet _ _ _ _ _ Hc1).
    eapply IH; [done| |exact Hc]. by eapply taken_get.
  - destruct Hc as (k & Hk & Hin & Hp & Hc). rewrite Nat.add_0_r in Hh'.
    destruct (conforming_put n qs ps s p k r evs s1 Hh Ht Hp Hk Hin Hc1) as [-> Ht'].
    by eapply IH.
Qed.
End Promises.

(** ** Sessions from the start of the program *)

Section Sessions.
Context `{FlowOrder}.
Variables (w : bworld TCPPcapTestingLib) (mac hdr bs : list byte) (r : nat) (gs : list segment).
Hypotheses (Hw : source_mac_addr (w_instance_state w) = mac) (Hmac : length mac = 6%nat).
Hypotheses (Hhdr : length hdr = 24%nat) (Hgs : seg_records bs gs).

(** The backend is created on the trace, then called. *)
Definition run_session (cs : list call) : M (bworld TCPPcapTestingLib) (list reply) :=
  o ← TCPPcapTestingLib_new (Some (Stream (hdr ++ bs) 0 false r));
  set_this o;;
  run_all (map exec_call cs).

Lemma session_start cs :
  session_ok mac (Session gs ∅) cs →
  ∃ rs w' tr s', run_session cs w = Done rs w' tr ∧ steps mac (Session gs ∅) cs rs (visible tr) s'.
Proof.
  intros Hok. set (o := new_object (Stream (hdr ++ bs) 24 false r)).
  assert (refines mac (Session gs ∅) (live w o) o) as Hr.
  { split; try done.
    - exact (new_inv _ w _ _ _ (TCPPcapTestingLib_new_run hdr bs r w Hhdr)).
    - exists hdr, bs, false, r. by rewrite Hhdr.
    - intros k. cbn. rewrite !lookup_empty. constructor. }
  destruct (session_refines mac cs _ _ _ Hr Hok) as (rs & w' & tr & s' & o' & Hrun & Hs & _).
  exists rs, w', tr, s'. split; [|done]. unfold run_session.
  rewrite (bind_done_nil _ _ _ _ _ (TCPPcapTestingLib_new_run hdr bs r w Hhdr)).
  erewrite bind_done_nil by reflexivity. exact Hrun.
Qed.



End Sessions.

(** ** A concrete session *)

Definition sample_segments : list segment := [sample_syn; sample_synack].
Definition sample_records : list byte :=
  (pcap_pkthdr_enc (sample_hdr 54) ++ frame_of sample_syn) ++
  (pcap_pkthdr_enc (sample_hdr 54) ++ frame_of sample_synack) ++ [].
Definition sample_session : list call :=
  [CGet sample_stack; CGet sample_stack; CPut (frame_of sample_synack);
   CGet sample_stack; CGet sample_stack].
Definition session_world : bworld TCPPcapTestingLib := sample_world Null.

Lemma sample_seg_records : seg_records sample_records sample_segments.
Proof.
  apply seg_records_cons; [exact sample_syn_ok|reflexivity|].
  apply seg_records_cons; [exact sample_synack_ok|reflexivity|constructor].
Defined.

Lemma sample_conforming : conforming sample_mac sample_segments 0 [] sample_session.
Proof.
  split; [exact sample_stack_ok|]. split; [exact sample_stack_ok|].
  exists (flow_of true sample_syn). split; [vm_compute; reflexivity|].
  split; [vm_compute; constructor|]. split; [exists []; vm_compute; reflexivity|].
  split; [exact sample_stack_ok|]. split; [exact sample_stack_ok|done].
Defined.

Lemma sample_session_ok : session_ok sample_mac (Session sample_segments ∅) sample_session.
Proof.
  apply (conforming_ok sample_mac sample_segments eq_refl
           (seg_records_ok _ _ sample_seg_records) 0 [] []).
  - apply history_start.
  - intros k. cbn. by rewrite lookup_empty.
  - exact sample_conforming.
Qed.



