(* ===== verification/System.v ===== *)
(** System: the parts put together.  The simulation is initialized on a trace
    that holds the SYN of a connection to the device and the device's answer;
    the device takes the SYN beat by beat and sends the answer. *)

From S2P Require Import Prelude Words Headers Backend Pcap FileIO PcapTrace TcpMimic.
From S2P Require Import TcpTrace Arp NetworkSide NetworkInit Segments.

(** ** The trace backend behind the pointer *)

Definition lift_world (w : bworld TCPPcapTestingLib) : bworld sim_object :=
  set_sim_backend (ptr_map inr (w_sim_backend w)) w.

Lemma virtual_call_live {A} m1 m2 (w : bworld TCPPcapTestingLib) o (a : A) w' tr :
  w_sim_backend w = Live o → m2 w = Done a w' tr →
  virtual_call (B1 := FileIOTestingLib) m1 m2 (lift_world w) = Done a (lift_world w') tr.
Proof.
  intros Hw Hm. destruct w as [inst now p]. simpl in Hw. subst p.
  unfold virtual_call, lift_world, dispatch, set_sim_backend. cbn. by rewrite Hm.
Qed.

(** ** A connection request and its answer *)

Section Handshake.
Context `{FlowOrder}.
Variables (fs : files) (inst : sock_state) (now : Z * Z).
Variables (hdr rest : list byte) (r : nat).
Variables (syn synack : segment) (h1 h2 : pcap_pkthdr).

Definition handshake_trace : list byte :=
  hdr ++ (pcap_pkthdr_enc h1 ++ frame_of syn) ++ (pcap_pkthdr_enc h2 ++ frame_of synack) ++ rest.

(** The trace is as it says, and the two segments are a request to the device
    and its answer. *)
Record handshake_ok : Prop := {
  hs_trace : trace fs = Some (Stream handshake_trace 0 false r);
  hs_hdr : length hdr = 24%nat;
  hs_syn : segment_ok syn;
  hs_synack : segment_ok synack;
  hs_rec1 : whole_record h1 (frame_of syn);
  hs_rec2 : whole_record h2 (frame_of synack);
  hs_to_device : sg_dst_mac syn = host_mac;
  hs_from_device : sg_dst_mac synack ≠ host_mac;
  hs_answers : answers syn synack }.

Lemma answers_flow : answers syn synack → flow_of false synack = flow_of true syn.
Proof. intros (E1 & E2 & E3 & E4). unfold flow_of. by rewrite E1, E2, E3, E4. Qed.

Definition o_boot : TCPPcapTestingLib :=
  {| pcap_file := Stream handshake_trace 24 false r; tcp_flows := ∅; flow_order := [] |}.
Definition w_boot : bworld TCPPcapTestingLib :=
  BWorld (init_instance_state inst) now (Live o_boot).

Definition packet_len (g : segment) : event :=
  Printf "Packet len is %d\n" [ANum (Z.of_nat (length (frame_of g)))].

(** The first poll reads the request and creates its flow. *)
Lemma handshake_first fr :
  handshake_ok → stack_ok fr →
  ∃ c f', Tcp_get_buf_fr_io fr w_boot
    = Done (frame_of syn) (live w_boot (insert_flow (flow_of true syn) c (set_pcap_file f' o_boot)))
        [packet_len syn; direction true] ∧
    pkts_to_recv c = [] ∧ pkts_recved_buf c = [] ∧
    f' = Stream ((hdr ++ pcap_pkthdr_enc h1 ++ frame_of syn) ++
                 (pcap_pkthdr_enc h2 ++ frame_of synack) ++ rest)
                (length (hdr ++ pcap_pkthdr_enc h1 ++ frame_of syn)) false r.
Proof.
  intros Hok Hfr.
  pose proof (next_record_segment w_boot o_boot fr hdr h1 syn
    ((pcap_pkthdr_enc h2 ++ frame_of synack) ++ rest) r host_mac Hfr (hs_syn Hok) (hs_rec1 Hok)
    eq_refl eq_refl eq_refl) as Hn.
  rewrite (hs_to_device Hok), bool_decide_eq_true_2 in Hn by done.
  specialize (Hn ltac:(unfold o_boot; cbn; by rewrite (hs_hdr Hok))).
  destruct (buf_process_helper_parsed _ _ _ _ _ _ (TCPMimic_new (fr_mimic fr) false)
              (frame_parsed syn (hs_syn Hok))) as (c & Hb & _).
  destruct (buf_process_helper_queues _ _ _ _ _ Hb) as (_ & Hq1 & Hq2 & _).
  exists c, (Stream ((hdr ++ pcap_pkthdr_enc h1 ++ frame_of syn) ++
                     (pcap_pkthdr_enc h2 ++ frame_of synack) ++ rest)
                    (length (hdr ++ pcap_pkthdr_enc h1 ++ frame_of syn)) false r).
  split; [|split; [|split; [|done]]].
  - rewrite (Tcp_get_record_run _ _ _ _ _ _ _ _ Hn). cbn [tcp_flows o_boot]. rewrite lookup_empty.
    unfold new_flow_packet. rewrite (bind_done_nil _ _ _ _ _ Hb). done.
  - rewrite Hq2. unfold TCPMimic_new. by destruct (fr_mimic fr) as [[[] ?] ?].
  - rewrite Hq1. unfold TCPMimic_new. by destruct (fr_mimic fr) as [[[] ?] ?].
Qed.

(** The second poll files the answer; nothing goes to the device. *)
Lemma handshake_second fr c f' :
  handshake_ok → stack_ok fr → pkts_to_recv c = [] →
  f' = Stream ((hdr ++ pcap_pkthdr_enc h1 ++ frame_of syn) ++
               (pcap_pkthdr_enc h2 ++ frame_of synack) ++ rest)
              (length (hdr ++ pcap_pkthdr_enc h1 ++ frame_of syn)) false r →
  let o := insert_flow (flow_of true syn) c (set_pcap_file f' o_boot) in
  ∃ f'', Tcp_get_buf_fr_io fr (live w_boot o)
    = Done [] (live w_boot (set_flow (flow_of true syn) (set_pkts_to_recv [frame_of synack] c)
                              (set_pcap_file f'' o)))
        [packet_len synack; direction false].
Proof.
  intros Hok Hfr Hc -> o. set (f' := Stream _ _ _ _) in o.
  pose proof (next_record_segment (live w_boot o) o fr
    (hdr ++ pcap_pkthdr_enc h1 ++ frame_of syn) h2 synack rest r host_mac Hfr (hs_synack Hok)
    (hs_rec2 Hok) eq_refl eq_refl eq_refl eq_refl) as Hn.
  cbv zeta in Hn. rewrite bool_decide_eq_false_2 in Hn by apply (hs_from_device Hok).
  rewrite (answers_flow (hs_answers Hok)) in Hn.
  eexists. rewrite (Tcp_get_record_run _ _ _ _ _ _ _ _ Hn).
  assert (tcp_flows o !! flow_of true syn = Some c) as -> by (cbn; apply lookup_insert_eq).
  unfold known_flow_packet, put_pkts_to_recv_back.
  erewrite bind_done_nil by reflexivity. rewrite Hc. done.
Qed.

(** The device's answer is the packet the trace expects. *)
Lemma handshake_third w o c :
  handshake_ok → w_sim_backend w = Live o → source_mac_addr (w_instance_state w) = host_mac →
  tcp_flows o !! flow_of true syn = Some c →
  pkts_to_recv c = [frame_of synack] → pkts_recved_buf c = [] →
  ∃ c', Tcp_put_buf_on_io (frame_of synack) w
    = Done (s32 (Z.of_nat (length (frame_of synack))))
        (set_sim_backend (Live (set_flow (flow_of true syn) c' o)) w)
        [Printf "Receive trace found an entry\n" []; Printf "%lu packets to receive\n" [ANum 1];
         Printf "Comparing bufs\n" []] ∧
    pkts_to_recv c' = [] ∧ pkts_recved_buf c' = [].
Proof.
  intros Hok Hw Hmac Hk Hr Hg.
  assert (packet_flow (source_mac_addr (w_instance_state w)) (frame_of synack)
          = Some (flow_of true syn)) as Hp.
  { rewrite Hmac, <- (answers_flow (hs_answers Hok)).
    apply frame_packet_flow; [apply (hs_synack Hok)|done|apply (hs_from_device Hok)]. }
  pose proof (put_known_flow_run w o (flow_of true syn) c (frame_of synack)) as Hrun.
  rewrite at_flow_id, Hr, Hg in Hrun by done. specialize (Hrun ltac:(by repeat constructor)).
  exists (after_put (frame_of synack) c).
  rewrite (Tcp_put_run _ _ _ _ Hw Hp), Hk, Hrun. unfold put_trace, after_put. rewrite Hr, Hg.
  cbn [app zip zip_with map concat length compared]. unfold compared. cbn [fst snd].
  rewrite mismatches_refl. done.
Qed.

(** The polls of the replay: the request goes to the device, the answer is
    filed on its flow. *)
Lemma handshake_polls fr frs fr2 :
  handshake_ok → Forall stack_ok (fr :: frs) → stack_ok fr2 →
  length (fr :: frs) = length (beats (frame_of syn)) →
  ∃ us s1 t1 o c, (init_network_side_state fs;;
                   us ← run_all (map get_data (fr :: frs));
                   get_data fr2;;
                   mret us) (boot_state inst now) = Done us s1 t1 ∧
    visible t1 = [invalid_beat] ++ map drive (beats (frame_of syn)) ++ [invalid_beat] ∧
    n_world s1 = lift_world (live w_boot o) ∧ tx_buffer s1 = [] ∧
    tcp_flows o = {[flow_of true syn := c]} ∧
    pkts_to_recv c = [frame_of synack] ∧ pkts_recved_buf c = [].
Proof.
  intros Hok Hfrs Hfr2 Hlen.
  pose proof (init_network_side_state_run fs inst now hdr
    ((pcap_pkthdr_enc h1 ++ frame_of syn) ++ (pcap_pkthdr_enc h2 ++ frame_of synack) ++ rest) r
    (hs_trace Hok) (hs_hdr Hok)) as Hinit.
  pose proof Hfrs as [Hfr _]%Forall_cons.
  destruct (handshake_first fr Hok Hfr) as (c & f' & H1 & Hc1 & Hc2 & Hf').
  set (s0 := booted inst now _) in Hinit.
  destruct (get_data_packet frs s0 fr (frame_of syn) (sg_total syn) (lift_world _) _ ltac:(done)
    (virtual_call_live (get_buf_fr_io fr) _ w_boot o_boot _ _ _ eq_refl H1)
    (frame_ipv4 syn (hs_syn Hok))) as (us & s1 & t1 & Hrun & Ht1 & Hw1 & Htx & Hidle & _).
  { unfold sg_total. rewrite frame_of_length by apply (hs_syn Hok). lia. }
  { eapply Forall_impl; [exact Hfrs|]. by intros x [Hx _]. }
  { by rewrite frame_whole by apply (hs_syn Hok). }
  rewrite frame_whole in Ht1 by apply (hs_syn Hok).
  destruct (handshake_second fr2 c f' Hok Hfr2 Hc1 Hf') as (f'' & H2).
  pose proof (virtual_call_live (get_buf_fr_io fr2) _ (live w_boot _) _ _ _ _ eq_refl H2) as Hv2.
  rewrite <- Hw1 in Hv2.
  pose proof (get_data_none_run fr2 s1 [] _ _ Hidle Hv2 ltac:(by left)) as Hrun2.
  exists us. eexists _, _, _, (set_pkts_to_recv [frame_of synack] c). split.
  { rewrite (bind_done _ _ _ _ _ _ Hinit), (bind_done _ _ _ _ _ _ Hrun),
      (bind_done _ _ _ _ _ _ Hrun2). reflexivity. }
  split; [by rewrite !visible_app, Ht1|].
  split; [reflexivity|]. split; [exact Htx|]. split; [|done].
  cbn. by rewrite insert_insert_eq.
Qed.

End Handshake.

(** ** A concrete replay *)

Definition sample_trace : list byte :=
  handshake_trace (replicate 24 Byte.x00) [] sample_syn sample_synack (sample_hdr 54) (sample_hdr 54).
Definition sample_inst : sock_state := w_instance_state (sample_world (B := unit) Null).

Lemma sample_handshake_ok :
  handshake_ok (sample_files sample_trace) (replicate 24 Byte.x00) [] 0 sample_syn sample_synack
    (sample_hdr 54) (sample_hdr 54).
Proof.
  split; try reflexivity; try (repeat split; vm_compute; (reflexivity || congruence)).
Defined.

