(* ===== verification/SocDefs.v ===== *)
(** SocDefs: the width of the MAC interface, of include/common/soc_defs.vh, as
    every SystemVerilog module has it.  The C++ of the testbench has a width of
    its own, MAC_INTERFACE_W of testing_utils.h ([MAC_INTERFACE_W] in Headers),
    and it is half of this one. *)

From S2P Require Import Prelude.

Definition mac_interface_w : Z := 512.
Definition MAC_INTERFACE_BYTES : Z := Eval cbv in mac_interface_w / 8.
Definition MAC_PADBYTES_W : Z := Z.log2_up MAC_INTERFACE_BYTES.

Lemma mac_interface_bytes_64 : MAC_INTERFACE_BYTES = 64.
Proof. reflexivity. Qed.

(** Six bits count up to 63 bytes of padding. *)
Lemma mac_padbytes_range : 2 ^ MAC_PADBYTES_W = MAC_INTERFACE_BYTES.
Proof. reflexivity. Qed.
