(* ===== verification/SimDriver.v ===== *)
(** SimDriver: sim_dpi/sim_network_side_queue.sv, the module that calls the C++
    of the network side on the negative edges of the clock and queues the lines
    between it and the engine, in both directions.

    The queues are BaseJump's bsg_fifo_1r1w_small, whose unhardened variant is
    not in the repository: [BsgFifo] is what its documentation promises.

    The lines of this side have 64 bytes, MAC_INTERFACE_W of soc_defs.vh; the
    buffers of the C++ have 32, MAC_INTERFACE_W of testing_utils.h.  So
    [drive_rx_if] takes, besides the buffer of [get_data], the 32 bytes of memory
    behind it, which the model is given in every cycle; and [put_data] looks at
    the lower half of its line only. *)

From S2P Require Import Prelude Words Headers Backend Pcap FileIO PcapTrace TcpMimic TcpTrace.
From S2P Require Import NetworkSide Replay SocDefs.

(** ** bsg_fifo_1r1w_small: ready and valid at the input, valid then yumi at the
    output *)

Record bsg_in (A : Type) := BsgIn { v_i : bool; data_i : A; yumi_i : bool }.
Arguments BsgIn {A} _ _ _.
Arguments v_i {A} _.
Arguments data_i {A} _.
Arguments yumi_i {A} _.

Class BsgFifo (A F : Type) (els_p : nat) := {
  ready_o : F → bool;
  v_o : F → bool;
  data_o : F → option A;
  bsg_next : bool → bsg_in A → F → F;
  bsg_holds : F → list A → Prop;
  bsg_ready f q : bsg_holds f q → ready_o f = bool_decide (length q < els_p)%nat;
  bsg_valid f q : bsg_holds f q → v_o f = bool_decide (q ≠ []);
  bsg_head f q d : bsg_holds f q → head q = Some d → data_o f = Some d;
  bsg_cycle f q i :
    bsg_holds f q → (yumi_i i = true → q ≠ []) →
    bsg_holds (bsg_next false i f)
      ((if yumi_i i then tail q else q) ++ (if v_i i && ready_o f then [data_i i] else []));
  bsg_reset f i : bsg_holds (bsg_next true i f) [] }.

(** ** The module *)

(** [queue_entry] has the fields of a beat, with a line of 64 bytes. *)
Abbreviation queue_entry := beat.

(** The variables [drive_rx_if] assigns, and the registers after them. *)
Record rx_vars := RxVars { rx_val : bool; rx_entry : queue_entry }.

Definition drive_rx_if (val : bool) (data : list byte) (last : bool) (padbytes : Z) : rx_vars :=
  RxVars val (Beat data last (padbytes mod 2 ^ MAC_PADBYTES_W)).

(** The line that starts at a buffer of the C++, with the memory behind it. *)
Definition line_at (buffer beyond : list byte) : list byte := take (Z.to_nat MAC_INTERFACE_BYTES) (buffer ++ beyond).

(** The calls of [drive_rx_if] in a trace, on the variables. *)
Definition apply_drives (beyond : list byte) (tr : list event) (d : rx_vars) : rx_vars :=
  fold_left (λ d e, match e with
                    | DriveRxIf val data last padbytes => drive_rx_if val (line_at data beyond) last padbytes
                    | _ => d
                    end) tr d.

Section Driver.
Context {F : Type} `{BsgFifo queue_entry F 32} `{DPITestingLib B}.

Record rx_side := RxSide {
  rx_dpi : rx_vars;
  rx_dpi_reg : rx_vars;
  rx_fifo : F }.

Definition zero_vars : rx_vars := RxVars false (Beat (replicate (Z.to_nat MAC_INTERFACE_BYTES) Byte.x00) false 0).

(** [get_data] on the negative edge, while the queue is ready. *)
Definition rx_negedge (rst : bool) (fr : frame) (beyond : list byte) (hw : rx_side) : M (net B) rx_side := λ s,
  if ready_o (rx_fifo hw) && negb rst then
    match get_data fr s with
    | Done _ s' tr => Done (RxSide (apply_drives beyond tr (rx_dpi hw)) (rx_dpi_reg hw) (rx_fifo hw)) s' tr
    | Stopped why tr => Stopped why tr
    end
  else Done hw s [].

Definition rx_posedge (rst : bool) (engine_mac_rx_rdy : bool) (hw : rx_side) : rx_side :=
  {| rx_dpi := rx_dpi hw;
     rx_dpi_reg := if rst then zero_vars else rx_dpi hw;
     rx_fifo := bsg_next rst (BsgIn (rx_val (rx_dpi_reg hw)) (rx_entry (rx_dpi_reg hw))
                                    (engine_mac_rx_rdy && v_o (rx_fifo hw))) (rx_fifo hw) |}.

(** What the engine takes in a cycle. *)
Definition rx_taken (engine_mac_rx_rdy : bool) (hw : rx_side) : list (option queue_entry) :=
  if v_o (rx_fifo hw) && engine_mac_rx_rdy then [data_o (rx_fifo hw)] else [].

(** The other direction: [put_data] on the negative edge while the queue holds
    a line, which then leaves it. *)
Definition tx_negedge (f : F) : M (net B) unit :=
  if v_o f then
    e ← defined (data_o f);
    put_data (b_data e) (b_last e) (b_padbytes e)
  else mret tt.

Definition tx_posedge (rst : bool) (engine_mac_tx : option queue_entry) (f : F) : F :=
  bsg_next rst (match engine_mac_tx with
                | Some e => BsgIn true e (v_o f)
                | None => BsgIn false (rx_entry zero_vars) (v_o f)
                end) f.

Record sim_network_side_queue := Driver { d_rx : rx_side; d_tx : F }.

(** The signals of a cycle: the stack [get_data] would find, with the memory
    behind its buffer, whether the simulator runs the receive block before the
    send block, and what the engine drives. *)
Record driver_in := DriverIn {
  di_stack : frame;
  di_beyond : list byte;
  di_rx_first : bool;
  di_engine_mac_rx_rdy : bool;
  di_engine_mac_tx : option queue_entry }.

(** The two blocks of a negative edge run in either order. *)
Definition driver_negedge (rst : bool) (i : driver_in) (d : sim_network_side_queue)
    : M (net B) sim_network_side_queue :=
  if di_rx_first i then
    hw ← rx_negedge rst (di_stack i) (di_beyond i) (d_rx d);
    tx_negedge (d_tx d);;
    mret (Driver hw (d_tx d))
  else
    tx_negedge (d_tx d);;
    hw ← rx_negedge rst (di_stack i) (di_beyond i) (d_rx d);
    mret (Driver hw (d_tx d)).

Definition driver_posedge (rst : bool) (i : driver_in) (d : sim_network_side_queue)
    : sim_network_side_queue :=
  Driver (rx_posedge rst (di_engine_mac_rx_rdy i) (d_rx d)) (tx_posedge rst (di_engine_mac_tx i) (d_tx d)).

(** Cycles out of reset, with the lines the engine takes. *)
Fixpoint driver_run (ins : list driver_in) (d : sim_network_side_queue)
    : M (net B) (list (option queue_entry) * sim_network_side_queue) :=
  match ins with
  | [] => mret ([], d)
  | i :: ins' =>
      d1 ← driver_negedge false i d;
      '(l, d') ← driver_run ins' (driver_posedge false i d1);
      mret (rx_taken (di_engine_mac_rx_rdy i) (d_rx d1) ++ l, d')
  end.
End Driver.
Arguments rx_side F : clear implicits.
Arguments sim_network_side_queue F : clear implicits.

(** ** Halves of lines *)

(** What the C++ has of a line, and what the engine gets of a beat. *)
Definition narrow (e : queue_entry) : beat := Beat (take MAC_BYTES (b_data e)) (b_last e) (b_padbytes e).
Definition widen (beyond : list byte) (b : beat) : queue_entry :=
  Beat (b_data b ++ beyond) (b_last b) (b_padbytes b).
Definition upper (e : queue_entry) : list byte := drop MAC_BYTES (b_data e).

(** [put_data] does not look at the upper half. *)
Lemma push_loop_take `{DPITestingLib B} n m pad v (s : net B) :
  (n ≤ m)%nat → push_loop n pad v s = push_loop n pad (take m v) s.
Proof.
  revert s. induction n as [|n IH]; intros s Hn; [done|]. cbn [push_loop]. case_match; [|done].
  rewrite lookup_take_lt by lia. destruct (v !! n) as [c|]; [|done].
  unfold mbind, M_bind. cbn. by rewrite IH by lia.
Qed.

Lemma put_data_narrow `{DPITestingLib B} e (s : net B) :
  put_data (b_data e) (b_last e) (b_padbytes e) s = put_beat (narrow e) s.
Proof.
  unfold put_beat, put_data. cbn [narrow b_data b_last b_padbytes]. unfold mbind, M_bind.
  destruct (b_last e); cbn; by rewrite (push_loop_take _ MAC_BYTES) by done.
Qed.

(** ** Lemmas on the receive side *)

Lemma apply_drives_visible beyond tr d : apply_drives beyond tr d = apply_drives beyond (visible tr) d.
Proof.
  unfold apply_drives. revert d. induction tr as [|e tr IH]; intros d; [done|].
  destruct e; cbn [fold_left visible List.filter is_dpi orb]; try apply IH; case_match; apply IH.
Qed.

Definition no_beat : beat := Beat (replicate MAC_BYTES Byte.x00) false 0.

(** What a poll drives, as the queue entry it becomes. *)
Definition polled (beyond : list byte) (D : list beat) : rx_vars :=
  match D with b :: _ => RxVars true (widen beyond b) | [] => RxVars false (widen beyond no_beat) end.

(** Beats of the C++. *)
Definition beats_ok (D : list beat) : Prop := Forall (λ b, length (b_data b) = MAC_BYTES ∧ 0 ≤ b_padbytes b < 32) D.

Lemma beats_beats_ok p : beats_ok (beats p).
Proof.
  unfold beats. generalize (length p). intros fuel. revert p.
  induction fuel as [|fuel IH]; intros p; [constructor|]. destruct p as [|x p]; [constructor|].
  cbn [beats_fuel]. constructor; [|apply IH]. pose proof MAC_BYTES_32. split.
  - rewrite MAC_BYTES_32. apply beat_data_length.
  - cbn [first_beat b_padbytes length]. lia.
Qed.

Lemma packets_beats_ok (ps : list (list byte)) : beats_ok (ps ≫= beats).
Proof.
  induction ps as [|p ps IH]; [constructor|]. cbn. apply Forall_app. split; [apply beats_beats_ok|done].
Qed.

Lemma line_at_whole buffer beyond : length buffer = MAC_BYTES → length beyond = MAC_BYTES → line_at buffer beyond = buffer ++ beyond.
Proof.
  intros H1 H2. apply take_ge. rewrite length_app, H1, H2, MAC_BYTES_32. rewrite mac_interface_bytes_64. lia.
Qed.

Lemma narrow_widen beyond b : length (b_data b) = MAC_BYTES → narrow (widen beyond b) = b ∧ upper (widen beyond b) = beyond.
Proof.
  intros H. unfold narrow, upper, widen. cbn. rewrite take_app_exact, drop_app_exact by done. by destruct b.
Qed.

Lemma apply_driven beyond D d :
  length beyond = MAC_BYTES → beats_ok D → apply_drives beyond (driven 1 D) d = polled beyond D.
Proof.
  intros Hb HD. unfold driven. destruct HD as [|b D [Hl Hp] HD]; cbn [map app replicate take apply_drives fold_left].
  - unfold invalid_beat, drive_rx_if. rewrite <- MAC_BYTES_32, line_at_whole by (rewrite ?length_replicate; done). done.
  - unfold drive, drive_rx_if. rewrite line_at_whole, Z.mod_small; [done| |done|done].
    rewrite mac_padbytes_range, mac_interface_bytes_64. lia.
Qed.

Section Cycles.
Context {F : Type} `{BsgFifo queue_entry F 32} `{ReplayBackend B}.
Implicit Types (hw : rx_side F) (s : net B).

(** What the upper halves of the lines may be. *)
Variable U : list byte → Prop.
Abbreviation uppers q := (Forall (λ e, U (upper e)) q).

(** The line in the registers. *)
Definition registered (v : rx_vars) : list queue_entry := if rx_val v then [rx_entry v] else [].

(** Between two cycles: the lines queued, and the beats still to be driven. *)
Record rx_inv hw (q : list queue_entry) (D : list beat) : Prop := {
  ri_fifo : bsg_holds (rx_fifo hw) q;
  ri_beats : beats_ok D;
  ri_upper : uppers (q ++ registered (rx_dpi_reg hw));
  ri_same : (32 ≤ length q)%nat → rx_dpi hw = rx_dpi_reg hw }.

(** What is queued, registered and due after a cycle. *)
Definition rx_room (q : list beat) : bool := bool_decide (length q < 32)%nat.
Definition rx_due (q D : list beat) : list beat := if rx_room q then tail D else D.
Definition rx_reg_next (beyond : list byte) (v : rx_vars) (q D : list beat) : rx_vars :=
  if rx_room q then polled beyond D else v.
Definition rx_queue_next (rdy : bool) (v : rx_vars) (q : list beat) : list beat :=
  (if rdy then tail q else q) ++ (if rx_room q then registered v else []).

Lemma rx_yumi hw q rdy : bsg_holds (rx_fifo hw) q → rdy && v_o (rx_fifo hw) = true → q ≠ [].
Proof. intros Hq. rewrite (bsg_valid _ _ Hq), andb_true_iff, bool_decide_eq_true. tauto. Qed.

Lemma rx_taken_head hw q rdy :
  bsg_holds (rx_fifo hw) q → rx_taken rdy hw = Some <$> (if rdy then take 1 q else []).
Proof.
  intros Hq. unfold rx_taken. rewrite (bsg_valid _ _ Hq). destruct q as [|b q]; [by destruct rdy|].
  rewrite bool_decide_true by done. destruct rdy; [|done]. cbn. by rewrite (bsg_head _ _ b Hq).
Qed.

Lemma rx_posedge_queue hw q rdy :
  bsg_holds (rx_fifo hw) q →
  bsg_holds (rx_fifo (rx_posedge false rdy hw)) (rx_queue_next rdy (rx_dpi_reg hw) q).
Proof.
  intros Hq. pose proof (bsg_cycle _ _ (BsgIn (rx_val (rx_dpi_reg hw)) (rx_entry (rx_dpi_reg hw))
    (rdy && v_o (rx_fifo hw))) Hq (rx_yumi _ _ _ Hq)) as Hn.
  unfold rx_queue_next, rx_room, registered. cbn [v_i data_i yumi_i] in Hn.
  cbn [rx_posedge rx_fifo]. rewrite (bsg_ready _ _ Hq) in Hn. rewrite (bsg_valid _ _ Hq) in Hn |- *.
  destruct q; [rewrite bool_decide_false in Hn |- * by tauto|
               rewrite bool_decide_true in Hn |- * by done];
    by destruct rdy, (rx_val (rx_dpi_reg hw)), (bool_decide (length _ < 32)%nat).
Qed.

(** The receive half of a cycle. *)
Lemma uppers_next beyond (rdy : bool) v q D :
  U beyond → beats_ok D → uppers (q ++ registered v) →
  uppers (rx_queue_next rdy v q ++ registered (rx_reg_next beyond v q D)).
Proof.
  intros Hb HD [Hq Hv]%Forall_app. unfold rx_queue_next, rx_reg_next. rewrite !Forall_app. split_and!.
  - destruct rdy; [by apply Forall_tail|done].
  - by destruct (rx_room q).
  - destruct (rx_room q); [|done]. destruct HD as [|b D [Hl _] HD]; cbn; [constructor|].
    apply Forall_singleton. by rewrite (proj2 (narrow_widen beyond b Hl)).
Qed.

Lemma rx_cycle s hw q D T fr beyond rdy :
  frame_ok fr → length beyond = MAC_BYTES → U beyond → todo s D T → rx_inv hw q D →
  ∃ hw1 s' tr, rx_negedge false fr beyond hw s = Done hw1 s' tr ∧ todo s' (rx_due q D) T ∧
    rx_taken rdy hw1 = Some <$> (if rdy then take 1 q else []) ∧
    rx_dpi_reg (rx_posedge false rdy hw1) = rx_reg_next beyond (rx_dpi_reg hw) q D ∧
    rx_inv (rx_posedge false rdy hw1) (rx_queue_next rdy (rx_dpi_reg hw) q) (rx_due q D).
Proof.
  intros Hfr Hbl HU Hs [Hq Hbeats Hup Hsame]. pose proof (uppers_next beyond rdy _ q D HU Hbeats Hup) as Hup'.
  unfold rx_negedge, rx_due, rx_reg_next, rx_room in *.
  rewrite (bsg_ready _ _ Hq), andb_true_r. case_bool_decide as Hlen.
  - destruct (poll_todo fr s D T Hfr Hs) as (s' & tr & -> & Htr & Hs').
    eexists _, s', tr. split; [reflexivity|].
    rewrite apply_drives_visible, Htr, (apply_driven beyond D _ Hbl Hbeats).
    split; [done|]. split; [exact (rx_taken_head (RxSide _ _ _) _ _ Hq)|]. split; [done|].
    split; [exact (rx_posedge_queue (RxSide _ _ _) _ _ Hq)|by apply Forall_tail|exact Hup'|done].
  - exists hw, s, []. split; [done|]. split; [done|]. split; [by apply rx_taken_head|].
    assert (E : rx_dpi_reg (rx_posedge false rdy hw) = rx_dpi_reg hw) by (apply Hsame; lia).
    split; [exact E|]. split; [by apply rx_posedge_queue|done|by rewrite E|done].
Qed.

(** Nothing is lost and nothing made up. *)
Lemma rx_conserved beyond v q D (rdy : bool) :
  beats_ok D →
  (narrow <$> (if rdy then take 1 q else [])) ++
    ((narrow <$> rx_queue_next rdy v q) ++ (narrow <$> registered (rx_reg_next beyond v q D)) ++ rx_due q D)
  = (narrow <$> q) ++ (narrow <$> registered v) ++ D.
Proof.
  intros HD. unfold rx_queue_next, rx_reg_next, rx_due. rewrite fmap_app. destruct (rx_room q); rewrite <- ?app_assoc.
  - assert ((narrow <$> registered (polled beyond D)) ++ tail D = D) as ->.
    { destruct HD as [|b D [Hl _] HD]; [done|]. cbn. by rewrite (proj1 (narrow_widen beyond b Hl)). }
    by destruct rdy, q.
  - by destruct rdy, q.
Qed.

(** [settled 0]: the queue and the registers are empty only when nothing is
    due.  After a reset this takes two cycles. *)
Definition settled (n : nat) (v : rx_vars) (q : list queue_entry) (D : list beat) : Prop :=
  match n with
  | 0%nat => (rx_val v = false → D = []) ∧ (q = [] → rx_val v = false)
  | 1%nat => q = [] ∧ (rx_val v = false → D = [])
  | _ => q = [] ∧ rx_val v = false
  end.

Lemma settled_next beyond n v q D (rdy : bool) : (n ≤ 2)%nat → settled n v q D →
  settled (pred n) (rx_reg_next beyond v q D) (rx_queue_next rdy v q) (rx_due q D).
Proof.
  intros Hn Hs. unfold rx_reg_next, rx_queue_next, rx_due, registered.
  destruct n as [|[|[|n]]]; [| | |lia]; cbn [settled pred] in *.
  - destruct Hs as [H1 H2]. unfold rx_room. case_bool_decide as Hlen.
    + split; [by destruct D|]. intros E. apply app_eq_nil in E as [_ E].
      destruct (rx_val v); [done|]. by rewrite H1.
    + split; [done|]. destruct q as [|b [|b' q]]; cbn in Hlen; [lia..|]. by destruct rdy.
  - destruct Hs as [-> H1]. destruct rdy; cbn; (split; [by destruct D|]).
    all: intros E; destruct (rx_val v); [done|]; by rewrite H1.
  - destruct Hs as [-> ->]. destruct rdy; cbn; (split; [done|by destruct D]).
Qed.

(** The send half of a cycle: the line in the queue goes to [put_data], and the
    line the engine offers is taken. *)
Lemma tx_cycle s f q D T :
  bsg_holds f q → (length q ≤ 1)%nat → todo s D ((narrow <$> q) ++ T) → T ≠ [] →
  ∃ s' tr, tx_negedge f s = Done tt s' tr ∧ todo s' D T.
Proof.
  intros Hf Hlen Hs HT. unfold tx_negedge. rewrite (bsg_valid _ _ Hf).
  destruct q as [|b [|b' q]]; cbn in Hlen; [|clear Hlen|lia].
  - rewrite bool_decide_false by tauto. by exists s, [].
  - rewrite bool_decide_true, (bsg_head _ _ b Hf) by done.
    destruct (put_todo s D (narrow b) T Hs HT) as (s' & tr & Hput & _ & Hs'). exists s', tr.
    split; [|done]. unfold mbind, M_bind. cbn. by rewrite put_data_narrow, Hput.
Qed.

Lemma tx_posedge_queue f q e :
  bsg_holds f q → (length q ≤ 1)%nat → bsg_holds (tx_posedge false e f) (option_list e).
Proof.
  intros Hf Hlen. unfold tx_posedge.
  set (i := match e with Some e => _ | None => _ end).
  assert (yumi_i i = v_o f) as Hy by (by destruct e).
  pose proof (bsg_cycle _ _ i Hf) as Hn. rewrite Hy, (bsg_valid _ _ Hf), (bsg_ready _ _ Hf) in Hn.
  rewrite (bool_decide_true (length q < 32)%nat), andb_true_r in Hn by lia.
  assert ((if v_i i then [data_i i] else []) = option_list e) as E by (by destruct e).
  rewrite E in Hn. destruct q as [|b [|b' q]]; cbn in Hlen; [|clear Hlen|lia].
  - apply Hn. by rewrite bool_decide_eq_true.
  - rewrite bool_decide_true in Hn by done. by apply Hn.
Qed.

(** Between two cycles of the whole module. *)
Record driver_inv s (d : sim_network_side_queue F) (q : list queue_entry) (D : list beat) (qt : list queue_entry)
    (T : list beat) : Prop := {
  dr_rx : rx_inv (d_rx d) q D;
  dr_tx : bsg_holds (d_tx d) qt;
  dr_one : (length qt ≤ 1)%nat;
  dr_todo : todo s D ((narrow <$> qt) ++ T) }.

(** The memory of a cycle: the buffers have their sizes. *)
Definition memory_ok (i : driver_in) : Prop := frame_ok (di_stack i) ∧ length (di_beyond i) = MAC_BYTES.

Lemma driver_cycle i s d q D qt T :
  memory_ok i → U (di_beyond i) →
  driver_inv s d q D qt ((narrow <$> option_list (di_engine_mac_tx i)) ++ T) → T ≠ [] →
  let rdy := di_engine_mac_rx_rdy i in
  let v := rx_dpi_reg (d_rx d) in
  ∃ d1 s' tr, driver_negedge false i d s = Done d1 s' tr ∧
    rx_taken rdy (d_rx d1) = Some <$> (if rdy then take 1 q else []) ∧
    rx_dpi_reg (d_rx (driver_posedge false i d1)) = rx_reg_next (di_beyond i) v q D ∧
    driver_inv s' (driver_posedge false i d1) (rx_queue_next rdy v q) (rx_due q D)
      (option_list (di_engine_mac_tx i)) T.
Proof.
  intros [Hfr Hbl] HU [Hrx Htx Hone Hs] HT. cbn zeta.
  assert ((narrow <$> option_list (di_engine_mac_tx i)) ++ T ≠ []) as HT'.
  { intros E. by apply app_eq_nil in E as [_ E]. }
  assert (length (option_list (di_engine_mac_tx i)) ≤ 1)%nat as Hone'.
  { by destruct (di_engine_mac_tx i); cbn; lia. }
  pose proof (tx_posedge_queue _ _ (di_engine_mac_tx i) Htx Hone) as Htx'.
  unfold driver_negedge. destruct (di_rx_first i).
  - destruct (rx_cycle _ _ _ _ _ _ _ (di_engine_mac_rx_rdy i) Hfr Hbl HU Hs Hrx)
      as (hw1 & s1 & tr1 & E1 & Hs1 & Ht & Hreg & Hrx1).
    destruct (tx_cycle _ _ _ _ _ Htx Hone Hs1 HT') as (s2 & tr2 & E2 & Hs2).
    rewrite (bind_done _ _ _ _ _ _ E1), (bind_done _ _ _ _ _ _ E2).
    eexists (Driver hw1 (d_tx d)), s2, _. split; [reflexivity|].
    split; [done|]. split; [done|]. by split.
  - destruct (tx_cycle _ _ _ _ _ Htx Hone Hs HT') as (s1 & tr1 & E1 & Hs1).
    destruct (rx_cycle _ _ _ _ _ _ _ (di_engine_mac_rx_rdy i) Hfr Hbl HU Hs1 Hrx)
      as (hw1 & s2 & tr2 & E2 & Hs2 & Ht & Hreg & Hrx1).
    rewrite (bind_done _ _ _ _ _ _ E1), (bind_done _ _ _ _ _ _ E2).
    eexists (Driver hw1 (d_tx d)), s2, _. split; [reflexivity|].
    split; [done|]. split; [done|]. by split.
Qed.

(** The lines the engine offers, and the cycles in which it takes a line if
    there is one. *)
Definition offered (ins : list driver_in) : list queue_entry :=
  ins ≫= λ i, option_list (di_engine_mac_tx i).
Definition ready_cycles (ins : list driver_in) : nat :=
  length (filter (λ i, di_engine_mac_rx_rdy i = true) ins).
Definition memories_ok (ins : list driver_in) : Prop := Forall memory_ok ins.

Lemma ready_cycles_cons i ins :
  ready_cycles (i :: ins)
  = ((if di_engine_mac_rx_rdy i then 1 else 0) + ready_cycles ins)%nat.
Proof. unfold ready_cycles. rewrite filter_cons. by destruct (di_engine_mac_rx_rdy i). Qed.

(** The lines of a run: the halves the C++ gave are a prefix of what is in the
    module and due, at least one line for each ready cycle after the module has
    settled. *)
Lemma driver_run_lines ins n s d q D qt T :
  memories_ok ins → Forall (λ i, U (di_beyond i)) ins →
  driver_inv s d q D qt ((narrow <$> offered ins) ++ T) → T ≠ [] →
  (n ≤ 2)%nat → settled n (rx_dpi_reg (d_rx d)) q D →
  let due := (narrow <$> q) ++ (narrow <$> registered (rx_dpi_reg (d_rx d))) ++ D in
  ∃ l d' s' tr q' D' qt', driver_run ins d s = Done (Some <$> l, d') s' tr ∧
    driver_inv s' d' q' D' qt' T ∧ uppers l ∧
    (narrow <$> l) ++ (narrow <$> q') ++ (narrow <$> registered (rx_dpi_reg (d_rx d'))) ++ D' = due ∧
    (ready_cycles (drop n ins) `min` length due ≤ length l)%nat.
Proof.
  cbn zeta. intros Hfr HU Hinv HT. revert n s d q D qt Hinv.
  induction Hfr as [|i ins Hi Hfr IH]; intros n s d q D qt Hinv Hn Hset.
  { exists [], d, s, [], q, D, qt. rewrite drop_nil.
    split; [done|]. split; [done|]. split; [constructor|]. split; [done|]. cbn. lia. }
  apply Forall_cons in HU as [HUi HU]. specialize (IH HU).
  change (offered (i :: ins)) with (option_list (di_engine_mac_tx i) ++ offered ins) in Hinv.
  rewrite fmap_app, <- app_assoc in Hinv.
  destruct (driver_cycle i s d q D qt ((narrow <$> offered ins) ++ T) Hi HUi Hinv)
    as (d1 & s1 & tr1 & E1 & Ht & Hreg & Hinv1).
  { intros E. by apply app_eq_nil in E as [_ E]. }
  pose proof (settled_next (di_beyond i) _ _ _ _ (di_engine_mac_rx_rdy i) Hn Hset) as Hset'. rewrite <- Hreg in Hset'.
  destruct (IH (pred n) _ _ _ _ _ Hinv1 ltac:(lia) Hset')
    as (l & d' & s' & tr & q' & D' & qt' & E2 & Hinv' & Hup & Hcons & Hlen).
  rewrite Hreg in Hcons, Hlen. destruct (dr_rx _ _ _ _ _ _ Hinv) as [_ Hbeats Hupq _].
  pose proof (rx_conserved (di_beyond i) (rx_dpi_reg (d_rx d)) q D (di_engine_mac_rx_rdy i) Hbeats) as Hsame.
  eexists ((if di_engine_mac_rx_rdy i then take 1 q else []) ++ l), d', s', _, q', D', qt'.
  split.
  { cbn [driver_run]. rewrite (bind_done _ _ _ _ _ _ E1), (bind_done _ _ _ _ _ _ E2), Ht, fmap_app.
    reflexivity. }
  split; [done|]. split.
  { apply Forall_app. split; [|done]. apply Forall_app in Hupq as [Hupq _].
    destruct (di_engine_mac_rx_rdy i); [by apply Forall_take|constructor]. }
  rewrite fmap_app, <- app_assoc, Hcons. split; [done|].
  apply (f_equal length) in Hsame. repeat rewrite ?length_app, ?length_fmap in Hsame.
  rewrite !length_app, !length_fmap in Hlen. repeat rewrite ?length_app, ?length_fmap.
  destruct n as [|n]; cbn [pred drop] in *; [rewrite drop_0 in Hlen|lia].
  rewrite ready_cycles_cons. destruct (di_engine_mac_rx_rdy i); [|cbn [length] in Hsame |- *; lia].
  destruct q as [|b q]; [|cbn [length take] in Hsame |- *; lia].
  destruct Hset as [HD Hv]. specialize (Hv eq_refl). specialize (HD Hv).
  subst D. unfold registered at 1. rewrite Hv. cbn. lia.
Qed.

Lemma reset_driver_inv s i d D T :
  beats_ok D → todo s D T → driver_inv s (driver_posedge true i d) [] D [] T.
Proof.
  intros HD Hs. split; [split|apply bsg_reset|cbn; lia|done].
  - apply bsg_reset.
  - done.
  - constructor.
  - cbn. lia.
Qed.
End Cycles.

Section Session.
Context {F : Type} `{BsgFifo queue_entry F 32} `{ReplayBackend B}.
Implicit Types (s : net B).

End Session.

(** ** A concrete queue and run *)

#[export] Program Instance list_fifo : BsgFifo beat (list beat) 32 := {
  ready_o f := bool_decide (length f < 32)%nat;
  v_o f := bool_decide (f ≠ []);
  data_o f := head f;
  bsg_next rst i f :=
    if rst then []
    else (if yumi_i i then tail f else f) ++
         (if v_i i && bool_decide (length f < 32)%nat then [data_i i] else []);
  bsg_holds f q := f = q }.
Solve Obligations with naive_solver.

(** What is behind the buffer; what the engine has there. *)
Definition sample_beyond : list byte := replicate 32 Byte.x7e.
Definition engine_line (b : beat) : queue_entry := widen (replicate 32 Byte.xaa) b.

Definition sample_driver : sim_network_side_queue (list beat) :=
  Driver (RxSide zero_vars (RxVars true (engine_line out_beat1)) [engine_line out_beat2])
    [engine_line out_beat1; engine_line out_beat1].

(** Six cycles: the engine stalls in the third, and offers a line in the second. *)
Definition sample_cycle (rx_first rdy : bool) (e : option beat) : driver_in :=
  DriverIn sample_frame sample_beyond rx_first rdy (engine_line <$> e).
Definition sample_cycles : list driver_in :=
  [sample_cycle true true None; sample_cycle false true (Some out_beat1); sample_cycle true false None;
   sample_cycle false true None; sample_cycle true true None; sample_cycle true true None].


(** The run itself: the two lines of the packet, in the fourth and fifth cycles. *)
Example sample_cycles_run :
  match driver_run sample_cycles (driver_posedge true (sample_cycle true true None) sample_driver)
          (sample_net [sample_in] [sample_out]) with
  | Done (l, _) _ _ => l = Some <$> (widen sample_beyond <$> ([sample_in] ≫= beats))
  | Stopped _ _ => False
  end.
Proof. vm_compute. reflexivity. Qed.
