(* ===== verification/Rtl.v ===== *)
(** Rtl: synchronous modules of the SystemVerilog, and the memory their queues
    share, common/ram/ram_1r1w_sync_backpressure.sv over BaseJump's
    bsg_mem_1r1w_sync.

    A module is its registers, its outputs from registers and inputs, and the
    registers after the clock edge.  ['X] is [None]; the registers of a module
    that was never reset are arbitrary. *)

From S2P Require Import Prelude.

(** ** Synchronous modules *)

Record circuit (S I O : Type) := Circuit {
  c_out : S → I → O;
  c_next : bool → I → S → S }.
Arguments Circuit {S I O} _ _.
Arguments c_out {S I O} _ _ _.
Arguments c_next {S I O} _ _ _ _.

(** The cycles of a run out of reset. *)
Fixpoint outputs {S I O} (c : circuit S I O) (ins : list I) (s : S) : list O :=
  match ins with
  | [] => []
  | i :: ins' => c_out c s i :: outputs c ins' (c_next c false i s)
  end.

Definition after_cycles {S I O} (c : circuit S I O) (ins : list I) (s : S) : S :=
  fold_left (λ s i, c_next c false i s) ins s.

(** A specification of a module: a state, the inputs it may be given, what it
    may show, and how the state changes. *)
Record spec (Q I O : Type) := Spec {
  sp_legal : Q → I → Prop;
  sp_shows : Q → I → O → Prop;
  sp_next : I → Q → Q }.
Arguments Spec {Q I O} _ _ _.
Arguments sp_legal {Q I O} _ _ _.
Arguments sp_shows {Q I O} _ _ _ _.
Arguments sp_next {Q I O} _ _ _.

Section Simulation.
Context {S Q I O : Type} (c : circuit S I O) (sp : spec Q I O).

Definition simulates (R : S → Q → Prop) : Prop := ∀ s q i,
  R s q → sp_legal sp q i → sp_shows sp q i (c_out c s i) ∧ R (c_next c false i s) (sp_next sp i q).

Fixpoint legal_run (q : Q) (ins : list I) : Prop :=
  match ins with
  | [] => True
  | i :: ins' => sp_legal sp q i ∧ legal_run (sp_next sp i q) ins'
  end.

Fixpoint shows_run (q : Q) (ins : list I) (os : list O) : Prop :=
  match ins, os with
  | [], [] => True
  | i :: ins', o :: os' => sp_shows sp q i o ∧ shows_run (sp_next sp i q) ins' os'
  | _, _ => False
  end.

Definition spec_after (q : Q) (ins : list I) : Q := fold_left (λ q i, sp_next sp i q) ins q.

(** Cycle by cycle, the module shows what its specification says. *)
Lemma simulates_run R s q ins :
  simulates R → R s q → legal_run q ins →
  shows_run q ins (outputs c ins s) ∧ R (after_cycles c ins s) (spec_after q ins).
Proof.
  intros Hsim. revert s q. induction ins as [|i ins IH]; intros s q HR Hl; [done|].
  destruct Hl as [Hi Hl]. destruct (Hsim s q i HR Hi) as [Ho HR'].
  destruct (IH _ _ HR' Hl) as [Hs HR'']. cbn. by repeat split.
Qed.
End Simulation.

(** ** Lists a run makes, cycle by cycle

    [l ins] is what a run over [ins] has made so far; what it makes in the cycle
    of an input fits that cycle. *)
Section Dated.
Context {I B : Type} (l : list I → list B) (P : list I → I → B → Prop).

Definition dated (ins : list I) : Prop :=
  l [] = [] ∧ ∀ before i later, ins = before ++ i :: later →
    ∃ new, l (before ++ [i]) = l before ++ new ∧ Forall (P before i) new.

Lemma dated_nil : l [] = [] → dated [].
Proof. intros H. split; [done|]. by intros [|k before] i later. Qed.

Lemma dated_snoc ins i new : dated ins → l (ins ++ [i]) = l ins ++ new → Forall (P ins i) new → dated (ins ++ [i]).
Proof.
  intros [H0 H] El Hn. split; [done|]. intros before j later E.
  destruct later as [|k later _] using rev_ind.
  - apply app_inj_tail in E as [<- <-]. by exists new.
  - rewrite app_comm_cons, app_assoc in E. apply app_inj_tail in E as [-> _]. by apply (H before j later).
Qed.

(** Everything in the list is of some cycle. *)
Lemma dated_elem ins b : dated ins → b ∈ l ins → ∃ before i later, ins = before ++ i :: later ∧ P before i b.
Proof.
  intros [H0 H]. induction ins as [|i ins IH] using rev_ind; [by rewrite H0; intros ?%not_elem_of_nil|].
  destruct (H ins i [] eq_refl) as (new & -> & Hn). intros [Hb|Hb]%elem_of_app.
  - destruct IH as (before & j & later & -> & Hj); [|done|].
    + intros before j later ->. apply (H before j (later ++ [i])). by rewrite <- app_assoc.
    + exists before, j, (later ++ [i]). by rewrite <- app_assoc.
  - exists ins, i, []. split; [done|]. by rewrite Forall_forall in Hn; apply Hn.
Qed.
End Dated.

(** ** basejump_files/bsg_mem/bsg_mem_1r1w_sync_synth.sv

    The read address is latched, ['X] when no read is asked for; the memory is
    read at it after the edge, so after the write. *)

Section Ram.
Context {A : Type}.

Record bsg_mem := BsgMem {
  bm_mem : list A;
  r_addr_r : option Z }.

Definition r_data_o (m : bsg_mem) : option A :=
  a ← r_addr_r m; bm_mem m !! Z.to_nat a.

Definition bsg_mem_next (w_v_i : bool) (w_addr_i : Z) (w_data_i : A) (r_v_i : bool) (r_addr_i : Z)
    (m : bsg_mem) : bsg_mem :=
  BsgMem (if w_v_i then <[Z.to_nat w_addr_i := w_data_i]> (bm_mem m) else bm_mem m)
         (if r_v_i then Some r_addr_i else None).

(** ** common/ram/ram_1r1w_sync_backpressure.sv *)

Record ram := Ram {
  mem_wr_req_val_reg : bool;
  mem_wr_req_addr_reg : Z;
  mem_wr_req_data_reg : A;
  mem_rd_req_val_reg : bool;
  mem_rd_req_addr_reg : Z;
  tcp_data_mem : bsg_mem }.

Record ram_in := RamIn {
  ri_wr_req_val : bool;
  ri_wr_req_addr : Z;
  ri_wr_req_data : A;
  ri_rd_req_val : bool;
  ri_rd_req_addr : Z;
  ri_rd_resp_rdy : bool }.

Definition wr_req_rdy : bool := true.
Definition rd_resp_val (r : ram) : bool := mem_rd_req_val_reg r.
Definition rd_req_rdy (r : ram) (i : ram_in) : bool := ri_rd_resp_rdy i || negb (rd_resp_val r).

(** The response, with the bypass of a write in the same cycle. *)
Definition rd_resp_data (r : ram) : option A :=
  if mem_wr_req_val_reg r && mem_rd_req_val_reg r &&
     (mem_wr_req_addr_reg r =? mem_rd_req_addr_reg r)
  then Some (mem_wr_req_data_reg r)
  else r_data_o (tcp_data_mem r).

(** The read the memory is given: the one in the registers while the
    response is refused. *)
Definition mem_rd_req_val (r : ram) (i : ram_in) : bool :=
  if rd_resp_val r && negb (ri_rd_resp_rdy i) then mem_rd_req_val_reg r else ri_rd_req_val i.
Definition mem_rd_req_addr (r : ram) (i : ram_in) : Z :=
  if rd_resp_val r && negb (ri_rd_resp_rdy i) then mem_rd_req_addr_reg r else ri_rd_req_addr i.

(** [zero] is ['0] in the width of the data. *)
Definition ram_next (zero : A) (rst : bool) (i : ram_in) (r : ram) : ram :=
  let mem_wr_req_val := ri_wr_req_val i && wr_req_rdy in
  let mem_rd_req_val_byp :=
    if mem_rd_req_val r i && mem_wr_req_val && (mem_rd_req_addr r i =? ri_wr_req_addr i)
    then false else mem_rd_req_val r i in
  {| mem_wr_req_val_reg := if rst then false else if wr_req_rdy then mem_wr_req_val
                           else mem_wr_req_val_reg r;
     mem_wr_req_addr_reg := if rst then 0 else if wr_req_rdy then ri_wr_req_addr i
                            else mem_wr_req_addr_reg r;
     mem_wr_req_data_reg := if rst then zero else if wr_req_rdy then ri_wr_req_data i
                            else mem_wr_req_data_reg r;
     mem_rd_req_val_reg := if rst then false else if rd_req_rdy r i then mem_rd_req_val r i
                           else mem_rd_req_val_reg r;
     mem_rd_req_addr_reg := if rst then 0 else if rd_req_rdy r i then mem_rd_req_addr r i
                            else mem_rd_req_addr_reg r;
     tcp_data_mem := bsg_mem_next mem_wr_req_val (ri_wr_req_addr i) (ri_wr_req_data i)
                       mem_rd_req_val_byp (mem_rd_req_addr r i) (tcp_data_mem r) |}.

Definition contents (r : ram) : list A := bm_mem (tcp_data_mem r).

Lemma contents_next zero rst i r :
  contents (ram_next zero rst i r) =
  if ri_wr_req_val i then <[Z.to_nat (ri_wr_req_addr i) := ri_wr_req_data i]> (contents r)
  else contents r.
Proof. unfold contents. cbn. by rewrite andb_true_r. Qed.

(** A response is what the memory holds, the write of its cycle included:
    neither the bypass nor a refused response shows. *)
Lemma rd_resp_data_next zero i r :
  (ri_wr_req_val i = true → 0 ≤ ri_wr_req_addr i < Z.of_nat (length (contents r))) →
  let r' := ram_next zero false i r in
  rd_resp_val r' = true → rd_resp_data r' = contents r' !! Z.to_nat (mem_rd_req_addr_reg r').
Proof.
  intros Hw r' Hv. unfold r', rd_resp_data, rd_resp_val, contents in *.
  destruct r as [wv wa wd rv ra m]. destruct i as [iwv iwa iwd irv ira rdy].
  unfold ram_next, rd_req_rdy, mem_rd_req_val, mem_rd_req_addr, rd_resp_val, wr_req_rdy in *.
  cbn -[Z.eqb] in *. rewrite andb_true_r in *.
  assert (Hin : ∀ l : list A, 0 ≤ iwa < Z.of_nat (length l) →
    Some iwd = <[Z.to_nat iwa := iwd]> l !! Z.to_nat iwa)
    by (intros l Hl; rewrite list_lookup_insert_eq by lia; done).
  destruct rdy, rv; cbn -[Z.eqb] in *; subst; cbn -[Z.eqb] in *;
    (destruct iwv; cbn -[Z.eqb];
      [match goal with |- context [iwa =? ?a] => rewrite (Z.eqb_sym a iwa); destruct (Z.eqb_spec iwa a) end|];
      [subst; auto|done|done]).
Qed.

(** *** What it promises: a memory with one read in flight *)

Record ram_out := RamOut { ro_rd_req_rdy : bool; ro_rd_resp_val : bool; ro_rd_resp_data : option A }.

Definition ram_1r1w_sync_backpressure (zero : A) : circuit ram ram_in ram_out :=
  Circuit (λ r i, RamOut (rd_req_rdy r i) (rd_resp_val r) (rd_resp_data r)) (ram_next zero).

(** The contents, and the address of the read that waits for its consumer. *)
Record ram_view := RamView { rv_mem : list A; rv_read : option Z }.

Definition in_range (l : list A) (a : Z) : Prop := 0 ≤ a < Z.of_nat (length l).
Definition view_rdy (q : ram_view) (i : ram_in) : bool :=
  ri_rd_resp_rdy i || bool_decide (rv_read q = None).

Definition ram_spec : spec ram_view ram_in ram_out := {|
  sp_legal q i :=
    (ri_wr_req_val i = true → in_range (rv_mem q) (ri_wr_req_addr i)) ∧
    (ri_rd_req_val i = true → in_range (rv_mem q) (ri_rd_req_addr i));
  sp_shows q i o :=
    ro_rd_req_rdy o = view_rdy q i ∧ ro_rd_resp_val o = bool_decide (is_Some (rv_read q)) ∧
    ∀ a, rv_read q = Some a → ∃ d, rv_mem q !! Z.to_nat a = Some d ∧ ro_rd_resp_data o = Some d;
  sp_next i q :=
    {| rv_mem := if ri_wr_req_val i
                 then <[Z.to_nat (ri_wr_req_addr i) := ri_wr_req_data i]> (rv_mem q) else rv_mem q;
       rv_read := if view_rdy q i
                  then if ri_rd_req_val i then Some (ri_rd_req_addr i) else None
                  else rv_read q |} |}.

Definition ram_rel (r : ram) (q : ram_view) : Prop :=
  contents r = rv_mem q ∧ rd_resp_val r = bool_decide (is_Some (rv_read q)) ∧
  ∀ a, rv_read q = Some a → mem_rd_req_addr_reg r = a ∧ in_range (rv_mem q) a ∧
       rd_resp_data r = rv_mem q !! Z.to_nat a.

Lemma in_range_lookup (l : list A) a : in_range l a → ∃ d, l !! Z.to_nat a = Some d.
Proof. intros H. apply lookup_lt_is_Some_2. unfold in_range in H. lia. Qed.

Lemma in_range_insert (l : list A) i d a : in_range l a → in_range (<[i := d]> l) a.
Proof. unfold in_range. by rewrite length_insert. Qed.

Lemma rdy_no_stall r i :
  rd_req_rdy r i = true → rd_resp_val r && negb (ri_rd_resp_rdy i) = false.
Proof. unfold rd_req_rdy. by destruct (rd_resp_val r), (ri_rd_resp_rdy i). Qed.

Lemma ram_simulates zero : simulates (ram_1r1w_sync_backpressure zero) ram_spec ram_rel.
Proof.
  intros r q i (Hc & Hv & Hd) [Hw Hr]. cbn in *.
  assert (Hrdy : rd_req_rdy r i = view_rdy q i)
    by (unfold rd_req_rdy, view_rdy; rewrite Hv; by destruct (rv_read q)).
  split.
  - split; [done|]. split; [done|]. intros a Ha. destruct (Hd a Ha) as (_ & Hin & ->).
    destruct (in_range_lookup _ _ Hin) as [d E]. eauto.
  - assert (Hw' : ri_wr_req_val i = true → 0 ≤ ri_wr_req_addr i < Z.of_nat (length (contents r)))
      by (by rewrite Hc).
    pose proof (rd_resp_data_next zero i r Hw') as Hdata. cbn zeta in Hdata.
    pose proof (contents_next zero false i r) as Hc'. rewrite Hc in Hc'.
    set (r' := ram_next zero false i r) in *.
    assert (Hreg : ∀ a, rv_read (sp_next ram_spec i q) = Some a →
      rd_resp_val r' = true ∧ mem_rd_req_addr_reg r' = a ∧ in_range (rv_mem q) a).
    { intros a. cbn. unfold r', rd_resp_val. cbn. rewrite Hrdy. destruct (view_rdy q i) eqn:E.
      - unfold mem_rd_req_val, mem_rd_req_addr.
        rewrite (rdy_no_stall r i Hrdy).
        destruct (ri_rd_req_val i); [|done]. intros [= <-]. auto.
      - intros Ha. destruct (Hd a Ha) as (H1 & H2 & _). unfold rd_resp_val in Hv. rewrite Hv, Ha.
        split; [done|by split]. }
    split; [exact Hc'|]. split.
    + cbn. unfold r', rd_resp_val. cbn. rewrite Hrdy. destruct (view_rdy q i) eqn:E; [|exact Hv].
      unfold mem_rd_req_val.
      rewrite (rdy_no_stall r i Hrdy).
      by destruct (ri_rd_req_val i).
    + intros a Ha. destruct (Hreg a Ha) as (H1 & H2 & H3). split; [done|].
      rewrite (Hdata H1), H2, Hc'. cbn. split; [|done].
      destruct (ri_wr_req_val i); [by apply in_range_insert|done].
Qed.

Lemma ram_reset_rel zero i r :
  ram_rel (ram_next zero true i r) (RamView (contents (ram_next zero true i r)) None).
Proof. by split_and!. Qed.

(** The memory behind the queues answers a read with the last value
    written at its address, a write in the same cycle and the writes while the
    answer waits for its consumer included, although the read port is switched
    off whenever both ports have the same address: from a reset on and whatever
    the registers held, each cycle shows what a memory with one read in flight
    shows, and a waiting answer holds back the next read. *)
Theorem ram_reads_last_write zero i0 (r : ram) ins :
  let r0 := ram_next zero true i0 r in
  let v0 := RamView (contents r0) None in
  legal_run ram_spec v0 ins →
  shows_run ram_spec v0 ins (outputs (ram_1r1w_sync_backpressure zero) ins r0).
Proof.
  intros r0 v0 Hl.
  exact (proj1 (simulates_run _ _ _ _ _ _ (ram_simulates zero) (ram_reset_rel zero i0 r) Hl)).
Qed.
End Ram.
Arguments bsg_mem A : clear implicits.
Arguments ram A : clear implicits.
Arguments ram_in A : clear implicits.
Arguments ram_out A : clear implicits.
Arguments ram_view A : clear implicits.

(** ** A concrete run: a read that meets a write, waits, and sees two more *)

Definition junk_ram (l : list Z) : ram Z :=
  {| mem_wr_req_val_reg := true; mem_wr_req_addr_reg := 1; mem_wr_req_data_reg := 7;
     mem_rd_req_val_reg := true; mem_rd_req_addr_reg := 0; tcp_data_mem := BsgMem l (Some 1) |}.

Definition sample_accesses : list (ram_in Z) :=
  [RamIn true 1 5 true 1 false; RamIn true 0 6 true 0 false; RamIn true 1 8 true 0 false;
   RamIn false 0 0 true 0 true; RamIn false 0 0 false 0 true].

Lemma ram_reads_last_write_witness :
  let r0 := ram_next 0 true (RamIn true 0 3 true 0 true) (junk_ram [8; 9]) in
  let v0 := RamView (contents r0) None in
  shows_run ram_spec v0 sample_accesses
    (outputs (ram_1r1w_sync_backpressure 0) sample_accesses r0).
Proof.
  apply (ram_reads_last_write 0 (RamIn true 0 3 true 0 true) (junk_ram [8; 9]) sample_accesses).
  repeat split; vm_compute; intros; done.
Defined.

Example sample_accesses_run :
  ro_rd_resp_data <$> outputs (ram_1r1w_sync_backpressure 0) sample_accesses
                        (ram_next 0 true (RamIn true 0 3 true 0 true) (junk_ram [8; 9]))
  = [None; Some 5; Some 5; Some 8; Some 6].
Proof. vm_compute. reflexivity. Qed.
