(* ===== verification/Fifo.v ===== *)
(** Fifo: common/fifo/fifo_1r1w.sv, the first-in first-out queue of the receive
    and send pipelines: pointers with a wrap bit over the memory of Rtl, its
    head readable in the cycle after it is written. *)

From S2P Require Import Prelude Rtl.

(** ** Pointers with a wrap bit

    A pointer into [2 ^ n] slots has [n + 1] bits. *)

Section Pointers.
Variable n : nat.
Definition slots : Z := 2 ^ Z.of_nat n.
Definition ptr_inc (p : Z) : Z := (p + 1) mod (2 * slots).
Definition ptr_addr (p : Z) : Z := p mod slots.
Definition ptr_wrap (p : Z) : Z := p / slots mod 2.
Definition ptr_ok (p : Z) : Prop := 0 ≤ p < 2 * slots.

(** How far [b] is ahead of [a]. *)
Definition ahead (a b : Z) : Z := (b - a) mod (2 * slots).

Lemma slots_pos : 0 < slots.
Proof. apply Z.pow_pos_nonneg; lia. Qed.

Lemma ptr_inc_ok p : ptr_ok (ptr_inc p).
Proof. apply Z.mod_pos_bound. pose proof slots_pos. lia. Qed.

Lemma ahead_bound a b : 0 ≤ ahead a b < 2 * slots.
Proof. apply Z.mod_pos_bound. pose proof slots_pos. lia. Qed.

Lemma ahead_refl a : ahead a a = 0.
Proof. unfold ahead. by rewrite Z.sub_diag, Z.mod_0_l by (pose proof slots_pos; lia). Qed.

Lemma ahead_inc_r a b : ahead a b < 2 * slots - 1 → ahead a (ptr_inc b) = ahead a b + 1.
Proof.
  pose proof slots_pos. pose proof (ahead_bound a b). unfold ahead, ptr_inc in *. intros Hl.
  rewrite Zminus_mod_idemp_l. replace (b + 1 - a) with (b - a + 1) by lia.
  rewrite <- Zplus_mod_idemp_l. rewrite Z.mod_small; lia.
Qed.

Lemma ahead_inc_l a b : 0 < ahead a b → ahead (ptr_inc a) b = ahead a b - 1.
Proof.
  pose proof slots_pos. pose proof (ahead_bound a b). unfold ahead, ptr_inc in *. intros Hl.
  rewrite Zminus_mod_idemp_r. replace (b - (a + 1)) with (b - a - 1) by lia.
  rewrite <- Zminus_mod_idemp_l. rewrite Z.mod_small; lia.
Qed.

(** The slot [k] places after a pointer. *)
Definition slot (p k : Z) : Z := ptr_addr (p + k).

Lemma slot_range p k : 0 ≤ slot p k < slots.
Proof. apply Z.mod_pos_bound, slots_pos. Qed.

Lemma mod_slots p : p mod (2 * slots) mod slots = p mod slots.
Proof.
  pose proof slots_pos. rewrite Z.mul_comm, Z.rem_mul_r by lia.
  by rewrite Z.mul_comm, Z_mod_plus_full, Z.mod_mod by lia.
Qed.

Lemma slot_inc p k : slot (ptr_inc p) k = slot p (k + 1).
Proof.
  unfold slot, ptr_addr, ptr_inc. rewrite <- Zplus_mod_idemp_l, mod_slots, Zplus_mod_idemp_l.
  f_equal. lia.
Qed.

Lemma slot_ahead a b : slot a (ahead a b) = ptr_addr b.
Proof.
  unfold slot, ptr_addr, ahead. rewrite <- Zplus_mod_idemp_r, mod_slots, Zplus_mod_idemp_r.
  f_equal. lia.
Qed.

Lemma slot_inj p i j : 0 ≤ i < slots → 0 ≤ j < slots → slot p i = slot p j → i = j.
Proof.
  pose proof slots_pos. intros Hi Hj E. unfold slot, ptr_addr in E.
  assert ((p + i - (p + j)) mod slots = 0) as E'
    by (rewrite Zminus_mod, E, Z.sub_diag; by apply Z.mod_0_l; lia).
  replace (p + i - (p + j)) with (i - j) in E' by lia.
  destruct (Z.lt_trichotomy i j) as [?|[?|?]]; [|done|].
  - assert ((i - j) mod slots = i - j + slots) as E2
      by (symmetry; apply (Z.mod_unique_pos _ _ (-1)); lia). lia.
  - rewrite Z.mod_small in E'; lia.
Qed.

(** The flags of the code. *)
Lemma same_ptr_iff a b :
  ptr_ok a → ptr_ok b → (ptr_addr a = ptr_addr b ∧ ptr_wrap a = ptr_wrap b ↔ ahead a b = 0).
Proof.
  pose proof slots_pos as Hs. unfold ptr_ok, ptr_addr, ptr_wrap, ahead. intros Ha Hb.
  rewrite !(Z.mod_small (_ / slots) 2)
    by (split; [apply Z.div_pos; lia|apply Z.div_lt_upper_bound; lia]).
  pose proof (Z.div_mod a slots) as Da. pose proof (Z.div_mod b slots) as Db.
  split.
  - intros [E1 E2]. replace b with a by (rewrite Da, Db, E1, E2; lia).
    rewrite Z.sub_diag. apply Z.mod_0_l. lia.
  - intros E. assert (a = b) as ->; [|done].
    destruct (Z.lt_trichotomy a b) as [?|[?|?]]; [|done|].
    + rewrite Z.mod_small in E; lia.
    + assert ((b - a) mod (2 * slots) = b - a + 2 * slots) as E2
        by (symmetry; apply (Z.mod_unique_pos _ _ (-1)); lia). lia.
Qed.

Lemma full_ptr_iff a b :
  ptr_ok a → ptr_ok b → (ptr_addr a = ptr_addr b ∧ ptr_wrap a ≠ ptr_wrap b ↔ ahead a b = slots).
Proof.
  pose proof slots_pos as Hs. unfold ptr_ok, ptr_addr, ptr_wrap, ahead. intros Ha Hb.
  assert (Hda : 0 ≤ a / slots < 2)
    by (split; [apply Z.div_pos; lia|apply Z.div_lt_upper_bound; lia]).
  assert (Hdb : 0 ≤ b / slots < 2)
    by (split; [apply Z.div_pos; lia|apply Z.div_lt_upper_bound; lia]).
  rewrite !(Z.mod_small (_ / slots) 2) by lia.
  pose proof (Z.div_mod a slots ltac:(lia)) as Da. pose proof (Z.div_mod b slots ltac:(lia)) as Db.
  pose proof (Z.mod_pos_bound a slots Hs) as Ma. pose proof (Z.mod_pos_bound b slots Hs) as Mb.
  split.
  - intros [E1 E2]. assert (b - a = slots ∨ b - a = - slots) as [->| ->].
    { assert (b - a = slots * (b / slots - a / slots)) as -> by lia.
      assert (b / slots - a / slots = 1 ∨ b / slots - a / slots = -1) as [-> | ->]; lia. }
    + apply Z.mod_small. lia.
    + symmetry. apply (Z.mod_unique_pos _ _ (-1)); lia.
  - intros E. assert (b - a = slots ∨ b - a = - slots) as Hba.
    { destruct (Z_lt_ge_dec (b - a) 0).
      - assert ((b - a) mod (2 * slots) = b - a + 2 * slots) as E2
          by (symmetry; apply (Z.mod_unique_pos _ _ (-1)); lia). lia.
      - rewrite Z.mod_small in E by lia. lia. }
    assert (a mod slots = b mod slots) as E1.
    { destruct Hba as [Hba|Hba].
      - replace b with (a + 1 * slots) by lia. by rewrite Z_mod_plus_full.
      - replace a with (b + 1 * slots) by lia. by rewrite Z_mod_plus_full. }
    split; [done|]. intros E2. destruct Hba; lia.
Qed.
End Pointers.

(** ** The module *)

Section Fifo.
Context {A : Type} (zero : A) (log2_els_p : nat).
Local Abbreviation els_p := (slots log2_els_p).

Record fifo := FifoRegs {
  wr_ptr_reg : Z;
  rd_ptr_reg : Z;
  fifo_mem : ram A }.

Record fifo_in := FifoIn { rd_req : bool; wr_req : bool; wr_data : A }.
Record fifo_out := FifoOut { rd_data : option A; empty : bool; full : bool }.

Definition fifo_empty (s : fifo) : bool :=
  (ptr_addr log2_els_p (rd_ptr_reg s) =? ptr_addr log2_els_p (wr_ptr_reg s)) &&
  (ptr_wrap log2_els_p (rd_ptr_reg s) =? ptr_wrap log2_els_p (wr_ptr_reg s)).
Definition fifo_full (s : fifo) : bool :=
  (ptr_addr log2_els_p (rd_ptr_reg s) =? ptr_addr log2_els_p (wr_ptr_reg s)) &&
  negb (ptr_wrap log2_els_p (rd_ptr_reg s) =? ptr_wrap log2_els_p (wr_ptr_reg s)).

Definition wr_ptr_next (i : fifo_in) (s : fifo) : Z :=
  if wr_req i then ptr_inc log2_els_p (wr_ptr_reg s) else wr_ptr_reg s.
Definition rd_ptr_next (i : fifo_in) (s : fifo) : Z :=
  if rd_req i then ptr_inc log2_els_p (rd_ptr_reg s) else rd_ptr_reg s.

(** What the memory is asked for: the write, and a read at the next head. *)
Definition fifo_mem_in (i : fifo_in) (s : fifo) : ram_in A :=
  {| ri_wr_req_val := wr_req i; ri_wr_req_addr := ptr_addr log2_els_p (wr_ptr_reg s);
     ri_wr_req_data := wr_data i; ri_rd_req_val := true;
     ri_rd_req_addr := ptr_addr log2_els_p (rd_ptr_next i s); ri_rd_resp_rdy := true |}.

Definition fifo_1r1w : circuit fifo fifo_in fifo_out := Circuit
  (λ s _, FifoOut (rd_resp_data (fifo_mem s)) (fifo_empty s) (fifo_full s))
  (λ rst i s,
     {| wr_ptr_reg := if rst then 0 else wr_ptr_next i s;
        rd_ptr_reg := if rst then 0 else rd_ptr_next i s;
        fifo_mem := ram_next zero rst (fifo_mem_in i s) (fifo_mem s) |}).

(** ** The queue it is *)

Definition queue_next (i : fifo_in) (q : list A) : list A :=
  (if rd_req i then tail q else q) ++ (if wr_req i then [wr_data i] else []).

(** A read needs an element; a write needs room, or a read in the same cycle. *)
Definition queue_spec : spec (list A) fifo_in fifo_out := {|
  sp_legal q i := (rd_req i = true → q ≠ []) ∧
                  (wr_req i = true → Z.of_nat (length q) < els_p ∨ rd_req i = true);
  sp_shows q i o :=
    empty o = bool_decide (q = []) ∧ full o = bool_decide (Z.of_nat (length q) = els_p) ∧
    ∀ d, head q = Some d → rd_data o = Some d;
  sp_next := queue_next |}.

(** The slots from the head on hold the queue. *)
Definition holds_at (mem : list A) (p : Z) (q : list A) : Prop :=
  ∀ (k : nat) d, q !! k = Some d → mem !! Z.to_nat (slot log2_els_p p (Z.of_nat k)) = Some d.

Record fifo_rel (s : fifo) (q : list A) : Prop := {
  fr_wr : ptr_ok log2_els_p (wr_ptr_reg s);
  fr_rd : ptr_ok log2_els_p (rd_ptr_reg s);
  fr_len : ahead log2_els_p (rd_ptr_reg s) (wr_ptr_reg s) = Z.of_nat (length q);
  fr_cap : Z.of_nat (length q) ≤ els_p;
  fr_mem : Z.of_nat (length (contents (fifo_mem s))) = els_p;
  fr_holds : holds_at (contents (fifo_mem s)) (rd_ptr_reg s) q;
  fr_head d : head q = Some d → rd_resp_data (fifo_mem s) = Some d }.

Lemma holds_at_tail mem p q : holds_at mem p q → holds_at mem (ptr_inc log2_els_p p) (tail q).
Proof.
  intros H k d Hk. rewrite slot_inc. replace (Z.of_nat k + 1) with (Z.of_nat (S k)) by lia.
  apply H. by destruct q.
Qed.

(** Writing after the last element. *)
Lemma holds_at_write mem p q d a :
  holds_at mem p q → Z.of_nat (length q) < els_p → Z.of_nat (length mem) = els_p →
  a = slot log2_els_p p (Z.of_nat (length q)) →
  holds_at (<[Z.to_nat a := d]> mem) p (q ++ [d]).
Proof.
  intros H Hq Hm -> k x Hk.
  pose proof (slot_range log2_els_p p (Z.of_nat (length q))) as Hr.
  pose proof (slot_range log2_els_p p (Z.of_nat k)) as Hr'.
  destruct (decide (k = length q)) as [->|Hne].
  - rewrite list_lookup_insert_eq by lia. rewrite lookup_app_r, Nat.sub_diag in Hk by lia. done.
  - assert (k < length q)%nat as Hlt.
    { apply lookup_lt_Some in Hk. rewrite length_app in Hk. simpl in Hk. lia. }
    rewrite lookup_app_l in Hk by lia. rewrite list_lookup_insert_ne; [by apply H|].
    intros E. apply Z2Nat.inj in E; [|lia..]. apply slot_inj in E; lia.
Qed.

(** The flags say how long the queue is. *)
Lemma fifo_flags s q :
  fifo_rel s q →
  fifo_empty s = bool_decide (q = []) ∧ fifo_full s = bool_decide (Z.of_nat (length q) = els_p).
Proof.
  intros [Hw Hr Hl _ _ _ _]. unfold fifo_empty, fifo_full.
  pose proof (same_ptr_iff _ _ _ Hr Hw) as H1. pose proof (full_ptr_iff _ _ _ Hr Hw) as H2.
  rewrite Hl in H1, H2. split.
  - apply eq_true_iff_eq. rewrite andb_true_iff, !Z.eqb_eq, H1, bool_decide_eq_true.
    rewrite <- length_zero_iff_nil. lia.
  - apply eq_true_iff_eq. rewrite andb_true_iff, negb_true_iff, Z.eqb_eq, Z.eqb_neq, H2.
    by rewrite bool_decide_eq_true.
Qed.

(** The memory after a cycle, once the read has left. *)
Lemma fifo_mem_next s q i :
  fifo_rel s q → sp_legal queue_spec q i →
  Z.of_nat (length (contents (fifo_mem (c_next fifo_1r1w false i s)))) = els_p ∧
  holds_at (contents (fifo_mem (c_next fifo_1r1w false i s))) (rd_ptr_next i s) (queue_next i q).
Proof.
  intros [Hw Hr Hl Hc Hm Hh _] [Hrd Hwr]. cbn [c_next fifo_1r1w fifo_mem].
  rewrite contents_next. cbn [ri_wr_req_val ri_wr_req_addr ri_wr_req_data fifo_mem_in].
  set (q1 := if rd_req i then tail q else q).
  assert (holds_at (contents (fifo_mem s)) (rd_ptr_next i s) q1) as Hh1
    by (unfold rd_ptr_next, q1; destruct (rd_req i); [by apply holds_at_tail|done]).
  unfold queue_next. fold q1. destruct (wr_req i); [|by rewrite app_nil_r].
  split; [by rewrite length_insert|]. pose proof (slots_pos log2_els_p).
  assert (ahead log2_els_p (rd_ptr_next i s) (wr_ptr_reg s) = Z.of_nat (length q1)) as Hl1.
  { unfold rd_ptr_next, q1. destruct (rd_req i); [|done].
    destruct q as [|x q]; [by specialize (Hrd eq_refl)|]. simpl in *. rewrite ahead_inc_l by lia. lia. }
  apply holds_at_write; [done| |done|].
  - unfold q1 in *. destruct (rd_req i); [|by destruct (Hwr eq_refl)].
    destruct q; [by specialize (Hrd eq_refl)|]. simpl in *. lia.
  - rewrite <- Hl1. by rewrite slot_ahead.
Qed.

Lemma queue_next_length i q :
  sp_legal queue_spec q i →
  Z.of_nat (length (queue_next i q)) =
  Z.of_nat (length q) - (if rd_req i then 1 else 0) + (if wr_req i then 1 else 0).
Proof.
  intros [Hrd _]. unfold queue_next. rewrite length_app.
  destruct (rd_req i), (wr_req i); (destruct q; [try by specialize (Hrd eq_refl)|]); simpl; lia.
Qed.

Lemma fifo_simulates : simulates fifo_1r1w queue_spec fifo_rel.
Proof.
  intros s q i HR Hl. destruct (fifo_flags s q HR) as [He Hf].
  pose proof (fifo_mem_next s q i HR Hl) as [Hm' Hh'].
  pose proof (queue_next_length i q Hl) as Hlen. destruct HR as [Hw Hr Hlq Hc Hm Hh Hd].
  split; [done|]. pose proof Hl as [Hrd Hwr]. pose proof (slots_pos log2_els_p).
  assert (Z.of_nat (length (queue_next i q)) ≤ els_p) as Hc'.
  { rewrite Hlen. destruct (rd_req i), (wr_req i); lia. }
  split; cbn [c_next fifo_1r1w wr_ptr_reg rd_ptr_reg fifo_mem sp_next queue_spec].
  - unfold wr_ptr_next. destruct (wr_req i); [apply ptr_inc_ok|done].
  - unfold rd_ptr_next. destruct (rd_req i); [apply ptr_inc_ok|done].
  - rewrite Hlen. unfold rd_ptr_next, wr_ptr_next.
    assert (rd_req i = true → 0 < Z.of_nat (length q)).
    { intros E. specialize (Hrd E). destruct q; [done|simpl; lia]. }
    destruct (rd_req i) eqn:E1, (wr_req i) eqn:E2.
    + rewrite ahead_inc_r; rewrite ahead_inc_l by lia; lia.
    + rewrite ahead_inc_l by lia; lia.
    + rewrite ahead_inc_r; [lia|]. destruct (Hwr eq_refl); [lia|done].
    + lia.
  - exact Hc'.
  - exact Hm'.
  - exact Hh'.
  - intros d Hq. rewrite rd_resp_data_next.
    + change (mem_rd_req_addr_reg (ram_next zero false (fifo_mem_in i s) (fifo_mem s)))
        with (if rd_req_rdy (fifo_mem s) (fifo_mem_in i s)
              then mem_rd_req_addr (fifo_mem s) (fifo_mem_in i s)
              else mem_rd_req_addr_reg (fifo_mem s)).
      unfold rd_req_rdy, mem_rd_req_addr. cbn [ri_rd_resp_rdy fifo_mem_in orb negb].
      rewrite andb_false_r. cbn [ri_rd_req_addr].
      destruct (queue_next i q) as [|x q'] eqn:Eq; [done|]. injection Hq as ->.
      specialize (Hh' 0%nat d eq_refl). unfold slot in Hh'. by rewrite Z.add_0_r in Hh'.
    + intros _. cbn. rewrite Hm. apply Z.mod_pos_bound. lia.
    + unfold rd_resp_val. cbn. unfold rd_req_rdy, mem_rd_req_val. cbn. by rewrite andb_false_r.
Qed.

(** Whatever the registers hold, a cycle of reset empties the queue. *)
Lemma fifo_reset s i :
  Z.of_nat (length (contents (fifo_mem s))) = els_p → fifo_rel (c_next fifo_1r1w true i s) [].
Proof.
  intros Hm. pose proof (slots_pos log2_els_p).
  split; cbn [c_next fifo_1r1w wr_ptr_reg rd_ptr_reg fifo_mem length].
  - unfold ptr_ok. lia.
  - unfold ptr_ok. lia.
  - apply ahead_refl.
  - lia.
  - rewrite contents_next. cbn [ri_wr_req_val fifo_mem_in].
    destruct (wr_req i); by rewrite ?length_insert.
  - intros k d Hk. by rewrite lookup_nil in Hk.
  - done.
Qed.
End Fifo.

(** ** First in, first out *)

Section Order.
Context {A : Type} (zero : A) (log2_els_p : nat).

Definition writes (ins : list (fifo_in (A:=A))) : list A :=
  ins ≫= λ i, if wr_req i then [wr_data i] else [].
Fixpoint reads (ins : list (fifo_in (A:=A))) (os : list (fifo_out (A:=A))) : list (option A) :=
  match ins, os with
  | i :: ins', o :: os' => (if rd_req i then [rd_data o] else []) ++ reads ins' os'
  | _, _ => []
  end.

Lemma reads_writes q ins os :
  legal_run (queue_spec log2_els_p) q ins → shows_run (queue_spec log2_els_p) q ins os →
  reads ins os ++ (Some <$> spec_after (queue_spec log2_els_p) q ins) = Some <$> q ++ writes ins.
Proof.
  revert q os. induction ins as [|i ins IH]; intros q [|o os] Hl Ho; try done.
  { cbn. by rewrite app_nil_r. }
  destruct Hl as [[Hr _] Hl], Ho as [(_ & _ & Hd) Ho]. specialize (IH _ _ Hl Ho).
  cbn [reads writes spec_after fold_left mbind list_bind]. rewrite <- app_assoc.
  change (fold_left _ ins _) with (spec_after (queue_spec log2_els_p) (queue_next i q) ins).
  cbn [sp_next queue_spec] in IH. rewrite IH. unfold queue_next, writes.
  destruct (rd_req i); [|by rewrite <- app_assoc].
  destruct q as [|x q]; [by specialize (Hr eq_refl)|]. rewrite (Hd x eq_refl).
  cbn. by rewrite <- app_assoc.
Qed.

(** The queue is first in, first out, from any state of its registers on:
    after a cycle of reset, and as long as it is not read when empty nor
    written when full, its flags say how many elements it holds, the element
    it shows is the oldest one, in the cycle after it was written at the
    earliest, and what is read is what was written, in order, nothing lost. *)
Theorem fifo_first_in_first_out s i0 ins :
  Z.of_nat (length (contents (fifo_mem s))) = slots log2_els_p →
  legal_run (queue_spec log2_els_p) [] ins →
  let s0 := c_next (fifo_1r1w zero log2_els_p) true i0 s in
  let os := outputs (fifo_1r1w zero log2_els_p) ins s0 in
  shows_run (queue_spec log2_els_p) [] ins os ∧
  reads ins os ++ (Some <$> spec_after (queue_spec log2_els_p) [] ins) = Some <$> writes ins.
Proof.
  intros Hm Hl s0 os. pose proof (fifo_reset zero log2_els_p s i0 Hm) as H0.
  destruct (simulates_run _ _ _ _ _ ins (fifo_simulates zero log2_els_p) H0 Hl) as [Hs _].
  split; [exact Hs|]. by apply (reads_writes [] ins os).
Qed.
End Order.

Arguments fifo A : clear implicits.
Arguments fifo_in A : clear implicits.
Arguments fifo_out A : clear implicits.

(** ** A concrete run, of a queue of two that wraps around *)

Definition junk_fifo : fifo Z :=
  {| wr_ptr_reg := 3; rd_ptr_reg := 2; fifo_mem := junk_ram [8; 9] |}.
Definition sample_cycles : list (fifo_in Z) :=
  [FifoIn false true 10; FifoIn false true 11; FifoIn true true 12; FifoIn true true 13;
   FifoIn true false 0; FifoIn true false 0].

Lemma sample_cycles_legal : legal_run (queue_spec 1) [] sample_cycles.
Proof. repeat split; vm_compute; intros; try done; auto. Defined.

Lemma fifo_first_in_first_out_witness :
  let s0 := c_next (fifo_1r1w 0 1) true (FifoIn true true 5) junk_fifo in
  let os := outputs (fifo_1r1w 0 1) sample_cycles s0 in
  shows_run (queue_spec 1) [] sample_cycles os ∧
  reads sample_cycles os ++ (Some <$> spec_after (queue_spec 1) [] sample_cycles)
  = Some <$> [10; 11; 12; 13].
Proof.
  apply (fifo_first_in_first_out 0 1 junk_fifo (FifoIn true true 5) sample_cycles).
  - reflexivity.
  - exact sample_cycles_legal.
Defined.
