(* ===== verification/Fifo2w.v ===== *)
(** Fifo2w: common/fifo/fifo_2w.v, the queue of the scheduler: it takes two
    elements in a cycle, shows an element in the cycle in which it is written,
    and holds one element less than it has places. *)

From S2P Require Import Prelude Rtl Fifo.

Section Fifo2w.
Context {A : Type} (ELEM_NONE : A) (n : nat).

Definition FIFO_DEPTH : Z := slots n.
Definition CNT_WIDTH : Z := Z.of_nat n + 1.

Record fifo2 := Fifo2 {
  f2_fifo : list A;
  head_ptr : Z;
  tail_ptr : Z;
  used_cnt : Z;
  f2_empty : bool;
  f2_full : bool }.

Record fifo2_in := Fifo2In { w_val_0 : bool; w_data_0 : A; w_val_1 : bool; w_data_1 : A; r_val : bool }.
Record fifo2_out := Fifo2Out { r_data : option A; data_avail : bool; o2_full : bool }.

(** The writes that are done: the first of the two, and the second. *)
Definition srtd_w_val_0 (i : fifo2_in) (s : fifo2) : bool :=
  (w_val_0 i || w_val_1 i) && (used_cnt s <? FIFO_DEPTH - 1).
Definition srtd_w_val_1 (i : fifo2_in) (s : fifo2) : bool :=
  (w_val_0 i && w_val_1 i) && (used_cnt s <? FIFO_DEPTH - 2).
Definition srtd_w_data_0 (i : fifo2_in) : A := if w_val_0 i then w_data_0 i else w_data_1 i.
Definition srtd_w_data_1 (i : fifo2_in) : A := w_data_1 i.
Definition added_cnt (i : fifo2_in) (s : fifo2) : Z :=
  if srtd_w_val_1 i s then 2 else if srtd_w_val_0 i s then 1 else 0.

Definition ptr_add (p k : Z) : Z := (p + k) mod FIFO_DEPTH.

Definition used_cnt_next (i : fifo2_in) (s : fifo2) : Z :=
  let tmp := (used_cnt s + added_cnt i s) mod 2 ^ (CNT_WIDTH + 1) in
  if (tmp =? 0) && r_val i then 0 else (tmp - Z.b2z (r_val i)) mod 2 ^ (CNT_WIDTH + 1).

Definition f2_r_data (i : fifo2_in) (s : fifo2) : option A :=
  if f2_empty s && srtd_w_val_0 i s then Some (srtd_w_data_0 i)
  else if f2_empty s && negb (srtd_w_val_0 i s) then Some ELEM_NONE
  else f2_fifo s !! Z.to_nat (head_ptr s).

Definition f2_data_avail (i : fifo2_in) (s : fifo2) : bool :=
  (f2_empty s && srtd_w_val_0 i s) || negb (f2_empty s).

(** Every place takes the first element if it is the tail's, else the second
    if it is the one after. *)
Definition fifo_gen (i : fifo2_in) (s : fifo2) : list A :=
  let second := if srtd_w_val_1 i s then <[Z.to_nat (ptr_add (tail_ptr s) 1) := srtd_w_data_1 i]> (f2_fifo s)
                else f2_fifo s in
  if srtd_w_val_0 i s then <[Z.to_nat (tail_ptr s) := srtd_w_data_0 i]> second else second.

Definition fifo2_next (rst : bool) (i : fifo2_in) (s : fifo2) : fifo2 :=
  let used := used_cnt_next i s in
  if rst then Fifo2 (replicate (Z.to_nat FIFO_DEPTH) ELEM_NONE) 0 0 0 true false
  else
  {| f2_fifo := fifo_gen i s;
     head_ptr := if (negb (f2_empty s) && r_val i) || (f2_empty s && srtd_w_val_0 i s && r_val i)
                 then ptr_add (head_ptr s) 1 else head_ptr s;
     tail_ptr := if f2_full s then tail_ptr s else ptr_add (tail_ptr s) (added_cnt i s);
     used_cnt := if FIFO_DEPTH - 1 <=? used then FIFO_DEPTH - 1 else used;
     f2_empty := used =? 0;
     f2_full := FIFO_DEPTH - 1 <=? used |}.

Definition fifo_2w : circuit fifo2 fifo2_in fifo2_out := Circuit
  (λ s i, Fifo2Out (f2_r_data i s) (f2_data_avail i s) (f2_full s)) fifo2_next.

(** ** The queue it is *)

Definition offered (i : fifo2_in) : list A :=
  (if w_val_0 i then [w_data_0 i] else []) ++ (if w_val_1 i then [w_data_1 i] else []).

(** What there is to read in a cycle: what was there and what is written while
    there is room. *)
Definition readable (i : fifo2_in) (q : list A) : list A :=
  q ++ take (Z.to_nat (FIFO_DEPTH - 1) - length q) (offered i).

Definition fifo2_spec : spec (list A) fifo2_in fifo2_out := {|
  sp_legal q i := True;
  sp_shows q i o :=
    data_avail o = bool_decide (readable i q ≠ []) ∧
    (∀ d, head (readable i q) = Some d → r_data o = Some d) ∧
    o2_full o = bool_decide (Z.of_nat (length q) = FIFO_DEPTH - 1);
  sp_next i q := if r_val i then tail (readable i q) else readable i q |}.

Record fifo2_rel (s : fifo2) (q : list A) : Prop := {
  f2_head : 0 ≤ head_ptr s < FIFO_DEPTH;
  f2_tail : tail_ptr s = slot n (head_ptr s) (Z.of_nat (length q));
  f2_used : used_cnt s = Z.of_nat (length q);
  f2_cap : Z.of_nat (length q) ≤ FIFO_DEPTH - 1;
  f2_is_empty : f2_empty s = bool_decide (q = []);
  f2_is_full : f2_full s = bool_decide (Z.of_nat (length q) = FIFO_DEPTH - 1);
  f2_mem : Z.of_nat (length (f2_fifo s)) = FIFO_DEPTH;
  f2_holds : holds_at n (f2_fifo s) (head_ptr s) q }.

Hypothesis Hn : (2 ≤ n)%nat.

Lemma FIFO_DEPTH_pos : 4 ≤ FIFO_DEPTH.
Proof.
  unfold FIFO_DEPTH, slots. change 4 with (2 ^ 2). apply Z.pow_le_mono_r; lia.
Qed.

Definition taken (i : fifo2_in) (s : fifo2) : list A :=
  (if srtd_w_val_0 i s then [srtd_w_data_0 i] else []) ++ (if srtd_w_val_1 i s then [srtd_w_data_1 i] else []).

Lemma readable_taken i s q : fifo2_rel s q → readable i q = q ++ taken i s.
Proof.
  intros [_ _ Hu Hc _ _ _ _]. unfold readable, taken, offered, srtd_w_val_0, srtd_w_val_1, srtd_w_data_0, srtd_w_data_1.
  rewrite Hu. pose proof FIFO_DEPTH_pos. f_equal.
  destruct (Z.ltb_spec (Z.of_nat (length q)) (FIFO_DEPTH - 1)), (Z.ltb_spec (Z.of_nat (length q)) (FIFO_DEPTH - 2)); try lia.
  - replace (Z.to_nat (FIFO_DEPTH - 1) - length q)%nat with (S (S (Z.to_nat (FIFO_DEPTH - 1) - length q - 2))) by lia.
    destruct (w_val_0 i), (w_val_1 i); cbn; by rewrite ?take_nil.
  - replace (Z.to_nat (FIFO_DEPTH - 1) - length q)%nat with 1%nat by lia.
    by destruct (w_val_0 i), (w_val_1 i).
  - replace (Z.to_nat (FIFO_DEPTH - 1) - length q)%nat with 0%nat by lia. cbn.
    by destruct (w_val_0 i), (w_val_1 i).
Qed.

Lemma taken_length i s : Z.of_nat (length (taken i s)) = added_cnt i s.
Proof.
  unfold taken, added_cnt. destruct (srtd_w_val_1 i s) eqn:E1, (srtd_w_val_0 i s) eqn:E0; try done.
  unfold srtd_w_val_0, srtd_w_val_1 in *. destruct (w_val_0 i), (w_val_1 i); try done. cbn [andb orb] in *.
  apply Z.ltb_lt in E1. apply Z.ltb_ge in E0. lia.
Qed.

Lemma taken_room i s q : fifo2_rel s q → Z.of_nat (length q) + added_cnt i s ≤ FIFO_DEPTH - 1.
Proof.
  intros [_ _ Hu Hc _ _ _ _]. unfold added_cnt, srtd_w_val_1, srtd_w_val_0. rewrite Hu.
  destruct (Z.ltb_spec (Z.of_nat (length q)) (FIFO_DEPTH - 2)), (Z.ltb_spec (Z.of_nat (length q)) (FIFO_DEPTH - 1)),
    (w_val_0 i), (w_val_1 i); cbn; lia.
Qed.

Lemma ptr_add_slot p k j : ptr_add (slot n p k) j = slot n p (k + j).
Proof. unfold ptr_add, slot, ptr_addr, FIFO_DEPTH. rewrite Zplus_mod_idemp_l. f_equal. lia. Qed.

Lemma slot_ptr_add p k : slot n (ptr_add p 1) k = slot n p (k + 1).
Proof. unfold ptr_add, slot, ptr_addr, FIFO_DEPTH. rewrite Zplus_mod_idemp_l. f_equal. lia. Qed.

(** The places after the writes. *)
Lemma fifo_gen_holds i s q :
  fifo2_rel s q → Z.of_nat (length (fifo_gen i s)) = FIFO_DEPTH ∧ holds_at n (fifo_gen i s) (head_ptr s) (q ++ taken i s).
Proof.
  intros Hr. pose proof (taken_length i s) as Hl. pose proof (taken_room i s q Hr) as Hroom.
  destruct Hr as [_ Ht _ _ _ _ Hm Hh]. unfold fifo_gen, taken, added_cnt in *. rewrite Ht in *.
  destruct (srtd_w_val_1 i s) eqn:E1, (srtd_w_val_0 i s) eqn:E0; cbn [app length] in *; try lia;
    rewrite ?length_insert, ?app_nil_r; (split; [done|]).
  - rewrite list_insert_insert_ne.
    + rewrite (app_assoc q [_] [_] : q ++ [srtd_w_data_0 i; srtd_w_data_1 i] = _).
      apply holds_at_write; rewrite ?length_insert, ?length_app; cbn [length]; try (unfold FIFO_DEPTH in *; lia).
      * apply holds_at_write; try done. unfold FIFO_DEPTH in *. lia.
      * rewrite ptr_add_slot. f_equal. lia.
    + rewrite ptr_add_slot. intros E. pose proof (slot_range n (head_ptr s) (Z.of_nat (length q))).
      pose proof (slot_range n (head_ptr s) (Z.of_nat (length q) + 1)). apply Z2Nat.inj in E; [|lia..].
      apply slot_inj in E; unfold FIFO_DEPTH in *; lia.
  - apply holds_at_write; try done. unfold FIFO_DEPTH in *. lia.
  - done.
Qed.

Lemma fifo2_reads i s q :
  fifo2_rel s q →
  f2_data_avail i s = bool_decide (readable i q ≠ []) ∧
  (∀ d, head (readable i q) = Some d → f2_r_data i s = Some d).
Proof.
  intros Hr. rewrite (readable_taken i s q Hr). destruct Hr as [Hp _ _ _ He _ Hm Hh].
  unfold f2_data_avail, f2_r_data, taken. rewrite He. destruct q as [|d q]; cbn.
  - destruct (srtd_w_val_0 i s) eqn:E0; [by split; [|intros ? [= <-]]|]. cbn.
    unfold srtd_w_val_0, srtd_w_val_1 in *.
    destruct (w_val_0 i), (w_val_1 i); cbn [andb orb app] in *; try done.
    destruct (Z.ltb_spec (used_cnt s) (FIFO_DEPTH - 2)); [|done].
    destruct (Z.ltb_spec (used_cnt s) (FIFO_DEPTH - 1)); [done|lia].
  - split; [done|]. intros ? [= <-]. specialize (Hh 0%nat d eq_refl). change (Z.of_nat 0) with 0 in Hh.
    assert (slot n (head_ptr s) 0 = head_ptr s) as E
      by (unfold slot, ptr_addr; rewrite Z.add_0_r; apply Z.mod_small; exact Hp).
    by rewrite E in Hh.
Qed.

Lemma fifo2_used i s q :
  fifo2_rel s q →
  used_cnt_next i s = Z.of_nat (length (if r_val i then tail (readable i q) else readable i q)).
Proof.
  intros Hr. rewrite (readable_taken i s q Hr). pose proof (taken_length i s) as Hl.
  pose proof (taken_room i s q Hr) as Hroom. destruct Hr as [_ _ Hu Hc _ _ _ _]. unfold used_cnt_next. rewrite Hu.
  assert (Hpow : 2 ^ (CNT_WIDTH + 1) = 4 * FIFO_DEPTH).
  { unfold CNT_WIDTH, FIFO_DEPTH, slots. replace (Z.of_nat n + 1 + 1) with (2 + Z.of_nat n) by lia.
    by rewrite Z.pow_add_r by lia. }
  pose proof FIFO_DEPTH_pos. rewrite Hpow.
  rewrite (Z.mod_small (_ + _)) by lia. set (l := q ++ taken i s).
  assert (Z.of_nat (length q) + added_cnt i s = Z.of_nat (length l)) as El by (unfold l; rewrite length_app; lia).
  rewrite El in *. destruct (r_val i); cbn [Z.b2z].
  - destruct l as [|x l]; [done|]. cbn [length tail] in *.
    destruct (Z.eqb_spec (Z.of_nat (S (length l))) 0); [lia|]. cbn [andb]. rewrite Z.mod_small; lia.
  - rewrite andb_false_r. rewrite Z.mod_small; lia.
Qed.

Lemma fifo2_simulates : simulates fifo_2w fifo2_spec fifo2_rel.
Proof.
  intros s q i Hr _. destruct (fifo2_reads i s q Hr) as [Ha Hd]. split.
  { split_and!; [exact Ha|exact Hd|exact (f2_is_full _ _ Hr)]. }
  pose proof (fifo2_used i s q Hr) as Hu. pose proof (readable_taken i s q Hr) as Hrt.
  pose proof (taken_room i s q Hr) as Hroom. pose proof (taken_length i s) as Hl.
  destruct (fifo_gen_holds i s q Hr) as [Hm Hh]. rewrite <- Hrt in Hh.
  assert (Hlen : Z.of_nat (length (readable i q)) = Z.of_nat (length q) + added_cnt i s) by (rewrite Hrt, length_app; lia).
  set (q' := sp_next fifo2_spec i q). change (used_cnt_next i s = Z.of_nat (length q')) in Hu.
  pose proof FIFO_DEPTH_pos.
  assert (Hcap : Z.of_nat (length q') ≤ FIFO_DEPTH - 1).
  { unfold q'. cbn. destruct (r_val i); [destruct (readable i q)|]; cbn [tail length] in *; lia. }
  assert (Hhead : head_ptr (fifo2_next false i s) =
    if r_val i && bool_decide (readable i q ≠ []) then ptr_add (head_ptr s) 1 else head_ptr s).
  { cbn. rewrite <- Ha. unfold f2_data_avail. by destruct (f2_empty s), (srtd_w_val_0 i s), (r_val i). }
  pose proof (f2_head _ _ Hr) as Hp.
  assert (Htail : (if f2_full s then tail_ptr s else ptr_add (tail_ptr s) (added_cnt i s)) =
    slot n (head_ptr s) (Z.of_nat (length (readable i q)))).
  { rewrite (f2_tail _ _ Hr), Hlen. rewrite (f2_is_full _ _ Hr).
    destruct (bool_decide_reflect (Z.of_nat (length q) = FIFO_DEPTH - 1)); [|rewrite ptr_add_slot]; f_equal; lia. }
  split.
  - change (c_next fifo_2w false i s) with (fifo2_next false i s). rewrite Hhead.
    destruct (_ && _); [|done]. apply Z.mod_pos_bound. lia.
  - change (c_next fifo_2w false i s) with (fifo2_next false i s). rewrite Hhead. cbn [tail_ptr fifo2_next]. rewrite Htail.
    unfold q'. cbn [sp_next fifo2_spec]. destruct (r_val i); cbn [andb]; [|done].
    destruct (readable i q) as [|x l]; [done|]. rewrite bool_decide_eq_true_2 by done. rewrite slot_ptr_add.
    f_equal. cbn [length tail]. lia.
  - cbn [c_next fifo_2w fifo2_next used_cnt]. rewrite Hu. destruct (Z.leb_spec (FIFO_DEPTH - 1) (Z.of_nat (length q'))); lia.
  - exact Hcap.
  - cbn [c_next fifo_2w fifo2_next f2_empty]. rewrite Hu. destruct q'; [done|]. cbn [length].
    rewrite bool_decide_eq_false_2 by done. apply Z.eqb_neq. lia.
  - cbn [c_next fifo_2w fifo2_next f2_full]. rewrite Hu.
    destruct (bool_decide_reflect (Z.of_nat (length q') = FIFO_DEPTH - 1)); [apply Z.leb_le|apply Z.leb_gt]; lia.
  - exact Hm.
  - change (c_next fifo_2w false i s) with (fifo2_next false i s). rewrite Hhead. cbn [f2_fifo fifo2_next].
    unfold q'. cbn [sp_next fifo2_spec]. destruct (r_val i); cbn [andb]; [|done].
    destruct (readable i q) as [|x l]; [done|]. rewrite bool_decide_eq_true_2 by done. cbn [tail].
    intros k d Hk. rewrite slot_ptr_add. replace (Z.of_nat k + 1) with (Z.of_nat (S k)) by lia. by apply Hh.
Qed.

Lemma fifo2_reset i s : fifo2_rel (fifo2_next true i s) [].
Proof.
  pose proof FIFO_DEPTH_pos. split; cbn; try done.
  - lia.
  - lia.
  - symmetry. apply bool_decide_eq_false. lia.
  - rewrite length_replicate. lia.
Qed.
End Fifo2w.
Arguments fifo2 A : clear implicits.
Arguments fifo2_in A : clear implicits.
Arguments fifo2_out A : clear implicits.
