(* ===== verification/SlabAlloc.v ===== *)
(** SlabAlloc: common/mem_allocator/slab_alloc_tracker.sv, the allocator of the
    receive buffer: a counter hands out the slabs for the first time, a queue
    of freed slabs hands them out again. *)

From S2P Require Import Prelude Rtl Fifo.

(** [BSG_SAFE_CLOG2] of basejump_files/include/bsg_defines.v. *)
Definition BSG_SAFE_CLOG2 (x : Z) : nat := if x =? 1 then 1 else Z.to_nat (Z.log2_up x).

Lemma BSG_SAFE_CLOG2_spec x : 0 < x → x ≤ slots (BSG_SAFE_CLOG2 x).
Proof.
  intros Hx. unfold BSG_SAFE_CLOG2, slots. destruct (Z.eqb_spec x 1) as [->|Hne]; [done|].
  rewrite Z2Nat.id by apply Z.log2_up_nonneg. apply Z.log2_up_spec. lia.
Qed.

Section Slabs.
Variables NUM_SLABS SLAB_BYTES : Z.

Definition SLAB_NUM_W : nat := BSG_SAFE_CLOG2 NUM_SLABS.
Definition SLAB_BYTES_W : nat := BSG_SAFE_CLOG2 SLAB_BYTES.
Definition ADDR_W : nat := SLAB_NUM_W + SLAB_BYTES_W.
Definition LAST_SLAB_ADDR : Z := (NUM_SLABS - 1) * SLAB_BYTES.

Record slab_alloc := SlabAlloc {
  use_fifo_reg : bool;
  init_slab_addr_reg : Z;
  freed_slab_fifo : fifo Z }.

Record slab_in := SlabIn {
  src_free_slab_req_val : bool;
  src_free_slab_req_addr : Z;
  src_alloc_slab_consume_val : bool }.

Record slab_out := SlabOut {
  free_slab_src_req_rdy : bool;
  alloc_slab_src_resp_error : bool;
  alloc_slab_src_resp_addr : option Z }.

Definition slab_fifo_in (i : slab_in) (s : slab_alloc) : fifo_in Z :=
  {| rd_req := if use_fifo_reg s
               then src_alloc_slab_consume_val i && negb (fifo_empty SLAB_NUM_W (freed_slab_fifo s))
               else false;
     wr_req := src_free_slab_req_val i && negb (fifo_full SLAB_NUM_W (freed_slab_fifo s));
     wr_data := src_free_slab_req_addr i |}.

Definition slab_alloc_tracker : circuit slab_alloc slab_in slab_out := Circuit
  (λ s _,
     {| free_slab_src_req_rdy := negb (fifo_full SLAB_NUM_W (freed_slab_fifo s));
        alloc_slab_src_resp_error :=
          if use_fifo_reg s then fifo_empty SLAB_NUM_W (freed_slab_fifo s) else false;
        alloc_slab_src_resp_addr :=
          if use_fifo_reg s then rd_resp_data (fifo_mem (freed_slab_fifo s))
          else Some (init_slab_addr_reg s) |})
  (λ rst i s,
     let from_counter := negb (use_fifo_reg s) && src_alloc_slab_consume_val i in
     {| use_fifo_reg := if rst then false
                        else if from_counter then init_slab_addr_reg s =? LAST_SLAB_ADDR
                        else use_fifo_reg s;
        init_slab_addr_reg := if rst then 0
                              else if from_counter
                              then (init_slab_addr_reg s + SLAB_BYTES) mod 2 ^ Z.of_nat ADDR_W
                              else init_slab_addr_reg s;
        freed_slab_fifo := c_next (fifo_1r1w 0 SLAB_NUM_W) rst (slab_fifo_in i s) (freed_slab_fifo s) |}).

(** ** The pool: the slabs that can be handed out, in the order they will be *)

Definition slabs_from (k : nat) : list Z :=
  (λ j, Z.of_nat j * SLAB_BYTES) <$> seq k (Z.to_nat NUM_SLABS - k).
Definition all_slabs : list Z := slabs_from 0.

Definition pool_next (i : slab_in) (pool : list Z) : list Z :=
  (if src_alloc_slab_consume_val i then tail pool else pool) ++
  (if src_free_slab_req_val i then [src_free_slab_req_addr i] else []).

(** Only a slab that was handed out is freed. *)
Definition pool_spec : spec (list Z) slab_in slab_out := {|
  sp_legal pool i := src_free_slab_req_val i = true →
    src_free_slab_req_addr i ∈ all_slabs ∧ src_free_slab_req_addr i ∉ pool;
  sp_shows pool i o :=
    alloc_slab_src_resp_error o = bool_decide (pool = []) ∧
    (∀ a, head pool = Some a → alloc_slab_src_resp_addr o = Some a) ∧
    (Z.of_nat (length pool) < NUM_SLABS → free_slab_src_req_rdy o = true);
  sp_next := pool_next |}.

Record slab_rel (s : slab_alloc) (pool : list Z) : Prop := {
  sr_nodup : NoDup pool;
  sr_slabs : pool ⊆ all_slabs;
  sr_pool : ∃ freed, fifo_rel SLAB_NUM_W (freed_slab_fifo s) freed ∧
    if use_fifo_reg s then pool = freed
    else ∃ k, (k < Z.to_nat NUM_SLABS)%nat ∧ init_slab_addr_reg s = Z.of_nat k * SLAB_BYTES ∧
              pool = slabs_from k ++ freed }.

Hypotheses (Hnum : 0 < NUM_SLABS) (Hbytes : 0 < SLAB_BYTES).

Lemma slabs_from_unfold k :
  (k < Z.to_nat NUM_SLABS)%nat → slabs_from k = Z.of_nat k * SLAB_BYTES :: slabs_from (S k).
Proof.
  intros Hk. unfold slabs_from.
  replace (Z.to_nat NUM_SLABS - k)%nat with (S (Z.to_nat NUM_SLABS - S k)) by lia. done.
Qed.

Lemma all_slabs_nodup : NoDup all_slabs.
Proof.
  unfold all_slabs, slabs_from. apply NoDup_fmap_2; [|apply NoDup_seq].
  intros x y E. nia.
Qed.

Lemma all_slabs_length : Z.of_nat (length all_slabs) = NUM_SLABS.
Proof. unfold all_slabs, slabs_from. rewrite length_fmap, length_seq. lia. Qed.

Lemma pool_length pool : NoDup pool → pool ⊆ all_slabs → Z.of_nat (length pool) ≤ NUM_SLABS.
Proof.
  intros H1 H2. rewrite <- all_slabs_length.
  pose proof (submseteq_length _ _ (NoDup_submseteq _ _ H1 H2)). lia.
Qed.

(** A slab that is not in the pool: the pool is not all of them. *)
Lemma pool_room pool a :
  NoDup pool → pool ⊆ all_slabs → a ∈ all_slabs → a ∉ pool → Z.of_nat (length pool) < NUM_SLABS.
Proof.
  intros H1 H2 Ha Hn. assert (Z.of_nat (length (a :: pool)) ≤ NUM_SLABS) as H.
  { apply pool_length; [by constructor|]. intros x. rewrite elem_of_cons. intros [->|?]; auto. }
  simpl in H. lia.
Qed.

(** The counter does not wrap before the last slab. *)
Lemma counter_in_width k :
  (S k < Z.to_nat NUM_SLABS)%nat →
  (Z.of_nat k * SLAB_BYTES + SLAB_BYTES) mod 2 ^ Z.of_nat ADDR_W = Z.of_nat (S k) * SLAB_BYTES.
Proof.
  intros Hk. pose proof (BSG_SAFE_CLOG2_spec NUM_SLABS Hnum) as H1.
  pose proof (BSG_SAFE_CLOG2_spec SLAB_BYTES Hbytes) as H2. unfold slots in *.
  rewrite Z.mod_small; [lia|]. unfold ADDR_W, SLAB_NUM_W, SLAB_BYTES_W.
  rewrite Nat2Z.inj_add, Z.pow_add_r by lia. nia.
Qed.

Lemma pool_next_ok pool i :
  NoDup pool → pool ⊆ all_slabs → sp_legal pool_spec pool i →
  NoDup (pool_next i pool) ∧ pool_next i pool ⊆ all_slabs.
Proof.
  intros Hnd Hsub Hl. unfold pool_next.
  assert (Ht : ∀ x, x ∈ (if src_alloc_slab_consume_val i then tail pool else pool) → x ∈ pool)
    by (intros x; destruct (src_alloc_slab_consume_val i); [|done]; destruct pool; [done|by right]).
  assert (NoDup (if src_alloc_slab_consume_val i then tail pool else pool)) as Hnd'.
  { destruct (src_alloc_slab_consume_val i); [|done]. destruct pool; [done|]. by apply NoDup_cons in Hnd as []. }
  destruct (src_free_slab_req_val i) eqn:Ef; [|rewrite app_nil_r; split; [done|intros x Hx; auto]].
  destruct (Hl Ef) as [Ha Hn]. split.
  - apply NoDup_app. split; [done|]. split; [|repeat constructor; by apply not_elem_of_nil].
    intros x Hx Hin. apply list_elem_of_singleton in Hin as ->. by apply Hn, Ht.
  - intros x [Hx|Hx]%elem_of_app; [by apply Hsub, Ht|]. by apply list_elem_of_singleton in Hx as ->.
Qed.

(** The queue is given only what it can take, and every freed slab. *)
Lemma slab_fifo_legal s pool freed i :
  NoDup pool → pool ⊆ all_slabs → fifo_rel SLAB_NUM_W (freed_slab_fifo s) freed →
  (length freed ≤ length pool)%nat → sp_legal pool_spec pool i →
  sp_legal (queue_spec SLAB_NUM_W) freed (slab_fifo_in i s) ∧
  wr_req (slab_fifo_in i s) = src_free_slab_req_val i.
Proof.
  intros Hnd Hsub Hf Hlen Hl. destruct (fifo_flags _ _ _ Hf) as [He Hfull].
  pose proof (fr_cap _ _ _ Hf) as Hcap. cbn [sp_legal queue_spec slab_fifo_in rd_req wr_req].
  rewrite He, Hfull. split; [split|].
  - destruct (use_fifo_reg s); [|done]. rewrite andb_true_iff, negb_true_iff, bool_decide_eq_false. by intros [].
  - rewrite andb_true_iff, negb_true_iff, bool_decide_eq_false. intros [_ Hne]. left. lia.
  - destruct (src_free_slab_req_val i) eqn:E; [|done]. destruct (Hl E) as [Ha Hn].
    pose proof (pool_room pool _ Hnd Hsub Ha Hn). pose proof (BSG_SAFE_CLOG2_spec NUM_SLABS Hnum).
    rewrite bool_decide_eq_false_2; [done|]. unfold SLAB_NUM_W in *. lia.
Qed.

Lemma slab_pool_freed s pool freed :
  (if use_fifo_reg s then pool = freed
   else ∃ k, (k < Z.to_nat NUM_SLABS)%nat ∧ init_slab_addr_reg s = Z.of_nat k * SLAB_BYTES ∧
             pool = slabs_from k ++ freed) →
  (length freed ≤ length pool)%nat.
Proof. destruct (use_fifo_reg s); [by intros ->|]. intros (k & _ & _ & ->). len. Qed.

Lemma slab_shows s pool i :
  slab_rel s pool → sp_shows pool_spec pool i (c_out slab_alloc_tracker s i).
Proof.
  intros [Hnd Hsub (freed & Hf & Hp)]. destruct (fifo_flags _ _ _ Hf) as [He Hfull].
  pose proof (slab_pool_freed _ _ _ Hp) as Hlen. cbn. split; [|split].
  - rewrite He. destruct (use_fifo_reg s); [by rewrite Hp|]. destruct Hp as (k & Hk & _ & ->).
    rewrite slabs_from_unfold by done. by rewrite bool_decide_eq_false_2.
  - intros a Ha. destruct (use_fifo_reg s).
    + subst. by apply (fr_head _ _ _ Hf).
    + destruct Hp as (k & Hk & -> & ->). rewrite slabs_from_unfold in Ha by done. by injection Ha as <-.
  - intros Hroom. rewrite Hfull. pose proof (BSG_SAFE_CLOG2_spec NUM_SLABS Hnum).
    rewrite bool_decide_eq_false_2; [done|]. unfold SLAB_NUM_W in *. lia.
Qed.

Lemma slab_simulates : simulates slab_alloc_tracker pool_spec slab_rel.
Proof.
  intros s pool i HR Hl. split; [by apply slab_shows|]. destruct HR as [Hnd Hsub (freed & Hf & Hp)].
  pose proof (slab_pool_freed _ _ _ Hp) as Hlen.
  destruct (slab_fifo_legal s pool freed i Hnd Hsub Hf Hlen Hl) as [Hq Hwr].
  destruct (fifo_simulates 0 SLAB_NUM_W _ _ _ Hf Hq) as [_ Hf'].
  destruct (pool_next_ok pool i Hnd Hsub Hl) as [Hnd' Hsub']. split; [done|done|].
  exists (queue_next (slab_fifo_in i s) freed). split; [exact Hf'|].
  destruct (fifo_flags _ _ _ Hf) as [He _].
  cbn [c_next slab_alloc_tracker use_fifo_reg init_slab_addr_reg sp_next pool_spec].
  unfold queue_next, pool_next. rewrite Hwr. cbn [rd_req wr_data slab_fifo_in]. rewrite He.
  destruct (use_fifo_reg s); cbn [negb andb].
  - subst pool. f_equal. destruct (src_alloc_slab_consume_val i); [|done]. by destruct freed.
  - destruct Hp as (k & Hk & Hinit & ->). destruct (src_alloc_slab_consume_val i); cbn [andb].
    + rewrite slabs_from_unfold by done. cbn [app tail].
      destruct (decide (S k = Z.to_nat NUM_SLABS)) as [E|E].
      * assert (init_slab_addr_reg s =? LAST_SLAB_ADDR = true) as ->
          by (apply Z.eqb_eq; unfold LAST_SLAB_ADDR; rewrite Hinit; nia).
        unfold slabs_from. by rewrite E, Nat.sub_diag.
      * assert (init_slab_addr_reg s =? LAST_SLAB_ADDR = false) as ->
          by (apply Z.eqb_neq; unfold LAST_SLAB_ADDR; rewrite Hinit; nia).
        exists (S k). split; [lia|]. rewrite Hinit, counter_in_width by lia.
        split; [done|]. by rewrite app_assoc.
    + exists k. split; [done|]. split; [done|]. by rewrite app_assoc.
Qed.

Lemma slab_reset s i :
  Z.of_nat (length (contents (fifo_mem (freed_slab_fifo s)))) = slots SLAB_NUM_W →
  slab_rel (c_next slab_alloc_tracker true i s) all_slabs.
Proof.
  intros Hm. split; [apply all_slabs_nodup|done|]. exists []. split; [by apply fifo_reset|].
  cbn. exists 0%nat. split; [lia|]. split; [lia|]. by rewrite app_nil_r.
Qed.

(** ** Ownership, from outside

    The slabs in use after a cycle, from what is seen of it. *)
Definition in_use_next (i : slab_in) (o : slab_out) (live : gset Z) : gset Z :=
  (live ∖ (if src_free_slab_req_val i then {[ src_free_slab_req_addr i ]} else ∅)) ∪
  (if src_alloc_slab_consume_val i && negb (alloc_slab_src_resp_error o)
   then match alloc_slab_src_resp_addr o with Some a => {[ a ]} | None => ∅ end else ∅).

(** Only slabs in use are freed. *)
Fixpoint frees_in_use (live : gset Z) (ins : list slab_in) (os : list slab_out) : Prop :=
  match ins, os with
  | i :: ins', o :: os' =>
      (src_free_slab_req_val i = true → src_free_slab_req_addr i ∈ live) ∧
      frees_in_use (in_use_next i o live) ins' os'
  | _, _ => True
  end.

(** A cycle offers a slab that is not in use, or an error when all are; and a
    free is taken whenever there is one to make. *)
Definition offers (live : gset Z) (o : slab_out) : Prop :=
  (alloc_slab_src_resp_error o = true ↔ live = list_to_set all_slabs) ∧
  (alloc_slab_src_resp_error o = false →
     ∃ a, alloc_slab_src_resp_addr o = Some a ∧ a ∈ all_slabs ∧ a ∉ live) ∧
  (live ≠ ∅ → free_slab_src_req_rdy o = true).

Fixpoint exclusive (live : gset Z) (ins : list slab_in) (os : list slab_out) : Prop :=
  match ins, os with
  | [], [] => True
  | i :: ins', o :: os' => offers live o ∧ exclusive (in_use_next i o live) ins' os'
  | _, _ => False
  end.

Definition in_use (pool : list Z) : gset Z := list_to_set all_slabs ∖ list_to_set pool.

Lemma in_use_spec pool a : a ∈ in_use pool ↔ a ∈ all_slabs ∧ a ∉ pool.
Proof. unfold in_use. set_solver. Qed.

Lemma pool_offers s pool i : slab_rel s pool → offers (in_use pool) (c_out slab_alloc_tracker s i).
Proof.
  intros HR. destruct (slab_shows s pool i HR) as (He & Ha & Hr). destruct HR as [Hnd Hsub _].
  split; [|split].
  - rewrite He, bool_decide_eq_true. split.
    + intros ->. unfold in_use. set_solver.
    + intros E. destruct pool as [|a pool]; [done|].
      assert (a ∈ in_use (a :: pool)) as Hin by (rewrite E; set_solver).
      apply in_use_spec in Hin as [_ []]. by left.
  - rewrite He, bool_decide_eq_false. intros Hne. destruct pool as [|a pool]; [done|].
    exists a. split; [by apply Ha|]. split; [apply Hsub; by left|]. rewrite in_use_spec.
    intros [_ []]. by left.
  - intros Hne. apply Hr. apply set_choose_L in Hne as [a [Hin Hn]%in_use_spec].
    by apply (pool_room pool a).
Qed.

Lemma in_use_step s pool i :
  slab_rel s pool → sp_legal pool_spec pool i →
  in_use_next i (c_out slab_alloc_tracker s i) (in_use pool) = in_use (pool_next i pool).
Proof.
  intros HR Hl. destruct (slab_shows s pool i HR) as (He & Ha & _). destruct HR as [Hnd Hsub _].
  unfold in_use_next, pool_next. rewrite He. apply set_eq. intros x.
  rewrite elem_of_union, elem_of_difference, !in_use_spec, elem_of_app.
  assert (Hf : x ∈ (if src_free_slab_req_val i then {[ src_free_slab_req_addr i ]} else ∅ : gset Z) ↔
               x ∈ (if src_free_slab_req_val i then [src_free_slab_req_addr i] else []))
    by (destruct (src_free_slab_req_val i); set_solver).
  rewrite Hf. assert (Hfree : x ∈ (if src_free_slab_req_val i then [src_free_slab_req_addr i] else []) →
                        x ∈ all_slabs ∧ x ∉ pool).
  { destruct (src_free_slab_req_val i) eqn:Ef; [|by intros ?%not_elem_of_nil].
    intros ->%list_elem_of_singleton. by apply Hl. }
  destruct (src_alloc_slab_consume_val i); cbn [andb]; [|set_solver].
  destruct pool as [|a pool]; cbn [tail]; [rewrite bool_decide_eq_true_2 by done; set_solver|].
  rewrite bool_decide_eq_false_2 by done. cbn [negb]. rewrite (Ha a eq_refl).
  apply NoDup_cons in Hnd as [Hna Hnd]. specialize (Hsub a ltac:(by left)) as Hina.
  rewrite elem_of_singleton, elem_of_cons in *. destruct (decide (x = a)) as [->|Hne]; [|naive_solver].
  split; [|auto]. intros _. split; [done|]. intros [?|Hx]; [done|].
  destruct (Hfree Hx) as [_ []]. by left.
Qed.

Lemma slab_exclusive_run s pool ins :
  slab_rel s pool → frees_in_use (in_use pool) ins (outputs slab_alloc_tracker ins s) →
  exclusive (in_use pool) ins (outputs slab_alloc_tracker ins s).
Proof.
  revert s pool. induction ins as [|i ins IH]; intros s pool HR Hf; [done|].
  cbn [outputs frees_in_use exclusive] in *. destruct Hf as [Hi Hf].
  assert (sp_legal pool_spec pool i) as Hl by (intros E; apply in_use_spec, Hi, E).
  split; [by apply pool_offers|]. rewrite (in_use_step s pool i HR Hl) in *.
  apply IH; [|done]. by apply (slab_simulates s pool i HR Hl).
Qed.

(** C26: the allocator owns the slabs it does not lend: from any registers, after
    a cycle of reset, and as long as its user frees only slabs in use, every
    slab it offers is a slab of the buffer that nobody uses, it reports an
    error exactly when all are in use, and it takes every free. *)
Theorem slab_alloc_exclusive s i0 ins :
  Z.of_nat (length (contents (fifo_mem (freed_slab_fifo s)))) = slots SLAB_NUM_W →
  let os := outputs slab_alloc_tracker ins (c_next slab_alloc_tracker true i0 s) in
  frees_in_use ∅ ins os → exclusive ∅ ins os.
Proof.
  intros Hm os Hf. pose proof (slab_reset s i0 Hm) as H0.
  assert (in_use all_slabs = ∅) as E by (unfold in_use; set_solver).
  rewrite <- E in Hf |- *. exact (slab_exclusive_run _ _ ins H0 Hf).
Qed.
End Slabs.

(** Three slabs of 64 bytes: all are taken, one is freed and taken again. *)
Definition junk_slab : slab_alloc :=
  {| use_fifo_reg := true; init_slab_addr_reg := 77;
     freed_slab_fifo := {| wr_ptr_reg := 5; rd_ptr_reg := 2; fifo_mem := junk_ram [1; 2; 3; 4] |} |}.
Definition sample_slab_cycles : list slab_in :=
  [SlabIn false 0 true; SlabIn false 0 true; SlabIn true 0 true; SlabIn false 0 true;
   SlabIn false 0 true; SlabIn true 64 true].

Lemma slab_alloc_exclusive_witness :
  let os := outputs (slab_alloc_tracker 3 64) sample_slab_cycles
              (c_next (slab_alloc_tracker 3 64) true (SlabIn true 9 true) junk_slab) in
  take 4 (map alloc_slab_src_resp_addr os) = [Some 0; Some 64; Some 128; Some 0] ∧
  map alloc_slab_src_resp_error os = [false; false; false; false; true; true] ∧
  exclusive 3 64 ∅ sample_slab_cycles os.
Proof.
  split; [vm_compute; reflexivity|]. split; [vm_compute; reflexivity|].
  apply (slab_alloc_exclusive 3 64 ltac:(lia) ltac:(lia) junk_slab (SlabIn true 9 true) sample_slab_cycles).
  - reflexivity.
  - repeat split; intros; apply (bool_decide_unpack _); vm_compute; done.
Defined.
