(* ===== verification/PacketQueue.v ===== *)
(** PacketQueue: common/packet_queue/packet_queue.sv, a queue whose writer
    commits a packet as a whole or dumps it: the elements of a packet cannot be
    read before its last one is written.  The invariant is that of
    packet_queue_doc.md: [rd_ptr] <= [cm_ptr] <= [wr_ptr], around the ring. *)

From S2P Require Import Prelude Rtl Fifo.

Section PacketQueue.
Context {A : Type} (zero : A) (log2_els_p : nat).
Local Abbreviation els_p := (slots log2_els_p).

Record packet_queue := PktQueue {
  pq_wr_ptr_reg : Z;
  pq_rd_ptr_reg : Z;
  cm_ptr_reg : Z;
  pq_mem : ram A }.

Record pq_in := PqIn {
  pq_rd_req : bool;
  pq_wr_req : bool;
  pq_wr_data : A;
  dump_packet : bool;
  cmt_packet : bool }.

Record pq_out := PqOut {
  pq_empty : bool;
  pq_rd_data : option A;
  pq_full : bool;
  curr_pkt_els : Z }.

Definition pq_is_empty (s : packet_queue) : bool :=
  (ptr_addr log2_els_p (pq_rd_ptr_reg s) =? ptr_addr log2_els_p (cm_ptr_reg s)) &&
  (ptr_wrap log2_els_p (pq_rd_ptr_reg s) =? ptr_wrap log2_els_p (cm_ptr_reg s)).
Definition pq_is_full (s : packet_queue) : bool :=
  (ptr_addr log2_els_p (pq_rd_ptr_reg s) =? ptr_addr log2_els_p (pq_wr_ptr_reg s)) &&
  negb (ptr_wrap log2_els_p (pq_rd_ptr_reg s) =? ptr_wrap log2_els_p (pq_wr_ptr_reg s)).

Definition pq_curr_pkt_els (s : packet_queue) : Z :=
  (ptr_inc log2_els_p (pq_wr_ptr_reg s) - cm_ptr_reg s) mod (2 * els_p).

Definition pq_wr_ptr_next (i : pq_in) (s : packet_queue) : Z :=
  if dump_packet i then
    if pq_wr_req i then ptr_inc log2_els_p (cm_ptr_reg s) else cm_ptr_reg s
  else
    if pq_wr_req i then ptr_inc log2_els_p (pq_wr_ptr_reg s) else pq_wr_ptr_reg s.
Definition cm_ptr_next (i : pq_in) (s : packet_queue) : Z :=
  if cmt_packet i then ptr_inc log2_els_p (pq_wr_ptr_reg s) else cm_ptr_reg s.
Definition pq_rd_ptr_next (i : pq_in) (s : packet_queue) : Z :=
  if pq_rd_req i then ptr_inc log2_els_p (pq_rd_ptr_reg s) else pq_rd_ptr_reg s.

Definition pq_mem_in (i : pq_in) (s : packet_queue) : ram_in A :=
  {| ri_wr_req_val := pq_wr_req i;
     ri_wr_req_addr := if dump_packet i && pq_wr_req i then ptr_addr log2_els_p (cm_ptr_reg s)
                       else ptr_addr log2_els_p (pq_wr_ptr_reg s);
     ri_wr_req_data := pq_wr_data i; ri_rd_req_val := true;
     ri_rd_req_addr := ptr_addr log2_els_p (pq_rd_ptr_next i s); ri_rd_resp_rdy := true |}.

Definition packet_queue_module : circuit packet_queue pq_in pq_out := Circuit
  (λ s _, PqOut (pq_is_empty s) (rd_resp_data (pq_mem s)) (pq_is_full s) (pq_curr_pkt_els s))
  (λ rst i s,
     {| pq_wr_ptr_reg := if rst then 0 else pq_wr_ptr_next i s;
        pq_rd_ptr_reg := if rst then 0 else pq_rd_ptr_next i s;
        cm_ptr_reg := if rst then 0 else cm_ptr_next i s;
        pq_mem := ram_next zero rst (pq_mem_in i s) (pq_mem s) |}).

(** ** What it is: the committed elements, and those of the packet in progress *)

Record packets := Packets { committed : list A; in_progress : list A }.

Definition in_queue (q : packets) : Z := Z.of_nat (length (committed q) + length (in_progress q)).

(** The packet in progress with what is written now. *)
Definition written (i : pq_in) (q : packets) : list A :=
  (if dump_packet i then [] else in_progress q) ++ (if pq_wr_req i then [pq_wr_data i] else []).

Definition packets_next (i : pq_in) (q : packets) : packets :=
  let left := if pq_rd_req i then tail (committed q) else committed q in
  if cmt_packet i then Packets (left ++ written i q) []
  else Packets left (written i q).

(** Reading needs a committed element, writing needs room (a dump in the same
    cycle is not enough), and a packet is committed with its last element. *)
Definition packets_spec : spec packets pq_in pq_out := {|
  sp_legal q i :=
    (pq_rd_req i = true → committed q ≠ []) ∧ (pq_wr_req i = true → in_queue q < els_p) ∧
    (cmt_packet i = true → pq_wr_req i = true ∧ dump_packet i = false);
  sp_shows q i o :=
    pq_empty o = bool_decide (committed q = []) ∧ pq_full o = bool_decide (in_queue q = els_p) ∧
    (∀ d, head (committed q) = Some d → pq_rd_data o = Some d) ∧
    curr_pkt_els o = Z.of_nat (length (in_progress q)) + 1;
  sp_next := packets_next |}.

Record pq_rel (s : packet_queue) (q : packets) : Prop := {
  pr_wr : ptr_ok log2_els_p (pq_wr_ptr_reg s);
  pr_rd : ptr_ok log2_els_p (pq_rd_ptr_reg s);
  pr_cm : ptr_ok log2_els_p (cm_ptr_reg s);
  pr_committed : ahead log2_els_p (pq_rd_ptr_reg s) (cm_ptr_reg s) = Z.of_nat (length (committed q));
  pr_progress : ahead log2_els_p (cm_ptr_reg s) (pq_wr_ptr_reg s) = Z.of_nat (length (in_progress q));
  pr_cap : in_queue q ≤ els_p;
  pr_mem : Z.of_nat (length (contents (pq_mem s))) = els_p;
  pr_holds : holds_at log2_els_p (contents (pq_mem s)) (pq_rd_ptr_reg s)
                      (committed q ++ in_progress q);
  pr_head d : head (committed q) = Some d → rd_resp_data (pq_mem s) = Some d }.

(** A pointer has an address of one bit at least. *)
Hypothesis Hlog2 : (0 < log2_els_p)%nat.

Lemma two_slots : 2 ≤ els_p.
Proof. unfold slots. change 2 with (2 ^ 1) at 1. apply Z.pow_le_mono_r; lia. Qed.

(** The three pointers, from the distances between two. *)
Lemma ahead_trans a b c :
  ahead log2_els_p a b + ahead log2_els_p b c < 2 * els_p →
  ahead log2_els_p a c = ahead log2_els_p a b + ahead log2_els_p b c.
Proof.
  intros H. pose proof (slots_pos log2_els_p). pose proof (ahead_bound log2_els_p a b).
  pose proof (ahead_bound log2_els_p b c). unfold ahead in *.
  replace (c - a) with ((b - a) + (c - b)) by lia. rewrite Z.add_mod by lia.
  apply Z.mod_small. lia.
Qed.

Lemma pq_occupied s q :
  pq_rel s q → ahead log2_els_p (pq_rd_ptr_reg s) (pq_wr_ptr_reg s) = in_queue q.
Proof.
  intros [_ _ _ Hc Hp Hcap _ _ _]. pose proof (slots_pos log2_els_p).
  rewrite (ahead_trans _ (cm_ptr_reg s)); unfold in_queue in *; lia.
Qed.

Lemma pq_shows s q i : pq_rel s q → sp_shows packets_spec q i (c_out packet_queue_module s i).
Proof.
  intros HR. pose proof (pq_occupied s q HR) as Ho.
  destruct HR as [Hw Hr Hcm Hc Hp Hcap Hm Hh Hd]. pose proof two_slots.
  pose proof (same_ptr_iff _ _ _ Hr Hcm) as H1. pose proof (full_ptr_iff _ _ _ Hr Hw) as H2.
  rewrite Hc in H1. rewrite Ho in H2. cbn. split; [|split; [|split; [done|]]].
  - apply eq_true_iff_eq. unfold pq_is_empty.
    rewrite andb_true_iff, !Z.eqb_eq, H1, bool_decide_eq_true, <- length_zero_iff_nil. lia.
  - apply eq_true_iff_eq. unfold pq_is_full.
    by rewrite andb_true_iff, negb_true_iff, Z.eqb_eq, Z.eqb_neq, H2, bool_decide_eq_true.
  - unfold pq_curr_pkt_els. change ((ptr_inc log2_els_p (pq_wr_ptr_reg s) - cm_ptr_reg s) mod (2 * els_p))
      with (ahead log2_els_p (cm_ptr_reg s) (ptr_inc log2_els_p (pq_wr_ptr_reg s))).
    unfold in_queue in Hcap. rewrite ahead_inc_r; lia.
Qed.

(** The elements after the read pointer, before the write of the cycle. *)
Definition kept (i : pq_in) (q : packets) : list A :=
  (if pq_rd_req i then tail (committed q) else committed q) ++
  (if dump_packet i then [] else in_progress q).

Lemma kept_next i q :
  committed (packets_next i q) ++ in_progress (packets_next i q)
  = kept i q ++ (if pq_wr_req i then [pq_wr_data i] else []).
Proof.
  unfold packets_next, kept, written. destruct (cmt_packet i); cbn; by rewrite ?app_nil_r, ?app_assoc.
Qed.

(** The pointers after a cycle. *)
Lemma pq_pointers_next s q i :
  pq_rel s q → sp_legal packets_spec q i →
  let s' := c_next packet_queue_module false i s in
  ahead log2_els_p (pq_rd_ptr_reg s') (cm_ptr_reg s') = Z.of_nat (length (committed (packets_next i q))) ∧
  ahead log2_els_p (cm_ptr_reg s') (pq_wr_ptr_reg s') = Z.of_nat (length (in_progress (packets_next i q))) ∧
  in_queue (packets_next i q) ≤ els_p.
Proof.
  intros HR (Hrd & Hwr & Hcm) s'. pose proof (pq_occupied s q HR) as Ho.
  destruct HR as [_ _ _ Hc Hp Hcap _ _ _]. pose proof (slots_pos log2_els_p).
  assert (pq_rd_req i = true → 0 < Z.of_nat (length (committed q))) as Hne
    by (intros E; specialize (Hrd E); destruct (committed q); [done|simpl; lia]).
  assert (ahead log2_els_p (pq_rd_ptr_next i s) (cm_ptr_reg s)
          = Z.of_nat (length (if pq_rd_req i then tail (committed q) else committed q))) as Hc1.
  { unfold pq_rd_ptr_next. destruct (pq_rd_req i); [|done]. rewrite ahead_inc_l by lia.
    rewrite length_tl. lia. }
  unfold s', packets_next, written, in_queue in *. cbn -[Z.add].
  unfold cm_ptr_next, pq_wr_ptr_next.
  set (left := if pq_rd_req i then tail (committed q) else committed q) in *.
  assert (Z.of_nat (length left) ≤ Z.of_nat (length (committed q))) as Hleft
    by (unfold left; destruct (pq_rd_req i); rewrite ?length_tl; lia).
  destruct (cmt_packet i).
  - destruct (Hcm eq_refl) as [Ew Ed]. specialize (Hwr Ew). rewrite Ew, Ed. cbn -[Z.add].
    rewrite ahead_refl, !length_app. cbn [length].
    assert (ahead log2_els_p (pq_rd_ptr_next i s) (pq_wr_ptr_reg s)
            = Z.of_nat (length left) + Z.of_nat (length (in_progress q))) as Hrw
      by (rewrite (ahead_trans _ (cm_ptr_reg s)); lia).
    rewrite ahead_inc_r; lia.
  - cbn -[Z.add]. split; [done|]. destruct (dump_packet i), (pq_wr_req i); cbn -[Z.add];
      rewrite ?app_nil_r, ?length_app; cbn [length].
    + specialize (Hwr eq_refl). rewrite ahead_inc_r; rewrite ahead_refl; lia.
    + rewrite ahead_refl. lia.
    + specialize (Hwr eq_refl). rewrite ahead_inc_r; lia.
    + lia.
Qed.

(** The memory after a cycle. *)
Lemma pq_mem_next s q i :
  pq_rel s q → sp_legal packets_spec q i →
  let s' := c_next packet_queue_module false i s in
  Z.of_nat (length (contents (pq_mem s'))) = els_p ∧
  holds_at log2_els_p (contents (pq_mem s')) (pq_rd_ptr_reg s')
           (committed (packets_next i q) ++ in_progress (packets_next i q)).
Proof.
  intros HR (Hrd & Hwr & _) s'. pose proof (pq_occupied s q HR) as Ho.
  destruct HR as [_ _ _ Hc Hp Hcap Hm Hh _]. pose proof (slots_pos log2_els_p).
  rewrite kept_next. unfold s'. cbn [c_next packet_queue_module pq_mem pq_rd_ptr_reg].
  rewrite contents_next. cbn [ri_wr_req_val ri_wr_req_addr ri_wr_req_data pq_mem_in].
  assert (Hkept : holds_at log2_els_p (contents (pq_mem s)) (pq_rd_ptr_next i s) (kept i q)).
  { unfold kept, pq_rd_ptr_next.
    assert (holds_at log2_els_p (contents (pq_mem s)) (pq_rd_ptr_reg s)
              (committed q ++ (if dump_packet i then [] else in_progress q))) as Hd.
    { destruct (dump_packet i); [|done]. rewrite app_nil_r. intros k d Hk. apply Hh.
      rewrite lookup_app_l; [done|]. by apply lookup_lt_Some in Hk. }
    destruct (pq_rd_req i); [|done]. apply holds_at_tail in Hd.
    destruct (committed q); [by specialize (Hrd eq_refl)|exact Hd]. }
  destruct (pq_wr_req i) eqn:Ew; [|by rewrite app_nil_r].
  split; [by rewrite length_insert|]. specialize (Hwr eq_refl).
  apply holds_at_write; [done| |done|].
  - unfold kept, in_queue in *. rewrite length_app.
    destruct (pq_rd_req i), (dump_packet i); rewrite ?length_tl; cbn [length]; lia.
  - rewrite andb_true_r.
    assert (pq_rd_req i = true → 0 < Z.of_nat (length (committed q))) as Hne
      by (intros E; specialize (Hrd E); destruct (committed q); [done|simpl; lia]).
    assert (ahead log2_els_p (pq_rd_ptr_next i s)
              (if dump_packet i then cm_ptr_reg s else pq_wr_ptr_reg s)
            = Z.of_nat (length (kept i q))) as <-.
    { unfold kept, pq_rd_ptr_next, in_queue in *. rewrite length_app.
      destruct (pq_rd_req i), (dump_packet i); rewrite ?ahead_inc_l, ?length_tl; cbn [length]; lia. }
    rewrite slot_ahead. by destruct (dump_packet i).
Qed.

Lemma pq_simulates : simulates packet_queue_module packets_spec pq_rel.
Proof.
  intros s q i HR Hl. split; [by apply pq_shows|].
  pose proof (pq_pointers_next s q i HR Hl) as (H1 & H2 & H3).
  pose proof (pq_mem_next s q i HR Hl) as [H4 H5]. destruct HR as [Hw Hr Hcm _ _ _ Hm _ _].
  pose proof (slots_pos log2_els_p).
  split; try done; cbn [c_next packet_queue_module pq_wr_ptr_reg pq_rd_ptr_reg cm_ptr_reg pq_mem].
  - unfold pq_wr_ptr_next. destruct (dump_packet i), (pq_wr_req i); try apply ptr_inc_ok; done.
  - unfold pq_rd_ptr_next. destruct (pq_rd_req i); [apply ptr_inc_ok|done].
  - unfold cm_ptr_next. destruct (cmt_packet i); [apply ptr_inc_ok|done].
  - intros d Hq. rewrite rd_resp_data_next.
    + change (mem_rd_req_addr_reg (ram_next zero false (pq_mem_in i s) (pq_mem s)))
        with (if rd_req_rdy (pq_mem s) (pq_mem_in i s)
              then mem_rd_req_addr (pq_mem s) (pq_mem_in i s)
              else mem_rd_req_addr_reg (pq_mem s)).
      unfold rd_req_rdy, mem_rd_req_addr. cbn [ri_rd_resp_rdy pq_mem_in orb negb].
      rewrite andb_false_r. cbn [ri_rd_req_addr].
      cbn [sp_next packets_spec] in Hq.
      destruct (committed (packets_next i q)) as [|x q'] eqn:Eq; [done|]. injection Hq as ->.
      specialize (H5 0%nat d eq_refl). unfold slot in H5. by rewrite Z.add_0_r in H5.
    + intros _. cbn [ri_wr_req_addr pq_mem_in]. rewrite Hm.
      destruct (dump_packet i && pq_wr_req i); apply Z.mod_pos_bound; lia.
    + unfold rd_resp_val. cbn. unfold rd_req_rdy, mem_rd_req_val. cbn. by rewrite andb_false_r.
Qed.

Lemma pq_reset s i :
  Z.of_nat (length (contents (pq_mem s))) = els_p →
  pq_rel (c_next packet_queue_module true i s) (Packets [] []).
Proof.
  intros Hm. pose proof (slots_pos log2_els_p).
  split; cbn [c_next packet_queue_module pq_wr_ptr_reg pq_rd_ptr_reg cm_ptr_reg pq_mem committed
              in_progress app length]; try (unfold ptr_ok; lia); try apply ahead_refl; try done.
  - unfold in_queue. cbn. lia.
  - rewrite contents_next. cbn [ri_wr_req_val pq_mem_in].
    destruct (pq_wr_req i); by rewrite ?length_insert.
Qed.
End PacketQueue.

(** ** Packets come out whole *)

Section Order.
Context {A : Type} (zero : A) (log2_els_p : nat).

(** The packets the inputs commit, [cur] being the one in progress. *)
Fixpoint packets_of (cur : list A) (ins : list (pq_in (A:=A))) : list (list A) :=
  match ins with
  | [] => []
  | i :: ins' =>
      let cur' := written i (Packets [] cur) in
      if cmt_packet i then cur' :: packets_of [] ins' else packets_of cur' ins'
  end.

Fixpoint pq_reads (ins : list (pq_in (A:=A))) (os : list (pq_out (A:=A))) : list (option A) :=
  match ins, os with
  | i :: ins', o :: os' => (if pq_rd_req i then [pq_rd_data o] else []) ++ pq_reads ins' os'
  | _, _ => []
  end.

Lemma pq_reads_packets q ins os :
  legal_run (packets_spec log2_els_p) q ins → shows_run (packets_spec log2_els_p) q ins os →
  pq_reads ins os ++ (Some <$> committed (spec_after (packets_spec log2_els_p) q ins))
  = Some <$> committed q ++ concat (packets_of (in_progress q) ins).
Proof.
  revert q os. induction ins as [|i ins IH]; intros q [|o os] Hl Ho; try done.
  { cbn. by rewrite app_nil_r. }
  destruct Hl as [[Hr _] Hl], Ho as [(_ & _ & Hd & _) Ho]. specialize (IH _ _ Hl Ho).
  cbn [pq_reads packets_of spec_after fold_left]. rewrite <- app_assoc.
  change (fold_left _ ins _) with (spec_after (packets_spec log2_els_p) (packets_next i q) ins).
  cbn [sp_next packets_spec] in IH. rewrite IH. unfold packets_next.
  change (written i (Packets [] (in_progress q))) with (written i q).
  assert (∀ l, (if pq_rd_req i then [pq_rd_data o] else []) ++
               (Some <$> (if pq_rd_req i then tail (committed q) else committed q) ++ l)
               = Some <$> committed q ++ l) as E.
  { intros l. destruct (pq_rd_req i); [|done].
    destruct (committed q) as [|x l']; [by specialize (Hr eq_refl)|]. by rewrite (Hd x eq_refl). }
  destruct (cmt_packet i); cbn [committed in_progress concat]; rewrite <- ?app_assoc; apply E.
Qed.

(** C28: a packet is read whole or not at all: from any registers, after a cycle
    of reset, the elements read are those of the committed packets, in order,
    nothing lost, and nothing of a packet that is dumped or still in progress
    is ever shown; the size reported when a packet is committed is its number
    of elements; and the pointers keep the order the documentation gives,
    around the ring: read, then commit, then write. *)
Theorem packet_queue_all_or_nothing s i0 ins :
  (0 < log2_els_p)%nat → Z.of_nat (length (contents (pq_mem s))) = slots log2_els_p →
  legal_run (packets_spec log2_els_p) (Packets [] []) ins →
  let s0 := c_next (packet_queue_module zero log2_els_p) true i0 s in
  let os := outputs (packet_queue_module zero log2_els_p) ins s0 in
  let s1 := after_cycles (packet_queue_module zero log2_els_p) ins s0 in
  shows_run (packets_spec log2_els_p) (Packets [] []) ins os ∧
  pq_reads ins os ++ (Some <$> committed (spec_after (packets_spec log2_els_p) (Packets [] []) ins))
  = Some <$> concat (packets_of [] ins) ∧
  ahead log2_els_p (pq_rd_ptr_reg s1) (cm_ptr_reg s1)
  ≤ ahead log2_els_p (pq_rd_ptr_reg s1) (pq_wr_ptr_reg s1) ≤ slots log2_els_p.
Proof.
  intros Hn Hm Hl s0 os s1. pose proof (pq_reset zero log2_els_p Hn s i0 Hm) as H0.
  destruct (simulates_run _ _ _ _ _ ins (pq_simulates zero log2_els_p Hn) H0 Hl) as [Hs H1].
  split; [exact Hs|]. split; [by apply (pq_reads_packets (Packets [] []) ins os)|].
  fold s0 s1 in H1. pose proof (pq_occupied log2_els_p Hn _ _ H1) as Ho.
  destruct H1 as [_ _ _ Hc _ Hcap _ _ _]. rewrite Ho, Hc. unfold in_queue in *. lia.
Qed.
End Order.

Arguments packet_queue A : clear implicits.
Arguments pq_in A : clear implicits.
Arguments pq_out A : clear implicits.
Arguments packets A : clear implicits.

(** A packet of two, one dumped, one of one element that takes its place. *)
Definition junk_pq : packet_queue Z :=
  {| pq_wr_ptr_reg := 3; pq_rd_ptr_reg := 1; cm_ptr_reg := 2; pq_mem := junk_ram [8; 9; 8; 9] |}.
Definition sample_pq_cycles : list (pq_in Z) :=
  [PqIn false true 10 false false; PqIn false true 11 false true; PqIn false true 12 false false;
   PqIn true true 13 true false; PqIn true true 14 false true; PqIn true false 0 false false].

Lemma sample_pq_legal : legal_run (packets_spec 2) (Packets [] []) sample_pq_cycles.
Proof. repeat split; vm_compute; intros; done. Defined.

Lemma packet_queue_all_or_nothing_witness :
  let s0 := c_next (packet_queue_module 0 2) true (PqIn true true 5 true true) junk_pq in
  let os := outputs (packet_queue_module 0 2) sample_pq_cycles s0 in
  let s1 := after_cycles (packet_queue_module 0 2) sample_pq_cycles s0 in
  shows_run (packets_spec 2) (Packets [] []) sample_pq_cycles os ∧
  pq_reads sample_pq_cycles os ++
    (Some <$> committed (spec_after (packets_spec 2) (Packets [] []) sample_pq_cycles))
  = Some <$> [10; 11; 13; 14] ∧
  ahead 2 (pq_rd_ptr_reg s1) (cm_ptr_reg s1) ≤ ahead 2 (pq_rd_ptr_reg s1) (pq_wr_ptr_reg s1) ≤ 4.
Proof.
  apply (packet_queue_all_or_nothing 0 2 junk_pq (PqIn true true 5 true true) sample_pq_cycles).
  - lia.
  - reflexivity.
  - exact sample_pq_legal.
Defined.
