(* ===== verification/PacketQueueController.v ===== *)
(** PacketQueueController: common/packet_queue/packet_queue_controller.sv, which
    stores the frames of the network whole: a frame that meets a full buffer is
    dropped, the others are committed with their size.  The network cannot be
    made to wait, so every cycle with [wr_req] is a line of a frame. *)

From S2P Require Import Prelude Rtl Fifo PacketQueue.

Inductive state_t := READY | WRITING_FRAME | PASS_FRAME.

Section Controller.
Context {A : Type} (zero : A).

(** [log2_els_p], [NOC_DATA_BYTES_W] and [MTU_SIZE_W]. *)
Variables log2_els_p NOC_DATA_BYTES_W MTU_SIZE_W : nat.
Local Abbreviation els_p := (slots log2_els_p).

Record controller := Controller {
  state_reg : state_t;
  drop_queue : packet_queue A;
  pkt_size_queue : fifo Z }.

Record ctl_in := CtlIn {
  ci_wr_req : bool;
  ci_wr_data : A;
  start_frame : bool;
  end_frame : bool;
  end_padbytes : Z;
  ci_rd_req : bool;
  pkt_size_queue_rd_req : bool }.

Record ctl_out := CtlOut {
  co_full : bool;
  co_empty : bool;
  co_rd_data : option A;
  pkt_size_queue_empty : bool;
  pkt_size_queue_rd_data : option Z }.

(** The combinational block: the next state and the four requests. *)
Record control_out := ControlOut {
  state_next : state_t;
  buffer_wr_req : bool;
  buffer_cmt_packet : bool;
  buffer_dump_packet : bool;
  pkt_size_queue_wr_req : bool }.

Definition control (state : state_t) (buffer_full : bool) (i : ctl_in) : control_out :=
  match state with
  | READY =>
      if ci_wr_req i && negb buffer_full && start_frame i then
        if end_frame i then ControlOut READY true true false true
        else ControlOut WRITING_FRAME true false false false
      else ControlOut READY false false false false
  | WRITING_FRAME =>
      if ci_wr_req i then
        if buffer_full then
          ControlOut (if end_frame i then READY else PASS_FRAME) false false true false
        else if end_frame i then ControlOut READY true true false true
        else if start_frame i then ControlOut WRITING_FRAME true false true false
        else ControlOut WRITING_FRAME true false false false
      else ControlOut WRITING_FRAME false false false false
  | PASS_FRAME =>
      if ci_wr_req i then
        ControlOut (if end_frame i then READY else PASS_FRAME) false false false false
      else ControlOut PASS_FRAME false false false false
  end.

Definition control_of (s : controller) (i : ctl_in) : control_out :=
  control (state_reg s) (pq_is_full log2_els_p (drop_queue s)) i.

Definition drop_queue_in (s : controller) (i : ctl_in) : pq_in A :=
  {| pq_rd_req := ci_rd_req i; pq_wr_req := buffer_wr_req (control_of s i);
     pq_wr_data := ci_wr_data i; dump_packet := buffer_dump_packet (control_of s i);
     cmt_packet := buffer_cmt_packet (control_of s i) |}.

(** [(curr_pkt_els << NOC_DATA_BYTES_W) - end_padbytes], in the width it is
    assigned to. *)
Definition size_of (els pad : Z) : Z :=
  (Z.shiftl els (Z.of_nat NOC_DATA_BYTES_W) - pad) mod 2 ^ Z.of_nat MTU_SIZE_W.

Definition size_queue_in (s : controller) (i : ctl_in) : fifo_in Z :=
  {| rd_req := pkt_size_queue_rd_req i; wr_req := pkt_size_queue_wr_req (control_of s i);
     wr_data := size_of (pq_curr_pkt_els log2_els_p (drop_queue s)) (end_padbytes i) |}.

Definition packet_queue_controller : circuit controller ctl_in ctl_out := Circuit
  (λ s _,
     {| co_full := pq_is_full log2_els_p (drop_queue s);
        co_empty := pq_is_empty log2_els_p (drop_queue s);
        co_rd_data := rd_resp_data (pq_mem (drop_queue s));
        pkt_size_queue_empty := fifo_empty log2_els_p (pkt_size_queue s);
        pkt_size_queue_rd_data := rd_resp_data (fifo_mem (pkt_size_queue s)) |})
  (λ rst i s,
     {| state_reg := if rst then READY else state_next (control_of s i);
        drop_queue := c_next (packet_queue_module zero log2_els_p) rst (drop_queue_in s i) (drop_queue s);
        pkt_size_queue := c_next (fifo_1r1w 0 log2_els_p) rst (size_queue_in s i) (pkt_size_queue s) |}).

(** ** What it is: frames, stored or dropped as a whole *)

(** Whether the last line was not the end of its frame, whether that frame is
    being stored, what the buffer holds, and the sizes not read yet. *)
Record frames_view := FramesView {
  fv_inside : bool;
  fv_storing : bool;
  fv_packets : packets A;
  fv_sizes : list Z }.

(** A line is stored when its frame is so far and there is room. *)
Definition stores (i : ctl_in) (v : frames_view) : bool :=
  ci_wr_req i && (start_frame i || fv_storing v) && bool_decide (in_queue (fv_packets v) < els_p).

Definition line_written (i : ctl_in) (v : frames_view) : list A :=
  in_progress (fv_packets v) ++ [ci_wr_data i].

Definition size_written (i : ctl_in) (v : frames_view) : Z :=
  size_of (Z.of_nat (length (line_written i v))) (end_padbytes i).

Definition elements_left (i : ctl_in) (v : frames_view) : list A :=
  if ci_rd_req i then tail (committed (fv_packets v)) else committed (fv_packets v).
Definition sizes_left (i : ctl_in) (v : frames_view) : list Z :=
  if pkt_size_queue_rd_req i then tail (fv_sizes v) else fv_sizes v.

Definition view_next (i : ctl_in) (v : frames_view) : frames_view :=
  let left := elements_left i v in
  let sizes := sizes_left i v in
  if negb (ci_wr_req i) then
    FramesView (fv_inside v) (fv_storing v) (Packets left (in_progress (fv_packets v))) sizes
  else if stores i v then
    if end_frame i
    then FramesView false false (Packets (left ++ line_written i v) []) (sizes ++ [size_written i v])
    else FramesView true true (Packets left (line_written i v)) sizes
  else FramesView (negb (end_frame i)) false (Packets left []) sizes.

(** The lines come in frames; only what is there is read; and the size of a
    packet is read with its last element at the latest. *)
Definition frames_spec : spec frames_view ctl_in ctl_out := {|
  sp_legal v i :=
    (ci_wr_req i = true → start_frame i = negb (fv_inside v)) ∧
    (ci_rd_req i = true → committed (fv_packets v) ≠ []) ∧
    (pkt_size_queue_rd_req i = true → fv_sizes v ≠ []) ∧
    (length (sizes_left i v) ≤ length (elements_left i v))%nat;
  sp_shows v i o :=
    co_empty o = bool_decide (committed (fv_packets v) = []) ∧
    co_full o = bool_decide (in_queue (fv_packets v) = els_p) ∧
    (∀ d, head (committed (fv_packets v)) = Some d → co_rd_data o = Some d) ∧
    pkt_size_queue_empty o = bool_decide (fv_sizes v = []) ∧
    (∀ n, head (fv_sizes v) = Some n → pkt_size_queue_rd_data o = Some n);
  sp_next := view_next |}.

(** The state of the controller, for a view. *)
Definition state_rel (st : state_t) (v : frames_view) : Prop :=
  match st with
  | READY => fv_storing v = false ∧ in_progress (fv_packets v) = []
  | WRITING_FRAME => fv_inside v = true ∧ fv_storing v = true
  | PASS_FRAME => fv_inside v = true ∧ fv_storing v = false ∧ in_progress (fv_packets v) = []
  end.

Record ctl_rel (s : controller) (v : frames_view) : Prop := {
  cr_state : state_rel (state_reg s) v;
  cr_packets : pq_rel log2_els_p (drop_queue s) (fv_packets v);
  cr_sizes : fifo_rel log2_els_p (pkt_size_queue s) (fv_sizes v);
  cr_fewer : (length (fv_sizes v) ≤ length (committed (fv_packets v)))%nat }.

Hypothesis Hlog2 : (0 < log2_els_p)%nat.

Lemma ctl_full s v :
  ctl_rel s v →
  pq_is_full log2_els_p (drop_queue s) = negb (bool_decide (in_queue (fv_packets v) < els_p)) ∧
  pq_curr_pkt_els log2_els_p (drop_queue s) = Z.of_nat (length (in_progress (fv_packets v))) + 1.
Proof.
  intros HR. pose proof (cr_packets _ _ HR) as Hp.
  destruct (pq_shows zero log2_els_p Hlog2 _ _ (PqIn false false zero false false) Hp) as (_ & Hf & _ & Hc).
  cbn in Hf, Hc. rewrite Hf. split; [|done]. pose proof (pr_cap _ _ _ Hp).
  apply eq_true_iff_eq. rewrite negb_true_iff, bool_decide_eq_true, bool_decide_eq_false. lia.
Qed.

(** What the controller asks for, from the view. *)
Lemma control_view s v i :
  ctl_rel s v → sp_legal frames_spec v i →
  let c := control_of s i in
  buffer_wr_req c = stores i v ∧ buffer_cmt_packet c = (stores i v && end_frame i) ∧
  pkt_size_queue_wr_req c = (stores i v && end_frame i) ∧
  (buffer_dump_packet c = true → stores i v = false) ∧
  (ci_wr_req i = true → stores i v = false →
     buffer_dump_packet c = true ∨ in_progress (fv_packets v) = []) ∧
  (ci_wr_req i = false → buffer_dump_packet c = false) ∧
  state_rel (state_next c) (view_next i v).
Proof.
  intros HR (Hst & _) c. destruct (ctl_full s v HR) as [Hfull _].
  pose proof (cr_state _ _ HR) as Hs. unfold c, control_of, control, view_next, stores, state_rel in *.
  rewrite Hfull. destruct i as [wr d st en pad rd srd]. cbn in *.
  set (room := bool_decide (in_queue (fv_packets v) < els_p)) in *.
  destruct v as [ins sto pk sz]. cbn in *.
  destruct (state_reg s); destruct_and?; simplify_eq;
    destruct wr; cbn; try (specialize (Hst eq_refl); subst st);
    destruct room, en; try destruct ins; cbn; split_and?; try done; auto.
Qed.

(** The buffer and the queue of sizes follow the view. *)
Lemma drop_queue_follows s v i :
  ctl_rel s v → sp_legal frames_spec v i →
  sp_legal (packets_spec log2_els_p) (fv_packets v) (drop_queue_in s i) ∧
  packets_next (drop_queue_in s i) (fv_packets v) = fv_packets (view_next i v).
Proof.
  intros HR Hl. destruct (control_view s v i HR Hl) as (Hw & Hc & _ & Hd & Hn & Hi & _).
  destruct Hl as (_ & Hrd & _).
  unfold packets_next, written, view_next, elements_left, line_written.
  cbn [sp_legal packets_spec drop_queue_in pq_rd_req pq_wr_req pq_wr_data dump_packet cmt_packet].
  rewrite Hw, Hc. split.
  - split; [done|]. split.
    + unfold stores. rewrite !andb_true_iff, bool_decide_eq_true. tauto.
    + intros [Hs _]%andb_true_iff. split; [done|].
      destruct (buffer_dump_packet _); [by rewrite Hd in Hs|done].
  - destruct (ci_wr_req i) eqn:Ewr; cbn [negb].
    + destruct (stores i v) eqn:Es; cbn [andb].
      * assert (buffer_dump_packet (control_of s i) = false) as ->
          by (destruct (buffer_dump_packet _); [by specialize (Hd eq_refl)|done]).
        by destruct (end_frame i).
      * rewrite app_nil_r. cbn. destruct (Hn eq_refl eq_refl) as [-> | ->]; [done|].
        by destruct (buffer_dump_packet _).
    + rewrite Hi by done. unfold stores. rewrite Ewr. cbn. by rewrite app_nil_r.
Qed.

Lemma size_queue_follows s v i :
  ctl_rel s v → sp_legal frames_spec v i →
  sp_legal (queue_spec log2_els_p) (fv_sizes v) (size_queue_in s i) ∧
  queue_next (size_queue_in s i) (fv_sizes v) = fv_sizes (view_next i v).
Proof.
  intros HR Hl. destruct (control_view s v i HR Hl) as (_ & _ & Hz & _).
  destruct (ctl_full s v HR) as [_ Hcurr]. pose proof (cr_fewer _ _ HR) as Hle.
  destruct Hl as (_ & _ & Hrd & _).
  unfold queue_next, view_next, sizes_left, size_written, line_written.
  cbn [sp_legal queue_spec size_queue_in rd_req wr_req wr_data]. rewrite Hz, Hcurr. split.
  - split; [done|]. intros [Hs _]%andb_true_iff. left. unfold stores, in_queue in Hs.
    apply andb_true_iff in Hs as [_ Hs%bool_decide_eq_true]. lia.
  - rewrite length_app. cbn [length].
    replace (Z.of_nat (length (in_progress (fv_packets v)) + 1))
      with (Z.of_nat (length (in_progress (fv_packets v))) + 1) by lia.
    destruct (ci_wr_req i) eqn:Ewr; cbn [negb].
    + destruct (stores i v); cbn [andb]; [|by rewrite app_nil_r].
      destruct (end_frame i); [done|by rewrite app_nil_r].
    + assert (stores i v = false) as -> by (unfold stores; by rewrite Ewr). cbn. by rewrite app_nil_r.
Qed.

Lemma view_fewer i v :
  (length (sizes_left i v) ≤ length (elements_left i v))%nat →
  (length (fv_sizes (view_next i v)) ≤ length (committed (fv_packets (view_next i v))))%nat.
Proof.
  intros Hle. unfold view_next, line_written.
  destruct (negb (ci_wr_req i)); [done|]. destruct (stores i v), (end_frame i); cbn; len.
Qed.

Lemma ctl_simulates : simulates packet_queue_controller frames_spec ctl_rel.
Proof.
  intros s v i HR Hl.
  destruct (drop_queue_follows s v i HR Hl) as [Hp1 Hp2].
  destruct (size_queue_follows s v i HR Hl) as [Hz1 Hz2].
  destruct (pq_simulates zero log2_els_p Hlog2 _ _ _ (cr_packets _ _ HR) Hp1) as [(S1 & S2 & S3 & _) Hp].
  destruct (fifo_simulates 0 log2_els_p _ _ _ (cr_sizes _ _ HR) Hz1) as [(S4 & _ & S5) Hz].
  split; [done|]. cbn [sp_next packets_spec queue_spec] in Hp, Hz. rewrite Hp2 in Hp. rewrite Hz2 in Hz.
  split; [|exact Hp|exact Hz|].
  - by destruct (control_view s v i HR Hl) as (_ & _ & _ & _ & _ & _ & Hs).
  - apply view_fewer. apply Hl.
Qed.

Definition no_frames : frames_view := FramesView false false (Packets [] []) [].

Lemma ctl_reset s i :
  Z.of_nat (length (contents (pq_mem (drop_queue s)))) = els_p →
  Z.of_nat (length (contents (fifo_mem (pkt_size_queue s)))) = els_p →
  ctl_rel (c_next packet_queue_controller true i s) no_frames.
Proof.
  intros H1 H2. split; [done| | |done].
  - by apply (pq_reset zero log2_els_p Hlog2).
  - by apply (fifo_reset 0 log2_els_p).
Qed.

(** *** Frames in, frames out *)

(** The frames of the lines, with their padding; [cur] is the one begun. *)
Fixpoint frames_of (cur : list A) (ins : list ctl_in) : list (list A * Z) :=
  match ins with
  | [] => []
  | i :: ins' =>
      if ci_wr_req i then
        let cur' := (if start_frame i then [] else cur) ++ [ci_wr_data i] in
        if end_frame i then (cur', end_padbytes i) :: frames_of [] ins' else frames_of cur' ins'
      else frames_of cur ins'
  end.

(** Those that are stored. *)
Fixpoint stored (v : frames_view) (ins : list ctl_in) : list (list A * Z) :=
  match ins with
  | [] => []
  | i :: ins' =>
      (if stores i v && end_frame i then [(line_written i v, end_padbytes i)] else []) ++
      stored (view_next i v) ins'
  end.

Fixpoint data_read (ins : list ctl_in) (os : list ctl_out) : list (option A) :=
  match ins, os with
  | i :: ins', o :: os' => (if ci_rd_req i then [co_rd_data o] else []) ++ data_read ins' os'
  | _, _ => []
  end.
Fixpoint sizes_read (ins : list ctl_in) (os : list ctl_out) : list (option Z) :=
  match ins, os with
  | i :: ins', o :: os' =>
      (if pkt_size_queue_rd_req i then [pkt_size_queue_rd_data o] else []) ++ sizes_read ins' os'
  | _, _ => []
  end.

Definition frame_size (f : list A * Z) : Z := size_of (Z.of_nat (length f.1)) f.2.

Lemma tail_head {B} (b : bool) (q : list B) (x : option B) l :
  (b = true → q ≠ []) → (∀ d, head q = Some d → x = Some d) →
  (if b then [x] else []) ++ (Some <$> (if b then tail q else q) ++ l) = Some <$> q ++ l.
Proof.
  intros Hb Hx. destruct b; [|done]. destruct q as [|d q]; [by specialize (Hb eq_refl)|].
  by rewrite (Hx d eq_refl).
Qed.

Lemma committed_next i v :
  committed (fv_packets (view_next i v))
  = elements_left i v ++ (if stores i v && end_frame i then line_written i v else []).
Proof.
  unfold view_next, stores. destruct (ci_wr_req i) eqn:E; cbn [negb andb];
    repeat case_match; cbn in *; rewrite ?app_nil_r; done.
Qed.

Lemma sizes_next i v :
  fv_sizes (view_next i v)
  = sizes_left i v ++ (if stores i v && end_frame i then [size_written i v] else []).
Proof.
  unfold view_next, stores. destruct (ci_wr_req i) eqn:E; cbn [negb andb];
    repeat case_match; cbn in *; rewrite ?app_nil_r; done.
Qed.

(** What is read and what is left is what was stored. *)
Lemma read_stored v ins os :
  legal_run frames_spec v ins → shows_run frames_spec v ins os →
  let v' := spec_after frames_spec v ins in
  data_read ins os ++ (Some <$> committed (fv_packets v'))
    = Some <$> committed (fv_packets v) ++ concat (map fst (stored v ins)) ∧
  sizes_read ins os ++ (Some <$> fv_sizes v')
    = Some <$> fv_sizes v ++ map frame_size (stored v ins).
Proof.
  revert v os. induction ins as [|i ins IH]; intros v [|o os] Hl Ho; try done.
  { cbn. by rewrite !app_nil_r. }
  destruct Hl as [(_ & Hr & Hz & _) Hl], Ho as [(_ & _ & Hd & _ & Hn) Ho].
  destruct (IH _ _ Hl Ho) as [IH1 IH2]. cbn [data_read sizes_read stored].
  change (spec_after frames_spec v (i :: ins)) with (spec_after frames_spec (view_next i v) ins).
  cbn [sp_next frames_spec] in IH1, IH2. cbv zeta in *.
  rewrite <- !app_assoc, IH1, IH2, committed_next, sizes_next. unfold elements_left, sizes_left.
  rewrite <- !app_assoc, !tail_head by done. split.
  - destruct (stores i v && end_frame i); [|done]. cbn. by rewrite <- ?app_assoc.
  - destruct (stores i v && end_frame i); done.
Qed.

(** A frame in progress is only kept while it is stored. *)
Record view_ok (v : frames_view) : Prop := {
  vo_inside : fv_storing v = true → fv_inside v = true;
  vo_empty : fv_storing v = false → in_progress (fv_packets v) = [];
  vo_cap : in_queue (fv_packets v) ≤ els_p }.

Lemma view_ok_next i v : view_ok v → view_ok (view_next i v).
Proof.
  intros [H1 H2 H3]. unfold view_next.
  assert (length (elements_left i v) ≤ length (committed (fv_packets v)))%nat as Hl
    by (unfold elements_left; destruct (ci_rd_req i); rewrite ?length_tl; lia).
  unfold in_queue in *. destruct (ci_wr_req i); cbn [negb].
  - destruct (stores i v) eqn:Es.
    + unfold stores, in_queue in Es. apply andb_true_iff in Es as [_ Es%bool_decide_eq_true].
      unfold line_written. destruct (end_frame i); split; unfold in_queue; cbn; try done; len.
    + split; unfold in_queue; cbn; try done; len.
  - split; unfold in_queue; cbn; try done; len.
Qed.

Lemma no_frames_ok : view_ok no_frames.
Proof. split; cbn; try done. pose proof (slots_pos log2_els_p). unfold in_queue. cbn. lia. Qed.

(** The frame being stored is the one the input has begun. *)
Lemma line_written_frame i v cur :
  view_ok v → (fv_storing v = true → in_progress (fv_packets v) = cur) →
  sp_legal frames_spec v i → stores i v = true →
  line_written i v = (if start_frame i then [] else cur) ++ [ci_wr_data i].
Proof.
  intros [H1 H2 _] Hcur (Hst & _) Hs. unfold stores in Hs. rewrite !andb_true_iff in Hs.
  destruct Hs as [[Hwr Hs] _]. specialize (Hst Hwr). unfold line_written.
  destruct (fv_storing v) eqn:E.
  - rewrite Hcur by done. by rewrite Hst, H1.
  - rewrite H2 by done. by rewrite orb_false_r in Hs; rewrite Hs.
Qed.

Lemma stored_sublist v cur ins :
  view_ok v → (fv_storing v = true → in_progress (fv_packets v) = cur) →
  legal_run frames_spec v ins → stored v ins `sublist_of` frames_of cur ins.
Proof.
  revert v cur. induction ins as [|i ins IH]; intros v cur Hv Hcur Hl; [done|].
  destruct Hl as [Hi Hl]. pose proof (view_ok_next i v Hv) as Hv'.
  pose proof (line_written_frame i v cur Hv Hcur Hi) as Hw. cbn [stored frames_of sp_next frames_spec] in *.
  specialize (IH (view_next i v)). unfold view_next in IH at 2 3.
  destruct (ci_wr_req i) eqn:Ewr; cbn [negb] in IH.
  - destruct (stores i v) eqn:Es; cbn [andb].
    + rewrite <- (Hw eq_refl). destruct (end_frame i); cbn [app].
      * apply sublist_skip. by apply IH.
      * by apply IH.
    + cbn [app]. destruct (end_frame i); [apply sublist_cons|]; by apply IH.
  - assert (stores i v = false) as -> by (unfold stores; by rewrite Ewr). by apply IH.
Qed.

Lemma stored_all v cur ins os :
  view_ok v → (fv_storing v = true → in_progress (fv_packets v) = cur) →
  (fv_inside v = true → fv_storing v = true) →
  legal_run frames_spec v ins → shows_run frames_spec v ins os →
  Forall (λ o, co_full o = false) os → stored v ins = frames_of cur ins.
Proof.
  revert v cur os. induction ins as [|i ins IH]; intros v cur [|o os] Hv Hcur Hin Hl Ho Hf; try done.
  destruct Hl as [Hi Hl], Ho as [(_ & Hfull & _) Ho]. apply Forall_cons in Hf as [Hf Hfs].
  pose proof (view_ok_next i v Hv) as Hv'.
  pose proof (line_written_frame i v cur Hv Hcur Hi) as Hw. cbn [stored frames_of sp_next frames_spec] in *.
  rewrite Hf in Hfull. symmetry in Hfull. apply bool_decide_eq_false in Hfull.
  assert (stores i v = ci_wr_req i) as Es.
  { unfold stores. rewrite bool_decide_eq_true_2 by (pose proof (vo_cap _ Hv); lia).
    rewrite andb_true_r. destruct (ci_wr_req i) eqn:E; [|done]. destruct Hi as [Hst _].
    rewrite Hst by done. destruct (fv_inside v); [by rewrite Hin|done]. }
  specialize (IH (view_next i v)). rewrite Es in *. unfold view_next in IH at 2 3 4 5. rewrite Es in IH.
  destruct (ci_wr_req i) eqn:Ewr; cbn [negb andb] in *.
  - rewrite <- (Hw eq_refl). destruct (end_frame i); cbn [app].
    + f_equal. by eapply IH.
    + by eapply IH.
  - by eapply IH.
Qed.

(** C27: frames are stored whole or dropped whole.  From any registers, after a
    cycle of reset, for lines that come in frames and a reader that reads only
    what is there, and the size of a packet with its last element at the latest:
    what is read is the data of the stored frames, in order, nothing lost; the
    sizes read are those of the same frames, in step with the data; the stored
    frames are frames of the input in its order; and none is dropped while the
    buffer does not fill. *)
Theorem packet_queue_controller_whole_frames s i0 ins :
  Z.of_nat (length (contents (pq_mem (drop_queue s)))) = els_p →
  Z.of_nat (length (contents (fifo_mem (pkt_size_queue s)))) = els_p →
  legal_run frames_spec no_frames ins →
  let os := outputs packet_queue_controller ins (c_next packet_queue_controller true i0 s) in
  let v := spec_after frames_spec no_frames ins in
  let kept := stored no_frames ins in
  data_read ins os ++ (Some <$> committed (fv_packets v)) = Some <$> concat (map fst kept) ∧
  sizes_read ins os ++ (Some <$> fv_sizes v) = Some <$> map frame_size kept ∧
  kept `sublist_of` frames_of [] ins ∧
  (Forall (λ o, co_full o = false) os → kept = frames_of [] ins).
Proof.
  intros H1 H2 Hl os v kept. pose proof (ctl_reset s i0 H1 H2) as H0.
  destruct (simulates_run _ _ _ _ _ ins ctl_simulates H0 Hl) as [Hs _]. fold os in Hs.
  destruct (read_stored no_frames ins os Hl Hs) as [Hd Hz].
  split; [exact Hd|]. split; [exact Hz|]. split.
  - by apply stored_sublist; [apply no_frames_ok| |].
  - intros Hf. by apply (stored_all no_frames [] ins os); [apply no_frames_ok| | | | |].
Qed.
End Controller.

Arguments controller A : clear implicits.
Arguments ctl_in A : clear implicits.
Arguments ctl_out A : clear implicits.

(** A line that starts a frame dumps the frame in progress, which has lost its
    end; but not when it also ends its frame: then it is committed with the
    lines of the other. *)
Lemma one_line_frame_joins {A} (d : A) pad rd srd :
  control WRITING_FRAME false (CtlIn true d true false pad rd srd)
    = ControlOut WRITING_FRAME true false true false ∧
  control WRITING_FRAME false (CtlIn true d true true pad rd srd)
    = ControlOut READY true true false true.
Proof. done. Qed.

(** Room for two lines: a frame of two, one that finds the buffer full, and one
    more when the first has been read. *)
Definition junk_controller : controller Z :=
  {| state_reg := PASS_FRAME;
     drop_queue := {| pq_wr_ptr_reg := 3; pq_rd_ptr_reg := 1; cm_ptr_reg := 2;
                      pq_mem := junk_ram [8; 9] |};
     pkt_size_queue := junk_fifo |}.
Definition sample_frames : list (ctl_in Z) :=
  [CtlIn true 10 true false 0 false false; CtlIn true 11 false true 4 false false;
   CtlIn true 12 true true 0 true false; CtlIn false 0 false false 0 true true;
   CtlIn true 13 true true 60 false false; CtlIn false 0 false false 0 true true].

Lemma sample_frames_legal : legal_run (frames_spec 1 6 14) no_frames sample_frames.
Proof. repeat split; vm_compute; intros; try done; lia. Defined.

Lemma packet_queue_controller_whole_frames_witness :
  let os := outputs (packet_queue_controller 0 1 6 14) sample_frames
              (c_next (packet_queue_controller 0 1 6 14) true (CtlIn true 5 true true 0 true true)
                 junk_controller) in
  let v := spec_after (frames_spec 1 6 14) no_frames sample_frames in
  let kept := [([10; 11], 4); ([13], 60)] in
  data_read sample_frames os ++ (Some <$> committed (fv_packets v)) = Some <$> [10; 11; 13] ∧
  sizes_read sample_frames os ++ (Some <$> fv_sizes v) = Some <$> [124; 4] ∧
  kept `sublist_of` frames_of [] sample_frames ∧
  (Forall (λ o, co_full o = false) os → kept = frames_of [] sample_frames).
Proof.
  apply (packet_queue_controller_whole_frames 0 1 6 14 ltac:(lia) junk_controller
           (CtlIn true 5 true true 0 true true) sample_frames).
  - reflexivity.
  - reflexivity.
  - exact sample_frames_legal.
Defined.
