(* ===== verification/ChksumCalc.v ===== *)
(** ChksumCalc: the adder tree of frontend/chksum_calc.sv, from its input
    stream to the entry it writes to its checksum queue, and its equivalence
    with the checksum of the C++.

    A vector the code cuts into lanes is the list of its lanes.  The two
    queues of the module are at its border: their ready signals are inputs. *)

From S2P Require Import Prelude Words Headers Checksum Rtl.

Section ChksumCalc.
Variable LEVELS : nat.
Variable USE_INIT_VALUE : bool.

Definition KEEP_WIDTH : nat := 2 ^ LEVELS.

(** ** The data *)

(** A stage of the adder tree: level [l] of the arrays [sum_*_reg]. *)
Record stage := Stage {
  sum_reg : list Z;
  sum_valid_reg : bool;
  sum_odd_reg : bool;
  sum_last_reg : bool;
  sum_enable_reg : bool;
  sum_offset_reg : Z;
  sum_init_reg : Z;
  sum_init_valid_reg : bool }.

Record chksum := Chksum {
  transfer_in_reg : bool;
  first_cycle_reg : bool;
  mask_reg : list bool;
  input_offset_reg : Z;
  sum_0 : stage;
  sum_rest : list stage;
  sum_acc_reg : Z;
  csum_in_csum_reg : Z;
  csum_in_offset_reg : Z;
  csum_in_enable_reg : bool;
  csum_in_valid_reg : bool }.

Record cmd := Cmd {
  csum_enable : bool;
  csum_start : Z;
  csum_offset : Z;
  csum_init : Z }.

Record chk_in := ChkIn {
  s_axis_tdata : list byte;
  s_axis_tkeep : list bool;
  s_axis_tvalid : bool;
  s_axis_tlast : bool;
  s_axis_cmd : cmd;
  s_axis_cmd_valid : bool;
  data_in_axis_tready : bool;
  csum_in_ready : bool }.

(** [co_csum] is the entry on the input of the checksum queue, if valid. *)
Record chk_out := ChkOut {
  s_axis_tready : bool;
  s_axis_cmd_ready : bool;
  co_csum : option (Z * Z * bool) }.

(** ** The input stream *)

Definition mask_shl (k : Z) : list bool := (λ j, k <=? Z.of_nat j) <$> seq 0 KEEP_WIDTH.

Definition tready (i : chk_in) (s : chksum) : bool :=
  data_in_axis_tready i && csum_in_ready i && transfer_in_reg s.
Definition accepts (i : chk_in) (s : chksum) : bool := s_axis_tvalid i && tready i s.
Definition accepts_cmd (i : chk_in) (s : chksum) : bool :=
  s_axis_cmd_valid i && negb (transfer_in_reg s).

Definition select (b : byte) (m : bool) : byte := if m then b else Byte.x00.
Definition s_axis_tdata_masked (i : chk_in) (s : chksum) : list byte :=
  zip_with select (s_axis_tdata i) (zip_with andb (s_axis_tkeep i) (mask_reg s)).

Definition word16 (b0 b1 : byte) : Z := byte.unsigned b0 * 2 ^ 8 + byte.unsigned b1.

Fixpoint sum_0_next (bs : list byte) : list Z :=
  match bs with
  | b0 :: b1 :: b2 :: b3 :: bs' => (word16 b0 b1 + word16 b2 b3) mod 2 ^ 17 :: sum_0_next bs'
  | _ => []
  end.

(** The registers the two handshakes set. *)
Definition input_next (rst : bool) (i : chk_in) (s : chksum) : bool * bool * list bool * Z :=
  let '(transfer, first, mask, off) :=
    if accepts i s then
      let off := input_offset_reg s in
      (if s_axis_tlast i then false else transfer_in_reg s, false,
       if 0 <? off then
         if Z.of_nat KEEP_WIDTH <=? off then replicate KEEP_WIDTH false else mask_shl off
       else replicate KEEP_WIDTH true,
       if 0 <? off then if Z.of_nat KEEP_WIDTH <=? off then off - Z.of_nat KEEP_WIDTH else 0
       else off)
    else (transfer_in_reg s, first_cycle_reg s, mask_reg s, input_offset_reg s) in
  let '(transfer, first, mask, off) :=
    if accepts_cmd i s then
      let start := csum_start (s_axis_cmd i) in
      (true, true,
       if Z.of_nat KEEP_WIDTH <=? start then replicate KEEP_WIDTH false else mask_shl start,
       if Z.of_nat KEEP_WIDTH <=? start then start - Z.of_nat KEEP_WIDTH else 0)
    else (transfer, first, mask, off) in
  (if rst then false else transfer, first, mask, off).

Definition sum_0_stage_next (rst : bool) (i : chk_in) (s : chksum) : stage :=
  let st := sum_0 s in
  {| sum_reg := sum_0_next (s_axis_tdata_masked i s);
     sum_valid_reg := if rst then false
                      else if accepts i s then true else sum_valid_reg st && negb (csum_in_ready i);
     sum_odd_reg := if rst then false
                    else if accepts_cmd i s then Z.odd (csum_start (s_axis_cmd i)) else sum_odd_reg st;
     sum_last_reg := if rst then false
                     else if accepts i s then s_axis_tlast i else sum_last_reg st;
     sum_enable_reg := if rst then false
                       else if accepts_cmd i s then csum_enable (s_axis_cmd i) else sum_enable_reg st;
     sum_offset_reg := if accepts_cmd i s then csum_offset (s_axis_cmd i) else sum_offset_reg st;
     sum_init_reg := if accepts_cmd i s then csum_init (s_axis_cmd i) else sum_init_reg st;
     sum_init_valid_reg := if rst then false
                           else if accepts i s then first_cycle_reg s else sum_init_valid_reg st |}.

(** ** The adder tree *)

(** [sum_next_new_val]: adjacent lanes of the level below, one bit wider. *)
Fixpoint sum_next_new_val (l : nat) (lanes : list Z) : list Z :=
  match lanes with
  | x :: y :: lanes' => (x + y) mod 2 ^ (17 + Z.of_nat l) :: sum_next_new_val l lanes'
  | _ => []
  end.

Definition clear_flags (st : stage) : stage :=
  {| sum_reg := sum_reg st; sum_valid_reg := false; sum_odd_reg := false; sum_last_reg := false;
     sum_enable_reg := false; sum_offset_reg := sum_offset_reg st; sum_init_reg := sum_init_reg st;
     sum_init_valid_reg := false |}.

(** [generate_levels]: a level takes what the level below holds. *)
Definition level_next (ready : bool) (l : nat) (below st : stage) : stage :=
  if sum_valid_reg below && ready then
    {| sum_reg := sum_next_new_val l (sum_reg below);
       sum_valid_reg := true;
       sum_odd_reg := sum_odd_reg below;
       sum_last_reg := sum_last_reg below;
       sum_enable_reg := sum_enable_reg below;
       sum_offset_reg := sum_offset_reg below;
       sum_init_reg := sum_init_reg below;
       sum_init_valid_reg := sum_init_valid_reg below |}
  else
    {| sum_reg := sum_reg st;
       sum_valid_reg := sum_valid_reg st && negb ready;
       sum_odd_reg := sum_odd_reg st;
       sum_last_reg := sum_last_reg st;
       sum_enable_reg := sum_enable_reg st;
       sum_offset_reg := sum_offset_reg st;
       sum_init_reg := sum_init_reg st;
       sum_init_valid_reg := sum_init_valid_reg st |}.

Fixpoint levels_next (rst ready : bool) (l : nat) (below : stage) (sts : list stage) : list stage :=
  match sts with
  | [] => []
  | st :: sts' =>
      (if rst then clear_flags (level_next ready l below st) else level_next ready l below st)
      :: levels_next rst ready (S l) st sts'
  end.

(** ** The accumulator *)

(** [sum_acc_temp], from the lane of the last level. *)
Definition sum_acc_temp (lane acc : Z) : Z :=
  let w := 16 + Z.of_nat LEVELS in
  let t := (lane mod 2 ^ (w - 1) + acc) mod 2 ^ w in
  let t := (t mod 2 ^ 16 + Z.shiftr t 16) mod 2 ^ w in
  (t mod 2 ^ 16 + Z.shiftr t 16 mod 2) mod 2 ^ w.

Definition csum_in_csum (odd : bool) (t : Z) : Z :=
  let lo := u8 (Z.lnot (t mod 2 ^ 8)) in
  let hi := u8 (Z.lnot (Z.shiftr t 8 mod 2 ^ 8)) in
  if odd then Z.lor (Z.shiftl lo 8) hi else Z.lor (Z.shiftl hi 8) lo.

Definition chksum_next (rst : bool) (i : chk_in) (s : chksum) : chksum :=
  let '(transfer, first, mask, off) := input_next rst i s in
  let top := List.last (sum_rest s) (sum_0 s) in
  let t := sum_acc_temp (hd 0 (sum_reg top))
             (if sum_init_valid_reg top && USE_INIT_VALUE then sum_init_reg top else sum_acc_reg s) in
  let go := sum_valid_reg top && csum_in_ready i in
  let done := go && sum_last_reg top in
  {| transfer_in_reg := transfer;
     first_cycle_reg := first;
     mask_reg := mask;
     input_offset_reg := off;
     sum_0 := sum_0_stage_next rst i s;
     sum_rest := levels_next rst (csum_in_ready i) 1 (sum_0 s) (sum_rest s);
     sum_acc_reg := if go then if sum_last_reg top then 0 else t mod 2 ^ 16 else sum_acc_reg s;
     csum_in_csum_reg := if done then csum_in_csum (sum_odd_reg top) t else csum_in_csum_reg s;
     csum_in_offset_reg := if done then sum_offset_reg top else csum_in_offset_reg s;
     csum_in_enable_reg := if done then sum_enable_reg top else csum_in_enable_reg s;
     csum_in_valid_reg := if rst then false else done |}.

Definition chksum_show (s : chksum) (i : chk_in) : chk_out :=
  {| s_axis_tready := tready i s;
     s_axis_cmd_ready := negb (transfer_in_reg s);
     co_csum := if csum_in_valid_reg s
                then Some (csum_in_csum_reg s, csum_in_offset_reg s, csum_in_enable_reg s)
                else None |}.

Definition chksum_calc : circuit chksum chk_in chk_out := Circuit chksum_show chksum_next.

(** ** What it promises

    Cycle by cycle, without the tree: the command and the bytes of the frame
    that is coming in, and the checksums on their way. *)

(** The bytes of a beat, those that are not kept being zero. *)
Definition kept (i : chk_in) : list byte := zip_with select (s_axis_tdata i) (s_axis_tkeep i).

(** The initial value as the first bytes of the message. *)
Definition init_bytes (c : cmd) : list byte :=
  if USE_INIT_VALUE
  then if Z.odd (csum_start c) then le_split 2 (csum_init c) else be_split 2 (csum_init c)
  else [].

(** The checksum of a frame, as the software has it, with its first byte in the
    upper half. *)
Definition frame_csum (c : cmd) (bs : list byte) : Z * Z * bool :=
  (htons (rfc1071 (init_bytes c ++ drop (Z.to_nat (csum_start c)) bs)), csum_offset c, csum_enable c).

Record csum_view := CsumView {
  v_frame : option (cmd * list byte);
  v_line : list (option (Z * Z * bool)) }.

(** The frame after a cycle, and the checksum it completes. *)
Definition frame_next (i : chk_in) (fr : option (cmd * list byte))
    : option (cmd * list byte) * option (Z * Z * bool) :=
  match fr with
  | None => (if s_axis_cmd_valid i then Some (s_axis_cmd i, []) else None, None)
  | Some (c, bs) =>
      if s_axis_tvalid i && data_in_axis_tready i then
        if s_axis_tlast i then (None, Some (frame_csum c (bs ++ kept i)))
        else (Some (c, bs ++ kept i), None)
      else (fr, None)
  end.

Definition csum_spec : spec csum_view chk_in chk_out := {|
  sp_legal q i :=
    length (s_axis_tdata i) = KEEP_WIDTH ∧ length (s_axis_tkeep i) = KEEP_WIDTH ∧
    0 ≤ csum_start (s_axis_cmd i) < 2 ^ 8 ∧ fits 2 (csum_init (s_axis_cmd i)) ∧
    csum_in_ready i = true;
  sp_shows q i o :=
    s_axis_tready o = data_in_axis_tready i && bool_decide (is_Some (v_frame q)) ∧
    s_axis_cmd_ready o = bool_decide (v_frame q = None) ∧
    Some (co_csum o) = head (v_line q);
  sp_next i q :=
    let '(fr, res) := frame_next i (v_frame q) in CsumView fr (tail (v_line q) ++ [res]) |}.
End ChksumCalc.

(** ** Sums of bytes by position *)

(** Bytes weigh 256 and 1 in turn. *)
Fixpoint wsum (high : bool) (bs : list byte) : Z :=
  match bs with
  | [] => 0
  | b :: bs' => byte.unsigned b * (if high then 256 else 1) + wsum (negb high) bs'
  end.

Lemma byte_bound b : 0 ≤ byte.unsigned b < 256.
Proof. apply byte.unsigned_range. Qed.

Lemma wsum_nonneg h bs : 0 ≤ wsum h bs.
Proof.
  revert h. induction bs as [|b bs IH]; intros h; [done|]. cbn.
  pose proof (byte_bound b). specialize (IH (negb h)). destruct h; lia.
Qed.

Lemma wsum_app h l1 l2 :
  wsum h (l1 ++ l2) = wsum h l1 + wsum (xorb h (Nat.odd (length l1))) l2.
Proof.
  revert h. induction l1 as [|b l1 IH]; intros h; [by rewrite xorb_false_r|].
  cbn [app wsum length]. rewrite IH, Nat.odd_succ, <- Nat.negb_odd.
  destruct h, (Nat.odd (length l1)); cbn; lia.
Qed.

Lemma le_combine_step b bs : le_combine (b :: bs) = byte.unsigned b + 256 * le_combine bs.
Proof.
  change (le_combine (b :: bs)) with (Z.lor (byte.unsigned b) (Z.shiftl (le_combine bs) 8)).
  pose proof (byte_bound b). rewrite lor_shiftl_add by lia.
  change (2 ^ 8) with 256. lia.
Qed.

Lemma wsum_low bs : wsum false bs = word_sum bs.
Proof.
  unfold word_sum. induction bs as [|b|b0 b1 bs IH] using words_ind; cbn [wsum negb words foldr].
  - done.
  - rewrite !le_combine_step. change (le_combine []) with 0.
    change (byte.unsigned Byte.x00) with 0. lia.
  - rewrite IH, !le_combine_step. change (le_combine []) with 0. lia.
Qed.

(** The other byte order is the same sum, up to the end-around carry. *)
Lemma wsum_high bs : (wsum true bs - 256 * wsum false bs) mod 65535 = 0.
Proof.
  induction bs as [|b|b0 b1 bs IH] using words_ind; [done|cbn [wsum negb]..].
  - by replace (_ - _) with 0 by lia.
  - replace (_ - _) with (wsum true bs - 256 * wsum false bs + (- byte.unsigned b1) * 65535) by lia.
    by rewrite Z.mod_add.
Qed.

Lemma wsum_zero h bs : wsum h bs = 0 ↔ wsum (negb h) bs = 0.
Proof.
  revert h. induction bs as [|b bs IH]; intros h; [done|]. cbn.
  pose proof (byte_bound b). pose proof (wsum_nonneg (negb h) bs).
  pose proof (wsum_nonneg (negb (negb h)) bs). specialize (IH (negb h)).
  destruct h; cbn in *; lia.
Qed.

(** ** One's complement folding *)

Lemma onec_norm_unique t x :
  0 ≤ t → 0 ≤ x ≤ 65535 → (t - x) mod 65535 = 0 → (x = 0 ↔ t = 0) → x = onec_norm t.
Proof.
  intros Ht Hx Hm Hz. unfold onec_norm. destruct (Z.eqb_spec t 0); [tauto|].
  Z.div_mod_to_equations. nia.
Qed.

Lemma onec_norm_mod t : 0 ≤ t → (t - onec_norm t) mod 65535 = 0 ∧ (onec_norm t = 0 ↔ t = 0).
Proof.
  intros Ht. unfold onec_norm. destruct (Z.eqb_spec t 0); Z.div_mod_to_equations; nia.
Qed.

Lemma onec_norm_acc s t : 0 ≤ s → 0 ≤ t → onec_norm (s + onec_norm t) = onec_norm (s + t).
Proof.
  intros Hs Ht. destruct (onec_norm_mod t Ht) as [Hm Hz]. pose proof (onec_norm_bounds t Ht).
  destruct (onec_norm_mod (s + onec_norm t)) as [Hm' Hz']; [lia|].
  apply onec_norm_unique; [lia|apply onec_norm_bounds; lia| |lia].
  clear Hz Hz'. Z.div_mod_to_equations. lia.
Qed.

Lemma le_combine_two b0 b1 : le_combine [b0; b1] = byte.unsigned b0 + 256 * byte.unsigned b1.
Proof. rewrite !le_combine_step. change (le_combine []) with 0. lia. Qed.

Lemma htons_swap z : fits 2 z → htons z = 256 * (z mod 256) + z / 256.
Proof.
  intros Hz. unfold htons, bswap. rewrite <- (le_combine_split_fits 2 z Hz) at 2 3.
  destruct (le_split 2 z) as [|b0 [|b1 [|]]] eqn:E;
    try (apply (f_equal length) in E; rewrite le_split_length in E; discriminate).
  change (reverse [b0; b1]) with [b1; b0]. rewrite !le_combine_two.
  pose proof (byte_bound b0). pose proof (byte_bound b1). Z.div_mod_to_equations. lia.
Qed.

(** Swapping the bytes of a one's complement sum is multiplying it by 256. *)
Lemma onec_norm_swap x y :
  0 ≤ x → 0 ≤ y → (y - 256 * x) mod 65535 = 0 → (x = 0 ↔ y = 0) →
  onec_norm y = htons (onec_norm x).
Proof.
  intros Hx Hy Hm Hz. destruct (onec_norm_mod x Hx) as [Hmx Hzx].
  pose proof (onec_norm_bounds x Hx).
  symmetry. rewrite htons_swap by (unfold fits; change (2 ^ (8 * Z.of_nat 2)) with 65536; lia).
  apply onec_norm_unique; [done| | |]; Z.div_mod_to_equations; nia.
Qed.

(** *** The words of the code *)

Lemma htons_lnot t : 0 ≤ t ≤ 65535 → htons (65535 - t) = 65535 - htons t.
Proof.
  intros Ht. rewrite !htons_swap by (unfold fits; change (2 ^ (8 * Z.of_nat 2)) with 65536; lia).
  Z.div_mod_to_equations. lia.
Qed.

Lemma u8_lnot z : 0 ≤ z < 256 → u8 (Z.lnot z) = 255 - z.
Proof.
  intros. unfold u8, Z.lnot. change (2 ^ 8) with 256. Z.div_mod_to_equations. lia.
Qed.

Lemma csum_in_csum_eq odd t :
  0 ≤ t ≤ 65535 → csum_in_csum odd t = if odd then htons (65535 - t) else 65535 - t.
Proof.
  intros Ht. unfold csum_in_csum.
  rewrite Z.shiftr_div_pow2 by lia. change (2 ^ 8) with 256.
  rewrite (Z.mod_small (t / 256)) by (Z.div_mod_to_equations; lia).
  rewrite !u8_lnot by (Z.div_mod_to_equations; lia).
  rewrite htons_swap by (unfold fits; change (2 ^ (8 * Z.of_nat 2)) with 65536; lia).
  destruct odd; rewrite Z.lor_comm, lor_shiftl_add by (Z.div_mod_to_equations; lia);
    change (2 ^ 8) with 256; Z.div_mod_to_equations; lia.
Qed.

Lemma sum_acc_temp_norm (LEVELS : nat) s a :
  (2 ≤ LEVELS ≤ 15)%nat → 0 ≤ s ≤ 2 ^ (Z.of_nat LEVELS - 1) * 65535 → 0 ≤ a ≤ 65535 →
  sum_acc_temp LEVELS s a = onec_norm (s + a).
Proof.
  intros HL Hs Ha. unfold sum_acc_temp. set (L := Z.of_nat LEVELS) in *.
  assert (2 ^ (16 + L) = 131072 * 2 ^ (L - 1)) as ->.
  { replace (16 + L) with (17 + (L - 1)) by lia. by rewrite Z.pow_add_r by lia. }
  assert (2 ^ (16 + L - 1) = 65536 * 2 ^ (L - 1)) as ->.
  { replace (16 + L - 1) with (16 + (L - 1)) by lia. by rewrite Z.pow_add_r by lia. }
  assert (2 ≤ 2 ^ (L - 1) ≤ 2 ^ 14) as HP.
  { split; [change 2 with (2 ^ 1) at 1|]; apply Z.pow_le_mono_r; lia. }
  set (P := 2 ^ (L - 1)) in *. change (2 ^ 14) with 16384 in HP. clearbody P L. clear HL.
  rewrite !Z.shiftr_div_pow2 by lia. change (2 ^ 16) with 65536.
  rewrite (Z.mod_small s), (Z.mod_small (s + a)) by lia.
  assert (0 ≤ (s + a) / 65536 ≤ P) by (Z.div_mod_to_equations; nia).
  assert (0 ≤ (s + a) mod 65536 < 65536) by (by apply Z.mod_pos_bound).
  rewrite (Z.mod_small ((s + a) mod 65536 + _)) by lia.
  set (t := (s + a) mod 65536 + (s + a) / 65536).
  assert (Ht : (s + a - t) mod 65535 = 0 ∧ 0 ≤ t ≤ 65535 + P ∧ (t = 0 ↔ s + a = 0)).
  { unfold t. Z.div_mod_to_equations. nia. }
  clearbody t. destruct Ht as (Hm & Ht & Hz).
  rewrite (Z.mod_small (t / 65536)) by (Z.div_mod_to_equations; lia).
  rewrite Z.mod_small by (Z.div_mod_to_equations; nia).
  apply onec_norm_unique; [lia|..]; Z.div_mod_to_equations; nia.
Qed.

(** ** Masks *)

Section Correct.
Context {LEVELS : nat} {USE_INIT_VALUE : bool}.
Hypothesis levels_bound : (3 ≤ LEVELS ≤ 15)%nat.
Local Abbreviation KEEP_WIDTH := (KEEP_WIDTH LEVELS).
Local Abbreviation mask_shl := (mask_shl LEVELS).

Lemma length_mask k : length (mask_shl k) = KEEP_WIDTH.
Proof. unfold ChksumCalc.mask_shl. by rewrite length_fmap, length_seq. Qed.

Lemma mask_all k : k ≤ 0 → mask_shl k = replicate KEEP_WIDTH true.
Proof.
  intros Hk. symmetry. apply replicate_as_elem_of. split; [by rewrite length_mask|].
  intros b (j & -> & Hj)%list_elem_of_fmap. apply elem_of_seq in Hj. lia.
Qed.

Lemma mask_none k : Z.of_nat KEEP_WIDTH ≤ k → mask_shl k = replicate KEEP_WIDTH false.
Proof.
  intros Hk. symmetry. apply replicate_as_elem_of. split; [by rewrite length_mask|].
  intros b (j & -> & Hj)%list_elem_of_fmap. apply elem_of_seq in Hj. lia.
Qed.

Lemma keep_width_four : (KEEP_WIDTH mod 4 = 0)%nat.
Proof.
  unfold ChksumCalc.KEEP_WIDTH. replace LEVELS with (2 + (LEVELS - 2))%nat by lia.
  rewrite Nat.pow_add_r. change (2 ^ 2)%nat with 4%nat. by rewrite Nat.mul_comm, Nat.Div0.mod_mul.
Qed.

Lemma keep_width_even n : (n mod 2 = 0)%nat → ((n + KEEP_WIDTH) mod 2 = 0)%nat.
Proof.
  intros Hn. pose proof keep_width_four as Hk.
  pose proof (Nat.div_mod_eq KEEP_WIDTH 4). pose proof (Nat.div_mod_eq n 2).
  replace (n + KEEP_WIDTH)%nat with ((n / 2 + 2 * (KEEP_WIDTH / 4)) * 2)%nat by lia.
  apply Nat.Div0.mod_mul.
Qed.

(** Masking and then weighing is dropping and then weighing. *)
Lemma wsum_masked bs h k a :
  wsum h (zip_with select bs ((λ j, k <=? Z.of_nat j) <$> seq a (length bs)))
  = wsum (xorb h (Z.odd (Z.max (k - Z.of_nat a) 0))) (drop (Z.to_nat (k - Z.of_nat a)) bs).
Proof.
  revert h a. induction bs as [|b bs IH]; intros h a; [by rewrite drop_nil|].
  cbn [length seq fmap list_fmap zip_with wsum]. rewrite IH.
  destruct (Z.leb_spec k (Z.of_nat a)) as [Hk|Hk]; cbn [select].
  - rewrite !Z.max_r by lia. rewrite !Z2Nat.nonpos by lia.
    cbn [drop wsum Z.odd]. by rewrite !xorb_false_r.
  - change (byte.unsigned Byte.x00) with 0. rewrite !Z.max_l by lia.
    replace (Z.to_nat (k - Z.of_nat a)) with (S (Z.to_nat (k - Z.of_nat (S a)))) by lia.
    cbn [drop]. rewrite Z.mul_0_l, Z.add_0_l. f_equal.
    replace (k - Z.of_nat a) with (Z.succ (k - Z.of_nat (S a))) by lia.
    rewrite Z.odd_succ, <- Z.negb_odd. by destruct h, (Z.odd (k - Z.of_nat (S a))).
Qed.

Lemma zip_select (bs : list byte) (keep mask : list bool) :
  zip_with select bs (zip_with andb keep mask) = zip_with select (zip_with select bs keep) mask.
Proof.
  revert keep mask. induction bs as [|b bs IH]; intros [|k keep] [|m mask]; try done.
  cbn. rewrite IH. f_equal. by destruct k, m.
Qed.

(** ** The adder tree *)

Definition lanes_sum (lanes : list Z) : Z := foldr Z.add 0 lanes.

Lemma sum_0_next_lanes n bs :
  length bs = (4 * n)%nat →
  lanes_sum (sum_0_next bs) = wsum true bs ∧ length (sum_0_next bs) = n ∧
  Forall (λ x, 0 ≤ x ≤ 2 * 65535) (sum_0_next bs).
Proof.
  revert bs. induction n as [|n IH]; intros [|b0 [|b1 [|b2 [|b3 bs]]]] Hl; cbn in Hl; try lia.
  { done. }
  destruct (IH bs) as (H1 & H2 & H3); [lia|]. cbn [sum_0_next wsum negb length lanes_sum foldr].
  unfold lanes_sum in H1. rewrite H1, H2. unfold word16.
  pose proof (byte_bound b0). pose proof (byte_bound b1).
  pose proof (byte_bound b2). pose proof (byte_bound b3).
  rewrite Z.mod_small by lia. split; [lia|]. split; [done|]. constructor; [lia|done].
Qed.

Lemma sum_next_lanes l n M lanes :
  length lanes = (2 * n)%nat → Forall (λ x, 0 ≤ x ≤ M) lanes → 2 * M < 2 ^ (17 + Z.of_nat l) →
  lanes_sum (sum_next_new_val l lanes) = lanes_sum lanes ∧
  length (sum_next_new_val l lanes) = n ∧
  Forall (λ x, 0 ≤ x ≤ 2 * M) (sum_next_new_val l lanes).
Proof.
  intros Hl Hf HM. revert lanes Hl Hf.
  induction n as [|n IH]; intros [|x [|y lanes]] Hl Hf; cbn in Hl; try lia.
  { done. }
  apply Forall_cons in Hf as [Hx Hf]. apply Forall_cons in Hf as [Hy Hf].
  destruct (IH lanes) as (H1 & H2 & H3); [lia|done|].
  cbn [sum_next_new_val length lanes_sum foldr]. unfold lanes_sum in H1. rewrite H1, H2.
  rewrite Z.mod_small by lia. split; [lia|]. split; [done|]. constructor; [lia|done].
Qed.

(** A beat on its way through the tree. *)
Record item := Item {
  it_sum : Z;
  it_first : bool;
  it_last : bool;
  it_cmd : cmd }.

Definition stage_cmd (st : stage) (c : cmd) : Prop :=
  sum_odd_reg st = Z.odd (csum_start c) ∧ sum_enable_reg st = csum_enable c ∧
  sum_offset_reg st = csum_offset c ∧ sum_init_reg st = csum_init c.

Definition lanes_hold (l : nat) (lanes : list Z) (total : Z) : Prop :=
  lanes_sum lanes = total ∧ length lanes = (2 ^ (LEVELS - 2 - l))%nat ∧
  Forall (λ x, 0 ≤ x ≤ 2 ^ (1 + Z.of_nat l) * 65535) lanes.

Definition stage_holds (l : nat) (st : stage) (it : option item) : Prop :=
  match it with
  | None => sum_valid_reg st = false
  | Some it =>
      sum_valid_reg st = true ∧ sum_init_valid_reg st = it_first it ∧
      sum_last_reg st = it_last it ∧ stage_cmd st (it_cmd it) ∧
      lanes_hold l (sum_reg st) (it_sum it)
  end.

Fixpoint stages_hold (l : nat) (sts : list stage) (its : list (option item)) : Prop :=
  match sts, its with
  | [], [] => True
  | st :: sts', it :: its' => stage_holds l st it ∧ stages_hold (S l) sts' its'
  | _, _ => False
  end.

Lemma lanes_hold_next l lanes total :
  (S l ≤ LEVELS - 2)%nat → lanes_hold l lanes total →
  lanes_hold (S l) (sum_next_new_val (S l) lanes) total.
Proof.
  intros Hl (Hs & Hn & Hb). unfold lanes_hold.
  replace (1 + Z.of_nat (S l)) with (1 + (1 + Z.of_nat l)) by lia.
  rewrite Z.pow_add_r, <- Z.mul_assoc by lia. change (2 ^ 1) with 2.
  destruct (sum_next_lanes (S l) (2 ^ (LEVELS - 2 - S l)) (2 ^ (1 + Z.of_nat l) * 65535) lanes)
    as (H1 & H2 & H3).
  - rewrite Hn, <- Nat.pow_succ_r'. f_equal. lia.
  - done.
  - replace (17 + Z.of_nat (S l)) with (17 + (1 + Z.of_nat l)) by lia.
    rewrite (Z.pow_add_r 2 17) by lia. change (2 ^ 17) with 131072.
    pose proof (Z.pow_pos_nonneg 2 (1 + Z.of_nat l)). lia.
  - by rewrite H1.
Qed.

Lemma level_next_holds l below st it :
  (S l ≤ LEVELS - 2)%nat → stage_holds l below it → stage_holds (S l) (level_next true (S l) below st) it.
Proof.
  intros Hl. destruct it as [it|]; cbn [stage_holds]; unfold level_next.
  - intros (-> & H1 & H2 & H3 & H4). cbn. split_and!; try done. by apply lanes_hold_next.
  - intros ->. cbn. by rewrite andb_false_r.
Qed.

Lemma levels_next_holds l below sts its :
  (l + length sts ≤ LEVELS - 2)%nat → stages_hold l (below :: sts) its →
  stages_hold (S l) (levels_next false true (S l) below sts) (removelast its).
Proof.
  revert l below its. induction sts as [|st sts IH]; intros l below [|x its] Hl Hs; try done.
  - destruct Hs as [_ Hs]. by destruct its.
  - destruct Hs as [Hx Hs]. destruct its as [|y its]; [done|].
    change (removelast (x :: y :: its)) with (x :: removelast (y :: its)).
    cbn [length] in Hl. split; [apply level_next_holds; [lia|done]|]. apply IH; [lia|done].
Qed.

Lemma last_cons_default {B} (x d : B) l : List.last (x :: l) d = List.last l x.
Proof.
  revert x d. induction l as [|y l IH]; intros x d; [done|].
  change (List.last (y :: l) d = List.last (y :: l) x). by rewrite !IH.
Qed.

Lemma stages_hold_top l st sts its :
  stages_hold l (st :: sts) its →
  stage_holds (l + length sts) (List.last sts st) (List.last its None).
Proof.
  revert l st its. induction sts as [|st' sts IH]; intros l st [|x its] Hs; try done.
  - destruct Hs as [Hx Hs]. destruct its; [|done]. by rewrite Nat.add_0_r.
  - destruct Hs as [_ Hs]. destruct its as [|y its]; [done|].
    rewrite last_cons_default. change (List.last (x :: y :: its) None) with (List.last (y :: its) None).
    cbn [length]. rewrite Nat.add_succ_r, <- Nat.add_succ_l. by apply IH.
Qed.

(** ** The accumulator over the beats that leave the tree *)

Definition init_or (a : Z) (it : item) : Z :=
  if it_first it && USE_INIT_VALUE then csum_init (it_cmd it) else a.
Definition item_acc (a : Z) (it : item) : Z := sum_acc_temp LEVELS (it_sum it) (init_or a it).
Definition item_csum (a : Z) (it : item) : Z * Z * bool :=
  (csum_in_csum (Z.odd (csum_start (it_cmd it))) (item_acc a it),
   csum_offset (it_cmd it), csum_enable (it_cmd it)).

(** The entries for the checksum queue, cycle by cycle, and the accumulator
    after them. *)
Fixpoint entries (a : Z) (its : list (option item)) : list (option (Z * Z * bool)) :=
  match its with
  | [] => []
  | None :: its' => None :: entries a its'
  | Some it :: its' =>
      if it_last it then Some (item_csum a it) :: entries 0 its'
      else None :: entries (item_acc a it mod 2 ^ 16) its'
  end.
Fixpoint acc_after (a : Z) (its : list (option item)) : Z :=
  match its with
  | [] => a
  | None :: its' => acc_after a its'
  | Some it :: its' => acc_after (if it_last it then 0 else item_acc a it mod 2 ^ 16) its'
  end.

Lemma entries_app a l1 l2 : entries a (l1 ++ l2) = entries a l1 ++ entries (acc_after a l1) l2.
Proof.
  revert a. induction l1 as [|[it|] l1 IH]; intros a; [done|cbn..].
  - destruct (it_last it); cbn; by rewrite IH.
  - by rewrite IH.
Qed.
Lemma acc_after_app a l1 l2 : acc_after a (l1 ++ l2) = acc_after (acc_after a l1) l2.
Proof. revert a. induction l1 as [|[it|] l1 IH]; intros a; [done|cbn; by rewrite IH..]. Qed.

(** ** The frame coming in *)

(** The weight of the bytes of a frame that count. *)
Definition frame_sum (c : cmd) (bs : list byte) : Z :=
  wsum (Z.even (csum_start c)) (drop (Z.to_nat (csum_start c)) bs).
Definition init_sum (c : cmd) : Z := if USE_INIT_VALUE then csum_init c else 0.

Definition cmd_ok (c : cmd) : Prop := 0 ≤ csum_start c < 2 ^ 8 ∧ fits 2 (csum_init c).

(** The accumulator once the beats in the tree have left it. *)
Definition acc_ok (a : Z) (fr : option (cmd * list byte)) : Prop :=
  match fr with
  | Some (c, b :: bs) => a = onec_norm (init_sum c + frame_sum c (b :: bs))
  | _ => USE_INIT_VALUE = false → a = 0
  end ∧ 0 ≤ a ≤ 65535.

Definition front_ok (s : chksum) (fr : option (cmd * list byte)) : Prop :=
  match fr with
  | None => transfer_in_reg s = false
  | Some (c, bs) =>
      let k := csum_start c - Z.of_nat (length bs) in
      transfer_in_reg s = true ∧ first_cycle_reg s = bool_decide (bs = []) ∧
      mask_reg s = mask_shl k ∧ input_offset_reg s = Z.max 0 (k - Z.of_nat KEEP_WIDTH) ∧
      stage_cmd (sum_0 s) c ∧ (length bs mod 2 = 0)%nat ∧ cmd_ok c
  end.

(** The entry on show does not depend on the inputs. *)
Definition idle : chk_in := ChkIn [] [] false false (Cmd false 0 0 0) false false true.

Record chk_rel (s : chksum) (q : csum_view) : Prop := {
  cr_front : front_ok s (v_frame q);
  cr_depth : length (sum_rest s) = (LEVELS - 2)%nat;
  cr_tree : ∃ its, stages_hold 0 (sum_0 s :: sum_rest s) its ∧
    acc_ok (acc_after (sum_acc_reg s) (rev its)) (v_frame q) ∧
    v_line q = co_csum (chksum_show s idle) :: entries (sum_acc_reg s) (rev its) }.

Lemma nat_odd n : Nat.odd n = Z.odd (Z.of_nat n).
Proof.
  induction n as [|n IH]; [done|].
  by rewrite Nat.odd_succ, Nat2Z.inj_succ, Z.odd_succ, <- Nat.negb_odd, <- Z.negb_odd, IH.
Qed.

Lemma frame_sum_app c bs k' :
  (length bs mod 2 = 0)%nat → 0 ≤ csum_start c →
  let k := csum_start c - Z.of_nat (length bs) in
  frame_sum c (bs ++ k') =
  frame_sum c bs + wsum (xorb true (Z.odd (Z.max k 0))) (drop (Z.to_nat k) k').
Proof.
  intros Hev Hc k. unfold frame_sum. rewrite drop_app, wsum_app. f_equal.
  assert (Z.to_nat (csum_start c) - length bs = Z.to_nat k)%nat as -> by lia. f_equal.
  assert (Z.odd (Z.of_nat (length bs)) = false) as Hodd.
  { rewrite <- nat_odd. destruct (Nat.odd (length bs)) eqn:E; [|done].
    apply Nat.odd_spec in E as [m E]. pose proof (Nat.div_mod_eq (length bs) 2). lia. }
  rewrite nat_odd, length_drop, Nat2Z.inj_sub_max, Z2Nat.id, <- Z.negb_odd by lia.
  assert (Z.odd k = Z.odd (csum_start c)) as Hk
    by (unfold k; rewrite Z.odd_sub, Hodd; apply xorb_false_r).
  destruct (Z.le_gt_cases k 0).
  - rewrite (Z.max_r k), (Z.max_r 0) by lia. rewrite Z.odd_sub, Hodd.
    by destruct (Z.odd (csum_start c)).
  - rewrite (Z.max_l k), (Z.max_l 0), Hk by lia. by destruct (Z.odd (csum_start c)).
Qed.

(** *** A beat that is accepted *)

Definition beat_item (i : chk_in) (s : chksum) (c : cmd) (first : bool) : item :=
  Item (wsum true (s_axis_tdata_masked i s)) first (s_axis_tlast i) c.

Lemma beat_sum i s c bs :
  front_ok s (Some (c, bs)) → length (s_axis_tdata i) = KEEP_WIDTH →
  length (s_axis_tkeep i) = KEEP_WIDTH →
  frame_sum c (bs ++ kept i) = frame_sum c bs + wsum true (s_axis_tdata_masked i s).
Proof.
  intros (_ & _ & Hm & _ & _ & Hev & Hc & _) Hd Hk.
  rewrite frame_sum_app by (done || lia). f_equal.
  unfold s_axis_tdata_masked. rewrite zip_select, Hm. fold (kept i).
  assert (length (kept i) = KEEP_WIDTH) as Hl
    by (unfold kept; rewrite length_zip_with; lia).
  unfold ChksumCalc.mask_shl. rewrite <- Hl, wsum_masked. by rewrite Z.sub_0_r.
Qed.

Lemma frame_sum_nonneg c bs : 0 ≤ frame_sum c bs.
Proof. apply wsum_nonneg. Qed.
Lemma init_sum_bounds c : cmd_ok c → 0 ≤ init_sum c ≤ 65535.
Proof.
  unfold cmd_ok, init_sum, fits. change (2 ^ (8 * Z.of_nat 2)) with 65536.
  destruct USE_INIT_VALUE; lia.
Qed.

Lemma lanes_sum_bound M lanes :
  Forall (λ x, 0 ≤ x ≤ M) lanes → 0 ≤ lanes_sum lanes ≤ Z.of_nat (length lanes) * M.
Proof.
  unfold lanes_sum. induction 1 as [|x lanes Hx Hf IH]; cbn [foldr length]; [lia|].
  rewrite Nat2Z.inj_succ. lia.
Qed.

Lemma beat_lanes i s :
  length (s_axis_tdata i) = KEEP_WIDTH → length (s_axis_tkeep i) = KEEP_WIDTH →
  length (mask_reg s) = KEEP_WIDTH →
  lanes_hold 0 (sum_0_next (s_axis_tdata_masked i s)) (wsum true (s_axis_tdata_masked i s)).
Proof.
  intros Hd Hk Hm.
  destruct (sum_0_next_lanes (2 ^ (LEVELS - 2)) (s_axis_tdata_masked i s)) as (H1 & H2 & H3).
  - unfold s_axis_tdata_masked. rewrite !length_zip_with, Hd, Hk, Hm, !Nat.min_id.
    unfold ChksumCalc.KEEP_WIDTH. change 4%nat with (2 ^ 2)%nat. rewrite <- Nat.pow_add_r.
    f_equal. lia.
  - split; [done|]. by rewrite Nat.sub_0_r.
Qed.

Lemma lanes_hold_bound l lanes total :
  (l ≤ LEVELS - 2)%nat → lanes_hold l lanes total →
  0 ≤ total ≤ 2 ^ (Z.of_nat LEVELS - 1) * 65535.
Proof.
  intros Hl (<- & Hn & Hf). pose proof (lanes_sum_bound _ _ Hf) as Hb. rewrite Hn in Hb.
  rewrite Nat2Z.inj_pow, Z.mul_assoc, <- Z.pow_add_r in Hb by lia.
  by replace (Z.of_nat (LEVELS - 2 - l) + (1 + Z.of_nat l)) with (Z.of_nat LEVELS - 1) in Hb by lia.
Qed.

(** The accumulator after a beat of the frame. *)
Lemma beat_acc i s c bs a :
  front_ok s (Some (c, bs)) → acc_ok a (Some (c, bs)) →
  length (s_axis_tdata i) = KEEP_WIDTH → length (s_axis_tkeep i) = KEEP_WIDTH →
  item_acc a (beat_item i s c (bool_decide (bs = [])))
  = onec_norm (init_sum c + frame_sum c (bs ++ kept i)).
Proof.
  intros Hf [Ha Hab] Hd Hk. rewrite (beat_sum i s c bs Hf Hd Hk).
  destruct Hf as (_ & _ & Hm & _ & _ & _ & Hc).
  pose proof (beat_lanes i s Hd Hk ltac:(by rewrite Hm, length_mask)) as Hl.
  apply lanes_hold_bound in Hl; [|lia].
  pose proof (init_sum_bounds c Hc). pose proof (frame_sum_nonneg c bs).
  unfold item_acc, init_or. cbn [beat_item it_sum it_first it_cmd].
  rewrite sum_acc_temp_norm; [|lia|done|].
  - destruct bs as [|b bs].
    + cbn. unfold frame_sum. rewrite drop_nil. cbn. f_equal.
      unfold init_sum. destruct USE_INIT_VALUE; [lia|]. rewrite Ha by done. lia.
    + cbn. rewrite Ha, onec_norm_acc by lia. f_equal. lia.
  - destruct (bool_decide (bs = [])); cbn; [|done]. unfold init_sum in *.
    by destruct USE_INIT_VALUE.
Qed.

Lemma htons_weight v :
  fits 2 v → 0 ≤ htons v ∧ (v - 256 * htons v) mod 65535 = 0 ∧ (htons v = 0 ↔ v = 0).
Proof.
  intros Hv. rewrite htons_swap by done. unfold fits in Hv.
  change (2 ^ (8 * Z.of_nat 2)) with 65536 in Hv. Z.div_mod_to_equations. lia.
Qed.

(** The checksum of a whole frame. *)
Lemma frame_csum_eq c bs :
  cmd_ok c →
  (csum_in_csum (Z.odd (csum_start c)) (onec_norm (init_sum c + frame_sum c bs)),
   csum_offset c, csum_enable c) = frame_csum USE_INIT_VALUE c bs.
Proof.
  intros Hc. pose proof (init_sum_bounds c Hc) as Hi. pose proof (frame_sum_nonneg c bs) as Hs.
  unfold frame_csum. f_equal. f_equal.
  rewrite csum_in_csum_eq by (apply onec_norm_bounds; lia).
  set (D := drop (Z.to_nat (csum_start c)) bs) in *.
  assert (Hr : rfc1071 (init_bytes USE_INIT_VALUE c ++ D)
               = 65535 - onec_norm (word_sum (init_bytes USE_INIT_VALUE c) + word_sum D)).
  { unfold rfc1071. rewrite onec_sum_norm, word_sum_app; [done|].
    unfold init_bytes. destruct USE_INIT_VALUE; [|exists 0%nat; done]. exists 1%nat.
    destruct (Z.odd _); unfold be_split; rewrite ?length_reverse; apply le_split_length. }
  rewrite Hr. pose proof (word_sum_bounds D) as HD. unfold frame_sum. fold D.
  rewrite <- Z.negb_odd. unfold init_sum, init_bytes, cmd_ok in *. destruct Hc as [_ Hc].
  destruct (Z.odd (csum_start c)); cbn [negb].
  - rewrite wsum_low. destruct USE_INIT_VALUE; [|done]. by rewrite word_sum_split2.
  - assert (∃ v, (if USE_INIT_VALUE then csum_init c else 0) = v ∧ fits 2 v ∧
               word_sum (if USE_INIT_VALUE then be_split 2 (csum_init c) else []) = htons v)
      as (v & -> & Hv & ->).
    { destruct USE_INIT_VALUE; eexists; split; [done| |done|]; [|by unfold fits].
      split; [done|]. by rewrite <- le_split_htons, word_sum_split2 by apply htons_fits. }
    destruct (htons_weight v Hv) as (Hv1 & Hv2 & Hv3).
    pose proof (wsum_high D) as HD1. pose proof (wsum_zero true D) as HD2. cbn [negb] in HD2.
    rewrite wsum_low in HD1, HD2. pose proof (wsum_nonneg true D).
    rewrite htons_lnot by (apply onec_norm_bounds; lia). f_equal.
    unfold fits in Hv. apply onec_norm_swap; [lia..| |lia].
    clear -HD1 Hv2. Z.div_mod_to_equations. lia.
Qed.
(** *** The three parts of a cycle *)

Local Abbreviation legal := (sp_legal (csum_spec LEVELS USE_INIT_VALUE)).
Local Abbreviation next := (chksum_next LEVELS USE_INIT_VALUE).
Local Abbreviation frame_next := (frame_next USE_INIT_VALUE).

Definition new_item (i : chk_in) (s : chksum) (fr : option (cmd * list byte)) : option item :=
  match fr with
  | Some (c, bs) => if accepts i s then Some (beat_item i s c (bool_decide (bs = []))) else None
  | None => None
  end.

Lemma accepts_open i s c bs :
  front_ok s (Some (c, bs)) → csum_in_ready i = true →
  accepts i s = s_axis_tvalid i && data_in_axis_tready i ∧ accepts_cmd i s = false.
Proof.
  intros (Ht & _) Hr. unfold accepts, accepts_cmd, tready. rewrite Ht, Hr, !andb_true_r.
  by rewrite andb_false_r.
Qed.

Lemma accepts_closed i s :
  front_ok s None → accepts i s = false ∧ accepts_cmd i s = s_axis_cmd_valid i.
Proof.
  intros Ht. cbn in Ht. unfold accepts, accepts_cmd, tready. rewrite Ht.
  by rewrite !andb_false_r, andb_true_r.
Qed.

Lemma length_kept i :
  length (s_axis_tdata i) = KEEP_WIDTH → length (s_axis_tkeep i) = KEEP_WIDTH →
  length (kept i) = KEEP_WIDTH.
Proof. intros H1 H2. unfold kept. rewrite length_zip_with. lia. Qed.

Lemma front_next s q i :
  front_ok s (v_frame q) → legal q i → front_ok (next false i s) (frame_next i (v_frame q)).1.
Proof.
  intros Hf (Hd & Hk & Hstart & Hinit & Hr).
  destruct (v_frame q) as [[c bs]|]; cbn [ChksumCalc.frame_next].
  - destruct (accepts_open _ _ _ _ Hf Hr) as [Ha Hc]. rewrite <- Ha.
    destruct Hf as (Ht & Hfirst & Hm & Hoff & Hcmd & Hev & Hok).
    unfold chksum_next, input_next, sum_0_stage_next. rewrite Hc.
    destruct (accepts i s); [destruct (s_axis_tlast i)|]; cbn; rewrite ?Ht; [done| |by split_and!].
    rewrite length_app, (length_kept i Hd Hk), Hoff.
    assert (bool_decide (bs ++ kept i = []) = false) as ->.
    { apply bool_decide_eq_false. intros [_ E]%app_eq_nil. apply (f_equal length) in E.
      rewrite (length_kept i Hd Hk) in E. cbn in E. unfold ChksumCalc.KEEP_WIDTH in E.
      pose proof (Nat.pow_nonzero 2 LEVELS). lia. }
    set (k := csum_start c - Z.of_nat (length bs)) in *.
    replace (csum_start c - Z.of_nat (length bs + KEEP_WIDTH)) with (k - Z.of_nat KEEP_WIDTH) by lia.
    split; [done|]. split; [done|]. split; [|split; [|split_and!; try done]].
    + destruct (Z.ltb_spec 0 (Z.max 0 (k - Z.of_nat KEEP_WIDTH))).
      * rewrite Z.max_r by lia. destruct (Z.leb_spec (Z.of_nat KEEP_WIDTH) (k - Z.of_nat KEEP_WIDTH)); [|done].
        by rewrite mask_none.
      * rewrite mask_all by lia. done.
    + destruct (Z.ltb_spec 0 (Z.max 0 (k - Z.of_nat KEEP_WIDTH)));
        [destruct (Z.leb_spec (Z.of_nat KEEP_WIDTH) (Z.max 0 (k - Z.of_nat KEEP_WIDTH)))|]; lia.
    + exact (keep_width_even _ Hev).
  - destruct (accepts_closed i s Hf) as [Ha Hc]. cbn in Hf.
    unfold chksum_next, input_next, sum_0_stage_next. rewrite Ha, Hc.
    destruct (s_axis_cmd_valid i); cbn; [|done]. rewrite Z.sub_0_r. split_and!; try done.
    + destruct (Z.leb_spec (Z.of_nat KEEP_WIDTH) (csum_start (s_axis_cmd i))); [|done].
      by rewrite mask_none.
    + destruct (Z.leb_spec (Z.of_nat KEEP_WIDTH) (csum_start (s_axis_cmd i))); lia.
Qed.

(** What the beat that leaves the tree does to the accumulator and to the entry
    on show. *)
Lemma top_next s i x :
  stage_holds (LEVELS - 2) (List.last (sum_rest s) (sum_0 s)) x → csum_in_ready i = true →
  sum_acc_reg (next false i s) = acc_after (sum_acc_reg s) [x] ∧
  [co_csum (chksum_show (next false i s) idle)] = entries (sum_acc_reg s) [x].
Proof.
  intros Hx Hr. unfold chksum_next. destruct (input_next LEVELS false i s) as [[[t f] m] o].
  rewrite Hr. cbn. set (top := List.last (sum_rest s) (sum_0 s)) in *.
  destruct x as [it|]; cbn [stage_holds] in Hx; [|by rewrite Hx].
  destruct Hx as (-> & Hfirst & -> & (Hodd & Hen & Hoff & Hinit) & Hs & Hn & _).
  rewrite Nat.sub_diag in Hn. destruct (sum_reg top) as [|lane [|]] eqn:E; try done.
  cbn in Hs. rewrite Z.add_0_r in Hs. subst lane.
  rewrite Hfirst, Hodd, Hen, Hoff, Hinit. cbn [andb hd].
  by destruct (it_last it).
Qed.

(** What the beat that enters does to the checksums due. *)
Lemma new_entry s q i a :
  front_ok s (v_frame q) → legal q i → acc_ok a (v_frame q) →
  let x := new_item i s (v_frame q) in
  entries a [x] = [(frame_next i (v_frame q)).2] ∧
  acc_ok (acc_after a [x]) (frame_next i (v_frame q)).1.
Proof.
  intros Hf (Hd & Hk & _ & _ & Hr) Ha. destruct (v_frame q) as [[c bs]|]; cbn [new_item].
  - destruct (accepts_open _ _ _ _ Hf Hr) as [-> _]. cbn [ChksumCalc.frame_next].
    destruct (s_axis_tvalid i && data_in_axis_tready i); [|by split].
    pose proof (beat_acc i s c bs a Hf Ha Hd Hk) as Hacc.
    destruct Hf as (_ & _ & _ & _ & _ & _ & Hok).
    pose proof (init_sum_bounds c Hok). pose proof (frame_sum_nonneg c (bs ++ kept i)).
    pose proof (onec_norm_bounds (init_sum c + frame_sum c (bs ++ kept i)) ltac:(lia)).
    cbn [entries acc_after beat_item it_last]. fold (beat_item i s c (bool_decide (bs = []))).
    destruct (s_axis_tlast i); cbn [fst snd].
    + unfold item_csum. rewrite Hacc. cbn [it_cmd beat_item]. rewrite frame_csum_eq by done.
      split; [done|]. by split.
    + split; [done|]. rewrite Hacc, Z.mod_small by lia.
      destruct (bs ++ kept i) as [|b l] eqn:E; [|by split].
      apply app_eq_nil in E as [_ E]. apply (f_equal length) in E.
      rewrite (length_kept i Hd Hk) in E. unfold ChksumCalc.KEEP_WIDTH in E.
      pose proof (Nat.pow_nonzero 2 LEVELS). cbn in E. lia.
  - split; [done|]. cbn. by destruct (s_axis_cmd_valid i).
Qed.

Lemma length_levels_next rst r l below sts : length (levels_next rst r l below sts) = length sts.
Proof. revert l below. induction sts as [|st sts IH]; intros l below; [done|]. cbn. by rewrite IH. Qed.

(** The tree after a cycle. *)
Lemma tree_next s q i its :
  front_ok s (v_frame q) → legal q i → length (sum_rest s) = (LEVELS - 2)%nat →
  stages_hold 0 (sum_0 s :: sum_rest s) its →
  stages_hold 0 (sum_0 (next false i s) :: sum_rest (next false i s))
    (new_item i s (v_frame q) :: removelast its).
Proof.
  intros Hf (Hd & Hk & _ & _ & Hr) Hlen Hs. unfold chksum_next.
  destruct (input_next LEVELS false i s) as [[[t f] m] o]. cbn [sum_0 sum_rest]. rewrite Hr.
  split; [|apply levels_next_holds; [lia|done]].
  unfold sum_0_stage_next. destruct (v_frame q) as [[c bs]|]; cbn [new_item].
  - destruct (accepts_open _ _ _ _ Hf Hr) as [_ Hc]. rewrite Hc, Hr.
    destruct Hf as (_ & Hfirst & Hm & _ & Hcmd & _).
    destruct (accepts i s); cbn; [|by rewrite andb_false_r].
    split_and!; try done. apply beat_lanes; [done..|]. by rewrite Hm, length_mask.
  - destruct (accepts_closed i s Hf) as [-> _]. cbn. by rewrite Hr, andb_false_r.
Qed.

Lemma chksum_simulates :
  simulates (chksum_calc LEVELS USE_INIT_VALUE) (csum_spec LEVELS USE_INIT_VALUE) chk_rel.
Proof.
  intros s q i [Hf Hlen (its & Hs & Ha & Hline)] Hl. split.
  - destruct Hl as (_ & _ & _ & _ & Hr). cbn. rewrite Hline. unfold tready. rewrite Hr.
    destruct (v_frame q) as [[c bs]|]; cbn in Hf |- *; [destruct Hf as [-> _]|rewrite Hf]; split_and!;
      by rewrite ?andb_true_r.
  - cbn [sp_next csum_spec c_next chksum_calc].
    pose proof (front_next s q i Hf Hl) as Hf'.
    pose proof (tree_next s q i its Hf Hl Hlen Hs) as Hs'.
    pose proof (new_entry s q i _ Hf Hl Ha) as [Hnew Ha']. cbn zeta in Hnew, Ha'.
    destruct (frame_next i (v_frame q)) as [fr res] eqn:E. cbn [fst snd] in *.
    pose proof (stages_hold_top _ _ _ _ Hs) as Htop. rewrite Hlen in Htop.
    destruct (top_next s i _ Htop) as [Hacc Hshow]; [by destruct Hl as (_ & _ & _ & _ & ?)|].
    assert (its ≠ []) as Hne by (by intros ->).
    assert (rev its = List.last its None :: rev (removelast its)) as Hrev.
    { rewrite (app_removelast_last None Hne) at 1. by rewrite rev_app_distr. }
    set (a := sum_acc_reg s) in *. rewrite Hrev in Hline, Hnew, Ha'.
    change (List.last its None :: rev (removelast its))
      with ([List.last its None] ++ rev (removelast its)) in Hline, Hnew, Ha'.
    rewrite acc_after_app, <- Hacc in Hnew, Ha'. rewrite entries_app, <- Hacc, <- Hshow in Hline.
    split; [done| |].
    + unfold chksum_next. destruct (input_next LEVELS false i s) as [[[? ?] ?] ?].
      cbn [sum_rest]. by rewrite length_levels_next.
    + eexists. split; [exact Hs'|]. cbn [rev v_frame v_line]. rewrite acc_after_app, entries_app.
      split; [done|]. by rewrite Hline, Hnew.
Qed.

(** *** After a reset *)

Lemma idle_stages_hold l sts :
  Forall (λ st, sum_valid_reg st = false) sts → stages_hold l sts (replicate (length sts) None).
Proof. revert l. induction sts as [|st sts IH]; intros l Hf; [done|]. by inversion_clear Hf; split; auto. Qed.

Lemma levels_reset l r below sts :
  Forall (λ st, sum_valid_reg st = false) (levels_next true r l below sts).
Proof. revert l below. induction sts as [|st sts IH]; intros l below; constructor; auto. Qed.

Lemma entries_idle n a : entries a (replicate n None) = replicate n None ∧ acc_after a (replicate n None) = a.
Proof. induction n as [|n [IH1 IH2]]; [done|]. cbn. by rewrite IH1. Qed.

Lemma chksum_reset s i :
  let s0 := chksum_next LEVELS USE_INIT_VALUE true i s in
  length (sum_rest s) = (LEVELS - 2)%nat → fits 2 (sum_acc_reg s0) →
  (USE_INIT_VALUE = false → sum_acc_reg s0 = 0) →
  chk_rel s0 (CsumView None (replicate LEVELS None)).
Proof.
  intros s0 Hlen Hfit Hacc. unfold fits in Hfit. change (2 ^ (8 * Z.of_nat 2)) with 65536 in Hfit.
  assert (Hs0 : transfer_in_reg s0 = false ∧ csum_in_valid_reg s0 = false ∧
                sum_valid_reg (sum_0 s0) = false ∧
                sum_rest s0 = levels_next true (csum_in_ready i) 1 (sum_0 s) (sum_rest s)).
  { unfold s0, chksum_next. unfold input_next.
    by destruct (accepts i s), (accepts_cmd i s). }
  clearbody s0. destruct Hs0 as (Ht & Hv & H0 & Hrest).
  assert (Hn : length (sum_rest s0) = (LEVELS - 2)%nat) by (by rewrite Hrest, length_levels_next).
  split; [done|done|]. exists (replicate (length (sum_0 s0 :: sum_rest s0)) None).
  rewrite rev_alt, (reverse_replicate _ None : rev_append _ [] = _).
  destruct (entries_idle (length (sum_0 s0 :: sum_rest s0)) (sum_acc_reg s0)) as [-> ->].
  split; [|split; [split; [done|lia]|]].
  - apply idle_stages_hold. constructor; [done|]. rewrite Hrest. apply levels_reset.
  - cbn [v_line chksum_show co_csum length]. rewrite Hv, Hn.
    by replace LEVELS with (S (S (LEVELS - 2))) at 1 by lia.
Qed.

(** The checksums a run completes, each in the cycle of its last beat. *)
Fixpoint checksums (fr : option (cmd * list byte)) (ins : list chk_in)
    : list (option (Z * Z * bool)) :=
  match ins with
  | [] => []
  | i :: ins' => (frame_next i fr).2 :: checksums (frame_next i fr).1 ins'
  end.

Lemma shows_checksums fr line ins os :
  line ≠ [] → shows_run (csum_spec LEVELS USE_INIT_VALUE) (CsumView fr line) ins os →
  co_csum <$> os = take (length ins) (line ++ checksums fr ins).
Proof.
  revert fr line os. induction ins as [|i ins IH]; intros fr line [|o os] Hne Hs; try done.
  destruct line as [|r line]; [done|]. destruct Hs as [(_ & _ & Hr) Hs].
  cbn in Hr. injection Hr as Hr. cbn [sp_next csum_spec v_frame v_line tail] in Hs.
  cbn [checksums]. destruct (frame_next i fr) as [fr' res]. cbn [fst snd].
  cbn [fmap list_fmap app length take]. rewrite Hr. f_equal.
  rewrite (IH fr' (line ++ [res]) os); [by rewrite <- app_assoc|by destruct line|done].
Qed.
End Correct.

(** C32: as long as the checksum queue has room, and whatever gaps the command
    and the beats come with, the checksum of every frame is on the input of the
    queue exactly [LEVELS] cycles after the last beat of the frame, for frames
    that follow each other as closely as the interface lets them: it is the
    RFC 1071 checksum that the C++ computes, of the bytes from [csum_start] on
    and of the initial value, in network order, although the hardware adds in the
    other byte order, sixteen words at a time, and for an odd start across the
    bytes of the words. *)
Theorem chksum_calc_rfc1071 LEVELS USE_INIT_VALUE i0 s ins :
  (3 ≤ LEVELS ≤ 15)%nat → length (sum_rest s) = (LEVELS - 2)%nat →
  let c := chksum_calc LEVELS USE_INIT_VALUE in
  let s0 := c_next c true i0 s in
  fits 2 (sum_acc_reg s0) → (USE_INIT_VALUE = false → sum_acc_reg s0 = 0) →
  Forall (sp_legal (csum_spec LEVELS USE_INIT_VALUE) (CsumView None [])) ins →
  co_csum <$> outputs c ins s0
  = take (length ins) (replicate LEVELS None ++ checksums (USE_INIT_VALUE:=USE_INIT_VALUE) None ins).
Proof.
  intros HL Hlen c s0 Hfit Hacc Hl.
  assert (legal_run (csum_spec LEVELS USE_INIT_VALUE) (CsumView None (replicate LEVELS None)) ins) as Hrun.
  { generalize (CsumView None (replicate LEVELS None)).
    induction Hl as [|i ins Hi Hl IH]; intros q; [done|]. split; [exact Hi|apply IH]. }
  destruct (simulates_run _ _ _ _ _ ins (chksum_simulates HL) (chksum_reset HL s i0 Hlen Hfit Hacc) Hrun)
    as [Hs _].
  apply (shows_checksums (LEVELS:=LEVELS)); [by destruct LEVELS; [lia|]|exact Hs].
Qed.

(** ** Concrete runs, with beats of eight bytes *)

Definition junk_stage : stage := Stage [77; 78] true true true true 9 9 true.
Definition junk_chksum (acc : Z) : chksum :=
  {| transfer_in_reg := true; first_cycle_reg := true; mask_reg := [true]; input_offset_reg := 3;
     sum_0 := junk_stage; sum_rest := [junk_stage]; sum_acc_reg := acc; csum_in_csum_reg := 1;
     csum_in_offset_reg := 2; csum_in_enable_reg := true; csum_in_valid_reg := true |}.

Definition pause (ready : bool) : chk_in :=
  ChkIn (replicate 8 Byte.xff) (replicate 8 true) false false (Cmd false 0 0 0) false true ready.
Definition command (c : cmd) : chk_in :=
  ChkIn (replicate 8 Byte.xff) (replicate 8 true) false false c true true true.
Definition beat_in (ready : bool) (bs : list byte) (keep : nat) (last : bool) : chk_in :=
  ChkIn bs (replicate keep true ++ replicate (8 - keep) false) true last (Cmd false 0 0 0) false true ready.

Definition line1 : list byte :=
  [Byte.x45; Byte.x00; Byte.x1c; Byte.xff; Byte.x31; Byte.x02; Byte.xfe; Byte.x90].
Definition line2 : list byte :=
  [Byte.x99; Byte.x77; Byte.xc1; Byte.x0f; Byte.xaa; Byte.xbb; Byte.xcc; Byte.xdd].

(** A frame of two beats from its fourth byte on, the second one cut after
    three bytes, and a frame of one beat right behind it. *)
Definition sample_beats : list chk_in :=
  [command (Cmd true 3 16 5); beat_in true line1 8 false; pause true; beat_in true line2 3 true;
   command (Cmd true 0 10 0x1234); beat_in true line2 8 true; pause true; pause true; pause true;
   pause true].

Lemma sample_beats_legal U :
  Forall (sp_legal (csum_spec 3 U) (CsumView None [])) sample_beats.
Proof. repeat constructor; vm_compute; try discriminate; done. Defined.

Lemma chksum_calc_rfc1071_witness :
  let c := chksum_calc 3 true in
  let s0 := c_next c true (pause true) (junk_chksum 300) in
  co_csum <$> outputs c sample_beats s0
  = take 10 (replicate 3 None ++ checksums (USE_INIT_VALUE:=true) None sample_beats).
Proof.
  apply (chksum_calc_rfc1071 3 true (pause true) (junk_chksum 300) sample_beats).
  - lia.
  - reflexivity.
  - vm_compute. split; [discriminate|reflexivity].
  - discriminate.
  - apply sample_beats_legal.
Defined.

(** Both checksums, against the checksum of the C++ on the bytes. *)
Example sample_beats_run :
  let c := chksum_calc 3 false in
  co_csum <$> outputs c sample_beats (c_next c true (pause true) (junk_chksum 0)) =
    let csum_of bs := default 0 (csum bs (Z.of_nat (length bs))) in
    [None; None; None; None; None; None;
     Some (htons (csum_of (drop 3 line1 ++ take 3 line2)), 16, true); None;
     Some (htons (csum_of line2), 10, true); None].
Proof. vm_compute. reflexivity. Qed.

(** While the checksum queue has no room the lowest level of the tree takes the
    data on the bus all the same: the beat that waits in it is lost. *)
Lemma sum_0_not_held :
  let c := chksum_calc 3 false in
  let run ready := omap co_csum (outputs c
    [command (Cmd true 0 16 0); beat_in true line1 8 true; pause ready; pause true; pause true; pause true;
     pause true; pause true] (c_next c true (pause true) (junk_chksum 0))) in
  run true = [frame_csum false (Cmd true 0 16 0) line1] ∧
  run false = [frame_csum false (Cmd true 0 16 0) (replicate 8 Byte.xff)].
Proof. vm_compute. by split. Qed.

(** A reset in the middle of a frame leaves its sum in the accumulator, and
    without an initial value the next frame starts from there. *)
Lemma reset_keeps_sum :
  let c := chksum_calc 3 false in
  let mid := after_cycles c [command (Cmd true 0 16 0); beat_in true line1 8 false; pause true; pause true;
                             pause true] (c_next c true (pause true) (junk_chksum 0)) in
  omap co_csum (outputs c [command (Cmd true 0 16 0); beat_in true line2 8 true; pause true; pause true;
                           pause true; pause true] (c_next c true (pause true) mid))
  = [frame_csum false (Cmd true 0 16 0) (line1 ++ line2)].
Proof. vm_compute. reflexivity. Qed.
