(* ===== verification/TcpPkg.v ===== *)
(** TcpPkg: include/tcp/tcp_pkg.sv and the TCP header of
    include/packet_struct_pkg.sv: the widths of the engine and the structs its
    pipelines and stores exchange. *)

From S2P Require Import Prelude.

(** ** Widths, of include/packet_defs.vh and tcp_pkg *)

Definition SEQ_NUM_W : Z := 32.
Definition ACK_NUM_W : Z := 32.
Definition MAX_SEG_SIZE : Z := 1024.
Definition MAX_FLOW_CNT : nat := 16.
Definition FLOWID_W : Z := 4.
Definition TX_PAYLOAD_PTR_W : Z := 12.
Definition RX_PAYLOAD_PTR_W : Z := 12.
Definition RT_ACK_THRESHOLD : Z := 3.
Definition RT_ACK_THRESHOLD_W : Z := 2.
Definition TIMESTAMP_W : Z := 64.
Definition TX_TIMER_LEN : Z := 512.
Definition TCP_STATE_W : Z := 3.

(** A sequence number, and a pointer into a payload buffer, which has one bit
    more than an address. *)
Definition seq (x : Z) : Z := x mod 2 ^ SEQ_NUM_W.
Definition rx_ptr (x : Z) : Z := x mod 2 ^ (RX_PAYLOAD_PTR_W + 1).
Definition tx_ptr (x : Z) : Z := x mod 2 ^ (TX_PAYLOAD_PTR_W + 1).
Definition flow_ok (f : Z) : Prop := 0 ≤ f < Z.of_nat MAX_FLOW_CNT.

(** ** Structs *)

Record tcp_pkt_hdr := TcpPktHdr {
  src_port : Z; dst_port : Z; seq_num : Z; ack_num : Z;
  raw_data_offset : Z; reserved : Z; flags : Z; win_size : Z; chksum : Z; urg_pointer : Z }.

Record four_tuple_struct := FourTuple { ft_host_ip : Z; ft_dest_ip : Z; ft_host_port : Z; ft_dest_port : Z }.

Record recv_state_entry := RecvStateEntry {
  rx_curr_ack_num : Z;
  rx_curr_wnd_size : Z }.

Record payload_buf_struct := PayloadBuf {
  payload_addr : Z;
  payload_len : Z }.

Record tx_ack_state_struct := TxAckState {
  tx_curr_ack_cnt : Z;
  tx_curr_ack_num : Z }.

Record tx_ack_timer := TxAckTimer {
  timestamp : Z;
  timer_armed : bool }.

Record tx_state_struct := TxState {
  tx_curr_seq_num : Z;
  timer : tx_ack_timer;
  tx_curr_ack_state : tx_ack_state_struct }.

Record rx_store_buf_q_struct := RxStoreBufQ {
  sb_flowid : Z;
  sb_accept_payload : bool;
  sb_payload_entry : payload_buf_struct }.

(** ['0] in the width of each. *)
Definition zero_four_tuple : four_tuple_struct := FourTuple 0 0 0 0.
Definition zero_hdr : tcp_pkt_hdr := TcpPktHdr 0 0 0 0 0 0 0 0 0 0.
Definition zero_payload : payload_buf_struct := PayloadBuf 0 0.
Definition zero_rx : recv_state_entry := RecvStateEntry 0 0.
Definition zero_ack : tx_ack_state_struct := TxAckState 0 0.
Definition zero_timer : tx_ack_timer := TxAckTimer 0 false.
Definition zero_tx : tx_state_struct := TxState 0 zero_timer zero_ack.

(** The state of a connection. *)
Inductive tcp_flow_state_e := TCP_NONE | TCP_SYN_RECV | TCP_EST | TCP_HALF_CLOSE | TCP_UND.

#[global] Instance tcp_flow_state_eq_dec : EqDecision tcp_flow_state_e.
Proof. solve_decision. Defined.
#[global] Instance recv_state_entry_eq_dec : EqDecision recv_state_entry.
Proof. solve_decision. Defined.
#[global] Instance tx_ack_state_struct_eq_dec : EqDecision tx_ack_state_struct.
Proof. solve_decision. Defined.

(** ** Numbers modulo a power of two *)

Lemma seq_range x : 0 ≤ seq x < 2 ^ 32.
Proof. apply Z.mod_pos_bound. reflexivity. Qed.

Lemma seq_small x : 0 ≤ x < 2 ^ 32 → seq x = x.
Proof. apply Z.mod_small. Qed.

Lemma seq_seq_add x y : seq (seq x + y) = seq (x + y).
Proof. unfold seq. by rewrite Zplus_mod_idemp_l. Qed.

Lemma rx_ptr_range x : 0 ≤ rx_ptr x < 8192.
Proof. apply Z.mod_pos_bound. reflexivity. Qed.

Lemma rx_ptr_small x : 0 ≤ x < 8192 → rx_ptr x = x.
Proof. apply Z.mod_small. Qed.

Lemma rx_ptr_add x y : rx_ptr (rx_ptr x + y) = rx_ptr (x + y).
Proof. unfold rx_ptr. by rewrite Zplus_mod_idemp_l. Qed.

Lemma rx_ptr_sub x y : rx_ptr (rx_ptr x - rx_ptr y) = rx_ptr (x - y).
Proof. unfold rx_ptr. by rewrite <- Zminus_mod. Qed.
