(* ===== verification/AckEngines.v ===== *)
(** AckEngines: recv_pipe/rx_ack_engine.sv, which acknowledges what is received,
    and recv_pipe/tx_ack_engine.sv, which takes the acknowledgements of what was
    sent and asks for a retransmission on the third duplicate. *)

From S2P Require Import Prelude TcpPkg.

(** ** rx_ack_engine.sv *)

Record rx_ack_out := RxAckOut { rxe_next_ack_num : Z; rxe_accept_payload : bool }.

Definition rx_ack_engine (curr_ack_num packet_seq_num : Z) (packet_payload_val : bool)
    (packet_payload_len : Z) : rx_ack_out :=
  if packet_payload_val && (packet_seq_num =? curr_ack_num)
  then RxAckOut (seq (packet_seq_num + packet_payload_len)) true
  else RxAckOut curr_ack_num false.

(** ** tx_ack_engine.sv *)

Record tx_ack_out := TxAckOut {
  txe_next_ack_cnt : Z;
  txe_next_ack_num : Z;
  txe_set_rt_flag : bool;
  txe_next_head_ptr : Z }.

Definition data_unacked (curr_seq_num curr_ack_num : Z) : bool := negb (curr_seq_num =? curr_ack_num).
Definition dup_ack (curr_ack_num pkt_ack_num curr_seq_num : Z) : bool :=
  (curr_ack_num =? pkt_ack_num) && data_unacked curr_seq_num curr_ack_num.

(** [curr_seq_num + 1] is 32 bits wide. *)
Definition next_ack_num (curr_ack_num pkt_ack_num curr_seq_num : Z) : Z :=
  let unacked := data_unacked curr_seq_num curr_ack_num in
  if curr_seq_num <? curr_ack_num then
    if unacked && ((curr_ack_num <? pkt_ack_num) || (pkt_ack_num <? seq (curr_seq_num + 1)))
    then pkt_ack_num else curr_ack_num
  else
    if unacked && ((curr_ack_num <? pkt_ack_num) && (pkt_ack_num <=? seq (curr_seq_num + 1)))
    then pkt_ack_num else curr_ack_num.

Definition tx_ack_engine (curr_ack_num pkt_ack_num curr_seq_num curr_ack_cnt : Z) : tx_ack_out :=
  let dup := dup_ack curr_ack_num pkt_ack_num curr_seq_num in
  let set_rt_flag := curr_ack_cnt + Z.b2z dup =? RT_ACK_THRESHOLD in
  let next := next_ack_num curr_ack_num pkt_ack_num curr_seq_num in
  {| txe_next_ack_cnt :=
       if negb (data_unacked curr_seq_num curr_ack_num) || set_rt_flag || negb dup then 0
       else (curr_ack_cnt + Z.b2z dup) mod 2 ^ RT_ACK_THRESHOLD_W;
     txe_next_ack_num := next;
     txe_set_rt_flag := set_rt_flag;
     txe_next_head_ptr := tx_ptr next |}.

(** ** Serial arithmetic

    How far [y] is ahead of [x] around the circle of sequence numbers. *)

Definition ahead_of (x y : Z) : Z := seq (y - x).

Definition is_seq (x : Z) : Prop := 0 ≤ x < 2 ^ 32.

Lemma ahead_of_cases x y : is_seq x → is_seq y →
  ahead_of x y = if x <=? y then y - x else y - x + 2 ^ 32.
Proof.
  unfold is_seq. intros Hx Hy. unfold ahead_of, seq, SEQ_NUM_W.
  destruct (Z.leb_spec x y); [apply Z.mod_small; lia|].
  symmetry. apply (Z.mod_unique_pos _ _ (-1)); lia.
Qed.

Lemma ahead_of_self x : ahead_of x x = 0.
Proof. unfold ahead_of. by rewrite Z.sub_diag. Qed.

(** Is [pkt] taken as a new acknowledgement? *)
Definition advances (curr_ack_num pkt_ack_num curr_seq_num : Z) : bool :=
  negb (next_ack_num curr_ack_num pkt_ack_num curr_seq_num =? curr_ack_num).

(** Which acknowledgements count.  With [d] bytes sent and not yet
    acknowledged, one that is [a] bytes ahead of the last one moves the
    acknowledged number exactly if 0 < a <= d, on the circle of 32-bit sequence
    numbers, with two exceptions: while the sent numbers have not wrapped past
    the acknowledged one, a = d + 1 is taken too, one byte more than was sent;
    and when the next number to be sent is 2^32 - 1, none is taken. *)
Lemma tx_ack_window ack pkt snd :
  is_seq ack → is_seq pkt → is_seq snd →
  advances ack pkt snd =
  if snd =? 2 ^ 32 - 1 then false
  else (0 <? ahead_of ack pkt) &&
       (ahead_of ack pkt <=? ahead_of ack snd + Z.b2z (ack <? snd)).
Proof.
  intros Ha Hp Hs. unfold advances, next_ack_num, data_unacked.
  rewrite !ahead_of_cases by done. unfold is_seq in *.
  assert (Hinc : seq (snd + 1) = if snd =? 2 ^ 32 - 1 then 0 else snd + 1).
  { destruct (Z.eqb_spec snd (2 ^ 32 - 1)) as [->|]; [done|]. apply seq_small. lia. }
  rewrite Hinc. clear Hinc.
  destruct (Z.eqb_spec snd (2 ^ 32 - 1)); destruct (Z.ltb_spec snd ack); destruct (Z.eqb_spec snd ack);
    destruct (Z.ltb_spec ack snd); try lia; destruct (Z.ltb_spec ack pkt); destruct (Z.leb_spec ack pkt);
    destruct (Z.leb_spec ack snd); try lia; cbn [negb andb orb Z.b2z];
    repeat match goal with
    | |- context [?a <? ?b] => destruct (Z.ltb_spec a b)
    | |- context [?a <=? ?b] => destruct (Z.leb_spec a b)
    end; cbn [negb andb orb];
    repeat match goal with
    | |- context [?a =? ?b] => destruct (Z.eqb_spec a b)
    end; cbn [negb]; try done; lia.
Qed.

(** ** A connection's acknowledgements, one after the other

    Each comes with what was sent by then. *)

Fixpoint tx_ack_run (ack cnt : Z) (l : list (Z * Z)) : list tx_ack_out :=
  match l with
  | [] => []
  | (pkt, snd) :: l' =>
      let o := tx_ack_engine ack pkt snd cnt in
      o :: tx_ack_run (txe_next_ack_num o) (txe_next_ack_cnt o) l'
  end.

(** What they mean, on a stream whose bytes are numbered without wrapping: an
    acknowledgement is cumulative, one that repeats the last while data is out
    is a duplicate, and every third duplicate in a row asks for a
    retransmission. *)
Fixpoint cumulative (acked : Z) (dups : nat) (l : list (Z * Z)) : list (Z * bool) :=
  match l with
  | [] => []
  | (p, s) :: l' =>
      let dups' := if (p =? acked) && (acked <? s) then S dups else 0%nat in
      let acked' := acked `max` p in
      (acked', bool_decide (dups' ≠ 0%nat ∧ (dups' mod 3)%nat = 0%nat)) :: cumulative acked' dups' l'
  end.

(** No acknowledgement is of bytes not sent, or older than the circle is long;
    at most the circle is in flight; and the next number is not 2^32 - 1. *)
Definition in_flight (acked : Z) (ps : Z * Z) : Prop :=
  ps.1 ≤ ps.2 ∧ acked ≤ ps.2 ∧ ps.2 - acked < 2 ^ 32 ∧ ps.2 - ps.1 < 2 ^ 32 - 1 ∧
  seq ps.2 ≠ 2 ^ 32 - 1.

Fixpoint all_in_flight (acked : Z) (l : list (Z * Z)) : Prop :=
  match l with
  | [] => True
  | ps :: l' => in_flight acked ps ∧ all_in_flight (acked `max` ps.1) l'
  end.

(** The numbers in the headers. *)
Definition on_wire (ps : Z * Z) : Z * Z := (seq ps.1, seq ps.2).

Lemma ahead_of_seq x y : ahead_of (seq x) (seq y) = seq (y - x).
Proof. unfold ahead_of, seq. by rewrite <- Zminus_mod. Qed.

Lemma seq_eqb x y : - 2 ^ 32 < x - y < 2 ^ 32 → (seq x =? seq y) = (x =? y).
Proof.
  intros H. destruct (Z.eqb_spec x y) as [->|Hne]; [apply Z.eqb_refl|]. apply Z.eqb_neq. intros E.
  assert (seq (x - y) = 0) as E0 by (unfold seq in *; rewrite Zminus_mod, E, Z.sub_diag; done).
  unfold seq, SEQ_NUM_W in E0. apply Z.mod_divide in E0; [|lia]. destruct E0 as [k E0].
  assert (k = 0) by lia. lia.
Qed.

Lemma next_ack_num_cases ack pkt snd :
  next_ack_num ack pkt snd = if advances ack pkt snd then pkt else ack.
Proof.
  unfold advances, next_ack_num.
  destruct (snd <? ack); destruct (data_unacked snd ack && _); cbn;
    rewrite ?Z.eqb_refl; try done; destruct (Z.eqb_spec pkt ack) as [->|]; done.
Qed.

Lemma next_ack_num_cumulative a p s :
  in_flight a (p, s) → next_ack_num (seq a) (seq p) (seq s) = seq (a `max` p).
Proof.
  intros (H1 & H2 & H3 & H4 & H5). cbn [fst snd] in *.
  rewrite next_ack_num_cases, tx_ack_window by apply seq_range.
  destruct (Z.eqb_spec (seq s) (2 ^ 32 - 1)) as [|_]; [done|].
  rewrite !ahead_of_seq. rewrite (seq_small (s - a)) by lia.
  destruct (Z_lt_ge_dec a p) as [Hlt|Hge].
  - rewrite (seq_small (p - a)) by lia. rewrite Z.max_r by lia.
    destruct (Z.ltb_spec 0 (p - a)); [|lia]. destruct (Z.leb_spec (p - a) (s - a + Z.b2z (seq a <? seq s))); [done|].
    destruct (seq a <? seq s); cbn in *; lia.
  - rewrite Z.max_l by lia. destruct (decide (p = a)) as [->|Hne].
    { rewrite Z.sub_diag. by destruct (_ && _). }
    assert (seq (p - a) = p - a + 2 ^ 32) as ->
      by (symmetry; apply (Z.mod_unique_pos _ _ (-1)); unfold SEQ_NUM_W; lia).
    destruct (Z.ltb_spec 0 (p - a + 2 ^ 32)); [|lia].
    destruct (Z.leb_spec (p - a + 2 ^ 32) (s - a + Z.b2z (seq a <? seq s))) as [Hle|]; [|done].
    destruct (seq a <? seq s); cbn in Hle; lia.
Qed.

Lemma mod3_S n : (S n mod 3 = if n mod 3 =? 2 then 0 else S (n mod 3))%nat.
Proof.
  pose proof (Nat.div_mod_eq n 3) as E. pose proof (Nat.mod_upper_bound n 3 ltac:(lia)) as B.
  destruct (Nat.eqb_spec (n mod 3) 2) as [E2|E2].
  - symmetry. apply (Nat.mod_unique _ _ (S (n / 3))); lia.
  - symmetry. apply (Nat.mod_unique _ _ (n / 3)); lia.
Qed.

(** C20: a connection's acknowledgements over any run in which no acknowledgement
    is of bytes that were not sent ([tx_ack_engine_overtakes]) or as old as the
    circle of 32-bit numbers is long, less than the circle is in flight, and the
    next number to send is never 2^32 - 1 ([tx_ack_engine_deaf]), on that circle,
    are the cumulative ones of a stream whose bytes are numbered without
    wrapping: the acknowledged number is that of the furthest byte acknowledged
    so far, whatever old acknowledgements arrive late, the head of the send
    buffer is the same number in the width of a pointer, and a retransmission is
    asked for exactly at every third duplicate in a row. *)
Theorem tx_ack_run_cumulative acked dups l :
  all_in_flight acked l →
  (λ o, (txe_next_ack_num o, txe_next_head_ptr o, txe_set_rt_flag o)) <$>
    tx_ack_run (seq acked) (Z.of_nat (dups mod 3)) (on_wire <$> l) =
  (λ r, (seq r.1, tx_ptr (seq r.1), r.2)) <$> cumulative acked dups l.
Proof.
  revert acked dups. induction l as [|[p s] l IH]; intros acked dups; [done|]. intros [Hin Hl].
  cbn [tx_ack_run cumulative fmap list_fmap on_wire fst snd]. unfold tx_ack_engine.
  cbn [txe_next_ack_num txe_next_head_ptr txe_set_rt_flag txe_next_ack_cnt fst snd].
  rewrite (next_ack_num_cumulative acked p s Hin).
  destruct Hin as (H1 & H2 & H3 & H4 & _). cbn [fst snd] in *.
  assert (Hun : data_unacked (seq s) (seq acked) = (acked <? s)).
  { unfold data_unacked. rewrite seq_eqb by lia.
    destruct (Z.eqb_spec s acked), (Z.ltb_spec acked s); try done; lia. }
  unfold dup_ack. rewrite Hun, seq_eqb by lia. rewrite (Z.eqb_sym acked p).
  pose proof (Nat.mod_upper_bound dups 3 ltac:(lia)) as Hb. pose proof (mod3_S dups) as HS.
  destruct ((p =? acked) && (acked <? s)) eqn:Hdup; cbn [Z.b2z negb].
  - apply andb_true_iff in Hdup as [_ Hs]. rewrite Hs. cbn [negb orb].
    rewrite <- (IH (acked `max` p) (S dups) Hl). rewrite HS.
    destruct (Nat.eqb_spec (dups mod 3) 2) as [E|E].
    + rewrite E. cbn [Z.of_nat Z.add Z.eqb]. f_equal.
    + assert ((Z.of_nat (dups mod 3) + 1 =? RT_ACK_THRESHOLD) = false) as ->
        by (apply Z.eqb_neq; unfold RT_ACK_THRESHOLD; lia). cbn [orb].
      rewrite (bool_decide_eq_false_2 (_ ∧ _)) by lia. f_equal. f_equal. f_equal.
      unfold RT_ACK_THRESHOLD_W. rewrite Z.mod_small by lia. lia.
  - rewrite orb_true_r. rewrite <- (IH (acked `max` p) 0%nat Hl). f_equal.
    rewrite bool_decide_eq_false_2 by lia. f_equal. apply Z.eqb_neq. unfold RT_ACK_THRESHOLD. lia.
Qed.

(** Three duplicates across the wrap of the circle, a late acknowledgement, and
    two more duplicates. *)
Definition sample_acks : list (Z * Z) :=
  [(2 ^ 32 - 8, 2 ^ 32 + 64); (2 ^ 32 - 8, 2 ^ 32 + 64); (2 ^ 32 - 8, 2 ^ 32 + 64); (2 ^ 32 + 32, 2 ^ 32 + 64);
   (2 ^ 32 - 8, 2 ^ 32 + 64); (2 ^ 32 + 32, 2 ^ 32 + 64); (2 ^ 32 + 64, 2 ^ 32 + 64); (2 ^ 32 + 64, 2 ^ 32 + 64)].

Lemma tx_ack_run_cumulative_witness :
  (λ o, (txe_next_ack_num o, txe_next_head_ptr o, txe_set_rt_flag o)) <$>
    tx_ack_run (2 ^ 32 - 8) 0 (on_wire <$> sample_acks) =
  [(4294967288, 8184, false); (4294967288, 8184, false); (4294967288, 8184, true); (32, 32, false);
   (32, 32, false); (32, 32, false); (64, 64, false); (64, 64, false)].
Proof.
  etransitivity; [apply (tx_ack_run_cumulative (2 ^ 32 - 8) 0 sample_acks)|reflexivity].
  cbn [all_in_flight sample_acks]. unfold in_flight. repeat split; vm_compute; done.
Defined.

(** One byte more than was sent: the acknowledged number overtakes the sent
    one, everything is then outstanding, and every later acknowledgement moves
    it further. *)
Lemma tx_ack_engine_overtakes ack snd cnt :
  is_seq ack → is_seq snd → ack < snd → snd < 2 ^ 32 - 1 →
  let o := tx_ack_engine ack (snd + 1) snd cnt in
  txe_next_ack_num o = snd + 1 ∧ data_unacked snd (txe_next_ack_num o) = true ∧
  ∀ pkt, is_seq pkt → pkt ≠ snd + 1 → advances (txe_next_ack_num o) pkt snd = true.
Proof.
  intros Ha Hs Hlt Hb o. unfold is_seq in *.
  assert (txe_next_ack_num o = snd + 1) as E.
  { unfold o, tx_ack_engine. cbn [txe_next_ack_num]. rewrite next_ack_num_cases, tx_ack_window by (unfold is_seq; lia).
    destruct (Z.eqb_spec snd (2 ^ 32 - 1)); [lia|]. rewrite !ahead_of_cases by (unfold is_seq; lia).
    destruct (Z.leb_spec ack (snd + 1)); [|lia]. destruct (Z.leb_spec ack snd); [|lia].
    destruct (Z.ltb_spec ack snd); [|lia]. cbn [Z.b2z].
    destruct (Z.ltb_spec 0 (snd + 1 - ack)); [|lia].
    by destruct (Z.leb_spec (snd + 1 - ack) (snd - ack + 1)); [|lia]. }
  rewrite E. split; [done|]. split.
  - unfold data_unacked. apply negb_true_iff, Z.eqb_neq. lia.
  - intros pkt Hp Hne. rewrite tx_ack_window by (unfold is_seq; lia).
    destruct (Z.eqb_spec snd (2 ^ 32 - 1)); [lia|]. rewrite !ahead_of_cases by (unfold is_seq; lia).
    destruct (Z.leb_spec (snd + 1) snd); [lia|]. destruct (Z.ltb_spec (snd + 1) snd); [lia|]. cbn [Z.b2z].
    destruct (Z.leb_spec (snd + 1) pkt); apply andb_true_iff;
      (split; [apply Z.ltb_lt|apply Z.leb_le]); lia.
Qed.

(** At the last number of the circle nothing is acknowledged. *)
Lemma tx_ack_engine_deaf ack pkt cnt :
  is_seq ack → is_seq pkt → txe_next_ack_num (tx_ack_engine ack pkt (2 ^ 32 - 1) cnt) = ack.
Proof.
  intros Ha Hp. unfold tx_ack_engine. cbn [txe_next_ack_num].
  by rewrite next_ack_num_cases, tx_ack_window by (unfold is_seq in *; lia).
Qed.

Example overtaken : txe_next_ack_num (tx_ack_engine 100 201 200 0) = 201.
Proof. reflexivity. Qed.
