(* ===== verification/RamDual.v ===== *)
(** RamDual: common/ram/ram_2r1w_sync_backpressure.sv, the memory the stores of
    the engine are made of, over bsg_mem_2r1w_sync.sv.  Each read port with the
    write port is a memory of Rtl, so what is proved there holds of both. *)

From S2P Require Import Prelude Rtl.

Section Ram2.
Context {A : Type}.

(** ** basejump_files/bsg_mem/bsg_mem_2r1w_sync_synth.sv *)

Record bsg_mem2 := BsgMem2 {
  bm2_mem : list A;
  r0_addr_r : option Z;
  r1_addr_r : option Z }.

Definition r0_data_o (m : bsg_mem2) : option A := a ← r0_addr_r m; bm2_mem m !! Z.to_nat a.
Definition r1_data_o (m : bsg_mem2) : option A := a ← r1_addr_r m; bm2_mem m !! Z.to_nat a.

Definition bsg_mem2_next (w_v_i : bool) (w_addr_i : Z) (w_data_i : A) (r0_v_i : bool) (r0_addr_i : Z)
    (r1_v_i : bool) (r1_addr_i : Z) (m : bsg_mem2) : bsg_mem2 :=
  {| bm2_mem := if w_v_i then <[Z.to_nat w_addr_i := w_data_i]> (bm2_mem m) else bm2_mem m;
     r0_addr_r := if r0_v_i then Some r0_addr_i else None;
     r1_addr_r := if r1_v_i then Some r1_addr_i else None |}.

(** ** ram_2r1w_sync_backpressure.sv *)

Record ram2 := Ram2 {
  mem2_wr_req_val_reg : bool;
  mem2_wr_req_addr_reg : Z;
  mem2_wr_req_data_reg : A;
  mem_rd0_req_val_reg : bool;
  mem_rd0_req_addr_reg : Z;
  mem_rd1_req_val_reg : bool;
  mem_rd1_req_addr_reg : Z;
  memory : bsg_mem2 }.

Record ram2_in := Ram2In {
  i2_wr_req_val : bool;
  i2_wr_req_addr : Z;
  i2_wr_req_data : A;
  i2_rd0_req_val : bool;
  i2_rd0_req_addr : Z;
  i2_rd0_resp_rdy : bool;
  i2_rd1_req_val : bool;
  i2_rd1_req_addr : Z;
  i2_rd1_resp_rdy : bool }.

Definition wr2_req_rdy : bool := true.
Definition rd0_resp_val (r : ram2) : bool := mem_rd0_req_val_reg r.
Definition rd1_resp_val (r : ram2) : bool := mem_rd1_req_val_reg r.
Definition rd0_req_rdy (r : ram2) (i : ram2_in) : bool := i2_rd0_resp_rdy i || negb (rd0_resp_val r).
Definition rd1_req_rdy (r : ram2) (i : ram2_in) : bool := i2_rd1_resp_rdy i || negb (rd1_resp_val r).

Definition rd0_resp_data (r : ram2) : option A :=
  if mem2_wr_req_val_reg r && mem_rd0_req_val_reg r && (mem2_wr_req_addr_reg r =? mem_rd0_req_addr_reg r)
  then Some (mem2_wr_req_data_reg r) else r0_data_o (memory r).
Definition rd1_resp_data (r : ram2) : option A :=
  if mem2_wr_req_val_reg r && mem_rd1_req_val_reg r && (mem2_wr_req_addr_reg r =? mem_rd1_req_addr_reg r)
  then Some (mem2_wr_req_data_reg r) else r1_data_o (memory r).

(** The reads the memory is given: the ones in the registers while their
    responses are refused. *)
Definition mem_rd0_req_val (r : ram2) (i : ram2_in) : bool :=
  if rd0_resp_val r && negb (i2_rd0_resp_rdy i) then mem_rd0_req_val_reg r else i2_rd0_req_val i.
Definition mem_rd0_req_addr (r : ram2) (i : ram2_in) : Z :=
  if rd0_resp_val r && negb (i2_rd0_resp_rdy i) then mem_rd0_req_addr_reg r else i2_rd0_req_addr i.
Definition mem_rd1_req_val (r : ram2) (i : ram2_in) : bool :=
  if rd1_resp_val r && negb (i2_rd1_resp_rdy i) then mem_rd1_req_val_reg r else i2_rd1_req_val i.
Definition mem_rd1_req_addr (r : ram2) (i : ram2_in) : Z :=
  if rd1_resp_val r && negb (i2_rd1_resp_rdy i) then mem_rd1_req_addr_reg r else i2_rd1_req_addr i.

Definition ram2_next (zero : A) (rst : bool) (i : ram2_in) (r : ram2) : ram2 :=
  let mem_wr_req_val := i2_wr_req_val i in
  let mem_rd0_req_val_byp :=
    if mem_rd0_req_val r i && mem_wr_req_val && (mem_rd0_req_addr r i =? i2_wr_req_addr i)
    then false else mem_rd0_req_val r i in
  let mem_rd1_req_val_byp :=
    if mem_rd1_req_val r i && mem_wr_req_val && (mem_rd1_req_addr r i =? i2_wr_req_addr i)
    then false else mem_rd1_req_val r i in
  {| mem2_wr_req_val_reg := if rst then false else if wr2_req_rdy then mem_wr_req_val
                            else mem2_wr_req_val_reg r;
     mem2_wr_req_addr_reg := if rst then 0 else if wr2_req_rdy then i2_wr_req_addr i
                             else mem2_wr_req_addr_reg r;
     mem2_wr_req_data_reg := if rst then zero else if wr2_req_rdy then i2_wr_req_data i
                             else mem2_wr_req_data_reg r;
     mem_rd0_req_val_reg := if rst then false else if rd0_req_rdy r i then mem_rd0_req_val r i
                            else mem_rd0_req_val_reg r;
     mem_rd0_req_addr_reg := if rst then 0 else if rd0_req_rdy r i then mem_rd0_req_addr r i
                             else mem_rd0_req_addr_reg r;
     mem_rd1_req_val_reg := if rst then false else if rd1_req_rdy r i then mem_rd1_req_val r i
                            else mem_rd1_req_val_reg r;
     mem_rd1_req_addr_reg := if rst then 0 else if rd1_req_rdy r i then mem_rd1_req_addr r i
                             else mem_rd1_req_addr_reg r;
     memory := bsg_mem2_next mem_wr_req_val (i2_wr_req_addr i) (i2_wr_req_data i)
                 mem_rd0_req_val_byp (mem_rd0_req_addr r i) mem_rd1_req_val_byp (mem_rd1_req_addr r i)
                 (memory r) |}.

Definition contents2 (r : ram2) : list A := bm2_mem (memory r).

(** ** A read port with the write port is a memory with one read port *)

Definition port0 (r : ram2) : ram A :=
  {| mem_wr_req_val_reg := mem2_wr_req_val_reg r; mem_wr_req_addr_reg := mem2_wr_req_addr_reg r;
     mem_wr_req_data_reg := mem2_wr_req_data_reg r; mem_rd_req_val_reg := mem_rd0_req_val_reg r;
     mem_rd_req_addr_reg := mem_rd0_req_addr_reg r;
     tcp_data_mem := BsgMem (bm2_mem (memory r)) (r0_addr_r (memory r)) |}.
Definition port1 (r : ram2) : ram A :=
  {| mem_wr_req_val_reg := mem2_wr_req_val_reg r; mem_wr_req_addr_reg := mem2_wr_req_addr_reg r;
     mem_wr_req_data_reg := mem2_wr_req_data_reg r; mem_rd_req_val_reg := mem_rd1_req_val_reg r;
     mem_rd_req_addr_reg := mem_rd1_req_addr_reg r;
     tcp_data_mem := BsgMem (bm2_mem (memory r)) (r1_addr_r (memory r)) |}.
Definition port0_in (i : ram2_in) : ram_in A :=
  RamIn (i2_wr_req_val i) (i2_wr_req_addr i) (i2_wr_req_data i) (i2_rd0_req_val i) (i2_rd0_req_addr i)
    (i2_rd0_resp_rdy i).
Definition port1_in (i : ram2_in) : ram_in A :=
  RamIn (i2_wr_req_val i) (i2_wr_req_addr i) (i2_wr_req_data i) (i2_rd1_req_val i) (i2_rd1_req_addr i)
    (i2_rd1_resp_rdy i).

Lemma port0_next zero rst i r : port0 (ram2_next zero rst i r) = ram_next zero rst (port0_in i) (port0 r).
Proof. unfold ram_next. cbn. by rewrite !andb_true_r. Qed.
Lemma port1_next zero rst i r : port1 (ram2_next zero rst i r) = ram_next zero rst (port1_in i) (port1 r).
Proof. unfold ram_next. cbn. by rewrite !andb_true_r. Qed.

(** ** What it promises: a memory with two reads in flight *)

Record ram2_out := Ram2Out {
  o2_rd0_req_rdy : bool; o2_rd0_resp_val : bool; o2_rd0_resp_data : option A;
  o2_rd1_req_rdy : bool; o2_rd1_resp_val : bool; o2_rd1_resp_data : option A }.

Definition ram_2r1w_sync_backpressure (zero : A) : circuit ram2 ram2_in ram2_out :=
  Circuit (λ r i, Ram2Out (rd0_req_rdy r i) (rd0_resp_val r) (rd0_resp_data r)
                          (rd1_req_rdy r i) (rd1_resp_val r) (rd1_resp_data r)) (ram2_next zero).

Definition port0_out (o : ram2_out) : ram_out A :=
  RamOut (o2_rd0_req_rdy o) (o2_rd0_resp_val o) (o2_rd0_resp_data o).
Definition port1_out (o : ram2_out) : ram_out A :=
  RamOut (o2_rd1_req_rdy o) (o2_rd1_resp_val o) (o2_rd1_resp_data o).

(** The contents, and the reads that wait for their consumers. *)
Record ram2_view := Ram2View { v2_mem : list A; v2_read0 : option Z; v2_read1 : option Z }.
Definition view0 (q : ram2_view) : ram_view A := RamView (v2_mem q) (v2_read0 q).
Definition view1 (q : ram2_view) : ram_view A := RamView (v2_mem q) (v2_read1 q).

Definition ram2_spec : spec ram2_view ram2_in ram2_out := {|
  sp_legal q i := sp_legal ram_spec (view0 q) (port0_in i) ∧ sp_legal ram_spec (view1 q) (port1_in i);
  sp_shows q i o := sp_shows ram_spec (view0 q) (port0_in i) (port0_out o) ∧
                    sp_shows ram_spec (view1 q) (port1_in i) (port1_out o);
  sp_next i q :=
    {| v2_mem := rv_mem (sp_next ram_spec (port0_in i) (view0 q));
       v2_read0 := rv_read (sp_next ram_spec (port0_in i) (view0 q));
       v2_read1 := rv_read (sp_next ram_spec (port1_in i) (view1 q)) |} |}.

Definition ram2_rel (r : ram2) (q : ram2_view) : Prop :=
  ram_rel (port0 r) (view0 q) ∧ ram_rel (port1 r) (view1 q).

Lemma ram2_simulates zero : simulates (ram_2r1w_sync_backpressure zero) ram2_spec ram2_rel.
Proof.
  intros r q i [H0 H1] [L0 L1].
  destruct (ram_simulates zero _ _ _ H0 L0) as [S0 N0]. destruct (ram_simulates zero _ _ _ H1 L1) as [S1 N1].
  split; [by split|]. cbn [c_next ram_2r1w_sync_backpressure]. split.
  - by rewrite port0_next.
  - by rewrite port1_next.
Qed.

Lemma ram2_reset zero i r :
  ram2_rel (ram2_next zero true i r) (Ram2View (contents2 (ram2_next zero true i r)) None None).
Proof. by split; split_and!. Qed.
End Ram2.
Arguments bsg_mem2 A : clear implicits.
Arguments ram2 A : clear implicits.
Arguments ram2_in A : clear implicits.
Arguments ram2_out A : clear implicits.
Arguments ram2_view A : clear implicits.
