(* ===== verification/EstArbiter.v ===== *)
(** EstArbiter: recv_pipe/fsm_est_arbiter.sv, through which the pipeline of
    established connections and that of handshakes read the state of the flows,
    over basejump_files/bsg_misc/bsg_arb_round_robin.sv. *)

From S2P Require Import Prelude.

(** ** bsg_arb_round_robin.sv and the scan it uses

    Vectors are lists with the highest bit first.  The scan takes, at every
    bit, the disjunction of the bits from the highest to it, in a logarithmic
    number of rows. *)

Definition scan_row (t : list bool) (j : nat) : list bool :=
  zip_with orb t (replicate (2 ^ j) false ++ t).
Definition bsg_scan_or (i : list bool) : list bool :=
  fold_left scan_row (seq 0 (Nat.log2_up (length i))) i.

Section Arbiter.
Variable width_p : nat.

Definition scan_li (thermocode_r reqs_i : list bool) : list bool :=
  (false :: zip_with andb thermocode_r (tail reqs_i)) ++ reqs_i.
Definition scan_lo (thermocode_r reqs_i : list bool) : list bool :=
  bsg_scan_or (scan_li thermocode_r reqs_i).
Definition edge_detect (thermocode_r reqs_i : list bool) : list bool :=
  zip_with (λ above b, negb above && b) (false :: scan_lo thermocode_r reqs_i) (scan_lo thermocode_r reqs_i).
Definition grants_o (thermocode_r reqs_i : list bool) : list bool :=
  zip_with orb (take width_p (edge_detect thermocode_r reqs_i)) (drop width_p (edge_detect thermocode_r reqs_i)).
Definition thermocode_n (thermocode_r reqs_i : list bool) : list bool :=
  if existsb id (take width_p (scan_li thermocode_r reqs_i))
  then take (width_p - 1) (scan_lo thermocode_r reqs_i)
  else take (width_p - 1) (drop width_p (scan_lo thermocode_r reqs_i)).
End Arbiter.

(** ** fsm_est_arbiter.sv *)

Definition FSM_GRANT : list bool := [false; true].
Definition EST_GRANT : list bool := [true; false].

Inductive arb_state := READY | WAIT.
#[global] Instance arb_state_eq_dec : EqDecision arb_state.
Proof. solve_decision. Defined.

Record fsm_est_arbiter := Arbiter {
  state_reg : arb_state;
  arb_decision_reg : list bool;
  thermocode_r : list bool }.

Definition arbiter_reset : fsm_est_arbiter := Arbiter READY [false; false] [false].

(** The requests of the two sides for the transmit and the receive state, and
    what the two stores show. *)
Record arb_in := ArbIn {
  fsm_tx_rd_req_val : bool; fsm_tx_rd_req_flowid : Z;
  fsm_rx_rd_req_val : bool; fsm_rx_rd_req_flowid : Z;
  est_tx_rd_req_val : bool; est_tx_rd_req_flowid : Z;
  est_rx_rd_req_val : bool; est_rx_rd_req_flowid : Z;
  curr_recv_state_rd_req_rdy : bool; curr_recv_state_rd_resp_val : bool;
  curr_tx_state_rd_req_rdy : bool; curr_tx_state_rd_resp_val : bool;
  fsm_tx_rd_resp_rdy : bool; fsm_rx_rd_resp_rdy : bool;
  est_tx_rd_resp_rdy : bool; est_rx_rd_resp_rdy : bool }.

Definition input_arb_vals (i : arb_in) : list bool :=
  [est_tx_rd_req_val i && est_rx_rd_req_val i; fsm_tx_rd_req_val i && fsm_rx_rd_req_val i].
Definition arb_output_grants (a : fsm_est_arbiter) (i : arb_in) : list bool :=
  grants_o 2 (thermocode_r a) (input_arb_vals i).
Definition some_valid (a : fsm_est_arbiter) (i : arb_in) : bool := existsb id (arb_output_grants a i).

(** A grant is made. *)
Definition arb_advance (a : fsm_est_arbiter) (i : arb_in) : bool :=
  bool_decide (state_reg a = READY) && some_valid a i
  && curr_recv_state_rd_req_rdy i && curr_tx_state_rd_req_rdy i.

Definition curr_recv_state_rd_req_val := arb_advance.
Definition curr_tx_state_rd_req_val := arb_advance.
Definition curr_recv_state_rd_req_flowid (a : fsm_est_arbiter) (i : arb_in) : Z :=
  if bool_decide (arb_output_grants a i = FSM_GRANT) then fsm_rx_rd_req_flowid i else est_rx_rd_req_flowid i.
Definition curr_tx_state_rd_req_flowid (a : fsm_est_arbiter) (i : arb_in) : Z :=
  if bool_decide (arb_output_grants a i = FSM_GRANT) then fsm_tx_rd_req_flowid i else est_tx_rd_req_flowid i.

(** The grants, the same for both stores. *)
Definition arbiter_fsm_rd_req_grant (a : fsm_est_arbiter) (i : arb_in) : bool :=
  arb_advance a i && bool_decide (arb_output_grants a i = FSM_GRANT).
Definition arbiter_est_rd_req_grant (a : fsm_est_arbiter) (i : arb_in) : bool :=
  arb_advance a i && bool_decide (arb_output_grants a i = EST_GRANT).

Definition both_resp_val (i : arb_in) : bool := curr_recv_state_rd_resp_val i && curr_tx_state_rd_resp_val i.
Definition arbiter_fsm_rd_resp_val (a : fsm_est_arbiter) (i : arb_in) : bool :=
  bool_decide (state_reg a = WAIT) && both_resp_val i && bool_decide (arb_decision_reg a = FSM_GRANT).
Definition arbiter_est_rd_resp_val (a : fsm_est_arbiter) (i : arb_in) : bool :=
  bool_decide (state_reg a = WAIT) && both_resp_val i && bool_decide (arb_decision_reg a = EST_GRANT).

Definition curr_recv_state_rd_resp_rdy (a : fsm_est_arbiter) (i : arb_in) : bool :=
  if bool_decide (arb_decision_reg a = FSM_GRANT) then fsm_rx_rd_resp_rdy i else est_rx_rd_resp_rdy i.
Definition curr_tx_state_rd_resp_rdy (a : fsm_est_arbiter) (i : arb_in) : bool :=
  if bool_decide (arb_decision_reg a = FSM_GRANT) then fsm_tx_rd_resp_rdy i else est_tx_rd_resp_rdy i.

Definition arbiter_next (i : arb_in) (a : fsm_est_arbiter) : fsm_est_arbiter :=
  {| state_reg :=
       match state_reg a with
       | READY => if arb_advance a i then WAIT else READY
       | WAIT => if both_resp_val i
                 then if curr_recv_state_rd_resp_rdy a i && curr_tx_state_rd_resp_rdy a i then READY else WAIT
                 else WAIT
       end;
     arb_decision_reg := if arb_advance a i then arb_output_grants a i else arb_decision_reg a;
     thermocode_r := if arb_advance a i then thermocode_n 2 (thermocode_r a) (input_arb_vals i)
                     else thermocode_r a |}.

(** ** What it does *)

Definition est_wants (i : arb_in) : bool := est_tx_rd_req_val i && est_rx_rd_req_val i.
Definition fsm_wants (i : arb_in) : bool := fsm_tx_rd_req_val i && fsm_rx_rd_req_val i.

(** The side that was not served last goes first. *)
Lemma grants_cases t i :
  grants_o 2 [t] (input_arb_vals i) =
  if t && fsm_wants i then FSM_GRANT
  else if est_wants i then EST_GRANT
  else if fsm_wants i then FSM_GRANT else [false; false].
Proof. unfold input_arb_vals, est_wants, fsm_wants. by destruct t, (est_tx_rd_req_val i && _), (fsm_tx_rd_req_val i && _). Qed.

Lemma thermocode_cases t i :
  thermocode_n 2 [t] (input_arb_vals i) = [negb (t && fsm_wants i) && est_wants i].
Proof. unfold input_arb_vals, est_wants, fsm_wants. by destruct t, (est_tx_rd_req_val i && _), (fsm_tx_rd_req_val i && _). Qed.

(** The thermometer is one bit: whether the established side was served last
    while the other could still go. *)
Definition arb_ok (a : fsm_est_arbiter) : Prop := ∃ t, thermocode_r a = [t].

Lemma arbiter_reset_ok : arb_ok arbiter_reset.
Proof. by exists false. Qed.

Lemma arbiter_next_ok i a : arb_ok a → arb_ok (arbiter_next i a).
Proof.
  intros [t Ht]. unfold arb_ok. cbn. destruct (arb_advance a i); [|eauto]. rewrite Ht, thermocode_cases. eauto.
Qed.

Lemma some_valid_cases a i : arb_ok a → some_valid a i = est_wants i || fsm_wants i.
Proof.
  intros [t Ht]. unfold some_valid, arb_output_grants. rewrite Ht, grants_cases.
  by destruct t, (est_wants i), (fsm_wants i).
Qed.

(** A grant is to one side, one that asked. *)
Lemma grant_one_hot a i :
  arb_ok a → arb_advance a i = true →
  (arb_output_grants a i = EST_GRANT ∧ est_wants i = true) ∨
  (arb_output_grants a i = FSM_GRANT ∧ fsm_wants i = true).
Proof.
  intros Ha Hadv. unfold arb_advance in Hadv. rewrite some_valid_cases in Hadv by done.
  destruct Ha as [t Ht]. unfold arb_output_grants. rewrite Ht, grants_cases.
  destruct t, (est_wants i), (fsm_wants i); cbn; auto; by rewrite andb_false_r in Hadv.
Qed.

(** Neither side waits for more than one grant to the other. *)
Lemma arbiter_fair a i i' :
  arb_ok a → arb_advance a i = true →
  (arb_output_grants a i = EST_GRANT → fsm_wants i' = true →
   arb_output_grants (arbiter_next i a) i' = FSM_GRANT) ∧
  (arb_output_grants a i = FSM_GRANT → est_wants i' = true →
   arb_output_grants (arbiter_next i a) i' = EST_GRANT).
Proof.
  intros [t Ht] Hadv.
  assert (Hn : thermocode_r (arbiter_next i a) = [negb (t && fsm_wants i) && est_wants i])
    by (cbn; by rewrite Hadv, Ht, thermocode_cases).
  unfold arb_output_grants. rewrite Hn, Ht, !grants_cases.
  split; intros Hg Hw; rewrite Hw;
    destruct t, (est_wants i); cbn in *; try done; destruct (fsm_wants i); try done.
Qed.
