(* ===== verification/FlowStores.v ===== *)
(** FlowStores: the memories with the state of the flows:
    recv_pipe/rx_state_store.sv, send_pipe/tx_state_store.sv and
    recv_pipe/rx_payload_ptrs.sv.  A new flow is written with priority: the
    other writer of the cycle is told that it was not. *)

From S2P Require Import Prelude Rtl RamDual TcpPkg.

(** A flow that is set up, in every store at once. *)
Record new_flow := NewFlow {
  nf_val : bool;
  nf_flowid : Z;
  nf_recv_state : recv_state_entry;
  nf_tx_state : tx_state_struct;
  nf_rx_head_ptr : Z;
  nf_rx_tail_ptr : Z }.

(** A write request. *)
Record wr_req (A : Type) := WrReq { wr_val : bool; wr_addr : Z; wr_dat : A }.
Arguments WrReq {A} _ _ _.
Arguments wr_val {A} _.
Arguments wr_addr {A} _.
Arguments wr_dat {A} _.

(** A read request with the readiness for its response. *)
Record rd_req_in := RdReq { rd_val : bool; rd_addr : Z; rd_resp_rdy : bool }.

(** The write a store gives its memory. *)
Definition mem_wr {A} (n : new_flow) (fresh : A) (w : wr_req A) : wr_req A :=
  {| wr_val := nf_val n || wr_val w;
     wr_addr := if nf_val n then nf_flowid n else wr_addr w;
     wr_dat := if nf_val n then fresh else wr_dat w |}.

Definition mem2_in {A} (w : wr_req A) (r0 r1 : rd_req_in) : ram2_in A :=
  {| i2_wr_req_val := wr_val w; i2_wr_req_addr := wr_addr w; i2_wr_req_data := wr_dat w;
     i2_rd0_req_val := rd_val r0; i2_rd0_req_addr := rd_addr r0; i2_rd0_resp_rdy := rd_resp_rdy r0;
     i2_rd1_req_val := rd_val r1; i2_rd1_req_addr := rd_addr r1; i2_rd1_resp_rdy := rd_resp_rdy r1 |}.

Definition mem1_in {A} (w : wr_req A) (r : rd_req_in) : ram_in A :=
  {| ri_wr_req_val := wr_val w; ri_wr_req_addr := wr_addr w; ri_wr_req_data := wr_dat w;
     ri_rd_req_val := rd_val r; ri_rd_req_addr := rd_addr r; ri_rd_resp_rdy := rd_resp_rdy r |}.

(** Whether the requested write is the one that is done. *)
Definition wr_rdy (n : new_flow) (mem_rdy : bool) : bool := negb (nf_val n) && mem_rdy.

(** ** rx_state_store.sv

    Port 0 is read for the receive pipeline, port 1 for the send pipeline. *)

Definition rx_state_store : Type := ram2 recv_state_entry.

Definition rx_state_ram_in (n : new_flow) (w : wr_req recv_state_entry) (r0 r1 : rd_req_in)
  : ram2_in recv_state_entry := mem2_in (mem_wr n (nf_recv_state n) w) r0 r1.

Definition rx_state_store_next (rst : bool) (n : new_flow) (w : wr_req recv_state_entry)
    (r0 r1 : rd_req_in) (s : rx_state_store) : rx_state_store :=
  ram2_next zero_rx rst (rx_state_ram_in n w r0 r1) s.

Definition recv_state_wr_req_rdy (n : new_flow) : bool := wr_rdy n wr2_req_rdy.

(** ** tx_state_store.sv

    Two memories: what the send pipeline writes, and what the receive pipeline
    writes.  Port 0 of both is the send pipeline's, port 1 the receive
    pipeline's. *)

Record tx_emit_mem_struct := TxEmit {
  em_timer : tx_ack_timer;
  em_tx_curr_seq_num : Z }.
Definition zero_emit : tx_emit_mem_struct := TxEmit zero_timer 0.

Record tx_state_store := TxStore {
  tx_emit_state : ram2 tx_emit_mem_struct;
  tx_ack_state : ram2 tx_ack_state_struct }.

Definition emit_of (t : tx_state_struct) : tx_emit_mem_struct := TxEmit (timer t) (tx_curr_seq_num t).

Definition send_pipe_rd_resp_val (s : tx_state_store) : bool :=
  rd0_resp_val (tx_emit_state s) && rd0_resp_val (tx_ack_state s).
Definition recv_pipe_rd_resp_val (s : tx_state_store) : bool :=
  rd1_resp_val (tx_emit_state s) && rd1_resp_val (tx_ack_state s).

(** The memories are read together, and let go of their responses together. *)
Definition tx_rd0 (s : tx_state_store) (r : rd_req_in) : rd_req_in :=
  RdReq (rd_val r) (rd_addr r) (rd_resp_rdy r && send_pipe_rd_resp_val s).
Definition tx_rd1 (s : tx_state_store) (r : rd_req_in) : rd_req_in :=
  RdReq (rd_val r) (rd_addr r) (rd_resp_rdy r && recv_pipe_rd_resp_val s).

(** [send_wr] is the write of the send pipeline, [recv_wr] that of the receive
    pipeline; each reaches its memory only. *)
Definition tx_emit_in (n : new_flow) (send_wr : wr_req tx_state_struct) (r0 r1 : rd_req_in)
    (s : tx_state_store) : ram2_in tx_emit_mem_struct :=
  mem2_in (mem_wr n (emit_of (nf_tx_state n)) (WrReq (wr_val send_wr) (wr_addr send_wr) (emit_of (wr_dat send_wr))))
    (tx_rd0 s r0) (tx_rd1 s r1).
Definition tx_ack_in (n : new_flow) (recv_wr : wr_req tx_state_struct) (r0 r1 : rd_req_in)
    (s : tx_state_store) : ram2_in tx_ack_state_struct :=
  mem2_in (mem_wr n (tx_curr_ack_state (nf_tx_state n))
             (WrReq (wr_val recv_wr) (wr_addr recv_wr) (tx_curr_ack_state (wr_dat recv_wr))))
    (tx_rd0 s r0) (tx_rd1 s r1).

Definition tx_state_store_next (rst : bool) (n : new_flow) (send_wr recv_wr : wr_req tx_state_struct)
    (r0 r1 : rd_req_in) (s : tx_state_store) : tx_state_store :=
  {| tx_emit_state := ram2_next zero_emit rst (tx_emit_in n send_wr r0 r1 s) (tx_emit_state s);
     tx_ack_state := ram2_next zero_ack rst (tx_ack_in n recv_wr r0 r1 s) (tx_ack_state s) |}.

(** What the receive pipeline is shown. *)
Definition recv_pipe_rd_req_rdy (r : rd_req_in) (s : tx_state_store) : bool :=
  (rd_resp_rdy r && recv_pipe_rd_resp_val s || negb (rd1_resp_val (tx_emit_state s)))
  && (rd_resp_rdy r && recv_pipe_rd_resp_val s || negb (rd1_resp_val (tx_ack_state s))).
Definition recv_pipe_rd_resp_data (s : tx_state_store) : option tx_state_struct :=
  e ← rd1_resp_data (tx_emit_state s); a ← rd1_resp_data (tx_ack_state s);
  Some (TxState (em_tx_curr_seq_num e) (em_timer e) a).
Definition recv_pipe_wr_req_rdy (n : new_flow) : bool := wr_rdy n wr2_req_rdy.
Definition send_pipe_wr_req_rdy (n : new_flow) : bool := wr_rdy n wr2_req_rdy.

(** ** rx_payload_ptrs.sv

    The head is written by the application, the commit pointer by the engine
    that copies the payloads, the tail by the receive pipeline. *)

Record rx_payload_ptrs := RxPtrs {
  head_ptrs : ram2 Z;
  commit_ptrs : ram2 Z;
  tail_ptrs : ram Z }.

Record rx_ptrs_in := RxPtrsIn {
  head_ptr_wr : wr_req Z; head_ptr_rd0 : rd_req_in; head_ptr_rd1 : rd_req_in;
  commit_ptr_wr : wr_req Z; commit_ptr_rd0 : rd_req_in; commit_ptr_rd1 : rd_req_in;
  tail_ptr_wr : wr_req Z; tail_ptr_rd : rd_req_in }.

Definition head_ptrs_in (n : new_flow) (i : rx_ptrs_in) : ram2_in Z :=
  mem2_in (mem_wr n (nf_rx_head_ptr n) (head_ptr_wr i)) (head_ptr_rd0 i) (head_ptr_rd1 i).
Definition commit_ptrs_in (n : new_flow) (i : rx_ptrs_in) : ram2_in Z :=
  mem2_in (mem_wr n (nf_rx_tail_ptr n) (commit_ptr_wr i)) (commit_ptr_rd0 i) (commit_ptr_rd1 i).
Definition tail_ptrs_in (n : new_flow) (i : rx_ptrs_in) : ram_in Z :=
  mem1_in (mem_wr n (nf_rx_tail_ptr n) (tail_ptr_wr i)) (tail_ptr_rd i).

Definition rx_payload_ptrs_next (rst : bool) (n : new_flow) (i : rx_ptrs_in) (s : rx_payload_ptrs)
  : rx_payload_ptrs :=
  {| head_ptrs := ram2_next 0 rst (head_ptrs_in n i) (head_ptrs s);
     commit_ptrs := ram2_next 0 rst (commit_ptrs_in n i) (commit_ptrs s);
     tail_ptrs := ram_next 0 rst (tail_ptrs_in n i) (tail_ptrs s) |}.

Definition head_ptr_wr_req_rdy (n : new_flow) : bool := wr_rdy n wr2_req_rdy.
Definition commit_ptr_wr_req_rdy (n : new_flow) : bool := wr_rdy n wr2_req_rdy.
Definition tail_ptr_wr_req_rdy (n : new_flow) : bool := wr_rdy n wr_req_rdy.

(** ** What a cycle does to a memory: lemmas *)

Definition written {A} (w : wr_req A) (l : list A) : list A :=
  if wr_val w then <[Z.to_nat (wr_addr w) := wr_dat w]> l else l.

(** The read in flight after a cycle. *)
Definition reads_next (a : option Z) (r : rd_req_in) : option Z :=
  if rd_resp_rdy r || bool_decide (a = None) then if rd_val r then Some (rd_addr r) else None else a.

Definition wr_ok {A} (l : list A) (w : wr_req A) : Prop := wr_val w = true → in_range l (wr_addr w).
Definition rd_ok {A} (l : list A) (r : rd_req_in) : Prop := rd_val r = true → in_range l (rd_addr r).

Lemma length_written {A} (w : wr_req A) l : length (written w l) = length l.
Proof. unfold written. destruct (wr_val w); [apply length_insert|done]. Qed.

Lemma contents2_written {A} (zero : A) rst w r0 r1 m :
  contents2 (ram2_next zero rst (mem2_in w r0 r1) m) = written w (contents2 m).
Proof. done. Qed.

Lemma contents_written {A} (zero : A) rst w r m :
  contents (ram_next zero rst (mem1_in w r) m) = written w (contents m).
Proof. apply contents_next. Qed.

Section Step.
Context {A : Type} (zero : A) (w : wr_req A) (r0 r1 : rd_req_in).

Lemma port0_step m a :
  ram_rel (port0 m) (RamView (contents2 m) a) → wr_ok (contents2 m) w → rd_ok (contents2 m) r0 →
  ram_rel (port0 (ram2_next zero false (mem2_in w r0 r1) m)) (RamView (written w (contents2 m)) (reads_next a r0)).
Proof. intros H Hw Hr. rewrite port0_next. by apply (ram_simulates zero _ _ (port0_in (mem2_in w r0 r1)) H). Qed.

Lemma port1_step m a :
  ram_rel (port1 m) (RamView (contents2 m) a) → wr_ok (contents2 m) w → rd_ok (contents2 m) r1 →
  ram_rel (port1 (ram2_next zero false (mem2_in w r0 r1) m)) (RamView (written w (contents2 m)) (reads_next a r1)).
Proof. intros H Hw Hr. rewrite port1_next. by apply (ram_simulates zero _ _ (port1_in (mem2_in w r0 r1)) H). Qed.

Lemma mem1_step m a :
  ram_rel m (RamView (contents m) a) → wr_ok (contents m) w → rd_ok (contents m) r0 →
  ram_rel (ram_next zero false (mem1_in w r0) m) (RamView (written w (contents m)) (reads_next a r0)).
Proof. intros H Hw Hr. by apply (ram_simulates zero _ _ (mem1_in w r0) H). Qed.
End Step.

(** Every store has a place per flow. *)
Definition sized {A} (l : list A) : Prop := length l = MAX_FLOW_CNT.

Lemma sized_written {A} (w : wr_req A) l : sized l → sized (written w l).
Proof. unfold sized. by rewrite length_written. Qed.

Lemma sized_in_range {A} (l : list A) f : sized l → flow_ok f → in_range l f.
Proof. unfold sized, in_range, flow_ok. by intros ->. Qed.

Lemma sized_lookup {A} (l : list A) f : sized l → flow_ok f → ∃ d, l !! Z.to_nat f = Some d.
Proof. intros Hs Hf. by apply in_range_lookup, sized_in_range. Qed.

Lemma mem_wr_ok {A} (l : list A) n fresh w :
  sized l → (nf_val n = true → flow_ok (nf_flowid n)) → (wr_val w = true → flow_ok (wr_addr w)) →
  wr_ok l (mem_wr n fresh w).
Proof.
  intros Hs Hn Hw. unfold wr_ok, mem_wr. cbn [wr_val wr_addr]. intros H. apply sized_in_range; [done|].
  destruct (nf_val n); auto.
Qed.

(** What is read at a flow after a cycle. *)
Lemma written_lookup {A} (w : wr_req A) l f :
  sized l → flow_ok f → (wr_val w = true → flow_ok (wr_addr w)) →
  written w l !! Z.to_nat f = if wr_val w && (wr_addr w =? f) then Some (wr_dat w) else l !! Z.to_nat f.
Proof.
  intros Hs Hf Hw. unfold written. destruct (wr_val w); [|done]. cbn [andb]. specialize (Hw eq_refl).
  unfold sized, flow_ok in *. destruct (Z.eqb_spec (wr_addr w) f) as [->|Hne].
  - apply list_lookup_insert_eq. lia.
  - apply list_lookup_insert_ne. intros E. apply Hne. lia.
Qed.

(** ** What the stores show *)

Lemma port_shows {A} (r : ram A) v a :
  ram_rel r v → rv_read v = Some a → rd_resp_val r = true ∧ rd_resp_data r = rv_mem v !! Z.to_nat a.
Proof.
  intros (_ & Hv & Hd) E. rewrite E in Hv. split; [exact Hv|]. by apply (Hd a E).
Qed.

Lemma port_idle {A} (r : ram A) v : ram_rel r v → rv_read v = None → rd_resp_val r = false.
Proof. intros (_ & Hv & _) E. by rewrite E in Hv. Qed.

(** Port 0 or 1 of a memory is shown what the port is. *)
Lemma port0_val {A} (r : ram2 A) : rd0_resp_val r = rd_resp_val (port0 r).
Proof. done. Qed.
Lemma port1_val {A} (r : ram2 A) : rd1_resp_val r = rd_resp_val (port1 r).
Proof. done. Qed.
Lemma port0_data {A} (r : ram2 A) : rd0_resp_data r = rd_resp_data (port0 r).
Proof. done. Qed.
Lemma port1_data {A} (r : ram2 A) : rd1_resp_data r = rd_resp_data (port1 r).
Proof. done. Qed.

(** ** For concrete runs *)

Definition flow_okb (f : Z) : bool := (0 <=? f) && (f <? Z.of_nat MAX_FLOW_CNT).

Lemma flow_okb_ok f : flow_okb f = true → flow_ok f.
Proof. unfold flow_okb, flow_ok. rewrite andb_true_iff, Z.leb_le, Z.ltb_lt. done. Qed.

Lemma implb_ok b c : implb b c = true → b = true → c = true.
Proof. by destruct b, c. Qed.

Definition junk_ram2 {A} (a : A) : ram2 A :=
  {| mem2_wr_req_val_reg := true; mem2_wr_req_addr_reg := 3; mem2_wr_req_data_reg := a;
     mem_rd0_req_val_reg := true; mem_rd0_req_addr_reg := 3; mem_rd1_req_val_reg := true;
     mem_rd1_req_addr_reg := 2; memory := BsgMem2 (replicate 16 a) (Some 5) None |}.

Definition no_rd : rd_req_in := RdReq false 0 true.
Definition no_flow : new_flow := NewFlow false 0 zero_rx zero_tx 0 0.
