(* ===== verification/EstPipe.v ===== *)
(** EstPipe: recv_pipe/est_pipe.sv, the pipeline that takes the packets of
    established connections: read the state of the flow (R), compute (C), write
    back (W).  The requests for the pointers of the receive buffer leave one
    stage earlier than those for the state. *)

From S2P Require Import Prelude Rtl TcpPkg AckEngines.

(** ** Signals *)

(** A packet of a flow, as the stages hand it on. *)
Record est_pkt := EstPkt {
  est_tcp_hdr : tcp_pkt_hdr;
  est_flowid : Z;
  est_payload_val : bool;
  est_payload_entry : payload_buf_struct }.
Definition zero_pkt : est_pkt := EstPkt zero_hdr 0 false zero_payload.

Record est_in := EstIn {
  est_hdr_val : bool;
  est_pkt_in : est_pkt;
  rx_state_est_pipe_rd_req_rdy : bool;
  rx_state_est_pipe_rd_resp_val : bool;
  rx_state_est_pipe_rd_resp_data : recv_state_entry;
  tx_state_est_pipe_rd_req_rdy : bool;
  tx_state_est_pipe_rd_resp_val : bool;
  tx_state_est_pipe_rd_resp_data : tx_state_struct;
  next_recv_state_wr_req_rdy : bool;
  tx_state_rx_pipe_wr_req_rdy : bool;
  tx_head_ptr_rx_pipe_wr_req_rdy : bool;
  rx_head_ptr_rx_pipe_rd_req_rdy : bool;
  rx_head_ptr_rx_pipe_rd_resp_val : bool;
  rx_head_ptr_rx_pipe_rd_resp_data : Z;
  rx_tail_ptr_rx_pipe_rd_req_rdy : bool;
  rx_tail_ptr_rx_pipe_rd_resp_val : bool;
  rx_tail_ptr_rx_pipe_rd_resp_data : Z;
  rx_store_buf_q_full : bool }.

(** ** The compute stage, on the state it is given *)

(** What it is given: the state of the flow, the head of its receive buffer and
    the number its next byte is sent with. *)
Record flow_state := FlowState {
  fs_rx : recv_state_entry;
  fs_ack : tx_ack_state_struct;
  fs_tail : Z }.

Definition rx_payload_q_space_left (tail head : Z) : Z := rx_ptr (2 ^ RX_PAYLOAD_PTR_W - rx_ptr (tail - head)).

(** What it makes of it. *)
Record computed := Computed {
  next_recv_state_struct : recv_state_entry;
  next_ack_state_struct : tx_ack_state_struct;
  next_rx_payload_q_tail_ptr : Z;
  accept_payload : bool;
  set_rt_flag : bool;
  next_tx_head_ptr : Z }.

Definition compute_stage (p : est_pkt) (st : flow_state) (head curr_seq_num : Z) : computed :=
  let payload_len := payload_len (est_payload_entry p) in
  let space_left := rx_payload_q_space_left (fs_tail st) head in
  let has_space := payload_len <=? space_left in
  let rx := rx_ack_engine (rx_curr_ack_num (fs_rx st)) (seq_num (est_tcp_hdr p)) (est_payload_val p) payload_len in
  let tx := tx_ack_engine (tx_curr_ack_num (fs_ack st)) (ack_num (est_tcp_hdr p)) curr_seq_num
              (tx_curr_ack_cnt (fs_ack st)) in
  let accept := rxe_accept_payload rx && has_space in
  {| next_recv_state_struct :=
       {| rx_curr_ack_num := if accept then rxe_next_ack_num rx else rx_curr_ack_num (fs_rx st);
          rx_curr_wnd_size := space_left |};
     next_ack_state_struct :=
       {| tx_curr_ack_cnt := txe_next_ack_cnt tx; tx_curr_ack_num := txe_next_ack_num tx |};
     next_rx_payload_q_tail_ptr := if accept then rx_ptr (fs_tail st + payload_len) else fs_tail st;
     accept_payload := accept;
     set_rt_flag := txe_set_rt_flag tx;
     next_tx_head_ptr := txe_next_head_ptr tx |}.

(** ** The pipeline's registers *)

Record est_pipe := EstRegs {
  est_hdr_val_reg_r : bool;
  est_pkt_reg_r : est_pkt;

  est_hdr_val_reg_c : bool;
  est_pkt_reg_c : est_pkt;
  est_rx_payload_q_head_ptr_reg_c : Z;
  est_rx_payload_q_tail_ptr_reg_c : Z;

  est_hdr_val_reg_w : bool;
  est_flowid_reg_w : Z;
  est_payload_val_reg_w : bool;
  est_payload_entry_reg_w : payload_buf_struct;
  accept_payload_reg_w : bool;
  next_recv_state_struct_reg_w : recv_state_entry;
  next_tx_state_struct_reg_w : tx_state_struct;
  next_tx_head_ptr_reg_w : Z;
  set_rt_flag_reg_w : bool;
  next_rx_payload_q_tail_ptr_reg_w : Z;
  prev_rx_payload_q_tail_ptr_reg_w : Z;
  dbg_est_hdr_struct_reg_w : tcp_pkt_hdr;
  dropped_pkt_cnt_reg_w : Z }.

Definition est_flowid_reg_r (s : est_pipe) : Z := est_flowid (est_pkt_reg_r s).
Definition est_flowid_reg_c (s : est_pipe) : Z := est_flowid (est_pkt_reg_c s).

(** ** Stalls *)

Definition stall_w (i : est_in) : bool :=
  negb (next_recv_state_wr_req_rdy i) || negb (tx_state_rx_pipe_wr_req_rdy i)
  || negb (tx_head_ptr_rx_pipe_wr_req_rdy i) || rx_store_buf_q_full i.

Definition stall_c (s : est_pipe) (i : est_in) : bool :=
  est_hdr_val_reg_c s &&
  (stall_w i || negb (tx_state_est_pipe_rd_resp_val i) || negb (rx_state_est_pipe_rd_resp_val i)).

Definition stall_r (s : est_pipe) (i : est_in) : bool :=
  est_hdr_val_reg_r s &&
  (stall_c s i || negb (rx_state_est_pipe_rd_req_rdy i) || negb (tx_state_est_pipe_rd_req_rdy i)
   || negb (rx_head_ptr_rx_pipe_rd_resp_val i) || negb (rx_tail_ptr_rx_pipe_rd_resp_val i)).

Definition est_pipe_rdy (s : est_pipe) (i : est_in) : bool :=
  negb (stall_r s i) && rx_head_ptr_rx_pipe_rd_req_rdy i && rx_tail_ptr_rx_pipe_rd_req_rdy i.

(** ** The compute stage, with what is bypassed from W *)

Definition byp_state_c (s : est_pipe) : bool :=
  est_hdr_val_reg_c s && est_hdr_val_reg_w s && (est_flowid_reg_c s =? est_flowid_reg_w s).

(** What is in W, as the state of its flow. *)
Definition flow_state_w (s : est_pipe) : flow_state :=
  {| fs_rx := next_recv_state_struct_reg_w s;
     fs_ack := tx_curr_ack_state (next_tx_state_struct_reg_w s);
     fs_tail := next_rx_payload_q_tail_ptr_reg_w s |}.

Definition curr_flow_state_byp_c (s : est_pipe) (i : est_in) : flow_state :=
  {| fs_rx := if byp_state_c s then fs_rx (flow_state_w s) else rx_state_est_pipe_rd_resp_data i;
     fs_ack :=
       {| tx_curr_ack_cnt := if byp_state_c s then tx_curr_ack_cnt (fs_ack (flow_state_w s))
                             else tx_curr_ack_cnt (tx_curr_ack_state (tx_state_est_pipe_rd_resp_data i));
          tx_curr_ack_num := if byp_state_c s then tx_curr_ack_num (fs_ack (flow_state_w s))
                             else tx_curr_ack_num (tx_curr_ack_state (tx_state_est_pipe_rd_resp_data i)) |};
     fs_tail := if byp_state_c s then fs_tail (flow_state_w s) else est_rx_payload_q_tail_ptr_reg_c s |}.

Definition computed_c (s : est_pipe) (i : est_in) : computed :=
  compute_stage (est_pkt_reg_c s) (curr_flow_state_byp_c s i) (est_rx_payload_q_head_ptr_reg_c s)
    (tx_curr_seq_num (tx_state_est_pipe_rd_resp_data i)).

Section EstPipe.
(** The timer of the written state has no driver. *)
Variable undriven_timer : tx_ack_timer.

Definition next_tx_state_struct_c (s : est_pipe) (i : est_in) : tx_state_struct :=
  {| tx_curr_seq_num := tx_curr_seq_num (tx_state_est_pipe_rd_resp_data i);
     timer := undriven_timer;
     tx_curr_ack_state := next_ack_state_struct (computed_c s i) |}.

Definition dropped_pkt_cnt_next_w (s : est_pipe) (i : est_in) : Z :=
  if est_hdr_val_reg_w s && negb (stall_w i) && negb (accept_payload_reg_w s)
  then (dropped_pkt_cnt_reg_w s + 1) mod 2 ^ 64 else dropped_pkt_cnt_reg_w s.

Definition est_next (i : est_in) (s : est_pipe) : est_pipe :=
  let sr := stall_r s i in let sc := stall_c s i in let sw := stall_w i in
  let c := computed_c s i in
  {| est_hdr_val_reg_r := if negb sr then est_hdr_val i else est_hdr_val_reg_r s;
     est_pkt_reg_r := if negb sr then est_pkt_in i else est_pkt_reg_r s;

     est_hdr_val_reg_c := if negb sc then est_hdr_val_reg_r s && negb sr else est_hdr_val_reg_c s;
     est_pkt_reg_c := if negb sc then est_pkt_reg_r s else est_pkt_reg_c s;
     est_rx_payload_q_head_ptr_reg_c :=
       if negb sc then rx_head_ptr_rx_pipe_rd_resp_data i else est_rx_payload_q_head_ptr_reg_c s;
     est_rx_payload_q_tail_ptr_reg_c :=
       if negb sc then rx_tail_ptr_rx_pipe_rd_resp_data i else est_rx_payload_q_tail_ptr_reg_c s;

     est_hdr_val_reg_w := if negb sw then est_hdr_val_reg_c s && negb sc else est_hdr_val_reg_w s;
     est_flowid_reg_w := if negb sw then est_flowid_reg_c s else est_flowid_reg_w s;
     est_payload_val_reg_w :=
       if negb sw then est_payload_val (est_pkt_reg_c s) && accept_payload c else est_payload_val_reg_w s;
     est_payload_entry_reg_w :=
       if negb sw then est_payload_entry (est_pkt_reg_c s) else est_payload_entry_reg_w s;
     accept_payload_reg_w := if negb sw then accept_payload c else accept_payload_reg_w s;
     next_recv_state_struct_reg_w :=
       if negb sw then next_recv_state_struct c else next_recv_state_struct_reg_w s;
     next_tx_state_struct_reg_w :=
       if negb sw then next_tx_state_struct_c s i else next_tx_state_struct_reg_w s;
     next_tx_head_ptr_reg_w := if negb sw then next_tx_head_ptr c else next_tx_head_ptr_reg_w s;
     set_rt_flag_reg_w := if negb sw then set_rt_flag c else set_rt_flag_reg_w s;
     next_rx_payload_q_tail_ptr_reg_w :=
       if negb sw then next_rx_payload_q_tail_ptr c else next_rx_payload_q_tail_ptr_reg_w s;
     prev_rx_payload_q_tail_ptr_reg_w :=
       if negb sw then fs_tail (curr_flow_state_byp_c s i) else prev_rx_payload_q_tail_ptr_reg_w s;
     dbg_est_hdr_struct_reg_w :=
       if negb sw then est_tcp_hdr (est_pkt_reg_c s) else dbg_est_hdr_struct_reg_w s;
     dropped_pkt_cnt_reg_w := dropped_pkt_cnt_next_w s i |}.
End EstPipe.

Definition est_reset : est_pipe :=
  {| est_hdr_val_reg_r := false; est_pkt_reg_r := zero_pkt;
     est_hdr_val_reg_c := false; est_pkt_reg_c := zero_pkt;
     est_rx_payload_q_head_ptr_reg_c := 0; est_rx_payload_q_tail_ptr_reg_c := 0;
     est_hdr_val_reg_w := false; est_flowid_reg_w := 0; est_payload_val_reg_w := false;
     est_payload_entry_reg_w := zero_payload; accept_payload_reg_w := false;
     next_recv_state_struct_reg_w := zero_rx; next_tx_state_struct_reg_w := zero_tx;
     next_tx_head_ptr_reg_w := 0; set_rt_flag_reg_w := false;
     next_rx_payload_q_tail_ptr_reg_w := 0; prev_rx_payload_q_tail_ptr_reg_w := 0;
     dbg_est_hdr_struct_reg_w := zero_hdr; dropped_pkt_cnt_reg_w := 0 |}.

(** ** The writeback stage *)

Definition set_rt_flag_val (s : est_pipe) : bool := set_rt_flag_reg_w s && est_hdr_val_reg_w s.
Definition rx_pipe_rx_tail_ptr_wr_req_val (s : est_pipe) : bool :=
  est_hdr_val_reg_w s && accept_payload_reg_w s.
Definition rx_store_buf_q_wr_req_val (s : est_pipe) (i : est_in) : bool :=
  est_hdr_val_reg_w s && negb (stall_w i) && (0 <? payload_len (est_payload_entry_reg_w s)).
Definition rx_store_buf_q_wr_req_data (s : est_pipe) : rx_store_buf_q_struct :=
  RxStoreBufQ (est_flowid_reg_w s) (accept_payload_reg_w s) (est_payload_entry_reg_w s).
