(* ===== verification/EstBackend.v ===== *)
(** EstBackend: the pipeline of established connections wired to its stores as
    in recv_pipe/rx_pipe_wrap.sv and tcp_engine_wrapper.sv: the arbiter in front
    of the state stores, the pointers read directly.  The handshake pipeline,
    the send pipeline, the application and the copy engine are inputs. *)

From S2P Require Import Prelude Rtl RamDual TcpPkg AckEngines EstArbiter FlowStores EstPipe.

(** What an ['X] is read as, and the timer nothing drives. *)
Record unknowns := Unknowns {
  x_rx : recv_state_entry;
  x_tx : tx_state_struct;
  x_ptr : Z;
  x_timer : tx_ack_timer }.

Record backend := Backend {
  est_flow_pipe : est_pipe;
  fsm_est_pipe_arbiter : fsm_est_arbiter;
  rx_store : rx_state_store;
  tx_store : tx_state_store;
  rx_payload_qs : rx_payload_ptrs }.

Record backend_in := BackendIn {
  bi_hdr_val : bool;
  bi_pkt : est_pkt;
  bi_new_flow : new_flow;
  bi_fsm_rx_rd : rd_req_in;
  bi_fsm_tx_rd : rd_req_in;
  bi_send_rx_rd : rd_req_in;
  bi_send_tx_rd : rd_req_in;
  bi_send_tx_wr : wr_req tx_state_struct;
  bi_app_head_wr : wr_req Z;
  bi_app_head_rd : rd_req_in;
  bi_commit_wr : wr_req Z;
  bi_commit_rd0 : rd_req_in;
  bi_commit_rd1 : rd_req_in;
  bi_tx_head_ptr_wr_rdy : bool;
  bi_store_buf_q_full : bool }.

(** What a packet leaves behind in its last stage. *)
Record writeback := Writeback {
  wb_flowid : Z;
  wb_state : flow_state;
  wb_accept : bool;
  wb_set_rt : bool;
  wb_tx_head : Z;
  wb_payload : payload_buf_struct }.

Record backend_out := BackendOut {
  bo_rdy : bool;
  bo_writeback : option writeback;
  bo_store_buf_q_wr : option rx_store_buf_q_struct;
  bo_set_rt_flag : option Z }.

Section Backend.
Variable x : unknowns.

(** ** Wires

    Nothing loops: the stall of C needs no grant, the grant needs that stall,
    the stall of R needs the grant, the pointers are told of that stall. *)

Definition est_wires (s : backend) (i : backend_in) (rx_tx_grant head_rdy tail_rdy : bool) : est_in :=
  let both := rd0_resp_val (rx_store s) && recv_pipe_rd_resp_val (tx_store s) in
  let resp_val := bool_decide (state_reg (fsm_est_pipe_arbiter s) = WAIT) && both
                  && bool_decide (arb_decision_reg (fsm_est_pipe_arbiter s) = EST_GRANT) in
  {| est_hdr_val := bi_hdr_val i;
     est_pkt_in := bi_pkt i;
     rx_state_est_pipe_rd_req_rdy := rx_tx_grant;
     rx_state_est_pipe_rd_resp_val := resp_val;
     rx_state_est_pipe_rd_resp_data := default (x_rx x) (rd0_resp_data (rx_store s));
     tx_state_est_pipe_rd_req_rdy := rx_tx_grant;
     tx_state_est_pipe_rd_resp_val := resp_val;
     tx_state_est_pipe_rd_resp_data := default (x_tx x) (recv_pipe_rd_resp_data (tx_store s));
     next_recv_state_wr_req_rdy := recv_state_wr_req_rdy (bi_new_flow i);
     tx_state_rx_pipe_wr_req_rdy := recv_pipe_wr_req_rdy (bi_new_flow i);
     tx_head_ptr_rx_pipe_wr_req_rdy := bi_tx_head_ptr_wr_rdy i;
     rx_head_ptr_rx_pipe_rd_req_rdy := head_rdy;
     rx_head_ptr_rx_pipe_rd_resp_val := rd0_resp_val (head_ptrs (rx_payload_qs s));
     rx_head_ptr_rx_pipe_rd_resp_data := default (x_ptr x) (rd0_resp_data (head_ptrs (rx_payload_qs s)));
     rx_tail_ptr_rx_pipe_rd_req_rdy := tail_rdy;
     rx_tail_ptr_rx_pipe_rd_resp_val := rd_resp_val (tail_ptrs (rx_payload_qs s));
     rx_tail_ptr_rx_pipe_rd_resp_data := default (x_ptr x) (rd_resp_data (tail_ptrs (rx_payload_qs s)));
     rx_store_buf_q_full := bi_store_buf_q_full i |}.

Definition stalled_w (s : backend) (i : backend_in) : bool := stall_w (est_wires s i false false false).
Definition stalled_c (s : backend) (i : backend_in) : bool :=
  stall_c (est_flow_pipe s) (est_wires s i false false false).

(** The reads of the state stores, through the arbiter. *)
Definition rx_rd0 (s : backend) (a : arb_in) : rd_req_in :=
  {| rd_val := curr_recv_state_rd_req_val (fsm_est_pipe_arbiter s) a;
     rd_addr := curr_recv_state_rd_req_flowid (fsm_est_pipe_arbiter s) a;
     rd_resp_rdy := curr_recv_state_rd_resp_rdy (fsm_est_pipe_arbiter s) a |}.
Definition tx_rd1_req (s : backend) (a : arb_in) : rd_req_in :=
  {| rd_val := curr_tx_state_rd_req_val (fsm_est_pipe_arbiter s) a;
     rd_addr := curr_tx_state_rd_req_flowid (fsm_est_pipe_arbiter s) a;
     rd_resp_rdy := curr_tx_state_rd_resp_rdy (fsm_est_pipe_arbiter s) a |}.

(** The requests, before it is known whether the stores take one. *)
Definition arb_wires (s : backend) (i : backend_in) (rx_rdy tx_rdy : bool) : arb_in :=
  let p := est_flow_pipe s in
  {| fsm_tx_rd_req_val := rd_val (bi_fsm_tx_rd i); fsm_tx_rd_req_flowid := rd_addr (bi_fsm_tx_rd i);
     fsm_rx_rd_req_val := rd_val (bi_fsm_rx_rd i); fsm_rx_rd_req_flowid := rd_addr (bi_fsm_rx_rd i);
     est_tx_rd_req_val := est_hdr_val_reg_r p; est_tx_rd_req_flowid := est_flowid_reg_r p;
     est_rx_rd_req_val := est_hdr_val_reg_r p; est_rx_rd_req_flowid := est_flowid_reg_r p;
     curr_recv_state_rd_req_rdy := rx_rdy; curr_recv_state_rd_resp_val := rd0_resp_val (rx_store s);
     curr_tx_state_rd_req_rdy := tx_rdy; curr_tx_state_rd_resp_val := recv_pipe_rd_resp_val (tx_store s);
     fsm_tx_rd_resp_rdy := rd_resp_rdy (bi_fsm_tx_rd i); fsm_rx_rd_resp_rdy := rd_resp_rdy (bi_fsm_rx_rd i);
     est_tx_rd_resp_rdy := negb (stalled_c s i); est_rx_rd_resp_rdy := negb (stalled_c s i) |}.

Definition sys_arb_in (s : backend) (i : backend_in) : arb_in :=
  let a := arb_wires s i false false in
  arb_wires s i
    (rd_resp_rdy (rx_rd0 s a) || negb (rd0_resp_val (rx_store s)))
    (recv_pipe_rd_req_rdy (tx_rd1_req s a) (tx_store s)).

Definition granted (s : backend) (i : backend_in) : bool :=
  arbiter_est_rd_req_grant (fsm_est_pipe_arbiter s) (sys_arb_in s i).

Definition stalled_r (s : backend) (i : backend_in) : bool :=
  stall_r (est_flow_pipe s) (est_wires s i (granted s i) false false).

(** The reads of the pointers, straight from the input. *)
Definition ptr_rd (s : backend) (i : backend_in) : rd_req_in :=
  RdReq (bi_hdr_val i) (est_flowid (bi_pkt i)) (negb (stalled_r s i)).

Definition sys_est_in (s : backend) (i : backend_in) : est_in :=
  est_wires s i (granted s i)
    (rd_resp_rdy (ptr_rd s i) || negb (rd0_resp_val (head_ptrs (rx_payload_qs s))))
    (rd_resp_rdy (ptr_rd s i) || negb (rd_resp_val (tail_ptrs (rx_payload_qs s)))).

(** The writes of W. *)
Definition rx_wr (s : backend) : wr_req recv_state_entry :=
  let p := est_flow_pipe s in
  WrReq (est_hdr_val_reg_w p) (est_flowid_reg_w p) (next_recv_state_struct_reg_w p).
Definition tx_wr (s : backend) : wr_req tx_state_struct :=
  let p := est_flow_pipe s in
  WrReq (est_hdr_val_reg_w p) (est_flowid_reg_w p) (next_tx_state_struct_reg_w p).
Definition tail_wr (s : backend) : wr_req Z :=
  let p := est_flow_pipe s in
  WrReq (rx_pipe_rx_tail_ptr_wr_req_val p) (est_flowid_reg_w p) (next_rx_payload_q_tail_ptr_reg_w p).

Definition sys_ptrs_in (s : backend) (i : backend_in) : rx_ptrs_in :=
  {| head_ptr_wr := bi_app_head_wr i; head_ptr_rd0 := ptr_rd s i; head_ptr_rd1 := bi_app_head_rd i;
     commit_ptr_wr := bi_commit_wr i; commit_ptr_rd0 := bi_commit_rd0 i; commit_ptr_rd1 := bi_commit_rd1 i;
     tail_ptr_wr := tail_wr s; tail_ptr_rd := ptr_rd s i |}.

(** ** The backend as one module *)

Definition backend_next (rst : bool) (i : backend_in) (s : backend) : backend :=
  let a := sys_arb_in s i in let n := bi_new_flow i in
  {| est_flow_pipe := if rst then est_reset else est_next (x_timer x) (sys_est_in s i) (est_flow_pipe s);
     fsm_est_pipe_arbiter := if rst then arbiter_reset else arbiter_next a (fsm_est_pipe_arbiter s);
     rx_store := rx_state_store_next rst n (rx_wr s) (rx_rd0 s a) (bi_send_rx_rd i) (rx_store s);
     tx_store := tx_state_store_next rst n (bi_send_tx_wr i) (tx_wr s) (bi_send_tx_rd i) (tx_rd1_req s a)
                   (tx_store s);
     rx_payload_qs := rx_payload_ptrs_next rst n (sys_ptrs_in s i) (rx_payload_qs s) |}.

Definition writeback_w (p : est_pipe) : writeback :=
  {| wb_flowid := est_flowid_reg_w p; wb_state := flow_state_w p; wb_accept := accept_payload_reg_w p;
     wb_set_rt := set_rt_flag_reg_w p; wb_tx_head := next_tx_head_ptr_reg_w p;
     wb_payload := est_payload_entry_reg_w p |}.

Definition est_backend : circuit backend backend_in backend_out := Circuit
  (λ s i,
     let p := est_flow_pipe s in let e := sys_est_in s i in
     {| bo_rdy := est_pipe_rdy p e;
        bo_writeback := if est_hdr_val_reg_w p && negb (stall_w e) then Some (writeback_w p) else None;
        bo_store_buf_q_wr :=
          if rx_store_buf_q_wr_req_val p e then Some (rx_store_buf_q_wr_req_data p) else None;
        bo_set_rt_flag := if set_rt_flag_val p then Some (est_flowid_reg_w p) else None |})
  backend_next.
End Backend.
