(* ===== verification/EstRun.v ===== *)
(** EstRun: what a run of the backend computes.  Its packets are processed one
    at a time, in the order they arrive, each on what the one before it on the
    same flow left, provided no packet enters C in the very cycle in which an
    accepted one of its flow leaves W: then it has read a tail that is out of
    date, and nothing corrects it. *)

From stdpp Require Import functions.
From S2P Require Import Prelude Rtl RamDual TcpPkg AckEngines EstArbiter FlowStores EstPipe EstBackend.

(** ** The specification: one packet at a time *)

(** A packet, with the head and the sent number it was processed with; or a
    flow that is set up. *)
Inductive est_event :=
| Segment (p : est_pkt) (head snd : Z)
| Opened (f : Z) (st : flow_state).

Definition state_of (c : computed) : flow_state :=
  FlowState (next_recv_state_struct c) (next_ack_state_struct c) (next_rx_payload_q_tail_ptr c).

Definition result (p : est_pkt) (c : computed) : writeback :=
  {| wb_flowid := est_flowid p; wb_state := state_of c; wb_accept := accept_payload c;
     wb_set_rt := set_rt_flag c; wb_tx_head := next_tx_head_ptr c; wb_payload := est_payload_entry p |}.

(** The states of the flows, by number. *)
Abbreviation flows := (Z → flow_state).

Definition event_next (L : flows) (e : est_event) : flows :=
  match e with
  | Segment p h s => <[est_flowid p := state_of (compute_stage p (L (est_flowid p)) h s)]> L
  | Opened f st => <[f := st]> L
  end.

Fixpoint process (L : flows) (es : list est_event) : list writeback :=
  match es with
  | [] => []
  | e :: es' =>
      match e with
      | Segment p h s => [result p (compute_stage p (L (est_flowid p)) h s)]
      | Opened _ _ => []
      end ++ process (event_next L e) es'
  end.

Definition flows_after (L : flows) (es : list est_event) : flows := fold_left event_next es L.

Definition segments (es : list est_event) : list est_pkt :=
  es ≫= λ e, match e with Segment p _ _ => [p] | Opened _ _ => [] end.

Section Run.
Variable x : unknowns.

(** ** What happens in a run

    The states of the flows, as the stores hold them. *)
Definition stored (s : backend) (f : Z) : flow_state :=
  {| fs_rx := default (x_rx x) (contents2 (rx_store s) !! Z.to_nat f);
     fs_ack := default (tx_curr_ack_state (x_tx x)) (contents2 (tx_ack_state (tx_store s)) !! Z.to_nat f);
     fs_tail := default (x_ptr x) (contents (tail_ptrs (rx_payload_qs s)) !! Z.to_nat f) |}.
Definition head_of (s : backend) (f : Z) : Z :=
  default (x_ptr x) (contents2 (head_ptrs (rx_payload_qs s)) !! Z.to_nat f).
Definition sent_of (s : backend) (f : Z) : Z :=
  match contents2 (tx_emit_state (tx_store s)) !! Z.to_nat f with
  | Some e => em_tx_curr_seq_num e
  | None => tx_curr_seq_num (x_tx x)
  end.

(** Moves from R to C and from C to W. *)
Definition enters_c (s : backend) (i : backend_in) : bool :=
  est_hdr_val_reg_r (est_flow_pipe s) && negb (stalled_r x s i).
Definition enters_w (s : backend) (i : backend_in) : bool :=
  est_hdr_val_reg_c (est_flow_pipe s) && negb (stalled_c x s i).

(** The events of a cycle.  [h] is the head of the packet in C, in the memory
    when it entered. *)
Definition cycle_events (h : Z) (s : backend) (i : backend_in) : list est_event :=
  (if enters_w s i
   then let p := est_pkt_reg_c (est_flow_pipe s) in [Segment p h (sent_of s (est_flowid p))] else []) ++
  (let n := bi_new_flow i in
   if nf_val n
   then [Opened (nf_flowid n) (FlowState (nf_recv_state n) (tx_curr_ack_state (nf_tx_state n)) (nf_rx_tail_ptr n))]
   else []).
Definition head_next (h : Z) (s : backend) (i : backend_in) : Z :=
  if enters_c s i then head_of s (est_flowid_reg_r (est_flow_pipe s)) else h.

Fixpoint events (h : Z) (ins : list backend_in) (s : backend) : list est_event :=
  match ins with
  | [] => []
  | i :: ins' => cycle_events h s i ++ events (head_next h s i) ins' (backend_next x false i s)
  end.

(** The packets taken, and the results written back. *)
Definition accepted_pkts (ins : list backend_in) (outs : list backend_out) : list est_pkt :=
  omap (λ io, if bi_hdr_val io.1 && bo_rdy io.2 then Some (bi_pkt io.1) else None) (zip ins outs).
Definition writebacks (outs : list backend_out) : list writeback := omap bo_writeback outs.

(** Those still on their way. *)
Definition in_stages (s : backend) : list est_pkt :=
  let p := est_flow_pipe s in
  (if est_hdr_val_reg_c p then [est_pkt_reg_c p] else []) ++
  (if est_hdr_val_reg_r p then [est_pkt_reg_r p] else []).
Definition in_w (s : backend) : list writeback :=
  let p := est_flow_pipe s in if est_hdr_val_reg_w p then [writeback_w p] else [].

(** ** The cycles excluded *)

(** A packet leaves R with the tail as it was before the write of W. *)
Definition stale_tail (s : backend) (i : backend_in) : bool :=
  let p := est_flow_pipe s in
  enters_c s i && est_hdr_val_reg_w p && (est_flowid_reg_r p =? est_flowid_reg_w p)
  && accept_payload_reg_w p && negb (stalled_w x s i).

(** A flow is set up while none of its packets is in the pipeline; the
    addresses are flows; the handshake pipeline takes its two responses
    together. *)
Definition not_in_stages (p : est_pipe) (f : Z) : Prop :=
  (est_hdr_val_reg_r p = true → est_flowid_reg_r p ≠ f) ∧
  (est_hdr_val_reg_c p = true → est_flowid_reg_c p ≠ f) ∧
  (est_hdr_val_reg_w p = true → est_flowid_reg_w p ≠ f).

Record legal (s : backend) (i : backend_in) : Prop := {
  l_pkt : bi_hdr_val i = true → flow_ok (est_flowid (bi_pkt i));
  l_new : nf_val (bi_new_flow i) = true →
    flow_ok (nf_flowid (bi_new_flow i)) ∧ not_in_stages (est_flow_pipe s) (nf_flowid (bi_new_flow i));
  l_fsm_rx : rd_val (bi_fsm_rx_rd i) = true → flow_ok (rd_addr (bi_fsm_rx_rd i));
  l_fsm_tx : rd_val (bi_fsm_tx_rd i) = true → flow_ok (rd_addr (bi_fsm_tx_rd i));
  l_fsm_rdy : rd_resp_rdy (bi_fsm_rx_rd i) = rd_resp_rdy (bi_fsm_tx_rd i);
  l_send : wr_val (bi_send_tx_wr i) = true → flow_ok (wr_addr (bi_send_tx_wr i));
  l_head : wr_val (bi_app_head_wr i) = true → flow_ok (wr_addr (bi_app_head_wr i)) }.

Fixpoint legal_cycles (ins : list backend_in) (s : backend) : Prop :=
  match ins with
  | [] => True
  | i :: ins' => legal s i ∧ stale_tail s i = false ∧ legal_cycles ins' (backend_next x false i s)
  end.

(** ** The invariant *)

Abbreviation pipe := est_flow_pipe.
Abbreviation arb := fsm_est_pipe_arbiter.

(** A state of the stores and of W, as one state per flow. *)
Definition logical (s : backend) (f : Z) : flow_state :=
  if est_hdr_val_reg_w (pipe s) && (est_flowid_reg_w (pipe s) =? f) then flow_state_w (pipe s) else stored s f.

(** What the stores' ports are doing. *)
Record ports (s : backend) (rx_read tx_read : option Z) : Prop := {
  p_rx : ram_rel (port0 (rx_store s)) (RamView (contents2 (rx_store s)) rx_read);
  p_emit : ram_rel (port1 (tx_emit_state (tx_store s))) (RamView (contents2 (tx_emit_state (tx_store s))) tx_read);
  p_ack : ram_rel (port1 (tx_ack_state (tx_store s))) (RamView (contents2 (tx_ack_state (tx_store s))) tx_read);
  p_head : ram_rel (port0 (head_ptrs (rx_payload_qs s)))
             (RamView (contents2 (head_ptrs (rx_payload_qs s)))
                (if est_hdr_val_reg_r (pipe s) then Some (est_flowid_reg_r (pipe s)) else None));
  p_tail : ram_rel (tail_ptrs (rx_payload_qs s))
             (RamView (contents (tail_ptrs (rx_payload_qs s)))
                (if est_hdr_val_reg_r (pipe s) then Some (est_flowid_reg_r (pipe s)) else None));
  p_rx_size : sized (contents2 (rx_store s));
  p_emit_size : sized (contents2 (tx_emit_state (tx_store s)));
  p_ack_size : sized (contents2 (tx_ack_state (tx_store s)));
  p_head_size : sized (contents2 (head_ptrs (rx_payload_qs s)));
  p_tail_size : sized (contents (tail_ptrs (rx_payload_qs s))) }.

(** Who is served: nobody, the packet in C, or the handshake pipeline. *)
Definition served (s : backend) (rx_read tx_read : option Z) : Prop :=
  match state_reg (arb s) with
  | READY => rx_read = None ∧ tx_read = None ∧ est_hdr_val_reg_c (pipe s) = false
  | WAIT =>
      (arb_decision_reg (arb s) = EST_GRANT ∧ est_hdr_val_reg_c (pipe s) = true ∧
       rx_read = Some (est_flowid_reg_c (pipe s)) ∧ tx_read = Some (est_flowid_reg_c (pipe s))) ∨
      (arb_decision_reg (arb s) = FSM_GRANT ∧ est_hdr_val_reg_c (pipe s) = false ∧
       is_Some rx_read ∧ is_Some tx_read)
  end.

Record stages (s : backend) : Prop := {
  g_r : est_hdr_val_reg_r (pipe s) = true → flow_ok (est_flowid_reg_r (pipe s));
  g_c : est_hdr_val_reg_c (pipe s) = true → flow_ok (est_flowid_reg_c (pipe s));
  g_w : est_hdr_val_reg_w (pipe s) = true → flow_ok (est_flowid_reg_w (pipe s));
  (** Of a packet that was not accepted, W writes no tail: it is the stored one. *)
  g_refused : est_hdr_val_reg_w (pipe s) = true → accept_payload_reg_w (pipe s) = false →
    next_rx_payload_q_tail_ptr_reg_w (pipe s) = fs_tail (stored s (est_flowid_reg_w (pipe s)));
  (** C has the right tail, in its register or from W. *)
  g_tail : est_hdr_val_reg_c (pipe s) = true →
    byp_state_c (pipe s) = true ∨
    est_rx_payload_q_tail_ptr_reg_c (pipe s) = fs_tail (stored s (est_flowid_reg_c (pipe s))) }.

Record inv (h : Z) (L : flows) (s : backend) : Prop := {
  i_arb : arb_ok (arb s);
  i_ports : ∃ a b, ports s a b ∧ served s a b;
  i_stages : stages s;
  i_head : est_hdr_val_reg_c (pipe s) = true → est_rx_payload_q_head_ptr_reg_c (pipe s) = h;
  i_flows : ∀ f, flow_ok f → L f = logical s f }.

Section Cycle.
Context (h : Z) (L : flows) (s : backend) (i : backend_in).
Hypotheses (Hinv : inv h L s) (Hlegal : legal s i).

(** Both state stores respond, or neither. *)
Lemma resp_val_c :
  bool_decide (state_reg (arb s) = WAIT) && (rd0_resp_val (rx_store s) && recv_pipe_rd_resp_val (tx_store s))
  && bool_decide (arb_decision_reg (arb s) = EST_GRANT) = est_hdr_val_reg_c (pipe s).
Proof.
  destruct Hinv as [_ (a & b & HP & HS) _ _ _]. unfold served in HS.
  destruct (state_reg (arb s)); cbn [bool_decide].
  - destruct HS as (_ & _ & ->). done.
  - destruct HS as [(-> & -> & -> & ->)|(-> & -> & [a' ->] & [b' ->])]; [|by rewrite !andb_false_r].
    unfold recv_pipe_rd_resp_val. rewrite port0_val, !port1_val.
    rewrite (proj1 (port_shows _ _ _ (p_rx _ _ _ HP) eq_refl)).
    rewrite (proj1 (port_shows _ _ _ (p_emit _ _ _ HP) eq_refl)).
    by rewrite (proj1 (port_shows _ _ _ (p_ack _ _ _ HP) eq_refl)).
Qed.

Lemma stalled_c_eq : stalled_c x s i = est_hdr_val_reg_c (pipe s) && stalled_w x s i.
Proof.
  unfold stalled_c, stall_c. cbn [rx_state_est_pipe_rd_resp_val tx_state_est_pipe_rd_resp_val est_wires].
  rewrite resp_val_c. fold (stalled_w x s i). by destruct (est_hdr_val_reg_c (pipe s)), (stalled_w x s i).
Qed.

Lemma granted_ready : granted x s i = true → state_reg (arb s) = READY ∧ est_hdr_val_reg_r (pipe s) = true.
Proof.
  unfold granted, arbiter_est_rd_req_grant. intros [Hadv Hg]%andb_true_iff. apply bool_decide_eq_true in Hg.
  pose proof (grant_one_hot _ _ (i_arb _ _ _ Hinv) Hadv) as Hone.
  unfold arb_advance in Hadv. rewrite !andb_true_iff, bool_decide_eq_true in Hadv.
  split; [by apply Hadv|]. destruct Hone as [[_ Hw]|[Hf _]]; [|by rewrite Hg in Hf].
  unfold est_wants, sys_arb_in, arb_wires in Hw. cbn in Hw. by apply andb_true_iff in Hw as [].
Qed.

Lemma ready_c_empty : state_reg (arb s) = READY → est_hdr_val_reg_c (pipe s) = false.
Proof. destruct Hinv as [_ (a & b & _ & HS) _ _ _]. unfold served in HS. intros E. rewrite E in HS. by apply HS. Qed.

Lemma stalled_r_eq : stalled_r x s i = est_hdr_val_reg_r (pipe s) && negb (granted x s i).
Proof.
  unfold stalled_r, stall_r. destruct (est_hdr_val_reg_r (pipe s)) eqn:Er; [|done]. cbn [andb].
  change (stall_c (pipe s) (est_wires x s i (granted x s i) false false)) with (stalled_c x s i).
  cbn [rx_state_est_pipe_rd_req_rdy tx_state_est_pipe_rd_req_rdy rx_head_ptr_rx_pipe_rd_resp_val
       rx_tail_ptr_rx_pipe_rd_resp_val est_wires].
  destruct Hinv as [_ (a & b & HP & _) _ _ _]. destruct HP as [_ _ _ Hh Ht _ _ _ _ _].
  rewrite Er in Hh, Ht. rewrite port0_val, (proj1 (port_shows _ _ _ Hh eq_refl)), (proj1 (port_shows _ _ _ Ht eq_refl)).
  rewrite stalled_c_eq. destruct (granted x s i) eqn:Eg; cbn [negb orb]; [|by rewrite !orb_true_r].
  by rewrite (ready_c_empty (proj1 (granted_ready Eg))).
Qed.

(** A packet that enters C finds it empty. *)
Lemma enters_c_empty : enters_c s i = true → est_hdr_val_reg_c (pipe s) = false.
Proof.
  unfold enters_c. rewrite stalled_r_eq. intros [-> Hn]%andb_true_iff. cbn in Hn.
  rewrite negb_involutive in Hn. apply ready_c_empty. by apply granted_ready.
Qed.

(** What C computes with is the state of its flow. *)
Lemma state_c :
  est_hdr_val_reg_c (pipe s) = true →
  curr_flow_state_byp_c (pipe s) (sys_est_in x s i) = L (est_flowid_reg_c (pipe s)) ∧
  tx_curr_seq_num (tx_state_est_pipe_rd_resp_data (sys_est_in x s i)) = sent_of s (est_flowid_reg_c (pipe s)).
Proof.
  intros Hc. destruct Hinv as [_ (a & b & HP & HS) HG _ HL].
  pose proof (g_c _ HG Hc) as Hf. rewrite (HL _ Hf).
  assert (a = Some (est_flowid_reg_c (pipe s)) ∧ b = Some (est_flowid_reg_c (pipe s))) as [-> ->].
  { unfold served in HS. rewrite Hc in HS. destruct (state_reg (arb s)); [by destruct HS as (_ & _ & ?)|].
    destruct HS as [(_ & _ & ? & ?)|(_ & ? & _)]; done. }
  destruct HP as [Hrx Hem Hack _ _ Srx Sem Sack _ _].
  destruct (port_shows _ _ _ Hrx eq_refl) as [_ Drx]. destruct (port_shows _ _ _ Hem eq_refl) as [_ Dem].
  destruct (port_shows _ _ _ Hack eq_refl) as [_ Dack]. cbn [rv_mem] in *.
  destruct (sized_lookup _ _ Srx Hf) as [rx Erx]. destruct (sized_lookup _ _ Sem Hf) as [em Eem].
  destruct (sized_lookup _ _ Sack Hf) as [ack Eack].
  assert (Htx : tx_state_est_pipe_rd_resp_data (sys_est_in x s i) = TxState (em_tx_curr_seq_num em) (em_timer em) ack).
  { cbn. unfold recv_pipe_rd_resp_data. rewrite !port1_data, Dem, Dack, Eem, Eack. done. }
  split; [|rewrite Htx; unfold sent_of; by rewrite Eem].
  unfold curr_flow_state_byp_c. rewrite Htx.
  assert (Hrxd : rx_state_est_pipe_rd_resp_data (sys_est_in x s i) = rx).
  { cbn. by rewrite port0_data, Drx, Erx. }
  rewrite Hrxd. clear Htx Hrxd. unfold logical.
  pose proof (g_tail _ HG Hc) as Ht. unfold byp_state_c in *. rewrite Hc in *. cbn [andb] in *.
  rewrite (Z.eqb_sym (est_flowid_reg_c _)) in *.
  destruct (est_hdr_val_reg_w (pipe s) && (est_flowid_reg_w (pipe s) =? est_flowid_reg_c (pipe s))).
  - destruct s as [p0 ? ? ? ?]. destruct p0. cbn. unfold flow_state_w. cbn. by destruct (tx_curr_ack_state _).
  - destruct Ht as [Ht | ->]; [done|]. unfold stored. rewrite Erx, Eack. cbn. by destruct ack.
Qed.

Lemma computed_c_eq :
  est_hdr_val_reg_c (pipe s) = true →
  computed_c (pipe s) (sys_est_in x s i) =
  compute_stage (est_pkt_reg_c (pipe s)) (L (est_flowid_reg_c (pipe s))) h (sent_of s (est_flowid_reg_c (pipe s))).
Proof.
  intros Hc. unfold computed_c. destruct (state_c Hc) as [-> ->]. by rewrite (i_head _ _ _ Hinv Hc).
Qed.

(** ** The stores after a cycle *)

Abbreviation s' := (backend_next x false i s).

Lemma new_flow_ok : nf_val (bi_new_flow i) = true → flow_ok (nf_flowid (bi_new_flow i)).
Proof. intros H. by apply (l_new _ _ Hlegal). Qed.

Lemma requests_ok :
  (curr_recv_state_rd_req_val (arb s) (sys_arb_in x s i) = true →
   flow_ok (curr_recv_state_rd_req_flowid (arb s) (sys_arb_in x s i))) ∧
  (curr_tx_state_rd_req_val (arb s) (sys_arb_in x s i) = true →
   flow_ok (curr_tx_state_rd_req_flowid (arb s) (sys_arb_in x s i))).
Proof.
  assert (H : arb_advance (arb s) (sys_arb_in x s i) = true →
    flow_ok (curr_recv_state_rd_req_flowid (arb s) (sys_arb_in x s i)) ∧
    flow_ok (curr_tx_state_rd_req_flowid (arb s) (sys_arb_in x s i))); [|by split; intros E; apply H].
  intros Hadv. unfold curr_recv_state_rd_req_flowid, curr_tx_state_rd_req_flowid.
  destruct (grant_one_hot _ _ (i_arb _ _ _ Hinv) Hadv) as [[-> Hw]|[-> Hw]]; cbn -[flow_ok].
  - apply andb_true_iff in Hw as [Hr _]. split; apply (g_r _ (i_stages _ _ _ Hinv) Hr).
  - apply andb_true_iff in Hw as [Ht Hr]. split; [by apply (l_fsm_rx _ _ Hlegal)|by apply (l_fsm_tx _ _ Hlegal)].
Qed.

(** The pointers are read for the packet in R. *)
Lemma ptr_reads_next :
  reads_next (if est_hdr_val_reg_r (pipe s) then Some (est_flowid_reg_r (pipe s)) else None) (ptr_rd x s i) =
  if est_hdr_val_reg_r (pipe s') then Some (est_flowid_reg_r (pipe s')) else None.
Proof.
  unfold reads_next, ptr_rd. cbn [rd_val rd_addr rd_resp_rdy].
  assert (E : stall_r (pipe s) (sys_est_in x s i) = stalled_r x s i) by done.
  unfold est_flowid_reg_r. cbn [est_flow_pipe backend_next est_next est_hdr_val_reg_r est_pkt_reg_r]. rewrite E.
  destruct (stalled_r x s i) eqn:Es; cbn [negb orb].
  - rewrite stalled_r_eq in Es. apply andb_true_iff in Es as [-> _]. done.
  - by cbn.
Qed.

Lemma ports_next a b :
  ports s a b →
  ports s' (reads_next a (rx_rd0 s (sys_arb_in x s i)))
    (reads_next b (tx_rd1 (tx_store s) (tx_rd1_req s (sys_arb_in x s i)))).
Proof.
  intros [Hrx Hem Hack Hh Ht Srx Sem Sack Sh St]. destruct requests_ok as [Qrx Qtx].
  pose proof new_flow_ok as Hn. pose proof (i_stages _ _ _ Hinv) as HG.
  assert (Hw : est_hdr_val_reg_w (pipe s) = true → flow_ok (est_flowid_reg_w (pipe s))) by apply HG.
  assert (Wrx : wr_ok (contents2 (rx_store s)) (mem_wr (bi_new_flow i) (nf_recv_state (bi_new_flow i)) (rx_wr s)))
    by (by apply mem_wr_ok).
  split.
  - apply port0_step; [done|done|]. intros E. apply sized_in_range; auto.
  - apply port1_step; [done|..].
    + apply mem_wr_ok; [done|done|]. apply (l_send _ _ Hlegal).
    + intros E. apply sized_in_range; auto.
  - apply port1_step; [done|..].
    + by apply mem_wr_ok.
    + intros E. apply sized_in_range; auto.
  - rewrite <- ptr_reads_next. apply port0_step; [done|..].
    + apply mem_wr_ok; [done|done|]. apply (l_head _ _ Hlegal).
    + intros E. apply sized_in_range; [done|]. by apply (l_pkt _ _ Hlegal).
  - rewrite <- ptr_reads_next. cbn [rx_payload_qs backend_next rx_payload_ptrs_next tail_ptrs].
    unfold tail_ptrs_in. rewrite contents_written. apply mem1_step; [done|..].
    + apply mem_wr_ok; [done|done|]. intros [E _]%andb_true_iff. auto.
    + intros E. apply sized_in_range; [done|]. by apply (l_pkt _ _ Hlegal).
  - by apply sized_written.
  - by apply sized_written.
  - by apply sized_written.
  - by apply sized_written.
  - cbn [rx_payload_qs backend_next rx_payload_ptrs_next tail_ptrs]. unfold tail_ptrs_in.
    rewrite contents_written. by apply sized_written.
Qed.

(** ** The registers after a cycle *)

Lemma val_r_next :
  est_hdr_val_reg_r (pipe s') = (if stalled_r x s i then est_hdr_val_reg_r (pipe s) else bi_hdr_val i) ∧
  est_pkt_reg_r (pipe s') = (if stalled_r x s i then est_pkt_reg_r (pipe s) else bi_pkt i).
Proof.
  change (stalled_r x s i) with (stall_r (pipe s) (sys_est_in x s i)). cbn.
  by destruct (stall_r (pipe s) (sys_est_in x s i)).
Qed.

Lemma val_c_next :
  est_hdr_val_reg_c (pipe s') = (if stalled_c x s i then true else enters_c s i) ∧
  est_pkt_reg_c (pipe s') = (if stalled_c x s i then est_pkt_reg_c (pipe s) else est_pkt_reg_r (pipe s)).
Proof.
  change (stalled_c x s i) with (stall_c (pipe s) (sys_est_in x s i)).
  unfold enters_c. change (stalled_r x s i) with (stall_r (pipe s) (sys_est_in x s i)). cbn.
  destruct (stall_c (pipe s) (sys_est_in x s i)) eqn:E; [|done]. cbn. split; [|done].
  by apply andb_true_iff in E as [-> _].
Qed.

Lemma val_w_next :
  est_hdr_val_reg_w (pipe s') = if stalled_w x s i then est_hdr_val_reg_w (pipe s) else enters_w s i.
Proof.
  unfold enters_w. change (stalled_w x s i) with (stall_w (sys_est_in x s i)).
  change (stalled_c x s i) with (stall_c (pipe s) (sys_est_in x s i)). cbn.
  by destruct (stall_w (sys_est_in x s i)).
Qed.

(** W keeps what it has, or takes the result of C. *)
Lemma w_kept :
  stalled_w x s i = true → est_flowid_reg_w (pipe s') = est_flowid_reg_w (pipe s) ∧
  flow_state_w (pipe s') = flow_state_w (pipe s) ∧
  accept_payload_reg_w (pipe s') = accept_payload_reg_w (pipe s) ∧ writeback_w (pipe s') = writeback_w (pipe s).
Proof.
  change (stalled_w x s i) with (stall_w (sys_est_in x s i)). intros E.
  unfold flow_state_w, writeback_w, flow_state_w. cbn. by rewrite E.
Qed.

Lemma w_taken :
  stalled_w x s i = false → est_hdr_val_reg_c (pipe s) = true →
  let p := est_pkt_reg_c (pipe s) in
  let c := compute_stage p (L (est_flowid p)) h (sent_of s (est_flowid p)) in
  est_flowid_reg_w (pipe s') = est_flowid p ∧ flow_state_w (pipe s') = state_of c ∧
  accept_payload_reg_w (pipe s') = accept_payload c ∧ writeback_w (pipe s') = result p c.
Proof.
  change (stalled_w x s i) with (stall_w (sys_est_in x s i)). intros E Hc p c.
  assert (computed_c (pipe s) (sys_est_in x s i) = c) as Ec by exact (computed_c_eq Hc).
  assert (Hfs : flow_state_w (pipe s') = state_of c).
  { unfold flow_state_w, state_of. rewrite <- Ec. cbn. by rewrite E. }
  split; [|split; [exact Hfs|split]].
  - cbn. by rewrite E.
  - rewrite <- Ec. cbn. by rewrite E.
  - unfold writeback_w, result. rewrite Hfs. f_equal; rewrite <- ?Ec; cbn; by rewrite E.
Qed.

Lemma served_next a b :
  ports s a b → served s a b →
  served s' (reads_next a (rx_rd0 s (sys_arb_in x s i)))
    (reads_next b (tx_rd1 (tx_store s) (tx_rd1_req s (sys_arb_in x s i)))).
Proof.
  intros HP HS. destruct val_c_next as [Vc Pc]. pose proof stalled_c_eq as Ec. pose proof stalled_r_eq as Er.
  pose proof (l_fsm_rdy _ _ Hlegal) as Hrdy.
  unfold served in HS. destruct (state_reg (arb s)) eqn:Est.
  - destruct HS as (-> & -> & Hc). rewrite Hc in Ec. cbn in Ec. rewrite Ec in *.
    unfold served. cbn [fsm_est_pipe_arbiter backend_next arbiter_next state_reg arb_decision_reg]. rewrite Est.
    unfold reads_next. rewrite !bool_decide_eq_true_2 by done. rewrite !orb_true_r.
    cbn [rd_val rd_addr rx_rd0 tx_rd1 tx_rd1_req]. unfold curr_recv_state_rd_req_val, curr_tx_state_rd_req_val.
    unfold est_flowid_reg_c. rewrite Vc, Pc. unfold enters_c. rewrite Er.
    destruct (arb_advance (arb s) (sys_arb_in x s i)) eqn:Hadv.
    + destruct (grant_one_hot _ _ (i_arb _ _ _ Hinv) Hadv) as [[Hg Hw]|[Hg Hw]]; [left|right]; split; try done.
      * assert (est_hdr_val_reg_r (pipe s) = true) as Hr by (by apply andb_true_iff in Hw as []).
        unfold granted, arbiter_est_rd_req_grant, curr_recv_state_rd_req_flowid, curr_tx_state_rd_req_flowid.
        by rewrite Hadv, Hg, Hr.
      * unfold granted, arbiter_est_rd_req_grant. rewrite Hadv, Hg. cbn [andb].
        destruct (est_hdr_val_reg_r (pipe s)); cbn; eauto.
    + split; [done|]. split; [done|]. unfold granted, arbiter_est_rd_req_grant. rewrite Hadv. cbn [andb negb].
      by destruct (est_hdr_val_reg_r (pipe s)).
  - assert (Hadv : arb_advance (arb s) (sys_arb_in x s i) = false) by (unfold arb_advance; by rewrite Est).
    assert (Hg : granted x s i = false) by (unfold granted, arbiter_est_rd_req_grant; by rewrite Hadv).
    assert (Hin : enters_c s i = false) by (unfold enters_c; rewrite Er, Hg; by destruct (est_hdr_val_reg_r (pipe s))).
    unfold served. cbn [fsm_est_pipe_arbiter backend_next arbiter_next state_reg arb_decision_reg].
    rewrite Est, Hadv. unfold est_flowid_reg_c. rewrite Vc, Pc, Hin.
    unfold reads_next. cbn [rd_val rd_addr rd_resp_rdy rx_rd0 tx_rd1 tx_rd1_req].
    unfold curr_recv_state_rd_req_val, curr_tx_state_rd_req_val. rewrite Hadv.
    unfold curr_recv_state_rd_resp_rdy, curr_tx_state_rd_resp_rdy, both_resp_val.
    cbn [fsm_rx_rd_resp_rdy fsm_tx_rd_resp_rdy est_rx_rd_resp_rdy est_tx_rd_resp_rdy
         curr_recv_state_rd_resp_val curr_tx_state_rd_resp_val sys_arb_in arb_wires].
    assert (Hboth : is_Some a → is_Some b →
      rd0_resp_val (rx_store s) = true ∧ recv_pipe_rd_resp_val (tx_store s) = true).
    { intros [a' ->] [b' ->]. unfold recv_pipe_rd_resp_val. rewrite port0_val, !port1_val.
      rewrite (proj1 (port_shows _ _ _ (p_rx _ _ _ HP) eq_refl)).
      rewrite (proj1 (port_shows _ _ _ (p_emit _ _ _ HP) eq_refl)).
      by rewrite (proj1 (port_shows _ _ _ (p_ack _ _ _ HP) eq_refl)). }
    assert (Hno : bool_decide (EST_GRANT = FSM_GRANT) = false) by done.
    assert (Hyes : bool_decide (FSM_GRANT = FSM_GRANT) = true) by done.
    destruct HS as [(Hd & Hc & Ha & Hb)|(Hd & Hc & Ha & Hb)].
    + destruct Hboth as [-> ->]; [by rewrite Ha|by rewrite Hb|]. rewrite Hd, Ec, Hc, Hno. subst a b. cbn. destruct (stalled_w x s i); cbn; auto.
    + destruct Hboth as [-> ->]; [done..|]. rewrite Hd, Ec, Hc, Hrdy, Hyes. destruct Ha as [a' ->], Hb as [b' ->]. cbn.
      destruct (rd_resp_rdy (bi_fsm_tx_rd i)); cbn; [auto|]. right. by eauto.
Qed.

(** ** The flows after a cycle *)

Abbreviation opening := (nf_val (bi_new_flow i)).

Lemma opening_stalls : opening = true → stalled_w x s i = true.
Proof. intros E. unfold stalled_w, stall_w. cbn. unfold recv_state_wr_req_rdy, wr_rdy. by rewrite E. Qed.

(** A flow that is being set up is nobody's. *)
Lemma opened_not_in_stages f :
  opening = true → nf_flowid (bi_new_flow i) = f → not_in_stages (pipe s) f.
Proof. intros E <-. by apply (l_new _ _ Hlegal). Qed.

Lemma stored_next f :
  flow_ok f →
  stored s' f =
  if opening && (nf_flowid (bi_new_flow i) =? f)
  then FlowState (nf_recv_state (bi_new_flow i)) (tx_curr_ack_state (nf_tx_state (bi_new_flow i)))
         (nf_rx_tail_ptr (bi_new_flow i))
  else if opening then stored s f else logical s f.
Proof.
  intros Hf. destruct Hinv as [_ (a & b & HP & _) HG _ _]. destruct HP as [_ _ _ _ _ Srx _ Sack _ St].
  pose proof new_flow_ok as Hn. pose proof (g_w _ HG) as Hw.
  assert (Hm : ∀ A (fresh : A) w, (wr_val w = true → flow_ok (wr_addr w)) →
    wr_val (mem_wr (bi_new_flow i) fresh w) = true → flow_ok (wr_addr (mem_wr (bi_new_flow i) fresh w))).
  { intros A fresh w Hw'. unfold mem_wr. cbn. destruct (nf_val (bi_new_flow i)); auto. }
  unfold stored at 1. cbn [rx_store tx_store rx_payload_qs backend_next rx_state_store_next tx_state_store_next
    rx_payload_ptrs_next tx_ack_state tail_ptrs].
  unfold rx_state_store_next, rx_state_ram_in, tx_ack_in, tail_ptrs_in. cbn [tail_ptr_wr sys_ptrs_in].
  rewrite !contents2_written, contents_written.
  rewrite !written_lookup by (try done; apply Hm; cbn; try done; intros [E _]%andb_true_iff; auto).
  unfold mem_wr. cbn [wr_val wr_addr wr_dat rx_wr tx_wr tail_wr].
  destruct opening; cbn [orb andb].
  { by destruct (nf_flowid (bi_new_flow i) =? f). }
  unfold logical, rx_pipe_rx_tail_ptr_wr_req_val. destruct (est_hdr_val_reg_w (pipe s)) eqn:Ew; [|done]. cbn [andb].
  destruct (Z.eqb_spec (est_flowid_reg_w (pipe s)) f) as [<-|Hne]; [|by rewrite andb_false_r]. rewrite andb_true_r.
  unfold flow_state_w. cbn [default from_option id]. f_equal.
  destruct (accept_payload_reg_w (pipe s)) eqn:Eacc; [done|].
  by rewrite (g_refused _ HG Ew Eacc).
Qed.

Lemma flows_next f : flow_ok f → flows_after L (cycle_events h s i) f = logical s' f.
Proof.
  intros Hf. unfold logical at 1. rewrite val_w_next, (stored_next f Hf).
  pose proof (i_flows _ _ _ Hinv f Hf) as HL. unfold flows_after, cycle_events.
  destruct (stalled_w x s i) eqn:Ew.
  - destruct (w_kept Ew) as (-> & -> & _ & _).
    assert (enters_w s i = false) as -> by (unfold enters_w; rewrite stalled_c_eq, Ew; by destruct (est_hdr_val_reg_c (pipe s))).
    cbn [app]. destruct opening eqn:Eo; cbn [andb fold_left event_next].
    + destruct (Z.eqb_spec (nf_flowid (bi_new_flow i)) f) as [<-|Hne].
      * rewrite fn_lookup_insert. destruct (opened_not_in_stages _ Eo eq_refl) as (_ & _ & Hnw).
        destruct (est_hdr_val_reg_w (pipe s)); [|done]. cbn.
        by rewrite (proj2 (Z.eqb_neq _ _) (Hnw eq_refl)).
      * rewrite fn_lookup_insert_ne by done. rewrite HL. unfold logical.
        by destruct (est_hdr_val_reg_w (pipe s) && _).
    + rewrite HL. unfold logical. by destruct (est_hdr_val_reg_w (pipe s) && _).
  - assert (opening = false) as -> by (destruct opening eqn:E; [by rewrite opening_stalls in Ew|done]).
    rewrite app_nil_r. cbn [andb]. unfold enters_w. rewrite stalled_c_eq, Ew, andb_false_r, andb_true_r.
    destruct (est_hdr_val_reg_c (pipe s)) eqn:Ec; cbn [andb fold_left event_next]; [|exact HL].
    destruct (w_taken Ew Ec) as (-> & -> & _ & _). destruct (Z.eqb_spec (est_flowid (est_pkt_reg_c (pipe s))) f) as [<-|Hne].
    + by rewrite fn_lookup_insert.
    + by rewrite fn_lookup_insert_ne.
Qed.

(** ** The pointers of C *)

Lemma pointers_c_next :
  enters_c s i = true →
  est_rx_payload_q_head_ptr_reg_c (pipe s') = head_of s (est_flowid_reg_r (pipe s)) ∧
  est_rx_payload_q_tail_ptr_reg_c (pipe s') = fs_tail (stored s (est_flowid_reg_r (pipe s))).
Proof.
  intros He. pose proof (enters_c_empty He) as Hc. pose proof stalled_c_eq as Ec. rewrite Hc in Ec.
  destruct Hinv as [_ (a & b & HP & _) _ _ _]. destruct HP as [_ _ _ Hh Ht _ _ _ _ _].
  unfold enters_c in He. apply andb_true_iff in He as [Er _]. rewrite Er in Hh, Ht.
  destruct (port_shows _ _ _ Hh eq_refl) as [_ Dh]. destruct (port_shows _ _ _ Ht eq_refl) as [_ Dt].
  change (stalled_c x s i) with (stall_c (pipe s) (sys_est_in x s i)) in Ec. cbn in Ec.
  cbn. rewrite Ec. cbn [negb]. by rewrite port0_data, Dh, Dt.
Qed.

Lemma pointers_c_kept :
  stalled_c x s i = true →
  est_rx_payload_q_head_ptr_reg_c (pipe s') = est_rx_payload_q_head_ptr_reg_c (pipe s) ∧
  est_rx_payload_q_tail_ptr_reg_c (pipe s') = est_rx_payload_q_tail_ptr_reg_c (pipe s).
Proof.
  change (stalled_c x s i) with (stall_c (pipe s) (sys_est_in x s i)). intros E. cbn. by rewrite E.
Qed.

(** ** The invariant after a cycle *)

Lemma stored_next_idle f : opening = false → flow_ok f → stored s' f = logical s f.
Proof. intros E Hf. by rewrite stored_next, E. Qed.

Lemma not_opening : stalled_w x s i = false → opening = false.
Proof. intros Ew. destruct opening eqn:E; [by rewrite opening_stalls in Ew|done]. Qed.

(** The stored state of a flow in a stage, while W is held. *)
Lemma stored_next_stalled f :
  flow_ok f → (opening = true → nf_flowid (bi_new_flow i) ≠ f) →
  est_hdr_val_reg_w (pipe s) && (est_flowid_reg_w (pipe s) =? f) = false → stored s' f = stored s f.
Proof.
  intros Hf Hno Hw. rewrite stored_next by done. destruct opening eqn:E; cbn [andb].
  - by rewrite (proj2 (Z.eqb_neq _ _) (Hno eq_refl)).
  - unfold logical. by rewrite Hw.
Qed.

Lemma refused_next :
  est_hdr_val_reg_w (pipe s') = true → accept_payload_reg_w (pipe s') = false →
  next_rx_payload_q_tail_ptr_reg_w (pipe s') = fs_tail (stored s' (est_flowid_reg_w (pipe s'))).
Proof.
  pose proof (i_stages _ _ _ Hinv) as HG. change (next_rx_payload_q_tail_ptr_reg_w (pipe s')) with (fs_tail (flow_state_w (pipe s'))).
  rewrite val_w_next. destruct (stalled_w x s i) eqn:Ew.
  - destruct (w_kept Ew) as (-> & -> & -> & _). intros Hv Ha. pose proof (g_w _ HG Hv) as Hf.
    rewrite stored_next by done. destruct opening eqn:E; cbn [andb].
    + destruct (opened_not_in_stages _ E eq_refl) as (_ & _ & Hn).
      rewrite (proj2 (Z.eqb_neq _ _) (not_eq_sym (Hn Hv))). by apply (g_refused _ HG).
    + unfold logical. by rewrite Hv, Z.eqb_refl.
  - unfold enters_w. rewrite stalled_c_eq, Ew, andb_false_r, andb_true_r. intros Hv Ha.
    destruct (w_taken Ew Hv) as (E1 & -> & E2 & _). rewrite E1. rewrite E2 in Ha.
    fold (est_flowid_reg_c (pipe s)) in *.
    pose proof (g_c _ HG Hv) as Hf. rewrite (stored_next_idle _ (not_opening Ew) Hf).
    rewrite <- (i_flows _ _ _ Hinv _ Hf). cbn. unfold accept_payload in Ha. cbn in Ha. by rewrite Ha.
Qed.

Hypothesis Hstale : stale_tail s i = false.

Lemma tail_next :
  est_hdr_val_reg_c (pipe s') = true →
  byp_state_c (pipe s') = true ∨
  est_rx_payload_q_tail_ptr_reg_c (pipe s') = fs_tail (stored s' (est_flowid_reg_c (pipe s'))).
Proof.
  pose proof (i_stages _ _ _ Hinv) as HG. destruct val_c_next as [Vc Pc]. unfold byp_state_c, est_flowid_reg_c.
  rewrite Vc, Pc, val_w_next. destruct (stalled_c x s i) eqn:Esc.
  - intros _. pose proof stalled_c_eq as E. rewrite Esc in E. symmetry in E. apply andb_true_iff in E as [Hc Ew].
    rewrite Ew. destruct (w_kept Ew) as (-> & _ & _ & _). destruct (pointers_c_kept Esc) as [_ ->].
    pose proof (g_c _ HG Hc) as Hf. destruct (g_tail _ HG Hc) as [Hb|Ht].
    + left. unfold byp_state_c in Hb. by rewrite Hc in Hb.
    + destruct (est_hdr_val_reg_w (pipe s) && (est_flowid_reg_c (pipe s) =? est_flowid_reg_w (pipe s))) eqn:Eb; [by left|].
      right. rewrite Ht. symmetry. f_equal. apply stored_next_stalled; [done|..].
      * intros E Hn. destruct (opened_not_in_stages _ E Hn) as (_ & Hx & _). by apply (Hx Hc).
      * by rewrite Z.eqb_sym.
  - intros He. destruct (pointers_c_next He) as [_ ->]. cbn [andb].
    assert (Er : est_hdr_val_reg_r (pipe s) = true) by (by apply andb_true_iff in He as []).
    pose proof (g_r _ HG Er) as Hf. fold (est_flowid_reg_r (pipe s)). destruct (stalled_w x s i) eqn:Ew.
    + destruct (w_kept Ew) as (-> & _ & _ & _).
      destruct (est_hdr_val_reg_w (pipe s) && (est_flowid_reg_r (pipe s) =? est_flowid_reg_w (pipe s))) eqn:Eb.
      { left. by rewrite He. }
      right. symmetry. f_equal. apply stored_next_stalled; [done|..].
      * intros E Hn. destruct (opened_not_in_stages _ E Hn) as (Hx & _ & _). by apply (Hx Er).
      * by rewrite Z.eqb_sym.
    + right. rewrite (stored_next_idle _ (not_opening Ew) Hf). unfold logical.
      unfold stale_tail in Hstale. rewrite He, Ew in Hstale. cbn [negb andb] in Hstale.
      destruct (est_hdr_val_reg_w (pipe s)) eqn:Hv; [|done]. cbn [andb] in *. rewrite (Z.eqb_sym (est_flowid_reg_w _)).
      destruct (Z.eqb_spec (est_flowid_reg_r (pipe s)) (est_flowid_reg_w (pipe s))) as [E|]; [|done].
      cbn [andb] in Hstale. rewrite andb_true_r in Hstale. cbn. rewrite (g_refused _ HG Hv Hstale). by rewrite E.
Qed.

Lemma inv_next :
  inv (head_next h s i) (flows_after L (cycle_events h s i)) s'.
Proof.
  destruct Hinv as [HA (a & b & HP & HS) HG HH _]. destruct val_r_next as [Vr Pr]. destruct val_c_next as [Vc Pc].
  split.
  - by apply arbiter_next_ok.
  - eexists _, _. split; [by apply ports_next|by apply served_next].
  - split.
    + unfold est_flowid_reg_r. rewrite Vr, Pr. destruct (stalled_r x s i); [apply HG|apply (l_pkt _ _ Hlegal)].
    + unfold est_flowid_reg_c. rewrite Vc, Pc. destruct (stalled_c x s i) eqn:E.
      * intros _. apply HG. rewrite stalled_c_eq in E. by apply andb_true_iff in E as [].
      * intros [Er _]%andb_true_iff. by apply HG.
    + rewrite val_w_next. destruct (stalled_w x s i) eqn:Ew.
      * destruct (w_kept Ew) as (-> & _). apply HG.
      * intros [Ec _]%andb_true_iff. destruct (w_taken Ew Ec) as (-> & _). by apply HG.
    + exact refused_next.
    + exact tail_next.
  - rewrite Vc. unfold head_next. destruct (stalled_c x s i) eqn:E.
    + intros _. destruct (pointers_c_kept E) as [-> _]. rewrite stalled_c_eq in E. apply andb_true_iff in E as [Hc _].
      destruct (enters_c s i) eqn:He; [by rewrite (enters_c_empty He) in Hc|]. by apply HH.
    + intros He. rewrite He. by destruct (pointers_c_next He) as [-> _].
  - intros f Hf. by apply flows_next.
Qed.

(** ** What is taken and given in a cycle *)

Lemma bo_rdy_eq : bo_rdy (c_out (est_backend x) s i) = negb (stalled_r x s i).
Proof.
  cbn [c_out est_backend bo_rdy]. unfold est_pipe_rdy. cbn [rx_head_ptr_rx_pipe_rd_req_rdy rx_tail_ptr_rx_pipe_rd_req_rdy
    sys_est_in est_wires ptr_rd rd_resp_rdy].
  change (stall_r (pipe s) (sys_est_in x s i)) with (stalled_r x s i). by destruct (stalled_r x s i).
Qed.

Lemma packets_cycle :
  segments (cycle_events h s i) ++ in_stages s' =
  in_stages s ++ (if bi_hdr_val i && bo_rdy (c_out (est_backend x) s i) then [bi_pkt i] else []).
Proof.
  destruct val_r_next as [Vr Pr]. destruct val_c_next as [Vc Pc]. unfold in_stages. rewrite Vr, Pr, Vc, Pc.
  assert (Hseg : segments (cycle_events h s i) = if enters_w s i then [est_pkt_reg_c (pipe s)] else []).
  { unfold segments, cycle_events. rewrite bind_app. by destruct (enters_w s i), opening. }
  rewrite bo_rdy_eq, Hseg. unfold enters_w. pose proof stalled_r_eq as Er. pose proof stalled_c_eq as Ec.
  destruct (enters_c s i) eqn:He.
  - pose proof (enters_c_empty He) as Hc. rewrite Hc in *. cbn [andb] in Ec. rewrite Ec. unfold enters_c in He.
    apply andb_true_iff in He as [-> Hs]. apply negb_true_iff in Hs. rewrite Hs. cbn. by destruct (bi_hdr_val i).
  - unfold enters_c in He. assert (stalled_r x s i = est_hdr_val_reg_r (pipe s)) as Hs
      by (rewrite Er in *; destruct (est_hdr_val_reg_r (pipe s)), (granted x s i); done).
    rewrite Hs. destruct (stalled_c x s i), (est_hdr_val_reg_c (pipe s)), (est_hdr_val_reg_r (pipe s)), (bi_hdr_val i);
      cbn in *; try done.
Qed.

Lemma writeback_cycle :
  in_w s ++ process L (cycle_events h s i) =
  option_list (bo_writeback (c_out (est_backend x) s i)) ++ in_w s'.
Proof.
  unfold in_w. rewrite val_w_next. cbn [c_out est_backend bo_writeback].
  change (stall_w (sys_est_in x s i)) with (stalled_w x s i). unfold cycle_events.
  assert (Hno : ∀ L', process L' (if opening then [Opened (nf_flowid (bi_new_flow i))
     (FlowState (nf_recv_state (bi_new_flow i)) (tx_curr_ack_state (nf_tx_state (bi_new_flow i)))
        (nf_rx_tail_ptr (bi_new_flow i)))] else []) = []) by (by destruct opening).
  destruct (stalled_w x s i) eqn:Ew.
  - destruct (w_kept Ew) as (_ & _ & _ & ->).
    assert (enters_w s i = false) as -> by (unfold enters_w; rewrite stalled_c_eq, Ew; by destruct (est_hdr_val_reg_c (pipe s))).
    cbn [app]. cbn zeta. rewrite Hno, andb_false_r. by rewrite app_nil_r.
  - unfold enters_w. rewrite stalled_c_eq, Ew, andb_false_r, andb_true_r.
    cbn [negb]. rewrite andb_true_r. destruct (est_hdr_val_reg_c (pipe s)) eqn:Ec; cbn [andb app process].
    + destruct (w_taken Ew Ec) as (_ & _ & _ & ->). cbn zeta. rewrite Hno. by destruct (est_hdr_val_reg_w (pipe s)).
    + cbn zeta. rewrite Hno. by destruct (est_hdr_val_reg_w (pipe s)).
Qed.

End Cycle.

(** ** Runs *)

Lemma flows_after_app L es es' : flows_after L (es ++ es') = flows_after (flows_after L es) es'.
Proof. apply fold_left_app. Qed.

Lemma process_app L es es' : process L (es ++ es') = process L es ++ process (flows_after L es) es'.
Proof. revert L. induction es as [|e es IH]; intros L; [done|]. cbn. rewrite IH. by rewrite app_assoc. Qed.

Lemma segments_app es es' : segments (es ++ es') = segments es ++ segments es'.
Proof. apply bind_app. Qed.

(** The results depend on the states of the flows there are. *)
Lemma accepted_cons i ins s :
  accepted_pkts (i :: ins) (outputs (est_backend x) (i :: ins) s) =
  (if bi_hdr_val i && bo_rdy (c_out (est_backend x) s i) then [bi_pkt i] else []) ++
  accepted_pkts ins (outputs (est_backend x) ins (backend_next x false i s)).
Proof. unfold accepted_pkts. cbn. by destruct (bi_hdr_val i && _). Qed.

Lemma writebacks_cons i ins s :
  writebacks (outputs (est_backend x) (i :: ins) s) =
  option_list (bo_writeback (c_out (est_backend x) s i)) ++
  writebacks (outputs (est_backend x) ins (backend_next x false i s)).
Proof. unfold writebacks. cbn -[c_out]. by destruct (bo_writeback (c_out (est_backend x) s i)). Qed.

Lemma sequential_run h L s ins :
  inv h L s → legal_cycles ins s →
  let outs := outputs (est_backend x) ins s in
  let s1 := after_cycles (est_backend x) ins s in
  let es := events h ins s in
  in_stages s ++ accepted_pkts ins outs = segments es ++ in_stages s1 ∧
  in_w s ++ process L es = writebacks outs ++ in_w s1 ∧
  ∀ f, flow_ok f → flows_after L es f = logical s1 f.
Proof.
  revert h L s. induction ins as [|i ins IH]; intros h L s Hinv Hl.
  { cbn. rewrite !app_nil_r. split; [done|]. split; [done|]. apply (i_flows _ _ _ Hinv). }
  destruct Hl as (Hi & Hs & Hl). pose proof (inv_next h L s i Hinv Hi Hs) as Hinv'.
  destruct (IH _ _ _ Hinv' Hl) as (H1 & H2 & H3). cbn zeta in *.
  pose proof (packets_cycle h L s i Hinv) as P1. pose proof (writeback_cycle h L s i Hinv Hi) as P2.
  rewrite accepted_cons, writebacks_cons. cbn [events]. rewrite segments_app, process_app.
  split; [|split].
  - rewrite app_assoc, <- P1, <- !app_assoc. by rewrite H1.
  - rewrite app_assoc, P2, <- !app_assoc. by rewrite H2.
  - intros f Hf. rewrite flows_after_app. by apply H3.
Qed.

(** The memories have a place per flow. *)
Definition all_sized (s : backend) : Prop :=
  sized (contents2 (rx_store s)) ∧ sized (contents2 (tx_emit_state (tx_store s))) ∧
  sized (contents2 (tx_ack_state (tx_store s))) ∧ sized (contents2 (head_ptrs (rx_payload_qs s))) ∧
  sized (contents (tail_ptrs (rx_payload_qs s))).

Lemma inv_reset h i s :
  all_sized s → inv h (stored (backend_next x true i s)) (backend_next x true i s).
Proof.
  intros (S1 & S2 & S3 & S4 & S5). split.
  - apply arbiter_reset_ok.
  - exists None, None. split; [|done]. split; try apply ram2_reset; try apply ram_reset_rel;
      try (by apply sized_written).
    cbn [rx_payload_qs backend_next rx_payload_ptrs_next tail_ptrs]. unfold tail_ptrs_in.
    rewrite contents_written. by apply sized_written.
  - by split.
  - done.
  - done.
Qed.

(** C11: the pipeline computes what processing its packets one at a time
    computes, three stages, an arbiter, stalls and bypasses notwithstanding.
    After a cycle of reset, whatever the memories held, and in any run in which
    no packet reads its tail in the cycle in which the tail is written, the
    packets that were taken are processed in the order they came, none lost and
    none twice, apart from the two at most still on their way; each is processed
    on the state the packet before it on its flow left, with the head of its
    buffer as stored when it entered the compute stage and the sent number as
    stored when it left it; the results written back are those, in that order;
    and the stores hold, with the result in the last stage, the final states. *)
Theorem est_backend_sequential i0 s ins :
  all_sized s →
  let s0 := backend_next x true i0 s in
  legal_cycles ins s0 →
  let outs := outputs (est_backend x) ins s0 in
  let s1 := after_cycles (est_backend x) ins s0 in
  let es := events 0 ins s0 in
  accepted_pkts ins outs = segments es ++ in_stages s1 ∧
  process (stored s0) es = writebacks outs ++ in_w s1 ∧
  ∀ f, flow_ok f → flows_after (stored s0) es f = logical s1 f.
Proof.
  intros Hs s0 Hl. exact (sequential_run 0 (stored s0) s0 ins (inv_reset 0 i0 s Hs) Hl).
Qed.
End Run.

(** ** Checking that a run is legal *)

Definition not_in_stagesb (p : est_pipe) (f : Z) : bool :=
  negb (est_hdr_val_reg_r p && (est_flowid_reg_r p =? f)) &&
  negb (est_hdr_val_reg_c p && (est_flowid_reg_c p =? f)) &&
  negb (est_hdr_val_reg_w p && (est_flowid_reg_w p =? f)).

Definition legalb (s : backend) (i : backend_in) : bool :=
  implb (bi_hdr_val i) (flow_okb (est_flowid (bi_pkt i))) &&
  implb (nf_val (bi_new_flow i))
    (flow_okb (nf_flowid (bi_new_flow i)) && not_in_stagesb (est_flow_pipe s) (nf_flowid (bi_new_flow i))) &&
  implb (rd_val (bi_fsm_rx_rd i)) (flow_okb (rd_addr (bi_fsm_rx_rd i))) &&
  implb (rd_val (bi_fsm_tx_rd i)) (flow_okb (rd_addr (bi_fsm_tx_rd i))) &&
  Bool.eqb (rd_resp_rdy (bi_fsm_rx_rd i)) (rd_resp_rdy (bi_fsm_tx_rd i)) &&
  implb (wr_val (bi_send_tx_wr i)) (flow_okb (wr_addr (bi_send_tx_wr i))) &&
  implb (wr_val (bi_app_head_wr i)) (flow_okb (wr_addr (bi_app_head_wr i))).

Fixpoint legal_cyclesb (x : unknowns) (ins : list backend_in) (s : backend) : bool :=
  match ins with
  | [] => true
  | i :: ins' => legalb s i && negb (stale_tail x s i) && legal_cyclesb x ins' (backend_next x false i s)
  end.

Lemma not_in_stagesb_ok p f : not_in_stagesb p f = true → not_in_stages p f.
Proof.
  unfold not_in_stagesb, not_in_stages. rewrite !andb_true_iff, !negb_true_iff, !andb_false_iff, !Z.eqb_neq.
  intros [[H1 H2] H3].
  assert (Hx : ∀ b (P : Prop), b = false ∨ P → b = true → P) by (intros b P [->|?]; done).
  split_and!; eapply Hx; eassumption.
Qed.

Lemma legal_cyclesb_ok x ins s : legal_cyclesb x ins s = true → legal_cycles x ins s.
Proof.
  revert s. induction ins as [|i ins IH]; intros s; [done|]. cbn [legal_cyclesb legal_cycles].
  rewrite !andb_true_iff, negb_true_iff. intros [[Hl Hs] Hr]. split; [|split; [done|by apply IH]].
  unfold legalb in Hl. rewrite !andb_true_iff in Hl. destruct Hl as [[[[[[H1 H2] H3] H4] H5] H6] H7].
  split; try (intros E; apply flow_okb_ok; by eapply implb_ok).
  - intros E. destruct (proj1 (andb_true_iff _ _) (implb_ok _ _ H2 E)) as [Hf Hn].
    split; [by apply flow_okb_ok|by apply not_in_stagesb_ok].
  - by apply Bool.eqb_prop.
Qed.

(** ** A concrete run *)

Definition sample_x : unknowns :=
  Unknowns (RecvStateEntry 77 7) (TxState 9 (TxAckTimer 5 true) (TxAckState 1 3)) 99 (TxAckTimer 1 false).

Definition junk_backend : backend :=
  {| est_flow_pipe := est_reset; fsm_est_pipe_arbiter := Arbiter WAIT [true; true] [true];
     rx_store := junk_ram2 (RecvStateEntry 1 2);
     tx_store := TxStore (junk_ram2 (TxEmit (TxAckTimer 3 true) 4)) (junk_ram2 (TxAckState 2 6));
     rx_payload_qs :=
       {| head_ptrs := junk_ram2 50; commit_ptrs := junk_ram2 51;
          tail_ptrs := {| mem_wr_req_val_reg := true; mem_wr_req_addr_reg := 1; mem_wr_req_data_reg := 7;
                          mem_rd_req_val_reg := true; mem_rd_req_addr_reg := 0;
                          tcp_data_mem := BsgMem (replicate 16 52) None |} |} |}.

Definition idle : backend_in :=
  {| bi_hdr_val := false; bi_pkt := zero_pkt; bi_new_flow := no_flow; bi_fsm_rx_rd := no_rd; bi_fsm_tx_rd := no_rd;
     bi_send_rx_rd := no_rd; bi_send_tx_rd := no_rd; bi_send_tx_wr := WrReq false 0 zero_tx;
     bi_app_head_wr := WrReq false 0 0; bi_app_head_rd := no_rd; bi_commit_wr := WrReq false 0 0;
     bi_commit_rd0 := no_rd; bi_commit_rd1 := no_rd; bi_tx_head_ptr_wr_rdy := true; bi_store_buf_q_full := false |}.

(** Flow [f], opened with the receive number [ack] and 64 bytes sent out of
    [snd]. *)
Definition opens (f ack snd : Z) : backend_in :=
  {| bi_hdr_val := false; bi_pkt := zero_pkt;
     bi_new_flow := NewFlow true f (RecvStateEntry ack 4096) (TxState (snd + 64) zero_timer (TxAckState 0 snd)) 0 0;
     bi_fsm_rx_rd := no_rd; bi_fsm_tx_rd := no_rd; bi_send_rx_rd := no_rd; bi_send_tx_rd := no_rd;
     bi_send_tx_wr := WrReq false 0 zero_tx; bi_app_head_wr := WrReq false 0 0; bi_app_head_rd := no_rd;
     bi_commit_wr := WrReq false 0 0; bi_commit_rd0 := no_rd; bi_commit_rd1 := no_rd;
     bi_tx_head_ptr_wr_rdy := true; bi_store_buf_q_full := false |}.

(** A packet of [len] bytes at [sn], which acknowledges [an]; a cycle in which
    it is offered, the store queue is [full] and the handshake pipeline wants to
    read. *)
Definition segment (f sn an len : Z) : est_pkt :=
  EstPkt (TcpPktHdr 80 90 sn an 5 0 16 100 0 0) f (0 <? len) (PayloadBuf 0 len).
Definition arrives (p : est_pkt) (full fsm : bool) : backend_in :=
  {| bi_hdr_val := true; bi_pkt := p; bi_new_flow := no_flow; bi_fsm_rx_rd := RdReq fsm 5 true;
     bi_fsm_tx_rd := RdReq fsm 5 true; bi_send_rx_rd := no_rd; bi_send_tx_rd := no_rd;
     bi_send_tx_wr := WrReq false 0 zero_tx; bi_app_head_wr := WrReq false 0 0; bi_app_head_rd := no_rd;
     bi_commit_wr := WrReq false 0 0; bi_commit_rd0 := no_rd; bi_commit_rd1 := no_rd;
     bi_tx_head_ptr_wr_rdy := true; bi_store_buf_q_full := full |}.

(** Two flows interleaved, one packet out of order, stalls of the store queue
    and reads of the handshake pipeline. *)
Definition sample_run : list backend_in :=
  [opens 3 1000 5000; opens 4 7000 (2 ^ 31); arrives (segment 3 1000 5000 100) false false;
   arrives (segment 4 7000 (2 ^ 31 + 10) 50) true false; arrives (segment 3 1100 5000 100) true true;
   arrives (segment 3 1100 5000 100) true true; arrives (segment 3 1100 5000 100) false true;
   arrives (segment 3 1100 5000 100) false true; arrives (segment 3 1100 5000 100) false false;
   arrives (segment 3 1100 5000 100) false false; idle; idle; idle; idle;
   arrives (segment 3 1300 5064 60) false false; idle; idle; idle; idle; idle].

Definition sample_start : backend := backend_next sample_x true idle junk_backend.


Lemma sample_start_sized : all_sized junk_backend.
Proof. repeat split. Defined.

Lemma est_backend_sequential_witness :
  let outs := outputs (est_backend sample_x) sample_run sample_start in
  let s1 := after_cycles (est_backend sample_x) sample_run sample_start in
  let es := events sample_x 0 sample_run sample_start in
  accepted_pkts sample_run outs = segments es ++ in_stages s1 ∧
  process (stored sample_x sample_start) es = writebacks outs ++ in_w s1 ∧
  ∀ f, flow_ok f → flows_after (stored sample_x sample_start) es f = logical sample_x s1 f.
Proof.
  apply (est_backend_sequential sample_x idle junk_backend sample_run sample_start_sized).
  apply legal_cyclesb_ok. vm_compute. reflexivity.
Defined.

(** The packets of the run: flow, number acknowledged, tail, accepted. *)
Definition summary (w : writeback) : Z * Z * Z * bool :=
  (wb_flowid w, rx_curr_ack_num (fs_rx (wb_state w)), fs_tail (wb_state w), wb_accept w).

Example sample_run_results :
  summary <$> writebacks (outputs (est_backend sample_x) sample_run sample_start) =
  [(3, 1100, 100, true); (4, 7050, 50, true); (3, 1200, 200, true); (3, 1200, 200, false)].
Proof. vm_compute. reflexivity. Qed.

(** ** The cycle excluded: packets of one flow back to back

    Six packets of 1000 bytes, offered until they are taken.  Each enters C in
    the cycle in which the one before it leaves W, with the tail as it was two
    packets ago: all six are accepted into a buffer of 4096 bytes nothing is
    read from, and the tail says 3000. *)
Definition flood : list backend_in :=
  opens 3 1000 5000 ::
  ((λ k, arrives (segment 3 (1000 + 1000 * k) 5000 1000) false false) <$> [0; 1; 2; 2; 3; 3; 4; 4; 5; 5]) ++
  [idle; idle; idle; idle].

Lemma stale_tail_overflows :
  summary <$> writebacks (outputs (est_backend sample_x) flood sample_start) =
    [(3, 2000, 1000, true); (3, 3000, 1000, true); (3, 4000, 2000, true);
     (3, 5000, 2000, true); (3, 6000, 3000, true); (3, 7000, 3000, true)] ∧
  fs_tail (stored sample_x (after_cycles (est_backend sample_x) flood sample_start) 3) = 3000 ∧
  head_of sample_x (after_cycles (est_backend sample_x) flood sample_start) 3 = 0.
Proof. vm_compute. auto. Qed.
