(* ===== verification/EstFlow.v ===== *)
(** EstFlow: what the backend does for one connection, on its stream of bytes:
    the bytes of the payloads that are accepted follow each other, and what the
    application has not read fits in the buffer. *)

From stdpp Require Import functions.
From S2P Require Import Prelude Rtl TcpPkg AckEngines FlowStores EstPipe EstBackend EstRun.

(** ** A connection does not see the others *)

Definition on_flow (f : Z) (e : est_event) : bool :=
  match e with Segment p _ _ => est_flowid p =? f | Opened g _ => g =? f end.
Definition flow_events (f : Z) (es : list est_event) : list est_event := List.filter (on_flow f) es.
Definition flow_results (f : Z) (ws : list writeback) : list writeback :=
  List.filter (λ w, wb_flowid w =? f) ws.

(** Two tables that agree on the flow. *)
Lemma process_on_flow f L L' es :
  L f = L' f → flow_results f (process L es) = process L' (flow_events f es).
Proof.
  revert L L'. induction es as [|e es IH]; intros L L' HL; [done|].
  destruct e as [p h s|g st]; cbn [process flow_events List.filter on_flow].
  - cbn [app]. unfold flow_results at 1. cbn [List.filter wb_flowid result].
    destruct (Z.eqb_spec (est_flowid p) f) as [<-|Hne].
    + cbn [process app]. rewrite HL. f_equal. apply IH. cbn. by rewrite !fn_lookup_insert, HL.
    + apply IH. cbn. by rewrite fn_lookup_insert_ne.
  - cbn [app]. destruct (Z.eqb_spec g f) as [<-|Hne].
    + cbn [process app]. apply IH. cbn. by rewrite !fn_lookup_insert.
    + apply IH. cbn. by rewrite fn_lookup_insert_ne.
Qed.

(** ** The receiving side, on unbounded positions in the stream

    [T] bytes were received.  A segment comes with its position in the stream
    and with how far the application had read. *)

Record arrival := Arrival { a_pos : Z; a_read : Z }.

Definition buffer_bytes : Z := 2 ^ RX_PAYLOAD_PTR_W.

Definition takes (T : Z) (p : est_pkt) (a : arrival) : bool :=
  est_payload_val p && (a_pos a =? T) &&
  (T + payload_len (est_payload_entry p) - a_read a <=? buffer_bytes).
Definition received (T : Z) (p : est_pkt) (a : arrival) : Z :=
  if takes T p a then T + payload_len (est_payload_entry p) else T.

(** The events of a connection are segments of its stream: the sequence number
    says the position, counted from [I], less than half the circle away; the
    head pointer says how far the application has read, which only grows and
    never overtakes what was received. *)
Fixpoint stream (I T read : Z) (es : list est_event) (arr : list arrival) : Prop :=
  match es, arr with
  | [], [] => True
  | Segment p h _ :: es', a :: arr' =>
      (seq_num (est_tcp_hdr p) = seq (I + a_pos a) ∧ - 2 ^ 31 ≤ a_pos a - T < 2 ^ 31) ∧
      (h = rx_ptr (a_read a) ∧ read ≤ a_read a ≤ T) ∧
      0 ≤ payload_len (est_payload_entry p) < 2 ^ 16 ∧
      stream I (received T p a) (a_read a) es' arr'
  | _, _ => False
  end.

(** What is answered: the number acknowledged, the tail of the buffer, whether
    the payload was taken, the window. *)
Definition answer (w : writeback) : Z * Z * bool * Z :=
  (rx_curr_ack_num (fs_rx (wb_state w)), fs_tail (wb_state w), wb_accept w,
   rx_curr_wnd_size (fs_rx (wb_state w))).

Fixpoint receive (I T : Z) (es : list est_event) (arr : list arrival) : list (Z * Z * bool * Z) :=
  match es, arr with
  | Segment p _ _ :: es', a :: arr' =>
      let T' := received T p a in
      (seq (I + T'), rx_ptr T', takes T p a, buffer_bytes - (T - a_read a)) :: receive I T' es' arr'
  | _, _ => []
  end.

(** No more is in the buffer than it can hold. *)
Fixpoint buffer_fits (T : Z) (es : list est_event) (arr : list arrival) : Prop :=
  match es, arr with
  | Segment p _ _ :: es', a :: arr' =>
      0 ≤ received T p a - a_read a ≤ buffer_bytes ∧ buffer_fits (received T p a) es' arr'
  | _, _ => True
  end.

Lemma space_left T H : 0 ≤ T - H ≤ 4096 → rx_payload_q_space_left (rx_ptr T) (rx_ptr H) = 4096 - (T - H).
Proof.
  intros Hb. unfold rx_payload_q_space_left. rewrite rx_ptr_sub.
  rewrite (rx_ptr_small (T - H)) by lia. change (2 ^ RX_PAYLOAD_PTR_W) with 4096. apply rx_ptr_small. lia.
Qed.

(** One segment. *)
Lemma compute_receives I T st p a snd :
  rx_curr_ack_num (fs_rx st) = seq (I + T) → fs_tail st = rx_ptr T →
  seq_num (est_tcp_hdr p) = seq (I + a_pos a) → - 2 ^ 31 ≤ a_pos a - T < 2 ^ 31 →
  0 ≤ T - a_read a ≤ 4096 → 0 ≤ payload_len (est_payload_entry p) →
  let c := compute_stage p st (rx_ptr (a_read a)) snd in
  rx_curr_ack_num (next_recv_state_struct c) = seq (I + received T p a) ∧
  next_rx_payload_q_tail_ptr c = rx_ptr (received T p a) ∧
  accept_payload c = takes T p a ∧
  rx_curr_wnd_size (next_recv_state_struct c) = buffer_bytes - (T - a_read a) ∧
  0 ≤ received T p a - a_read a ≤ buffer_bytes.
Proof.
  intros Ha Ht Hs Hp Hr Hl c.
  assert (Eacc : accept_payload c = takes T p a).
  { unfold c, compute_stage, takes. cbn [accept_payload]. unfold rx_ack_engine. rewrite Ha, Ht, Hs, space_left by done.
    rewrite seq_eqb by lia. rewrite (Z.eqb_sym (I + a_pos a)). replace (I + T =? I + a_pos a) with (a_pos a =? T).
    2: { destruct (Z.eqb_spec (a_pos a) T), (Z.eqb_spec (I + T) (I + a_pos a)); try done; lia. }
    change buffer_bytes with 4096. destruct (est_payload_val p && (a_pos a =? T)); cbn [rxe_accept_payload andb]; [|done].
    apply eq_true_iff_eq. rewrite !Z.leb_le. lia. }
  assert (Hpos : takes T p a = true → a_pos a = T ∧ est_payload_val p = true ∧
    T + payload_len (est_payload_entry p) - a_read a ≤ 4096).
  { unfold takes. rewrite !andb_true_iff, Z.eqb_eq, Z.leb_le. by intros [[? ?] ?]. }
  assert (Hfit : 0 ≤ received T p a - a_read a ≤ buffer_bytes).
  { unfold received. change buffer_bytes with 4096. destruct (takes T p a); [|lia]. destruct Hpos as (_ & _ & ?); [done|]. lia. }
  set (len := payload_len (est_payload_entry p)) in *.
  assert (E1 : rx_curr_ack_num (next_recv_state_struct c) =
    if accept_payload c
    then rxe_next_ack_num (rx_ack_engine (rx_curr_ack_num (fs_rx st)) (seq_num (est_tcp_hdr p)) (est_payload_val p) len)
    else rx_curr_ack_num (fs_rx st)) by done.
  assert (E2 : next_rx_payload_q_tail_ptr c = if accept_payload c then rx_ptr (fs_tail st + len) else fs_tail st) by done.
  assert (E3 : rx_curr_wnd_size (next_recv_state_struct c) = rx_payload_q_space_left (fs_tail st) (rx_ptr (a_read a))) by done.
  rewrite E1, E2, E3, Eacc, Ht, space_left by done. clearbody c. clear E1 E2 E3.
  unfold received in *. fold len in Hfit |- *. destruct (takes T p a); [|by rewrite Ha].
  destruct Hpos as (Hp' & Hv & _); [done|]. unfold rx_ack_engine. rewrite Ha, Hs, Hv, Hp', Z.eqb_refl.
  cbn [andb rxe_next_ack_num]. rewrite seq_seq_add, rx_ptr_add. by rewrite Z.add_assoc.
Qed.

Lemma receiver_run I T read L es arr f :
  rx_curr_ack_num (fs_rx (L f)) = seq (I + T) → fs_tail (L f) = rx_ptr T → 0 ≤ T - read ≤ 4096 →
  List.forallb (on_flow f) es = true → stream I T read es arr →
  answer <$> process L es = receive I T es arr ∧ buffer_fits T es arr.
Proof.
  revert T read L arr. induction es as [|[p h s|g st] es IH]; intros T read L [|a arr] Ha Ht Hr Hf Hs; try done.
  destruct Hs as ((Hseq & Hpos) & (-> & Hread) & Hlen & Hs).
  cbn in Hf. apply andb_true_iff in Hf as [Hf Hfs]. apply Z.eqb_eq in Hf. subst f.
  destruct (compute_receives I T (L (est_flowid p)) p a s) as (E1 & E2 & E3 & E4 & E5); try done; try lia.
  destruct (IH (received T p a) (a_read a) (event_next L (Segment p (rx_ptr (a_read a)) s)) arr) as [E6 E7]; try done.
  - cbn. by rewrite fn_lookup_insert.
  - cbn. by rewrite fn_lookup_insert.
  - split; [|done]. cbn [process receive]. rewrite fmap_app, E6. cbn [app fmap list_fmap]. f_equal.
    unfold answer, result, state_of. cbn [wb_state wb_accept fs_rx fs_tail]. by rewrite E1, E2, E3, E4.
Qed.

Lemma flow_events_on f es : List.forallb (on_flow f) (flow_events f es) = true.
Proof.
  unfold flow_events. induction es as [|e es IH]; [done|]. cbn. destruct (on_flow f e) eqn:E; [cbn; by rewrite E|done].
Qed.

(** The packets of a flow. *)
Definition pkts_on (f : Z) (ps : list est_pkt) : list est_pkt := List.filter (λ p, est_flowid p =? f) ps.

Lemma pkts_on_segments f es : pkts_on f (segments es) = segments (flow_events f es).
Proof.
  unfold pkts_on, flow_events. induction es as [|[p h s|g st] es IH]; [done| |]; cbn.
  - unfold segments in IH. rewrite IH. by destruct (est_flowid p =? f).
  - destruct (g =? f); exact IH.
Qed.

(** C12: a connection receives its stream, through the pipeline.  After a cycle
    of reset, whatever the memories held, and in any run in which connections
    are opened while none of their packets is in the pipeline and no packet reads
    its tail in the cycle in which the tail is written (where that happens more
    is accepted than fits: [stale_tail_overflows]): when a connection is opened,
    once and before its packets, among any others, and its packets are segments
    of a stream, less than half the circle of numbers away from what was
    received, while the application reads no more than was received, then the
    packets of the connection are processed in the order they came in, apart from
    the two at most still on their way; of each the payload is accepted exactly
    if it starts with the next byte of the stream and fits in what the
    application has freed of the 4096-byte buffer; the number acknowledged and
    the tail of the buffer, written back or in the last stage to be, are the
    number of bytes accepted, on their circles of 2^32 and 2^13, so they never
    part; the window is the room there was before the payload; and what was
    accepted and not yet read never exceeds the buffer. *)
Theorem est_receives_stream x i0 s ins f st segs I T read arr :
  all_sized s →
  let s0 := backend_next x true i0 s in
  legal_cycles x ins s0 →
  let outs := outputs (est_backend x) ins s0 in
  let s1 := after_cycles (est_backend x) ins s0 in
  flow_events f (events x 0 ins s0) = Opened f st :: segs →
  rx_curr_ack_num (fs_rx st) = seq (I + T) → fs_tail st = rx_ptr T → 0 ≤ T - read ≤ buffer_bytes →
  stream I T read segs arr →
  pkts_on f (accepted_pkts ins outs) = segments segs ++ pkts_on f (in_stages s1) ∧
  answer <$> flow_results f (writebacks outs ++ in_w s1) = receive I T segs arr ∧
  buffer_fits T segs arr.
Proof.
  intros Hsz s0 Hl outs s1 Hev Ha Ht Hr Hs.
  destruct (sequential_run x 0 (stored x s0) s0 ins (inv_reset x 0 i0 s Hsz) Hl) as (E1 & E2 & _). cbn zeta in E1, E2.
  change (in_stages s0) with (@nil est_pkt) in E1. change (in_w s0) with (@nil writeback) in E2.
  cbn [app] in E1, E2. fold outs s1 in E1, E2. rewrite E1, <- E2. split.
  - unfold pkts_on at 1. rewrite List.filter_app. fold (pkts_on f (segments (events x 0 ins s0))).
    by rewrite pkts_on_segments, Hev.
  - pose proof (flow_events_on f (events x 0 ins s0)) as Hon. rewrite Hev in Hon. cbn in Hon. apply andb_true_iff in Hon as [_ Hon].
    rewrite (process_on_flow f (stored x s0) (stored x s0)), Hev by done. cbn [process app].
    apply (receiver_run I T read (event_next (stored x s0) (Opened f st)) segs arr f); try done; cbn; by rewrite fn_lookup_insert.
Qed.

(** ** The sending side is the engine of AckEngines, packet by packet *)

Definition acks_of (es : list est_event) : list (Z * Z) :=
  es ≫= λ e, match e with Segment p _ s => [(ack_num (est_tcp_hdr p), s)] | Opened _ _ => [] end.

Definition no_opening (es : list est_event) : bool :=
  List.forallb (λ e, match e with Segment _ _ _ => true | Opened _ _ => false end) es.

Lemma process_acks f L es :
  no_opening (flow_events f es) = true →
  (λ w, (tx_curr_ack_num (fs_ack (wb_state w)), wb_tx_head w, wb_set_rt w)) <$> flow_results f (process L es) =
  (λ o, (txe_next_ack_num o, txe_next_head_ptr o, txe_set_rt_flag o)) <$>
    tx_ack_run (tx_curr_ack_num (fs_ack (L f))) (tx_curr_ack_cnt (fs_ack (L f))) (acks_of (flow_events f es)).
Proof.
  intros Hn. rewrite (process_on_flow f L L) by done. pose proof (flow_events_on f es) as Hf.
  revert L. induction (flow_events f es) as [|[p h s|g st] es' IH]; intros L; [done| |done].
  cbn in Hf. apply andb_true_iff in Hf as [Hf Hfs]. apply Z.eqb_eq in Hf. subst f.
  cbn [process fmap list_fmap app acks_of mbind list_bind tx_ack_run].
  f_equal. rewrite (IH Hn Hfs). cbn [event_next]. by rewrite fn_lookup_insert.
Qed.

(** ** A concrete stream: the run of EstRun, with two connections interleaved

    On connection 3 come the first 100 bytes, the next 100, and 60 bytes that
    come too early. *)

Lemma est_receives_stream_witness :
  let outs := outputs (est_backend sample_x) sample_run sample_start in
  let s1 := after_cycles (est_backend sample_x) sample_run sample_start in
  length (flow_events 3 (events sample_x 0 sample_run sample_start)) = 4%nat ∧
  answer <$> flow_results 3 (writebacks outs ++ in_w s1) =
    [(1100, 100, true, 4096); (1200, 200, true, 3996); (1200, 200, false, 3896)].
Proof.
  split; [vm_compute; reflexivity|].
  refine (eq_trans (proj1 (proj2 (est_receives_stream sample_x idle junk_backend sample_run 3
    (FlowState (RecvStateEntry 1000 4096) (TxAckState 0 5000) 0)
    [Segment (segment 3 1000 5000 100) 0 5064; Segment (segment 3 1100 5000 100) 0 5064;
     Segment (segment 3 1300 5064 60) 0 5064] 1000 0 0 [Arrival 0 0; Arrival 100 0; Arrival 300 0]
    sample_start_sized _ _ eq_refl eq_refl _ _))) _).
  - apply legal_cyclesb_ok. vm_compute. reflexivity.
  - vm_compute. reflexivity.
  - vm_compute. split; discriminate.
  - vm_compute. repeat split; intros; discriminate.
  - vm_compute. reflexivity.
Defined.
