(* ===== verification/FlowId.v ===== *)
(** FlowId: recv_pipe/flowid_manager.sv, which numbers the connections: from a
    counter first, then from a queue of numbers given back. *)

From S2P Require Import Prelude Rtl Fifo TcpPkg.

Definition flow_log2 : nat := Z.to_nat FLOWID_W.

Record flowid_manager := FlowidManager {
  flowid_reg : Z;
  fm_use_fifo_reg : bool;
  reclaimed_flowids : fifo Z }.

Record flowid_in := FlowidIn { flowid_ret_val : bool; flowid_ret_id : Z; flowid_req : bool }.
Record flowid_out := FlowidOut { flowid_ret_rdy : bool; flowid_avail : bool; flowid : option Z }.

(** The queue is written whether or not it is full. *)
Definition flowid_fifo_in (i : flowid_in) (s : flowid_manager) : fifo_in Z :=
  FifoIn (flowid_req i && fm_use_fifo_reg s) (flowid_ret_val i) (flowid_ret_id i).

Definition flowid_manager_module : circuit flowid_manager flowid_in flowid_out := Circuit
  (λ s _,
     {| flowid_ret_rdy := negb (fifo_full flow_log2 (reclaimed_flowids s));
        flowid_avail := if fm_use_fifo_reg s then negb (fifo_empty flow_log2 (reclaimed_flowids s)) else true;
        flowid := if fm_use_fifo_reg s then rd_resp_data (fifo_mem (reclaimed_flowids s))
                  else Some (flowid_reg s) |})
  (λ rst i s,
     let last := flowid_reg s =? 2 ^ FLOWID_W - 1 in
     {| flowid_reg := if rst then 0
                      else if flowid_req i then if last then 0 else (flowid_reg s + 1) mod 2 ^ FLOWID_W
                      else flowid_reg s;
        fm_use_fifo_reg := if rst then false else if flowid_req i then last else fm_use_fifo_reg s;
        reclaimed_flowids := c_next (fifo_1r1w 0 flow_log2) rst (flowid_fifo_in i s) (reclaimed_flowids s) |}).

(** ** Numbers are handed out once

    As recv_pipe/rx_pipe_wrap.sv uses the module: nothing is given back, and a
    number is asked for only when there is one. *)

Definition numbers_spec : spec nat flowid_in flowid_out := {|
  sp_legal n i := flowid_ret_val i = false ∧ (flowid_req i = true → (n < MAX_FLOW_CNT)%nat);
  sp_shows n _ o := flowid_avail o = bool_decide (n < MAX_FLOW_CNT)%nat ∧
                    ((n < MAX_FLOW_CNT)%nat → flowid o = Some (Z.of_nat n));
  sp_next i n := if flowid_req i then S n else n |}.

Definition numbers_rel (s : flowid_manager) (n : nat) : Prop :=
  fifo_rel flow_log2 (reclaimed_flowids s) [] ∧ (n ≤ MAX_FLOW_CNT)%nat ∧
  fm_use_fifo_reg s = bool_decide (n = MAX_FLOW_CNT) ∧ (n = MAX_FLOW_CNT ∨ flowid_reg s = Z.of_nat n).

Lemma numbers_simulates : simulates flowid_manager_module numbers_spec numbers_rel.
Proof.
  intros s n i (Hf & Hn & Hu & Hr) [Hret Hreq]. unfold MAX_FLOW_CNT in *.
  destruct (fifo_flags _ _ _ Hf) as [He _]. split.
  - cbn. unfold MAX_FLOW_CNT. rewrite Hu, He. destruct (decide (n = 16)%nat) as [->|Hne]; [by split; [|lia]|].
    rewrite (bool_decide_eq_false_2 (n = 16%nat)), (bool_decide_eq_true_2 (n < 16)%nat) by lia.
    split; [done|]. intros _. by destruct Hr as [? | ->]; [lia|].
  - assert (Hrd : flowid_req i && fm_use_fifo_reg s = false).
    { rewrite Hu. destruct (flowid_req i); [|done]. specialize (Hreq eq_refl). apply bool_decide_eq_false_2. lia. }
    assert (Hl : sp_legal (queue_spec flow_log2) [] (flowid_fifo_in i s)).
    { split; cbn; rewrite ?Hrd, ?Hret; done. }
    destruct (fifo_simulates 0 _ _ _ _ Hf Hl) as [_ Hf'].
    assert (queue_next (flowid_fifo_in i s) [] = []) as E by (unfold queue_next; cbn; by rewrite Hrd, Hret).
    cbn [sp_next queue_spec] in Hf'. rewrite E in Hf'. split; [exact Hf'|]. cbn. unfold MAX_FLOW_CNT.
    destruct (flowid_req i) eqn:Er.
    + specialize (Hreq eq_refl). destruct Hr as [?|Hr]; [lia|]. rewrite Hr. split; [lia|].
      destruct (Z.eqb_spec (Z.of_nat n) (2 ^ FLOWID_W - 1)) as [E2|E2]; unfold FLOWID_W in *.
      * rewrite bool_decide_eq_true_2 by lia. split; [done|]. left. lia.
      * rewrite bool_decide_eq_false_2 by lia. split; [done|]. right. rewrite Z.mod_small by lia. lia.
    + done.
Qed.

(** A connection's number is its own.  As the receive pipeline uses the
    manager, never giving a number back and asking only when one is available,
    the numbers handed out after a reset are 0, 1, ..., 15 in that order, one
    is available as long as fewer than sixteen are out, and then none is. *)
Theorem flowid_manager_numbers s i0 ins :
  Z.of_nat (length (contents (fifo_mem (reclaimed_flowids s)))) = slots flow_log2 →
  legal_run numbers_spec 0%nat ins →
  let s0 := c_next flowid_manager_module true i0 s in
  shows_run numbers_spec 0%nat ins (outputs flowid_manager_module ins s0).
Proof.
  intros Hm Hl s0. refine (proj1 (simulates_run _ _ _ _ _ _ numbers_simulates _ Hl)).
  split; [by apply fifo_reset|]. split; [unfold MAX_FLOW_CNT; lia|]. split; [done|]. by right.
Qed.

(** ** Numbers given back

    The request that takes the first of them goes back to the counter, and the
    next one is handed a number that is still in use. *)

Definition junk_flowids : flowid_manager :=
  {| flowid_reg := 9; fm_use_fifo_reg := true;
     reclaimed_flowids := {| wr_ptr_reg := 3; rd_ptr_reg := 2; fifo_mem := junk_ram (replicate 16 8) |} |}.
Definition asks : flowid_in := FlowidIn false 0 true.
Definition sample_asks : list flowid_in := replicate 16 asks ++ [FlowidIn false 0 false].

Lemma flowid_manager_numbers_witness :
  let s0 := c_next flowid_manager_module true asks junk_flowids in
  shows_run numbers_spec 0%nat sample_asks (outputs flowid_manager_module sample_asks s0).
Proof.
  apply (flowid_manager_numbers junk_flowids asks sample_asks); [reflexivity|].
  unfold sample_asks, MAX_FLOW_CNT. cbn. unfold MAX_FLOW_CNT. repeat split; lia.
Defined.

(** 5 is given back after all sixteen went out; it is handed out again, and
    then 1, which nobody gave back. *)
Lemma flowid_in_use_again :
  let s0 := c_next flowid_manager_module true asks junk_flowids in
  let ins := replicate 16 asks ++ [FlowidIn true 5 false; asks; asks] in
  (λ o, (flowid_avail o, flowid o)) <$> drop 17 (outputs flowid_manager_module ins s0) =
  [(true, Some 5); (true, Some 1)].
Proof. vm_compute. reflexivity. Qed.
