(* ===== verification/TcpStateMachine.v ===== *)
(** TcpStateMachine: recv_pipe/tcp_state_machine.sv, which decides what a packet
    does to a connection that is not yet, or no longer, established, and the
    header it answers with, of tcp_hdr_assembler.sv. *)

From S2P Require Import Prelude TcpPkg.

(** ** Flags, of include/packet_defs.vh *)

Definition FLAG_SYN : Z := 2.
Definition FLAG_PSH : Z := 8.
Definition FLAG_ACK : Z := 16.
Definition TCP_HDR_BYTES : Z := 20.

(** ** tcp_hdr_assembler.sv *)

Definition tcp_hdr_assembler (tcp_hdr_req_val : bool)
    (host_port dest_port seq_num ack_num flags window : Z) : tcp_pkt_hdr :=
  if tcp_hdr_req_val
  then {| src_port := host_port; dst_port := dest_port; seq_num := seq_num; ack_num := ack_num;
          raw_data_offset := Z.shiftr TCP_HDR_BYTES 2; reserved := 0; flags := flags; win_size := window;
          chksum := 0; urg_pointer := 0 |}
  else zero_hdr.

Definition base_window_size : Z := 2 ^ TX_PAYLOAD_PTR_W.

(** ** tcp_state_machine.sv *)

Record sm_out := SmOut {
  sm_next_flow_state : tcp_flow_state_e;
  sm_send_pkt_val : option bool;
  sm_send_tcp_hdr : option tcp_pkt_hdr;
  sm_app_new_flow_notif : bool;
  sm_seq_num_req : bool }.

(** The first number sent: the generator's, with the low bits set so that the
    one after it is the start of the buffer. *)
Definition first_seq_num (init_seq_num : Z) : Z :=
  Z.lor (Z.shiftl (Z.shiftr init_seq_num TX_PAYLOAD_PTR_W) TX_PAYLOAD_PTR_W) (Z.ones TX_PAYLOAD_PTR_W).

Definition no_pkt (next : tcp_flow_state_e) (notif : bool) : sm_out :=
  SmOut next (Some false) (Some zero_hdr) notif false.

(** The outputs left ['X] in a state the machine does not know are [None]. *)
Definition tcp_state_machine (curr_flow_state : tcp_flow_state_e) (h : tcp_pkt_hdr)
    (rx : recv_state_entry) (tx : tx_state_struct) (init_seq_num : Z) : sm_out :=
  match curr_flow_state with
  | TCP_NONE =>
      if flags h =? FLAG_SYN
      then {| sm_next_flow_state := TCP_SYN_RECV; sm_send_pkt_val := Some true;
              sm_send_tcp_hdr :=
                Some (tcp_hdr_assembler true (dst_port h) (src_port h) (first_seq_num init_seq_num)
                        (seq (seq_num h + 1)) (Z.lor FLAG_SYN FLAG_ACK) base_window_size);
              sm_app_new_flow_notif := false; sm_seq_num_req := true |}
      else no_pkt TCP_NONE false
  | TCP_SYN_RECV =>
      if (flags h =? FLAG_ACK) && (rx_curr_ack_num rx =? seq_num h) && (tx_curr_seq_num tx =? ack_num h)
      then no_pkt TCP_EST true
      else {| sm_next_flow_state := TCP_SYN_RECV; sm_send_pkt_val := Some true;
              sm_send_tcp_hdr :=
                Some (tcp_hdr_assembler true (dst_port h) (src_port h) (tx_curr_seq_num tx)
                        (rx_curr_ack_num rx) (Z.lor FLAG_SYN FLAG_ACK) base_window_size);
              sm_app_new_flow_notif := false; sm_seq_num_req := false |}
  | TCP_EST => no_pkt TCP_NONE false
  | TCP_HALF_CLOSE | TCP_UND =>
      {| sm_next_flow_state := TCP_UND; sm_send_pkt_val := None; sm_send_tcp_hdr := None;
         sm_app_new_flow_notif := false; sm_seq_num_req := false |}
  end.

(** ** The states a connection starts with, of recv_pipe/rx_fsm_pipe.sv *)

Definition tx_state_init (send_tcp_hdr : tcp_pkt_hdr) : tx_state_struct :=
  {| tx_curr_seq_num := seq (seq_num send_tcp_hdr + 1); timer := zero_timer;
     tx_curr_ack_state := {| tx_curr_ack_cnt := 0; tx_curr_ack_num := seq (seq_num send_tcp_hdr + 1) |} |}.
Definition rx_state_init (send_tcp_hdr : tcp_pkt_hdr) : recv_state_entry :=
  {| rx_curr_ack_num := ack_num send_tcp_hdr; rx_curr_wnd_size := 2 ^ RX_PAYLOAD_PTR_W |}.

(** ** The first number *)

Lemma first_seq_num_spec n :
  0 ≤ n < 2 ^ 32 → first_seq_num n = n - n mod 4096 + 4095.
Proof.
  intros Hn. unfold first_seq_num, TX_PAYLOAD_PTR_W.
  rewrite <- Z.add_nocarry_lor.
  - rewrite Z.shiftl_mul_pow2, Z.shiftr_div_pow2 by lia. change (2 ^ 12) with 4096. change (Z.ones 12) with 4095.
    pose proof (Z.div_mod n 4096). lia.
  - apply Z.bits_inj'. intros k Hk. rewrite Z.land_spec, Z.bits_0. destruct (Z_lt_ge_dec k 12).
    + rewrite Z.shiftl_spec_low by lia. done.
    + rewrite Z.ones_spec_high by lia. apply andb_false_r.
Qed.
