(* ===== verification/Lfsr.v ===== *)
(** Lfsr: basejump_files/bsg_misc/bsg_lfsr.sv, the generator of the first
    sequence numbers of recv_pipe/tcp_state_machine.sv: a shift register that
    never holds zero and can be run backwards. *)

From S2P Require Import Prelude Rtl TcpPkg TcpStateMachine.

(** ** The module *)

(** [automask]; other widths are not handled. *)
Definition auto_mask (width_p : Z) : option Z :=
  if width_p =? 32 then Some (Z.lor (Z.lor (Z.shiftl 1 31) (Z.shiftl 1 29)) (Z.lor (Z.shiftl 1 26) (Z.shiftl 1 25)))
  else if width_p =? 60 then Some (Z.lor (Z.shiftl 1 59) (Z.shiftl 1 58))
  else if width_p =? 64 then Some (Z.lor (Z.lor (Z.shiftl 1 63) (Z.shiftl 1 62)) (Z.lor (Z.shiftl 1 60) (Z.shiftl 1 59)))
  else None.

Section Lfsr.
Variables (width_p init_val_p xor_mask : Z).

(** [o_r], the register; [o_n], what it becomes. *)
Definition lfsr_o_n (o_r : Z) : Z :=
  Z.lxor (Z.shiftr o_r 1) (Z.land (if Z.odd o_r then Z.ones width_p else 0) xor_mask).

(** The input is [yumi_i]. *)
Definition bsg_lfsr : circuit Z bool Z := Circuit
  (λ o_r (_ : bool), o_r)
  (λ reset_i yumi_i o_r, if reset_i then init_val_p mod 2 ^ width_p else if yumi_i then lfsr_o_n o_r else o_r).
End Lfsr.

(** ** [init_seq_num_gen] of tcp_state_machine.sv *)

Definition seq_mask : Z := default 0 (auto_mask SEQ_NUM_W).
Definition init_seq_num_gen : circuit Z bool Z := bsg_lfsr SEQ_NUM_W 1 seq_mask.

(** ** What it gives *)

Lemma seq_mask_value : seq_mask = 0xA6000000.
Proof. reflexivity. Qed.

Definition seq_ok (o : Z) : Prop := 0 < o < 2 ^ 32.

Lemma o_n_cases o : 0 ≤ o → lfsr_o_n SEQ_NUM_W seq_mask o = if Z.odd o then Z.lxor (o / 2) seq_mask else o / 2.
Proof.
  intros Ho. unfold lfsr_o_n. rewrite Z.shiftr_div_pow2 by lia. change (2 ^ 1) with 2.
  destruct (Z.odd o); [|by rewrite Z.land_0_l, Z.lxor_0_r]. done.
Qed.

Lemma bits_above o n k : 0 ≤ o < 2 ^ n → 0 ≤ n ≤ k → Z.testbit o k = false.
Proof.
  intros Ho Hn. rewrite <- (Z.mod_small o (2 ^ n)) by done. by apply Z.mod_pow2_bits_high.
Qed.

Lemma half_bits o k : 0 ≤ o < 2 ^ 32 → 31 ≤ k → Z.testbit (o / 2) k = false.
Proof.
  intros Ho Hk. apply (bits_above _ 31); [|lia]. split; [apply Z.div_pos; lia|apply Z.div_lt_upper_bound; lia].
Qed.

(** The highest bit is the one that was shifted out. *)
Lemma o_n_top o : 0 ≤ o < 2 ^ 32 → Z.testbit (lfsr_o_n SEQ_NUM_W seq_mask o) 31 = Z.odd o.
Proof.
  intros Ho. rewrite o_n_cases by lia. destruct (Z.odd o); [|apply half_bits; lia].
  rewrite Z.lxor_spec, half_bits by lia. done.
Qed.

Lemma o_n_ok o : seq_ok o → seq_ok (lfsr_o_n SEQ_NUM_W seq_mask o).
Proof.
  unfold seq_ok. intros Ho. pose proof (o_n_top o) as Ht. rewrite o_n_cases in * by lia.
  assert (Hh : 0 ≤ o / 2 < 2 ^ 32) by (split; [apply Z.div_pos; lia|apply Z.div_lt_upper_bound; lia]).
  destruct (Z.odd o) eqn:Eo.
  - assert (Hb : 0 ≤ Z.lxor (o / 2) seq_mask < 2 ^ 32).
    { assert (H0 : 0 ≤ Z.lxor (o / 2) seq_mask) by (apply Z.lxor_nonneg; split; intros _; [done|apply Hh]).
      split; [done|]. apply Z.bounded_iff_bits_nonneg; [lia|done|]. intros k Hk.
      rewrite Z.lxor_spec, half_bits by lia. by rewrite (bits_above seq_mask 32) by done. }
    split; [|apply Hb]. destruct (Z.eq_dec (Z.lxor (o / 2) seq_mask) 0) as [E|]; [|lia].
    rewrite E, Z.bits_0 in Ht. by specialize (Ht ltac:(lia)).
  - split; [|apply Hh]. apply Z.div_str_pos. split; [lia|]. destruct (Z.eq_dec o 1) as [->|]; [done|lia].
Qed.

(** The step can be undone: no two numbers are followed by the same one, so
    none comes again before the first one does. *)
Definition lfsr_o_p (o : Z) : Z := if Z.testbit o 31 then 2 * Z.lxor o seq_mask + 1 else 2 * o.

Lemma o_p_undoes o : 0 ≤ o < 2 ^ 32 → lfsr_o_p (lfsr_o_n SEQ_NUM_W seq_mask o) = o.
Proof.
  intros Ho. unfold lfsr_o_p. rewrite o_n_top, o_n_cases by lia. pose proof (Z.div_mod o 2 ltac:(lia)) as Hd.
  rewrite Zmod_odd in Hd. destruct (Z.odd o); [|lia]. rewrite Z.lxor_assoc, Z.lxor_nilpotent, Z.lxor_0_r. lia.
Qed.

Lemma o_n_injective o o' :
  0 ≤ o < 2 ^ 32 → 0 ≤ o' < 2 ^ 32 → lfsr_o_n SEQ_NUM_W seq_mask o = lfsr_o_n SEQ_NUM_W seq_mask o' → o = o'.
Proof. intros Ho Ho' E. by rewrite <- (o_p_undoes o), <- (o_p_undoes o'), E. Qed.

Lemma gen_ok rst yumi o : seq_ok o → seq_ok (c_next init_seq_num_gen rst yumi o).
Proof. intros Ho. cbn. destruct rst; [by unfold seq_ok|]. destruct yumi; [by apply o_n_ok|done]. Qed.

Lemma gen_reset yumi o : seq_ok (c_next init_seq_num_gen true yumi o).
Proof. by unfold seq_ok. Qed.

(** The first numbers. *)
Example gen_run :
  outputs init_seq_num_gen (replicate 6 true) (c_next init_seq_num_gen true false 0) =
  [1; 0xA6000000; 0x53000000; 0x29800000; 0x14C00000; 0xA600000].
Proof. vm_compute. reflexivity. Qed.

(** ** How soon the numbers come again

    The step is linear over the bits, so any number of steps is a table of 32
    words, and the table of twice as many is got by applying it to itself. *)

Definition linear (f : Z → Z) : Prop := f 0 = 0 ∧ ∀ a b, f (Z.lxor a b) = Z.lxor (f a) (f b).
Definition keeps_width (f : Z → Z) : Prop := ∀ o, 0 ≤ o < 2 ^ 32 → 0 ≤ f o < 2 ^ 32.

Fixpoint apply_table (t : list Z) (o : Z) : Z :=
  match t with [] => 0 | v :: t' => Z.lxor (if Z.odd o then v else 0) (apply_table t' (o / 2)) end.
Fixpoint unit_words (n : nat) (v : Z) : list Z := match n with O => [] | S n' => v :: unit_words n' (2 * v) end.
Definition table (f : Z → Z) : list Z := f <$> unit_words 32 1.

Lemma low_bit_apart a : 0 ≤ a → a = Z.lxor (if Z.odd a then 1 else 0) (2 * (a / 2)).
Proof.
  intros Ha. pose proof (Z.div_mod a 2 ltac:(lia)) as Hd. rewrite Zmod_odd in Hd. rewrite <- Z.add_nocarry_lxor.
  - destruct (Z.odd a); lia.
  - apply Z.bits_inj'. intros n _. rewrite Z.land_spec, Z.bits_0. destruct (Z.odd a); [|by rewrite Z.bits_0].
    destruct (Z.eq_dec n 0) as [->|]; [by rewrite Z.testbit_even_0, andb_false_r|].
    change 1 with (2 ^ 0). by rewrite Z.pow2_bits_false.
Qed.

Lemma apply_units f n v o :
  linear f → 0 ≤ o < 2 ^ Z.of_nat n → apply_table (f <$> unit_words n (2 ^ v)) o = f (o * 2 ^ v) ∨ v < 0.
Proof.
  intros [H0 Hx]. revert v o. induction n as [|n IH]; intros v o Ho.
  { replace o with 0 by lia. left. cbn [unit_words fmap list_fmap apply_table]. by rewrite Z.mul_0_l, H0. }
  destruct (Z.ltb_spec v 0) as [|Hv]; [by right|]. left. cbn [unit_words fmap list_fmap apply_table].
  rewrite <- Z.pow_succ_r by done.
  assert (Hh : 0 ≤ o / 2 < 2 ^ Z.of_nat n).
  { rewrite Nat2Z.inj_succ, Z.pow_succ_r in Ho by lia. split; [apply Z.div_pos; lia|apply Z.div_lt_upper_bound; lia]. }
  destruct (IH (Z.succ v) (o / 2) Hh) as [E|]; [|lia].
  change (list_fmap Z Z f (unit_words n (2 ^ Z.succ v))) with (f <$> unit_words n (2 ^ Z.succ v)). rewrite E.
  rewrite (low_bit_apart o) at 3 by lia. rewrite <- !Z.shiftl_mul_pow2 by lia. rewrite Z.shiftl_lxor, Hx.
  rewrite !Z.shiftl_mul_pow2 by lia. f_equal.
  - destruct (Z.odd o); [by rewrite Z.mul_1_l|by rewrite Z.mul_0_l].
  - f_equal. rewrite Z.pow_succ_r by lia. lia.
Qed.

Lemma apply_ok f o : linear f → 0 ≤ o < 2 ^ 32 → apply_table (table f) o = f o.
Proof. intros Hf Ho. destruct (apply_units f 32 0 o Hf Ho) as [E|]; [|lia]. unfold table. etransitivity; [exact E|]. by rewrite Z.mul_1_r. Qed.

Lemma units_width v : v ∈ unit_words 32 1 → 0 ≤ v < 2 ^ 32.
Proof.
  assert (H : Forall (λ v, 0 ≤ v < 2 ^ 32) (unit_words 32 1)) by (apply (bool_decide_unpack _); vm_compute; exact I).
  rewrite Forall_forall in H. exact (H v).
Qed.

Lemma table_compose f g : linear f → keeps_width g → table (λ o, f (g o)) = apply_table (table f) <$> table g.
Proof.
  intros Hf Hg. change (table g) with (g <$> unit_words 32 1). rewrite <- list_fmap_compose. apply list_fmap_ext. intros i v Hv.
  symmetry. apply apply_ok; [done|]. apply Hg, units_width. by eapply list_elem_of_lookup_2.
Qed.

Abbreviation step := (lfsr_o_n SEQ_NUM_W seq_mask).

Lemma step_linear : linear step.
Proof.
  split; [done|]. intros a b. unfold lfsr_o_n. rewrite Z.shiftr_lxor, <- !Z.bit0_odd, Z.lxor_spec. apply Z.bits_inj'. intros n _.
  rewrite !Z.lxor_spec. destruct (Z.testbit a 0), (Z.testbit b 0); cbn [xorb]; rewrite ?Z.land_0_l, ?Z.bits_0;
    by repeat match goal with |- context [Z.testbit ?c n] => destruct (Z.testbit c n) end.
Qed.

Lemma step_width : keeps_width step.
Proof.
  intros o Ho. destruct (Z.eq_dec o 0) as [->|]; [done|]. pose proof (o_n_ok o) as H. unfold seq_ok in H. lia.
Qed.

Definition iterated (p : positive) (o : Z) : Z := Pos.iter step o p.

Lemma iterated_ok p : linear (iterated p) ∧ keeps_width (iterated p).
Proof.
  unfold iterated. induction p as [|p [[H0 Hx] Hw]] using Pos.peano_ind.
  - split; [exact step_linear|exact step_width].
  - split; [split|].
    + by rewrite Pos.iter_succ, H0.
    + intros a b. by rewrite !Pos.iter_succ, Hx, (proj2 step_linear).
    + intros o Ho. rewrite Pos.iter_succ. by apply step_width, Hw.
Qed.

(** The table of [p] steps, by doubling. *)
Fixpoint table_after (p : positive) : list Z :=
  match p with
  | xH => table step
  | xO q => let t := table_after q in apply_table t <$> t
  | xI q => let t := table_after q in step <$> (apply_table t <$> t)
  end.

Lemma table_after_ok p : table_after p = table (iterated p).
Proof.
  induction p as [q IH|q IH|]; cbn [table_after]; [| |done]; rewrite IH; destruct (iterated_ok q) as [Hl Hw].
  - rewrite <- table_compose by done. unfold table. rewrite <- list_fmap_compose. apply list_fmap_ext. intros i v _. done.
  - rewrite <- table_compose by done. done.
Qed.

Lemma iterated_by_table p o : 0 ≤ o < 2 ^ 32 → iterated p o = apply_table (table_after p) o.
Proof. intros Ho. rewrite table_after_ok. symmetry. by apply apply_ok; [apply iterated_ok|]. Qed.

Lemma after_yumis p o : after_cycles init_seq_num_gen (replicate (Pos.to_nat p) true) o = iterated p o.
Proof.
  unfold iterated. rewrite Pos2Nat.inj_iter. generalize (Pos.to_nat p) as n. intros n. revert o.
  induction n as [|n IH]; intros o; [done|]. cbn [replicate after_cycles fold_left].
  etransitivity; [exact (IH _)|]. symmetry. exact (Nat.iter_succ_r n _ step o).
Qed.

(** The polynomial is not primitive: of the 2^32 - 1 numbers there are, at most
    91203791 are drawn before the first one comes again. *)
Definition gen_period : positive := 91203791.

Lemma gen_period_short :
  after_cycles init_seq_num_gen (replicate (Pos.to_nat gen_period) true) (c_next init_seq_num_gen true false 0) = 1.
Proof. rewrite after_yumis, iterated_by_table by done. vm_compute. reflexivity. Qed.
