(* ===== verification/RxFsm.v ===== *)
(** RxFsm: recv_pipe/rx_fsm_pipe.sv, which takes the packets the pipeline of
    established connections does not: one at a time, with the reads and writes
    their decision needs. *)

From S2P Require Import Prelude Rtl TcpPkg TcpStateMachine.

(** ** Signals *)

Record fsm_pkt := FsmPkt {
  fsm_src_ip : Z;
  fsm_dst_ip : Z;
  fsm_tcp_hdr : tcp_pkt_hdr;
  fsm_payload_val : bool;
  fsm_payload_entry : payload_buf_struct;
  fsm_new_flow : bool;
  fsm_flowid : Z }.
Definition zero_fsm_pkt : fsm_pkt := FsmPkt 0 0 zero_hdr false zero_payload false 0.

Record fsm_in := FsmIn {
  fsm_hdr_val : bool;
  fsm_pkt_in : fsm_pkt;
  tcp_state_fsm_rd_resp_val : bool;
  tcp_state_fsm_rd_resp_data : tcp_flow_state_e;
  rx_state_fsm_rd_req_rdy : bool;
  rx_state_fsm_rd_resp_val : bool;
  rx_state_fsm_rd_resp_data : recv_state_entry;
  tx_state_fsm_rd_req_rdy : bool;
  tx_state_fsm_rd_resp_val : bool;
  tx_state_fsm_rd_resp_data : tx_state_struct;
  fsm_reinject_q_full : bool;
  fsm_send_pkt_enqueue_rdy : bool;
  next_flow_state_rdy : bool;
  new_flow_rdy : bool;
  app_new_flow_notif_rdy : bool;
  init_seq_num : Z }.

Inductive ctrl_states_e :=
| READY | TCP_STATE_RD_REQ | TCP_STATE_RD_RESP | REINJECT_PKT | RX_TX_STATE_RD_REQ
| RX_TX_STATE_RD_RESP | STATE_DEC | INIT_STATE | WR_FLOW_STATE | SEND_PKT | NOTIF_APP.

Record rx_fsm := RxFsm {
  ctrl_state_reg : ctrl_states_e;
  pkt_reg : fsm_pkt;
  tcp_state_reg : tcp_flow_state_e;
  rx_state_reg : recv_state_entry;
  tx_state_reg : tx_state_struct;
  next_flow_state_reg : tcp_flow_state_e;
  send_pkt_val_reg : option bool;
  send_tcp_hdr_reg : option tcp_pkt_hdr;
  app_new_flow_notif_reg : bool }.

(** Any flag but ACK and PSH. *)
Definition bad_flags (h : tcp_pkt_hdr) : bool := negb (Z.land (flags h) (Z.lnot (Z.lor FLAG_ACK FLAG_PSH)) =? 0).

Definition flow_lookup_init (p : fsm_pkt) : four_tuple_struct :=
  FourTuple (fsm_dst_ip p) (fsm_src_ip p) (dst_port (fsm_tcp_hdr p)) (src_port (fsm_tcp_hdr p)).

(** ** The registers after a cycle *)

Definition go (c : ctrl_states_e) (s : rx_fsm) : rx_fsm :=
  RxFsm c (pkt_reg s) (tcp_state_reg s) (rx_state_reg s) (tx_state_reg s) (next_flow_state_reg s)
    (send_pkt_val_reg s) (send_tcp_hdr_reg s) (app_new_flow_notif_reg s).
Definition load_pkt (p : fsm_pkt) (s : rx_fsm) : rx_fsm :=
  RxFsm (ctrl_state_reg s) p (tcp_state_reg s) (rx_state_reg s) (tx_state_reg s) (next_flow_state_reg s)
    (send_pkt_val_reg s) (send_tcp_hdr_reg s) (app_new_flow_notif_reg s).
Definition load_tcp_state (st : tcp_flow_state_e) (s : rx_fsm) : rx_fsm :=
  RxFsm (ctrl_state_reg s) (pkt_reg s) st (rx_state_reg s) (tx_state_reg s) (next_flow_state_reg s)
    (send_pkt_val_reg s) (send_tcp_hdr_reg s) (app_new_flow_notif_reg s).
Definition load_states (rx : recv_state_entry) (tx : tx_state_struct) (s : rx_fsm) : rx_fsm :=
  RxFsm (ctrl_state_reg s) (pkt_reg s) (tcp_state_reg s) rx tx (next_flow_state_reg s)
    (send_pkt_val_reg s) (send_tcp_hdr_reg s) (app_new_flow_notif_reg s).
Definition load_decision (d : sm_out) (s : rx_fsm) : rx_fsm :=
  RxFsm (ctrl_state_reg s) (pkt_reg s) (tcp_state_reg s) (rx_state_reg s) (tx_state_reg s)
    (sm_next_flow_state d) (sm_send_pkt_val d) (sm_send_tcp_hdr d) (sm_app_new_flow_notif d).

Definition state_machine (s : rx_fsm) (i : fsm_in) : sm_out :=
  tcp_state_machine (tcp_state_reg s) (fsm_tcp_hdr (pkt_reg s)) (rx_state_reg s) (tx_state_reg s) (init_seq_num i).

Definition fsm_next (i : fsm_in) (s : rx_fsm) : rx_fsm :=
  let p := pkt_reg s in
  match ctrl_state_reg s with
  | READY => if fsm_hdr_val i then go TCP_STATE_RD_REQ (load_pkt (fsm_pkt_in i) s) else s
  | TCP_STATE_RD_REQ =>
      if negb (fsm_new_flow p) then go TCP_STATE_RD_RESP s
      else go STATE_DEC (load_tcp_state TCP_NONE s)
  | TCP_STATE_RD_RESP =>
      if tcp_state_fsm_rd_resp_val i then
        let st := tcp_state_fsm_rd_resp_data i in
        load_tcp_state st
          (if bool_decide (st = TCP_EST) then
             if bad_flags (fsm_tcp_hdr p) then go RX_TX_STATE_RD_REQ s
             else if negb (fsm_reinject_q_full i) then go READY s else go REINJECT_PKT s
           else if tx_state_fsm_rd_req_rdy i && rx_state_fsm_rd_req_rdy i then go RX_TX_STATE_RD_RESP s
           else go RX_TX_STATE_RD_REQ s)
      else s
  | REINJECT_PKT => if negb (fsm_reinject_q_full i) then go READY s else s
  | RX_TX_STATE_RD_REQ =>
      if tx_state_fsm_rd_req_rdy i && rx_state_fsm_rd_req_rdy i then go RX_TX_STATE_RD_RESP s else s
  | RX_TX_STATE_RD_RESP =>
      if tx_state_fsm_rd_resp_val i && rx_state_fsm_rd_resp_val i
      then go STATE_DEC (load_states (rx_state_fsm_rd_resp_data i) (tx_state_fsm_rd_resp_data i) s)
      else s
  | STATE_DEC =>
      let d := state_machine s i in
      load_decision d
        (if fsm_new_flow p
         then if negb (bool_decide (sm_next_flow_state d = TCP_NONE)) then go INIT_STATE s
              else go WR_FLOW_STATE s
         else go WR_FLOW_STATE s)
  | INIT_STATE => if new_flow_rdy i then go WR_FLOW_STATE s else s
  | WR_FLOW_STATE =>
      if next_flow_state_rdy i then
        if bool_decide (send_pkt_val_reg s = Some true) then go SEND_PKT s
        else if app_new_flow_notif_reg s then go NOTIF_APP s else go READY s
      else s
  | SEND_PKT =>
      if fsm_send_pkt_enqueue_rdy i then
        if app_new_flow_notif_reg s then go NOTIF_APP s else go READY s
      else s
  | NOTIF_APP => if app_new_flow_notif_rdy i then go READY s else s
  end.

Definition fsm_reset : rx_fsm :=
  RxFsm READY zero_fsm_pkt TCP_NONE zero_rx zero_tx TCP_NONE (Some false) (Some zero_hdr) false.

(** ** Outputs *)

Definition in_state (c : ctrl_states_e) (s : rx_fsm) : bool :=
  match c, ctrl_state_reg s with
  | READY, READY | TCP_STATE_RD_REQ, TCP_STATE_RD_REQ | TCP_STATE_RD_RESP, TCP_STATE_RD_RESP
  | REINJECT_PKT, REINJECT_PKT | RX_TX_STATE_RD_REQ, RX_TX_STATE_RD_REQ
  | RX_TX_STATE_RD_RESP, RX_TX_STATE_RD_RESP | STATE_DEC, STATE_DEC | INIT_STATE, INIT_STATE
  | WR_FLOW_STATE, WR_FLOW_STATE | SEND_PKT, SEND_PKT | NOTIF_APP, NOTIF_APP => true
  | _, _ => false
  end.

Definition fsm_hdr_rdy (s : rx_fsm) : bool := in_state READY s.
Definition fsm_tcp_state_rd_req_val (s : rx_fsm) : bool :=
  in_state TCP_STATE_RD_REQ s && negb (fsm_new_flow (pkt_reg s)).
(** The same for the receive and the transmit state. *)
Definition fsm_state_rd_req_val (s : rx_fsm) (i : fsm_in) : bool :=
  in_state RX_TX_STATE_RD_REQ s ||
  in_state TCP_STATE_RD_RESP s && tcp_state_fsm_rd_resp_val i
    && negb (bool_decide (tcp_state_fsm_rd_resp_data i = TCP_EST)).
Definition fsm_state_rd_resp_rdy (s : rx_fsm) (i : fsm_in) : bool :=
  if in_state RX_TX_STATE_RD_RESP s then tx_state_fsm_rd_resp_val i && rx_state_fsm_rd_resp_val i else true.
Definition fsm_reinject_q_enq_req_val (s : rx_fsm) (i : fsm_in) : bool :=
  in_state TCP_STATE_RD_RESP s && tcp_state_fsm_rd_resp_val i
    && bool_decide (tcp_state_fsm_rd_resp_data i = TCP_EST) && negb (bad_flags (fsm_tcp_hdr (pkt_reg s)))
    && negb (fsm_reinject_q_full i) && fsm_payload_val (pkt_reg s)
  || in_state REINJECT_PKT s && negb (fsm_reinject_q_full i).
Definition next_state_req (s : rx_fsm) : bool := in_state STATE_DEC s.
Definition tcp_fsm_clear_flowid_val (s : rx_fsm) (i : fsm_in) : bool :=
  in_state STATE_DEC s && fsm_new_flow (pkt_reg s)
    && bool_decide (sm_next_flow_state (state_machine s i) = TCP_NONE).
Definition new_flow_val (s : rx_fsm) : bool := in_state INIT_STATE s.
Definition next_flow_state_wr_req_val (s : rx_fsm) : bool := in_state WR_FLOW_STATE s.
Definition fsm_send_pkt_enqueue_val (s : rx_fsm) : bool := in_state SEND_PKT s.
Definition app_new_flow_notif_val (s : rx_fsm) : bool := in_state NOTIF_APP s.

(** ** What leaves the module: one list of effects per cycle *)

Inductive effect :=
| Reinject (p : fsm_pkt)
| ClearFlowid (tag : four_tuple_struct)
| OpenFlow (f : Z) (entry : four_tuple_struct) (rx : recv_state_entry) (tx : tx_state_struct)
| SetState (f : Z) (st : tcp_flow_state_e)
| SendPkt (f src_ip dst_ip : Z) (h : tcp_pkt_hdr)
| NotifyApp (f : Z).

Definition hdr_of (h : option tcp_pkt_hdr) : tcp_pkt_hdr := default zero_hdr h.

Definition open_effect (s : rx_fsm) : effect :=
  let p := pkt_reg s in let h := hdr_of (send_tcp_hdr_reg s) in
  OpenFlow (fsm_flowid p) (flow_lookup_init p) (rx_state_init h) (tx_state_init h).
Definition state_effect (s : rx_fsm) : effect := SetState (fsm_flowid (pkt_reg s)) (next_flow_state_reg s).
Definition send_effect (s : rx_fsm) : effect :=
  let p := pkt_reg s in SendPkt (fsm_flowid p) (fsm_dst_ip p) (fsm_src_ip p) (hdr_of (send_tcp_hdr_reg s)).
Definition notify_effect (s : rx_fsm) : effect := NotifyApp (fsm_flowid (pkt_reg s)).

Definition when (b : bool) (e : effect) : list effect := if b then [e] else [].

Definition fsm_effects (s : rx_fsm) (i : fsm_in) : list effect :=
  when (fsm_reinject_q_enq_req_val s i) (Reinject (pkt_reg s)) ++
  when (tcp_fsm_clear_flowid_val s i) (ClearFlowid (flow_lookup_init (pkt_reg s))) ++
  when (new_flow_val s && new_flow_rdy i) (open_effect s) ++
  when (next_flow_state_wr_req_val s && next_flow_state_rdy i) (state_effect s) ++
  when (fsm_send_pkt_enqueue_val s && fsm_send_pkt_enqueue_rdy i) (send_effect s) ++
  when (app_new_flow_notif_val s && app_new_flow_notif_rdy i) (notify_effect s).

Definition rx_fsm_pipe : circuit rx_fsm fsm_in (bool * list effect) := Circuit
  (λ s i, (fsm_hdr_rdy s, fsm_effects s i))
  (λ rst i s, if rst then fsm_reset else fsm_next i s).

(** ** The specification: one packet at a time

    A packet of an established connection with normal flags goes back to the
    other pipeline; any other is decided on. *)

Inductive handled :=
| Established (p : fsm_pkt) (was_full : bool)
| Decided (p : fsm_pkt) (st : tcp_flow_state_e) (rx : recv_state_entry) (tx : tx_state_struct) (isn : Z).

Definition handled_pkt (e : handled) : fsm_pkt :=
  match e with Established p _ | Decided p _ _ _ _ => p end.

Definition decision_effects (p : fsm_pkt) (d : sm_out) : list effect :=
  let f := fsm_flowid p in let h := hdr_of (sm_send_tcp_hdr d) in
  (if fsm_new_flow p
   then if bool_decide (sm_next_flow_state d = TCP_NONE) then [ClearFlowid (flow_lookup_init p)]
        else [OpenFlow f (flow_lookup_init p) (rx_state_init h) (tx_state_init h)]
   else []) ++
  [SetState f (sm_next_flow_state d)] ++
  when (bool_decide (sm_send_pkt_val d = Some true)) (SendPkt f (fsm_dst_ip p) (fsm_src_ip p) h) ++
  when (sm_app_new_flow_notif d) (NotifyApp f).

Definition handled_effects (e : handled) : list effect :=
  match e with
  | Established p was_full => when (was_full || fsm_payload_val p) (Reinject p)
  | Decided p st rx tx isn =>
      decision_effects p (tcp_state_machine (if fsm_new_flow p then TCP_NONE else st) (fsm_tcp_hdr p) rx tx isn)
  end.

(** ** What happens in a run

    [g] is what was read for the packet: the state of its connection, its
    receive and its transmit state. *)

Record reads := Reads { g_st : tcp_flow_state_e; g_rx : recv_state_entry; g_tx : tx_state_struct }.

Definition reads_after (g : reads) (s : rx_fsm) (i : fsm_in) : reads :=
  {| g_st := if in_state TCP_STATE_RD_RESP s && tcp_state_fsm_rd_resp_val i
             then tcp_state_fsm_rd_resp_data i else g_st g;
     g_rx := if in_state RX_TX_STATE_RD_RESP s && fsm_state_rd_resp_rdy s i
             then rx_state_fsm_rd_resp_data i else g_rx g;
     g_tx := if in_state RX_TX_STATE_RD_RESP s && fsm_state_rd_resp_rdy s i
             then tx_state_fsm_rd_resp_data i else g_tx g |}.

Definition handled_now (g : reads) (s : rx_fsm) (i : fsm_in) : list handled :=
  (if in_state TCP_STATE_RD_RESP s && tcp_state_fsm_rd_resp_val i
      && bool_decide (tcp_state_fsm_rd_resp_data i = TCP_EST) && negb (bad_flags (fsm_tcp_hdr (pkt_reg s)))
   then [Established (pkt_reg s) (fsm_reinject_q_full i)] else []) ++
  (if next_state_req s then [Decided (pkt_reg s) (g_st g) (g_rx g) (g_tx g) (init_seq_num i)] else []).

Fixpoint history (g : reads) (ins : list fsm_in) (s : rx_fsm) : list handled :=
  match ins with
  | [] => []
  | i :: ins' => handled_now g s i ++ history (reads_after g s i) ins' (fsm_next i s)
  end.

Definition fsm_accepted (ins : list fsm_in) (outs : list (bool * list effect)) : list fsm_pkt :=
  omap (λ io, if fsm_hdr_val io.1 && io.2.1 then Some (fsm_pkt_in io.1) else None) (zip ins outs).

(** A packet taken and not yet handled. *)
Definition pending (s : rx_fsm) : list fsm_pkt :=
  match ctrl_state_reg s with
  | TCP_STATE_RD_REQ | TCP_STATE_RD_RESP | RX_TX_STATE_RD_REQ | RX_TX_STATE_RD_RESP | STATE_DEC => [pkt_reg s]
  | _ => []
  end.

(** What of the last packet handled is still to be done. *)
Definition todo (s : rx_fsm) : list effect :=
  let sends := when (bool_decide (send_pkt_val_reg s = Some true)) (send_effect s) in
  let notifies := when (app_new_flow_notif_reg s) (notify_effect s) in
  match ctrl_state_reg s with
  | REINJECT_PKT => [Reinject (pkt_reg s)]
  | INIT_STATE => [open_effect s; state_effect s] ++ sends ++ notifies
  | WR_FLOW_STATE => [state_effect s] ++ sends ++ notifies
  | SEND_PKT => [send_effect s] ++ notifies
  | NOTIF_APP => [notify_effect s]
  | _ => []
  end.

(** The registers hold what was read. *)
Definition fsm_inv (g : reads) (s : rx_fsm) : Prop :=
  match ctrl_state_reg s with
  | TCP_STATE_RD_RESP => fsm_new_flow (pkt_reg s) = false
  | RX_TX_STATE_RD_REQ | RX_TX_STATE_RD_RESP => fsm_new_flow (pkt_reg s) = false ∧ tcp_state_reg s = g_st g
  | STATE_DEC =>
      if fsm_new_flow (pkt_reg s) then tcp_state_reg s = TCP_NONE
      else tcp_state_reg s = g_st g ∧ rx_state_reg s = g_rx g ∧ tx_state_reg s = g_tx g
  | NOTIF_APP => app_new_flow_notif_reg s = true
  | SEND_PKT => send_pkt_val_reg s = Some true
  | _ => True
  end.

(** A connection that does not exist is decided on without its state. *)
Lemma decide_none h rx tx rx' tx' isn :
  tcp_state_machine TCP_NONE h rx tx isn = tcp_state_machine TCP_NONE h rx' tx' isn.
Proof. done. Qed.

Lemma fsm_cycle g s i :
  fsm_inv g s →
  fsm_inv (reads_after g s i) (fsm_next i s) ∧
  pending s ++ (if fsm_hdr_val i && fsm_hdr_rdy s then [fsm_pkt_in i] else []) =
    (handled_pkt <$> handled_now g s i) ++ pending (fsm_next i s) ∧
  todo s ++ (handled_now g s i ≫= handled_effects) = fsm_effects s i ++ todo (fsm_next i s).
Proof.
  intros Hi. destruct s as [c p st rx tx nst sv sh nf].
  unfold fsm_inv, handled_now, fsm_effects, fsm_reinject_q_enq_req_val, tcp_fsm_clear_flowid_val, new_flow_val,
    next_flow_state_wr_req_val, fsm_send_pkt_enqueue_val, app_new_flow_notif_val, next_state_req, fsm_hdr_rdy in *.
  destruct c; cbn in Hi |- *.
  - destruct (fsm_hdr_val i); cbn; auto.
  - rewrite andb_false_r. destruct (fsm_new_flow p) eqn:E; cbn; rewrite ?E; auto.
  - destruct (tcp_state_fsm_rd_resp_val i); cbn; [|rewrite andb_false_r; auto].
    rewrite andb_false_r. destruct (bool_decide (tcp_state_fsm_rd_resp_data i = TCP_EST)); cbn.
    + destruct (bad_flags (fsm_tcp_hdr p)); cbn; [auto|].
      destruct (fsm_reinject_q_full i); cbn; [auto|]. destruct (fsm_payload_val p); cbn; auto.
    + destruct (tx_state_fsm_rd_req_rdy i && rx_state_fsm_rd_req_rdy i); cbn; auto.
  - rewrite andb_false_r. destruct (fsm_reinject_q_full i); cbn; auto.
  - rewrite andb_false_r. destruct (tx_state_fsm_rd_req_rdy i && rx_state_fsm_rd_req_rdy i); cbn; auto.
  - rewrite andb_false_r. destruct Hi as [Hn Hst].
    destruct (tx_state_fsm_rd_resp_val i && rx_state_fsm_rd_resp_val i); cbn; rewrite ?Hn; auto.
  - rewrite andb_false_r.
    assert (Hd : tcp_state_machine st (fsm_tcp_hdr p) rx tx (init_seq_num i) =
      tcp_state_machine (if fsm_new_flow p then TCP_NONE else g_st g) (fsm_tcp_hdr p) (g_rx g) (g_tx g) (init_seq_num i))
      by (destruct (fsm_new_flow p); [by rewrite Hi|by destruct Hi as (-> & -> & ->)]).
    unfold state_machine. cbn. rewrite <- Hd. clear Hd. unfold decision_effects.
    set (d := tcp_state_machine st (fsm_tcp_hdr p) rx tx (init_seq_num i)). clearbody d.
    destruct (fsm_new_flow p); cbn; [|by rewrite !app_nil_r].
    destruct (bool_decide (sm_next_flow_state d = TCP_NONE)); cbn; by rewrite !app_nil_r.
  - rewrite andb_false_r. destruct (new_flow_rdy i); cbn; rewrite ?app_nil_r; auto.
  - rewrite andb_false_r. destruct (next_flow_state_rdy i); cbn; [|by rewrite ?app_nil_r].
    destruct (bool_decide (sv = Some true)) eqn:Es; cbn.
    + apply bool_decide_eq_true in Es. by rewrite app_nil_r.
    + destruct nf; cbn; auto.
  - rewrite andb_false_r. destruct (fsm_send_pkt_enqueue_rdy i); cbn; [|by rewrite ?app_nil_r].
    destruct nf; cbn; auto.
  - rewrite andb_false_r. destruct (app_new_flow_notif_rdy i); cbn; auto.
Qed.

Lemma fsm_run g s ins :
  fsm_inv g s →
  let outs := outputs rx_fsm_pipe ins s in
  let s1 := after_cycles rx_fsm_pipe ins s in
  pending s ++ fsm_accepted ins outs = (handled_pkt <$> history g ins s) ++ pending s1 ∧
  todo s ++ (history g ins s ≫= handled_effects) = concat outs.*2 ++ todo s1.
Proof.
  revert g s. induction ins as [|i ins IH]; intros g s Hi; cbn zeta.
  { cbn. by rewrite !app_nil_r. }
  destruct (fsm_cycle g s i Hi) as (Hi' & H1 & H2). destruct (IH _ _ Hi') as [H3 H4]. cbn zeta in *.
  cbn [history]. rewrite fmap_app, bind_app. split.
  - assert (fsm_accepted (i :: ins) (outputs rx_fsm_pipe (i :: ins) s) =
      (if fsm_hdr_val i && fsm_hdr_rdy s then [fsm_pkt_in i] else []) ++
      fsm_accepted ins (outputs rx_fsm_pipe ins (fsm_next i s))) as ->
      by (unfold fsm_accepted; cbn -[fsm_hdr_rdy]; by destruct (fsm_hdr_val i && fsm_hdr_rdy s)).
    rewrite app_assoc, H1, <- !app_assoc. by rewrite H3.
  - rewrite app_assoc, H2, <- !app_assoc. rewrite H4. cbn. by rewrite <- app_assoc.
Qed.

(** The handshake pipeline treats its packets one at a time.  From a reset
    on, and whatever it is made to wait for, the packets it took are handled in
    the order they came, none lost and none twice; one of a connection that is
    established, with no flag but ACK and PSH, is given back to the other
    pipeline, every other is decided on by the state machine with the states
    read for it, or with none for a new connection; and everything that leaves
    the module, the states written, the answer, the notice to the application,
    is what those decisions ask for, complete and in order. *)
Theorem rx_fsm_one_at_a_time g s i0 ins :
  let s0 := c_next rx_fsm_pipe true i0 s in
  let outs := outputs rx_fsm_pipe ins s0 in
  let s1 := after_cycles rx_fsm_pipe ins s0 in
  fsm_accepted ins outs = (handled_pkt <$> history g ins s0) ++ pending s1 ∧
  history g ins s0 ≫= handled_effects = concat outs.*2 ++ todo s1.
Proof. exact (fsm_run g fsm_reset ins I). Qed.

(** ** The handshake of a connection *)

(** The answer to a SYN, with the number [isn] of the generator. *)
Definition syn_ack (syn : fsm_pkt) (isn : Z) : tcp_pkt_hdr :=
  hdr_of (sm_send_tcp_hdr (tcp_state_machine TCP_NONE (fsm_tcp_hdr syn) zero_rx zero_tx isn)).

(** The packet that completes the handshake. *)
Definition completes (sa : tcp_pkt_hdr) (p : fsm_pkt) : bool :=
  let h := fsm_tcp_hdr p in
  (flags h =? FLAG_ACK) && (ack_num sa =? seq_num h) && (seq (seq_num sa + 1) =? ack_num h).

(** C19: a connection is opened in three steps.  A SYN of a new connection with
    number s is answered with a SYN-ACK between the same ports and addresses
    that acknowledges s + 1 and carries a number n; the connection starts
    waiting for s + 1, with everything up to n + 1 sent and acknowledged, a
    multiple of the size of the send buffer.  Then an ACK that carries s + 1 and
    acknowledges n + 1 establishes it and the application is told; any other
    packet leaves it as it is and is answered with a SYN-ACK, the first one but
    for its ports, which follow the packet, and its number, which is n + 1. *)
Theorem three_way_handshake syn st rx tx isn p isn' :
  fsm_new_flow syn = true → flags (fsm_tcp_hdr syn) = FLAG_SYN → 0 ≤ isn < 2 ^ 32 →
  fsm_new_flow p = false →
  let sa := syn_ack syn isn in let f := fsm_flowid syn in
  handled_effects (Decided syn st rx tx isn) =
    [OpenFlow f (flow_lookup_init syn) (rx_state_init sa) (tx_state_init sa); SetState f TCP_SYN_RECV;
     SendPkt f (fsm_dst_ip syn) (fsm_src_ip syn) sa] ∧
  (src_port sa, dst_port sa, flags sa, ack_num sa) =
    (dst_port (fsm_tcp_hdr syn), src_port (fsm_tcp_hdr syn), Z.lor FLAG_SYN FLAG_ACK,
     seq (seq_num (fsm_tcp_hdr syn) + 1)) ∧
  rx_curr_ack_num (rx_state_init sa) = seq (seq_num (fsm_tcp_hdr syn) + 1) ∧
  tx_curr_seq_num (tx_state_init sa) = seq (seq_num sa + 1) ∧
  tx_curr_ack_num (tx_curr_ack_state (tx_state_init sa)) = seq (seq_num sa + 1) ∧
  seq (seq_num sa + 1) mod 2 ^ TX_PAYLOAD_PTR_W = 0 ∧
  handled_effects (Decided p TCP_SYN_RECV (rx_state_init sa) (tx_state_init sa) isn') =
    if completes sa p
    then [SetState (fsm_flowid p) TCP_EST; NotifyApp (fsm_flowid p)]
    else [SetState (fsm_flowid p) TCP_SYN_RECV;
          SendPkt (fsm_flowid p) (fsm_dst_ip p) (fsm_src_ip p)
            (tcp_hdr_assembler true (dst_port (fsm_tcp_hdr p)) (src_port (fsm_tcp_hdr p)) (seq (seq_num sa + 1))
               (ack_num sa) (flags sa) (win_size sa))].
Proof.
  intros Hn Hf Hisn Hn' sa f.
  assert (Esa : sa = tcp_hdr_assembler true (dst_port (fsm_tcp_hdr syn)) (src_port (fsm_tcp_hdr syn))
    (first_seq_num isn) (seq (seq_num (fsm_tcp_hdr syn) + 1)) (Z.lor FLAG_SYN FLAG_ACK) base_window_size)
    by (unfold sa, syn_ack, tcp_state_machine; by rewrite Hf).
  split_and!.
  - unfold handled_effects. rewrite Hn. unfold decision_effects. rewrite Hn, Esa.
    unfold tcp_state_machine. by rewrite Hf.
  - by rewrite Esa.
  - by rewrite Esa.
  - done.
  - done.
  - rewrite Esa. cbn [tcp_hdr_assembler seq_num]. rewrite first_seq_num_spec by done.
    unfold seq, SEQ_NUM_W, TX_PAYLOAD_PTR_W. rewrite Z.mod_mod_divide by (by exists (2 ^ 20)).
    replace (isn - isn mod 4096 + 4095 + 1) with ((isn / 4096 + 1) * 2 ^ 12)
      by (pose proof (Z.div_mod isn 4096); change (2 ^ 12) with 4096; lia).
    by rewrite Z.mod_mul.
  - unfold handled_effects. rewrite Hn'. unfold decision_effects. rewrite Hn'. unfold completes, tcp_state_machine.
    change (rx_curr_ack_num (rx_state_init sa)) with (ack_num sa).
    change (tx_curr_seq_num (tx_state_init sa)) with (seq (seq_num sa + 1)).
    destruct ((flags (fsm_tcp_hdr p) =? FLAG_ACK) && _ && _); [done|]. by rewrite Esa.
Qed.

(** A peer that lost the SYN-ACK and answers the one sent again, acknowledging
    the number it carries as every TCP does, does not complete the handshake,
    and is answered with the same SYN-ACK. *)
Lemma lost_syn_ack sa p isn :
  fsm_new_flow p = false →
  let again := tcp_hdr_assembler true (dst_port (fsm_tcp_hdr p)) (src_port (fsm_tcp_hdr p)) (seq (seq_num sa + 1))
                 (ack_num sa) (Z.lor FLAG_SYN FLAG_ACK) base_window_size in
  ack_num (fsm_tcp_hdr p) = seq (seq_num again + 1) →
  handled_effects (Decided p TCP_SYN_RECV (rx_state_init sa) (tx_state_init sa) isn) =
    [SetState (fsm_flowid p) TCP_SYN_RECV; SendPkt (fsm_flowid p) (fsm_dst_ip p) (fsm_src_ip p) again].
Proof.
  intros Hn again Ha. unfold handled_effects. rewrite Hn. unfold decision_effects. rewrite Hn.
  unfold tcp_state_machine. change (tx_curr_seq_num (tx_state_init sa)) with (seq (seq_num sa + 1)).
  assert ((seq (seq_num sa + 1) =? ack_num (fsm_tcp_hdr p)) = false) as ->; [|by rewrite andb_false_r].
  apply Z.eqb_neq. rewrite Ha. cbn [again tcp_hdr_assembler seq_num]. rewrite seq_seq_add.
  unfold seq, SEQ_NUM_W. intros E. assert ((seq_num sa + 1 + 1 - (seq_num sa + 1)) mod 2 ^ 32 = 0) as E2
    by (rewrite Zminus_mod, E, Z.sub_diag; done).
  replace (seq_num sa + 1 + 1 - (seq_num sa + 1)) with 1 in E2 by lia. done.
Qed.

(** An established connection that gets a packet with another flag, a FIN or a
    SYN that arrives late, is forgotten without an answer. *)
Lemma established_forgotten p rx tx isn :
  fsm_new_flow p = false →
  handled_effects (Decided p TCP_EST rx tx isn) = [SetState (fsm_flowid p) TCP_NONE].
Proof. intros Hn. unfold handled_effects. rewrite Hn. unfold decision_effects. by rewrite Hn. Qed.

(** While the application is not ready to be told, the pipeline takes nothing. *)
Lemma notify_blocks s i :
  ctrl_state_reg s = NOTIF_APP → app_new_flow_notif_rdy i = false →
  fsm_next i s = s ∧ fsm_hdr_rdy s = false.
Proof. intros E Er. unfold fsm_next, fsm_hdr_rdy, in_state. by rewrite E, Er. Qed.

(** ** A concrete handshake *)

Definition sample_fsm_pkt (new_flow : bool) (sn an fl : Z) : fsm_pkt :=
  FsmPkt 10 20 (TcpPktHdr 4000 80 sn an 5 0 fl 100 0 0) false zero_payload new_flow 2.

Lemma three_way_handshake_witness :
  let syn := sample_fsm_pkt true 999 0 FLAG_SYN in let sa := syn_ack syn 0x12345678 in
  handled_effects (Decided (sample_fsm_pkt false 1000 0x12346000 FLAG_ACK) TCP_SYN_RECV
    (rx_state_init sa) (tx_state_init sa) 5) = [SetState 2 TCP_EST; NotifyApp 2].
Proof.
  intros syn sa.
  destruct (three_way_handshake syn TCP_EST zero_rx zero_tx 0x12345678 (sample_fsm_pkt false 1000 0x12346000 FLAG_ACK) 5)
    as (_ & _ & _ & _ & _ & _ & H); [reflexivity|reflexivity|lia|reflexivity|].
  etransitivity; [exact H|]. vm_compute. reflexivity.
Defined.

(** A whole run: the SYN, the pipeline waiting in every state, the ACK. *)
Definition fsm_cycle_in (p : fsm_pkt) (rdy : bool) (st : tcp_flow_state_e) (rx : recv_state_entry)
    (tx : tx_state_struct) : fsm_in :=
  FsmIn true p rdy st rdy rdy rx rdy rdy tx false rdy rdy rdy rdy 0x12345678.

Example handshake_run :
  let syn := sample_fsm_pkt true 999 0 FLAG_SYN in let ack := sample_fsm_pkt false 1000 0x12346000 FLAG_ACK in
  let sa := syn_ack syn 0x12345678 in
  let cyc p b := fsm_cycle_in p b TCP_SYN_RECV (rx_state_init sa) (tx_state_init sa) in
  concat (outputs rx_fsm_pipe
    ([cyc syn true] ++ concat (replicate 9 [cyc ack false; cyc ack true]))
    fsm_reset).*2 =
  [OpenFlow 2 (FourTuple 20 10 80 4000) (rx_state_init sa) (tx_state_init sa); SetState 2 TCP_SYN_RECV;
   SendPkt 2 20 10 sa; SetState 2 TCP_EST; NotifyApp 2].
Proof. vm_compute. reflexivity. Qed.
