(* ===== verification/FsmHistory.v ===== *)
(** FsmHistory: what follows for a connection from the packets the handshake
    pipeline decides on one after the other, if each decision is made on the
    state the ones before it left. *)

From S2P Require Import Prelude Rtl TcpPkg TcpStateMachine RxFsm.

(** ** Packets, new and not new

    A packet, as its number and whether it is new.  The new ones are the first
    of their number. *)

Inductive flagged : list (Z * bool) → Prop :=
| flagged_nil : flagged []
| flagged_snoc l f : flagged l → flagged (l ++ [(f, bool_decide (f ∉ l.*1))]).

Lemma flagged_inv l x : flagged (l ++ [x]) → flagged l ∧ x.2 = bool_decide (x.1 ∉ l.*1).
Proof.
  intros H. remember (l ++ [x]) as k eqn:E. destruct H as [|l' f H]; [by destruct l|].
  apply app_inj_tail in E as [-> <-]. by split.
Qed.

Lemma flagged_prefix l l' : flagged (l ++ l') → flagged l.
Proof.
  induction l' as [|x l' IH] using rev_ind; [by rewrite app_nil_r|]. rewrite app_assoc.
  intros [H _]%flagged_inv. by apply IH.
Qed.

Lemma flagged_first l f b l' : flagged (l ++ (f, b) :: l') → b = bool_decide (f ∉ l.*1).
Proof. rewrite cons_middle, app_assoc. intros H%flagged_prefix. by apply flagged_inv in H as [_ H]. Qed.

(** A part of the packets that has all the new ones is flagged as the whole. *)
Lemma flagged_part {B} (key : B → Z * bool) (P : B → Prop) `{!∀ b, Decision (P b)} l :
  flagged (key <$> l) → Forall (λ b, ¬ P b → (key b).2 = false) l →
  flagged (key <$> filter P l) ∧ ∀ f, f ∈ (key <$> filter P l).*1 ↔ f ∈ (key <$> l).*1.
Proof.
  induction l as [|b l IH] using rev_ind; intros Hf HP; [by split; [constructor|]|].
  rewrite fmap_app in Hf. apply flagged_inv in Hf as [Hl Hb]. apply Forall_app in HP as [HP Hnew].
  apply Forall_cons in Hnew as [Hnew _]. destruct (IH Hl HP) as [H1 H2]. rewrite filter_app, !fmap_app.
  destruct (decide (P b)) as [Hp|Hp].
  - rewrite filter_cons_True, filter_nil by done. cbn [fmap list_fmap]. split.
    + destruct (key b) as [f n]. cbn in Hb. subst n.
      rewrite (bool_decide_ext (f ∉ (key <$> l).*1) (f ∉ (key <$> filter P l).*1)) by (by split; intros Hn Hin; apply Hn, H2). by constructor.
    + intros f. rewrite !elem_of_app, H2. done.
  - rewrite filter_cons_False, filter_nil by done. cbn [fmap list_fmap]. rewrite !app_nil_r. split; [done|].
    intros f. rewrite H2, elem_of_app. split; [by left|]. intros [Hf'|Hf']; [done|]. cbn in Hf'. apply list_elem_of_singleton in Hf' as ->.
    rewrite (Hnew Hp) in Hb. symmetry in Hb. apply bool_decide_eq_false in Hb. by apply dec_stable.
Qed.

(** ** The states written *)

Definition state_writes (es : list effect) : list (Z * tcp_flow_state_e) :=
  omap (λ e, match e with SetState f st => Some (f, st) | _ => None end) es.
Definition last_state (us : list (Z * tcp_flow_state_e)) (f : Z) : tcp_flow_state_e :=
  fold_left (λ m u, if u.1 =? f then u.2 else m) us TCP_NONE.
Definition opened_by (es : list effect) : list Z :=
  omap (λ e, match e with OpenFlow f _ _ _ => Some f | _ => None end) es.

Lemma state_writes_app es es' : state_writes (es ++ es') = state_writes es ++ state_writes es'.
Proof. apply omap_app. Qed.
Lemma opened_by_app es es' : opened_by (es ++ es') = opened_by es ++ opened_by es'.
Proof. apply omap_app. Qed.
Lemma last_state_app us us' f :
  last_state (us ++ us') f = fold_left (λ m u, if u.1 =? f then u.2 else m) us' (last_state us f).
Proof. apply fold_left_app. Qed.

Lemma last_state_none us f : f ∉ us.*1 → last_state us f = TCP_NONE.
Proof.
  induction us as [|[g st] us IH] using rev_ind; [done|]. rewrite fmap_app, not_elem_of_app, last_state_app.
  intros [H Hg]. cbn. rewrite IH by done. destruct (Z.eqb_spec g f) as [->|]; [|done]. set_solver.
Qed.

Lemma last_state_in us f st : st ≠ TCP_NONE → last_state us f = st → (f, st) ∈ us.
Proof.
  intros Hst. induction us as [|[g st'] us IH] using rev_ind; [by intros <-|]. rewrite last_state_app. cbn.
  destruct (Z.eqb_spec g f) as [->|]; [intros ->|intros H%IH]; set_solver.
Qed.

Abbreviation flow_of e := (fsm_flowid (handled_pkt e)).
Abbreviation done_by hs := (mbind handled_effects hs).

(** The state of a connection after the packets handled. *)
Definition conn_state (hs : list handled) (f : Z) : tcp_flow_state_e := last_state (state_writes (done_by hs)) f.

Definition decision (p : fsm_pkt) (st : tcp_flow_state_e) (rx : recv_state_entry) (tx : tx_state_struct) (isn : Z) : sm_out :=
  tcp_state_machine (if fsm_new_flow p then TCP_NONE else st) (fsm_tcp_hdr p) rx tx isn.

(** ** Decisions that follow each other *)

Definition follows (hs : list handled) (e : handled) : Prop :=
  fsm_new_flow (handled_pkt e) = bool_decide (flow_of e ∉ (λ e, flow_of e) <$> hs) ∧
  match e with
  | Established p _ => conn_state hs (fsm_flowid p) = TCP_EST ∧ bad_flags (fsm_tcp_hdr p) = false
  | Decided p st _ _ isn => (fsm_new_flow p = false → st = conn_state hs (fsm_flowid p)) ∧ 0 < isn < 2 ^ 32
  end.

Inductive consistent : list handled → Prop :=
| consistent_nil : consistent []
| consistent_snoc hs e : consistent hs → follows hs e → consistent (hs ++ [e]).

Lemma consistent_inv hs e : consistent (hs ++ [e]) → consistent hs ∧ follows hs e.
Proof.
  intros H. remember (hs ++ [e]) as k eqn:E. destruct H as [|hs' e' H He]; [by destruct hs|].
  by apply app_inj_tail in E as [-> ->].
Qed.

Lemma consistent_prefix hs hs' : consistent (hs ++ hs') → consistent hs.
Proof.
  induction hs' as [|x hs' IH] using rev_ind; [by rewrite app_nil_r|]. rewrite app_assoc.
  intros [H _]%consistent_inv. by apply IH.
Qed.

Lemma consistent_follows hs e hs' : consistent (hs ++ e :: hs') → follows hs e.
Proof. rewrite cons_middle, app_assoc. intros H%consistent_prefix. by apply consistent_inv in H as [_ H]. Qed.

Lemma done_by_app hs hs' : done_by (hs ++ hs') = done_by hs ++ done_by hs'.
Proof. apply bind_app. Qed.
Lemma done_by_snoc hs e : done_by (hs ++ [e]) = done_by hs ++ handled_effects e.
Proof. rewrite done_by_app. cbn. by rewrite app_nil_r. Qed.

(** What one of them does. *)
Lemma handled_writes e :
  state_writes (handled_effects e) =
  match e with
  | Established _ _ => []
  | Decided p st rx tx isn => [(fsm_flowid p, sm_next_flow_state (decision p st rx tx isn))]
  end.
Proof.
  destruct e as [p b|p st rx tx isn]; cbn [handled_effects]; [by destruct (b || _)|]. fold (decision p st rx tx isn).
  unfold decision_effects, when. destruct (decision p st rx tx isn) as [nst sv sh nf sr].
  by destruct (fsm_new_flow p), nst, sv as [[]|], nf.
Qed.

Lemma handled_opens e :
  opened_by (handled_effects e) =
  match e with
  | Established _ _ => []
  | Decided p st rx tx isn =>
      if fsm_new_flow p && negb (bool_decide (sm_next_flow_state (decision p st rx tx isn) = TCP_NONE))
      then [fsm_flowid p] else []
  end.
Proof.
  destruct e as [p b|p st rx tx isn]; cbn [handled_effects]; [by destruct (b || _)|]. fold (decision p st rx tx isn).
  unfold decision_effects, when. destruct (decision p st rx tx isn) as [nst sv sh nf sr].
  by destruct (fsm_new_flow p), nst, sv as [[]|], nf.
Qed.

(** The connections written or opened are those of packets handled. *)
Lemma writes_flows hs f : f ∈ (state_writes (done_by hs)).*1 → f ∈ (λ e, flow_of e) <$> hs.
Proof.
  induction hs as [|e hs IH] using rev_ind; [done|]. rewrite done_by_snoc, state_writes_app, handled_writes, !fmap_app, !elem_of_app.
  intros [H|H]; [left; by apply IH|right]. by destruct e; [apply not_elem_of_nil in H|].
Qed.

Lemma opens_flows hs f : f ∈ opened_by (done_by hs) → f ∈ (λ e, flow_of e) <$> hs.
Proof.
  induction hs as [|e hs IH] using rev_ind; [done|]. rewrite done_by_snoc, opened_by_app, handled_opens, fmap_app, !elem_of_app.
  intros [H|H]; [left; by apply IH|right]. destruct e; [by apply not_elem_of_nil in H|].
  by destruct (_ && _); [|apply not_elem_of_nil in H].
Qed.

Lemma conn_state_snoc hs e f :
  conn_state (hs ++ [e]) f =
  match e with
  | Established _ _ => conn_state hs f
  | Decided p st rx tx isn =>
      if fsm_flowid p =? f then sm_next_flow_state (decision p st rx tx isn) else conn_state hs f
  end.
Proof.
  unfold conn_state. rewrite done_by_snoc, state_writes_app, handled_writes, last_state_app. by destruct e.
Qed.

Lemma conn_state_unknown hs f : f ∉ (λ e, flow_of e) <$> hs → conn_state hs f = TCP_NONE.
Proof. intros H. apply last_state_none. by intros ?%writes_flows. Qed.

(** The state a decision is made on is that of the connection. *)
Lemma decided_on hs p st rx tx isn :
  follows hs (Decided p st rx tx isn) →
  (if fsm_new_flow p then TCP_NONE else st) = conn_state hs (fsm_flowid p).
Proof.
  intros (Hn & Hst & _). cbn in Hn. destruct (fsm_new_flow p); [|by apply Hst].
  symmetry in Hn. apply bool_decide_eq_true in Hn. by rewrite conn_state_unknown.
Qed.

(** ** The states there are *)

Definition known_state (st : tcp_flow_state_e) : Prop := st = TCP_NONE ∨ st = TCP_SYN_RECV ∨ st = TCP_EST.

Lemma decision_known st h rx tx isn :
  known_state st → let d := tcp_state_machine st h rx tx isn in
  known_state (sm_next_flow_state d) ∧ is_Some (sm_send_pkt_val d) ∧ is_Some (sm_send_tcp_hdr d).
Proof.
  unfold known_state. intros [->|[->| ->]]; cbn.
  - destruct (flags h =? FLAG_SYN); cbn; eauto.
  - destruct (_ && _); cbn; eauto 6.
  - eauto.
Qed.

Lemma conn_state_known hs f : consistent hs → known_state (conn_state hs f).
Proof.
  intros H. revert f. induction H as [|hs e H IH He]; intros f; [by left|]. rewrite conn_state_snoc.
  destruct e as [p b|p st rx tx isn]; [done|]. destruct (_ =? f); [|done]. unfold decision.
  rewrite (decided_on _ _ _ _ _ _ He). by apply decision_known.
Qed.

(** ** How a connection comes into a state *)

Lemma decision_cases st h rx tx isn :
  match sm_next_flow_state (tcp_state_machine st h rx tx isn) with
  | TCP_SYN_RECV => (st = TCP_NONE ∧ flags h = FLAG_SYN) ∨ st = TCP_SYN_RECV
  | TCP_EST => st = TCP_SYN_RECV ∧ flags h = FLAG_ACK ∧ rx_curr_ack_num rx = seq_num h ∧ tx_curr_seq_num tx = ack_num h
  | _ => True
  end.
Proof.
  destruct st; cbn; [destruct (Z.eqb_spec (flags h) FLAG_SYN); cbn; auto| |done|done|done].
  destruct (Z.eqb_spec (flags h) FLAG_ACK), (Z.eqb_spec (rx_curr_ack_num rx) (seq_num h)),
    (Z.eqb_spec (tx_curr_seq_num tx) (ack_num h)); cbn; auto.
Qed.

(** A connection that waits for its ACK got a SYN, and since then only packets
    that leave it waiting. *)
Lemma waiting_since hs f :
  consistent hs → conn_state hs f = TCP_SYN_RECV →
  ∃ hs1 syn st rx tx isn hs2,
    hs = hs1 ++ Decided syn st rx tx isn :: hs2 ∧ fsm_flowid syn = f ∧ flags (fsm_tcp_hdr syn) = FLAG_SYN ∧
    conn_state hs1 f = TCP_NONE ∧
    ∀ hs3 e hs4, hs2 = hs3 ++ e :: hs4 → conn_state (hs1 ++ Decided syn st rx tx isn :: hs3) f = TCP_SYN_RECV.
Proof.
  intros H. induction H as [|hs e H IH He]; [done|]. intros Hs.
  assert (Hstay : conn_state hs f = TCP_SYN_RECV → ∃ hs1 syn st rx tx isn hs2,
    hs ++ [e] = hs1 ++ Decided syn st rx tx isn :: hs2 ∧ fsm_flowid syn = f ∧ flags (fsm_tcp_hdr syn) = FLAG_SYN ∧
    conn_state hs1 f = TCP_NONE ∧
    ∀ hs3 e hs4, hs2 = hs3 ++ e :: hs4 → conn_state (hs1 ++ Decided syn st rx tx isn :: hs3) f = TCP_SYN_RECV).
  { intros Hw. destruct (IH Hw) as (hs1 & syn & st & rx & tx & isn & hs2 & -> & Hf & Hfl & Hn & Hall).
    exists hs1, syn, st, rx, tx, isn, (hs2 ++ [e]). split_and!; [by rewrite <- app_assoc|done..|].
    intros hs3 e' hs4 E. destruct hs4 as [|e2 hs4 _] using rev_ind.
    - apply app_inj_tail in E as [-> _]. done.
    - rewrite app_comm_cons, app_assoc in E. apply app_inj_tail in E as [-> _]. by apply (Hall hs3 e' hs4). }
  rewrite conn_state_snoc in Hs. destruct e as [p b|p st rx tx isn]; [by apply Hstay|].
  destruct (Z.eqb_spec (fsm_flowid p) f) as [Ef|]; [|by apply Hstay].
  pose proof (decided_on _ _ _ _ _ _ He) as Hd. unfold decision in Hs. rewrite Ef in Hd. rewrite Hd in Hs.
  pose proof (decision_cases (conn_state hs f) (fsm_tcp_hdr p) rx tx isn) as Hc. rewrite Hs in Hc.
  destruct Hc as [[Hn Hfl]|Hw]; [|by apply Hstay].
  exists hs, p, st, rx, tx, isn, []. split_and!; try done. by intros [|??] ??.
Qed.

(** A SYN of a connection that did not exist, and later an ACK with the numbers
    the connection waits for. *)
Definition shook_hands (hs : list handled) (f : Z) : Prop :=
  ∃ hs1 syn st rx tx isn hs2 ack rx' tx' isn' hs3,
    hs = hs1 ++ Decided syn st rx tx isn :: hs2 ++ Decided ack TCP_SYN_RECV rx' tx' isn' :: hs3 ∧
    (fsm_flowid syn = f ∧ flags (fsm_tcp_hdr syn) = FLAG_SYN ∧ conn_state hs1 f = TCP_NONE) ∧
    (fsm_flowid ack = f ∧ flags (fsm_tcp_hdr ack) = FLAG_ACK ∧
     rx_curr_ack_num rx' = seq_num (fsm_tcp_hdr ack) ∧ tx_curr_seq_num tx' = ack_num (fsm_tcp_hdr ack)) ∧
    ∀ hs3 e hs4, hs2 = hs3 ++ e :: hs4 → conn_state (hs1 ++ Decided syn st rx tx isn :: hs3) f = TCP_SYN_RECV.

Lemma shook_hands_app hs hs' f : shook_hands hs f → shook_hands (hs ++ hs') f.
Proof.
  intros (hs1 & syn & st & rx & tx & isn & hs2 & ack & rx' & tx' & isn' & hs3 & -> & H).
  exists hs1, syn, st, rx, tx, isn, hs2, ack, rx', tx', isn', (hs3 ++ hs'). split; [|exact H].
  rewrite <- app_assoc. cbn [app]. by rewrite <- app_assoc.
Qed.

(** A connection is never established without. *)
Lemma established_by hs f :
  consistent hs → (f, TCP_EST) ∈ state_writes (done_by hs) → shook_hands hs f.
Proof.
  intros H. induction H as [|hs e H IH He]; [by intros ?%not_elem_of_nil|].
  rewrite done_by_snoc, state_writes_app, handled_writes. intros [Hin|Hin]%elem_of_app; [by apply shook_hands_app, IH|].
  destruct e as [p b|p st rx tx isn]; [by apply not_elem_of_nil in Hin|].
  apply list_elem_of_singleton in Hin as [= Ef Hs]. pose proof (decided_on _ _ _ _ _ _ He) as Hd.
  unfold decision in Hs. rewrite Hd in Hs.
  pose proof (decision_cases (conn_state hs (fsm_flowid p)) (fsm_tcp_hdr p) rx tx isn) as Hc. rewrite <- Hs in Hc.
  destruct Hc as (Hw & Hfl & Hr & Ht).
  assert (Est : st = TCP_SYN_RECV) by (rewrite Hw in Hd; by destruct (fsm_new_flow p)). subst st. rewrite <- Ef in Hw.
  destruct (waiting_since hs f H Hw) as (hs1 & syn & st & rx0 & tx0 & isn0 & hs2 & -> & Hf & Hsyn & Hn & Hall).
  exists hs1, syn, st, rx0, tx0, isn0, hs2, p, rx, tx, isn, []. split_and!; try done. by rewrite <- app_assoc.
Qed.

(** ** Openings *)

(** Of what one packet makes, the opening comes first. *)
Lemma handled_shape e :
  opened_by (handled_effects e) = [] ∨
  ∃ entry rx tx es, handled_effects e = OpenFlow (flow_of e) entry rx tx :: es ∧ opened_by es = [] ∧
    fsm_new_flow (handled_pkt e) = true.
Proof.
  destruct e as [p b|p st rx tx isn]; cbn [handled_effects handled_pkt]; [left; by destruct (b || _)|].
  fold (decision p st rx tx isn). unfold decision_effects, when.
  destruct (decision p st rx tx isn) as [nst sv sh nf sr]. cbn [sm_next_flow_state sm_send_pkt_val sm_send_tcp_hdr sm_app_new_flow_notif].
  destruct (fsm_new_flow p); [|left; by destruct sv as [[]|], nf].
  destruct nst; [left; by destruct sv as [[]|], nf|right; eexists _, _, _, _; split; [reflexivity|];
    split; [|done]; by destruct sv as [[]|], nf ..].
Qed.

Lemma elem_of_middle {B} (l k : list B) b : b ∈ l ++ b :: k.
Proof. apply elem_of_app. right. by left. Qed.

Lemma opened_by_in es f entry rx tx : OpenFlow f entry rx tx ∈ es → f ∈ opened_by es.
Proof. intros H. unfold opened_by. apply list_elem_of_omap. eexists. by split. Qed.

(** When a connection is opened, nothing has been decided on it before. *)
Lemma opens_first hs E1 f entry rx tx E2 :
  consistent hs → done_by hs = E1 ++ OpenFlow f entry rx tx :: E2 →
  (f ∉ (state_writes E1).*1) ∧ f ∉ opened_by E1.
Proof.
  intros H. revert E2. induction H as [|hs e H IH He]; intros E2; [by intros ?%app_cons_not_nil|].
  rewrite done_by_snoc. intros [(k & E & Ek)|(k & -> & E)]%app_eq_inv.
  - destruct k as [|o k].
    + rewrite app_nil_r in E. subst E1. cbn in Ek.
      destruct (handled_shape e) as [Hno|(entry' & rx' & tx' & es & Es & _ & Hnew)].
      { rewrite <- Ek in Hno. done. }
      rewrite Es in Ek. injection Ek as Ef _ _ _ _. destruct He as [Hn _]. rewrite Hnew in Hn. symmetry in Hn.
      apply bool_decide_eq_true in Hn. rewrite Ef. split; [by intros ?%writes_flows|by intros ?%opens_flows].
    + cbn in Ek. injection Ek as <- _. by apply (IH k).
  - assert (Hf : f ∈ opened_by (handled_effects e)) by (rewrite E; apply opened_by_in with entry rx tx, elem_of_middle).
    destruct (handled_shape e) as [Hno|(entry' & rx' & tx' & es & Es & Hes & Hnew)]; [rewrite Hno in Hf; by apply not_elem_of_nil in Hf|].
    rewrite Es in E. destruct k as [|o k].
    + cbn in E. injection E as Ef _ _ _ _. destruct He as [Hn _]. rewrite Hnew in Hn. symmetry in Hn.
      apply bool_decide_eq_true in Hn. rewrite app_nil_r, <- Ef. split; [by intros ?%writes_flows|by intros ?%opens_flows].
    + cbn in E. injection E as _ E. assert (Hin : f ∈ opened_by es) by (rewrite E; apply opened_by_in with entry rx tx, elem_of_middle).
      rewrite Hes in Hin. by apply not_elem_of_nil in Hin.
Qed.

(** Every connection is opened once. *)
Lemma opened_once hs : consistent hs → NoDup (opened_by (done_by hs)).
Proof.
  intros H. induction H as [|hs e H IH He]; [constructor|]. rewrite done_by_snoc, opened_by_app.
  destruct (handled_shape e) as [->|(entry & rx & tx & es & Es & Hes & Hnew)]; [by rewrite app_nil_r|].
  rewrite Es. cbn [opened_by omap list_omap]. fold (opened_by es). rewrite Hes. apply NoDup_app. split; [done|].
  split; [|apply NoDup_singleton]. intros f Hf Hin. apply list_elem_of_singleton in Hin as ->.
  destruct He as [Hn _]. rewrite Hnew in Hn. symmetry in Hn. apply bool_decide_eq_true in Hn. by apply Hn, opens_flows.
Qed.

(** ** A first packet that is not a SYN

    Its number stays taken, and the connection is never opened. *)

Lemma stray_not_opened hs1 p st rx tx isn hs2 :
  consistent (hs1 ++ Decided p st rx tx isn :: hs2) →
  fsm_new_flow p = true → flags (fsm_tcp_hdr p) ≠ FLAG_SYN →
  fsm_flowid p ∉ opened_by (done_by (hs1 ++ Decided p st rx tx isn :: hs2)).
Proof.
  intros H Hnew Hfl. set (e := Decided p st rx tx isn) in *.
  assert (Hno : fsm_flowid p ∉ opened_by (done_by (hs1 ++ [e]))).
  { pose proof (proj1 (consistent_follows _ _ _ H)) as Hn. cbn in Hn. rewrite Hnew in Hn. symmetry in Hn.
    apply bool_decide_eq_true in Hn. rewrite done_by_snoc, opened_by_app, handled_opens. unfold e, decision. rewrite Hnew.
    unfold tcp_state_machine. rewrite (proj2 (Z.eqb_neq _ _) Hfl). cbn. rewrite bool_decide_eq_true_2 by done. cbn [negb].
    rewrite app_nil_r. intros Hin%opens_flows. by apply Hn. }
  rewrite cons_middle, app_assoc in H |- *. induction hs2 as [|e2 hs2 IH] using rev_ind; [by rewrite app_nil_r|].
  rewrite app_assoc in H |- *. apply consistent_inv in H as [H He]. rewrite done_by_snoc, opened_by_app, not_elem_of_app.
  split; [by apply IH|]. destruct (handled_shape e2) as [->|(entry & rx' & tx' & es & Es & Hes & Hnew2)]; [by apply not_elem_of_nil|].
  rewrite Es. cbn [opened_by omap list_omap]. fold (opened_by es). rewrite Hes. intros Hin. apply list_elem_of_singleton in Hin.
  destruct He as [Hn _]. rewrite Hnew2 in Hn. symmetry in Hn. apply bool_decide_eq_true in Hn. apply Hn. rewrite <- Hin.
  rewrite !fmap_app. set_solver.
Qed.

(** A SYN that comes later is answered all the same. *)
Lemma later_syn_answered hs p st rx tx isn :
  follows hs (Decided p st rx tx isn) → fsm_new_flow p = false → conn_state hs (fsm_flowid p) = TCP_NONE →
  flags (fsm_tcp_hdr p) = FLAG_SYN →
  handled_effects (Decided p st rx tx isn) =
    [SetState (fsm_flowid p) TCP_SYN_RECV; SendPkt (fsm_flowid p) (fsm_dst_ip p) (fsm_src_ip p) (syn_ack p isn)].
Proof.
  intros Hf Hnew Hs Hfl. pose proof (decided_on _ _ _ _ _ _ Hf) as Hd. rewrite Hnew, Hs in Hd. subst st.
  cbn [handled_effects]. rewrite Hnew. unfold decision_effects, syn_ack. rewrite Hnew. unfold tcp_state_machine. by rewrite Hfl.
Qed.

(** ** The numbers of the handshake *)

(** A connection that has been opened and never established. *)
Definition unspoiled (es : list effect) (f : Z) (entry : four_tuple_struct) (rx : recv_state_entry) (tx : tx_state_struct) : Prop :=
  OpenFlow f entry rx tx ∈ es ∧ (f, TCP_EST) ∉ state_writes es.

(** Until then it is waiting. *)
Lemma opened_waits hs f :
  consistent hs → f ∈ opened_by (done_by hs) → (f, TCP_EST) ∉ state_writes (done_by hs) → conn_state hs f = TCP_SYN_RECV.
Proof.
  intros H. induction H as [|hs e H IH He]; [by intros ?%not_elem_of_nil|].
  rewrite done_by_snoc, opened_by_app, state_writes_app, handled_writes, handled_opens, elem_of_app, not_elem_of_app, conn_state_snoc.
  destruct e as [p b|p st rx tx isn].
  { intros [Ho|[]%not_elem_of_nil] [Hw _]. by apply IH. }
  pose proof (decided_on _ _ _ _ _ _ He) as Hd. unfold decision. rewrite Hd.
  pose proof (decision_cases (conn_state hs (fsm_flowid p)) (fsm_tcp_hdr p) rx tx isn) as Hc.
  destruct (decision_known (conn_state hs (fsm_flowid p)) (fsm_tcp_hdr p) rx tx isn (conn_state_known _ _ H)) as [Hk _].
  set (n := sm_next_flow_state _) in *. intros Ho [Hw Hn]. destruct (Z.eqb_spec (fsm_flowid p) f) as [<-|Hne].
  - destruct (decide (fsm_flowid p ∈ opened_by (done_by hs))) as [Hin|Hout].
    + pose proof (IH Hin Hw) as Hs. unfold n in *. rewrite Hs in *. cbn in *.
      destruct (_ && _); [|done]. exfalso. by apply Hn, list_elem_of_singleton.
    + destruct Ho as [Ho|Ho]; [done|]. destruct (fsm_new_flow p && _) eqn:E; [|by apply not_elem_of_nil in Ho].
      apply andb_true_iff in E as [_ E]. apply negb_true_iff, bool_decide_eq_false in E.
      destruct Hk as [Hk|[Hk|Hk]]; [done|done|]. exfalso. apply Hn. rewrite Hk. by apply list_elem_of_singleton.
  - destruct Ho as [Ho|Ho]; [by apply IH|]. destruct (_ && _); [|by apply not_elem_of_nil in Ho].
    by apply list_elem_of_singleton in Ho.
Qed.

(** The ACK that establishes it first. *)
Lemma established_first hs f :
  consistent hs → (f, TCP_EST) ∈ state_writes (done_by hs) →
  ∃ hs1 ack rx tx isn hs2,
    hs = hs1 ++ Decided ack TCP_SYN_RECV rx tx isn :: hs2 ∧ fsm_flowid ack = f ∧ fsm_new_flow ack = false ∧
    flags (fsm_tcp_hdr ack) = FLAG_ACK ∧ rx_curr_ack_num rx = seq_num (fsm_tcp_hdr ack) ∧
    tx_curr_seq_num tx = ack_num (fsm_tcp_hdr ack) ∧
    conn_state hs1 f = TCP_SYN_RECV ∧ (f, TCP_EST) ∉ state_writes (done_by hs1).
Proof.
  intros H. induction H as [|hs e H IH He]; [by intros ?%not_elem_of_nil|].
  rewrite done_by_snoc, state_writes_app, handled_writes. intros Hin.
  destruct (decide ((f, TCP_EST) ∈ state_writes (done_by hs))) as [Hold|Hno].
  { destruct (IH Hold) as (hs1 & ack & rx & tx & isn & hs2 & -> & Hr). exists hs1, ack, rx, tx, isn, (hs2 ++ [e]).
    split; [by rewrite <- app_assoc|exact Hr]. }
  apply elem_of_app in Hin as [Hin|Hin]; [done|]. destruct e as [p b|p st rx tx isn]; [by apply not_elem_of_nil in Hin|].
  apply list_elem_of_singleton in Hin as [= -> Hs]. pose proof (decided_on _ _ _ _ _ _ He) as Hd.
  unfold decision in Hs. rewrite Hd in Hs.
  pose proof (decision_cases (conn_state hs (fsm_flowid p)) (fsm_tcp_hdr p) rx tx isn) as Hc. rewrite <- Hs in Hc.
  destruct Hc as (Hw & Hfl & Hr & Ht). rewrite Hw in Hd. destruct (fsm_new_flow p) eqn:En; [done|]. subst st.
  exists hs, p, rx, tx, isn, []. by split_and!.
Qed.

(** The opening is of the first packet that can have made it. *)
Lemma opener hs1 e hs2 :
  consistent (hs1 ++ e :: hs2) → (flow_of e ∉ opened_by (done_by hs1)) →
  flow_of e ∈ opened_by (done_by (hs1 ++ e :: hs2)) → flow_of e ∈ opened_by (handled_effects e).
Proof.
  intros H Hno. rewrite cons_middle, app_assoc in H |- *.
  induction hs2 as [|e2 hs2 IH] using rev_ind.
  - rewrite app_nil_r, done_by_snoc, opened_by_app, elem_of_app. by intros [?|?].
  - rewrite app_assoc in H |- *. apply consistent_inv in H as [H [Hn _]]. rewrite done_by_snoc, opened_by_app, elem_of_app.
    intros [Ho|Ho]; [by apply IH|]. exfalso.
    destruct (handled_shape e2) as [E|(entry & rx & tx & es & Es & Hes & Hnew)]; [rewrite E in Ho; by apply not_elem_of_nil in Ho|].
    rewrite Es in Ho. cbn [opened_by omap list_omap] in Ho. fold (opened_by es) in Ho. rewrite Hes in Ho.
    apply list_elem_of_singleton in Ho. rewrite Hnew in Hn. symmetry in Hn. apply bool_decide_eq_true in Hn. apply Hn. rewrite <- Ho.
    rewrite !fmap_app. set_solver.
Qed.

(** The connections that are not opened yet, or not established yet, read what
    they were opened with. *)
Definition reads_opened (hs : list handled) (e : handled) : Prop :=
  match e with
  | Established _ _ => True
  | Decided p _ rx _ _ =>
      fsm_new_flow p = false → ∀ entry rx0 tx0, unspoiled (done_by hs) (fsm_flowid p) entry rx0 tx0 → rx = rx0
  end.

Inductive well_read : list handled → Prop :=
| well_read_nil : well_read []
| well_read_snoc hs e : well_read hs → reads_opened hs e → well_read (hs ++ [e]).

Lemma well_read_inv hs e : well_read (hs ++ [e]) → well_read hs ∧ reads_opened hs e.
Proof.
  intros H. remember (hs ++ [e]) as k eqn:E. destruct H as [|hs' e' H He]; [by destruct hs|].
  by apply app_inj_tail in E as [-> ->].
Qed.

Lemma well_read_at hs1 e hs2 : well_read (hs1 ++ e :: hs2) → reads_opened hs1 e.
Proof.
  rewrite cons_middle, app_assoc. induction hs2 as [|e2 hs2 IH] using rev_ind.
  - rewrite app_nil_r. by intros [_ H]%well_read_inv.
  - rewrite app_assoc. intros [H _]%well_read_inv. by apply IH.
Qed.

(** So a connection that was opened and established was so by a SYN with a
    number s, the first packet of its number, and an ACK with the number s + 1. *)
Lemma handshake_seq hs f :
  consistent hs → well_read hs → (f, TCP_EST) ∈ state_writes (done_by hs) → f ∈ opened_by (done_by hs) →
  ∃ hs1 syn st rx tx isn hs2 ack rx' tx' isn' hs3,
    hs = hs1 ++ Decided syn st rx tx isn :: hs2 ++ Decided ack TCP_SYN_RECV rx' tx' isn' :: hs3 ∧
    (fsm_flowid syn = f ∧ fsm_new_flow syn = true ∧ flags (fsm_tcp_hdr syn) = FLAG_SYN) ∧
    (fsm_flowid ack = f ∧ fsm_new_flow ack = false ∧ flags (fsm_tcp_hdr ack) = FLAG_ACK) ∧
    seq_num (fsm_tcp_hdr ack) = seq (seq_num (fsm_tcp_hdr syn) + 1) ∧ ack_num (fsm_tcp_hdr ack) = tx_curr_seq_num tx'.
Proof.
  intros H Hw He Ho. destruct (established_first hs f H He) as (hs' & ack & rx' & tx' & isn' & hs3 & -> & Hfa & Hna & Hfl & Hr & Ht & Hs & Hne).
  assert (Hc' : consistent hs') by (by apply consistent_prefix in H).
  destruct (waiting_since hs' f Hc' Hs) as (hs1 & syn & st & rx & tx & isn & hs2 & -> & Hfs & Hsyn & Hn & _).
  assert (H1 : consistent hs1) by (by apply consistent_prefix in Hc').
  assert (Hne1 : (f, TCP_EST) ∉ state_writes (done_by hs1))
    by (intros Hin; apply Hne; rewrite done_by_app, state_writes_app, elem_of_app; by left).
  assert (Hno : f ∉ opened_by (done_by hs1)) by (intros Hin; by rewrite (opened_waits hs1 f H1 Hin Hne1) in Hn).
  set (e := Decided syn st rx tx isn) in *.
  assert (Hop : f ∈ opened_by (handled_effects e)).
  { rewrite <- app_assoc in H, Ho. cbn [app] in H, Ho. rewrite <- Hfs in Ho, Hno |- *.
    by apply (opener hs1 e (hs2 ++ Decided ack TCP_SYN_RECV rx' tx' isn' :: hs3)). }
  assert (Hnew : fsm_new_flow syn = true).
  { unfold e in Hop. rewrite handled_opens in Hop. destruct (fsm_new_flow syn); [done|by apply not_elem_of_nil in Hop]. }
  exists hs1, syn, st, rx, tx, isn, hs2, ack, rx', tx', isn', hs3. split; [by rewrite <- app_assoc|]. split_and!; try done.
  rewrite <- Hr. rewrite (well_read_at _ _ _ Hw Hna (flow_lookup_init syn) (rx_state_init (syn_ack syn isn)) (tx_state_init (syn_ack syn isn))).
  - unfold syn_ack, tcp_state_machine. by rewrite Hsyn.
  - split; [|by rewrite Hfa]. rewrite done_by_app, elem_of_app. right. cbn [mbind list_bind]. rewrite elem_of_app. left.
    unfold e. cbn [handled_effects]. rewrite Hnew. unfold decision_effects, syn_ack. rewrite Hnew. unfold tcp_state_machine. rewrite Hsyn.
    cbn. rewrite Hfa, Hfs. by left.
Qed.
