(* ===== verification/Cam.v ===== *)
(** Cam: BaseJump's content-addressable memory bsg_cam_1r1w_unmanaged.sv, over
    bsg_cam_1r1w_tag_array.sv and bsg_mem_1r1w_one_hot.sv: the table the receive
    pipeline finds connections in. *)

From S2P Require Import Prelude.

(** ** Flip-flops *)

Definition bsg_dff_en {A} (en_i : bool) (data_i data_r : A) : A := if en_i then data_i else data_r.
Definition bsg_dff_reset_en {A} (reset_val : A) (reset_i en_i : bool) (data_i data_r : A) : A :=
  if reset_i then reset_val else if en_i then data_i else data_r.

(** ** The modules

    A vector of bits that selects entries is an integer when it is an input,
    and a list of bits when it is made of the entries. *)

(** The bits of the selected words, or-ed. *)
Definition bsg_mux_one_hot (data_i : list Z) (sel_one_hot_i : list bool) : Z :=
  foldr Z.lor 0 (zip_with (λ d (b : bool), if b then d else 0) data_i sel_one_hot_i).

Definition bsg_mem_1r1w_one_hot_next (w_v_i w_data_i : Z) (data_r : list Z) : list Z :=
  imap (λ n d, bsg_dff_en (Z.testbit w_v_i (Z.of_nat n)) w_data_i d) data_r.

Section Cam.
Context {T : Type} `{!EqDecision T}.

Record tag_entry := TagEntry { v_r : bool; tag_r : T }.

Record cam_wr := CamWr { w_v_i : Z; w_set_not_clear_i : bool; w_tag_i : T; w_data_i : Z }.

Definition tag_array_next (reset_i : bool) (w : cam_wr) (l : list tag_entry) : list tag_entry :=
  imap (λ n e,
    let en := Z.testbit (w_v_i w) (Z.of_nat n) in
    {| v_r := bsg_dff_reset_en false reset_i en (w_set_not_clear_i w) (v_r e);
       tag_r := bsg_dff_en (en && w_set_not_clear_i w) (w_tag_i w) (tag_r e) |}) l.

Definition r_match_o (r_v_i : bool) (r_tag_i : T) (l : list tag_entry) : list bool :=
  (λ e, r_v_i && v_r e && bool_decide (tag_r e = r_tag_i)) <$> l.

Record bsg_cam := Cam { cam_tag_array : list tag_entry; one_hot_mem : list Z }.

Definition cam_r_v_o (r_v_i : bool) (r_tag_i : T) (c : bsg_cam) : bool :=
  existsb id (r_match_o r_v_i r_tag_i (cam_tag_array c)).
Definition cam_r_data_o (r_v_i : bool) (r_tag_i : T) (c : bsg_cam) : Z :=
  bsg_mux_one_hot (one_hot_mem c) (r_match_o r_v_i r_tag_i (cam_tag_array c)).
Definition bsg_cam_next (reset_i : bool) (w : cam_wr) (c : bsg_cam) : bsg_cam :=
  {| cam_tag_array := tag_array_next reset_i w (cam_tag_array c);
     one_hot_mem := bsg_mem_1r1w_one_hot_next (w_v_i w) (w_data_i w) (one_hot_mem c) |}.

(** ** What it is used for: a table that grows

    The entries are filled in the order of their numbers, each with its number
    as data. *)

Record cam_rel (c : bsg_cam) (tbl : list T) : Prop := {
  c_len : length (one_hot_mem c) = length (cam_tag_array c);
  c_fits : (length tbl ≤ length (cam_tag_array c))%nat;
  c_val : ∀ n e, cam_tag_array c !! n = Some e → v_r e = bool_decide (n < length tbl)%nat;
  c_tag : ∀ n e t, cam_tag_array c !! n = Some e → tbl !! n = Some t → tag_r e = t;
  c_data : ∀ n d, one_hot_mem c !! n = Some d → (n < length tbl)%nat → d = Z.of_nat n }.

(** Where a tag is. *)
Definition index (t : T) (tbl : list T) : option nat := fst <$> list_find (t =.) tbl.

Lemma index_Some t tbl n : NoDup tbl → index t tbl = Some n ↔ tbl !! n = Some t.
Proof.
  intros Hd. unfold index. split.
  - intros H. apply fmap_Some in H as ([m u] & H & ->). apply list_find_Some in H as (H & -> & _). exact H.
  - intros H. apply fmap_Some. exists (n, t). split; [|done]. apply list_find_Some. split_and!; [done..|].
    intros m u Hm Hlt ->. pose proof (NoDup_lookup _ _ _ _ Hd Hm H). lia.
Qed.

Lemma index_None t tbl : index t tbl = None ↔ t ∉ tbl.
Proof.
  unfold index. rewrite fmap_None, list_find_None, Forall_forall. split.
  - intros H Hin. by apply (H t Hin).
  - intros H u Hu ->. done.
Qed.

Lemma index_snoc t u tbl :
  NoDup (tbl ++ [t]) →
  index u (tbl ++ [t]) = match index u tbl with Some n => Some n | None => if decide (u = t) then Some (length tbl) else None end.
Proof.
  intros Hd. assert (Hl : NoDup tbl) by by apply NoDup_app in Hd as [? _].
  destruct (index u tbl) as [n|] eqn:E.
  - apply index_Some in E; [|done]. apply index_Some; [done|]. by apply lookup_app_l_Some.
  - apply index_None in E. destruct (decide (u = t)) as [->|Hne].
    + apply index_Some; [done|]. by apply list_lookup_middle.
    + apply index_None. set_solver.
Qed.

Lemma match_at c tbl t n :
  cam_rel c tbl → r_match_o true t (cam_tag_array c) !! n = Some true ↔ tbl !! n = Some t.
Proof.
  intros Hc. unfold r_match_o. rewrite list_lookup_fmap, fmap_Some. split.
  - intros (e & He & H). symmetry in H. apply andb_true_iff in H as [Hv Ht].
    rewrite (c_val _ _ Hc _ _ He) in Hv. apply bool_decide_eq_true in Hv, Ht.
    destruct (lookup_lt_is_Some_2 tbl n Hv) as [u Hu]. by rewrite Hu, <- Ht, (c_tag _ _ Hc _ _ _ He Hu).
  - intros Ht. pose proof (lookup_lt_Some _ _ _ Ht) as Hlt. pose proof (c_fits _ _ Hc).
    destruct (lookup_lt_is_Some_2 (cam_tag_array c) n ltac:(lia)) as [e He]. exists e. split; [done|].
    by rewrite (c_val _ _ Hc _ _ He), (c_tag _ _ Hc _ _ _ He Ht), !bool_decide_eq_true_2 by done.
Qed.

(** Words that are not selected do not count. *)
Lemma mux_zero data sel : (∀ n : nat, sel !! n ≠ Some true) → bsg_mux_one_hot data sel = 0.
Proof.
  unfold bsg_mux_one_hot. revert sel. induction data as [|d data IH]; intros [|b sel] H; cbn; [done..|].
  rewrite (IH sel (λ n, H (S n))). destruct b; [by destruct (H 0%nat)|done].
Qed.

Lemma mux_one data sel n d :
  data !! n = Some d → sel !! n = Some true → (∀ m : nat, sel !! m = Some true → m = n) →
  bsg_mux_one_hot data sel = d.
Proof.
  revert data sel. induction n as [|n IH]; intros [|x data] [|b sel] Hd Hs H; try done.
  - injection Hd as ->. injection Hs as ->. unfold bsg_mux_one_hot. cbn.
    pose proof (mux_zero data sel (λ m E, ltac:(by specialize (H (S m) E)))) as E.
    unfold bsg_mux_one_hot in E. by rewrite E, Z.lor_0_r.
  - unfold bsg_mux_one_hot. cbn. destruct b; [by specialize (H 0%nat eq_refl)|].
    apply (IH data sel Hd Hs). intros m Hm. specialize (H (S m) Hm). lia.
Qed.

(** The read finds the number of a tag. *)
Lemma cam_reads c tbl t :
  cam_rel c tbl → NoDup tbl →
  cam_r_v_o true t c = bool_decide (is_Some (index t tbl)) ∧
  ∀ n, index t tbl = Some n → cam_r_data_o true t c = Z.of_nat n.
Proof.
  intros Hc Hd. split.
  - apply eq_true_iff_eq. unfold cam_r_v_o. rewrite existsb_exists, bool_decide_eq_true. split.
    + intros (b & Hb & E). cbv in E. subst b. apply list_elem_of_In, list_elem_of_lookup in Hb as [n Hn].
      exists n. by apply index_Some, (match_at c).
    + intros [n Hn]. apply index_Some in Hn; [|done]. exists true. split; [|done].
      apply list_elem_of_In, list_elem_of_lookup. exists n. by apply (match_at c tbl).
  - intros n Hn. apply index_Some in Hn; [|done]. pose proof (lookup_lt_Some _ _ _ Hn) as Hlt.
    pose proof (c_fits _ _ Hc). pose proof (c_len _ _ Hc).
    destruct (lookup_lt_is_Some_2 (one_hot_mem c) n ltac:(lia)) as [d Hdat].
    unfold cam_r_data_o. rewrite (mux_one _ _ n d Hdat).
    + by apply (c_data _ _ Hc n).
    + by apply (match_at c tbl).
    + intros m Hm. apply (match_at c tbl _ _ Hc) in Hm. by apply (NoDup_lookup tbl m n t).
Qed.

Lemma cam_add c tbl w :
  cam_rel c tbl → (length tbl < length (cam_tag_array c))%nat →
  (∀ n, (n < length (cam_tag_array c))%nat → Z.testbit (w_v_i w) (Z.of_nat n) = bool_decide (n = length tbl)) →
  w_set_not_clear_i w = true → w_data_i w = Z.of_nat (length tbl) →
  cam_rel (bsg_cam_next false w c) (tbl ++ [w_tag_i w]).
Proof.
  intros Hc Hlt Hv Hs Hd. unfold bsg_cam_next, tag_array_next, bsg_mem_1r1w_one_hot_next, bsg_dff_reset_en, bsg_dff_en.
  split; cbn; rewrite ?length_imap, ?length_app; cbn.
  - apply Hc.
  - lia.
  - intros n e H. rewrite list_lookup_imap in H. apply fmap_Some in H as (e0 & He & ->). cbn.
    rewrite (c_val _ _ Hc _ _ He), (Hv _ (lookup_lt_Some _ _ _ He)), Hs.
    repeat case_bool_decide; try done; lia.
  - intros n e t H Ht. rewrite list_lookup_imap in H. apply fmap_Some in H as (e0 & He & ->). cbn.
    rewrite (Hv _ (lookup_lt_Some _ _ _ He)), Hs, andb_true_r. apply lookup_snoc_Some in Ht as [[Hl Ht]|[-> <-]].
    + rewrite bool_decide_eq_false_2 by lia. by apply (c_tag _ _ Hc n).
    + by rewrite bool_decide_eq_true_2.
  - intros n d H Hn. rewrite list_lookup_imap in H. apply fmap_Some in H as (d0 & H0 & ->).
    pose proof (lookup_lt_Some _ _ _ H0) as Hl. rewrite (c_len _ _ Hc) in Hl. rewrite (Hv _ Hl).
    case_bool_decide; [congruence|]. apply (c_data _ _ Hc n); [done|lia].
Qed.

Lemma cam_keep c tbl w : w_v_i w = 0 → cam_rel c tbl → cam_rel (bsg_cam_next false w c) tbl.
Proof.
  intros Hw Hc. assert (bsg_cam_next false w c = c) as ->; [|done].
  unfold bsg_cam_next, tag_array_next, bsg_mem_1r1w_one_hot_next, bsg_dff_reset_en, bsg_dff_en. rewrite Hw.
  destruct c as [l d]. cbn. f_equal.
  - transitivity (imap (λ _ e, e) l).
    + apply imap_ext. intros n [v t] _. by rewrite Z.testbit_0_l.
    + clear. induction l as [|e l IH]; [done|]. cbn. f_equal. exact IH.
  - transitivity (imap (λ _ (e : Z), e) d).
    + apply imap_ext. intros n x _. by rewrite Z.testbit_0_l.
    + clear. induction d as [|e l IH]; [done|]. cbn. f_equal. exact IH.
Qed.

(** The reset empties the table. *)
Lemma cam_reset c w :
  length (one_hot_mem c) = length (cam_tag_array c) → cam_rel (bsg_cam_next true w c) [].
Proof.
  intros Hl. split; cbn; unfold tag_array_next, bsg_mem_1r1w_one_hot_next; rewrite ?length_imap; try done; [lia|..].
  - intros n e H. rewrite list_lookup_imap in H. by apply fmap_Some in H as (e0 & He & ->).
  - intros n d _ H. lia.
Qed.

Lemma cam_size w rst c : length (cam_tag_array (bsg_cam_next rst w c)) = length (cam_tag_array c).
Proof. apply length_imap. Qed.
End Cam.
Arguments bsg_cam T : clear implicits.
Arguments tag_entry T : clear implicits.
Arguments cam_wr T : clear implicits.
