(* ===== verification/IssuePipe.v ===== *)
(** IssuePipe: recv_pipe/rx_issue_pipe.sv, which finds the connection of a
    packet, or opens one, and sends it to the pipeline of its state; with
    recv_pipe/tcp_state_store.sv and the manager of FlowId. *)

From stdpp Require Import functions.
From S2P Require Import Prelude Rtl RamDual Fifo TcpPkg FlowStores EstPipe FlowId TcpStateMachine RxFsm Cam.

#[global] Instance four_tuple_struct_eq_dec : EqDecision four_tuple_struct.
Proof. solve_decision. Defined.

(** ** rx_issue_pipe.sv

    The stages F (number of the connection), T (its state) and I (issue).  What
    the stages hold of a packet is one register. *)

Record issue_pkt := IssuePkt {
  recv_src_ip : Z;
  recv_dst_ip : Z;
  recv_tcp_hdr : tcp_pkt_hdr;
  recv_payload_val : bool;
  recv_payload_entry : payload_buf_struct }.

Record rx_issue_pipe := RxIssue {
  recv_hdr_val_reg_f : bool;
  recv_pkt_reg_f : issue_pkt;
  recv_hdr_val_reg_t : bool;
  recv_pkt_reg_t : issue_pkt;
  flowid_val_reg_t : bool;
  flowid_reg_t : Z;
  recv_hdr_val_reg_i : bool;
  recv_pkt_reg_i : issue_pkt;
  recv_new_flow_reg_i : bool;
  recv_flowid_reg_i : Z;
  alloc_new_flowid_reg_i : bool;
  addr_to_flowid : bsg_cam four_tuple_struct;
  tcp_state_mem : ram2 tcp_flow_state_e }.

Record issue_in := IssueIn {
  recv_tcp_hdr_val : bool;
  recv_pkt : issue_pkt;
  clear_flowid_val : bool;
  clear_flowid_flowid : Z;
  clear_flowid_tag : four_tuple_struct;
  update_tcp_state : wr_req tcp_flow_state_e;
  fsm_tcp_state_rd : rd_req_in;
  flowid_manager_avail : bool;
  flowid_manager_flowid : Z;
  issue_est_pipe_rdy : bool;
  issue_fsm_pipe_rdy : bool }.

Record issue_out := IssueOut {
  recv_hdr_rdy : bool;
  issue_flowid_req : bool;
  issue_est : option est_pkt;
  issue_fsm : option fsm_pkt;
  issue_fsm_rd_req_rdy : bool;
  issue_fsm_rd_resp_val : bool;
  issue_fsm_rd_resp_data : option tcp_flow_state_e }.

Inductive route_e := EST_PIPE | FSM_PIPE.
#[global] Instance route_e_eq_dec : EqDecision route_e.
Proof. solve_decision. Defined.

(** The addresses of a packet, as its connection has them. *)
Definition tag_of (p : issue_pkt) : four_tuple_struct :=
  FourTuple (recv_dst_ip p) (recv_src_ip p) (dst_port (recv_tcp_hdr p)) (src_port (recv_tcp_hdr p)).

Definition zero_issue_pkt : issue_pkt := IssuePkt 0 0 zero_hdr false zero_payload.

(** One bit, shifted in a vector with a bit per connection. *)
Definition one_hot (val : bool) (flowid : Z) : Z := Z.shiftl (Z.b2z val) flowid mod 2 ^ Z.of_nat MAX_FLOW_CNT.

Lemma one_hot_bit f n :
  flow_ok f → (n < MAX_FLOW_CNT)%nat → Z.testbit (one_hot true f) (Z.of_nat n) = bool_decide (n = Z.to_nat f).
Proof.
  intros Hf Hn. unfold flow_ok in Hf. unfold one_hot. rewrite Z.mod_pow2_bits_low by lia.
  rewrite Z.shiftl_spec by lia. cbn [Z.b2z]. case_bool_decide as E.
  - subst n. by replace (Z.of_nat (Z.to_nat f) - f) with 0 by lia.
  - destruct (Z.lt_ge_cases (Z.of_nat n - f) 0); [by apply Z.testbit_neg_r|]. apply Z.bits_above_log2; cbn; lia.
Qed.

Section Issue.
Variable xt : tcp_flow_state_e.  (* what an undefined state is taken for *)

Definition curr_tcp_state_i (s : rx_issue_pipe) : tcp_flow_state_e :=
  if alloc_new_flowid_reg_i s then TCP_NONE else default xt (rd0_resp_data (tcp_state_mem s)).
Definition route (s : rx_issue_pipe) : route_e :=
  match curr_tcp_state_i s with
  | TCP_EST => if bad_flags (recv_tcp_hdr (recv_pkt_reg_i s)) then FSM_PIPE else EST_PIPE
  | _ => FSM_PIPE
  end.

Definition stall_issue (s : rx_issue_pipe) (i : issue_in) : bool :=
  recv_hdr_val_reg_i s &&
  (bool_decide (route s = FSM_PIPE) && negb (issue_fsm_pipe_rdy i) ||
   bool_decide (route s = EST_PIPE) && negb (issue_est_pipe_rdy i) ||
   negb (alloc_new_flowid_reg_i s) && negb (rd0_resp_val (tcp_state_mem s))).

Definition tcp_state_rd_req_rdy_t (s : rx_issue_pipe) (i : issue_in) : bool :=
  negb (stall_issue s i) || negb (rd0_resp_val (tcp_state_mem s)).
Definition want_new_flowid_t (s : rx_issue_pipe) (i : issue_in) : bool :=
  recv_hdr_val_reg_t s && negb (flowid_val_reg_t s) && flowid_manager_avail i.
Definition stall_lookup (s : rx_issue_pipe) (i : issue_in) : bool :=
  recv_hdr_val_reg_t s &&
  (stall_issue s i || negb (tcp_state_rd_req_rdy_t s i) ||
   want_new_flowid_t s i && wr_val (update_tcp_state i) || want_new_flowid_t s i && clear_flowid_val i).
Definition drop_hdr_t (s : rx_issue_pipe) (i : issue_in) : bool :=
  recv_hdr_val_reg_t s && negb (flowid_val_reg_t s) && negb (flowid_manager_avail i).
Definition bubble_lookup (s : rx_issue_pipe) (i : issue_in) : bool := stall_lookup s i || drop_hdr_t s i.
Definition alloc_new_flowid_val_t (s : rx_issue_pipe) (i : issue_in) : bool :=
  negb (stall_lookup s i) && want_new_flowid_t s i.
Definition alloc_new_flowid_data_t (i : issue_in) : Z := flowid_manager_flowid i.
Definition alloc_new_flowid_tag_t (s : rx_issue_pipe) : four_tuple_struct := tag_of (recv_pkt_reg_t s).
Definition stall_flowid (s : rx_issue_pipe) (i : issue_in) : bool := recv_hdr_val_reg_f s && stall_lookup s i.

Definition addr_to_flowid_wr (s : rx_issue_pipe) (i : issue_in) : cam_wr four_tuple_struct :=
  {| w_v_i := if clear_flowid_val i then one_hot true (clear_flowid_flowid i)
              else one_hot (alloc_new_flowid_val_t s i) (alloc_new_flowid_data_t i);
     w_set_not_clear_i := negb (clear_flowid_val i);
     w_tag_i := if clear_flowid_val i then clear_flowid_tag i else alloc_new_flowid_tag_t s;
     w_data_i := alloc_new_flowid_data_t i |}.

(** The number a packet in F gets: that of the packet before it, when this one
    opens the same connection in the same cycle. *)
Definition flowid_byp_val_f (s : rx_issue_pipe) (i : issue_in) : bool :=
  recv_hdr_val_reg_f s && recv_hdr_val_reg_t s && alloc_new_flowid_val_t s i &&
  bool_decide (alloc_new_flowid_tag_t s = tag_of (recv_pkt_reg_f s)).
Definition flowid_val_next_t (s : rx_issue_pipe) (i : issue_in) : bool :=
  if flowid_byp_val_f s i then true
  else cam_r_v_o (recv_hdr_val_reg_f s) (tag_of (recv_pkt_reg_f s)) (addr_to_flowid s).
Definition flowid_next_t (s : rx_issue_pipe) (i : issue_in) : Z :=
  if flowid_byp_val_f s i then alloc_new_flowid_data_t i
  else cam_r_data_o (recv_hdr_val_reg_f s) (tag_of (recv_pkt_reg_f s)) (addr_to_flowid s).

Definition tcp_state_wr_t (s : rx_issue_pipe) (i : issue_in) : wr_req tcp_flow_state_e :=
  let u := update_tcp_state i in
  {| wr_val := wr_val u || alloc_new_flowid_val_t s i;
     wr_addr := if wr_val u then wr_addr u else alloc_new_flowid_data_t i;
     wr_dat := if wr_val u then wr_dat u else TCP_NONE |}.
Definition tcp_state_rd_t (s : rx_issue_pipe) (i : issue_in) : rd_req_in :=
  RdReq (recv_hdr_val_reg_t s && flowid_val_reg_t s && negb (stall_lookup s i)) (flowid_reg_t s)
    (negb (stall_issue s i)).

(** [recv_payload_val & recv_tcp_hdr_val] *)
Definition gated (val : bool) (p : issue_pkt) : issue_pkt :=
  IssuePkt (recv_src_ip p) (recv_dst_ip p) (recv_tcp_hdr p) (recv_payload_val p && val) (recv_payload_entry p).

Definition issue_next (rst : bool) (i : issue_in) (s : rx_issue_pipe) : rx_issue_pipe :=
  let sf := stall_flowid s i in let st := stall_lookup s i in let si := stall_issue s i in
  {| recv_hdr_val_reg_f := if rst then false else if negb sf then recv_tcp_hdr_val i else recv_hdr_val_reg_f s;
     recv_pkt_reg_f := if rst then zero_issue_pkt else if negb sf then gated (recv_tcp_hdr_val i) (recv_pkt i)
                       else recv_pkt_reg_f s;
     recv_hdr_val_reg_t := if rst then false else if negb st then recv_hdr_val_reg_f s else recv_hdr_val_reg_t s;
     recv_pkt_reg_t := if rst then zero_issue_pkt else if negb st then recv_pkt_reg_f s else recv_pkt_reg_t s;
     flowid_val_reg_t := if rst then false else if negb st then flowid_val_next_t s i else flowid_val_reg_t s;
     flowid_reg_t := if rst then 0 else if negb st then flowid_next_t s i else flowid_reg_t s;
     recv_hdr_val_reg_i := if rst then false
                           else if negb si then negb (bubble_lookup s i) && recv_hdr_val_reg_t s
                           else recv_hdr_val_reg_i s;
     recv_pkt_reg_i := if rst then zero_issue_pkt else if negb si then recv_pkt_reg_t s else recv_pkt_reg_i s;
     recv_new_flow_reg_i := if rst then false else if negb si then negb (flowid_val_reg_t s)
                            else recv_new_flow_reg_i s;
     recv_flowid_reg_i := if rst then 0
                          else if negb si
                               then if alloc_new_flowid_val_t s i then alloc_new_flowid_data_t i else flowid_reg_t s
                               else recv_flowid_reg_i s;
     alloc_new_flowid_reg_i := if rst then false else if negb si then alloc_new_flowid_val_t s i
                               else alloc_new_flowid_reg_i s;
     addr_to_flowid := bsg_cam_next rst (addr_to_flowid_wr s i) (addr_to_flowid s);
     tcp_state_mem := ram2_next TCP_NONE rst (mem2_in (tcp_state_wr_t s i) (tcp_state_rd_t s i) (fsm_tcp_state_rd i))
                        (tcp_state_mem s) |}.

Definition est_hdr_val_i (s : rx_issue_pipe) (i : issue_in) : bool :=
  bool_decide (route s = EST_PIPE) && recv_hdr_val_reg_i s && negb (stall_issue s i).
Definition fsm_hdr_val_i (s : rx_issue_pipe) (i : issue_in) : bool :=
  bool_decide (route s = FSM_PIPE) && recv_hdr_val_reg_i s && negb (stall_issue s i).
Definition est_of (s : rx_issue_pipe) (i : issue_in) : est_pkt :=
  let p := recv_pkt_reg_i s in
  EstPkt (recv_tcp_hdr p) (recv_flowid_reg_i s) (recv_payload_val p && negb (stall_issue s i)) (recv_payload_entry p).
Definition fsm_of (s : rx_issue_pipe) : fsm_pkt :=
  let p := recv_pkt_reg_i s in
  FsmPkt (recv_src_ip p) (recv_dst_ip p) (recv_tcp_hdr p) (recv_payload_val p) (recv_payload_entry p)
    (recv_new_flow_reg_i s) (recv_flowid_reg_i s).

Definition issue_shows (s : rx_issue_pipe) (i : issue_in) : issue_out :=
  {| recv_hdr_rdy := negb (stall_flowid s i);
     issue_flowid_req := alloc_new_flowid_val_t s i;
     issue_est := if est_hdr_val_i s i then Some (est_of s i) else None;
     issue_fsm := if fsm_hdr_val_i s i then Some (fsm_of s) else None;
     issue_fsm_rd_req_rdy := rd_resp_rdy (fsm_tcp_state_rd i) || negb (rd1_resp_val (tcp_state_mem s));
     issue_fsm_rd_resp_val := rd1_resp_val (tcp_state_mem s);
     issue_fsm_rd_resp_data := rd1_resp_data (tcp_state_mem s) |}.

(** ** With the manager of the numbers, as in rx_pipe_wrap.sv

    Nothing is cleared and no number is given back. *)

Record issue_sys := IssueSys { issue_pipe : rx_issue_pipe; issue_flowids : flowid_manager }.

Record issue_sys_in := IssueSysIn {
  iss_hdr_val : bool;
  iss_pkt : issue_pkt;
  iss_update : wr_req tcp_flow_state_e;
  iss_fsm_rd : rd_req_in;
  iss_est_rdy : bool;
  iss_fsm_rdy : bool }.

Definition manager_in (req : bool) : flowid_in := FlowidIn false 0 req.
Definition manager_out (s : issue_sys) : flowid_out := c_out flowid_manager_module (issue_flowids s) (manager_in false).

Definition issue_wires (s : issue_sys) (i : issue_sys_in) : issue_in :=
  {| recv_tcp_hdr_val := iss_hdr_val i; recv_pkt := iss_pkt i; clear_flowid_val := false; clear_flowid_flowid := 0;
     clear_flowid_tag := zero_four_tuple; update_tcp_state := iss_update i; fsm_tcp_state_rd := iss_fsm_rd i;
     flowid_manager_avail := flowid_avail (manager_out s);
     flowid_manager_flowid := default 0 (flowid (manager_out s));
     issue_est_pipe_rdy := iss_est_rdy i; issue_fsm_pipe_rdy := iss_fsm_rdy i |}.

Definition rx_issue : circuit issue_sys issue_sys_in issue_out := Circuit
  (λ s i, issue_shows (issue_pipe s) (issue_wires s i))
  (λ rst i s,
     {| issue_pipe := issue_next rst (issue_wires s i) (issue_pipe s);
        issue_flowids := c_next flowid_manager_module rst
          (manager_in (issue_flowid_req (issue_shows (issue_pipe s) (issue_wires s i)))) (issue_flowids s) |}).
End Issue.

(** ** What it promises

    A dispatcher: the connections in the order they were opened, the number of
    a connection being its place; their states; and the packets on their way,
    each with its number.  A packet of no connection opens one, as long as there
    is a number left; without one it is dropped. *)

Record issued := Issued { is_pkt : issue_pkt; is_flowid : Z; is_new : bool }.
Record dispatcher := Dispatcher {
  d_table : list four_tuple_struct;
  d_state : Z → tcp_flow_state_e;
  d_queue : list issued }.

Definition number (tbl : list four_tuple_struct) (p : issue_pkt) : option issued :=
  match index (tag_of p) tbl with
  | Some n => Some (Issued p (Z.of_nat n) false)
  | None => if (length tbl <? MAX_FLOW_CNT)%nat then Some (Issued p (Z.of_nat (length tbl)) true) else None
  end.
Definition opened (r : option issued) : bool := match r with Some x => is_new x | None => false end.
Definition enter (tbl : list four_tuple_struct) (p : issue_pkt) : list four_tuple_struct :=
  if opened (number tbl p) then tbl ++ [tag_of p] else tbl.

(** Only a packet of an established connection, without any flag but ACK and
    PSH, goes to the pipeline of the established ones. *)
Definition route_of (st : tcp_flow_state_e) (x : issued) : route_e :=
  if negb (is_new x) && bool_decide (st = TCP_EST) && negb (bad_flags (recv_tcp_hdr (is_pkt x)))
  then EST_PIPE else FSM_PIPE.

Inductive issue_event := Entered (p : issue_pkt) | Updated (f : Z) (st : tcp_flow_state_e) | Sent.

Definition dispatch (e : issue_event) (d : dispatcher) : dispatcher :=
  match e with
  | Entered p =>
      {| d_table := enter (d_table d) p;
         d_state := if opened (number (d_table d) p) then <[Z.of_nat (length (d_table d)) := TCP_NONE]> (d_state d)
                    else d_state d;
         d_queue := d_queue d ++ option_list (number (d_table d) p) |}
  | Updated f st => Dispatcher (d_table d) (<[f := st]> (d_state d)) (d_queue d)
  | Sent => Dispatcher (d_table d) (d_state d) (tail (d_queue d))
  end.
Definition send (e : issue_event) (d : dispatcher) : list (route_e * issued) :=
  match e, d_queue d with
  | Sent, x :: _ => [(route_of (d_state d (is_flowid x)) x, x)]
  | _, _ => []
  end.
Definition dispatch_all (es : list issue_event) (d : dispatcher) : dispatcher := fold_left (λ d e, dispatch e d) es d.
Fixpoint sends (es : list issue_event) (d : dispatcher) : list (route_e * issued) :=
  match es with [] => [] | e :: es' => send e d ++ sends es' (dispatch e d) end.
Definition no_connections : dispatcher := Dispatcher [] (λ _, TCP_NONE) [].

(** What the packets become, one after the other. *)
Fixpoint numbered_from (tbl : list four_tuple_struct) (ps : list issue_pkt) : list issued :=
  match ps with [] => [] | p :: ps' => option_list (number tbl p) ++ numbered_from (enter tbl p) ps' end.

Definition entered (es : list issue_event) : list issue_pkt :=
  omap (λ e, match e with Entered p => Some p | _ => None end) es.
Definition updates (es : list issue_event) : list (Z * tcp_flow_state_e) :=
  omap (λ e, match e with Updated f st => Some (f, st) | _ => None end) es.

Lemma dispatch_all_app es es' d : dispatch_all (es ++ es') d = dispatch_all es' (dispatch_all es d).
Proof. apply fold_left_app. Qed.
Lemma sends_app es es' d : sends (es ++ es') d = sends es d ++ sends es' (dispatch_all es d).
Proof.
  revert d. induction es as [|e es IH]; intros d; [done|]. cbn. by rewrite IH, <- app_assoc.
Qed.

Lemma sends_nothing es d : Forall (λ e, e ≠ Sent) es → sends es d = [].
Proof. intros H. revert d. induction H as [|e es He _ IH]; intros d; [done|]. cbn. rewrite IH. by destruct e. Qed.

(** Nothing is lost or reordered between the numbering and the sending. *)
Lemma sends_numbered es d :
  (sends es d).*2 ++ d_queue (dispatch_all es d) = d_queue d ++ numbered_from (d_table d) (entered es).
Proof.
  revert d. induction es as [|e es IH]; intros d; [cbn; by rewrite app_nil_r|].
  change (dispatch_all (e :: es) d) with (dispatch_all es (dispatch e d)). cbn [sends].
  rewrite fmap_app, <- app_assoc, IH. destruct e as [p|f st|]; cbn.
  - by rewrite <- app_assoc.
  - done.
  - by destruct (d_queue d).
Qed.

(** A packet's number is the place of its addresses, and the places are taken
    once. *)
Lemma enter_NoDup tbl p : NoDup tbl → NoDup (enter tbl p).
Proof.
  unfold enter, number. intros H. destruct (index (tag_of p) tbl) as [n|] eqn:E; [done|].
  apply index_None in E. destruct (_ <? _)%nat; [|done]. cbn. apply NoDup_app. split; [done|].
  split; [|apply NoDup_singleton]. intros t Ht Hin. apply list_elem_of_singleton in Hin as ->. done.
Qed.

Lemma enter_length tbl p : (length tbl ≤ MAX_FLOW_CNT)%nat → (length (enter tbl p) ≤ MAX_FLOW_CNT)%nat.
Proof.
  unfold enter, number. intros H. destruct (index _ _) as [n|]; [done|].
  destruct (Nat.ltb_spec (length tbl) MAX_FLOW_CNT); [|done]. cbn. rewrite length_app. cbn. lia.
Qed.

Lemma number_enter tbl p x :
  NoDup tbl → number tbl p = Some x →
  is_pkt x = p ∧ 0 ≤ is_flowid x ∧ enter tbl p !! Z.to_nat (is_flowid x) = Some (tag_of p) ∧
  (is_new x = false → index (tag_of p) tbl = Some (Z.to_nat (is_flowid x))).
Proof.
  unfold enter. intros Hd H. rewrite H. revert H. unfold number.
  destruct (index (tag_of p) tbl) as [n|] eqn:E.
  - intros [= <-]. cbn. rewrite Nat2Z.id. split_and!; [done|lia|by apply index_Some|done].
  - destruct (_ <? _)%nat; intros [= <-]. cbn. rewrite Nat2Z.id. split_and!; [done|lia| |done].
    by apply list_lookup_middle.
Qed.

(** ** The invariant *)

Section Sequential.
Variable xt : tcp_flow_state_e.

Definition when {B} (b : bool) (d : B) : list B := if b then [d] else [].

(** The packets that have no number yet, and the one that waits to be sent. *)
Definition waiting (s : rx_issue_pipe) : list issue_pkt :=
  when (recv_hdr_val_reg_t s) (recv_pkt_reg_t s) ++ when (recv_hdr_val_reg_f s) (recv_pkt_reg_f s).
Definition in_i (s : rx_issue_pipe) : list issued :=
  when (recv_hdr_val_reg_i s) (Issued (recv_pkt_reg_i s) (recv_flowid_reg_i s) (recv_new_flow_reg_i s)).

Record issue_rel (s : issue_sys) (d : dispatcher) : Prop := {
  j_cam : cam_rel (addr_to_flowid (issue_pipe s)) (d_table d);
  j_size : length (cam_tag_array (addr_to_flowid (issue_pipe s))) = MAX_FLOW_CNT;
  j_nodup : NoDup (d_table d);
  j_numbers : numbers_rel (issue_flowids s) (length (d_table d));
  j_t : recv_hdr_val_reg_t (issue_pipe s) = true →
    let r := index (tag_of (recv_pkt_reg_t (issue_pipe s))) (d_table d) in
    flowid_val_reg_t (issue_pipe s) = bool_decide (is_Some r) ∧
    ∀ n, r = Some n → flowid_reg_t (issue_pipe s) = Z.of_nat n;
  j_queue : d_queue d = in_i (issue_pipe s);
  j_alloc : recv_hdr_val_reg_i (issue_pipe s) = true →
    alloc_new_flowid_reg_i (issue_pipe s) = recv_new_flow_reg_i (issue_pipe s) ∧
    0 ≤ recv_flowid_reg_i (issue_pipe s) < Z.of_nat (length (d_table d));
  j_mem : let p := issue_pipe s in
    ram_rel (port0 (tcp_state_mem p)) (RamView (contents2 (tcp_state_mem p))
      (if recv_hdr_val_reg_i p && negb (recv_new_flow_reg_i p) then Some (recv_flowid_reg_i p) else None));
  j_sized : sized (contents2 (tcp_state_mem (issue_pipe s)));
  j_state : ∀ f, 0 ≤ f < Z.of_nat (length (d_table d)) →
    contents2 (tcp_state_mem (issue_pipe s)) !! Z.to_nat f = Some (d_state d f) }.

Record issue_ok (i : issue_sys_in) : Prop := {
  o_update : wr_val (iss_update i) = true → flow_ok (wr_addr (iss_update i));
  o_read : rd_val (iss_fsm_rd i) = true → flow_ok (rd_addr (iss_fsm_rd i)) }.

(** What a cycle does. *)
Definition cycle_events (s : issue_sys) (i : issue_sys_in) : list issue_event :=
  let p := issue_pipe s in let w := issue_wires s i in
  when (recv_hdr_val_reg_i p && negb (stall_issue xt p w)) Sent ++
  when (recv_hdr_val_reg_t p && negb (stall_lookup xt p w)) (Entered (recv_pkt_reg_t p)) ++
  when (wr_val (iss_update i)) (Updated (wr_addr (iss_update i)) (wr_dat (iss_update i))).

Definition issue_taken (i : issue_sys_in) (o : issue_out) : list issue_pkt :=
  when (iss_hdr_val i && recv_hdr_rdy o) (iss_pkt i).
Definition issue_sent (o : issue_out) : list (est_pkt + fsm_pkt) :=
  option_list (inl <$> issue_est o) ++ option_list (inr <$> issue_fsm o).

(** A packet as the pipelines get it. *)
Definition to_wire (r : route_e * issued) : est_pkt + fsm_pkt :=
  let x := r.2 in let p := is_pkt x in
  match r.1 with
  | EST_PIPE => inl (EstPkt (recv_tcp_hdr p) (is_flowid x) (recv_payload_val p) (recv_payload_entry p))
  | FSM_PIPE => inr (FsmPkt (recv_src_ip p) (recv_dst_ip p) (recv_tcp_hdr p) (recv_payload_val p)
                       (recv_payload_entry p) (is_new x) (is_flowid x))
  end.

Lemma gated_true p : gated true p = p.
Proof. destruct p. unfold gated. cbn. by rewrite andb_true_r. Qed.

(** ** A cycle *)

Section Cycle.
Context (s : issue_sys) (d : dispatcher) (i : issue_sys_in).
Hypothesis Hr : issue_rel s d.
Hypothesis Hok : issue_ok i.

Abbreviation p := (issue_pipe s).
Abbreviation w := (issue_wires s i).
Abbreviation s' := (c_next (rx_issue xt) false i s).
Abbreviation es := (cycle_events s i).

Lemma avail_eq : flowid_manager_avail w = (length (d_table d) <? MAX_FLOW_CNT)%nat.
Proof.
  destruct (numbers_simulates _ _ (manager_in false) (j_numbers _ _ Hr)) as [[Ha _] _]; [by split|].
  cbn [sp_shows numbers_spec] in Ha. cbn [flowid_manager_avail issue_wires]. unfold manager_out. rewrite Ha.
  apply eq_true_iff_eq. by rewrite bool_decide_eq_true, Nat.ltb_lt.
Qed.

Lemma next_number : flowid_manager_avail w = true → flowid_manager_flowid w = Z.of_nat (length (d_table d)).
Proof.
  rewrite avail_eq, Nat.ltb_lt. intros Hlt.
  destruct (numbers_simulates _ _ (manager_in false) (j_numbers _ _ Hr)) as [[_ Hf] _]; [by split|].
  cbn [flowid_manager_flowid issue_wires]. unfold manager_out. by rewrite (Hf Hlt).
Qed.

(** The state of the packet in I is there when the packet is. *)
Lemma resp_val :
  recv_hdr_val_reg_i p = true → rd0_resp_val (tcp_state_mem p) = negb (recv_new_flow_reg_i p).
Proof.
  intros E. pose proof (j_mem _ _ Hr) as H. cbn zeta in H. rewrite E in H. rewrite port0_val.
  destruct (recv_new_flow_reg_i p); cbn in H; [exact (port_idle _ _ H eq_refl)|exact (proj1 (port_shows _ _ _ H eq_refl))].
Qed.

Lemma stall_issue_eq :
  stall_issue xt p w = recv_hdr_val_reg_i p &&
    negb (if decide (route xt p = EST_PIPE) then iss_est_rdy i else iss_fsm_rdy i).
Proof.
  unfold stall_issue. destruct (sumbool_of_bool (recv_hdr_val_reg_i p)) as [E|E]; rewrite E; [|done].
  rewrite (proj1 (j_alloc _ _ Hr E)), (resp_val E). cbn [issue_fsm_pipe_rdy issue_est_pipe_rdy issue_wires].
  destruct (route xt p), (recv_new_flow_reg_i p), (iss_est_rdy i), (iss_fsm_rdy i); done.
Qed.

Lemma route_eq :
  recv_hdr_val_reg_i p = true →
  route xt p = route_of (d_state d (recv_flowid_reg_i p)) (Issued (recv_pkt_reg_i p) (recv_flowid_reg_i p) (recv_new_flow_reg_i p)).
Proof.
  intros E. destruct (j_alloc _ _ Hr E) as [Ha Hf]. unfold route, route_of, curr_tcp_state_i. rewrite Ha.
  destruct (recv_new_flow_reg_i p) eqn:En; [done|]. pose proof (j_mem _ _ Hr) as H. cbn zeta in H.
  rewrite E, En in H. cbn in H. destruct (port_shows _ _ _ H eq_refl) as [_ Hd]. cbn [rv_mem] in Hd.
  rewrite port0_data, Hd, (j_state _ _ Hr _ Hf). cbn. by destruct (d_state d _), (bad_flags _).
Qed.

Lemma wires_sent : issue_sent (c_out (rx_issue xt) s i) = to_wire <$> sends es d.
Proof.
  unfold issue_sent, cycle_events. cbn [c_out rx_issue issue_shows issue_est issue_fsm].
  unfold est_hdr_val_i, fsm_hdr_val_i, est_of, fsm_of.
  rewrite sends_app, (sends_nothing (when _ _ ++ _)) by (unfold when; repeat case_match; repeat constructor; done).
  rewrite app_nil_r. destruct (sumbool_of_bool (recv_hdr_val_reg_i p)) as [E|E]; rewrite E; cbn [andb];
    [|by rewrite !andb_false_r].
  rewrite !andb_true_r. destruct (stall_issue xt p w); cbn [negb when]; [by rewrite !andb_false_r|].
  cbn [sends send]. rewrite (j_queue _ _ Hr). unfold in_i. rewrite E. cbn [when is_flowid]. rewrite <- route_eq by done.
  cbn [negb]. rewrite !andb_true_r. by destruct (route xt p).
Qed.

Lemma stall_lookup_eq :
  stall_lookup xt p w = recv_hdr_val_reg_t p &&
    (stall_issue xt p w || negb (flowid_val_reg_t p) && flowid_manager_avail w && wr_val (iss_update i)).
Proof.
  unfold stall_lookup, want_new_flowid_t, tcp_state_rd_req_rdy_t. cbn [clear_flowid_val update_tcp_state issue_wires].
  by destruct (recv_hdr_val_reg_t p), (stall_issue xt p w), (flowid_val_reg_t p), (flowid_manager_avail w), (wr_val (iss_update i)).
Qed.

(** A packet leaves T. *)
Definition enters_i : bool := recv_hdr_val_reg_t p && negb (stall_lookup xt p w).

Lemma issue_waiting_next :
  entered es ++ waiting (issue_pipe s') = waiting p ++ issue_taken i (c_out (rx_issue xt) s i).
Proof.
  unfold issue_taken, waiting, cycle_events.
  cbn [issue_pipe c_next c_out rx_issue issue_next issue_shows recv_hdr_rdy recv_hdr_val_reg_t recv_pkt_reg_t recv_hdr_val_reg_f recv_pkt_reg_f].
  cbn [recv_tcp_hdr_val recv_pkt issue_wires]. unfold stall_flowid.
  assert (Ht : stall_lookup xt p w = true → recv_hdr_val_reg_t p = true)
    by (unfold stall_lookup; by destruct (recv_hdr_val_reg_t p)).
  destruct (recv_hdr_val_reg_i p && _), (stall_lookup xt p w), (recv_hdr_val_reg_t p), (recv_hdr_val_reg_f p),
    (iss_hdr_val i), (wr_val (iss_update i)); cbn -[gated]; rewrite ?gated_true; try done; by specialize (Ht eq_refl).
Qed.

Lemma number_t :
  recv_hdr_val_reg_t p = true →
  number (d_table d) (recv_pkt_reg_t p) =
  if flowid_val_reg_t p then Some (Issued (recv_pkt_reg_t p) (flowid_reg_t p) false)
  else if flowid_manager_avail w then Some (Issued (recv_pkt_reg_t p) (flowid_manager_flowid w) true) else None.
Proof.
  intros E. destruct (j_t _ _ Hr E) as [Hv Hn]. unfold number.
  destruct (index (tag_of (recv_pkt_reg_t p)) (d_table d)) as [n|]; rewrite Hv.
  - rewrite bool_decide_eq_true_2 by eauto. by rewrite (Hn n eq_refl).
  - rewrite bool_decide_eq_false_2 by (by intros []). pose proof next_number as H. rewrite avail_eq in H |- *.
    destruct (length (d_table d) <? MAX_FLOW_CNT)%nat; [|done]. by rewrite H.
Qed.

Lemma alloc_eq :
  alloc_new_flowid_val_t xt p w = enters_i && opened (number (d_table d) (recv_pkt_reg_t p)).
Proof.
  unfold alloc_new_flowid_val_t, want_new_flowid_t, enters_i.
  destruct (sumbool_of_bool (recv_hdr_val_reg_t p)) as [E|E]; rewrite E; cbn [andb]; [|by rewrite andb_false_r].
  rewrite number_t by done. by destruct (stall_lookup xt p w), (flowid_val_reg_t p), (flowid_manager_avail w).
Qed.

(** A connection is opened in a cycle in which no state is written. *)
Lemma alloc_alone : alloc_new_flowid_val_t xt p w = true → wr_val (iss_update i) = false.
Proof.
  unfold alloc_new_flowid_val_t. rewrite stall_lookup_eq. unfold want_new_flowid_t.
  by destruct (recv_hdr_val_reg_t p), (stall_issue xt p w), (flowid_val_reg_t p), (flowid_manager_avail w), (wr_val (iss_update i)).
Qed.

Lemma alloc_number :
  alloc_new_flowid_val_t xt p w = true →
  (length (d_table d) < MAX_FLOW_CNT)%nat ∧ flowid_manager_flowid w = Z.of_nat (length (d_table d)) ∧
  tag_of (recv_pkt_reg_t p) ∉ d_table d.
Proof.
  intros H. assert (Hv : recv_hdr_val_reg_t p = true ∧ flowid_val_reg_t p = false ∧ flowid_manager_avail w = true)
    by (revert H; unfold alloc_new_flowid_val_t, want_new_flowid_t;
        by destruct (recv_hdr_val_reg_t p), (flowid_val_reg_t p), (flowid_manager_avail w), (stall_lookup xt p w)).
  destruct Hv as (E & Ev & Ea). split_and!; [|by apply next_number|].
  - rewrite avail_eq in Ea. by apply Nat.ltb_lt.
  - destruct (j_t _ _ Hr E) as [Hv _]. rewrite Ev in Hv. symmetry in Hv. apply bool_decide_eq_false in Hv.
    apply index_None. destruct (index _ _); [|done]. by destruct Hv.
Qed.

(** The dispatcher after the cycle. *)
Abbreviation d' := (dispatch_all es d).

Lemma table_next :
  d_table d' = if alloc_new_flowid_val_t xt p w then d_table d ++ [tag_of (recv_pkt_reg_t p)] else d_table d.
Proof.
  rewrite alloc_eq. unfold cycle_events. fold enters_i. unfold enter.
  destruct (recv_hdr_val_reg_i p && _), enters_i, (wr_val (iss_update i)); cbn; try done; unfold enter; by case_match.
Qed.

Lemma d_queue_next :
  d_queue d' = (if recv_hdr_val_reg_i p && negb (stall_issue xt p w) then tail (d_queue d) else d_queue d) ++
               (if enters_i then option_list (number (d_table d) (recv_pkt_reg_t p)) else []).
Proof.
  unfold cycle_events. fold enters_i.
  by destruct (recv_hdr_val_reg_i p && _), enters_i, (wr_val (iss_update i)); cbn; rewrite ?app_nil_r.
Qed.

Lemma states_next :
  d_state d' =
  let st := if enters_i && opened (number (d_table d) (recv_pkt_reg_t p))
            then <[Z.of_nat (length (d_table d)) := TCP_NONE]> (d_state d) else d_state d in
  if wr_val (iss_update i) then <[wr_addr (iss_update i) := wr_dat (iss_update i)]> st else st.
Proof.
  unfold cycle_events. fold enters_i.
  destruct (recv_hdr_val_reg_i p && _), enters_i, (wr_val (iss_update i)); cbn; by destruct (opened (number (d_table d) (recv_pkt_reg_t p))).
Qed.

Lemma state_next f :
  d_state d' f =
  let t := tcp_state_wr_t xt p w in if wr_val t && (wr_addr t =? f) then wr_dat t else d_state d f.
Proof.
  rewrite states_next. pose proof alloc_alone as Hal. pose proof alloc_number as Han.
  unfold tcp_state_wr_t, alloc_new_flowid_data_t. cbn [wr_val wr_addr wr_dat update_tcp_state issue_wires].
  rewrite alloc_eq in *. destruct (wr_val (iss_update i)), (enters_i && opened (number (d_table d) (recv_pkt_reg_t p))); cbn [orb andb];
    [by specialize (Hal eq_refl)| |destruct (Han eq_refl) as (_ & -> & _)|done];
    (match goal with |- context [?a =? f] => destruct (Z.eqb_spec a f) as [->|Hne] end;
       [apply fn_lookup_insert|by apply fn_lookup_insert_ne]).
Qed.

(** *** Its parts after the cycle *)

Lemma length_next : (length (d_table d) ≤ length (d_table d') ≤ MAX_FLOW_CNT)%nat.
Proof.
  rewrite table_next. destruct (alloc_new_flowid_val_t xt p w) eqn:E.
  - destruct (alloc_number E) as (H & _). rewrite length_app. cbn [length]. lia.
  - split; [done|]. apply (j_numbers _ _ Hr).
Qed.

Lemma cam_next : cam_rel (addr_to_flowid (issue_pipe s')) (d_table d').
Proof.
  rewrite table_next. cbn [issue_pipe c_next rx_issue issue_next addr_to_flowid].
  pose proof alloc_number as Hn. destruct (alloc_new_flowid_val_t xt p w) eqn:E.
  - destruct (Hn eq_refl) as (Hlt & Hnum & _).
    refine (cam_add _ _ (addr_to_flowid_wr xt p w) (j_cam _ _ Hr) _ _ eq_refl Hnum).
    + by rewrite (j_size _ _ Hr).
    + rewrite (j_size _ _ Hr). intros n Hlt'. cbn [w_v_i addr_to_flowid_wr clear_flowid_val issue_wires].
      rewrite E. unfold alloc_new_flowid_data_t. rewrite Hnum, one_hot_bit; [|unfold flow_ok; lia|done].
      by rewrite Nat2Z.id.
  - apply cam_keep, Hr. cbn [w_v_i addr_to_flowid_wr clear_flowid_val issue_wires]. rewrite E.
    unfold one_hot. by rewrite Z.shiftl_0_l.
Qed.

Lemma numbers_next : numbers_rel (issue_flowids s') (length (d_table d')).
Proof.
  rewrite table_next.
  destruct (numbers_simulates _ _ (manager_in (alloc_new_flowid_val_t xt p w)) (j_numbers _ _ Hr)) as [_ H].
  { split; [done|]. cbn [flowid_req manager_in]. intros E. by apply alloc_number. }
  cbn [sp_next numbers_spec flowid_req manager_in] in H.
  cbn [issue_flowids c_next rx_issue issue_flowid_req issue_shows].
  destruct (alloc_new_flowid_val_t xt p w); [|exact H]. rewrite length_app. cbn [length].
  rewrite Nat.add_1_r. exact H.
Qed.

Lemma nodup_next : NoDup (d_table d').
Proof.
  rewrite table_next. destruct (alloc_new_flowid_val_t xt p w) eqn:E; [|apply Hr].
  destruct (alloc_number E) as (_ & _ & Hni). apply NoDup_app. split; [apply Hr|].
  split; [set_solver|apply NoDup_singleton].
Qed.

Lemma t_next :
  recv_hdr_val_reg_t (issue_pipe s') = true →
  let r := index (tag_of (recv_pkt_reg_t (issue_pipe s'))) (d_table d') in
  flowid_val_reg_t (issue_pipe s') = bool_decide (is_Some r) ∧ ∀ n, r = Some n → flowid_reg_t (issue_pipe s') = Z.of_nat n.
Proof.
  pose proof nodup_next as Hd. rewrite table_next in *. pose proof alloc_number as Han.
  cbn [issue_pipe c_next rx_issue issue_next recv_hdr_val_reg_t recv_pkt_reg_t flowid_val_reg_t flowid_reg_t].
  destruct (stall_lookup xt p w) eqn:Est; cbn [negb].
  - unfold alloc_new_flowid_val_t. rewrite Est. apply Hr.
  - intros Ef. destruct (cam_reads _ _ (tag_of (recv_pkt_reg_f p)) (j_cam _ _ Hr) (j_nodup _ _ Hr)) as [C1 C2].
    unfold flowid_val_next_t, flowid_next_t, flowid_byp_val_f. rewrite Ef. cbn [andb].
    destruct (alloc_new_flowid_val_t xt p w) eqn:E.
    + assert (recv_hdr_val_reg_t p = true) as ->.
      { revert E. unfold alloc_new_flowid_val_t, want_new_flowid_t. destruct (recv_hdr_val_reg_t p); [done|].
        by rewrite andb_false_r. }
      destruct (Han eq_refl) as (_ & Hnum & Hni). rewrite index_snoc by done. cbn [andb].
      unfold alloc_new_flowid_tag_t, alloc_new_flowid_data_t.
      destruct (decide (tag_of (recv_pkt_reg_f p) = tag_of (recv_pkt_reg_t p))) as [->|Hne].
      * rewrite bool_decide_eq_true_2 by done. apply index_None in Hni. rewrite Hni.
        split; [by rewrite bool_decide_eq_true_2 by eauto|]. by intros n [= <-].
      * rewrite bool_decide_eq_false_2 by congruence. destruct (index _ _) as [n|].
        -- rewrite C1. split; [done|exact C2].
        -- by rewrite C1.
    + rewrite andb_false_r. cbn [andb]. split; [exact C1|exact C2].
Qed.

Lemma queue_rel : d_queue d' = in_i (issue_pipe s').
Proof.
  rewrite d_queue_next, (j_queue _ _ Hr). unfold in_i, enters_i. pose proof number_t as Hn.
  cbn [issue_pipe c_next rx_issue issue_next recv_hdr_val_reg_i recv_pkt_reg_i recv_flowid_reg_i recv_new_flow_reg_i].
  assert (Hsi : stall_issue xt p w = true → recv_hdr_val_reg_i p = true)
    by (rewrite stall_issue_eq; by destruct (recv_hdr_val_reg_i p)).
  assert (Hst : recv_hdr_val_reg_t p = true → stall_issue xt p w = true → stall_lookup xt p w = true)
    by (intros E1 E2; by rewrite stall_lookup_eq, E1, E2).
  unfold bubble_lookup, drop_hdr_t, alloc_new_flowid_val_t, want_new_flowid_t, alloc_new_flowid_data_t.
  destruct (stall_issue xt p w); cbn [negb].
  - rewrite Hsi by done. destruct (recv_hdr_val_reg_t p); cbn [andb orb negb when option_list app tail]; [|done]. by rewrite Hst.
  - destruct (recv_hdr_val_reg_t p), (stall_lookup xt p w); cbn [andb orb negb when option_list app tail]; rewrite ?andb_false_r, ?app_nil_r;
      try (by destruct (recv_hdr_val_reg_i p)).
    rewrite Hn by done. destruct (flowid_val_reg_t p), (flowid_manager_avail w); by destruct (recv_hdr_val_reg_i p).
Qed.

Lemma t_number :
  recv_hdr_val_reg_t p = true → flowid_val_reg_t p = true → 0 ≤ flowid_reg_t p < Z.of_nat (length (d_table d)).
Proof.
  intros E Ev. destruct (j_t _ _ Hr E) as [Hv Hn]. rewrite Ev in Hv. symmetry in Hv.
  apply bool_decide_eq_true in Hv as [n Hi]. rewrite (Hn n Hi). apply index_Some in Hi; [|apply Hr].
  apply lookup_lt_Some in Hi. lia.
Qed.

Lemma alloc_next :
  recv_hdr_val_reg_i (issue_pipe s') = true →
  alloc_new_flowid_reg_i (issue_pipe s') = recv_new_flow_reg_i (issue_pipe s') ∧
  0 ≤ recv_flowid_reg_i (issue_pipe s') < Z.of_nat (length (d_table d')).
Proof.
  pose proof length_next as Hlen. pose proof (j_alloc _ _ Hr) as Ha. pose proof t_number as Ht. pose proof alloc_number as Han.
  rewrite table_next in *. revert Hlen Han.
  cbn [issue_pipe c_next rx_issue issue_next recv_hdr_val_reg_i alloc_new_flowid_reg_i recv_flowid_reg_i recv_new_flow_reg_i].
  unfold bubble_lookup, drop_hdr_t, alloc_new_flowid_val_t, want_new_flowid_t, alloc_new_flowid_data_t.
  destruct (stall_issue xt p w); cbn [negb].
  - intros Hlen _ E. destruct (Ha E). split; [done|]. lia.
  - destruct (recv_hdr_val_reg_t p), (stall_lookup xt p w), (flowid_val_reg_t p); cbn [andb orb negb]; try done.
    + intros _ _ _. split; [done|]. by apply Ht.
    + destruct (flowid_manager_avail w); cbn [andb orb negb]; [|done]. intros _ Han _. destruct (Han eq_refl) as (_ & -> & _).
      split; [done|]. rewrite length_app. cbn. lia.
Qed.

Lemma state_wr_ok : wr_val (tcp_state_wr_t xt p w) = true → flow_ok (wr_addr (tcp_state_wr_t xt p w)).
Proof.
  unfold tcp_state_wr_t, alloc_new_flowid_data_t. cbn [wr_val wr_addr update_tcp_state issue_wires].
  pose proof (o_update _ Hok) as Hu. pose proof alloc_number as Han. destruct (wr_val (iss_update i)); [auto|].
  cbn [orb]. intros E. destruct (Han E) as (H & -> & _). unfold flow_ok. lia.
Qed.

Lemma mem_next :
  let q := issue_pipe s' in
  ram_rel (port0 (tcp_state_mem q)) (RamView (contents2 (tcp_state_mem q))
    (if recv_hdr_val_reg_i q && negb (recv_new_flow_reg_i q) then Some (recv_flowid_reg_i q) else None)).
Proof.
  cbn zeta. pose proof (j_numbers _ _ Hr) as (_ & Hle & _). pose proof t_number as Ht.
  pose proof (port0_step TCP_NONE (tcp_state_wr_t xt p w) (tcp_state_rd_t xt p w) (iss_fsm_rd i) _ _ (j_mem _ _ Hr)) as H.
  match goal with |- ram_rel _ (RamView _ ?a) => replace a with
    (reads_next (if recv_hdr_val_reg_i p && negb (recv_new_flow_reg_i p) then Some (recv_flowid_reg_i p) else None)
       (tcp_state_rd_t xt p w)) end.
  - apply H.
    + intros E. apply sized_in_range; [apply Hr|]. by apply state_wr_ok.
    + intros E. apply sized_in_range; [apply Hr|]. cbn [rd_val rd_addr tcp_state_rd_t] in *.
      rewrite !andb_true_iff in E. destruct E as [[E1 E2] _]. specialize (Ht E1 E2). unfold flow_ok. lia.
  - unfold reads_next. cbn [rd_val rd_addr rd_resp_rdy tcp_state_rd_t].
    cbn [issue_pipe c_next rx_issue issue_next recv_hdr_val_reg_i recv_flowid_reg_i recv_new_flow_reg_i].
    assert (Hst : stall_issue xt p w = true → recv_hdr_val_reg_t p = true → stall_lookup xt p w = true)
      by (intros E1 E2; by rewrite stall_lookup_eq, E1, E2).
    unfold bubble_lookup, drop_hdr_t, alloc_new_flowid_val_t, want_new_flowid_t.
    destruct (stall_issue xt p w); cbn [negb orb].
    + destruct (recv_hdr_val_reg_t p); [rewrite Hst by done|]; cbn [andb negb]; rewrite ?andb_false_r;
        by destruct (recv_hdr_val_reg_i p && negb (recv_new_flow_reg_i p)).
    + by destruct (recv_hdr_val_reg_t p), (stall_lookup xt p w), (flowid_val_reg_t p), (flowid_manager_avail w).
Qed.

Lemma issue_rel_next : issue_rel s' d'.
Proof.
  pose proof (j_sized _ _ Hr) as Hs. split.
  - exact cam_next.
  - cbn [issue_pipe c_next rx_issue issue_next addr_to_flowid]. rewrite cam_size. apply Hr.
  - exact nodup_next.
  - exact numbers_next.
  - exact t_next.
  - exact queue_rel.
  - exact alloc_next.
  - exact mem_next.
  - apply sized_written, Hs.
  - intros f Hf. pose proof length_next as Hlen.
    cbn [issue_pipe c_next rx_issue issue_next tcp_state_mem]. rewrite contents2_written.
    rewrite written_lookup; [|done|unfold flow_ok; lia|apply state_wr_ok]. rewrite state_next by lia. cbn zeta.
    destruct (wr_val _ && _) eqn:E; [done|]. apply (j_state _ _ Hr). rewrite table_next in Hf.
    destruct (alloc_new_flowid_val_t xt p w) eqn:Ea; [|done]. destruct (alloc_number Ea) as (_ & Hnum & _).
    pose proof (alloc_alone Ea) as Hu. revert E. unfold tcp_state_wr_t, alloc_new_flowid_data_t.
    cbn [wr_val wr_addr update_tcp_state issue_wires]. rewrite Hu, Ea, Hnum. cbn [orb andb]. rewrite Z.eqb_neq.
    rewrite length_app in Hf. cbn [length] in Hf. lia.
Qed.
End Cycle.

(** ** Runs *)

Fixpoint issue_events (ins : list issue_sys_in) (s : issue_sys) : list issue_event :=
  match ins with [] => [] | i :: ins' => cycle_events s i ++ issue_events ins' (c_next (rx_issue xt) false i s) end.

Definition all_taken (ins : list issue_sys_in) (outs : list issue_out) : list issue_pkt :=
  concat (zip_with issue_taken ins outs).

Lemma entered_app es es' : entered (es ++ es') = entered es ++ entered es'.
Proof. apply omap_app. Qed.

Lemma issue_run ins s d :
  issue_rel s d → Forall issue_ok ins →
  let s1 := after_cycles (rx_issue xt) ins s in let outs := outputs (rx_issue xt) ins s in
  let es := issue_events ins s in
  issue_rel s1 (dispatch_all es d) ∧ outs ≫= issue_sent = to_wire <$> sends es d ∧
  entered es ++ waiting (issue_pipe s1) = waiting (issue_pipe s) ++ all_taken ins outs.
Proof.
  intros Hr Hok. revert s d Hr. induction Hok as [|i ins Hi _ IH]; intros s d Hr.
  { split_and!; [done..|]. cbn. by rewrite app_nil_r. }
  destruct (IH _ _ (issue_rel_next s d i Hr Hi)) as (I1 & I2 & I3). cbn zeta in *.
  cbn [issue_events outputs]. rewrite dispatch_all_app, sends_app, fmap_app, entered_app. split_and!.
  - exact I1.
  - cbn [mbind list_bind]. by rewrite (wires_sent s d i Hr), <- I2.
  - unfold all_taken in *. cbn [zip_with concat]. rewrite <- app_assoc.
    change (after_cycles (rx_issue xt) (i :: ins) s) with (after_cycles (rx_issue xt) ins (c_next (rx_issue xt) false i s)).
    by rewrite I3, app_assoc, issue_waiting_next, <- app_assoc.
Qed.

Lemma updates_run ins s :
  updates (issue_events ins s) = ins ≫= λ i, when (wr_val (iss_update i)) (wr_addr (iss_update i), wr_dat (iss_update i)).
Proof.
  revert s. induction ins as [|i ins IH]; intros s; [done|]. cbn [issue_events mbind list_bind]. unfold updates in *.
  rewrite omap_app, IH. f_equal. unfold cycle_events.
  by destruct (recv_hdr_val_reg_i _ && _), (recv_hdr_val_reg_t _ && _), (wr_val _).
Qed.

(** The memories have an entry per connection. *)
Definition issue_sized (s : issue_sys) : Prop :=
  length (cam_tag_array (addr_to_flowid (issue_pipe s))) = MAX_FLOW_CNT ∧
  length (one_hot_mem (addr_to_flowid (issue_pipe s))) = MAX_FLOW_CNT ∧
  length (contents2 (tcp_state_mem (issue_pipe s))) = MAX_FLOW_CNT ∧
  Z.of_nat (length (contents (fifo_mem (reclaimed_flowids (issue_flowids s))))) = slots flow_log2.

Lemma issue_reset i0 s :
  issue_sized s → issue_rel (c_next (rx_issue xt) true i0 s) no_connections.
Proof.
  intros (H1 & H2 & H3 & H4). split; try done.
  - apply cam_reset. by rewrite H1, H2.
  - cbn [issue_pipe c_next rx_issue issue_next addr_to_flowid]. by rewrite cam_size.
  - constructor.
  - split; [by apply fifo_reset|]. split; [cbn; lia|]. split; [done|]. by right.
  - apply sized_written, H3.
  - intros f Hf. cbn in Hf. lia.
Qed.

(** C17: the receive pipeline finds the connections.  In any run from a reset on,
    whatever the memories held, the pipelines stall and the handshake writes,
    the packets taken are numbered one at a time, in their order, and what is
    sent is what the dispatcher sends: each packet with the number of its
    connection, to the pipeline of the established ones exactly when the last
    state written for the connection before it leaves is [TCP_EST] and it has no
    flag but ACK and PSH, to the handshake otherwise; the states are those the
    handshake wrote, in its order. *)
Theorem rx_issue_sequential i0 s ins :
  issue_sized s → Forall issue_ok ins →
  let s0 := c_next (rx_issue xt) true i0 s in let s1 := after_cycles (rx_issue xt) ins s0 in
  let outs := outputs (rx_issue xt) ins s0 in let es := issue_events ins s0 in
  entered es ++ waiting (issue_pipe s1) = all_taken ins outs ∧
  updates es = ins ≫= (λ i, when (wr_val (iss_update i)) (wr_addr (iss_update i), wr_dat (iss_update i))) ∧
  outs ≫= issue_sent = to_wire <$> sends es no_connections ∧
  d_queue (dispatch_all es no_connections) = in_i (issue_pipe s1).
Proof.
  intros Hs Hok s0 s1 outs es. destruct (issue_run ins s0 _ (issue_reset i0 s Hs) Hok) as (H1 & H2 & H3).
  split_and!; [exact H3|apply updates_run|exact H2|apply H1].
Qed.

(** ** Nothing stays *)

Record quiet (i : issue_sys_in) : Prop := {
  u_none : iss_hdr_val i = false;
  u_update : wr_val (iss_update i) = false;
  u_est : iss_est_rdy i = true;
  u_fsm : iss_fsm_rdy i = true }.

(** With both pipelines ready, the packets move on. *)
Lemma quiet_next s d i :
  issue_rel s d → quiet i →
  let p := issue_pipe s in let p' := issue_pipe (c_next (rx_issue xt) false i s) in
  recv_hdr_val_reg_f p' = false ∧ recv_hdr_val_reg_t p' = recv_hdr_val_reg_f p ∧
  (recv_hdr_val_reg_t p = false → recv_hdr_val_reg_i p' = false).
Proof.
  intros Hr [Hv Hu He Hf] p p'. unfold p', p.
  assert (Hsi : stall_issue xt (issue_pipe s) (issue_wires s i) = false).
  { rewrite (stall_issue_eq s d i Hr), He, Hf. case_decide; apply andb_false_r. }
  assert (Hst : stall_lookup xt (issue_pipe s) (issue_wires s i) = false).
  { rewrite (stall_lookup_eq s i), Hsi, Hu. by rewrite !andb_false_r. }
  cbn [issue_pipe c_next rx_issue issue_next recv_hdr_val_reg_f recv_hdr_val_reg_t recv_hdr_val_reg_i].
  unfold stall_flowid. rewrite Hsi, Hst, andb_false_r. cbn [recv_tcp_hdr_val issue_wires negb].
  split_and!; [done..|]. intros ->. apply andb_false_r.
Qed.

Lemma quiet_run qs s d :
  issue_rel s d → Forall issue_ok qs → Forall quiet qs → length qs = 3%nat →
  let s1 := after_cycles (rx_issue xt) qs s in waiting (issue_pipe s1) = [] ∧ in_i (issue_pipe s1) = [].
Proof.
  intros Hr Hok Hq Hl. destruct qs as [|q1 [|q2 [|q3 [|]]]]; try done. clear Hl.
  apply Forall_cons in Hok as [O1 Hok]. apply Forall_cons in Hok as [O2 _].
  apply Forall_cons in Hq as [Q1 Hq]. apply Forall_cons in Hq as [Q2 Hq]. apply Forall_cons in Hq as [Q3 _].
  pose proof (issue_rel_next s d q1 Hr O1) as R1. pose proof (issue_rel_next _ _ q2 R1 O2) as R2.
  destruct (quiet_next _ _ _ Hr Q1) as (F1 & _). destruct (quiet_next _ _ _ R1 Q2) as (F2 & T2 & _).
  destruct (quiet_next _ _ _ R2 Q3) as (F3 & T3 & I3). cbn zeta in *.
  unfold waiting, in_i. cbn [after_cycles fold_left]. rewrite T3, F2, F3, I3; [done|]. by rewrite T2.
Qed.

(** The places of the connections do not change. *)
Lemma numbered_places tbl ps :
  NoDup tbl → NoDup (fold_left enter ps tbl) ∧
  (∀ n t, tbl !! n = Some t → fold_left enter ps tbl !! n = Some t) ∧
  ∀ x, x ∈ numbered_from tbl ps → fold_left enter ps tbl !! Z.to_nat (is_flowid x) = Some (tag_of (is_pkt x)).
Proof.
  revert tbl. induction ps as [|p ps IH]; intros tbl Hd.
  { cbn. split_and!; [done..|]. intros x []%not_elem_of_nil. }
  destruct (IH _ (enter_NoDup tbl p Hd)) as (I1 & I2 & I3). cbn [fold_left numbered_from]. split_and!; [done|..].
  - intros n t H. apply I2. unfold enter. destruct (opened _); [by apply lookup_app_l_Some|done].
  - intros x [Hx|Hx]%elem_of_app; [|by apply I3]. destruct (number tbl p) as [y|] eqn:E; [|by apply not_elem_of_nil in Hx].
    apply list_elem_of_singleton in Hx as ->. destruct (number_enter tbl p y Hd E) as (-> & _ & Hy & _). by apply I2.
Qed.

(** C18: every packet finds its connection.  Once nothing comes in and both
    pipelines are ready for three cycles, every packet taken since the reset has
    been sent, in their order, with the number of its connection, except those
    that found no number left: the first sixteen pairs of addresses that came
    have the numbers 0 to 15, each its own, a packet is marked as new exactly if
    it is the first of its addresses, and the packets of other addresses are
    dropped. *)
Theorem rx_issue_delivers i0 s ins qs :
  issue_sized s → Forall issue_ok (ins ++ qs) → Forall quiet qs → length qs = 3%nat →
  let s0 := c_next (rx_issue xt) true i0 s in
  let outs := outputs (rx_issue xt) (ins ++ qs) s0 in let ps := all_taken (ins ++ qs) outs in
  let tbl := fold_left enter ps [] in
  ∃ rs, outs ≫= issue_sent = to_wire <$> rs ∧ rs.*2 = numbered_from [] ps ∧
    NoDup tbl ∧ ∀ x, x ∈ rs.*2 → tbl !! Z.to_nat (is_flowid x) = Some (tag_of (is_pkt x)).
Proof.
  intros Hs Hok Hq Hl s0 outs ps tbl. pose proof (issue_reset i0 s Hs) as H0. fold s0 in H0.
  destruct (issue_run _ s0 _ H0 Hok) as (H1 & H2 & H3). cbn zeta in *. fold outs in H2, H3.
  apply Forall_app in Hok as [Ok1 Ok2]. destruct (issue_run _ s0 _ H0 Ok1) as (R1 & _).
  destruct (quiet_run qs _ _ R1 Ok2 Hq Hl) as [W I].
  assert (E : after_cycles (rx_issue xt) (ins ++ qs) s0 = after_cycles (rx_issue xt) qs (after_cycles (rx_issue xt) ins s0))
    by apply fold_left_app.
  rewrite E, W, app_nil_r in H3. change (waiting (issue_pipe s0)) with (@nil issue_pkt) in H3. cbn [app] in H3.
  exists (sends (issue_events (ins ++ qs) s0) no_connections).
  pose proof (sends_numbered (issue_events (ins ++ qs) s0) no_connections) as Hn.
  rewrite (j_queue _ _ H1), E, I, app_nil_r, H3 in Hn. cbn [d_queue no_connections app d_table] in Hn.
  destruct (numbered_places [] ps NoDup_nil_2) as (P1 & _ & P3).
  split_and!; [exact H2|exact Hn|exact P1|]. intros x Hx. apply P3. unfold ps. by rewrite <- Hn.
Qed.
End Sequential.

(** ** Concrete runs *)

Definition junk_issue : issue_sys :=
  {| issue_pipe :=
       {| recv_hdr_val_reg_f := true; recv_pkt_reg_f := zero_issue_pkt; recv_hdr_val_reg_t := true;
          recv_pkt_reg_t := zero_issue_pkt; flowid_val_reg_t := false; flowid_reg_t := 3;
          recv_hdr_val_reg_i := true; recv_pkt_reg_i := zero_issue_pkt; recv_new_flow_reg_i := false;
          recv_flowid_reg_i := 7; alloc_new_flowid_reg_i := true;
          addr_to_flowid := Cam (replicate 16 (TagEntry true (FourTuple 1 2 3 4))) (replicate 16 9);
          tcp_state_mem := junk_ram2 TCP_EST |};
     issue_flowids := junk_flowids |}.

(** A packet to port 80 of host 1 from [port] of host 2. *)
Definition pkt_from (port fl : Z) (payload : bool) : issue_pkt :=
  IssuePkt 2 1 (TcpPktHdr port 80 100 200 5 0 fl 4096 0 0) payload (PayloadBuf 64 10).
Definition issue_cycle (pkt : option issue_pkt) (upd : option (Z * tcp_flow_state_e)) (est fsm : bool) : issue_sys_in :=
  {| iss_hdr_val := bool_decide (is_Some pkt);
     iss_pkt := default zero_issue_pkt pkt;
     iss_update := match upd with Some (f, st) => WrReq true f st | None => WrReq false 0 TCP_NONE end;
     iss_fsm_rd := no_rd; iss_est_rdy := est; iss_fsm_rdy := fsm |}.
Definition issue_idle : issue_sys_in := issue_cycle None None true true.

(** Two connections are opened, the second by two packets in a row; the first is
    established while its next packet waits; that packet is offered again when the
    pipeline does not take it, in the cycle in which the state is written. *)
Definition issue_ins : list issue_sys_in :=
  [issue_cycle (Some (pkt_from 1000 FLAG_SYN false)) None true true;
   issue_cycle (Some (pkt_from 2000 FLAG_SYN false)) None true true;
   issue_cycle (Some (pkt_from 2000 FLAG_SYN false)) None true true;
   issue_cycle (Some (pkt_from 1000 FLAG_ACK true)) (Some (0, TCP_SYN_RECV)) true true;
   issue_cycle (Some (pkt_from 1000 FLAG_ACK true)) None true true;
   issue_cycle None None true false;
   issue_cycle None (Some (0, TCP_EST)) true false;
   issue_cycle None None false true].

Definition issue_okb (i : issue_sys_in) : bool :=
  implb (wr_val (iss_update i)) (flow_okb (wr_addr (iss_update i))) &&
  implb (rd_val (iss_fsm_rd i)) (flow_okb (rd_addr (iss_fsm_rd i))).
Lemma issue_okb_ok ins : forallb issue_okb ins = true → Forall issue_ok ins.
Proof.
  rewrite forallb_forall, Forall_forall. intros H i Hi. apply list_elem_of_In, H in Hi.
  unfold issue_okb in Hi. apply andb_true_iff in Hi as [H1 H2].
  split; intros E; apply flow_okb_ok; by eapply implb_ok.
Qed.

Lemma junk_issue_sized : issue_sized junk_issue.
Proof. repeat split. Qed.

Definition issue_start : issue_sys := c_next (rx_issue TCP_UND) true issue_idle junk_issue.
(** The pipeline, the number, whether the packet is new, and its port. *)
Definition wire_summary (o : est_pkt + fsm_pkt) : route_e * Z * bool * Z :=
  match o with
  | inl e => (EST_PIPE, est_flowid e, false, src_port (est_tcp_hdr e))
  | inr f => (FSM_PIPE, fsm_flowid f, fsm_new_flow f, src_port (fsm_tcp_hdr f))
  end.

Lemma rx_issue_sequential_witness :
  let outs := outputs (rx_issue TCP_UND) issue_ins issue_start in
  outs ≫= issue_sent = to_wire <$> sends (issue_events TCP_UND issue_ins issue_start) no_connections ∧
  wire_summary <$> (outs ≫= issue_sent) = [(FSM_PIPE, 0, true, 1000); (FSM_PIPE, 1, true, 2000)].
Proof.
  split; [|vm_compute; reflexivity].
  exact (proj1 (proj2 (proj2 (rx_issue_sequential TCP_UND issue_idle junk_issue issue_ins junk_issue_sized
    (issue_okb_ok issue_ins eq_refl))))).
Defined.

Lemma rx_issue_delivers_witness :
  let outs := outputs (rx_issue TCP_UND) (issue_ins ++ replicate 3 issue_idle) issue_start in
  (∃ rs, outs ≫= issue_sent = to_wire <$> rs ∧
    rs.*2 = numbered_from [] (all_taken (issue_ins ++ replicate 3 issue_idle) outs)) ∧
  wire_summary <$> (outs ≫= issue_sent) =
    [(FSM_PIPE, 0, true, 1000); (FSM_PIPE, 1, true, 2000); (FSM_PIPE, 1, false, 2000); (EST_PIPE, 0, false, 1000)].
Proof.
  split; [|vm_compute; reflexivity].
  destruct (rx_issue_delivers TCP_UND issue_idle junk_issue issue_ins (replicate 3 issue_idle) junk_issue_sized
    (issue_okb_ok (issue_ins ++ replicate 3 issue_idle) eq_refl)) as (rs & H1 & H2 & _).
  - repeat constructor.
  - reflexivity.
  - exists rs. split; [exact H1|exact H2].
Defined.

(** The packet of a seventeenth connection is taken and goes nowhere, and its
    payload with it: nothing tells the buffer to free it. *)
Lemma seventeenth_dropped :
  let ins := (λ n, issue_cycle (Some (pkt_from (1000 + Z.of_nat n) FLAG_SYN true)) None true true) <$> List.seq 0 17 in
  let outs := outputs (rx_issue TCP_UND) (ins ++ replicate 3 issue_idle) issue_start in
  length (all_taken (ins ++ replicate 3 issue_idle) outs) = 17%nat ∧
  (λ o, (wire_summary o).1.1.2) <$> (outs ≫= issue_sent) = Z.of_nat <$> List.seq 0 16.
Proof. vm_compute. by split. Qed.
