(* ===== verification/TmpBuf.v ===== *)
(** TmpBuf: recv_pipe/tcp_tmp_rx_buf_wrap.sv with its control and its datapath:
    the buffer in which the payload of a packet waits, in a slab of its own,
    while the engine decides on the packet. *)

From S2P Require Import Prelude SocDefs Rtl Fifo SlabAlloc TcpPkg FlowStores IssuePipe.

(** ** Sizes, of include/common/noc_defs.vh and tcp_pkg *)

Definition NOC_DATA_BYTES : Z := 64.
Definition RX_TMP_BUF_NUM_SLABS : Z := 10.
Definition RX_TMP_BUF_SLAB_BYTES : Z := 2048.
Definition RX_TMP_BUF_ADDR_W : Z := 15.
Definition RX_TMP_BUF_MEM_ELS : Z := 320.
Definition RX_TMP_BUF_MEM_ADDR_W : Z := 9.
Definition TOT_LEN_W : Z := 16.

Definition tmp_addr (x : Z) : Z := x mod 2 ^ RX_TMP_BUF_ADDR_W.

(** ** The module *)

Inductive tmp_state_e := TMP_READY | TMP_DATA_COPY | TMP_OUTPUT.

(** What is loaded of a packet. *)
Record tmp_hdr := TmpHdr { th_src_ip : Z; th_dst_ip : Z; th_payload_len : Z; th_tcp_hdr : tcp_pkt_hdr }.
Definition zero_tmp_hdr : tmp_hdr := TmpHdr 0 0 0 zero_hdr.

Record tmp_buf := TmpBufRegs {
  tmp_state_reg : tmp_state_e;
  payload_bytes_rem_reg : Z;
  tmp_hdr_reg : tmp_hdr;
  alloc_addr_reg : Z;
  write_addr_reg : Z;
  rx_buf_alloc : slab_alloc;
  rx_tmp_buf_ram : ram Z }.

(** A packet and the lines of its payload come in; the reads and the frees of
    the engine that copies. *)
Record tmp_in := TmpIn {
  ti_hdr_val : bool;
  ti_hdr : tmp_hdr;
  ti_data_val : bool;
  ti_data : Z;
  ti_data_last : bool;
  ti_data_padbytes : Z;
  ti_dst_rdy : bool;
  ti_rd : rd_req_in;
  ti_free_val : bool;
  ti_free_addr : Z }.

Record tmp_out := TmpOut {
  to_hdr_rdy : bool;
  to_data_rdy : bool;
  to_pkt : option issue_pkt;
  to_rd_req_rdy : bool;
  to_rd_resp_val : bool;
  to_rd_resp_data : option Z;
  to_free_rdy : bool }.

(** What the control does with a cycle. *)
Record tmp_ctrl := TmpCtrl {
  tc_hdr_rdy : bool;
  tc_data_rdy : bool;
  load_hdr_state : bool;
  store_entry_addr : bool;
  incr_store_addr : bool;
  tmp_buf_alloc_slab_consume_val : bool;
  tmp_buf_buf_store_val : bool;
  tmp_buf_dst_rx_hdr_val : bool;
  payload_bytes_rem_next : Z;
  tmp_state_next : tmp_state_e }.

Definition tmp_control (s : tmp_buf) (alloc_error : bool) (i : tmp_in) : tmp_ctrl :=
  let len := th_payload_len (ti_hdr i) in let rem := payload_bytes_rem_reg s in
  match tmp_state_reg s with
  | TMP_READY =>
      if ti_hdr_val i then
        if len =? 0 then TmpCtrl true false true false false false false false len TMP_OUTPUT
        else if alloc_error then TmpCtrl false false true false false false false false len TMP_READY
        else TmpCtrl true false true true false true false false len TMP_DATA_COPY
      else TmpCtrl false false false false false false false false rem TMP_READY
  | TMP_DATA_COPY =>
      if ti_data_val i && wr_req_rdy then
        TmpCtrl false wr_req_rdy false false true false true false ((rem - NOC_DATA_BYTES) mod 2 ^ TOT_LEN_W)
          (if rem <=? NOC_DATA_BYTES then TMP_OUTPUT else TMP_DATA_COPY)
      else TmpCtrl false wr_req_rdy false false false false (ti_data_val i) false rem TMP_DATA_COPY
  | TMP_OUTPUT =>
      TmpCtrl false false false false false false false true rem (if ti_dst_rdy i then TMP_READY else TMP_OUTPUT)
  end.

(** The bytes of the padding are stored as zeros. *)
Definition data_mask (i : tmp_in) : Z :=
  Z.shiftl (Z.ones mac_interface_w) (if ti_data_last i then Z.shiftl (ti_data_padbytes i) 3 else 0) mod 2 ^ mac_interface_w.
Definition tmp_buf_buf_store_data (i : tmp_in) : Z := Z.land (ti_data i) (data_mask i).

Section TmpBuf.
Variable xz : Z.  (* what an undefined address is taken for *)

Abbreviation tracker := (slab_alloc_tracker RX_TMP_BUF_NUM_SLABS RX_TMP_BUF_SLAB_BYTES).

Definition tmp_slab_in (c : tmp_ctrl) (i : tmp_in) : slab_in :=
  SlabIn (ti_free_val i) (ti_free_addr i) (tmp_buf_alloc_slab_consume_val c).
Definition tmp_alloc (s : tmp_buf) : slab_out := c_out tracker (rx_buf_alloc s) (SlabIn false 0 false).
Definition tmp_control_of (s : tmp_buf) (i : tmp_in) : tmp_ctrl :=
  tmp_control s (alloc_slab_src_resp_error (tmp_alloc s)) i.

Definition tmp_ram_in (s : tmp_buf) (c : tmp_ctrl) (i : tmp_in) : ram_in Z :=
  mem1_in (WrReq (tmp_buf_buf_store_val c) (write_addr_reg s / MAC_INTERFACE_BYTES) (tmp_buf_buf_store_data i))
    (RdReq (rd_val (ti_rd i)) (rd_addr (ti_rd i) mod 2 ^ RX_TMP_BUF_MEM_ADDR_W) (rd_resp_rdy (ti_rd i))).

Definition tmp_next (rst : bool) (i : tmp_in) (s : tmp_buf) : tmp_buf :=
  let c := tmp_control_of s i in let addr := default xz (alloc_slab_src_resp_addr (tmp_alloc s)) in
  {| tmp_state_reg := if rst then TMP_READY else tmp_state_next c;
     payload_bytes_rem_reg := if rst then 0 else payload_bytes_rem_next c;
     tmp_hdr_reg := if rst then zero_tmp_hdr else if load_hdr_state c then ti_hdr i else tmp_hdr_reg s;
     alloc_addr_reg := if rst then 0 else if store_entry_addr c then addr else alloc_addr_reg s;
     write_addr_reg := if rst then 0 else if store_entry_addr c then addr
                       else if incr_store_addr c then tmp_addr (write_addr_reg s + NOC_DATA_BYTES) else write_addr_reg s;
     rx_buf_alloc := c_next tracker rst (tmp_slab_in c i) (rx_buf_alloc s);
     rx_tmp_buf_ram := ram_next 0 rst (tmp_ram_in s c i) (rx_tmp_buf_ram s) |}.

Definition tmp_pkt (s : tmp_buf) : issue_pkt :=
  let h := tmp_hdr_reg s in
  IssuePkt (th_src_ip h) (th_dst_ip h) (th_tcp_hdr h) (negb (th_payload_len h =? 0))
    (PayloadBuf (alloc_addr_reg s) (th_payload_len h)).

Definition tcp_tmp_rx_buf_wrap : circuit tmp_buf tmp_in tmp_out := Circuit
  (λ s i, let c := tmp_control_of s i in
     {| to_hdr_rdy := tc_hdr_rdy c; to_data_rdy := tc_data_rdy c;
        to_pkt := if tmp_buf_dst_rx_hdr_val c then Some (tmp_pkt s) else None;
        to_rd_req_rdy := rd_req_rdy (rx_tmp_buf_ram s) (tmp_ram_in s c i);
        to_rd_resp_val := rd_resp_val (rx_tmp_buf_ram s); to_rd_resp_data := rd_resp_data (rx_tmp_buf_ram s);
        to_free_rdy := free_slab_src_req_rdy (tmp_alloc s) |})
  tmp_next.

(** ** What it promises

    A packet at a time: [Filling] with the lines that have come, [Complete] when
    all have, in a slab if there are any.  [tv_held] are the slabs handed on and
    not freed, with their lines; [tv_pool] the free ones, in the order they will
    be taken; [tv_read] the line of the read in flight. *)

Inductive arriving :=
| Idle
| Filling (h : tmp_hdr) (slab : Z) (lines : list Z)
| Complete (h : tmp_hdr) (slab : option Z) (lines : list Z).

Record tmp_view := TmpView {
  tv_arriving : arriving;
  tv_pool : list Z;
  tv_held : gmap Z (list Z);
  tv_read : option Z }.

Definition bytes_of (lines : list Z) : Z := NOC_DATA_BYTES * Z.of_nat (length lines).

(** What goes on with a packet in a cycle. *)
Definition arriving_next (i : tmp_in) (v : tmp_view) : arriving :=
  match tv_arriving v with
  | Idle =>
      if ti_hdr_val i then
        if th_payload_len (ti_hdr i) =? 0 then Complete (ti_hdr i) None []
        else match tv_pool v with [] => Idle | a :: _ => Filling (ti_hdr i) a [] end
      else Idle
  | Filling h a ls =>
      if ti_data_val i then
        let ls' := ls ++ [tmp_buf_buf_store_data i] in
        if th_payload_len h <=? bytes_of ls' then Complete h (Some a) ls' else Filling h a ls'
      else Filling h a ls
  | Complete h a ls => if ti_dst_rdy i then Idle else Complete h a ls
  end.

Definition takes_pkt (i : tmp_in) (v : tmp_view) : bool :=
  match tv_arriving v with
  | Idle => ti_hdr_val i && ((th_payload_len (ti_hdr i) =? 0) || negb (bool_decide (tv_pool v = [])))
  | _ => false
  end.

Definition takes_slab (i : tmp_in) (v : tmp_view) : bool :=
  match tv_arriving v with
  | Idle => ti_hdr_val i && negb (th_payload_len (ti_hdr i) =? 0) && negb (bool_decide (tv_pool v = []))
  | _ => false
  end.

(** The slab handed on in a cycle. *)
Definition hands_on (i : tmp_in) (v : tmp_view) : option (Z * list Z) :=
  match tv_arriving v with
  | Complete _ (Some a) ls => if ti_dst_rdy i then Some (a, ls) else None
  | _ => None
  end.

Definition held_next (i : tmp_in) (v : tmp_view) : gmap Z (list Z) :=
  let m := if ti_free_val i then delete (ti_free_addr i) (tv_held v) else tv_held v in
  match hands_on i v with Some (a, ls) => <[a := ls]> m | None => m end.

Definition line_of (addr : Z) : Z := addr mod 2 ^ RX_TMP_BUF_MEM_ADDR_W.

Definition tmp_view_next (i : tmp_in) (v : tmp_view) : tmp_view :=
  {| tv_arriving := arriving_next i v;
     tv_pool := pool_next (SlabIn (ti_free_val i) (ti_free_addr i) (takes_slab i v)) (tv_pool v);
     tv_held := held_next i v;
     tv_read := reads_next (tv_read v) (RdReq (rd_val (ti_rd i)) (line_of (rd_addr (ti_rd i))) (rd_resp_rdy (ti_rd i))) |}.

(** The packet shown for one that is complete. *)
Definition shown_pkt (h : tmp_hdr) (slab : option Z) (p : issue_pkt) : Prop :=
  ∃ a, p = IssuePkt (th_src_ip h) (th_dst_ip h) (th_tcp_hdr h) (bool_decide (is_Some slab)) (PayloadBuf a (th_payload_len h)) ∧
  ∀ a', slab = Some a' → a = a'.

(** A payload fits into a slab; only slabs handed on are freed; reads are in the
    memory. *)
Definition tmp_spec : spec tmp_view tmp_in tmp_out := {|
  sp_legal v i :=
    (ti_hdr_val i = true → 0 ≤ th_payload_len (ti_hdr i) ≤ RX_TMP_BUF_SLAB_BYTES) ∧
    (ti_free_val i = true → is_Some (tv_held v !! ti_free_addr i)) ∧
    (rd_val (ti_rd i) = true → line_of (rd_addr (ti_rd i)) < RX_TMP_BUF_MEM_ELS);
  sp_shows v i o :=
    to_hdr_rdy o = takes_pkt i v ∧
    to_data_rdy o = match tv_arriving v with Filling _ _ _ => true | _ => false end ∧
    match tv_arriving v with
    | Complete h a _ => ∃ p, to_pkt o = Some p ∧ shown_pkt h a p
    | _ => to_pkt o = None
    end ∧
    to_rd_req_rdy o = rd_resp_rdy (ti_rd i) || bool_decide (tv_read v = None) ∧
    to_rd_resp_val o = bool_decide (is_Some (tv_read v)) ∧
    (∀ a ls k d, tv_held v !! a = Some ls → ls !! k = Some d → tv_read v = Some (a / 64 + Z.of_nat k) →
       to_rd_resp_data o = Some d) ∧
    (tv_held v ≠ ∅ → to_free_rdy o = true);
  sp_next := tmp_view_next |}.

(** *** The relation *)

Abbreviation slabs := (all_slabs RX_TMP_BUF_NUM_SLABS RX_TMP_BUF_SLAB_BYTES).

(** The lines of a slab, in the memory. *)
Definition in_slab (mem : list Z) (a : Z) (ls : list Z) : Prop :=
  ∀ k d, ls !! k = Some d → mem !! (Z.to_nat (a / 64) + k)%nat = Some d.

(** A slab that is taken. *)
Definition owned (v : tmp_view) (a : Z) : Prop := a ∈ slabs ∧ a ∉ tv_pool v.

Definition fills (v : tmp_view) (mem : list Z) (h : tmp_hdr) (a : Z) (ls : list Z) : Prop :=
  owned v a ∧ tv_held v !! a = None ∧ in_slab mem a ls ∧ th_payload_len h ≤ RX_TMP_BUF_SLAB_BYTES.

Definition arriving_rel (s : tmp_buf) (v : tmp_view) : Prop :=
  let mem := contents (rx_tmp_buf_ram s) in
  match tv_arriving v with
  | Idle => tmp_state_reg s = TMP_READY
  | Filling h a ls =>
      tmp_state_reg s = TMP_DATA_COPY ∧ tmp_hdr_reg s = h ∧ alloc_addr_reg s = a ∧
      write_addr_reg s = a + bytes_of ls ∧ payload_bytes_rem_reg s = th_payload_len h - bytes_of ls ∧
      bytes_of ls < th_payload_len h ∧ fills v mem h a ls
  | Complete h (Some a) ls =>
      tmp_state_reg s = TMP_OUTPUT ∧ tmp_hdr_reg s = h ∧ alloc_addr_reg s = a ∧ 0 < th_payload_len h ∧
      th_payload_len h ≤ bytes_of ls < th_payload_len h + NOC_DATA_BYTES ∧ fills v mem h a ls
  | Complete h None ls => tmp_state_reg s = TMP_OUTPUT ∧ tmp_hdr_reg s = h ∧ th_payload_len h = 0 ∧ ls = []
  end.

Record tmp_rel (s : tmp_buf) (v : tmp_view) : Prop := {
  tr_pool : slab_rel RX_TMP_BUF_NUM_SLABS RX_TMP_BUF_SLAB_BYTES (rx_buf_alloc s) (tv_pool v);
  tr_ram : ram_rel (rx_tmp_buf_ram s) (RamView (contents (rx_tmp_buf_ram s)) (tv_read v));
  tr_size : Z.of_nat (length (contents (rx_tmp_buf_ram s))) = RX_TMP_BUF_MEM_ELS;
  tr_arriving : arriving_rel s v;
  tr_held : ∀ a ls, tv_held v !! a = Some ls →
    owned v a ∧ in_slab (contents (rx_tmp_buf_ram s)) a ls ∧ Z.of_nat (length ls) ≤ 32 }.

(** *** Slabs *)

Lemma slab_shape a : a ∈ slabs → ∃ j, 0 ≤ j < 10 ∧ a = 2048 * j ∧ a / 64 = 32 * j.
Proof.
  unfold all_slabs, slabs_from. intros (j & -> & Hj)%list_elem_of_fmap. rewrite elem_of_seq in Hj.
  change (Z.to_nat RX_TMP_BUF_NUM_SLABS) with 10%nat in Hj. change RX_TMP_BUF_SLAB_BYTES with 2048.
  exists (Z.of_nat j). split; [lia|]. split; [lia|]. replace (Z.of_nat j * 2048) with (32 * Z.of_nat j * 64) by lia.
  by rewrite Z.div_mul.
Qed.

(** The line written next. *)
Lemma write_line a ls : a ∈ slabs → (a + bytes_of ls) / 64 = a / 64 + Z.of_nat (length ls).
Proof. intros _. unfold bytes_of, NOC_DATA_BYTES. rewrite Z.mul_comm, Z.div_add; lia. Qed.

Lemma write_addr_fits a ls : a ∈ slabs → bytes_of ls < RX_TMP_BUF_SLAB_BYTES → tmp_addr (a + bytes_of ls + NOC_DATA_BYTES) = a + bytes_of ls + NOC_DATA_BYTES.
Proof.
  intros (j & Hj & -> & _)%slab_shape H. unfold tmp_addr, bytes_of, NOC_DATA_BYTES, RX_TMP_BUF_ADDR_W, RX_TMP_BUF_SLAB_BYTES in *.
  apply Z.mod_small. lia.
Qed.

Lemma in_slab_other mem a a' ls k d :
  in_slab mem a ls → a ∈ slabs → a' ∈ slabs → a ≠ a' → Z.of_nat (length ls) ≤ 32 → 0 ≤ k < 32 →
  in_slab (<[Z.to_nat (a' / 64 + k) := d]> mem) a ls.
Proof.
  intros H (j & Hj & Ea & E)%slab_shape (j' & Hj' & Ea' & E')%slab_shape Hne Hl Hk n x Hn.
  pose proof (lookup_lt_Some _ _ _ Hn) as Hlt. rewrite list_lookup_insert_ne; [by apply H|]. rewrite E, E'. lia.
Qed.

Lemma in_slab_more mem a ls d :
  in_slab mem a ls → a ∈ slabs → Z.of_nat (length mem) = RX_TMP_BUF_MEM_ELS → Z.of_nat (length ls) < 32 →
  in_slab (<[Z.to_nat (a / 64 + Z.of_nat (length ls)) := d]> mem) a (ls ++ [d]).
Proof.
  intros H (j & Hj & Ea & E)%slab_shape Hm Hl n x Hn. unfold RX_TMP_BUF_MEM_ELS in Hm. rewrite E in *.
  destruct (decide (n = length ls)) as [->|Hne].
  - rewrite lookup_app_r, Nat.sub_diag in Hn by lia. injection Hn as <-.
    replace (Z.to_nat (32 * j) + length ls)%nat with (Z.to_nat (32 * j + Z.of_nat (length ls))) by lia.
    apply list_lookup_insert_eq. lia.
  - pose proof (lookup_lt_Some _ _ _ Hn) as Hlt. rewrite length_app in Hlt. cbn in Hlt.
    rewrite lookup_app_l in Hn by lia. rewrite list_lookup_insert_ne by lia. specialize (H n x Hn). by rewrite E in H.
Qed.

(** *** A cycle *)

Section Cycle.
Context (s : tmp_buf) (v : tmp_view) (i : tmp_in).
Hypothesis Hr : tmp_rel s v.
Hypothesis Hl : sp_legal tmp_spec v i.

Abbreviation s' := (tmp_next false i s).
Abbreviation v' := (tmp_view_next i v).
Abbreviation ctl := (tmp_control_of s i).
Abbreviation mem := (contents (rx_tmp_buf_ram s)).
Abbreviation mem' := (contents (rx_tmp_buf_ram s')).

Lemma alloc_shows :
  alloc_slab_src_resp_error (tmp_alloc s) = bool_decide (tv_pool v = []) ∧
  (∀ a, head (tv_pool v) = Some a → alloc_slab_src_resp_addr (tmp_alloc s) = Some a) ∧
  (Z.of_nat (length (tv_pool v)) < RX_TMP_BUF_NUM_SLABS → free_slab_src_req_rdy (tmp_alloc s) = true).
Proof. exact (slab_shows RX_TMP_BUF_NUM_SLABS RX_TMP_BUF_SLAB_BYTES eq_refl s.(rx_buf_alloc) _ (SlabIn false 0 false) (tr_pool _ _ Hr)). Qed.

Lemma consume_eq : tmp_buf_alloc_slab_consume_val ctl = takes_slab i v.
Proof.
  pose proof (tr_arriving _ _ Hr) as Ha. unfold arriving_rel in Ha. unfold tmp_control_of, tmp_control, takes_slab.
  rewrite (proj1 alloc_shows). destruct (tv_arriving v) as [|h a ls|h [a|] ls].
  - rewrite Ha. by destruct (ti_hdr_val i), (th_payload_len (ti_hdr i) =? 0), (bool_decide (tv_pool v = [])).
  - destruct Ha as (-> & _). by destruct (ti_data_val i).
  - by destruct Ha as (-> & _).
  - by destruct Ha as (-> & _).
Qed.

Lemma store_eq :
  tmp_buf_buf_store_val ctl = match tv_arriving v with Filling _ _ _ => ti_data_val i | _ => false end.
Proof.
  pose proof (tr_arriving _ _ Hr) as Ha. unfold arriving_rel in Ha. unfold tmp_control_of, tmp_control.
  destruct (tv_arriving v) as [|h a ls|h [a|] ls].
  - rewrite Ha. by destruct (ti_hdr_val i), (th_payload_len (ti_hdr i) =? 0), (alloc_slab_src_resp_error (tmp_alloc s)).
  - destruct Ha as (-> & _). by destruct (ti_data_val i).
  - by destruct Ha as (-> & _).
  - by destruct Ha as (-> & _).
Qed.

Lemma filling_room h a ls :
  tv_arriving v = Filling h a ls →
  owned v a ∧ Z.of_nat (length ls) < 32 ∧ bytes_of ls < RX_TMP_BUF_SLAB_BYTES ∧
  write_addr_reg s / MAC_INTERFACE_BYTES = a / 64 + Z.of_nat (length ls) ∧
  0 ≤ a / 64 + Z.of_nat (length ls) < RX_TMP_BUF_MEM_ELS.
Proof.
  intros E. pose proof (tr_arriving _ _ Hr) as Ha. unfold arriving_rel in Ha. rewrite E in Ha.
  destruct Ha as (_ & _ & _ & -> & _ & Hlt & Ho & _ & _ & Hfit). destruct Ho as [Hs Hp]. split; [done|].
  change MAC_INTERFACE_BYTES with 64. rewrite (write_line a ls Hs). destruct (slab_shape _ Hs) as (j & Hj & _ & ->).
  unfold bytes_of, NOC_DATA_BYTES, RX_TMP_BUF_SLAB_BYTES, RX_TMP_BUF_MEM_ELS in *. lia.
Qed.

Lemma tmp_mem_next :
  mem' = match tv_arriving v with
         | Filling _ a ls => if ti_data_val i
             then <[Z.to_nat (a / 64 + Z.of_nat (length ls)) := tmp_buf_buf_store_data i]> mem else mem
         | _ => mem
         end.
Proof.
  cbn [rx_tmp_buf_ram tmp_next]. unfold tmp_ram_in. rewrite contents_written. unfold written. cbn [wr_val wr_addr wr_dat].
  rewrite store_eq. destruct (tv_arriving v) as [|h a ls|] eqn:E; try done. destruct (ti_data_val i); [|done].
  by destruct (filling_room _ _ _ E) as (_ & _ & _ & -> & _).
Qed.

Lemma mem_length : Z.of_nat (length mem') = RX_TMP_BUF_MEM_ELS.
Proof.
  rewrite tmp_mem_next, <- (tr_size _ _ Hr). by destruct (tv_arriving v), (ti_data_val i); rewrite ?length_insert.
Qed.

Lemma line_range a : 0 ≤ line_of a.
Proof. apply Z.mod_pos_bound. reflexivity. Qed.

Lemma ram_next_rel : ram_rel (rx_tmp_buf_ram s') (RamView mem' (tv_read v')).
Proof.
  destruct Hl as (_ & _ & Hrd).
  assert (E : mem' = written (WrReq (tmp_buf_buf_store_val ctl) (write_addr_reg s / MAC_INTERFACE_BYTES) (tmp_buf_buf_store_data i)) mem)
    by apply contents_written.
  rewrite E. apply mem1_step; [exact (tr_ram _ _ Hr)| |].
  - intros Hw. cbn [wr_val wr_addr] in *. rewrite store_eq in Hw. destruct (tv_arriving v) as [|h a ls|] eqn:Ea; try done.
    destruct (filling_room _ _ _ Ea) as (_ & _ & _ & -> & H). unfold in_range. by rewrite (tr_size _ _ Hr).
  - intros H. cbn [rd_val rd_addr] in *. unfold in_range. rewrite (tr_size _ _ Hr). pose proof (line_range (rd_addr (ti_rd i))).
    split; [done|]. by apply Hrd.
Qed.

Lemma free_owned : ti_free_val i = true → ∃ ls, tv_held v !! ti_free_addr i = Some ls ∧ owned v (ti_free_addr i).
Proof.
  intros E. destruct Hl as (_ & Hf & _). destruct (Hf E) as [ls Els]. exists ls. split; [done|]. by apply (tr_held _ _ Hr _ _ Els).
Qed.

Lemma pool_next_rel : slab_rel RX_TMP_BUF_NUM_SLABS RX_TMP_BUF_SLAB_BYTES (rx_buf_alloc s') (tv_pool v').
Proof.
  cbn [rx_buf_alloc tmp_next tv_pool tmp_view_next]. unfold tmp_slab_in. rewrite consume_eq.
  refine (proj2 (slab_simulates RX_TMP_BUF_NUM_SLABS RX_TMP_BUF_SLAB_BYTES eq_refl eq_refl _ _ _ (tr_pool _ _ Hr) _)). intros E.
  by destruct (free_owned E) as (ls & _ & H).
Qed.

(** A slab taken before and not freed is still taken. *)
Lemma owned_next a :
  owned v a → (ti_free_val i = true → ti_free_addr i ≠ a) → owned v' a.
Proof.
  intros [Ha Hp] Hf. split; [done|]. cbn [tv_pool tmp_view_next]. unfold pool_next.
  cbn [src_free_slab_req_val src_free_slab_req_addr src_alloc_slab_consume_val]. rewrite not_elem_of_app. split.
  - destruct (takes_slab i v); [|done]. intros H. apply Hp. destruct (tv_pool v); [done|]. by right.
  - destruct (ti_free_val i); [|apply not_elem_of_nil]. rewrite list_elem_of_singleton. intros ->. by apply Hf.
Qed.

(** The slab that is taken now. *)
Lemma owned_taken a l : tv_pool v = a :: l → takes_slab i v = true → owned v' a ∧ tv_held v !! a = None.
Proof.
  intros Ep Et. pose proof (sr_nodup _ _ _ _ (tr_pool _ _ Hr)) as Hn. pose proof (sr_slabs _ _ _ _ (tr_pool _ _ Hr)) as Hsub.
  rewrite Ep in Hn, Hsub. apply NoDup_cons in Hn as [Hna _].
  assert (Hh : ∀ ls, tv_held v !! a ≠ Some ls).
  { intros ls H. destruct (tr_held _ _ Hr _ _ H) as ([_ Hp] & _). apply Hp. rewrite Ep. by left. }
  split; [|destruct (tv_held v !! a) as [ls|] eqn:E; [by destruct (Hh ls)|done]]. split; [apply Hsub; by left|].
  cbn [tv_pool tmp_view_next]. unfold pool_next. cbn [src_free_slab_req_val src_free_slab_req_addr src_alloc_slab_consume_val].
  rewrite Et, Ep. cbn [tail]. rewrite not_elem_of_app. split; [done|].
  destruct (ti_free_val i) eqn:Ef; [|apply not_elem_of_nil]. rewrite list_elem_of_singleton. intros Ea.
  destruct (free_owned Ef) as (ls & Els & _). rewrite <- Ea in Els. by destruct (Hh ls).
Qed.

(** The lines of another slab are left alone. *)
Lemma in_slab_next a ls :
  in_slab mem a ls → a ∈ slabs → Z.of_nat (length ls) ≤ 32 →
  match tv_arriving v with Filling _ a' _ => a ≠ a' | _ => True end → in_slab mem' a ls.
Proof.
  intros H Ha Hn Hne. rewrite tmp_mem_next. destruct (tv_arriving v) as [|h a' ls'|] eqn:E; try done.
  destruct (ti_data_val i); [|done]. destruct (filling_room _ _ _ E) as ([Hs _] & Hlt & _).
  apply in_slab_other; [done..|lia].
Qed.

Lemma held_rel a ls :
  tv_held v' !! a = Some ls → owned v' a ∧ in_slab mem' a ls ∧ Z.of_nat (length ls) ≤ 32.
Proof.
  cbn [tv_held tmp_view_next]. unfold held_next, hands_on. pose proof (tr_arriving _ _ Hr) as Ha. unfold arriving_rel in Ha.
  assert (Hold : (if ti_free_val i then delete (ti_free_addr i) (tv_held v) else tv_held v) !! a = Some ls →
    owned v' a ∧ in_slab mem' a ls ∧ Z.of_nat (length ls) ≤ 32).
  { intros H. assert (Hf : (ti_free_val i = true → ti_free_addr i ≠ a) ∧ tv_held v !! a = Some ls).
    { destruct (ti_free_val i); [|done]. apply lookup_delete_Some in H as [? ?]. done. }
    destruct Hf as [Hf Hh]. destruct (tr_held _ _ Hr _ _ Hh) as (Ho & Hs & Hn). split; [by apply owned_next|]. split; [|done].
    apply in_slab_next; [done|apply Ho|done|]. destruct (tv_arriving v) as [|h a' ls'|]; try done. intros ->.
    destruct Ha as (_ & _ & _ & _ & _ & _ & _ & Hnone & _). by rewrite Hnone in Hh. }
  destruct (tv_arriving v) as [|h a' ls'|h [a'|] ls'] eqn:E; try exact Hold. destruct (ti_dst_rdy i); [|exact Hold].
  destruct (decide (a' = a)) as [->|Hne]; [|rewrite lookup_insert_ne by done; exact Hold].
  rewrite lookup_insert_eq. intros [= <-]. destruct Ha as (_ & _ & _ & _ & Hb & Ho & Hnone & Hs & Hfit).
  assert (Z.of_nat (length ls') ≤ 32) by (unfold bytes_of, NOC_DATA_BYTES, RX_TMP_BUF_SLAB_BYTES in *; lia).
  split_and!; [|apply in_slab_next; [done|apply Ho|done|by rewrite E]|done].
  apply owned_next; [done|]. intros Ef <-. destruct (free_owned Ef) as (ls2 & Els & _). by rewrite Hnone in Els.
Qed.

Lemma not_freed a : tv_held v !! a = None → ti_free_val i = true → ti_free_addr i ≠ a.
Proof. intros Hn Ef <-. destruct (free_owned Ef) as (ls & E & _). by rewrite Hn in E. Qed.

Lemma fills_next h a ls ls' :
  tv_arriving v = Filling h a ls ∨ (∃ h0, tv_arriving v = Complete h0 (Some a) ls ∧ ti_dst_rdy i = false) →
  fills v mem h a ls → in_slab mem' a ls' → fills v' mem' h a ls'.
Proof.
  intros Hc (Ho & Hn & _ & Hfit) Hs. split_and!; [|  |done|done].
  - apply owned_next; [done|by apply not_freed].
  - cbn [tv_held tmp_view_next]. unfold held_next, hands_on.
    assert (Hd : (if ti_free_val i then delete (ti_free_addr i) (tv_held v) else tv_held v) !! a = None)
      by (destruct (ti_free_val i); [rewrite lookup_delete_None; by right|done]).
    destruct Hc as [->|(h0 & -> & ->)]; exact Hd.
Qed.

Lemma filling_next h a ls : tv_arriving v = Filling h a ls → arriving_rel s' v'.
Proof.
  intros E. pose proof (tr_arriving _ _ Hr) as Ha. unfold arriving_rel in Ha. rewrite E in Ha.
  destruct Ha as (Est & Eh & Ea & Ew & Eb & Hlt & Hf). pose proof (filling_room _ _ _ E) as (Ho & Hroom & Hbytes & _ & _).
  pose proof tmp_mem_next as Hm. rewrite E in Hm. pose proof Hf as (_ & _ & Hs & Hfit).
  assert (Hmore : ti_data_val i = true → in_slab mem' a (ls ++ [tmp_buf_buf_store_data i])).
  { intros Ev. rewrite Ev in Hm. rewrite Hm. apply in_slab_more; [done|apply Ho|exact (tr_size _ _ Hr)|done]. }
  assert (Hsame : ti_data_val i = false → in_slab mem' a ls) by (intros Ev; rewrite Ev in Hm; by rewrite Hm).
  unfold arriving_rel. set (m' := mem') in *. cbn [tv_arriving tmp_view_next]. unfold arriving_next. rewrite E.
  cbn [tmp_state_reg tmp_hdr_reg alloc_addr_reg write_addr_reg payload_bytes_rem_reg tmp_next].
  unfold tmp_control_of, tmp_control. rewrite Est. destruct (ti_data_val i) eqn:Ev; cbn [andb wr_req_rdy].
  - assert (Hb : bytes_of (ls ++ [tmp_buf_buf_store_data i]) = bytes_of ls + NOC_DATA_BYTES)
      by (unfold bytes_of, NOC_DATA_BYTES; rewrite length_app; cbn [length]; lia).
    cbn [load_hdr_state store_entry_addr incr_store_addr tmp_state_next payload_bytes_rem_next]. rewrite Ew, Eb, Hb.
    rewrite write_addr_fits by (done || apply Ho).
    assert (Hdec : (th_payload_len h - bytes_of ls <=? NOC_DATA_BYTES) = (th_payload_len h <=? bytes_of ls + NOC_DATA_BYTES)) by lia.
    rewrite Hdec. specialize (Hmore eq_refl). assert (Hfn : fills v' mem' h a (ls ++ [tmp_buf_buf_store_data i])) by (apply (fills_next h a ls); [by left|done|done]).
    destruct (Z.leb_spec (th_payload_len h) (bytes_of ls + NOC_DATA_BYTES)); (split_and!; try done);
      rewrite ?Hb; unfold bytes_of, NOC_DATA_BYTES, RX_TMP_BUF_SLAB_BYTES, TOT_LEN_W in *; try lia;
      try done. rewrite Z.mod_small; lia.
  - cbn [load_hdr_state store_entry_addr incr_store_addr tmp_state_next payload_bytes_rem_next].
    split_and!; [done..|]. apply (fills_next h a ls); [by left|done|by apply Hsame].
Qed.

Lemma complete_next h a ls : tv_arriving v = Complete h a ls → arriving_rel s' v'.
Proof.
  intros E. pose proof (tr_arriving _ _ Hr) as Ha. unfold arriving_rel in Ha. rewrite E in Ha.
  pose proof tmp_mem_next as Hm. rewrite E in Hm.
  assert (Est : tmp_state_reg s = TMP_OUTPUT) by (destruct a; apply Ha).
  unfold arriving_rel. set (m' := mem') in *. cbn [tv_arriving tmp_view_next]. unfold arriving_next. rewrite E.
  cbn [tmp_state_reg tmp_hdr_reg alloc_addr_reg write_addr_reg payload_bytes_rem_reg tmp_next].
  unfold tmp_control_of, tmp_control. rewrite Est. cbn [load_hdr_state store_entry_addr incr_store_addr tmp_state_next].
  destruct (ti_dst_rdy i) eqn:Ed; [done|]. destruct a as [a|]; [|by destruct Ha as (_ & ? & ? & ?)].
  destruct Ha as (_ & Eh & Ea & Hne & Hb & Hf). split_and!; [done..|apply Hb|apply Hb|].
  apply (fills_next h a ls); [right; by exists h|done|]. destruct Hf as (_ & _ & Hs & _). intros k d Hk.
  pose proof (Hs k d Hk) as H. rewrite <- Hm in H. exact H.
Qed.

Lemma idle_next : tv_arriving v = Idle → arriving_rel s' v'.
Proof.
  intros E. pose proof (tr_arriving _ _ Hr) as Ha. unfold arriving_rel in Ha. rewrite E in Ha. rename Ha into Est.
  pose proof owned_taken as Ht. unfold takes_slab in Ht. rewrite E in Ht.
  unfold arriving_rel. set (m' := mem') in *. cbn [tv_arriving tmp_view_next]. unfold arriving_next. rewrite E.
  cbn [tmp_state_reg tmp_hdr_reg alloc_addr_reg write_addr_reg payload_bytes_rem_reg tmp_next].
  unfold tmp_control_of, tmp_control. rewrite Est. destruct alloc_shows as (-> & Hhead & _).
  destruct Hl as (Hlen & _). destruct (ti_hdr_val i); [|done]. specialize (Hlen eq_refl).
  destruct (Z.eqb_spec (th_payload_len (ti_hdr i)) 0) as [Hz|Hz]; [done|].
  destruct (tv_pool v) as [|a l] eqn:Ep; [done|]. rewrite bool_decide_eq_false_2 in * by done.
  cbn [load_hdr_state store_entry_addr incr_store_addr tmp_state_next payload_bytes_rem_next].
  rewrite (Hhead a eq_refl). destruct (Ht a l eq_refl eq_refl) as [Ho Hn]. cbn [default].
  split_and!; try done; [unfold bytes_of; cbn; lia..|].
  split_and!; [exact Ho| |intros k d Hk; by rewrite lookup_nil in Hk|lia].
  cbn [tv_held tmp_view_next]. unfold held_next, hands_on. rewrite E.
  destruct (ti_free_val i); [rewrite lookup_delete_None; by right|done].
Qed.

Lemma tmp_next_rel : tmp_rel s' v'.
Proof.
  split.
  - exact pool_next_rel.
  - exact ram_next_rel.
  - exact mem_length.
  - destruct (tv_arriving v) as [|h a ls|h a ls] eqn:E; [by apply idle_next|by eapply filling_next|by eapply complete_next].
  - exact held_rel.
Qed.

Lemma tmp_shows : sp_shows tmp_spec v i (c_out tcp_tmp_rx_buf_wrap s i).
Proof.
  pose proof (tr_arriving _ _ Hr) as Ha. unfold arriving_rel in Ha. pose proof (tr_ram _ _ Hr) as (_ & Hv & Hd).
  destruct alloc_shows as (He & _ & Hfree). cbn [rv_read rv_mem] in *. split_and!.
  - cbn [to_hdr_rdy c_out tcp_tmp_rx_buf_wrap]. unfold tmp_control_of, tmp_control, takes_pkt. rewrite He.
    destruct (tv_arriving v) as [|h a ls|h [a|] ls]; [rewrite Ha|destruct Ha as [-> _]; by destruct (ti_data_val i)|by destruct Ha as [-> _]..].
    by destruct (ti_hdr_val i), (th_payload_len (ti_hdr i) =? 0), (bool_decide (tv_pool v = [])).
  - cbn [to_data_rdy c_out tcp_tmp_rx_buf_wrap]. unfold tmp_control_of, tmp_control. rewrite He.
    destruct (tv_arriving v) as [|h a ls|h [a|] ls]; [rewrite Ha|destruct Ha as [-> _]; by destruct (ti_data_val i)|by destruct Ha as [-> _]..].
    by destruct (ti_hdr_val i), (th_payload_len (ti_hdr i) =? 0), (bool_decide (tv_pool v = [])).
  - cbn [to_pkt c_out tcp_tmp_rx_buf_wrap]. unfold tmp_control_of, tmp_control. rewrite He.
    destruct (tv_arriving v) as [|h a ls|h [a|] ls].
    + rewrite Ha. by destruct (ti_hdr_val i), (th_payload_len (ti_hdr i) =? 0), (bool_decide (tv_pool v = [])).
    + destruct Ha as [-> _]. by destruct (ti_data_val i).
    + destruct Ha as (-> & Eh & Ea & Hne & _). eexists. split; [done|]. exists a. split; [|by intros ? [= ->]].
      unfold tmp_pkt. rewrite Eh, Ea. by rewrite (proj2 (Z.eqb_neq _ _)) by lia.
    + destruct Ha as (-> & Eh & Hz & _). eexists. split; [done|]. exists (alloc_addr_reg s). split; [|done].
      unfold tmp_pkt. by rewrite Eh, Hz.
  - cbn [to_rd_req_rdy c_out tcp_tmp_rx_buf_wrap]. unfold rd_req_rdy. cbn [ri_rd_resp_rdy tmp_ram_in mem1_in rd_resp_rdy].
    rewrite Hv. by destruct (tv_read v).
  - exact Hv.
  - intros a ls k d Hh Hk Hread. cbn [to_rd_resp_data c_out tcp_tmp_rx_buf_wrap]. destruct (Hd _ Hread) as (_ & _ & ->).
    destruct (tr_held _ _ Hr _ _ Hh) as ((Hs & _) & Hin & _). rewrite <- (Hin k d Hk). f_equal.
    destruct (slab_shape _ Hs) as (j & Hj & _ & ->). lia.
  - intros Hne. cbn [to_free_rdy c_out tcp_tmp_rx_buf_wrap]. apply Hfree. apply map_choose in Hne as (a & ls & Hh).
    destruct (tr_held _ _ Hr _ _ Hh) as ([Hs Hp] & _).
    apply (pool_room RX_TMP_BUF_NUM_SLABS RX_TMP_BUF_SLAB_BYTES eq_refl) with a; [apply (tr_pool _ _ Hr)..|done|done].
Qed.
End Cycle.

Lemma tmp_simulates : simulates tcp_tmp_rx_buf_wrap tmp_spec tmp_rel.
Proof. intros s v i Hr Hl. split; [by apply tmp_shows|by apply tmp_next_rel]. Qed.

Definition tmp_buf_sized (s : tmp_buf) : Prop :=
  Z.of_nat (length (contents (rx_tmp_buf_ram s))) = RX_TMP_BUF_MEM_ELS ∧
  Z.of_nat (length (contents (fifo_mem (freed_slab_fifo (rx_buf_alloc s))))) = slots (SLAB_NUM_W RX_TMP_BUF_NUM_SLABS).

Definition tmp_start : tmp_view := TmpView Idle slabs ∅ None.

(** In the cycle of a reset the memory can still be written. *)
Lemma tmp_reset i s : tmp_buf_sized s → tmp_rel (tmp_next true i s) tmp_start.
Proof.
  intros [Hm Hf]. split; [by apply (slab_reset RX_TMP_BUF_NUM_SLABS RX_TMP_BUF_SLAB_BYTES eq_refl)|by split_and!| |done|done].
  cbn [rx_tmp_buf_ram tmp_next]. unfold tmp_ram_in. rewrite contents_written. unfold written. cbn [wr_val].
  destruct (tmp_buf_buf_store_val _); [by rewrite length_insert|done].
Qed.
End TmpBuf.

(** ** Concrete runs *)

Definition junk_tmp_buf : tmp_buf :=
  {| tmp_state_reg := TMP_OUTPUT; payload_bytes_rem_reg := 7; tmp_hdr_reg := TmpHdr 1 2 3 zero_hdr; alloc_addr_reg := 5;
     write_addr_reg := 9;
     rx_buf_alloc := {| use_fifo_reg := true; init_slab_addr_reg := 77;
                        freed_slab_fifo := {| wr_ptr_reg := 5; rd_ptr_reg := 2; fifo_mem := junk_ram (replicate 16 4) |} |};
     rx_tmp_buf_ram := junk_ram (replicate 320 8) |}.

Lemma junk_tmp_buf_sized : tmp_buf_sized junk_tmp_buf.
Proof. by split. Qed.

Definition tmp_cycle (hdr : option Z) (data : option Z) (rdy : bool) (rd : rd_req_in) (free : option Z) : tmp_in :=
  {| ti_hdr_val := bool_decide (is_Some hdr); ti_hdr := TmpHdr 20 10 (default 0 hdr) zero_hdr;
     ti_data_val := bool_decide (is_Some data); ti_data := default 0 data; ti_data_last := false; ti_data_padbytes := 0;
     ti_dst_rdy := rdy; ti_rd := rd; ti_free_val := bool_decide (is_Some free); ti_free_addr := default 0 free |}.
Definition no_read : rd_req_in := RdReq false 0 true.
Definition tmp_reset_state : tmp_buf := tmp_next 0 true (tmp_cycle None None true no_read None) junk_tmp_buf.

(** A payload of [n] lines, all [d]. *)
Definition tmp_payload (n : nat) (len d : Z) : list tmp_in :=
  tmp_cycle (Some len) None true no_read None :: replicate n (tmp_cycle None (Some d) true no_read None) ++
  [tmp_cycle None None true no_read None].

(** The length is not compared with the size of a slab: with all slabs in use
    but the first, a payload of 2049 bytes overwrites the one in the second. *)
Lemma oversized_payload_overwrites :
  let c := tcp_tmp_rx_buf_wrap 0 in
  let s1 := after_cycles c (concat (replicate 10 (tmp_payload 1 64 5)) ++ [tmp_cycle None None true no_read (Some 0)]) tmp_reset_state in
  let s2 := after_cycles c (tmp_payload 33 2049 6) s1 in
  contents (rx_tmp_buf_ram s1) !! 32%nat = Some 5 ∧ contents (rx_tmp_buf_ram s2) !! 32%nat = Some 6 ∧
  c_out c s2 (tmp_cycle (Some 64) None true no_read None) = TmpOut false false None true false None true.
Proof. vm_compute. by split_and!. Qed.
