(* ===== verification/PayloadPath.v ===== *)
(** PayloadPath: the way of a payload through the receive side:
    recv_pipe/rx_payload_store_buf_cp.sv with its control and its datapath, the
    queue before it (rx_pipe_wrap.sv), the commit pointers
    (rx_payload_ptrs.sv) and the buffer of TmpBuf, in one cycle. *)

From S2P Require Import Prelude SocDefs Rtl RamDual Fifo SlabAlloc TcpPkg FlowStores IssuePipe TmpBuf.

(** ** rx_payload_store_buf_cp.sv *)

Inductive copy_state_e :=
| READY | COMMIT_PTR_RESP | DATA_COPY_START | DATA_COPY | DATA_COPY_WAIT | UPDATE_POINTER | FREE_NON_ACCEPTED.

Definition zero_q_entry : rx_store_buf_q_struct := RxStoreBufQ 0 false zero_payload.

Record copy_regs := CopyRegs {
  copy_state_reg : copy_state_e;
  q_entry_reg : rx_store_buf_q_struct;
  commit_ptr_reg : Z;
  read_addr_reg : Z;
  bytes_left_reg : Z }.

(** The queue, the temporary buffer, the commit pointers and the module that
    writes to the memory of the receive buffers. *)
Record copy_in := CopyIn {
  read_store_buf_q_empty : bool;
  read_store_buf_q_req_data : rx_store_buf_q_struct;
  tmp_buf_rd_req_rdy : bool;
  tmp_buf_rd_resp_val : bool;
  tmp_buf_free_slab_rdy : bool;
  commit_ptr_rd_req_rdy : bool;
  commit_ptr_rd_resp_val : bool;
  commit_ptr_rd_resp_data : Z;
  commit_ptr_wr_rdy : bool;
  wr_buf_ctrl_req_rdy : bool;
  wr_buf_ctrl_req_data_rdy : bool;
  wr_buf_ctrl_wr_req_done : bool }.

Record copy_ctrl := CopyCtrl {
  read_store_buf_q_req_val : bool;
  ctrl_wr_buf_req_val : bool;
  ctrl_wr_buf_req_data_val : bool;
  save_commit_ptr : bool;
  init_tmp_buf_rd_metadata : bool;
  update_tmp_buf_rd_metadata : bool;
  tmp_buf_rd_req_val : bool;
  commit_ptr_rd_req_val : bool;
  free_slab_req_val : bool;
  commit_ptr_wr_req_val : bool;
  copy_state_next : copy_state_e }.

Definition entry_len (e : rx_store_buf_q_struct) : Z := payload_len (sb_payload_entry e).
Definition entry_addr (e : rx_store_buf_q_struct) : Z := payload_addr (sb_payload_entry e).

Definition last_transfer (s : copy_regs) : bool := bytes_left_reg s <=? NOC_DATA_BYTES.

(** [save_q_entry] is the read of the queue. *)
Definition copy_control (s : copy_regs) (i : copy_in) : copy_ctrl :=
  match copy_state_reg s with
  | READY =>
      if negb (read_store_buf_q_empty i) then
        let e := read_store_buf_q_req_data i in
        if entry_len e =? 0 then CopyCtrl true false false false false false false false false false READY
        else if negb (sb_accept_payload e) then CopyCtrl true false false false false false false false false false FREE_NON_ACCEPTED
        else if commit_ptr_rd_req_rdy i then CopyCtrl true false false false true false false true false false COMMIT_PTR_RESP
        else CopyCtrl true false false false false false false false false false READY
      else CopyCtrl false false false false false false false false false false READY
  | COMMIT_PTR_RESP =>
      if commit_ptr_rd_resp_val i then CopyCtrl false false false true false false false false false false DATA_COPY_START
      else CopyCtrl false false false false false false false false false false COMMIT_PTR_RESP
  | DATA_COPY_START =>
      if wr_buf_ctrl_req_rdy i && tmp_buf_rd_req_rdy i then CopyCtrl false true false false false false true false false false DATA_COPY
      else CopyCtrl false false false false false false false false false false DATA_COPY_START
  | DATA_COPY =>
      if tmp_buf_rd_resp_val i && wr_buf_ctrl_req_data_rdy i then
        if last_transfer s then CopyCtrl false false true false false false true false false false DATA_COPY_WAIT
        else CopyCtrl false false true false false true true false false false DATA_COPY
      else CopyCtrl false false (tmp_buf_rd_resp_val i) false false false true false false false DATA_COPY
  | DATA_COPY_WAIT =>
      CopyCtrl false false false false false false false false false false
        (if wr_buf_ctrl_wr_req_done i then UPDATE_POINTER else DATA_COPY_WAIT)
  | UPDATE_POINTER =>
      if commit_ptr_wr_rdy i && tmp_buf_free_slab_rdy i then CopyCtrl false false false false false false false false true true READY
      else CopyCtrl false false false false false false false false false false UPDATE_POINTER
  | FREE_NON_ACCEPTED =>
      CopyCtrl false false false false false false false false true false
        (if tmp_buf_free_slab_rdy i then READY else FREE_NON_ACCEPTED)
  end.

(** The two readies for responses, which the readies for requests depend on. *)
Definition tmp_buf_rd_resp_rdy (s : copy_regs) (data_rdy : bool) : bool :=
  match copy_state_reg s with DATA_COPY => data_rdy | _ => true end.
Definition commit_ptr_rd_resp_rdy (s : copy_regs) : bool :=
  match copy_state_reg s with COMMIT_PTR_RESP => true | _ => false end.

Definition q_entry_next (s : copy_regs) (i : copy_in) : rx_store_buf_q_struct :=
  if read_store_buf_q_req_val (copy_control s i) then read_store_buf_q_req_data i else q_entry_reg s.
Definition read_addr_next (s : copy_regs) (i : copy_in) : Z :=
  let c := copy_control s i in
  if init_tmp_buf_rd_metadata c then tmp_addr (entry_addr (q_entry_next s i))
  else if update_tmp_buf_rd_metadata c then tmp_addr (read_addr_reg s + MAC_INTERFACE_BYTES) else read_addr_reg s.
Definition bytes_left_next (s : copy_regs) (i : copy_in) : Z :=
  let c := copy_control s i in
  if init_tmp_buf_rd_metadata c then entry_len (q_entry_next s i)
  else if update_tmp_buf_rd_metadata c then (bytes_left_reg s - MAC_INTERFACE_BYTES) mod 2 ^ TOT_LEN_W else bytes_left_reg s.

Definition copy_next (rst : bool) (i : copy_in) (s : copy_regs) : copy_regs :=
  let c := copy_control s i in
  if rst then CopyRegs READY zero_q_entry 0 0 0
  else {| copy_state_reg := copy_state_next c; q_entry_reg := q_entry_next s i;
          commit_ptr_reg := if save_commit_ptr c then commit_ptr_rd_resp_data i else commit_ptr_reg s;
          read_addr_reg := read_addr_next s i; bytes_left_reg := bytes_left_next s i |}.

Definition tmp_buf_rd (s : copy_regs) (i : copy_in) : rd_req_in :=
  RdReq (tmp_buf_rd_req_val (copy_control s i)) (read_addr_next s i / MAC_INTERFACE_BYTES)
    (tmp_buf_rd_resp_rdy s (wr_buf_ctrl_req_data_rdy i)).
Definition commit_ptr_rd (s : copy_regs) (i : copy_in) : rd_req_in :=
  RdReq (commit_ptr_rd_req_val (copy_control s i)) (sb_flowid (q_entry_next s i)) (commit_ptr_rd_resp_rdy s).
Definition commit_ptr_wr (s : copy_regs) (i : copy_in) : wr_req Z :=
  WrReq (commit_ptr_wr_req_val (copy_control s i)) (sb_flowid (q_entry_reg s)) (rx_ptr (commit_ptr_reg s + entry_len (q_entry_reg s))).
Definition free_slab_addr (s : copy_regs) : Z := tmp_addr (entry_addr (q_entry_reg s)).

(** What leaves: a request to write a payload at a place of the buffer of a
    connection, its lines, the pointer stored when it is written, the slab. *)
Inductive copy_event :=
| Start (flowid wr_ptr size : Z)
| Line (data : Z)
| Commit (flowid ptr : Z)
| Free (addr : Z).

Definition emit (b : bool) (e : copy_event) : list copy_event := if b then [e] else [].

Definition copy_shows (s : copy_regs) (i : copy_in) (data : Z) : list copy_event :=
  let c := copy_control s i in let e := q_entry_reg s in
  emit (ctrl_wr_buf_req_val c) (Start (sb_flowid e) (commit_ptr_reg s mod 2 ^ RX_PAYLOAD_PTR_W) (entry_len e)) ++
  emit (ctrl_wr_buf_req_data_val c && wr_buf_ctrl_req_data_rdy i) (Line data) ++
  emit (commit_ptr_wr_req_val c) (Commit (sb_flowid e) (rx_ptr (commit_ptr_reg s + entry_len e))) ++
  emit (free_slab_req_val c && tmp_buf_free_slab_rdy i) (Free (free_slab_addr s)).

(** ** The path *)

Record payload_path := PayloadPath {
  pp_tmp_buf : tmp_buf;
  rx_store_buf_q : fifo rx_store_buf_q_struct;
  store_buf_cp : copy_regs;
  pp_commit_ptrs : ram2 Z }.

(** Packets come in; the engine enqueues what it has decided on their payloads,
    and opens connections; the application reads the commit pointers; the module
    that writes takes requests and lines. *)
Record path_in := PathIn {
  pi_hdr_val : bool;
  pi_hdr : tmp_hdr;
  pi_data_val : bool;
  pi_data : Z;
  pi_data_last : bool;
  pi_data_padbytes : Z;
  pi_dst_rdy : bool;
  pi_enq : option rx_store_buf_q_struct;
  pi_new_flow : new_flow;
  pi_app_rd : rd_req_in;
  pi_wr_req_rdy : bool;
  pi_wr_data_rdy : bool;
  pi_wr_done : bool }.

Record path_out := PathOut {
  po_hdr_rdy : bool;
  po_data_rdy : bool;
  po_pkt : option issue_pkt;
  po_q_full : bool;
  po_events : list copy_event }.

Definition store_buf_q_log2 : nat := 5.

Section Path.
Variable xz : Z.  (* what the undefined is taken for *)
Variable xe : rx_store_buf_q_struct.

(** The temporary buffer as the copying sees it, before it says what it reads. *)
Definition path_tmp_in (i : path_in) (rd : rd_req_in) (free_val : bool) (free_addr : Z) : tmp_in :=
  {| ti_hdr_val := pi_hdr_val i; ti_hdr := pi_hdr i; ti_data_val := pi_data_val i; ti_data := pi_data i;
     ti_data_last := pi_data_last i; ti_data_padbytes := pi_data_padbytes i; ti_dst_rdy := pi_dst_rdy i;
     ti_rd := rd; ti_free_val := free_val; ti_free_addr := free_addr |}.
Definition path_tmp_shows (s : payload_path) (i : path_in) : tmp_out :=
  c_out (tcp_tmp_rx_buf_wrap xz) (pp_tmp_buf s)
    (path_tmp_in i (RdReq false 0 (tmp_buf_rd_resp_rdy (store_buf_cp s) (pi_wr_data_rdy i))) false 0).

Definition path_copy_in (s : payload_path) (i : path_in) : copy_in :=
  let t := path_tmp_shows s i in
  {| read_store_buf_q_empty := fifo_empty store_buf_q_log2 (rx_store_buf_q s);
     read_store_buf_q_req_data := default xe (rd_resp_data (fifo_mem (rx_store_buf_q s)));
     tmp_buf_rd_req_rdy := to_rd_req_rdy t; tmp_buf_rd_resp_val := to_rd_resp_val t; tmp_buf_free_slab_rdy := to_free_rdy t;
     commit_ptr_rd_req_rdy := commit_ptr_rd_resp_rdy (store_buf_cp s) || negb (rd0_resp_val (pp_commit_ptrs s));
     commit_ptr_rd_resp_val := rd0_resp_val (pp_commit_ptrs s);
     commit_ptr_rd_resp_data := default xz (rd0_resp_data (pp_commit_ptrs s));
     commit_ptr_wr_rdy := commit_ptr_wr_req_rdy (pi_new_flow i);
     wr_buf_ctrl_req_rdy := pi_wr_req_rdy i; wr_buf_ctrl_req_data_rdy := pi_wr_data_rdy i;
     wr_buf_ctrl_wr_req_done := pi_wr_done i |}.

Definition path_tmp (s : payload_path) (i : path_in) : tmp_in :=
  let c := store_buf_cp s in let ci := path_copy_in s i in
  path_tmp_in i (tmp_buf_rd c ci) (free_slab_req_val (copy_control c ci)) (free_slab_addr c).

Definition store_buf_q_in (s : payload_path) (i : path_in) : fifo_in rx_store_buf_q_struct :=
  FifoIn (read_store_buf_q_req_val (copy_control (store_buf_cp s) (path_copy_in s i)))
    (bool_decide (is_Some (pi_enq i))) (default zero_q_entry (pi_enq i)).

Definition path_commit_in (s : payload_path) (i : path_in) : ram2_in Z :=
  let c := store_buf_cp s in let ci := path_copy_in s i in let n := pi_new_flow i in
  mem2_in (mem_wr n (nf_rx_tail_ptr n) (commit_ptr_wr c ci)) (commit_ptr_rd c ci) (pi_app_rd i).

Definition path_next (rst : bool) (i : path_in) (s : payload_path) : payload_path :=
  {| pp_tmp_buf := tmp_next xz rst (path_tmp s i) (pp_tmp_buf s);
     rx_store_buf_q := c_next (fifo_1r1w zero_q_entry store_buf_q_log2) rst (store_buf_q_in s i) (rx_store_buf_q s);
     store_buf_cp := copy_next rst (path_copy_in s i) (store_buf_cp s);
     pp_commit_ptrs := ram2_next 0 rst (path_commit_in s i) (pp_commit_ptrs s) |}.

Definition payload_path_module : circuit payload_path path_in path_out := Circuit
  (λ s i, let t := path_tmp_shows s i in
     {| po_hdr_rdy := to_hdr_rdy t; po_data_rdy := to_data_rdy t; po_pkt := to_pkt t;
        po_q_full := fifo_full store_buf_q_log2 (rx_store_buf_q s);
        po_events := copy_shows (store_buf_cp s) (path_copy_in s i) (default xz (to_rd_resp_data t)) |})
  path_next.

(** ** The books

    What an observer of inputs and outputs writes down: the headers taken, the
    lines of the packet that is coming in, the packets sent on, the payloads they
    announce that are not enqueued yet, and the entries enqueued, each with the
    lines that came with its packet. *)

Record ledger := Ledger {
  lg_taken : list tmp_hdr;
  lg_lines : list Z;
  lg_sent : list issue_pkt;
  lg_out : gmap Z (Z * list Z);
  lg_copies : list (rx_store_buf_q_struct * list Z) }.
Definition no_books : ledger := Ledger [] [] [] ∅ [].

Definition path_line (i : path_in) : Z := tmp_buf_buf_store_data (path_tmp_in i (RdReq false 0 true) false 0).

(** The lines of an entry that is enqueued. *)
Definition entry_lines (l : ledger) (e : rx_store_buf_q_struct) : list Z :=
  if entry_len e =? 0 then [] else default [] (snd <$> lg_out l !! entry_addr e).

Definition out_next (i : path_in) (o : path_out) (l : ledger) : gmap Z (Z * list Z) :=
  let m := match pi_enq i with
           | Some e => if entry_len e =? 0 then lg_out l else delete (entry_addr e) (lg_out l)
           | None => lg_out l
           end in
  match po_pkt o with
  | Some p => if pi_dst_rdy i && recv_payload_val p
              then <[payload_addr (recv_payload_entry p) := (payload_len (recv_payload_entry p), lg_lines l)]> m else m
  | None => m
  end.

Definition ledger_next (i : path_in) (o : path_out) (l : ledger) : ledger :=
  {| lg_taken := if pi_hdr_val i && po_hdr_rdy o then lg_taken l ++ [pi_hdr i] else lg_taken l;
     lg_lines := if pi_hdr_val i && po_hdr_rdy o then []
                 else if pi_data_val i && po_data_rdy o then lg_lines l ++ [path_line i] else lg_lines l;
     lg_sent := if pi_dst_rdy i then lg_sent l ++ option_list (po_pkt o) else lg_sent l;
     lg_out := out_next i o l;
     lg_copies := match pi_enq i with Some e => lg_copies l ++ [(e, entry_lines l e)] | None => lg_copies l end |}.

(** What the others may do: payloads fit into a slab; what is enqueued is a
    payload that was sent on, once, while there is room; a connection is opened
    before anything is enqueued for it. *)
Record path_ok (s : payload_path) (i : path_in) (l : ledger) : Prop := {
  p_hdr : pi_hdr_val i = true → 0 ≤ th_payload_len (pi_hdr i) ≤ RX_TMP_BUF_SLAB_BYTES;
  p_room : is_Some (pi_enq i) → fifo_full store_buf_q_log2 (rx_store_buf_q s) = false;
  p_enq : ∀ e, pi_enq i = Some e → flow_ok (sb_flowid e) ∧
    (entry_len e ≠ 0 → ∃ ls, lg_out l !! entry_addr e = Some (entry_len e, ls));
  p_open : nf_val (pi_new_flow i) = true → flow_ok (nf_flowid (pi_new_flow i)) ∧
    nf_flowid (pi_new_flow i) ∉ (λ c, sb_flowid c.1) <$> lg_copies l }.

Fixpoint path_oks (ins : list path_in) (s : payload_path) (l : ledger) : Prop :=
  match ins with
  | [] => True
  | i :: ins' => path_ok s i l ∧ path_oks ins' (path_next false i s) (ledger_next i (c_out payload_path_module s i) l)
  end.

Fixpoint books (ins : list path_in) (s : payload_path) (l : ledger) : ledger :=
  match ins with
  | [] => l
  | i :: ins' => books ins' (path_next false i s) (ledger_next i (c_out payload_path_module s i) l)
  end.

(** ** What should happen

    In the order of the log: an opening sets the commit pointer of a connection,
    a payload that is accepted is written at it and moves it on. *)

Inductive log_entry :=
| LOpen (flowid ptr : Z)
| LCopy (e : rx_store_buf_q_struct) (ptr : Z) (lines : list Z).

Definition accepts (e : rx_store_buf_q_struct) : bool := sb_accept_payload e && negb (entry_len e =? 0).

Definition moves (f : Z) (p : Z) (x : log_entry) : Z :=
  match x with
  | LOpen g q => if g =? f then q else p
  | LCopy e _ _ => if accepts e && (sb_flowid e =? f) then rx_ptr (p + entry_len e) else p
  end.
Definition committed (base : Z → Z) (log : list log_entry) (f : Z) : Z := fold_left (moves f) log (base f).

Inductive log_ok (base : Z → Z) : list log_entry → Prop :=
| log_nil : log_ok base []
| log_snoc log x : log_ok base log →
    match x with LCopy e ptr _ => accepts e = true → ptr = committed base log (sb_flowid e) | _ => True end →
    log_ok base (log ++ [x]).

Definition ending (e : rx_store_buf_q_struct) (ptr : Z) : list copy_event :=
  [Commit (sb_flowid e) (rx_ptr (ptr + entry_len e)); Free (entry_addr e)].
Definition copy_events (x : log_entry) : list copy_event :=
  match x with
  | LOpen _ _ => []
  | LCopy e ptr lines =>
      if entry_len e =? 0 then []
      else if sb_accept_payload e
      then Start (sb_flowid e) (ptr mod 2 ^ RX_PAYLOAD_PTR_W) (entry_len e) :: (Line <$> lines) ++ ending e ptr
      else [Free (entry_addr e)]
  end.

Definition log_copies (log : list log_entry) : list (rx_store_buf_q_struct * list Z) :=
  omap (λ x, match x with LCopy e _ ls => Some (e, ls) | _ => None end) log.
Definition log_opens (log : list log_entry) : list (Z * Z) :=
  omap (λ x, match x with LOpen f p => Some (f, p) | _ => None end) log.
Definition path_opens (ins : list path_in) : list (Z * Z) :=
  ins ≫= λ i, let n := pi_new_flow i in if nf_val n then [(nf_flowid n, nf_rx_tail_ptr n)] else [].

(** ** The invariant *)

Definition copying : Type := option (rx_store_buf_q_struct * Z * list Z).

Definition fits (len : Z) (ls : list Z) : Prop :=
  0 < len ≤ RX_TMP_BUF_SLAB_BYTES ∧ len ≤ bytes_of ls < len + NOC_DATA_BYTES.

(** Where the copying of a payload is. *)
Definition copy_rel (c : copy_regs) (cur : copying) (tread : option Z) : Prop :=
  match copy_state_reg c, cur with
  | READY, None => True
  | FREE_NON_ACCEPTED, Some (e, _, _) => q_entry_reg c = e ∧ entry_len e ≠ 0 ∧ sb_accept_payload e = false
  | COMMIT_PTR_RESP, Some (e, _, _) =>
      q_entry_reg c = e ∧ accepts e = true ∧ read_addr_reg c = entry_addr e ∧ bytes_left_reg c = entry_len e
  | DATA_COPY_START, Some (e, ptr, _) =>
      q_entry_reg c = e ∧ accepts e = true ∧ commit_ptr_reg c = ptr ∧ read_addr_reg c = entry_addr e ∧
      bytes_left_reg c = entry_len e
  | DATA_COPY, Some (e, ptr, ls) => ∃ k : nat,
      q_entry_reg c = e ∧ accepts e = true ∧ commit_ptr_reg c = ptr ∧ (k < length ls)%nat ∧
      read_addr_reg c = entry_addr e + NOC_DATA_BYTES * Z.of_nat k ∧
      bytes_left_reg c = entry_len e - NOC_DATA_BYTES * Z.of_nat k ∧ tread = Some (entry_addr e / 64 + Z.of_nat k)
  | (DATA_COPY_WAIT | UPDATE_POINTER), Some (e, ptr, _) => q_entry_reg c = e ∧ accepts e = true ∧ commit_ptr_reg c = ptr
  | _, _ => False
  end.

(** What is still to leave of the payload that is copied. *)
Definition copy_todo (c : copy_regs) (cur : copying) : list copy_event :=
  match cur with
  | None => []
  | Some (e, ptr, ls) =>
      match copy_state_reg c with
      | READY => []
      | DATA_COPY => (Line <$> drop (Z.to_nat ((entry_len e - bytes_left_reg c) / NOC_DATA_BYTES)) ls) ++ ending e ptr
      | DATA_COPY_WAIT | UPDATE_POINTER => ending e ptr
      | _ => copy_events (LCopy e ptr ls)
      end
  end.

Definition commit_read (c : copy_regs) : option Z :=
  match copy_state_reg c with COMMIT_PTR_RESP => Some (sb_flowid (q_entry_reg c)) | _ => None end.

(** The payloads that wait to be copied, the one that is being copied first. *)
Definition pending (cur : copying) (q : list (rx_store_buf_q_struct * list Z)) : list (rx_store_buf_q_struct * list Z) :=
  match cur with Some (e, _, ls) => (e, ls) :: q | None => q end.
Definition slabs_of (l : list (rx_store_buf_q_struct * list Z)) : list Z :=
  omap (λ c, if entry_len c.1 =? 0 then None else Some (entry_addr c.1)) l.

Definition commit_now (base : Z → Z) (log : list log_entry) (cur : copying) (f : Z) : Z :=
  match cur with
  | Some (e, ptr, _) => if accepts e && (sb_flowid e =? f) then ptr else committed base log f
  | None => committed base log f
  end.

Definition arriving_hdr (v : tmp_view) : list tmp_hdr :=
  match tv_arriving v with Idle => [] | Filling h _ _ | Complete h _ _ => [h] end.
Definition pkt_hdr (p : issue_pkt) : tmp_hdr :=
  TmpHdr (recv_src_ip p) (recv_dst_ip p) (payload_len (recv_payload_entry p)) (recv_tcp_hdr p).

Abbreviation commits s := (contents2 (pp_commit_ptrs s)).

Record path_rel (base : Z → Z) (s : payload_path) (l : ledger) (v : tmp_view) (log : list log_entry) (cur : copying)
    (q : list (rx_store_buf_q_struct * list Z)) : Prop := {
  r_tmp : tmp_rel (pp_tmp_buf s) v;
  r_queue : fifo_rel store_buf_q_log2 (rx_store_buf_q s) q.*1;
  r_commit : ram_rel (port0 (pp_commit_ptrs s)) (RamView (commits s) (commit_read (store_buf_cp s)));
  r_sized : sized (commits s);
  r_cur : copy_rel (store_buf_cp s) cur (tv_read v);
  r_copies : lg_copies l = log_copies log ++ q;
  r_in_log : ∀ e ptr ls, cur = Some (e, ptr, ls) → LCopy e ptr ls ∈ log ∧
    (accepts e = true → committed base log (sb_flowid e) = rx_ptr (ptr + entry_len e));
  r_flows : Forall (λ c, flow_ok (sb_flowid c.1)) (lg_copies l);
  r_pending : Forall (λ c, entry_len c.1 ≠ 0 → tv_held v !! entry_addr c.1 = Some c.2 ∧ fits (entry_len c.1) c.2) (pending cur q);
  r_nodup : NoDup (slabs_of (pending cur q));
  r_out : ∀ a len ls, lg_out l !! a = Some (len, ls) →
    tv_held v !! a = Some ls ∧ fits len ls ∧ a ∉ slabs_of (pending cur q);
  r_lines : match tv_arriving v with Filling _ _ ls | Complete _ (Some _) ls => lg_lines l = ls | _ => True end;
  r_taken : lg_taken l = (pkt_hdr <$> lg_sent l) ++ arriving_hdr v;
  r_log : log_ok base log;
  r_mem : ∀ f, flow_ok f → commits s !! Z.to_nat f = Some (commit_now base log cur f) }.

Abbreviation slabs := (all_slabs RX_TMP_BUF_NUM_SLABS RX_TMP_BUF_SLAB_BYTES).

(** *** Slabs and lines *)

Lemma slab_tmp_addr a : a ∈ slabs → tmp_addr a = a.
Proof. intros (j & Hj & -> & _)%slab_shape. apply Z.mod_small. unfold RX_TMP_BUF_ADDR_W. lia. Qed.

(** The line of the [k]th 64 bytes of a slab. *)
Lemma slab_line a k :
  a ∈ slabs → 0 ≤ k < 32 →
  (a + NOC_DATA_BYTES * k) / MAC_INTERFACE_BYTES = a / 64 + k ∧ line_of (a / 64 + k) = a / 64 + k ∧ a / 64 + k < RX_TMP_BUF_MEM_ELS ∧
  tmp_addr (a + NOC_DATA_BYTES * k + MAC_INTERFACE_BYTES) = a + NOC_DATA_BYTES * (k + 1).
Proof.
  intros (j & Hj & -> & ->)%slab_shape Hk.
  unfold line_of, tmp_addr, NOC_DATA_BYTES, MAC_INTERFACE_BYTES, RX_TMP_BUF_MEM_ELS, RX_TMP_BUF_MEM_ADDR_W, RX_TMP_BUF_ADDR_W. split_and!.
  - replace (2048 * j + 64 * k) with ((32 * j + k) * 64) by lia. by rewrite Z.div_mul.
  - apply Z.mod_small. lia.
  - lia.
  - rewrite Z.mod_small; lia.
Qed.

Lemma committed_snoc base log x f : committed base (log ++ [x]) f = moves f (committed base log f) x.
Proof. unfold committed. by rewrite fold_left_app. Qed.

Lemma slabs_of_app l1 l2 : slabs_of (l1 ++ l2) = slabs_of l1 ++ slabs_of l2.
Proof. apply omap_app. Qed.

Lemma accepts_spec e : accepts e = true ↔ sb_accept_payload e = true ∧ entry_len e ≠ 0.
Proof. unfold accepts. by rewrite andb_true_iff, negb_true_iff, Z.eqb_neq. Qed.

(** The module that writes keeps up, and nothing new comes for the copying. *)
Definition writes_on (i : path_in) : Prop :=
  pi_wr_req_rdy i = true ∧ pi_wr_data_rdy i = true ∧ pi_wr_done i = true ∧ nf_val (pi_new_flow i) = false ∧ pi_enq i = None.

(** How many cycles the copying needs at most: 38 for a payload. *)
Definition work_left (c : copy_regs) : nat :=
  match copy_state_reg c with
  | READY => 0
  | UPDATE_POINTER | FREE_NON_ACCEPTED => 1
  | DATA_COPY_WAIT => 2
  | DATA_COPY => 3 + Z.to_nat (bytes_left_reg c / NOC_DATA_BYTES)
  | DATA_COPY_START => 36
  | COMMIT_PTR_RESP => 37
  end.
Definition work {A} (c : copy_regs) (q : list A) : nat := work_left c + 38 * length q.

(** ** A cycle *)

Section Cycle.
Context (base : Z → Z) (s : payload_path) (l : ledger) (v : tmp_view) (log : list log_entry) (cur : copying).
Context (q : list (rx_store_buf_q_struct * list Z)) (i : path_in).
Hypothesis Hr : path_rel base s l v log cur q.
Hypothesis Hok : path_ok s i l.

Abbreviation c := (store_buf_cp s).
Abbreviation ci := (path_copy_in s i).
Abbreviation ctl := (copy_control c ci).
Abbreviation t := (path_tmp s i).
Abbreviation s' := (path_next false i s).
Abbreviation v' := (tmp_view_next t v).
Abbreviation o := (c_out payload_path_module s i).
Abbreviation l' := (ledger_next i o l).

(** *** What the parts show *)

Lemma store_buf_q_shows :
  read_store_buf_q_empty ci = bool_decide (q = []) ∧
  ∀ e ls q0, q = (e, ls) :: q0 → read_store_buf_q_req_data ci = e.
Proof.
  destruct (fifo_flags _ _ _ (r_queue _ _ _ _ _ _ _ Hr)) as [He _]. split.
  - cbn [read_store_buf_q_empty path_copy_in]. rewrite He. by destruct q.
  - intros e ls q0 ->. cbn [read_store_buf_q_req_data path_copy_in].
    by rewrite (fr_head _ _ _ (r_queue _ _ _ _ _ _ _ Hr) e eq_refl).
Qed.

Abbreviation look := (path_tmp_in i (RdReq false 0 (tmp_buf_rd_resp_rdy c (pi_wr_data_rdy i))) false 0).

Lemma tmp_buf_shows : sp_shows tmp_spec v look (path_tmp_shows s i).
Proof. apply tmp_shows. exact (r_tmp _ _ _ _ _ _ _ Hr). Qed.

Lemma commit_idle : commit_read c = None → commit_ptr_rd_req_rdy ci = true.
Proof.
  intros E. cbn [commit_ptr_rd_req_rdy path_copy_in]. rewrite port0_val, (port_idle _ _ (r_commit _ _ _ _ _ _ _ Hr) E).
  by rewrite orb_true_r.
Qed.

Lemma commit_shows f :
  commit_read c = Some f → flow_ok f →
  commit_ptr_rd_resp_val ci = true ∧ commit_ptr_rd_resp_data ci = commit_now base log cur f.
Proof.
  intros E Hf. destruct (port_shows _ _ _ (r_commit _ _ _ _ _ _ _ Hr) E) as [H1 H2].
  cbn [commit_ptr_rd_resp_val commit_ptr_rd_resp_data path_copy_in]. rewrite port0_val, port0_data, H1, H2. split; [done|].
  cbn [rv_mem]. by rewrite (r_mem _ _ _ _ _ _ _ Hr f Hf).
Qed.

(** A payload that waits or is being copied. *)
Lemma pending_held e ls :
  (e, ls) ∈ pending cur q → entry_len e ≠ 0 →
  tv_held v !! entry_addr e = Some ls ∧ fits (entry_len e) ls ∧ entry_addr e ∈ slabs ∧ Z.of_nat (length ls) ≤ 32.
Proof.
  intros Hin Hne. pose proof (r_pending _ _ _ _ _ _ _ Hr) as H. rewrite Forall_forall in H.
  destruct (H _ Hin Hne) as [Hh Hf]. by destruct (tr_held _ _ (r_tmp _ _ _ _ _ _ _ Hr) _ _ Hh) as ([Hs _] & _ & Hn).
Qed.

Lemma pending_copies : pending cur q ⊆ lg_copies l.
Proof.
  intros x. rewrite (r_copies _ _ _ _ _ _ _ Hr), elem_of_app. pose proof (r_in_log _ _ _ _ _ _ _ Hr) as Hlog. unfold pending.
  destruct cur as [[[e ptr] ls]|]; [|by right]. rewrite elem_of_cons. intros [->|H]; [left|by right].
  destruct (Hlog _ _ _ eq_refl) as [Hin _]. apply list_elem_of_omap. by exists (LCopy e ptr ls).
Qed.

Lemma pending_flow_ok e ls : (e, ls) ∈ pending cur q → flow_ok (sb_flowid e).
Proof.
  intros H%pending_copies. pose proof (r_flows _ _ _ _ _ _ _ Hr) as Hf. rewrite Forall_forall in Hf. by apply (Hf (e, ls)).
Qed.

Lemma current_pending e ptr ls : cur = Some (e, ptr, ls) → (e, ls) ∈ pending cur q.
Proof. intros ->. left. Qed.

Lemma free_now :
  free_slab_req_val ctl = true → ∃ e ptr ls, cur = Some (e, ptr, ls) ∧ q_entry_reg c = e ∧ entry_len e ≠ 0 ∧
    free_slab_addr c = entry_addr e ∧ tmp_buf_free_slab_rdy ci = true.
Proof.
  pose proof (r_cur _ _ _ _ _ _ _ Hr) as Hc. pose proof current_pending as Hcur. unfold copy_rel in Hc. unfold copy_control.
  assert (Hgo : ∀ e ptr ls, cur = Some (e, ptr, ls) → q_entry_reg c = e → entry_len e ≠ 0 →
    free_slab_addr c = entry_addr e ∧ tmp_buf_free_slab_rdy ci = true).
  { intros e ptr ls E Eq Hne. destruct (pending_held _ _ (Hcur _ _ _ E) Hne) as (Hh & _ & Hs & _). unfold free_slab_addr. rewrite Eq.
    split; [by apply slab_tmp_addr|]. destruct tmp_buf_shows as (_ & _ & _ & _ & _ & _ & Hf). apply Hf.
    intros Hemp. rewrite Hemp, lookup_empty in Hh. done. }
  destruct (copy_state_reg c), cur as [[[e ptr] ls]|]; try done; cbn [free_slab_req_val].
  - by repeat case_match.
  - by repeat case_match.
  - by repeat case_match.
  - by repeat case_match.
  - destruct Hc as (Eq & [_ Hne]%accepts_spec & _). intros _. exists e, ptr, ls. split_and!; try done; by eapply Hgo.
  - destruct Hc as (Eq & Hne & _). intros _. exists e, ptr, ls. split_and!; try done; by eapply Hgo.
Qed.

(** *** What is done in the cycle *)

Definition popped_now : list (rx_store_buf_q_struct * list Z) :=
  if read_store_buf_q_req_val ctl then take 1 q else [].
Definition enqueued_now : list (rx_store_buf_q_struct * list Z) :=
  match pi_enq i with Some e => [(e, entry_lines l e)] | None => [] end.
Definition queue_then : list (rx_store_buf_q_struct * list Z) :=
  (if read_store_buf_q_req_val ctl then tail q else q) ++ enqueued_now.
Definition opened_now : list log_entry :=
  let n := pi_new_flow i in if nf_val n then [LOpen (nf_flowid n) (nf_rx_tail_ptr n)] else [].
Definition copied_now : list log_entry :=
  (λ c, LCopy c.1 (committed base log (sb_flowid c.1)) c.2) <$> popped_now.
Definition log_then : list log_entry := log ++ opened_now ++ copied_now.

Definition cur_then : copying :=
  match copy_state_reg c with
  | READY =>
      match popped_now with
      | (e, ls) :: _ => if entry_len e =? 0 then None else Some (e, committed base log (sb_flowid e), ls)
      | [] => None
      end
  | UPDATE_POINTER | FREE_NON_ACCEPTED => match copy_state_next ctl with READY => None | _ => cur end
  | _ => cur
  end.

(** *** The copying, state by state *)

Definition copy_step_ok : Prop :=
  copy_rel (store_buf_cp s') cur_then (tv_read v') ∧
  po_events o ++ copy_todo (store_buf_cp s') cur_then = copy_todo c cur ++ (copied_now ≫= copy_events).

(** The control in this cycle gives the next registers and what leaves. *)
Lemma copy_next_eq x :
  ctl = x →
  store_buf_cp s' = {| copy_state_reg := copy_state_next x;
    q_entry_reg := if read_store_buf_q_req_val x then read_store_buf_q_req_data ci else q_entry_reg c;
    commit_ptr_reg := if save_commit_ptr x then commit_ptr_rd_resp_data ci else commit_ptr_reg c;
    read_addr_reg := read_addr_next c ci; bytes_left_reg := bytes_left_next c ci |}.
Proof. intros E. cbn [store_buf_cp path_next]. unfold copy_next, q_entry_next. by rewrite E. Qed.

Lemma read_next_eq x : ctl = x →
  tv_read v' = reads_next (tv_read v)
    (RdReq (tmp_buf_rd_req_val x) (line_of (read_addr_next c ci / MAC_INTERFACE_BYTES)) (tmp_buf_rd_resp_rdy c (pi_wr_data_rdy i))).
Proof. intros <-. done. Qed.

Lemma ready_step : copy_state_reg c = READY → copy_step_ok.
Proof.
  intros Est. pose proof (r_cur _ _ _ _ _ _ _ Hr) as Hc. unfold copy_rel in Hc. rewrite Est in Hc.
  assert (Ecur : cur = None) by (by destruct cur as [[[??]?]|]). destruct store_buf_q_shows as [He Hh].
  assert (Hrdy : commit_ptr_rd_req_rdy ci = true) by (apply commit_idle; unfold commit_read; by rewrite Est).
  assert (Ectl : ctl = match q with
    | [] => CopyCtrl false false false false false false false false false false READY
    | (e, _) :: _ => if entry_len e =? 0 then CopyCtrl true false false false false false false false false false READY
        else if negb (sb_accept_payload e) then CopyCtrl true false false false false false false false false false FREE_NON_ACCEPTED
        else CopyCtrl true false false false true false false true false false COMMIT_PTR_RESP
    end).
  { unfold copy_control. rewrite Est, He, Hrdy. destruct q as [|[e ls] q0]; [done|]. by rewrite (Hh e ls q0 eq_refl). }
  unfold copy_step_ok, cur_then, copied_now, popped_now. cbn [po_events c_out payload_path_module]. unfold copy_shows.
  rewrite (copy_next_eq _ Ectl), Est, Ecur. unfold read_addr_next, bytes_left_next, q_entry_next. rewrite Ectl.
  pose proof pending_held as Hp. destruct q as [|[e ls] q0]; [by cbn|]. rewrite (Hh e ls q0 eq_refl). destruct (Z.eqb_spec (entry_len e) 0) as [Hz|Hz].
  { cbn. rewrite (proj2 (Z.eqb_eq _ _) Hz). done. }
  pose proof (proj2 (Z.eqb_neq _ _) Hz) as Hb.
  destruct (sb_accept_payload e) eqn:Ea; cbn -[Z.eqb]; rewrite Hb; cbn -[Z.eqb]; rewrite ?Hb, ?Ea; cbn; rewrite ?app_nil_r.
  - split; [|done]. split_and!; try done; [by apply accepts_spec|]. apply slab_tmp_addr.
    rewrite Ecur in Hp. by apply (Hp e ls); [left|].
  - rewrite take_0. by cbn.
Qed.

(** A state with a payload in it, once the control is known. *)
Ltac copy_step Est Ecur Ectl :=
  unfold copy_step_ok, cur_then, copied_now, popped_now; cbn [po_events c_out payload_path_module]; unfold copy_shows;
  rewrite (copy_next_eq _ Ectl), (read_next_eq _ Ectl), Est, Ecur;
  unfold read_addr_next, bytes_left_next, q_entry_next; rewrite Ectl; cbn -[path_copy_in path_tmp_shows Z.div Z.modulo Z.mul]; rewrite ?Est; cbn -[path_copy_in path_tmp_shows Z.div Z.modulo Z.mul].

Lemma commit_ptr_resp_step e ptr ls : copy_state_reg c = COMMIT_PTR_RESP → cur = Some (e, ptr, ls) → copy_step_ok.
Proof.
  intros Est Ecur. pose proof (r_cur _ _ _ _ _ _ _ Hr) as Hc. unfold copy_rel in Hc. rewrite Est, Ecur in Hc.
  destruct Hc as (Eq & Ha & Er & Eb). pose proof (pending_flow_ok _ _ (current_pending _ _ _ Ecur)) as Hf.
  destruct (commit_shows (sb_flowid e)) as [Hv Hd]; [unfold commit_read; by rewrite Est, Eq|done|].
  assert (Hptr : commit_ptr_rd_resp_data ci = ptr) by (rewrite Hd; unfold commit_now; by rewrite Ecur, Ha, Z.eqb_refl).
  assert (Ectl : ctl = CopyCtrl false false false true false false false false false false DATA_COPY_START)
    by (unfold copy_control; by rewrite Est, Hv).
  copy_step Est Ecur Ectl. by rewrite app_nil_r.
Qed.

Lemma data_copy_start_step e ptr ls : copy_state_reg c = DATA_COPY_START → cur = Some (e, ptr, ls) → copy_step_ok.
Proof.
  intros Est Ecur. pose proof (r_cur _ _ _ _ _ _ _ Hr) as Hc. unfold copy_rel in Hc. rewrite Est, Ecur in Hc.
  destruct Hc as (Eq & Ha & Ep & Er & Eb). pose proof (proj1 (accepts_spec e) Ha) as [Hacc Hne].
  destruct (pending_held _ _ (current_pending _ _ _ Ecur) Hne) as (_ & Hfit & Hs & Hlen).
  destruct (wr_buf_ctrl_req_rdy ci && tmp_buf_rd_req_rdy ci) eqn:E.
  - assert (Ectl : ctl = CopyCtrl false true false false false false true false false false DATA_COPY)
      by (unfold copy_control; by rewrite Est, E).
    copy_step Est Ecur Ectl. rewrite Eq, Ep, Er, Eb, Hacc, (proj2 (Z.eqb_neq _ _) Hne), Z.sub_diag, app_nil_r.
    split; [|done]. exists 0%nat. unfold tmp_buf_rd_resp_rdy. rewrite Est. unfold fits, bytes_of, NOC_DATA_BYTES in *.
    destruct (slab_line (entry_addr e) 0 Hs) as (Hl1 & Hl2 & _); [lia|].
    rewrite Z.mul_0_r, Z.add_0_r in Hl1. rewrite Hl1, Hl2. split_and!; try done; lia.
  - assert (Ectl : ctl = CopyCtrl false false false false false false false false false false DATA_COPY_START)
      by (unfold copy_control; by rewrite Est, E).
    copy_step Est Ecur Ectl. by rewrite app_nil_r.
Qed.

Lemma data_copy_wait_step e ptr ls : copy_state_reg c = DATA_COPY_WAIT → cur = Some (e, ptr, ls) → copy_step_ok.
Proof.
  intros Est Ecur. pose proof (r_cur _ _ _ _ _ _ _ Hr) as Hc. unfold copy_rel in Hc. rewrite Est, Ecur in Hc.
  assert (Ectl : ctl = CopyCtrl false false false false false false false false false false
    (if wr_buf_ctrl_wr_req_done ci then UPDATE_POINTER else DATA_COPY_WAIT)) by (unfold copy_control; by rewrite Est).
  copy_step Est Ecur Ectl. rewrite ?app_nil_r. destruct (wr_buf_ctrl_wr_req_done ci); by cbn.
Qed.

Lemma update_pointer_step e ptr ls : copy_state_reg c = UPDATE_POINTER → cur = Some (e, ptr, ls) → copy_step_ok.
Proof.
  intros Est Ecur. pose proof (r_cur _ _ _ _ _ _ _ Hr) as Hc. unfold copy_rel in Hc. rewrite Est, Ecur in Hc.
  destruct Hc as (Eq & Ha & Ep). destruct (commit_ptr_wr_rdy ci && tmp_buf_free_slab_rdy ci) eqn:E.
  - pose proof free_now as Hf.
    assert (Ectl : ctl = CopyCtrl false false false false false false false false true true READY)
      by (unfold copy_control; by rewrite Est, E).
    rewrite Ectl, Ecur in Hf. destruct (Hf eq_refl) as (e' & ? & ? & [= <- <- <-] & _ & _ & Hfa & Hfr).
    copy_step Est Ecur Ectl. rewrite Eq, Ep. by rewrite Hfr, Hfa.
  - assert (Ectl : ctl = CopyCtrl false false false false false false false false false false UPDATE_POINTER)
      by (unfold copy_control; by rewrite Est, E).
    copy_step Est Ecur Ectl. by cbn.
Qed.

Lemma free_non_accepted_step e ptr ls : copy_state_reg c = FREE_NON_ACCEPTED → cur = Some (e, ptr, ls) → copy_step_ok.
Proof.
  intros Est Ecur. pose proof (r_cur _ _ _ _ _ _ _ Hr) as Hc. unfold copy_rel in Hc. rewrite Est, Ecur in Hc.
  destruct Hc as (Eq & Hne & Ha). pose proof free_now as Hf.
  assert (Ectl : ctl = CopyCtrl false false false false false false false false true false
    (if tmp_buf_free_slab_rdy ci then READY else FREE_NON_ACCEPTED)) by (unfold copy_control; by rewrite Est).
  rewrite Ectl, Ecur in Hf. destruct (Hf eq_refl) as (e' & ? & ? & [= <- <- <-] & _ & _ & Hfa & Hfr).
  rewrite Hfr in Ectl. copy_step Est Ecur Ectl.
  by rewrite Hfr, Hfa, (proj2 (Z.eqb_neq _ _) Hne), Ha.
Qed.

(** The line that the buffer shows while a payload is copied. *)
Lemma line_shown e ptr ls k d :
  cur = Some (e, ptr, ls) → entry_len e ≠ 0 → ls !! k = Some d → tv_read v = Some (entry_addr e / 64 + Z.of_nat k) →
  tmp_buf_rd_resp_val ci = true ∧ to_rd_resp_data (path_tmp_shows s i) = Some d.
Proof.
  intros Ecur Hne Hd Ht. destruct (pending_held _ _ (current_pending _ _ _ Ecur) Hne) as (Hh & _).
  destruct tmp_buf_shows as (_ & _ & _ & _ & Hv & Hdata & _). split; [|by eapply Hdata].
  cbn [tmp_buf_rd_resp_val path_copy_in]. by rewrite Hv, Ht.
Qed.

(** How far the copying is. *)
Lemma copied_lines len k : (len - (len - NOC_DATA_BYTES * Z.of_nat k)) / NOC_DATA_BYTES = Z.of_nat k.
Proof. unfold NOC_DATA_BYTES. replace (_ - _) with (Z.of_nat k * 64) by lia. by apply Z.div_mul. Qed.

Lemma data_copy_step e ptr ls : copy_state_reg c = DATA_COPY → cur = Some (e, ptr, ls) → copy_step_ok.
Proof.
  intros Est Ecur. pose proof (r_cur _ _ _ _ _ _ _ Hr) as Hc. unfold copy_rel in Hc. rewrite Est, Ecur in Hc.
  destruct Hc as (k & Eq & Ha & Ep & Hk & Er & Eb & Et). pose proof (proj1 (accepts_spec e) Ha) as [_ Hne].
  destruct (pending_held _ _ (current_pending _ _ _ Ecur) Hne) as (_ & [Hl1 Hl2] & Hs & Hlen).
  destruct (lookup_lt_is_Some_2 ls k Hk) as [d Hd]. destruct (line_shown _ _ _ _ _ Ecur Hne Hd Et) as [Hv Hdata].
  assert (Hrdy : tmp_buf_rd_resp_rdy c (pi_wr_data_rdy i) = pi_wr_data_rdy i) by (unfold tmp_buf_rd_resp_rdy; by rewrite Est).
  pose proof (drop_S _ _ _ Hd) as Hdrop. unfold bytes_of in Hl2.
  destruct (wr_buf_ctrl_req_data_rdy ci) eqn:E; pose proof E as E2; cbn [wr_buf_ctrl_req_data_rdy path_copy_in] in E2.
  - destruct (last_transfer c) eqn:El; unfold last_transfer in El; rewrite Eb in El.
    + assert (Ectl : ctl = CopyCtrl false false true false false false true false false false DATA_COPY_WAIT)
        by (unfold copy_control, last_transfer; by rewrite Est, Hv, E, Eb, El).
      copy_step Est Ecur Ectl. rewrite E, Hdata, Eb, copied_lines, Nat2Z.id, Hdrop, app_nil_r. split; [done|].
      rewrite drop_ge; [done|]. unfold NOC_DATA_BYTES in *. lia.
    + assert (Ectl : ctl = CopyCtrl false false true false false true true false false false DATA_COPY)
        by (unfold copy_control, last_transfer; by rewrite Est, Hv, E, Eb, El).
      assert (Hk' : (S k < length ls)%nat) by (unfold NOC_DATA_BYTES in *; lia).
      assert (Eb' : (bytes_left_reg c - MAC_INTERFACE_BYTES) mod 2 ^ TOT_LEN_W = entry_len e - NOC_DATA_BYTES * Z.of_nat (S k)).
      { rewrite Eb. unfold NOC_DATA_BYTES, MAC_INTERFACE_BYTES, TOT_LEN_W, RX_TMP_BUF_SLAB_BYTES in *. rewrite Z.mod_small; lia. }
      destruct (slab_line (entry_addr e) (Z.of_nat k) Hs) as (_ & _ & _ & Ea); [lia|].
      destruct (slab_line (entry_addr e) (Z.of_nat (S k)) Hs) as (Ed & Em & _); [lia|].
      replace (Z.of_nat k + 1) with (Z.of_nat (S k)) in Ea by lia. rewrite <- Er in Ea.
      copy_step Est Ecur Ectl. rewrite E, Hdata, Ea, Eb', Eb, Ed, Em, !copied_lines, !Nat2Z.id, Hdrop, !app_nil_r. split; [|done].
      exists (S k). split_and!; try done. unfold reads_next. by rewrite Hrdy, E2.
  - assert (Ectl : ctl = CopyCtrl false false true false false false true false false false DATA_COPY)
      by (unfold copy_control; by rewrite Est, Hv, E).
    copy_step Est Ecur Ectl. rewrite E, !app_nil_r. split; [|done]. exists k. split_and!; try done.
    unfold reads_next. cbn [rd_resp_rdy rd_val]. rewrite Hrdy, E2, Et. done.
Qed.

Lemma copying_step : copy_step_ok.
Proof.
  pose proof (r_cur _ _ _ _ _ _ _ Hr) as Hc. unfold copy_rel in Hc. destruct (copy_state_reg c) eqn:Est; [by apply ready_step|..];
    (assert (∃ e ptr ls, cur = Some (e, ptr, ls)) as (e & ptr & ls & Ecur)
      by (clear -Hc; destruct cur as [[[??]?]|]; [by eauto|done])).
  - by eapply commit_ptr_resp_step.
  - by eapply data_copy_start_step.
  - by eapply data_copy_step.
  - by eapply data_copy_wait_step.
  - by eapply update_pointer_step.
  - by eapply free_non_accepted_step.
Qed.

(** *** The buffer, the queue and the commit pointers after the cycle *)

Lemma copying_entry e ptr ls : cur = Some (e, ptr, ls) → q_entry_reg c = e.
Proof.
  intros Ecur. pose proof (r_cur _ _ _ _ _ _ _ Hr) as Hc. unfold copy_rel in Hc. rewrite Ecur in Hc.
  destruct (copy_state_reg c); try done; [apply Hc..| |apply Hc|apply Hc|apply Hc]. by destruct Hc as (k & ? & _).
Qed.

Lemma pops :
  read_store_buf_q_req_val ctl = true →
  copy_state_reg c = READY ∧ cur = None ∧ ∃ e ls q0, q = (e, ls) :: q0 ∧ popped_now = [(e, ls)] ∧ read_store_buf_q_req_data ci = e.
Proof.
  intros E. assert (Est : copy_state_reg c = READY ∧ read_store_buf_q_empty ci = false)
    by (clear -E; unfold copy_control in E; repeat case_match; try done; (split; [done|by apply negb_true_iff])).
  destruct Est as [Est Hne]. split; [done|]. destruct store_buf_q_shows as [He Hh]. pose proof (r_cur _ _ _ _ _ _ _ Hr) as Hc.
  split; [clear -Hc Est; unfold copy_rel in Hc; rewrite Est in Hc; by destruct cur|].
  unfold popped_now. rewrite E. rewrite He in Hne. clear -Hne Hh. destruct q as [|[e ls] q0]; [done|].
  exists e, ls, q0. split_and!; [done..|by apply (Hh e ls q0)].
Qed.

Lemma popped_none : read_store_buf_q_req_val ctl = false → popped_now = [].
Proof. unfold popped_now. by intros ->. Qed.

(** A line that is asked for is one of the payload that is being copied. *)
Lemma line_asked :
  tmp_buf_rd_req_val ctl = true → ∃ e ls (k : nat), (e, ls) ∈ pending cur q ∧ entry_len e ≠ 0 ∧ (k < length ls)%nat ∧
    read_addr_next c ci = entry_addr e + NOC_DATA_BYTES * Z.of_nat k.
Proof.
  intros E. pose proof (r_cur _ _ _ _ _ _ _ Hr) as Hc. pose proof current_pending as Hcp.
  assert (Hst : init_tmp_buf_rd_metadata ctl = false ∧ (update_tmp_buf_rd_metadata ctl = true → last_transfer c = false) ∧
    ((copy_state_reg c = DATA_COPY_START ∧ update_tmp_buf_rd_metadata ctl = false) ∨ copy_state_reg c = DATA_COPY)).
  { clear -E. unfold copy_control in *. repeat case_match; try done; split_and!; try done; by (left + right). }
  destruct Hst as (Hi & Hu & Hst). unfold read_addr_next. rewrite Hi. unfold copy_rel in Hc.
  destruct Hst as [[Est ->]|Est]; rewrite Est in Hc;
    (assert (∃ e ptr ls, cur = Some (e, ptr, ls)) as (e & ptr & ls & Ecur) by (clear -Hc; destruct cur as [[[??]?]|]; [by eauto|done]));
    rewrite Ecur in Hc; [|destruct Hc as (k & Hc)]; destruct Hc as (Eq & Ha & Ep & Hc); pose proof (proj1 (accepts_spec e) Ha) as [_ Hne];
    destruct (pending_held _ _ (Hcp _ _ _ Ecur) Hne) as (_ & [Hl1 Hl2] & Hs & Hlen); unfold bytes_of in Hl2.
  - destruct Hc as [Er Eb]. exists e, ls, 0%nat. split_and!; [by eapply Hcp|done| |]; unfold NOC_DATA_BYTES in *; lia.
  - destruct Hc as (Hk & Er & Eb & _). destruct (update_tmp_buf_rd_metadata ctl); [|exists e, ls, k; split_and!; [by eapply Hcp|done..]].
    specialize (Hu eq_refl). unfold last_transfer in Hu. exists e, ls, (S k). split_and!; [by eapply Hcp|done| |].
    + unfold NOC_DATA_BYTES in *. lia.
    + destruct (slab_line (entry_addr e) (Z.of_nat k) Hs) as (_ & _ & _ & Ea); [lia|]. rewrite Er, Ea. lia.
Qed.

Lemma path_tmp_legal : sp_legal tmp_spec v t.
Proof.
  split_and!; [exact (p_hdr _ _ _ Hok)| |].
  - intros E. destruct (free_now E) as (e & ptr & ls & Ecur & Eq & Hne & Ea & _).
    destruct (pending_held _ _ (current_pending _ _ _ Ecur) Hne) as (Hh & _). cbn [ti_free_addr path_tmp path_tmp_in]. rewrite Ea. by eexists.
  - cbn [ti_rd path_tmp path_tmp_in]. unfold tmp_buf_rd. cbn [rd_val rd_addr]. intros E.
    destruct (line_asked E) as (e & ls & k & Hin & Hne & Hk & ->). destruct (pending_held _ _ Hin Hne) as (_ & _ & Hs & Hl).
    destruct (slab_line (entry_addr e) (Z.of_nat k) Hs) as (-> & E1 & E2 & _); [lia|]. by rewrite E1.
Qed.

Lemma tmp_buf_then : tmp_rel (pp_tmp_buf s') v'.
Proof. exact (proj2 (tmp_simulates xz _ _ _ (r_tmp _ _ _ _ _ _ _ Hr) path_tmp_legal)). Qed.

Lemma queue_then_rel : fifo_rel store_buf_q_log2 (rx_store_buf_q s') queue_then.*1.
Proof.
  destruct (fifo_flags _ _ _ (r_queue _ _ _ _ _ _ _ Hr)) as [_ Hfull].
  assert (Hl : sp_legal (queue_spec store_buf_q_log2) q.*1 (store_buf_q_in s i)).
  { split; cbn [rd_req Fifo.wr_req store_buf_q_in].
    - intros E. destruct (pops E) as (_ & _ & e & ls & q0 & -> & _). done.
    - rewrite bool_decide_eq_true. intros He. left. rewrite (p_room _ _ _ Hok He) in Hfull. symmetry in Hfull.
      rewrite bool_decide_eq_false in Hfull. pose proof (fr_cap _ _ _ (r_queue _ _ _ _ _ _ _ Hr)). lia. }
  pose proof (proj2 (fifo_simulates zero_q_entry store_buf_q_log2 _ _ _ (r_queue _ _ _ _ _ _ _ Hr) Hl)) as H.
  replace (queue_then.*1) with (sp_next (queue_spec store_buf_q_log2) (store_buf_q_in s i) q.*1); [exact H|].
  cbn [sp_next queue_spec]. unfold queue_next, queue_then, enqueued_now. cbn [rd_req Fifo.wr_req Fifo.wr_data store_buf_q_in]. rewrite fmap_app. f_equal.
  - destruct (read_store_buf_q_req_val _); [by destruct q|done].
  - by destruct (pi_enq i).
Qed.

Lemma commit_read_next : reads_next (commit_read c) (commit_ptr_rd c ci) = commit_read (store_buf_cp s').
Proof.
  pose proof (r_commit _ _ _ _ _ _ _ Hr) as Hc. unfold commit_read at 1. pose proof (port_shows _ _ (sb_flowid (q_entry_reg c)) Hc) as Hv.
  cbn [rv_read] in Hv. unfold commit_read in Hv. unfold commit_ptr_rd, commit_ptr_rd_resp_rdy, commit_read, reads_next.
  cbn [store_buf_cp path_next rd_val rd_addr rd_resp_rdy]. unfold copy_next. cbn [copy_state_reg q_entry_reg]. unfold copy_control.
  destruct (copy_state_reg c); try by repeat case_match.
  destruct (Hv eq_refl) as [Hv' _]. cbn [commit_ptr_rd_resp_val path_copy_in]. rewrite port0_val, Hv'. done.
Qed.

(** *** What a cycle can be *)

Definition takes_up : Prop := ∃ e ls q0,
  read_store_buf_q_req_val ctl = true ∧ cur = None ∧ q = (e, ls) :: q0 ∧ popped_now = [(e, ls)] ∧
  cur_then = (if entry_len e =? 0 then None else Some (e, committed base log (sb_flowid e), ls)) ∧
  commit_ptr_wr_req_val ctl = false ∧ free_slab_req_val ctl = false.

Definition finishes : Prop := ∃ e ptr ls,
  read_store_buf_q_req_val ctl = false ∧ cur = Some (e, ptr, ls) ∧ cur_then = None ∧ entry_len e ≠ 0 ∧
  free_slab_req_val ctl = true ∧ free_slab_addr c = entry_addr e ∧ commit_ptr_wr_req_val ctl = accepts e ∧
  (accepts e = true → nf_val (pi_new_flow i) = false ∧ commit_ptr_wr c ci = WrReq true (sb_flowid e) (rx_ptr (ptr + entry_len e))).

Definition goes_on : Prop :=
  read_store_buf_q_req_val ctl = false ∧ cur_then = cur ∧ commit_ptr_wr_req_val ctl = false ∧ free_slab_req_val ctl = false.

Lemma update_pointer_cases : copy_state_reg c = UPDATE_POINTER → finishes ∨ goes_on.
Proof.
  intros Est. unfold goes_on, cur_then. rewrite Est. unfold copy_control. rewrite Est.
  destruct (commit_ptr_wr_rdy ci && tmp_buf_free_slab_rdy ci) eqn:E; [left|right; done].
  assert (Ectl : ctl = CopyCtrl false false false false false false false false true true READY)
    by (unfold copy_control; by rewrite Est, E).
  pose proof free_now as Hf. rewrite Ectl in Hf. destruct (Hf eq_refl) as (e & ptr & ls & Ecur & Eq & Hne & Ea & _).
  pose proof (r_cur _ _ _ _ _ _ _ Hr) as Hc. unfold copy_rel in Hc. rewrite Est, Ecur in Hc. destruct Hc as (_ & Ha & Ep).
  exists e, ptr, ls. unfold cur_then, commit_ptr_wr. rewrite Ectl, Est, Eq, Ep, Ha. split_and!; try done.
  intros _. apply andb_true_iff in E as [E _]. cbn [commit_ptr_wr_rdy path_copy_in] in E. unfold commit_ptr_wr_req_rdy, wr_rdy in E.
  split; [|done]. apply andb_true_iff in E as [E _]. by apply negb_true_iff.
Qed.

Lemma free_non_accepted_cases : copy_state_reg c = FREE_NON_ACCEPTED → finishes.
Proof.
  intros Est. assert (Ectl : ctl = CopyCtrl false false false false false false false false true false
    (if tmp_buf_free_slab_rdy ci then READY else FREE_NON_ACCEPTED)) by (unfold copy_control; by rewrite Est).
  pose proof free_now as Hf. rewrite Ectl in Hf. destruct (Hf eq_refl) as (e & ptr & ls & Ecur & Eq & Hne & Ea & Erdy).
  pose proof (r_cur _ _ _ _ _ _ _ Hr) as Hc. unfold copy_rel in Hc. rewrite Est, Ecur in Hc. destruct Hc as (_ & _ & Ha).
  assert (Hacc : accepts e = false) by (unfold accepts; by rewrite Ha).
  exists e, ptr, ls. unfold cur_then. rewrite Ectl, Est, Erdy, Hacc. by split_and!.
Qed.

Lemma ready_cases : copy_state_reg c = READY → takes_up ∨ goes_on.
Proof.
  intros Est. pose proof (r_cur _ _ _ _ _ _ _ Hr) as Hc. unfold copy_rel in Hc. rewrite Est in Hc.
  assert (Hwf : commit_ptr_wr_req_val ctl = false ∧ free_slab_req_val ctl = false)
    by (unfold copy_control; rewrite Est; by repeat case_match).
  destruct Hwf as [Hw Hf]. destruct (read_store_buf_q_req_val ctl) eqn:E.
  - left. destruct (pops E) as (_ & Ecur & e & ls & q0 & Eq & Ep & _). exists e, ls, q0.
    split_and!; try done. unfold cur_then. by rewrite Est, Ep.
  - right. unfold goes_on. rewrite E, Hw, Hf. split_and!; try done. unfold cur_then. rewrite Est, (popped_none E).
    clear -Hc. by destruct cur.
Qed.

Lemma cycle_cases : takes_up ∨ finishes ∨ goes_on.
Proof.
  destruct (copy_state_reg c) eqn:Est;
    [destruct (ready_cases Est); by auto| | | | |by right; apply update_pointer_cases|by right; left; apply free_non_accepted_cases];
    (right; right; unfold goes_on, cur_then; rewrite Est; unfold copy_control; rewrite Est; by repeat case_match).
Qed.

(** A connection is not opened while a payload of its own is underway. *)
Lemma open_elsewhere e ls : (e, ls) ∈ pending cur q → nf_val (pi_new_flow i) = true → nf_flowid (pi_new_flow i) ≠ sb_flowid e.
Proof.
  intros Hin En Ef. destruct (p_open _ _ _ Hok En) as [_ Hn]. apply Hn. rewrite Ef. apply list_elem_of_fmap.
  exists (e, ls). split; [done|]. by apply pending_copies.
Qed.

Lemma committed_opened f :
  committed base (log ++ opened_now) f =
  if nf_val (pi_new_flow i) && (nf_flowid (pi_new_flow i) =? f) then nf_rx_tail_ptr (pi_new_flow i) else committed base log f.
Proof.
  unfold opened_now. destruct (nf_val (pi_new_flow i)); [by rewrite committed_snoc|by rewrite app_nil_r].
Qed.

(** *** The commit pointers after the cycle *)

Lemma commit_wr_flow : commit_ptr_wr_req_val ctl = true → flow_ok (sb_flowid (q_entry_reg c)).
Proof.
  intros E. destruct cycle_cases as [(e & ls & q0 & _ & _ & _ & _ & _ & Ew & _)|[(e & ptr & ls & _ & Ecur & _)|(_ & _ & Ew & _)]];
    [by rewrite Ew in E| |by rewrite Ew in E].
  rewrite (copying_entry _ _ _ Ecur). by apply (pending_flow_ok e ls), (current_pending e ptr ls).
Qed.

Abbreviation commit_mem_wr := (mem_wr (pi_new_flow i) (nf_rx_tail_ptr (pi_new_flow i)) (commit_ptr_wr c ci)).

Lemma commits_then : commits s' = written commit_mem_wr (commits s).
Proof. done. Qed.

Lemma commit_mem_flow : wr_val commit_mem_wr = true → flow_ok (wr_addr commit_mem_wr).
Proof.
  unfold mem_wr. cbn [wr_val wr_addr commit_ptr_wr]. destruct (nf_val (pi_new_flow i)) eqn:En.
  - intros _. by destruct (p_open _ _ _ Hok En).
  - exact commit_wr_flow.
Qed.

Lemma commit_ports_then :
  ram_rel (port0 (pp_commit_ptrs s')) (RamView (commits s') (commit_read (store_buf_cp s'))) ∧ sized (commits s').
Proof.
  pose proof (r_sized _ _ _ _ _ _ _ Hr) as Hs. split; [|rewrite commits_then; by apply sized_written].
  rewrite commits_then, <- commit_read_next. apply port0_step; [exact (r_commit _ _ _ _ _ _ _ Hr)| |].
  - intros E. apply sized_in_range; [done|]. by apply commit_mem_flow.
  - cbn [rd_val rd_addr commit_ptr_rd]. unfold rd_ok, commit_ptr_rd, q_entry_next. cbn [rd_val rd_addr]. intros E.
    assert (Ep : read_store_buf_q_req_val ctl = true) by (clear -E; unfold copy_control in *; by repeat case_match).
    rewrite Ep. destruct (pops Ep) as (_ & Ecur & e & ls & q0 & Eq & _ & ->). apply sized_in_range; [done|].
    apply (pending_flow_ok e ls). rewrite Ecur, Eq. left.
Qed.

Lemma commits_then_lookup f : flow_ok f →
  commits s' !! Z.to_nat f = Some (
    if nf_val (pi_new_flow i) then if nf_flowid (pi_new_flow i) =? f then nf_rx_tail_ptr (pi_new_flow i) else commit_now base log cur f
    else if commit_ptr_wr_req_val ctl && (sb_flowid (q_entry_reg c) =? f) then wr_dat (commit_ptr_wr c ci)
    else commit_now base log cur f).
Proof.
  intros Hf. rewrite commits_then, written_lookup; [|exact (r_sized _ _ _ _ _ _ _ Hr)|done|exact commit_mem_flow].
  rewrite (r_mem _ _ _ _ _ _ _ Hr f Hf). unfold mem_wr. cbn [wr_val wr_addr wr_dat].
  unfold commit_ptr_wr. cbn [wr_val wr_addr wr_dat].
  destruct (nf_val (pi_new_flow i)), (commit_ptr_wr_req_val ctl); cbn [orb andb]; by repeat case_match.
Qed.

Lemma committed_then f : committed base log_then f =
  match popped_now with
  | (e, _) :: _ => if accepts e && (sb_flowid e =? f) then rx_ptr (committed base (log ++ opened_now) f + entry_len e)
                   else committed base (log ++ opened_now) f
  | [] => committed base (log ++ opened_now) f
  end.
Proof.
  unfold log_then, copied_now. rewrite app_assoc. destruct (read_store_buf_q_req_val ctl) eqn:E.
  - destruct (pops E) as (_ & _ & e & ls & q0 & _ & -> & _). cbn [fmap list_fmap fst snd]. by rewrite committed_snoc.
  - by rewrite (popped_none E), app_nil_r.
Qed.

(** What is underway for a connection is not disturbed by an opening. *)
Lemma opened_apart e ls : (e, ls) ∈ pending cur q → committed base (log ++ opened_now) (sb_flowid e) = committed base log (sb_flowid e).
Proof.
  intros Hin. rewrite committed_opened. destruct (nf_val (pi_new_flow i)) eqn:En; [|done]. cbn [andb].
  by rewrite (proj2 (Z.eqb_neq _ _) (open_elsewhere _ _ Hin En)).
Qed.

Lemma commit_mem_then f : flow_ok f → commits s' !! Z.to_nat f = Some (commit_now base log_then cur_then f).
Proof.
  intros Hf. rewrite commits_then_lookup by done. f_equal. unfold commit_now. rewrite committed_then.
  pose proof open_elsewhere as Ho. pose proof committed_opened as Hop.
  destruct cycle_cases as [(e & ls & q0 & _ & Ecur & Eq & -> & -> & -> & _)|[(e & ptr & ls & E & Ecur & -> & _ & _ & _ & Ew & Hw)|(E & -> & -> & _)]].
  - rewrite Ecur. cbn [andb]. specialize (Ho e ls). rewrite Ecur, Eq in Ho. specialize (Ho ltac:(by left)). rewrite Hop.
    assert (Hacc : accepts e = sb_accept_payload e && negb (entry_len e =? 0)) by done.
    destruct (entry_len e =? 0), (sb_accept_payload e); cbn [andb negb] in *; rewrite ?Hacc; cbn [andb];
      (destruct (Z.eqb_spec (sb_flowid e) f) as [<-|]); destruct (nf_val (pi_new_flow i)); cbn [andb]; try done;
      by rewrite (proj2 (Z.eqb_neq _ _) (Ho eq_refl)).
  - rewrite (popped_none E), Hop, Ew, Ecur, (copying_entry _ _ _ Ecur). destruct (r_in_log _ _ _ _ _ _ _ Hr _ _ _ Ecur) as [_ Hlog].
    destruct (accepts e) eqn:Ea; cbn [andb].
    + destruct (Hw eq_refl) as [-> ->]. cbn [andb wr_dat]. destruct (Z.eqb_spec (sb_flowid e) f) as [<-|]; [|done]. by rewrite Hlog.
    + by destruct (nf_val (pi_new_flow i)), (nf_flowid (pi_new_flow i) =? f).
  - rewrite (popped_none E), Hop. cbn [andb]. destruct cur as [[[e ptr] ls]|] eqn:Ecur.
    + destruct (accepts e && (sb_flowid e =? f)) eqn:Ea; [|by destruct (nf_val (pi_new_flow i)), (nf_flowid (pi_new_flow i) =? f)].
      apply andb_true_iff in Ea as [_ <-%Z.eqb_eq]. destruct (nf_val (pi_new_flow i)); [|done].
      rewrite (proj2 (Z.eqb_neq _ _)); [done|]. apply (Ho e ls); [left|done].
    + by destruct (nf_val (pi_new_flow i)), (nf_flowid (pi_new_flow i) =? f).
Qed.

(** *** The payloads that wait, after the cycle *)

Lemma pending_then : ∃ gone rest,
  pending cur q = gone ++ rest ∧ pending cur_then queue_then = rest ++ enqueued_now ∧
  slabs_of gone = if free_slab_req_val ctl then [free_slab_addr c] else [].
Proof.
  unfold queue_then.
  destruct cycle_cases as [(e & ls & q0 & -> & -> & Eq & _ & -> & _ & ->)|[(e & ptr & ls & -> & -> & -> & Hne & -> & -> & _)|(-> & -> & _ & ->)]].
  - rewrite Eq. cbn [pending tail]. destruct (entry_len e =? 0) eqn:E.
    + exists [(e, ls)], q0. split_and!; try done. cbn. by rewrite E.
    + by exists [], ((e, ls) :: q0).
  - exists [(e, ls)], q. split_and!; try done. cbn. by rewrite (proj2 (Z.eqb_neq _ _) Hne).
  - exists [], (pending cur q). split_and!; try done. destruct cur as [[[e ptr] ls]|]; done.
Qed.

Lemma slabs_of_in x l0 : x ∈ slabs_of l0 → ∃ e ls, (e, ls) ∈ l0 ∧ entry_len e ≠ 0 ∧ entry_addr e = x.
Proof.
  unfold slabs_of. rewrite list_elem_of_omap. intros ([e ls] & Hin & E). cbn [fst] in E. exists e, ls.
  destruct (Z.eqb_spec (entry_len e) 0) as [|Hne]; [done|]. by injection E as <-.
Qed.

Lemma slabs_of_mem e ls l0 : (e, ls) ∈ l0 → entry_len e ≠ 0 → entry_addr e ∈ slabs_of l0.
Proof.
  intros Hin Hne. unfold slabs_of. apply list_elem_of_omap. exists (e, ls). split; [done|]. cbn [fst].
  by rewrite (proj2 (Z.eqb_neq _ _) Hne).
Qed.

Lemma enqueued_out e ls :
  (e, ls) ∈ enqueued_now → flow_ok (sb_flowid e) ∧ pi_enq i = Some e ∧
  (entry_len e ≠ 0 → lg_out l !! entry_addr e = Some (entry_len e, ls)).
Proof.
  unfold enqueued_now. pose proof (p_enq _ _ _ Hok) as Hp. destruct (pi_enq i) as [e'|]; [|by rewrite elem_of_nil].
  rewrite list_elem_of_singleton. intros [= -> ->]. destruct (Hp e' eq_refl) as [Hf Ho]. split_and!; try done. intros Hne.
  destruct (Ho Hne) as [ls Hls]. unfold entry_lines. by rewrite (proj2 (Z.eqb_neq _ _) Hne), Hls.
Qed.

(** What is handed on was not held; what is held stays unless it is freed. *)
Lemma handed_fresh a ls : hands_on t v = Some (a, ls) → tv_held v !! a = None.
Proof.
  unfold hands_on. pose proof (tr_arriving _ _ (r_tmp _ _ _ _ _ _ _ Hr)) as Ha. unfold arriving_rel in Ha.
  destruct (tv_arriving v) as [|h a' ls'|h [a'|] ls']; try done. destruct (ti_dst_rdy t); [|done]. intros [= <- <-].
  by destruct Ha as (_ & _ & _ & _ & _ & _ & Hn & _).
Qed.

Lemma held_then a ls :
  tv_held v !! a = Some ls → (free_slab_req_val ctl = true → free_slab_addr c ≠ a) → tv_held v' !! a = Some ls.
Proof.
  intros Hh Hf. cbn [tv_held tmp_view_next]. unfold held_next. pose proof (handed_fresh) as Hfr.
  assert (H : (if ti_free_val t then delete (ti_free_addr t) (tv_held v) else tv_held v) !! a = Some ls).
  { cbn [ti_free_val ti_free_addr path_tmp path_tmp_in]. destruct (free_slab_req_val ctl); [|done].
    rewrite lookup_delete_ne; [done|by apply Hf]. }
  destruct (hands_on t v) as [[a' ls']|]; [|exact H]. rewrite lookup_insert_ne; [exact H|]. intros ->.
  by rewrite (Hfr _ _ eq_refl) in Hh.
Qed.

(** The slabs that wait after the cycle are held and not freed. *)
Lemma pending_then_in e ls :
  (e, ls) ∈ pending cur_then queue_then → entry_len e ≠ 0 →
  tv_held v !! entry_addr e = Some ls ∧ fits (entry_len e) ls ∧ (free_slab_req_val ctl = true → free_slab_addr c ≠ entry_addr e).
Proof.
  intros Hin Hne. destruct pending_then as (gone & rest & E & E' & Eg). rewrite E', elem_of_app in Hin.
  pose proof (r_nodup _ _ _ _ _ _ _ Hr) as Hnd. rewrite E, slabs_of_app, Eg in Hnd.
  destruct Hin as [Hin|Hin].
  - destruct (pending_held e ls) as (Hh & Hf & _); [rewrite E; apply elem_of_app; by right|done|]. split_and!; try done.
    intros Ev. rewrite Ev in Hnd. apply NoDup_cons in Hnd as [Hn _]. intros Ea. apply Hn. rewrite Ea. by apply (slabs_of_mem e ls).
  - destruct (enqueued_out _ _ Hin) as (_ & _ & Ho). destruct (r_out _ _ _ _ _ _ _ Hr _ _ _ (Ho Hne)) as (Hh & Hf & Hn).
    split_and!; try done. intros Ev Ea. apply Hn. rewrite E, slabs_of_app, Eg, Ev, Ea. left.
Qed.

Lemma pending_then_held :
  Forall (λ c, entry_len c.1 ≠ 0 → tv_held v' !! entry_addr c.1 = Some c.2 ∧ fits (entry_len c.1) c.2) (pending cur_then queue_then).
Proof.
  apply Forall_forall. intros [e ls] Hin Hne. cbn [fst snd] in *. destruct (pending_then_in _ _ Hin Hne) as (Hh & Hf & Hn).
  split; [by apply held_then|done].
Qed.

Lemma pending_then_nodup : NoDup (slabs_of (pending cur_then queue_then)).
Proof.
  destruct pending_then as (gone & rest & E & -> & _). pose proof (r_nodup _ _ _ _ _ _ _ Hr) as Hnd.
  rewrite E, slabs_of_app in Hnd. apply NoDup_app in Hnd as (_ & _ & Hnd). rewrite slabs_of_app. apply NoDup_app. split_and!; [done| |].
  - intros x (e & ls & Hin & Hne & <-)%slabs_of_in Hx. apply slabs_of_in in Hx as (e' & ls' & Hin' & Hne' & Ea).
    destruct (enqueued_out _ _ Hin') as (_ & _ & Ho). destruct (r_out _ _ _ _ _ _ _ Hr _ _ _ (Ho Hne')) as (_ & _ & Hn).
    apply Hn. rewrite Ea, E, slabs_of_app, elem_of_app. right. by apply (slabs_of_mem e ls).
  - unfold enqueued_now. destruct (pi_enq i); [|constructor]. cbn. destruct (_ =? 0); cbn; [constructor|apply NoDup_singleton].
Qed.

(** *** The books after the cycle *)

Lemma pkt_shown :
  match tv_arriving v with
  | Complete h a _ => ∃ p, po_pkt o = Some p ∧ shown_pkt h a p
  | _ => po_pkt o = None
  end.
Proof. by destruct tmp_buf_shows as (_ & _ & H & _). Qed.

Lemma taken_then : lg_taken l' = (pkt_hdr <$> lg_sent l') ++ arriving_hdr v'.
Proof.
  pose proof (r_taken _ _ _ _ _ _ _ Hr) as Ht. pose proof pkt_shown as Hp. destruct tmp_buf_shows as (Hh & _).
  unfold arriving_hdr in *. cbn [lg_taken lg_sent ledger_next]. cbn [po_hdr_rdy c_out payload_path_module]. rewrite Hh.
  cbn [tv_arriving tmp_view_next]. unfold takes_pkt, arriving_next. cbn [ti_hdr_val ti_hdr ti_data_val ti_dst_rdy path_tmp path_tmp_in].
  destruct (tv_arriving v) as [|h a ls|h a ls].
  - cbn [po_pkt c_out payload_path_module] in Hp. rewrite app_nil_r in Ht. cbn [po_pkt c_out payload_path_module]. rewrite Hp, Ht.
    assert (E : (if pi_dst_rdy i then lg_sent l ++ option_list (@None issue_pkt) else lg_sent l) = lg_sent l)
      by (destruct (pi_dst_rdy i); cbn; by rewrite ?app_nil_r).
    rewrite E. destruct (pi_hdr_val i), (th_payload_len (pi_hdr i) =? 0), (tv_pool v) eqn:?; cbn; by rewrite ?app_nil_r.
  - cbn [po_pkt c_out payload_path_module] in Hp. cbn [po_pkt c_out payload_path_module]. rewrite Hp, Ht, andb_false_r.
    assert (E : (if pi_dst_rdy i then lg_sent l ++ option_list (@None issue_pkt) else lg_sent l) = lg_sent l)
      by (destruct (pi_dst_rdy i); cbn; by rewrite ?app_nil_r).
    rewrite E. destruct (pi_data_val i); [by destruct (_ <=? _)|done].
  - destruct Hp as (p & Hp & a' & -> & _). cbn [po_pkt c_out payload_path_module] in Hp. cbn [po_pkt c_out payload_path_module].
    rewrite Hp, Ht, andb_false_r. destruct (pi_dst_rdy i); [|done]. rewrite app_nil_r, fmap_app. cbn. by destruct h.
Qed.

Lemma lines_then : match tv_arriving v' with Filling _ _ ls | Complete _ (Some _) ls => lg_lines l' = ls | _ => True end.
Proof.
  pose proof (r_lines _ _ _ _ _ _ _ Hr) as Hl. destruct tmp_buf_shows as (Hh & Hd & _).
  cbn [lg_lines ledger_next]. cbn [po_hdr_rdy po_data_rdy c_out payload_path_module]. rewrite Hh, Hd.
  cbn [tv_arriving tmp_view_next]. unfold takes_pkt, arriving_next. cbn [ti_hdr_val ti_hdr ti_data_val ti_dst_rdy path_tmp path_tmp_in].
  destruct (tv_arriving v) as [|h a ls|h [a|] ls]; rewrite ?andb_false_r.
  - destruct (pi_hdr_val i), (th_payload_len (pi_hdr i) =? 0), (tv_pool v) eqn:?; done.
  - rewrite andb_true_r. destruct (pi_data_val i); [|done].
    destruct (_ <=? _); by rewrite Hl.
  - by destruct (pi_dst_rdy i).
  - by destruct (pi_dst_rdy i).
Qed.

(** A payload that is announced. *)
Lemma announced p :
  po_pkt o = Some p → pi_dst_rdy i && recv_payload_val p = true →
  let a := payload_addr (recv_payload_entry p) in
  hands_on t v = Some (a, lg_lines l) ∧ fits (payload_len (recv_payload_entry p)) (lg_lines l).
Proof.
  intros Ep [Ed Ev]%andb_true_iff. pose proof pkt_shown as Hp. pose proof (r_lines _ _ _ _ _ _ _ Hr) as Hl.
  pose proof (tr_arriving _ _ (r_tmp _ _ _ _ _ _ _ Hr)) as Ha. unfold arriving_rel in Ha.
  unfold hands_on. cbn [ti_dst_rdy path_tmp path_tmp_in]. rewrite Ed.
  destruct (tv_arriving v) as [|h a ls|h a ls]; [by rewrite Hp in Ep..|].
  destruct Hp as (p' & Ep' & a' & -> & Hs). rewrite Ep' in Ep. injection Ep as <-. cbn [recv_payload_val] in Ev.
  destruct a as [a|]; [|done]. rewrite (Hs a eq_refl), Hl in *. cbn. split; [done|].
  destruct Ha as (_ & _ & _ & H0 & H1 & _ & _ & _ & H2). by split.
Qed.

Lemma out_then a len ls :
  lg_out l' !! a = Some (len, ls) → tv_held v' !! a = Some ls ∧ fits len ls ∧ a ∉ slabs_of (pending cur_then queue_then).
Proof.
  cbn [lg_out ledger_next]. unfold out_next. pose proof announced as Han.
  assert (Hold : match pi_enq i with
                 | Some e => if entry_len e =? 0 then lg_out l else delete (entry_addr e) (lg_out l)
                 | None => lg_out l
                 end !! a = Some (len, ls) →
    tv_held v' !! a = Some ls ∧ fits len ls ∧ a ∉ slabs_of (pending cur_then queue_then)).
  { intros H. assert (H2 : lg_out l !! a = Some (len, ls) ∧ ∀ e, pi_enq i = Some e → entry_len e ≠ 0 → entry_addr e ≠ a).
    { destruct (pi_enq i) as [e|]; [|done]. destruct (Z.eqb_spec (entry_len e) 0); [by split; [|intros ? [= <-]]|].
      apply lookup_delete_Some in H as [Hn H]. split; [done|]. by intros ? [= <-]. }
    destruct H2 as [H2 Hne]. destruct (r_out _ _ _ _ _ _ _ Hr _ _ _ H2) as (Hh & Hf & Hn).
    destruct pending_then as (gone & rest & E & E' & Eg). rewrite E, slabs_of_app, elem_of_app, Eg in Hn. split_and!; [|done|].
    - apply held_then; [done|]. intros Ev <-. rewrite Ev in Hn. apply Hn. left. left.
    - rewrite E', slabs_of_app, elem_of_app. intros [Hin|(e & ls' & Hin & He & Ea)%slabs_of_in]; [apply Hn; by right|].
      destruct (enqueued_out _ _ Hin) as (_ & Ee & _). by apply (Hne e Ee He). }
  destruct (po_pkt o) as [p|] eqn:Ep; [|exact Hold]. destruct (pi_dst_rdy i && recv_payload_val p) eqn:Ed; [|exact Hold].
  destruct (Han p eq_refl Ed) as [Hho Hfit]. set (a' := payload_addr (recv_payload_entry p)) in *.
  destruct (decide (a' = a)) as [<-|Hne]; [|rewrite lookup_insert_ne by done; exact Hold].
  rewrite lookup_insert_eq. intros [= <- <-]. split_and!; [|done|].
  - cbn [tv_held tmp_view_next]. unfold held_next. by rewrite Hho, lookup_insert_eq.
  - intros (e & ls' & Hin & He & Ea)%slabs_of_in. destruct (pending_then_in _ _ Hin He) as (Hh & _ & _).
    rewrite Ea, (handed_fresh _ _ Hho) in Hh. done.
Qed.

Lemma log_copies_then : log_copies log_then = log_copies log ++ popped_now.
Proof.
  unfold log_copies, log_then, opened_now. rewrite !omap_app. f_equal.
  assert (E : omap (λ x, match x with LCopy e _ ls => Some (e, ls) | _ => None end) copied_now = popped_now).
  { unfold copied_now. induction popped_now as [|[e ls] l0 IH]; [done|]. cbn. by f_equal. }
  rewrite E. by destruct (nf_val (pi_new_flow i)).
Qed.

Lemma copies_then : lg_copies l' = log_copies log_then ++ queue_then.
Proof.
  assert (E : lg_copies l' = lg_copies l ++ enqueued_now).
  { cbn [lg_copies ledger_next]. unfold enqueued_now. destruct (pi_enq i); [done|by rewrite app_nil_r]. }
  rewrite E, (r_copies _ _ _ _ _ _ _ Hr), log_copies_then. unfold queue_then. destruct (read_store_buf_q_req_val ctl) eqn:Er.
  - destruct (pops Er) as (_ & _ & e & ls & q0 & -> & -> & _). by rewrite <- !app_assoc.
  - by rewrite (popped_none Er), app_nil_r, <- app_assoc.
Qed.

Lemma flows_then : Forall (λ c, flow_ok (sb_flowid c.1)) (lg_copies l').
Proof.
  rewrite copies_then, log_copies_then. apply Forall_forall. intros [e ls] Hin. cbn [fst].
  assert (H : (e, ls) ∈ lg_copies l ∨ (e, ls) ∈ enqueued_now).
  { rewrite (r_copies _ _ _ _ _ _ _ Hr). revert Hin. unfold queue_then. destruct (read_store_buf_q_req_val ctl) eqn:Er.
    - destruct (pops Er) as (_ & _ & e' & ls' & q0 & -> & -> & _). cbn [tail]. rewrite !elem_of_app, list_elem_of_singleton, elem_of_cons. tauto.
    - rewrite (popped_none Er), !elem_of_app, elem_of_nil. tauto. }
  destruct H as [H|H]; [|by destruct (enqueued_out _ _ H)].
  pose proof (r_flows _ _ _ _ _ _ _ Hr) as Hf. rewrite Forall_forall in Hf. by apply (Hf (e, ls)).
Qed.

Lemma popped_pending e ls : (e, ls) ∈ popped_now → (e, ls) ∈ pending cur q.
Proof.
  destruct (read_store_buf_q_req_val ctl) eqn:Er; [|by rewrite (popped_none Er), elem_of_nil].
  destruct (pops Er) as (_ & -> & e' & ls' & q0 & -> & -> & _). rewrite list_elem_of_singleton. intros [= -> ->]. left.
Qed.

Lemma log_then_ok : log_ok base log_then.
Proof.
  unfold log_then, copied_now. pose proof (r_log _ _ _ _ _ _ _ Hr) as Hl. rewrite app_assoc.
  assert (Ho : log_ok base (log ++ opened_now)).
  { unfold opened_now. destruct (nf_val (pi_new_flow i)); [by apply log_snoc|by rewrite app_nil_r]. }
  pose proof opened_apart as Ha. pose proof popped_pending as Hp. destruct (read_store_buf_q_req_val ctl) eqn:Er.
  - destruct (pops Er) as (_ & _ & e & ls & q0 & _ & Ep & _). rewrite Ep in *. apply log_snoc; [done|]. intros _. cbn [fst].
    rewrite (Ha e ls); [done|]. apply Hp. left.
  - by rewrite (popped_none Er), app_nil_r.
Qed.

Lemma in_log_then e ptr ls : cur_then = Some (e, ptr, ls) →
  LCopy e ptr ls ∈ log_then ∧ (accepts e = true → committed base log_then (sb_flowid e) = rx_ptr (ptr + entry_len e)).
Proof.
  rewrite committed_then. unfold log_then, copied_now. pose proof opened_apart as Ha. pose proof popped_pending as Hp.
  destruct cycle_cases as [(e' & ls' & q0 & _ & _ & _ & Ep & -> & _)|[(e' & ptr' & ls' & _ & _ & -> & _)|(Er & -> & _)]]; [|done|].
  - rewrite Ep in *. destruct (entry_len e' =? 0) eqn:Ez; [done|]. intros [= -> <- ->]. split.
    + rewrite !elem_of_app. right. right. left.
    + intros ->. rewrite Z.eqb_refl, (Ha e ls) by (apply Hp; left). done.
  - intros Ecur. rewrite (popped_none Er). destruct (r_in_log _ _ _ _ _ _ _ Hr _ _ _ Ecur) as [Hin Hc]. split.
    + apply elem_of_app. by left.
    + rewrite (Ha e ls) by (by apply (current_pending e ptr ls)). done.
Qed.

(** The invariant, and the events of the cycle. *)
Lemma path_step :
  path_rel base s' l' v' log_then cur_then queue_then ∧
  po_events o ++ copy_todo (store_buf_cp s') cur_then = copy_todo c cur ++ ((opened_now ++ copied_now) ≫= copy_events).
Proof.
  destruct copying_step as [Hc He]. split.
  - destruct commit_ports_then as [Hp Hs]. split;
      [exact tmp_buf_then|exact queue_then_rel|exact Hp|exact Hs|exact Hc|exact copies_then|exact in_log_then|exact flows_then|
       exact pending_then_held|exact pending_then_nodup|exact out_then|exact lines_then|exact taken_then|exact log_then_ok|
       exact commit_mem_then].
  - rewrite He, bind_app. unfold opened_now. by destruct (nf_val (pi_new_flow i)).
Qed.

Lemma opens_now : log_opens (opened_now ++ copied_now) = path_opens [i].
Proof.
  unfold log_opens, path_opens, opened_now. rewrite omap_app. cbn.
  assert (E : omap (λ x, match x with LOpen f p => Some (f, p) | _ => None end) copied_now = [])
    by (unfold copied_now; induction popped_now as [|[e ls] l0 IH]; [done|exact IH]).
  rewrite E, !app_nil_r. by destruct (nf_val (pi_new_flow i)).
Qed.

(** *** How much there is to do *)

Lemma work_then x : ctl = x → writes_on i →
  work (store_buf_cp s') queue_then =
  (work_left (CopyRegs (copy_state_next x) (q_entry_reg c) 0 0 (bytes_left_next c ci)) +
   38 * length (if read_store_buf_q_req_val x then tail q else q))%nat.
Proof.
  intros E (_ & _ & _ & _ & Hn). unfold work, queue_then, enqueued_now. rewrite Hn, app_nil_r, (copy_next_eq x E), E. done.
Qed.

(** The parts are ready for the copying. *)
Lemma parts_ready :
  writes_on i → wr_buf_ctrl_req_rdy ci = true ∧ wr_buf_ctrl_req_data_rdy ci = true ∧ wr_buf_ctrl_wr_req_done ci = true ∧ commit_ptr_wr_rdy ci = true.
Proof.
  intros (? & ? & ? & E & _). cbn [wr_buf_ctrl_req_rdy wr_buf_ctrl_req_data_rdy wr_buf_ctrl_wr_req_done commit_ptr_wr_rdy path_copy_in].
  unfold commit_ptr_wr_req_rdy, wr_rdy. by rewrite E.
Qed.

Lemma free_ready e ptr ls : cur = Some (e, ptr, ls) → entry_len e ≠ 0 → tmp_buf_free_slab_rdy ci = true.
Proof.
  intros Ecur Hne. destruct (pending_held _ _ (current_pending _ _ _ Ecur) Hne) as (Hh & _).
  destruct tmp_buf_shows as (_ & _ & _ & _ & _ & _ & Hf). apply Hf. intros E. by rewrite E, lookup_empty in Hh.
Qed.

(** A cycle in which nothing holds the copying up leaves less to do. *)
Lemma work_step : writes_on i → (work (store_buf_cp s') queue_then ≤ work c q - 1)%nat.
Proof.
  intros Hw. destruct (parts_ready Hw) as (Ereq & Edata & Edone & Ewr). pose proof (r_cur _ _ _ _ _ _ _ Hr) as Hc. unfold copy_rel in Hc.
  rewrite (work_then _ eq_refl Hw). unfold bytes_left_next.
  destruct (copy_state_reg c) eqn:Est;
    [|(assert (∃ e ptr ls, cur = Some (e, ptr, ls)) as (e & ptr & ls & Ecur)
         by (clear -Hc; destruct cur as [[[??]?]|]; [by eauto|done]); rewrite Ecur in Hc)..];
    unfold work, copy_control, work_left at 2; rewrite Est.
  - destruct store_buf_q_shows as [-> _]. destruct q as [|x q0]; cbn [bool_decide negb]; [done|].
    rewrite bool_decide_eq_false_2 by done. cbn [negb]. destruct (entry_len (read_store_buf_q_req_data ci) =? 0), (sb_accept_payload (read_store_buf_q_req_data ci)), (commit_ptr_rd_req_rdy ci); cbn -[Nat.mul]; lia.
  - destruct Hc as (Eq & _). destruct (commit_shows (sb_flowid e)) as [-> _]; [unfold commit_read; by rewrite Est, Eq| |cbn; lia].
    by apply (pending_flow_ok e ls), (current_pending e ptr ls).
  - destruct Hc as (_ & [_ Hne]%accepts_spec & _ & _ & Eb). destruct (pending_held e ls) as (_ & [Hb _] & _); [by eapply current_pending|done|].
    assert (Hrdy : tmp_buf_rd_req_rdy ci = true).
    { destruct tmp_buf_shows as (_ & _ & _ & Hrd & _). cbn [tmp_buf_rd_req_rdy path_copy_in]. rewrite Hrd.
      cbn [ti_rd path_tmp_in rd_resp_rdy]. unfold tmp_buf_rd_resp_rdy. by rewrite Est. }
    rewrite Ereq, Hrdy. cbn -[Z.div Nat.mul]. rewrite Eb. unfold RX_TMP_BUF_SLAB_BYTES, NOC_DATA_BYTES in *.
    pose proof (Z.div_le_mono (entry_len e) 2048 64 ltac:(lia) ltac:(lia)) as Hd. change (2048 / 64) with 32 in Hd. lia.
  - destruct Hc as (k & _ & [_ Hne]%accepts_spec & _ & Hk & _ & Eb & Et). destruct (pending_held e ls) as (_ & [Hb _] & _); [by eapply current_pending|done|].
    destruct (lookup_lt_is_Some_2 ls k Hk) as [d Hd]. destruct (line_shown e ptr ls k d Ecur Hne Hd Et) as [-> _].
    rewrite Edata. cbn [andb]. unfold last_transfer. destruct (Z.leb_spec (bytes_left_reg c) NOC_DATA_BYTES); cbn -[Z.div Z.modulo Nat.mul]; [lia|].
    unfold RX_TMP_BUF_SLAB_BYTES, NOC_DATA_BYTES, MAC_INTERFACE_BYTES, TOT_LEN_W in *. rewrite Z.mod_small by lia.
    replace (bytes_left_reg c - 64) with (bytes_left_reg c + (-1) * 64) by lia. rewrite Z.div_add by lia.
    pose proof (Z.div_le_lower_bound (bytes_left_reg c) 64 1 ltac:(lia) ltac:(lia)). lia.
  - rewrite Edone. cbn -[Nat.mul]. lia.
  - destruct Hc as (_ & [_ Hne]%accepts_spec & _). rewrite Ewr, (free_ready e ptr ls Ecur Hne). cbn -[Nat.mul]. lia.
  - destruct Hc as (_ & Hne & _). rewrite (free_ready e ptr ls Ecur Hne). cbn -[Nat.mul]. lia.
Qed.

Lemma work_bound : (work c q ≤ 1253)%nat.
Proof.
  pose proof (fr_cap _ _ _ (r_queue _ _ _ _ _ _ _ Hr)) as Hq. rewrite length_fmap in Hq. change (slots store_buf_q_log2) with 32 in Hq.
  assert (work_left c ≤ 37)%nat; [|unfold work; lia].
  pose proof (r_cur _ _ _ _ _ _ _ Hr) as Hc. unfold copy_rel in Hc. unfold work_left. destruct (copy_state_reg c) eqn:Est; try lia.
  assert (∃ e ptr ls, cur = Some (e, ptr, ls)) as (e & ptr & ls & Ecur) by (clear -Hc; destruct cur as [[[??]?]|]; [by eauto|done]).
  rewrite Ecur in Hc. destruct Hc as (k & _ & [_ Hne]%accepts_spec & _ & _ & _ & Eb & _).
  destruct (pending_held e ls) as (_ & [Hb _] & _); [by eapply current_pending|done|].
  unfold RX_TMP_BUF_SLAB_BYTES, NOC_DATA_BYTES in *.
  pose proof (Z.div_le_mono (bytes_left_reg c) 2048 64 ltac:(lia) ltac:(lia)) as Hd. change (2048 / 64) with 32 in Hd. lia.
Qed.
End Cycle.

(** ** Runs *)

Lemma log_opens_app l1 l2 : log_opens (l1 ++ l2) = log_opens l1 ++ log_opens l2.
Proof. apply omap_app. Qed.

Lemma path_opens_cons i ins : path_opens (i :: ins) = path_opens [i] ++ path_opens ins.
Proof. unfold path_opens. cbn. by rewrite app_nil_r. Qed.

Lemma payload_path_run base ins : ∀ s l v log cur q,
  path_rel base s l v log cur q → path_oks ins s l →
  let sn := after_cycles payload_path_module ins s in
  ∃ v' more cur' q', path_rel base sn (books ins s l) v' (log ++ more) cur' q' ∧ log_opens more = path_opens ins ∧
    concat (po_events <$> outputs payload_path_module ins s) ++ copy_todo (store_buf_cp sn) cur' =
    copy_todo (store_buf_cp s) cur ++ (more ≫= copy_events) ∧
    (Forall writes_on ins → (work (store_buf_cp sn) q' ≤ work (store_buf_cp s) q - length ins)%nat).
Proof.
  induction ins as [|i ins IH]; intros s l v log cur q Hr Hoks; cbn [path_oks] in Hoks.
  - exists v, [], cur, q. rewrite !app_nil_r. split_and!; try done. intros _. cbn [after_cycles fold_left length]. lia.
  - destruct Hoks as [Hok Hoks]. destruct (path_step _ _ _ _ _ _ _ _ Hr Hok) as [Hr' He].
    unfold log_then in Hr'.
    destruct (IH _ _ _ _ _ _ Hr' Hoks) as (vn & more & curn & qn & Hrn & Hopn & Hev & Hwork).
    pose proof (work_step _ _ _ _ _ _ _ i Hr) as Hw.
    exists vn, ((opened_now i ++ copied_now base s log q i) ++ more), curn, qn. split_and!.
    + by rewrite app_assoc.
    + rewrite log_opens_app, opens_now, Hopn. by rewrite (path_opens_cons i ins).
    + cbn [outputs fmap list_fmap concat]. rewrite bind_app, <- app_assoc. cbn [after_cycles fold_left] in *.
      unfold after_cycles in Hev. cbn [c_next payload_path_module] in *. rewrite Hev, !app_assoc, <- He. done.
    + intros [Hi Hins]%Forall_cons. specialize (Hw Hi). specialize (Hwork Hins). cbn [after_cycles fold_left length] in *.
      unfold after_cycles in Hwork. cbn [c_next payload_path_module] in *. lia.
Qed.

Definition path_sized (s : payload_path) : Prop :=
  tmp_buf_sized (pp_tmp_buf s) ∧
  Z.of_nat (length (contents (fifo_mem (rx_store_buf_q s)))) = slots store_buf_q_log2 ∧ sized (commits s).

(** The pointers the memory holds after a reset, which does not clear it. *)
Definition commit_base (s : payload_path) (f : Z) : Z := default 0 (commits s !! Z.to_nat f).

Lemma path_reset i s : path_sized s →
  let s0 := path_next true i s in path_rel (commit_base s0) s0 no_books tmp_start [] None [].
Proof.
  intros (Ht & Hq & Hc). cbn zeta.
  assert (Hs : sized (commits (path_next true i s))) by by apply sized_written.
  split; cbn [lg_copies lg_out lg_lines lg_taken lg_sent no_books pending slabs_of omap list_omap tmp_start tv_arriving arriving_hdr]; try done.
  - by apply tmp_reset.
  - by apply fifo_reset.
  - apply NoDup_nil_2.
  - constructor.
  - intros f Hf. destruct (sized_lookup _ _ Hs Hf) as [d E]. cbn [commit_now]. unfold committed, commit_base. cbn [fold_left]. by rewrite E.
Qed.

(** C9: No payload is lost, doubled, mixed up or misplaced between the packet it
    comes in and the memory of the receive buffers, for payloads of at most the
    2048 bytes of a slab, which nothing in the code checks (a longer one
    overwrites its neighbours: [oversized_payload_overwrites]).  From a reset on,
    with the packets, the decisions of the engine and the consumer at any pace,
    where a decision is enqueued only while there is room and for a payload that
    was sent on and not decided yet, and a connection is opened before anything
    is enqueued for it and not after: the packets go on in the order they came,
    and there is a log, in which every enqueued decision but those still queued
    has its place in the order it was enqueued and every opening of a connection
    its own, such that what leaves is, in that order: for a payload that is
    accepted one request to write it at the commit pointer of its connection,
    exactly the lines that came with it, the commit pointer moved on by its
    length, and its slab freed; for a payload that is not accepted only its slab
    freed; for no payload nothing. *)
Theorem payload_path_copies i0 s ins :
  path_sized s → let s0 := path_next true i0 s in path_oks ins s0 no_books →
  let l := books ins s0 no_books in
  ∃ log queued todo arriving,
    lg_taken l = (pkt_hdr <$> lg_sent l) ++ arriving ∧ (length arriving ≤ 1)%nat ∧
    lg_copies l = log_copies log ++ queued ∧ log_opens log = path_opens ins ∧ log_ok (commit_base s0) log ∧
    concat (po_events <$> outputs payload_path_module ins s0) ++ todo = log ≫= copy_events ∧
    (copy_state_reg (store_buf_cp (after_cycles payload_path_module ins s0)) = READY → todo = []).
Proof.
  intros Hs s0 Hoks l. destruct (payload_path_run _ _ _ _ _ _ _ _ (path_reset i0 s Hs) Hoks) as (v & log & cur & q & Hr & Hop & Hev & _).
  exists log, q, (copy_todo (store_buf_cp (after_cycles payload_path_module ins s0)) cur), (arriving_hdr v). split_and!.
  - exact (r_taken _ _ _ _ _ _ _ Hr).
  - unfold arriving_hdr. destruct (tv_arriving v); cbn; lia.
  - exact (r_copies _ _ _ _ _ _ _ Hr).
  - exact Hop.
  - exact (r_log _ _ _ _ _ _ _ Hr).
  - exact Hev.
  - intros Est. unfold copy_todo. rewrite Est. by destruct cur as [[[??]?]|].
Qed.

Lemma path_oks_app ins rest : ∀ s l, path_oks (ins ++ rest) s l ↔
  path_oks ins s l ∧ path_oks rest (after_cycles payload_path_module ins s) (books ins s l).
Proof.
  induction ins as [|i ins IH]; intros s l; [by cbn; tauto|]. cbn [app path_oks books after_cycles fold_left]. rewrite IH. cbn. tauto.
Qed.

(** Cycles in which nothing comes are allowed. *)
Lemma quiet_oks i n : pi_hdr_val i = false → writes_on i → ∀ s l, path_oks (replicate n i) s l.
Proof.
  intros Hh (_ & _ & _ & Ho & He). induction n as [|n IH]; intros s l; [done|]. split; [|apply IH].
  split; rewrite ?Hh, ?Ho, ?He; try done; by intros [? ?].
Qed.

(** C10: Every payload gets through, and the queue before the copying empties: from
    a reset on, after any cycles in which payloads have at most the 2048 bytes of
    a slab (nothing checks it), decisions are enqueued while there is room, each
    for a payload that was sent on and not decided yet, and connections are
    opened before anything is enqueued for them and not after, when for 1253
    cycles the module that writes keeps up, no connection is opened and nothing
    is enqueued, every payload ever enqueued has left whole, accepted or not,
    with its commit pointer stored and its slab freed, nothing is queued, and the
    copying waits for the next. *)
Theorem payload_path_drains i0 s ins rest :
  path_sized s → let s0 := path_next true i0 s in path_oks (ins ++ rest) s0 no_books →
  Forall writes_on rest → (1253 ≤ length rest)%nat →
  let sn := after_cycles payload_path_module (ins ++ rest) s0 in
  copy_state_reg (store_buf_cp sn) = READY ∧ fifo_empty store_buf_q_log2 (rx_store_buf_q sn) = true ∧
  ∃ log, lg_copies (books (ins ++ rest) s0 no_books) = log_copies log ∧ log_opens log = path_opens (ins ++ rest) ∧
    log_ok (commit_base s0) log ∧
    concat (po_events <$> outputs payload_path_module (ins ++ rest) s0) = log ≫= copy_events.
Proof.
  intros Hs s0 Hoks Hrest Hlen sn.
  assert (Hr0 : path_rel (commit_base s0) s0 no_books tmp_start [] None []) by exact (path_reset i0 s Hs).
  pose proof Hoks as [Hins Hoks2]%path_oks_app.
  destruct (payload_path_run _ _ _ _ _ _ _ _ Hr0 Hins) as (v1 & log1 & cur1 & q1 & Hr1 & _).
  destruct (payload_path_run _ _ _ _ _ _ _ _ Hr1 Hoks2) as (v2 & log2 & cur2 & q2 & Hr2 & _ & _ & Hw). specialize (Hw Hrest).
  pose proof (work_bound _ _ _ _ _ _ _ Hr1) as Hb.
  assert (Esn : sn = after_cycles payload_path_module rest (after_cycles payload_path_module ins s0)) by apply fold_left_app.
  rewrite <- Esn in Hw. cbn zeta in Hr2. rewrite <- Esn in Hr2.
  assert (Hdone : copy_state_reg (store_buf_cp sn) = READY ∧ fifo_empty store_buf_q_log2 (rx_store_buf_q sn) = true).
  { destruct (fifo_flags _ _ _ (r_queue _ _ _ _ _ _ _ Hr2)) as [-> _].
    assert (H0 : work (store_buf_cp sn) q2 = 0%nat) by lia. unfold work, work_left in H0.
    destruct q2; [|cbn [length] in H0; lia]. split; [|done]. destruct (copy_state_reg _); try done; lia. }
  destruct Hdone as [Est Hemp]. split; [done|]. split; [done|].
  destruct (payload_path_run _ _ _ _ _ _ _ _ Hr0 Hoks) as (v & log & cur & q & Hr & Hop & Hev & _). exists log.
  destruct (fifo_flags _ _ _ (r_queue _ _ _ _ _ _ _ Hr)) as [Hq _]. unfold sn in Hemp. rewrite Hemp in Hq. symmetry in Hq.
  apply bool_decide_eq_true, fmap_nil_inv in Hq. subst q. split_and!.
  - by rewrite (r_copies _ _ _ _ _ _ _ Hr), app_nil_r.
  - exact Hop.
  - exact (r_log _ _ _ _ _ _ _ Hr).
  - assert (Et : copy_todo (store_buf_cp sn) cur = []) by (unfold copy_todo; rewrite Est; by destruct cur as [[[??]?]|]).
    unfold sn in Et. by rewrite Et, app_nil_r in Hev.
Qed.
End Path.

(** ** Concrete runs *)

Definition path_okb (s : payload_path) (i : path_in) (l : ledger) : bool :=
  let n := pi_new_flow i in
  implb (pi_hdr_val i) ((0 <=? th_payload_len (pi_hdr i)) && (th_payload_len (pi_hdr i) <=? RX_TMP_BUF_SLAB_BYTES)) &&
  match pi_enq i with
  | None => true
  | Some e => negb (fifo_full store_buf_q_log2 (rx_store_buf_q s)) && flow_okb (sb_flowid e) &&
      ((entry_len e =? 0) || match lg_out l !! entry_addr e with Some (len, _) => len =? entry_len e | None => false end)
  end &&
  implb (nf_val n) (flow_okb (nf_flowid n) && bool_decide (nf_flowid n ∉ (λ c, sb_flowid c.1) <$> lg_copies l)).

Lemma payload_path_okb_ok s i l : path_okb s i l = true → path_ok s i l.
Proof.
  unfold path_okb. intros [[Hh He]%andb_true_iff Ho]%andb_true_iff. split.
  - intros E. rewrite E in Hh. cbn [implb] in Hh. lia.
  - intros [e E]. rewrite E in He. apply andb_true_iff in He as [He _]. apply andb_true_iff in He as [He _]. by apply negb_true_iff.
  - intros e E. rewrite E in He. apply andb_true_iff in He as [[_ Hf]%andb_true_iff He]. split; [by apply flow_okb_ok|].
    intros Hne. rewrite (proj2 (Z.eqb_neq _ _) Hne) in He. cbn [orb] in He. destruct (lg_out l !! entry_addr e) as [[len ls]|]; [|done].
    apply Z.eqb_eq in He as ->. by exists ls.
  - intros E. rewrite E in Ho. cbn [implb] in Ho. apply andb_true_iff in Ho as [Hf Hn]. split; [by apply flow_okb_ok|].
    by apply bool_decide_eq_true in Hn.
Qed.

Fixpoint path_oksb (xz : Z) (xe : rx_store_buf_q_struct) (ins : list path_in) (s : payload_path) (l : ledger) : bool :=
  match ins with
  | [] => true
  | i :: ins' => path_okb s i l &&
      path_oksb xz xe ins' (path_next xz xe false i s) (ledger_next i (c_out (payload_path_module xz xe) s i) l)
  end.

Lemma path_oksb_ok xz xe ins : ∀ s l, path_oksb xz xe ins s l = true → path_oks xz xe ins s l.
Proof.
  induction ins as [|i ins IH]; intros s l; [done|]. cbn [path_oksb path_oks]. intros [H1 H2]%andb_true_iff.
  split; [by apply payload_path_okb_ok|by apply IH].
Qed.

Definition junk_path : payload_path :=
  {| pp_tmp_buf := junk_tmp_buf;
     rx_store_buf_q := {| wr_ptr_reg := 7; rd_ptr_reg := 3;
                          fifo_mem := {| mem_wr_req_val_reg := true; mem_wr_req_addr_reg := 1; mem_wr_req_data_reg := zero_q_entry;
                                         mem_rd_req_val_reg := false; mem_rd_req_addr_reg := 0;
                                         tcp_data_mem := BsgMem (replicate 32 zero_q_entry) None |} |};
     store_buf_cp := CopyRegs DATA_COPY zero_q_entry 1 2 3;
     pp_commit_ptrs := {| mem2_wr_req_val_reg := false; mem2_wr_req_addr_reg := 0; mem2_wr_req_data_reg := 0;
                          mem_rd0_req_val_reg := true; mem_rd0_req_addr_reg := 1; mem_rd1_req_val_reg := true;
                          mem_rd1_req_addr_reg := 2; memory := BsgMem2 (replicate MAX_FLOW_CNT 9) None None |} |}.

Lemma junk_path_sized : path_sized junk_path.
Proof. split; [exact junk_tmp_buf_sized|by split]. Qed.

Definition path_cycle (hdr : option Z) (data : option Z) (pad : option Z) (enq : option rx_store_buf_q_struct) (open : option (Z * Z))
    (wr_rdy : bool) : path_in :=
  {| pi_hdr_val := bool_decide (is_Some hdr); pi_hdr := TmpHdr 20 10 (default 0 hdr) zero_hdr;
     pi_data_val := bool_decide (is_Some data); pi_data := default 0 data; pi_data_last := bool_decide (is_Some pad);
     pi_data_padbytes := default 0 pad; pi_dst_rdy := true; pi_enq := enq;
     pi_new_flow := NewFlow (bool_decide (is_Some open)) (default 0 (fst <$> open)) zero_rx zero_tx 0 (default 0 (snd <$> open));
     pi_app_rd := no_rd; pi_wr_req_rdy := wr_rdy; pi_wr_data_rdy := wr_rdy; pi_wr_done := wr_rdy |}.
Definition path_quiet : path_in := path_cycle None None None None None true.

(** A connection is opened; three payloads come: the first two are accepted, the
    third is not; in between a decision without a payload.  The module that
    writes is not ready for a while, and another connection is opened. *)
Definition sample_path : list path_in :=
  [path_cycle None None None None (Some (3, 500)) true;
   path_cycle (Some 100) None None None None true; path_cycle None (Some 5) None None None true;
   path_cycle None (Some (Z.shiftl 9 500 + 3)) (Some 28) None None true; path_quiet;
   path_cycle (Some 64) None None (Some (RxStoreBufQ 3 true (PayloadBuf 0 100))) None false;
   path_cycle None (Some 7) None None None false; path_cycle None None None (Some (RxStoreBufQ 3 true (PayloadBuf 0 0))) None false;
   path_cycle (Some 1) None None (Some (RxStoreBufQ 3 true (PayloadBuf 2048 64))) (Some (4, 50)) false;
   path_cycle None (Some 8) None None None true; path_quiet;
   path_cycle None None None (Some (RxStoreBufQ 4 false (PayloadBuf 4096 1))) None true].
Definition path_drain : list path_in := replicate 1253 path_quiet.

Definition path_reset_state : payload_path := path_next 0 zero_q_entry true path_quiet junk_path.

Example sample_path_events :
  concat (po_events <$> outputs (payload_path_module 0 zero_q_entry) (sample_path ++ replicate 20 path_quiet) path_reset_state) =
  [Start 3 500 100; Line 5; Line (Z.shiftl 9 500); Commit 3 600; Free 0;
   Start 3 600 64; Line 7; Commit 3 664; Free 2048; Free 4096].
Proof. vm_compute. reflexivity. Qed.

Lemma payload_path_copies_witness :
  let l := books 0 zero_q_entry sample_path path_reset_state no_books in
  (entry_addr ∘ fst <$> lg_copies l) = [0; 0; 2048; 4096] ∧
  ∃ log queued todo arriving,
    lg_taken l = (pkt_hdr <$> lg_sent l) ++ arriving ∧ (length arriving ≤ 1)%nat ∧
    lg_copies l = log_copies log ++ queued ∧ log_opens log = path_opens sample_path ∧
    log_ok (commit_base path_reset_state) log ∧
    concat (po_events <$> outputs (payload_path_module 0 zero_q_entry) sample_path path_reset_state) ++ todo = log ≫= copy_events ∧
    (copy_state_reg (store_buf_cp (after_cycles (payload_path_module 0 zero_q_entry) sample_path path_reset_state)) = READY → todo = []).
Proof.
  split; [vm_compute; reflexivity|].
  apply (payload_path_copies 0 zero_q_entry path_quiet junk_path sample_path junk_path_sized).
  apply path_oksb_ok. vm_compute. reflexivity.
Defined.

Lemma path_drain_ready : Forall writes_on path_drain ∧ length path_drain = 1253%nat.
Proof. split; [by apply Forall_replicate|apply length_replicate]. Qed.

Lemma payload_path_drains_witness :
  path_opens (sample_path ++ path_drain) = [(3, 500); (4, 50)] ∧
  let sn := after_cycles (payload_path_module 0 zero_q_entry) (sample_path ++ path_drain) path_reset_state in
  copy_state_reg (store_buf_cp sn) = READY ∧ fifo_empty store_buf_q_log2 (rx_store_buf_q sn) = true ∧
  ∃ log, lg_copies (books 0 zero_q_entry (sample_path ++ path_drain) path_reset_state no_books) = log_copies log ∧
    log_opens log = path_opens (sample_path ++ path_drain) ∧ log_ok (commit_base path_reset_state) log ∧
    concat (po_events <$> outputs (payload_path_module 0 zero_q_entry) (sample_path ++ path_drain) path_reset_state) = log ≫= copy_events.
Proof.
  split; [vm_compute; reflexivity|].
  apply (payload_path_drains 0 zero_q_entry path_quiet junk_path sample_path path_drain junk_path_sized).
  - apply path_oks_app. split; [apply path_oksb_ok; vm_compute; reflexivity|by apply quiet_oks].
  - apply path_drain_ready.
  - by rewrite (proj2 path_drain_ready).
Defined.
