(* ===== verification/RxPipe.v ===== *)
(** RxPipe: the front of recv_pipe/rx_pipe_wrap.sv: the pipeline that finds the
    connection, the queue to the handshake pipeline, that pipeline with its
    generator of first numbers, the queue of the packets it gives back, and
    recv_pipe/est_pipe_input_merger.sv before the pipeline of established
    connections. *)

From stdpp Require Import functions.
From S2P Require Import Prelude Rtl RamDual Fifo TcpPkg FlowStores EstPipe FlowId TcpStateMachine RxFsm Cam.
From S2P Require Import IssuePipe Lfsr FsmHistory.

(** ** est_pipe_input_merger.sv: packets given back go first *)

Definition use_reinject_q (fsm_reinject_q_merger_empty : bool) : bool := negb fsm_reinject_q_merger_empty.
Definition merger_fsm_reinject_q_deq_req_val (q_empty est_pipe_rdy : bool) : bool := use_reinject_q q_empty && est_pipe_rdy.
Definition merger_issue_est_pipe_rdy (q_empty est_pipe_rdy : bool) : bool := negb (use_reinject_q q_empty) && est_pipe_rdy.
Definition merger_est (issue_est : option est_pkt) (q_empty : bool) (deq_resp_data : est_pkt) : option est_pkt :=
  if use_reinject_q q_empty then Some deq_resp_data else issue_est.

(** ** rx_pipe_wrap.sv *)

Record rx_pipe := RxPipe {
  rp_issue : issue_sys;
  fsm_queue : fifo fsm_pkt;
  fsm_pipe : rx_fsm;
  init_seq_num_reg : Z;
  reinject_queue : fifo est_pkt }.

(** The pipeline of established connections, the arbiter in front of the states,
    the queue of the answers and the stores are inputs; the grants and the
    responses of the two state stores come together. *)
Record rx_pipe_in := RxPipeIn {
  rpi_hdr_val : bool;
  rpi_pkt : issue_pkt;
  rpi_est_rdy : bool;
  rpi_rd_grant : bool;
  rpi_rd_resp_val : bool;
  rpi_rx : recv_state_entry;
  rpi_tx : tx_state_struct;
  rpi_send_queue_full : bool;
  rpi_new_flow_rdy : bool;
  rpi_app_rdy : bool }.

Record rx_pipe_out := RxPipeOut {
  rpo_hdr_rdy : bool;
  rpo_est : option est_pkt;
  rpo_effects : list effect }.

Definition fsm_log2 : nat := 2.

(** What is given back of a packet: all but its addresses. *)
Definition reinject_of (p : fsm_pkt) : est_pkt :=
  EstPkt (fsm_tcp_hdr p) (fsm_flowid p) (fsm_payload_val p) (fsm_payload_entry p).

Section RxPipe.
Variable xt : tcp_flow_state_e.  (* what the undefined is taken for *)
Variable xf : fsm_pkt.
Variable xe : est_pkt.

(** *** Wires *)

Definition fsm_wires (s : rx_pipe) (i : rx_pipe_in) : fsm_in :=
  let mem := tcp_state_mem (issue_pipe (rp_issue s)) in
  {| fsm_hdr_val := negb (fifo_empty fsm_log2 (fsm_queue s));
     fsm_pkt_in := default xf (rd_resp_data (fifo_mem (fsm_queue s)));
     tcp_state_fsm_rd_resp_val := rd1_resp_val mem;
     tcp_state_fsm_rd_resp_data := default xt (rd1_resp_data mem);
     rx_state_fsm_rd_req_rdy := rpi_rd_grant i;
     rx_state_fsm_rd_resp_val := rpi_rd_resp_val i;
     rx_state_fsm_rd_resp_data := rpi_rx i;
     tx_state_fsm_rd_req_rdy := rpi_rd_grant i;
     tx_state_fsm_rd_resp_val := rpi_rd_resp_val i;
     tx_state_fsm_rd_resp_data := rpi_tx i;
     fsm_reinject_q_full := fifo_full fsm_log2 (reinject_queue s);
     fsm_send_pkt_enqueue_rdy := negb (rpi_send_queue_full i);
     next_flow_state_rdy := true;
     new_flow_rdy := rpi_new_flow_rdy i;
     app_new_flow_notif_rdy := rpi_app_rdy i;
     init_seq_num := init_seq_num_reg s |}.

Definition issue_in_of (s : rx_pipe) (i : rx_pipe_in) : issue_sys_in :=
  let f := fsm_pipe s in
  {| iss_hdr_val := rpi_hdr_val i;
     iss_pkt := rpi_pkt i;
     iss_update := WrReq (next_flow_state_wr_req_val f) (fsm_flowid (pkt_reg f)) (next_flow_state_reg f);
     iss_fsm_rd := RdReq (fsm_tcp_state_rd_req_val f) (fsm_flowid (pkt_reg f)) true;
     iss_est_rdy := merger_issue_est_pipe_rdy (fifo_empty fsm_log2 (reinject_queue s)) (rpi_est_rdy i);
     iss_fsm_rdy := negb (fifo_full fsm_log2 (fsm_queue s)) |}.

Definition issue_of (s : rx_pipe) (i : rx_pipe_in) : issue_out := c_out (rx_issue xt) (rp_issue s) (issue_in_of s i).

Definition fsm_queue_in (s : rx_pipe) (i : rx_pipe_in) : fifo_in fsm_pkt :=
  FifoIn (fsm_hdr_rdy (fsm_pipe s) && negb (fifo_empty fsm_log2 (fsm_queue s)))
    (bool_decide (is_Some (issue_fsm (issue_of s i))) && negb (fifo_full fsm_log2 (fsm_queue s)))
    (default zero_fsm_pkt (issue_fsm (issue_of s i))).

Definition reinject_in (s : rx_pipe) (i : rx_pipe_in) : fifo_in est_pkt :=
  FifoIn (merger_fsm_reinject_q_deq_req_val (fifo_empty fsm_log2 (reinject_queue s)) (rpi_est_rdy i))
    (fsm_reinject_q_enq_req_val (fsm_pipe s) (fsm_wires s i)) (reinject_of (pkt_reg (fsm_pipe s))).

(** The generator moves on when the machine takes a number. *)
Definition init_seq_num_yumi (s : rx_pipe) (i : rx_pipe_in) : bool :=
  sm_seq_num_req (state_machine (fsm_pipe s) (fsm_wires s i)) && next_state_req (fsm_pipe s).

Definition rx_pipe_next (rst : bool) (i : rx_pipe_in) (s : rx_pipe) : rx_pipe :=
  {| rp_issue := c_next (rx_issue xt) rst (issue_in_of s i) (rp_issue s);
     fsm_queue := c_next (fifo_1r1w zero_fsm_pkt fsm_log2) rst (fsm_queue_in s i) (fsm_queue s);
     fsm_pipe := c_next rx_fsm_pipe rst (fsm_wires s i) (fsm_pipe s);
     init_seq_num_reg := c_next init_seq_num_gen rst (init_seq_num_yumi s i) (init_seq_num_reg s);
     reinject_queue := c_next (fifo_1r1w zero_pkt fsm_log2) rst (reinject_in s i) (reinject_queue s) |}.

Definition rx_pipe_wrap : circuit rx_pipe rx_pipe_in rx_pipe_out := Circuit
  (λ s i,
     {| rpo_hdr_rdy := recv_hdr_rdy (issue_of s i);
        rpo_est := merger_est (issue_est (issue_of s i)) (fifo_empty fsm_log2 (reinject_queue s))
                     (default xe (rd_resp_data (fifo_mem (reinject_queue s))));
        rpo_effects := fsm_effects (fsm_pipe s) (fsm_wires s i) |})
  rx_pipe_next.

(** What the pipeline of established connections takes in a cycle. *)
Definition est_taken (i : rx_pipe_in) (o : rx_pipe_out) : list est_pkt :=
  if rpi_est_rdy i then option_list (rpo_est o) else [].

(** ** The invariant

    [hs] are the packets the handshake pipeline has dealt with, [es] what has
    left it, [ests] the packets the other pipeline has taken, [sent] those that
    have left the first. *)

Definition fsm_sent (rx : route_e * issued) : option fsm_pkt :=
  match to_wire rx with inr p => Some p | inl _ => None end.
Definition est_sent (rx : route_e * issued) : option est_pkt :=
  match to_wire rx with inl p => Some p | inr _ => None end.
Definition issued_key (x : issued) : Z * bool := (is_flowid x, is_new x).

(** The states in which the state of the connection has been read. *)
Definition has_read (s : rx_fsm) : bool :=
  in_state RX_TX_STATE_RD_REQ s || in_state RX_TX_STATE_RD_RESP s || in_state STATE_DEC s.

Abbreviation fsm_flow s := (fsm_flowid (pkt_reg (fsm_pipe s))).
Abbreviation state_mem s := (tcp_state_mem (issue_pipe (rp_issue s))).

Record rx_inv (hs : list handled) (es : list effect) (ests : list est_pkt) (sent : list (route_e * issued))
    (d : dispatcher) (g : reads) (q : list fsm_pkt) (rq : list est_pkt) (s : rx_pipe) : Prop := {
  x_issue : issue_rel (rp_issue s) d;
  x_queue : fifo_rel fsm_log2 (fsm_queue s) q;
  x_reinject : fifo_rel fsm_log2 (reinject_queue s) rq;
  x_fsm : fsm_inv g (fsm_pipe s);
  x_seq : seq_ok (init_seq_num_reg s);
  x_port : ram_rel (port1 (state_mem s)) (RamView (contents2 (state_mem s))
             (if in_state TCP_STATE_RD_RESP (fsm_pipe s) then Some (fsm_flow s) else None));
  x_todo : es ++ todo (fsm_pipe s) = done_by hs;
  x_order : omap fsm_sent sent = (handled_pkt <$> hs) ++ pending (fsm_pipe s) ++ q;
  x_flagged : flagged (issued_key <$> sent.*2 ++ d_queue d);
  x_numbers : ∀ f, f ∈ is_flowid <$> (sent.*2 ++ d_queue d) ↔ 0 ≤ f < Z.of_nat (length (d_table d));
  x_routes : Forall (λ rx, rx.1 = EST_PIPE → is_new rx.2 = false) sent;
  x_states : ∀ f, 0 ≤ f < Z.of_nat (length (d_table d)) → d_state d f = last_state (state_writes es) f;
  x_read : has_read (fsm_pipe s) = true → fsm_new_flow (pkt_reg (fsm_pipe s)) = false →
             g_st g = last_state (state_writes es) (fsm_flow s);
  x_waits : in_state REINJECT_PKT (fsm_pipe s) = true → (fsm_flow s, TCP_EST) ∈ state_writes es;
  x_handled : consistent hs;
  x_est : Forall (λ p, (est_flowid p, TCP_EST) ∈ state_writes es) (ests ++ rq) }.
Arguments x_issue {_ _ _ _ _ _ _ _ _} _.
Arguments x_queue {_ _ _ _ _ _ _ _ _} _.
Arguments x_reinject {_ _ _ _ _ _ _ _ _} _.
Arguments x_fsm {_ _ _ _ _ _ _ _ _} _.
Arguments x_seq {_ _ _ _ _ _ _ _ _} _.
Arguments x_port {_ _ _ _ _ _ _ _ _} _.
Arguments x_todo {_ _ _ _ _ _ _ _ _} _.
Arguments x_order {_ _ _ _ _ _ _ _ _} _.
Arguments x_flagged {_ _ _ _ _ _ _ _ _} _.
Arguments x_numbers {_ _ _ _ _ _ _ _ _} _.
Arguments x_routes {_ _ _ _ _ _ _ _ _} _.
Arguments x_states {_ _ _ _ _ _ _ _ _} _.
Arguments x_read {_ _ _ _ _ _ _ _ _} _.
Arguments x_waits {_ _ _ _ _ _ _ _ _} _.
Arguments x_handled {_ _ _ _ _ _ _ _ _} _.
Arguments x_est {_ _ _ _ _ _ _ _ _} _.

(** *** Numbers *)

Lemma dispatch_table es d : d_table (dispatch_all es d) = fold_left enter (entered es) (d_table d).
Proof.
  revert d. induction es as [|e es IH]; intros d; [done|]. change (dispatch_all (e :: es) d) with (dispatch_all es (dispatch e d)).
  rewrite IH. by destruct e.
Qed.

(** Numbering more packets, each is new if it is the first of its number. *)
Lemma numbered_flagged tbl ps (l : list issued) :
  NoDup tbl → flagged (issued_key <$> l) → (∀ f, f ∈ is_flowid <$> l ↔ 0 ≤ f < Z.of_nat (length tbl)) →
  let l' := l ++ numbered_from tbl ps in
  flagged (issued_key <$> l') ∧ ∀ f, f ∈ is_flowid <$> l' ↔ 0 ≤ f < Z.of_nat (length (fold_left enter ps tbl)).
Proof.
  assert (Hkey : ∀ k : list issued, (issued_key <$> k).*1 = is_flowid <$> k) by (intros k; by rewrite <- list_fmap_compose).
  revert tbl l. induction ps as [|p ps IH]; intros tbl l Hd Hf Hn; cbn zeta; [by rewrite app_nil_r|].
  cbn [numbered_from fold_left]. rewrite app_assoc.
  assert (Hstep : flagged (issued_key <$> l ++ option_list (number tbl p)) ∧
    ∀ f, f ∈ is_flowid <$> (l ++ option_list (number tbl p)) ↔ 0 ≤ f < Z.of_nat (length (enter tbl p))).
  { unfold enter. pose proof (number_enter tbl p) as Hnum. unfold number in *.
    destruct (index (tag_of p) tbl) as [n|] eqn:E; cbn [opened is_new option_list].
    - destruct (Hnum _ Hd eq_refl) as (_ & _ & Hl & _). apply index_Some in E; [|done]. apply lookup_lt_Some in E.
      assert (Hin : Z.of_nat n ∈ is_flowid <$> l) by (apply Hn; lia). rewrite !fmap_app. split.
      + cbn. change (issued_key (Issued p (Z.of_nat n) false)) with (Z.of_nat n, false).
        replace false with (bool_decide (Z.of_nat n ∉ (issued_key <$> l).*1)) by (apply bool_decide_eq_false_2; rewrite Hkey; auto).
        by constructor.
      + intros f. rewrite elem_of_app, Hn. cbn. rewrite list_elem_of_singleton. split; [intros [?| ->]; lia|by left].
    - destruct (Nat.ltb_spec (length tbl) MAX_FLOW_CNT) as [Hlt|]; cbn [opened is_new option_list]; [|by rewrite app_nil_r].
      rewrite !fmap_app. split.
      + cbn. change (issued_key (Issued p (Z.of_nat (length tbl)) true)) with (Z.of_nat (length tbl), true).
        replace true with (bool_decide (Z.of_nat (length tbl) ∉ (issued_key <$> l).*1))
          by (apply bool_decide_eq_true_2; rewrite Hkey, Hn; lia).
        by constructor.
      + intros f. rewrite elem_of_app, Hn, length_app. cbn. rewrite list_elem_of_singleton. lia. }
  destruct Hstep as [H1 H2]. exact (IH _ _ (enter_NoDup _ _ Hd) H1 H2).
Qed.

Lemma sends_routes es d : Forall (λ rx, rx.1 = EST_PIPE → is_new rx.2 = false) (sends es d).
Proof.
  revert d. induction es as [|e es IH]; intros d; [constructor|]. cbn [sends]. apply Forall_app. split; [|apply IH].
  destruct e; cbn; [done..|]. destruct (d_queue d) as [|x l]; [constructor|]. constructor; [|done]. cbn. unfold route_of.
  by destruct (is_new x).
Qed.

Lemma fsm_sent_key rx p : fsm_sent rx = Some p → fsm_flowid p = is_flowid rx.2 ∧ fsm_new_flow p = is_new rx.2 ∧ rx.1 = FSM_PIPE.
Proof. unfold fsm_sent, to_wire. destruct rx as [[] x]; cbn; [done|]. by intros [= <-]. Qed.

(** The packets of the handshake pipeline are flagged as well. *)
Lemma fsm_sent_flagged sent :
  flagged (issued_key <$> sent.*2) → Forall (λ rx, rx.1 = EST_PIPE → is_new rx.2 = false) sent →
  flagged ((λ p, (fsm_flowid p, fsm_new_flow p)) <$> omap fsm_sent sent).
Proof.
  intros Hf Hr. rewrite <- list_fmap_compose in Hf.
  destruct (flagged_part (issued_key ∘ snd) (λ rx, rx.1 = FSM_PIPE) sent Hf) as [H _].
  { eapply Forall_impl; [exact Hr|]. intros [[] x] H Hn; cbn in *; [by apply H|done]. }
  assert (E : (λ p, (fsm_flowid p, fsm_new_flow p)) <$> omap fsm_sent sent =
    issued_key ∘ snd <$> filter (λ rx, rx.1 = FSM_PIPE) sent); [|rewrite E; exact H].
  clear. induction sent as [|[r x] sent IH]; [done|].
  destruct r; [rewrite filter_cons_False by done; exact IH|]. rewrite filter_cons_True by done. cbn. by f_equal.
Qed.

(** What the handshake pipeline writes in a cycle. *)
Lemma effects_writes f w :
  next_flow_state_rdy w = true →
  state_writes (fsm_effects f w) =
    if next_flow_state_wr_req_val f then [(fsm_flowid (pkt_reg f), next_flow_state_reg f)] else [].
Proof.
  intros Hr. unfold fsm_effects. rewrite Hr, !state_writes_app. rewrite andb_true_r. unfold RxFsm.when.
  by destruct (fsm_reinject_q_enq_req_val f w), (tcp_fsm_clear_flowid_val f w), (new_flow_val f && _),
    (next_flow_state_wr_req_val f), (fsm_send_pkt_enqueue_val f && _), (app_new_flow_notif_val f && _).
Qed.


(** ** A cycle *)

Section Cycle.
Context (hs : list handled) (es : list effect) (ests : list est_pkt) (sent : list (route_e * issued)).
Context (d : dispatcher) (g : reads) (q : list fsm_pkt) (rq : list est_pkt) (s : rx_pipe) (i : rx_pipe_in).
Hypothesis Hr : rx_inv hs es ests sent d g q rq s.

Abbreviation f := (fsm_pipe s).
Abbreviation w := (fsm_wires s i).
Abbreviation ii := (issue_in_of s i).
Abbreviation s' := (rx_pipe_next false i s).
Abbreviation evs := (cycle_events xt (rp_issue s) ii).
Abbreviation d' := (dispatch_all evs d).
Abbreviation flows n := (0 ≤ n < Z.of_nat (length (d_table d))).

(** *** The numbers the handshake pipeline handles *)

Lemma numbers_ok n : flows n → flow_ok n.
Proof.
  intros H. destruct (j_numbers _ _ (x_issue Hr)) as (_ & Hle & _). unfold flow_ok. lia.
Qed.

Lemma sent_flow p : p ∈ omap fsm_sent sent → flows (fsm_flowid p).
Proof.
  intros (rx & Hin & E)%list_elem_of_omap. destruct (fsm_sent_key _ _ E) as (-> & _).
  apply (x_numbers Hr). apply list_elem_of_fmap_2, elem_of_app. left. by apply list_elem_of_fmap_2.
Qed.

Lemma handled_flow n : n ∈ (λ e, flow_of e) <$> hs → flows n.
Proof.
  intros (e & -> & Hin)%list_elem_of_fmap. apply sent_flow. rewrite (x_order Hr).
  apply elem_of_app. left. by apply list_elem_of_fmap_2.
Qed.

Lemma write_flow n : n ∈ (state_writes (es ++ todo f)).*1 → flows n.
Proof. rewrite (x_todo Hr). intros H. by apply handled_flow, writes_flows. Qed.

Lemma pending_flow : pkt_reg f ∈ pending f → flows (fsm_flow s).
Proof.
  intros H. apply sent_flow. rewrite (x_order Hr), !elem_of_app. right. by left.
Qed.

Lemma wr_req_flow : next_flow_state_wr_req_val f = true → flows (fsm_flow s).
Proof.
  intros H. apply write_flow. unfold next_flow_state_wr_req_val, in_state, todo in *.
  destruct (ctrl_state_reg f); try done. rewrite state_writes_app, fmap_app, elem_of_app. right. by left.
Qed.

Lemma issue_in_ok : issue_ok ii.
Proof.
  split; cbn [iss_update wr_val wr_addr iss_fsm_rd rd_val rd_addr issue_in_of]; intros H; apply numbers_ok.
  - by apply wr_req_flow.
  - apply pending_flow. unfold fsm_tcp_state_rd_req_val, in_state, pending in *. destruct (ctrl_state_reg f); try done. by left.
Qed.

(** *** The first pipeline *)

Lemma issue_next_rel : issue_rel (rp_issue s') d'.
Proof. exact (issue_rel_next xt _ _ _ (x_issue Hr) issue_in_ok). Qed.

Lemma sent_now : issue_sent (issue_of s i) = to_wire <$> sends evs d.
Proof. exact (wires_sent xt _ _ _ (x_issue Hr)). Qed.

Lemma omap_fsm_sent (l : list (route_e * issued)) : omap fsm_sent l = omap (λ o, match o with inr p => Some p | inl _ => None end) (to_wire <$> l).
Proof. induction l as [|x l IH]; [done|]. cbn in *. rewrite IH. unfold fsm_sent. by destruct (to_wire x). Qed.
Lemma omap_est_sent (l : list (route_e * issued)) : omap est_sent l = omap (λ o, match o with inl p => Some p | inr _ => None end) (to_wire <$> l).
Proof. induction l as [|x l IH]; [done|]. cbn in *. rewrite IH. unfold est_sent. by destruct (to_wire x). Qed.

Lemma fsm_sent_now : omap fsm_sent (sends evs d) = option_list (issue_fsm (issue_of s i)).
Proof. rewrite omap_fsm_sent, <- sent_now. unfold issue_sent. by destruct (issue_est _), (issue_fsm _). Qed.
Lemma est_sent_now : omap est_sent (sends evs d) = option_list (issue_est (issue_of s i)).
Proof. rewrite omap_est_sent, <- sent_now. unfold issue_sent. by destruct (issue_est _), (issue_fsm _). Qed.

Lemma queue_next_ids :
  (sent ++ sends evs d).*2 ++ d_queue d' = (sent.*2 ++ d_queue d) ++ numbered_from (d_table d) (entered evs).
Proof. rewrite fmap_app, <- !app_assoc. f_equal. apply sends_numbered. Qed.

Lemma ids_next :
  flagged (issued_key <$> (sent ++ sends evs d).*2 ++ d_queue d') ∧
  ∀ n, n ∈ is_flowid <$> ((sent ++ sends evs d).*2 ++ d_queue d') ↔ 0 ≤ n < Z.of_nat (length (d_table d')).
Proof.
  rewrite queue_next_ids, dispatch_table. apply numbered_flagged; [apply (x_issue Hr)|apply Hr..].
Qed.

(** *** What the handshake pipeline reads *)

Lemma state_resp :
  in_state TCP_STATE_RD_RESP f = true →
  tcp_state_fsm_rd_resp_val w = true ∧ tcp_state_fsm_rd_resp_data w = last_state (state_writes es) (fsm_flow s).
Proof.
  intros E. pose proof (x_port Hr) as Hp. rewrite E in Hp.
  destruct (port_shows _ _ _ Hp eq_refl) as [Hv Hd]. cbn [rv_mem] in Hd.
  assert (Hf : flows (fsm_flow s)).
  { apply pending_flow. unfold in_state, pending in *. destruct (ctrl_state_reg f); try done. by left. }
  cbn [tcp_state_fsm_rd_resp_val tcp_state_fsm_rd_resp_data fsm_wires]. rewrite port1_val, port1_data, Hv, Hd. split; [done|].
  rewrite (j_state _ _ (x_issue Hr) _ Hf). cbn. by apply (x_states Hr).
Qed.

Lemma no_todo : pending f ≠ [] → done_by hs = es.
Proof.
  intros H. rewrite <- (x_todo Hr). unfold pending, todo in *.
  destruct (ctrl_state_reg f); cbn; rewrite ?app_nil_r; done.
Qed.

(** *** The dealt-with packets stay consistent *)

Lemma hs_flagged : flagged ((λ p, (fsm_flowid p, fsm_new_flow p)) <$> (handled_pkt <$> hs) ++ pending f ++ q).
Proof.
  rewrite <- (x_order Hr). apply fsm_sent_flagged; [|apply Hr].
  pose proof (x_flagged Hr) as H. rewrite fmap_app in H. by apply flagged_prefix in H.
Qed.

Lemma pending_new p l :
  pending f = p :: l → fsm_new_flow p = bool_decide (fsm_flowid p ∉ (λ e, flow_of e) <$> hs).
Proof.
  intros E. pose proof hs_flagged as H. rewrite E, fmap_app in H. cbn [app] in H.
  change ((λ p, (fsm_flowid p, fsm_new_flow p)) <$> p :: l ++ q) with
    ((fsm_flowid p, fsm_new_flow p) :: ((λ p, (fsm_flowid p, fsm_new_flow p)) <$> l ++ q)) in H.
  rewrite (flagged_first _ _ _ _ H). apply bool_decide_ext. by rewrite <- !list_fmap_compose.
Qed.

Lemma handled_next : consistent (hs ++ handled_now g f w).
Proof.
  pose proof (x_handled Hr) as Hc. unfold handled_now.
  pose proof state_resp as Hresp. pose proof no_todo as Ht. pose proof pending_new as Hn. pose proof (x_read Hr) as Hg.
  unfold in_state, next_state_req, pending, has_read, in_state in *.
  destruct (ctrl_state_reg f); cbn [andb app orb] in *; rewrite ?app_nil_r; try done.
  - destruct Hresp as [-> ->]; [done|]. cbn [andb]. case_bool_decide as E; cbn [andb app]; [|by rewrite app_nil_r].
    destruct (bad_flags (fsm_tcp_hdr (pkt_reg f))) eqn:Eb; cbn [negb app]; [by rewrite app_nil_r|].
    constructor; [done|]. split; [exact (Hn _ _ eq_refl)|]. split; [|done]. unfold conn_state. by rewrite Ht.
  - constructor; [done|]. split; [exact (Hn _ _ eq_refl)|]. split; [|apply (x_seq Hr)].
    intros Hnew. unfold conn_state. rewrite Ht by done. by apply Hg.
Qed.

(** *** The queues *)

Abbreviation q' := (queue_next (fsm_queue_in s i) q).
Abbreviation rq' := (queue_next (reinject_in s i) rq).

Lemma fsm_queue_flags : fifo_empty fsm_log2 (fsm_queue s) = bool_decide (q = []).
Proof. apply fifo_flags, Hr. Qed.
Lemma reinject_flags : fifo_empty fsm_log2 (reinject_queue s) = bool_decide (rq = []).
Proof. apply fifo_flags, Hr. Qed.

(** A packet for the handshake pipeline leaves when the queue has room. *)
Lemma issue_fsm_room : is_Some (issue_fsm (issue_of s i)) → fifo_full fsm_log2 (fsm_queue s) = false.
Proof.
  unfold issue_of. cbn [c_out rx_issue issue_shows issue_fsm]. unfold fsm_hdr_val_i, stall_issue.
  cbn [issue_fsm_pipe_rdy issue_wires iss_fsm_rdy issue_in_of].
  destruct (fifo_full fsm_log2 (fsm_queue s)); [|done]. intros [p H]. revert H. cbn [negb].
  by destruct (recv_hdr_val_reg_i _), (bool_decide (route _ _ = FSM_PIPE)).
Qed.

Lemma has_room {A} (f : fifo A) l : fifo_rel fsm_log2 f l → fifo_full fsm_log2 f = false → Z.of_nat (length l) < slots fsm_log2.
Proof.
  intros Hf. pose proof (fr_cap _ _ _ Hf). rewrite (proj2 (fifo_flags _ _ _ Hf)). intros E%bool_decide_eq_false. lia.
Qed.

Lemma fsm_queue_next : fifo_rel fsm_log2 (fsm_queue s') q'.
Proof.
  refine (proj2 (fifo_simulates zero_fsm_pkt fsm_log2 _ _ (fsm_queue_in s i) (x_queue Hr) _)). split.
  - cbn [Fifo.rd_req fsm_queue_in]. rewrite fsm_queue_flags. intros [_ E]%andb_true_iff.
    by apply negb_true_iff, bool_decide_eq_false in E.
  - cbn [Fifo.wr_req fsm_queue_in]. intros [_ E]%andb_true_iff. left. apply (has_room _ _ (x_queue Hr)). by apply negb_true_iff.
Qed.

Lemma reinject_next : fifo_rel fsm_log2 (reinject_queue s') rq'.
Proof.
  refine (proj2 (fifo_simulates zero_pkt fsm_log2 _ _ (reinject_in s i) (x_reinject Hr) _)). split.
  - cbn [Fifo.rd_req reinject_in]. unfold merger_fsm_reinject_q_deq_req_val, use_reinject_q. rewrite reinject_flags.
    intros [E _]%andb_true_iff. by apply negb_true_iff, bool_decide_eq_false in E.
  - cbn [Fifo.wr_req reinject_in]. intros E. left. apply (has_room _ _ (x_reinject Hr)).
    unfold fsm_reinject_q_enq_req_val in E. cbn [fsm_reinject_q_full fsm_wires] in E.
    destruct (fifo_full fsm_log2 (reinject_queue s)); [|done]. by rewrite !andb_false_r in E.
Qed.

(** What the handshake pipeline takes is the head of its queue. *)
Lemma fsm_takes :
  q ++ option_list (issue_fsm (issue_of s i)) =
  (if fsm_hdr_val w && fsm_hdr_rdy f then [fsm_pkt_in w] else []) ++ q'.
Proof.
  pose proof issue_fsm_room as Hroom. unfold queue_next. cbn [Fifo.rd_req Fifo.wr_req wr_data fsm_queue_in fsm_hdr_val fsm_pkt_in fsm_wires].
  assert (Hw : (if bool_decide (is_Some (issue_fsm (issue_of s i))) && negb (fifo_full fsm_log2 (fsm_queue s))
    then [default zero_fsm_pkt (issue_fsm (issue_of s i))] else []) = option_list (issue_fsm (issue_of s i))).
  { destruct (issue_fsm (issue_of s i)); [|done]. by rewrite Hroom by eauto. }
  rewrite Hw, app_assoc. f_equal. rewrite fsm_queue_flags. destruct q as [|p q0]; [by rewrite andb_false_r|].
  rewrite (fr_head _ _ _ (x_queue Hr) p eq_refl). by destruct (fsm_hdr_rdy f).
Qed.

Lemma fsm_steps :
  fsm_inv (reads_after g f w) (fsm_pipe s') ∧
  pending f ++ (if fsm_hdr_val w && fsm_hdr_rdy f then [fsm_pkt_in w] else []) =
    (handled_pkt <$> handled_now g f w) ++ pending (fsm_pipe s') ∧
  todo f ++ done_by (handled_now g f w) = fsm_effects f w ++ todo (fsm_pipe s').
Proof. exact (fsm_cycle g f w (x_fsm Hr)). Qed.

Lemma handled_order_next :
  omap fsm_sent (sent ++ sends evs d) = (handled_pkt <$> hs ++ handled_now g f w) ++ pending (fsm_pipe s') ++ q'.
Proof.
  destruct fsm_steps as (_ & E & _). rewrite omap_app, (x_order Hr), fsm_sent_now, <- !app_assoc, fsm_takes.
  rewrite fmap_app, <- !app_assoc. f_equal. by rewrite !app_assoc, E.
Qed.

Lemma todo_next : (es ++ fsm_effects f w) ++ todo (fsm_pipe s') = done_by (hs ++ handled_now g f w).
Proof.
  destruct fsm_steps as (_ & _ & E). by rewrite done_by_app, <- (x_todo Hr), <- !app_assoc, E.
Qed.

(** *** The states *)

Lemma writes_now :
  state_writes (es ++ fsm_effects f w) =
  state_writes es ++ if next_flow_state_wr_req_val f then [(fsm_flow s, next_flow_state_reg f)] else [].
Proof. by rewrite state_writes_app, effects_writes. Qed.

Lemma es_flow n : n ∈ (state_writes es).*1 → flows n.
Proof. intros H. apply write_flow. rewrite state_writes_app, fmap_app, elem_of_app. by left. Qed.

Lemma states_next_rx n :
  0 ≤ n < Z.of_nat (length (d_table d')) → d_state d' n = last_state (state_writes (es ++ fsm_effects f w)) n.
Proof.
  intros Hn. rewrite (state_next xt _ _ _ (x_issue Hr) n), writes_now, last_state_app. cbn zeta.
  pose proof (table_next xt _ _ ii (x_issue Hr)) as Ht. pose proof (alloc_number xt _ _ ii (x_issue Hr)) as Ha.
  pose proof (alloc_alone xt (rp_issue s) ii) as Hal. pose proof es_flow as Hes. pose proof wr_req_flow as Hwf.
  unfold tcp_state_wr_t, alloc_new_flowid_data_t. cbn [wr_val wr_addr wr_dat update_tcp_state issue_wires iss_update issue_in_of] in *.
  destruct (alloc_new_flowid_val_t xt (issue_pipe (rp_issue s)) (issue_wires (rp_issue s) ii)) eqn:Eal.
  - destruct (Ha eq_refl) as (_ & -> & _). rewrite (Hal eq_refl). cbn [orb andb fold_left].
    destruct (Z.eqb_spec (Z.of_nat (length (d_table d))) n) as [<-|Hne].
    + symmetry. apply last_state_none. intros H%Hes. lia.
    + apply (x_states Hr). rewrite Ht, length_app in Hn. cbn [length] in Hn. lia.
  - rewrite Ht in Hn. rewrite orb_false_r. destruct (next_flow_state_wr_req_val f); cbn [andb fold_left fst snd].
    + destruct (_ =? n); [done|]. by apply (x_states Hr).
    + by apply (x_states Hr).
Qed.

(** *** What has been read *)

Lemma reads_next_state c v :
  in_state TCP_STATE_RD_RESP (fsm_next v c) =
  in_state TCP_STATE_RD_REQ c && negb (fsm_new_flow (pkt_reg c)) ||
  in_state TCP_STATE_RD_RESP c && negb (tcp_state_fsm_rd_resp_val v).
Proof. unfold in_state, fsm_next. destruct c as [[] p st rx tx nst sv sh nf]; cbn; repeat case_match; done. Qed.

Lemma next_pkt c v : pkt_reg (fsm_next v c) = if in_state READY c && fsm_hdr_val v then fsm_pkt_in v else pkt_reg c.
Proof. unfold in_state, fsm_next. destruct c as [[] p st rx tx nst sv sh nf]; cbn; repeat case_match; done. Qed.

Lemma port_next :
  ram_rel (port1 (state_mem s')) (RamView (contents2 (state_mem s'))
    (if in_state TCP_STATE_RD_RESP (fsm_pipe s') then Some (fsm_flow s') else None)).
Proof.
  pose proof (port1_step TCP_NONE (tcp_state_wr_t xt (issue_pipe (rp_issue s)) (issue_wires (rp_issue s) ii))
    (tcp_state_rd_t xt (issue_pipe (rp_issue s)) (issue_wires (rp_issue s) ii)) (iss_fsm_rd ii) _ _ (x_port Hr)) as H.
  pose proof (j_sized _ _ (x_issue Hr)) as Hsz. pose proof (o_read _ issue_in_ok) as Hrd.
  pose proof (state_wr_ok xt _ _ _ (x_issue Hr) issue_in_ok) as Hwr. pose proof state_resp as Hresp.
  match goal with |- ram_rel _ (RamView _ ?a) => replace a with
    (reads_next (if in_state TCP_STATE_RD_RESP f then Some (fsm_flow s) else None) (iss_fsm_rd ii)) end.
  - apply H; intros E; apply sized_in_range; auto.
  - unfold reads_next. cbn [iss_fsm_rd rd_resp_rdy rd_val rd_addr issue_in_of orb].
    cbn [fsm_pipe rx_pipe_next c_next rx_fsm_pipe]. rewrite reads_next_state, next_pkt. unfold fsm_tcp_state_rd_req_val.
    destruct (in_state TCP_STATE_RD_RESP f) eqn:Ei.
    + destruct Hresp as [-> _]; [done|]. unfold in_state in *. by destruct (ctrl_state_reg f).
    + rewrite orb_false_r. unfold in_state. by destruct (ctrl_state_reg f), (fsm_new_flow (pkt_reg f)).
Qed.

Lemma writes_kept : next_flow_state_wr_req_val f = false → state_writes (es ++ fsm_effects f w) = state_writes es.
Proof. intros E. by rewrite writes_now, E, app_nil_r. Qed.

Lemma writes_grow n st : (n, st) ∈ state_writes es → (n, st) ∈ state_writes (es ++ fsm_effects f w).
Proof. rewrite state_writes_app, elem_of_app. by left. Qed.

(** From where the state has been read in the next cycle. *)
Lemma has_read_next c v :
  has_read (fsm_next v c) = true →
  in_state READY c = false ∧ next_flow_state_wr_req_val c = false ∧
  (fsm_new_flow (pkt_reg c) = false → has_read c = true ∨ in_state TCP_STATE_RD_RESP c = true ∧ tcp_state_fsm_rd_resp_val v = true).
Proof.
  unfold has_read, next_flow_state_wr_req_val, in_state, fsm_next. destruct c as [[] p st rx tx nst sv sh nf]; cbn;
    repeat case_match; cbn; try done; intros _; split_and!; try done; intros Hn;
    first [by left|by right|congruence|by destruct (fsm_new_flow p)].
Qed.

Lemma read_next :
  has_read (fsm_pipe s') = true → fsm_new_flow (pkt_reg (fsm_pipe s')) = false →
  g_st (reads_after g f w) = last_state (state_writes (es ++ fsm_effects f w)) (fsm_flow s').
Proof.
  cbn [fsm_pipe rx_pipe_next c_next rx_fsm_pipe]. intros H Hn. rewrite next_pkt in *.
  destruct (has_read_next _ _ H) as (E1 & E2 & E3). rewrite E1 in *. cbn [andb] in *. rewrite writes_kept by done.
  cbn [g_st reads_after]. destruct (E3 Hn) as [Hg|[Hg Hv]].
  - assert (in_state TCP_STATE_RD_RESP f = false) as ->
      by (unfold has_read, in_state in *; by destruct (ctrl_state_reg f)).
    by apply (x_read Hr).
  - rewrite Hg, Hv. by apply state_resp.
Qed.

(** *** The connections of the packets given to the other pipeline *)

Definition is_est (n : Z) : Prop := (n, TCP_EST) ∈ state_writes es.

Lemma resp_est : in_state TCP_STATE_RD_RESP f = true → tcp_state_fsm_rd_resp_data w = TCP_EST → is_est (fsm_flow s).
Proof. intros E. rewrite (proj2 (state_resp E)). by apply last_state_in. Qed.

Lemma reinject_est : fsm_reinject_q_enq_req_val f w = true → is_est (fsm_flow s).
Proof.
  unfold fsm_reinject_q_enq_req_val. rewrite orb_true_iff, !andb_true_iff, bool_decide_eq_true.
  intros [H|H]; [apply resp_est; apply H|apply (x_waits Hr); apply H].
Qed.

Lemma waits_next_state c v :
  in_state REINJECT_PKT (fsm_next v c) = true →
  in_state REINJECT_PKT c = true ∨ in_state TCP_STATE_RD_RESP c = true ∧ tcp_state_fsm_rd_resp_data v = TCP_EST.
Proof.
  unfold in_state, fsm_next. destruct c as [[] p st rx tx nst sv sh nf]; cbn; repeat case_match; cbn; try done; auto.
  all: intros; right; split; [done|]; by eapply bool_decide_eq_true.
Qed.

Lemma waits_next :
  in_state REINJECT_PKT (fsm_pipe s') = true → (fsm_flow s', TCP_EST) ∈ state_writes (es ++ fsm_effects f w).
Proof.
  cbn [fsm_pipe rx_pipe_next c_next rx_fsm_pipe]. intros H. apply writes_grow. rewrite next_pkt.
  destruct (waits_next_state _ _ H) as [E|[E Ed]].
  - assert (in_state READY f = false) as -> by (unfold in_state in *; by destruct (ctrl_state_reg f)). by apply (x_waits Hr).
  - assert (in_state READY f = false) as -> by (unfold in_state in *; by destruct (ctrl_state_reg f)). by apply resp_est.
Qed.

(** A packet sent straight on is of an established connection. *)
Lemma issue_est_est p : issue_est (issue_of s i) = Some p → is_est (est_flowid p).
Proof.
  intros E. pose proof est_sent_now as H. rewrite E in H.
  assert (Hin : p ∈ omap est_sent (sends evs d)) by (rewrite H; by left).
  apply list_elem_of_omap in Hin as (rx & Hin & Ep). unfold est_sent, to_wire in Ep. destruct rx as [[] x]; cbn in Ep; [|done].
  injection Ep as <-. cbn [est_flowid]. unfold cycle_events in Hin. rewrite sends_app in Hin.
  rewrite (sends_nothing (IssuePipe.when _ _ ++ _)) in Hin by (unfold IssuePipe.when; repeat case_match; repeat constructor; done).
  rewrite app_nil_r in Hin. destruct (_ && _); [|by apply not_elem_of_nil in Hin]. cbn [IssuePipe.when sends send] in Hin.
  destruct (d_queue d) as [|y l] eqn:Eq; [by apply not_elem_of_nil in Hin|]. rewrite app_nil_r in Hin.
  apply list_elem_of_singleton in Hin as [= Hroute ->]. unfold route_of in Hroute.
  destruct (is_new y); cbn in Hroute; [done|]. destruct (bool_decide (d_state d (is_flowid y) = TCP_EST)) eqn:Ee; cbn in Hroute; [|done].
  apply bool_decide_eq_true in Ee. unfold is_est. apply last_state_in; [done|]. rewrite <- (x_states Hr); [done|].
  apply (x_numbers Hr). apply list_elem_of_fmap_2, elem_of_app. right. rewrite Eq. by left.
Qed.

(** Whatever is offered to the other pipeline. *)
Lemma offered_est p : rpo_est (c_out rx_pipe_wrap s i) = Some p → is_est (est_flowid p).
Proof.
  cbn [rpo_est c_out rx_pipe_wrap]. unfold merger_est, use_reinject_q. rewrite reinject_flags.
  pose proof issue_est_est as He. pose proof (fr_head _ _ _ (x_reinject Hr)) as Hh.
  pose proof (x_est Hr) as H. apply Forall_app in H as [_ H]. destruct rq as [|p0 l]; cbn [bool_decide negb]; [apply He|].
  rewrite (Hh p0 eq_refl). intros [= <-]. by apply Forall_cons in H as [H _].
Qed.

Lemma offered_flow p : rpo_est (c_out rx_pipe_wrap s i) = Some p → flow_ok (est_flowid p).
Proof.
  intros H%offered_est. apply numbers_ok, es_flow. change (est_flowid p) with (est_flowid p, TCP_EST).1. by apply list_elem_of_fmap_2.
Qed.

Abbreviation taken := (est_taken i (c_out rx_pipe_wrap s i)).

Lemma est_next : Forall (λ p, (est_flowid p, TCP_EST) ∈ state_writes (es ++ fsm_effects f w)) ((ests ++ taken) ++ rq').
Proof.
  pose proof (x_est Hr) as H. apply Forall_app in H as [H1 H2]. eapply Forall_impl; [|intros p; apply writes_grow].
  rewrite !Forall_app. split; [split; [done|]|].
  - unfold est_taken. pose proof offered_est as Ho. destruct (rpi_est_rdy i); [|constructor].
    destruct (rpo_est _) as [p|]; [|constructor]. constructor; [by apply Ho|constructor].
  - unfold queue_next. cbn [Fifo.rd_req Fifo.wr_req wr_data reinject_in]. apply Forall_app. split.
    + destruct (merger_fsm_reinject_q_deq_req_val _ _); [by apply Forall_tail|done].
    + pose proof reinject_est as He. destruct (fsm_reinject_q_enq_req_val f w); [|constructor]. constructor; [by apply He|constructor].
Qed.

Lemma rx_inv_next :
  rx_inv (hs ++ handled_now g f w) (es ++ fsm_effects f w) (ests ++ taken) (sent ++ sends evs d) d' (reads_after g f w) q' rq' s'.
Proof.
  destruct ids_next as [I1 I2]. split.
  - exact issue_next_rel.
  - exact fsm_queue_next.
  - exact reinject_next.
  - apply fsm_steps.
  - apply gen_ok, Hr.
  - exact port_next.
  - exact todo_next.
  - exact handled_order_next.
  - exact I1.
  - exact I2.
  - apply Forall_app. split; [apply Hr|apply sends_routes].
  - exact states_next_rx.
  - exact read_next.
  - exact waits_next.
  - exact handled_next.
  - exact est_next.
Qed.

(** When a connection is opened, no packet of it has gone the other way. *)
Lemma opening_fresh :
  new_flow_val f = true →
  flow_ok (fsm_flow s) ∧ (fsm_flow s ∉ opened_by es) ∧ fsm_flow s ∉ est_flowid <$> (ests ++ rq).
Proof.
  intros E. assert (Et : ∃ l, done_by hs = es ++ open_effect f :: l).
  { rewrite <- (x_todo Hr). unfold new_flow_val, in_state, todo in *. destruct (ctrl_state_reg f); try done. by eexists. }
  destruct Et as [l Et]. destruct (opens_first _ _ _ _ _ _ _ (x_handled Hr) Et) as [Hw Ho]. split_and!.
  - apply numbers_ok, handled_flow, opens_flows. rewrite Et. eapply opened_by_in, elem_of_middle.
  - exact Ho.
  - intros (p & Ep & Hin)%list_elem_of_fmap. pose proof (x_est Hr) as H. rewrite Forall_forall in H.
    apply Hw. change (fsm_flow s) with (fsm_flow s, TCP_EST).1. apply list_elem_of_fmap_2. cbn. rewrite Ep. by apply H.
Qed.
End Cycle.

(** ** Runs *)

Definition fsm_ins : list rx_pipe_in → rx_pipe → list fsm_in :=
  fix go ins s := match ins with [] => [] | i :: ins' => fsm_wires s i :: go ins' (rx_pipe_next false i s) end.
Definition issue_ins : list rx_pipe_in → rx_pipe → list issue_sys_in :=
  fix go ins s := match ins with [] => [] | i :: ins' => issue_in_of s i :: go ins' (rx_pipe_next false i s) end.

(** What the handshake pipeline has dealt with, what has left it, what the other
    pipeline has taken, and what has happened in the first one. *)
Definition run_handled (ins : list rx_pipe_in) (s : rx_pipe) : list handled :=
  history (Reads TCP_NONE zero_rx zero_tx) (fsm_ins ins s) (fsm_pipe s).
Definition run_effects (outs : list rx_pipe_out) : list effect := outs ≫= rpo_effects.
Definition run_est (ins : list rx_pipe_in) (outs : list rx_pipe_out) : list est_pkt := concat (zip_with est_taken ins outs).
Definition run_events (ins : list rx_pipe_in) (s : rx_pipe) : list issue_event := issue_events xt (issue_ins ins s) (rp_issue s).

(** What has been read for the last packet, after some cycles. *)
Fixpoint reads_run (g : reads) (fins : list fsm_in) (f : rx_fsm) : reads :=
  match fins with [] => g | w :: fins' => reads_run (reads_after g f w) fins' (fsm_next w f) end.

Lemma history_snoc g fins w f :
  history g (fins ++ [w]) f = history g fins f ++ handled_now (reads_run g fins f) (after_cycles rx_fsm_pipe fins f) w.
Proof.
  revert g f. induction fins as [|v fins IH]; intros g f; [cbn; by rewrite app_nil_r|]. cbn [app history reads_run].
  rewrite IH, app_assoc. done.
Qed.

Lemma rx_run hs es ests sent d g q rq s ins :
  rx_inv hs es ests sent d g q rq s →
  let outs := outputs rx_pipe_wrap ins s in let evs := run_events ins s in
  ∃ q' rq',
    rx_inv (hs ++ history g (fsm_ins ins s) (fsm_pipe s)) (es ++ run_effects outs) (ests ++ run_est ins outs)
      (sent ++ sends evs d) (dispatch_all evs d) (reads_run g (fsm_ins ins s) (fsm_pipe s)) q' rq' (after_cycles rx_pipe_wrap ins s).
Proof.
  revert hs es ests sent d g q rq s. induction ins as [|i ins IH]; intros hs es ests sent d g q rq s Hr; cbn zeta.
  { exists q, rq. unfold run_effects, run_est. cbn. by rewrite !app_nil_r. }
  destruct (IH _ _ _ _ _ _ _ _ _ (rx_inv_next _ _ _ _ _ _ _ _ _ i Hr)) as (q' & rq' & H). exists q', rq'.
  unfold run_effects, run_est, run_events in *. cbn [history reads_run fsm_ins issue_ins issue_events outputs mbind list_bind zip_with concat].
  rewrite dispatch_all_app, sends_app, !app_assoc. exact H.
Qed.

Lemma fsm_ins_app ins ins' s :
  fsm_ins (ins ++ ins') s = fsm_ins ins s ++ fsm_ins ins' (after_cycles rx_pipe_wrap ins s).
Proof. revert s. induction ins as [|i ins IH]; intros s; [done|]. cbn [fsm_ins app]. f_equal. apply IH. Qed.

Lemma fsm_run_parts ins s :
  fsm_pipe (after_cycles rx_pipe_wrap ins s) = after_cycles rx_fsm_pipe (fsm_ins ins s) (fsm_pipe s).
Proof. revert s. induction ins as [|i ins IH]; intros s; [done|]. exact (IH (rx_pipe_next false i s)). Qed.

(** What the handshake pipeline deals with in one cycle more. *)
Lemma handled_snoc ins i s :
  run_handled (ins ++ [i]) s =
  run_handled ins s ++ handled_now (reads_run (Reads TCP_NONE zero_rx zero_tx) (fsm_ins ins s) (fsm_pipe s))
    (fsm_pipe (after_cycles rx_pipe_wrap ins s)) (fsm_wires (after_cycles rx_pipe_wrap ins s) i).
Proof. unfold run_handled. rewrite fsm_ins_app, fsm_run_parts. cbn [fsm_ins]. by rewrite history_snoc. Qed.

Definition rx_pipe_sized (s : rx_pipe) : Prop :=
  issue_sized (rp_issue s) ∧
  Z.of_nat (length (contents (fifo_mem (fsm_queue s)))) = slots fsm_log2 ∧
  Z.of_nat (length (contents (fifo_mem (reinject_queue s)))) = slots fsm_log2.

Lemma rx_inv_reset i s :
  rx_pipe_sized s → rx_inv [] [] [] [] no_connections (Reads TCP_NONE zero_rx zero_tx) [] [] (rx_pipe_next true i s).
Proof.
  intros (H1 & H2 & H3). split; try done.
  - by apply issue_reset.
  - by apply fifo_reset.
  - by apply fifo_reset.
  - constructor.
  - intros f. cbn. rewrite elem_of_nil. lia.
  - constructor.
Qed.

(** C7: every decision is made on the state the ones before it left.  From a
    reset on, whatever the memories held and whatever the pipeline is made to
    wait for: the packets sent to the handshake pipeline are dealt with one at a
    time, in their order, none lost; a packet is marked as new exactly if it is
    the first of its number; the others are dealt with on the state their
    connection is in after the packets dealt with before, given back if it is
    established and their flags are normal; what leaves, states, openings,
    answers, is what these decisions ask for, in their order; and the states by
    which the packets are sent to the one pipeline or the other are the ones
    written so far. *)
Theorem rx_pipe_consistent i0 s ins :
  rx_pipe_sized s →
  let s0 := rx_pipe_next true i0 s in let s1 := after_cycles rx_pipe_wrap ins s0 in
  let outs := outputs rx_pipe_wrap ins s0 in let hs := run_handled ins s0 in
  let evs := run_events ins s0 in let d := dispatch_all evs no_connections in
  consistent hs ∧
  (∃ queued, fifo_rel fsm_log2 (fsm_queue s1) queued ∧
     omap fsm_sent (sends evs no_connections) = (handled_pkt <$> hs) ++ pending (fsm_pipe s1) ++ queued) ∧
  run_effects outs ++ todo (fsm_pipe s1) = done_by hs ∧
  ∀ f, 0 ≤ f < Z.of_nat (length (d_table d)) → d_state d f = last_state (state_writes (run_effects outs)) f.
Proof.
  intros Hs s0 s1 outs hs evs d. destruct (rx_run _ _ _ _ _ _ _ _ _ ins (rx_inv_reset i0 s Hs)) as (q & rq & H).
  cbn [app] in H. split_and!; [exact (x_handled H)| |exact (x_todo H)|exact (x_states H)].
  exists q. split; [exact (x_queue H)|exact (x_order H)].
Qed.

(** C6: no data without a handshake.  In any run from a reset on, whatever the
    network sends: a packet is given to the pipeline of established connections,
    straight or by way of the handshake pipeline, only if a SYN was received on
    its connection while that did not exist, and later, with only packets in
    between that left it waiting, an ACK with the numbers the connection waited
    for. *)
Theorem no_data_without_handshake i0 s ins :
  rx_pipe_sized s →
  let s0 := rx_pipe_next true i0 s in let outs := outputs rx_pipe_wrap ins s0 in
  Forall (λ p, shook_hands (run_handled ins s0) (est_flowid p)) (run_est ins outs).
Proof.
  intros Hs s0 outs. destruct (rx_run _ _ _ _ _ _ _ _ _ ins (rx_inv_reset i0 s Hs)) as (q & rq & H).
  pose proof (x_est H) as He. apply Forall_app in He as [He _]. eapply Forall_impl; [exact He|].
  intros p Hp. apply (established_by _ _ (x_handled H)). cbn [app] in *. rewrite <- (x_todo H), state_writes_app, elem_of_app.
  by left.
Qed.

(** C8: a connection is opened once, and before its first data.  In any run from
    a reset on, no number is opened twice, and up to the cycle in which one is
    opened no packet of it was given to the pipeline of established connections:
    the stores are written for a connection while nobody works on it. *)
Theorem opened_once_before_data i0 s ins :
  rx_pipe_sized s →
  let s0 := rx_pipe_next true i0 s in let outs := outputs rx_pipe_wrap ins s0 in
  let s1 := after_cycles rx_pipe_wrap ins s0 in
  NoDup (opened_by (run_effects outs)) ∧
  (new_flow_val (fsm_pipe s1) = true →
   flow_ok (fsm_flow s1) ∧ (fsm_flow s1 ∉ opened_by (run_effects outs)) ∧ fsm_flow s1 ∉ est_flowid <$> run_est ins outs).
Proof.
  intros Hs s0 outs s1. destruct (rx_run _ _ _ _ _ _ _ _ _ ins (rx_inv_reset i0 s Hs)) as (q & rq & H).
  cbn [app] in H. split.
  - pose proof (opened_once _ (x_handled H)) as Hn. rewrite <- (x_todo H), opened_by_app in Hn. by apply NoDup_app in Hn as [Hn _].
  - intros E. destruct (opening_fresh _ _ _ _ _ _ _ _ _ H E) as (H1 & H2 & H3). split_and!; [done..|].
    rewrite fmap_app, not_elem_of_app in H3. apply H3.
Qed.
End RxPipe.
Arguments x_issue {_ _ _ _ _ _ _ _ _} _.
Arguments x_queue {_ _ _ _ _ _ _ _ _} _.
Arguments x_reinject {_ _ _ _ _ _ _ _ _} _.
Arguments x_fsm {_ _ _ _ _ _ _ _ _} _.
Arguments x_seq {_ _ _ _ _ _ _ _ _} _.
Arguments x_port {_ _ _ _ _ _ _ _ _} _.
Arguments x_todo {_ _ _ _ _ _ _ _ _} _.
Arguments x_order {_ _ _ _ _ _ _ _ _} _.
Arguments x_flagged {_ _ _ _ _ _ _ _ _} _.
Arguments x_numbers {_ _ _ _ _ _ _ _ _} _.
Arguments x_routes {_ _ _ _ _ _ _ _ _} _.
Arguments x_states {_ _ _ _ _ _ _ _ _} _.
Arguments x_read {_ _ _ _ _ _ _ _ _} _.
Arguments x_waits {_ _ _ _ _ _ _ _ _} _.
Arguments x_handled {_ _ _ _ _ _ _ _ _} _.
Arguments x_est {_ _ _ _ _ _ _ _ _} _.

(** ** Concrete runs *)

Definition junk_fsm : rx_fsm :=
  RxFsm NOTIF_APP zero_fsm_pkt TCP_UND zero_rx zero_tx TCP_EST None None true.
Definition junk_queue {A} (a : A) : fifo A :=
  {| wr_ptr_reg := 3; rd_ptr_reg := 2;
     fifo_mem := {| mem_wr_req_val_reg := true; mem_wr_req_addr_reg := 1; mem_wr_req_data_reg := a;
                    mem_rd_req_val_reg := true; mem_rd_req_addr_reg := 0; tcp_data_mem := BsgMem (replicate 4 a) (Some 1) |} |}.
Definition junk_rx_pipe : rx_pipe := RxPipe junk_issue (junk_queue zero_fsm_pkt) junk_fsm 0 (junk_queue zero_pkt).

Lemma junk_rx_pipe_sized : rx_pipe_sized junk_rx_pipe.
Proof. by repeat split. Qed.

Definition conn_pkt (port sn an fl : Z) (payload : bool) : issue_pkt :=
  IssuePkt 2 1 (TcpPktHdr port 80 sn an 5 0 fl 4096 0 0) payload (PayloadBuf 64 10).

(** The stores answer with what the first connection was opened with. *)
Definition rx_cycle (pkt : option issue_pkt) (rdy : bool) : rx_pipe_in :=
  let sa := tcp_hdr_assembler true 80 1000 4095 101 18 4096 in
  {| rpi_hdr_val := bool_decide (is_Some pkt); rpi_pkt := default zero_issue_pkt pkt; rpi_est_rdy := rdy;
     rpi_rd_grant := rdy; rpi_rd_resp_val := rdy; rpi_rx := rx_state_init sa; rpi_tx := tx_state_init sa;
     rpi_send_queue_full := negb rdy; rpi_new_flow_rdy := rdy; rpi_app_rdy := rdy |}.
Definition sample_rx : circuit rx_pipe rx_pipe_in rx_pipe_out := rx_pipe_wrap TCP_UND zero_fsm_pkt zero_pkt.
Definition rx_start : rx_pipe := rx_pipe_next TCP_UND zero_fsm_pkt true (rx_cycle None true) junk_rx_pipe.

(** A SYN, the ACK and a segment right after it, which comes to the handshake
    pipeline before the connection is established and is given back, and another
    one later; with nothing ready in every second cycle. *)
Definition rx_ins : list rx_pipe_in :=
  [rx_cycle (Some (conn_pkt 1000 100 0 FLAG_SYN false)) true] ++ replicate 20 (rx_cycle None true) ++
  [rx_cycle (Some (conn_pkt 1000 101 4096 FLAG_ACK false)) true;
   rx_cycle (Some (conn_pkt 1000 101 4096 FLAG_ACK true)) true] ++
  concat (replicate 12 [rx_cycle None false; rx_cycle None true]) ++
  [rx_cycle (Some (conn_pkt 1000 111 4096 FLAG_ACK true)) true] ++ replicate 8 (rx_cycle None true).

Example rx_run_effects :
  let sa := tcp_hdr_assembler true 80 1000 4095 101 18 4096 in
  run_effects (outputs sample_rx rx_ins rx_start) =
    [OpenFlow 0 (FourTuple 1 2 80 1000) (rx_state_init sa) (tx_state_init sa); SetState 0 TCP_SYN_RECV; SendPkt 0 1 2 sa;
     SetState 0 TCP_EST; NotifyApp 0; Reinject (FsmPkt 2 1 (TcpPktHdr 1000 80 101 4096 5 0 16 4096 0 0) true (PayloadBuf 64 10) false 0)] ∧
  (λ p, (est_flowid p, seq_num (est_tcp_hdr p))) <$> run_est rx_ins (outputs sample_rx rx_ins rx_start) = [(0, 101); (0, 111)].
Proof. vm_compute. by split. Qed.

Lemma rx_pipe_consistent_witness :
  run_effects (outputs sample_rx rx_ins rx_start) ++ todo (fsm_pipe (after_cycles sample_rx rx_ins rx_start)) =
    run_handled TCP_UND zero_fsm_pkt rx_ins rx_start ≫= handled_effects ∧
  length (run_handled TCP_UND zero_fsm_pkt rx_ins rx_start) = 3%nat.
Proof.
  split; [|vm_compute; reflexivity].
  exact (proj1 (proj2 (proj2 (rx_pipe_consistent TCP_UND zero_fsm_pkt zero_pkt (rx_cycle None true) junk_rx_pipe rx_ins junk_rx_pipe_sized)))).
Defined.

Lemma no_data_without_handshake_witness :
  Forall (λ p, shook_hands (run_handled TCP_UND zero_fsm_pkt rx_ins rx_start) (est_flowid p))
    (run_est rx_ins (outputs sample_rx rx_ins rx_start)) ∧
  length (run_est rx_ins (outputs sample_rx rx_ins rx_start)) = 2%nat.
Proof.
  split; [|vm_compute; reflexivity].
  exact (no_data_without_handshake TCP_UND zero_fsm_pkt zero_pkt (rx_cycle None true) junk_rx_pipe rx_ins junk_rx_pipe_sized).
Defined.

Lemma opened_once_before_data_witness :
  NoDup (opened_by (run_effects (outputs sample_rx rx_ins rx_start))) ∧
  opened_by (run_effects (outputs sample_rx rx_ins rx_start)) = [0].
Proof.
  split; [|vm_compute; reflexivity].
  exact (proj1 (opened_once_before_data TCP_UND zero_fsm_pkt zero_pkt (rx_cycle None true) junk_rx_pipe rx_ins junk_rx_pipe_sized)).
Defined.

(** The second segment comes when the state is written and the first is still in
    the queue of the handshake pipeline: it goes straight on and overtakes it. *)
Definition overtaking_ins (gap : nat) : list rx_pipe_in :=
  [rx_cycle (Some (conn_pkt 1000 100 0 FLAG_SYN false)) true] ++ replicate 20 (rx_cycle None true) ++
  [rx_cycle (Some (conn_pkt 1000 101 4096 FLAG_ACK false)) true;
   rx_cycle (Some (conn_pkt 1000 101 4096 FLAG_ACK true)) true] ++
  replicate gap (rx_cycle None true) ++
  [rx_cycle (Some (conn_pkt 1000 111 4096 FLAG_ACK true)) true] ++ replicate 20 (rx_cycle None true).

Lemma given_back_overtaken :
  let taken gap := (λ p, seq_num (est_tcp_hdr p)) <$>
    run_est (overtaking_ins gap) (outputs sample_rx (overtaking_ins gap) rx_start) in
  taken 4%nat = [101; 111] ∧ taken 5%nat = [111; 101] ∧ taken 8%nat = [111; 101] ∧ taken 9%nat = [101; 111].
Proof. vm_compute. by split_and!. Qed.
