(* ===== verification/SendStage.v ===== *)
(** SendStage: what send_pipe/protocol_logic_pipe.sv decides for a connection
    whose turn it is, in its (N)umbering stage: which bytes to send, with which
    number; with send_pipe/segment_calculator.sv. *)

From S2P Require Import Prelude TcpPkg.

(** ** segment_calculator.sv *)

Definition segment_calculator (trail_ptr lead_ptr : Z) : Z :=
  let buf_size := tx_ptr (lead_ptr - trail_ptr) in
  if MAX_SEG_SIZE <? buf_size then MAX_SEG_SIZE
  else if buf_size <? 32 then buf_size
  else Z.shiftl (Z.shiftr buf_size 5) 5.

(** ** The numbering stage *)

Record rt_timeout_flag_struct := RtTimeoutFlags { timeout_pending : bool; rt_pending : bool }.

Record numbered := Numbered {
  next_tx_data_n : tx_state_struct;
  payload_buf_n : payload_buf_struct;
  tx_pkt_seq_num_n : Z;
  generate_pkt_n : bool }.

Definition tx_timer_exp_n (tx : tx_state_struct) (timestamp_reg_n : Z) : bool :=
  timer_armed (timer tx) && (timestamp (timer tx) <? timestamp_reg_n).

(** The address in the buffer of a number of the stream. *)
Definition buf_addr (x : Z) : Z := x mod 2 ^ TX_PAYLOAD_PTR_W.

Definition numbering_stage (flags : rt_timeout_flag_struct) (tx : tx_state_struct) (tail : Z)
    (timestamp_reg_n : Z) : numbered :=
  let ack := tx_curr_ack_num (tx_curr_ack_state tx) in
  let snd := tx_curr_seq_num tx in
  let rt_seg_size := segment_calculator (tx_ptr ack) tail in
  let new_seg_size := segment_calculator (tx_ptr snd) tail in
  let again := timeout_pending flags || rt_pending flags in
  let payload := if again then PayloadBuf (buf_addr ack) rt_seg_size else PayloadBuf (buf_addr snd) new_seg_size in
  let generate := timeout_pending flags || rt_pending flags || tx_timer_exp_n tx timestamp_reg_n
                  || negb (payload_len payload =? 0) in
  {| next_tx_data_n :=
       {| tx_curr_seq_num := if again then seq (ack + rt_seg_size) else seq (snd + new_seg_size);
          timer := {| timestamp := if generate then (timestamp_reg_n + TX_TIMER_LEN) mod 2 ^ TIMESTAMP_W
                                   else timestamp (timer tx);
                      timer_armed := timer_armed (timer tx) || generate |};
          tx_curr_ack_state := tx_curr_ack_state tx |};
     payload_buf_n := payload;
     tx_pkt_seq_num_n := if again then ack else snd;
     generate_pkt_n := generate |}.

(** ** Segments *)

Definition segment_of (n : Z) : Z :=
  if 1024 <? n then 1024 else if n <? 32 then n else n / 32 * 32.

Lemma tx_ptr_sub a b : tx_ptr (tx_ptr a - tx_ptr b) = tx_ptr (a - b).
Proof. unfold tx_ptr. by rewrite <- Zminus_mod. Qed.

Lemma tx_ptr_seq a : tx_ptr (seq a) = tx_ptr a.
Proof. unfold tx_ptr, seq, SEQ_NUM_W, TX_PAYLOAD_PTR_W. apply Z.mod_mod_divide. by exists (2 ^ 19). Qed.

Lemma buf_addr_seq a : buf_addr (seq a) = buf_addr a.
Proof. unfold buf_addr, seq, SEQ_NUM_W, TX_PAYLOAD_PTR_W. apply Z.mod_mod_divide. by exists (2 ^ 20). Qed.

Lemma segment_calculator_spec a b :
  0 ≤ b - a < 8192 → segment_calculator (tx_ptr a) (tx_ptr b) = segment_of (b - a).
Proof.
  intros H. unfold segment_calculator. rewrite tx_ptr_sub.
  assert (tx_ptr (b - a) = b - a) as -> by (apply Z.mod_small; exact H).
  unfold segment_of, MAX_SEG_SIZE. rewrite Z.shiftl_mul_pow2, Z.shiftr_div_pow2 by lia. done.
Qed.

Lemma segment_of_bounds n : 0 ≤ n →
  0 ≤ segment_of n ≤ n ∧ segment_of n ≤ 1024 ∧ (segment_of n = 0 ↔ n = 0) ∧
  (32 ≤ n → segment_of n mod 32 = 0).
Proof.
  intros Hn. unfold segment_of. destruct (Z.ltb_spec 1024 n).
  { split; [lia|]. split; [lia|]. split; [lia|]. done. }
  destruct (Z.ltb_spec n 32); [lia|]. pose proof (Z.div_mod n 32 ltac:(lia)). pose proof (Z.mod_pos_bound n 32 ltac:(lia)).
  split; [lia|]. split; [lia|]. split; [lia|]. intros _. by apply Z.mod_mul.
Qed.

(** ** A connection's turns, on unbounded positions in the stream

    At a turn, [acked] bytes were acknowledged ([cnt] times again) and [written] bytes were given by
    the application; [sent] is how far the sender is. *)

Record turn := Turn { t_cnt : Z; t_acked : Z; t_written : Z; t_again : rt_timeout_flag_struct; t_time : Z }.

Definition again (t : turn) : bool := timeout_pending (t_again t) || rt_pending (t_again t).
Definition from (sent : Z) (t : turn) : Z := if again t then t_acked t else sent.
Definition len_at (sent : Z) (t : turn) : Z := segment_of (t_written t - from sent t).

(** No more is acknowledged than sent, no more sent than written, and what is
    written and not acknowledged fits in the buffer. *)
Definition turn_ok (sent : Z) (t : turn) : Prop :=
  t_acked t ≤ sent ≤ t_written t ∧ t_written t - t_acked t ≤ 4096.

Fixpoint turns_ok (sent : Z) (ts : list turn) : Prop :=
  match ts with
  | [] => True
  | t :: ts' => turn_ok sent t ∧ turns_ok (from sent t + len_at sent t) ts'
  end.

(** What is to be sent: position and length. *)
Fixpoint plan (sent : Z) (ts : list turn) : list (Z * Z) :=
  match ts with
  | [] => []
  | t :: ts' => (from sent t, len_at sent t) :: plan (from sent t + len_at sent t) ts'
  end.

(** The stage, turn after turn, on what the stores hold of the connection: the
    acknowledged number and the tail of its buffer. *)
Record inputs := Inputs { n_ack : tx_ack_state_struct; n_tail : Z; n_flags : rt_timeout_flag_struct; n_time : Z }.
Definition on_circle (I : Z) (t : turn) : inputs :=
  Inputs (TxAckState (t_cnt t) (seq (I + t_acked t))) (tx_ptr (I + t_written t)) (t_again t) (t_time t).

Fixpoint send_run (snd : Z) (tm : tx_ack_timer) (l : list inputs) : list numbered :=
  match l with
  | [] => []
  | i :: l' =>
      let n := numbering_stage (n_flags i) (TxState snd tm (n_ack i)) (n_tail i) (n_time i) in
      n :: send_run (tx_curr_seq_num (next_tx_data_n n)) (timer (next_tx_data_n n)) l'
  end.

(** A segment within what is written and not acknowledged, of at most 1024
    bytes, empty only if there is nothing to send. *)
Definition within (t : turn) (seg : Z * Z) : Prop :=
  t_acked t ≤ seg.1 ∧ seg.1 + seg.2 ≤ t_written t ∧ 0 ≤ seg.2 ≤ 1024 ∧ (seg.2 = 0 ↔ seg.1 = t_written t).

Lemma numbering_turn I sent tm t :
  turn_ok sent t →
  let i := on_circle I t in
  let n := numbering_stage (n_flags i) (TxState (seq (I + sent)) tm (n_ack i)) (n_tail i) (n_time i) in
  tx_pkt_seq_num_n n = seq (I + from sent t) ∧
  payload_buf_n n = PayloadBuf (buf_addr (I + from sent t)) (len_at sent t) ∧
  tx_curr_seq_num (next_tx_data_n n) = seq (I + (from sent t + len_at sent t)) ∧
  within t (from sent t, len_at sent t) ∧
  (len_at sent t ≠ 0 → generate_pkt_n n = true).
Proof.
  intros [H1 H2] i n.
  assert (Hseg : ∀ p, t_acked t ≤ p ≤ t_written t →
    segment_calculator (tx_ptr (seq (I + p))) (tx_ptr (I + t_written t)) = segment_of (t_written t - p)).
  { intros p Hp. rewrite tx_ptr_seq, segment_calculator_spec by lia. f_equal. lia. }
  pose proof (segment_of_bounds (t_written t - from sent t)) as Hb. unfold from, again in Hb.
  unfold within, len_at, from, again. unfold n, numbering_stage, i, on_circle. cbn [n_flags n_ack n_tail n_time
    tx_curr_ack_state tx_curr_ack_num tx_curr_seq_num timer tx_pkt_seq_num_n payload_buf_n next_tx_data_n
    generate_pkt_n].
  destruct (timeout_pending (t_again t) || rt_pending (t_again t)) eqn:Ea;
    rewrite !buf_addr_seq, !Hseg, !seq_seq_add, <- !Z.add_assoc by lia; cbn [payload_len fst snd orb];
    (destruct Hb as (B1 & B2 & B3 & _); [lia|]); split_and!; try done; try lia;
    intros Hne; rewrite (proj2 (Z.eqb_neq _ _) Hne); by rewrite ?orb_true_r.
Qed.

(** A connection sends its stream.  Over any sequence of its turns, whatever
    was acknowledged, written and asked to be sent again in between, the segments
    follow each other without a gap, except that one asked for by a
    retransmission starts at the first byte not acknowledged and the next ones go
    on from there; each has the number and the buffer address of its first byte,
    lies within what the application wrote and the peer has not acknowledged, has
    at most 1024 bytes, and is empty only when there is nothing to send. *)
Theorem sender_sends_stream I sent tm ts :
  turns_ok sent ts →
  let l := send_run (seq (I + sent)) tm (on_circle I <$> ts) in
  (λ n, (tx_pkt_seq_num_n n, payload_buf_n n)) <$> l =
    (λ seg, (seq (I + seg.1), PayloadBuf (buf_addr (I + seg.1)) seg.2)) <$> plan sent ts ∧
  Forall2 within ts (plan sent ts) ∧
  Forall2 (λ n seg, seg.2 ≠ 0 → generate_pkt_n n = true) l (plan sent ts).
Proof.
  revert sent tm. induction ts as [|t ts IH]; intros sent tm; [by repeat constructor|]. intros [Ht Hts] l.
  destruct (numbering_turn I sent tm t Ht) as (E1 & E2 & E3 & E4 & E5).
  subst l. cbn [send_run plan fmap list_fmap] in *. rewrite E1, E2, E3.
  destruct (IH (from sent t + len_at sent t) (timer (next_tx_data_n (numbering_stage (n_flags (on_circle I t))
    (TxState (seq (I + sent)) tm (n_ack (on_circle I t))) (n_tail (on_circle I t))
    (n_time (on_circle I t))))) Hts) as (I1 & I2 & I3).
  split; [by f_equal|]. split; by constructor.
Qed.

(** The data a turn hands on, and the data planned. *)
Definition turn_data (n : numbered) : option (Z * payload_buf_struct) :=
  if generate_pkt_n n && negb (payload_len (payload_buf_n n) =? 0)
  then Some (tx_pkt_seq_num_n n, payload_buf_n n) else None.
Definition seg_data (I : Z) (seg : Z * Z) : option (Z * payload_buf_struct) :=
  if seg.2 =? 0 then None else Some (seq (I + seg.1), PayloadBuf (buf_addr (I + seg.1)) seg.2).

Lemma send_run_data I sent tm ts :
  turns_ok sent ts →
  omap turn_data (send_run (seq (I + sent)) tm (on_circle I <$> ts)) = omap (seg_data I) (plan sent ts).
Proof.
  revert sent tm. induction ts as [|t ts IH]; intros sent tm; [done|]. intros [Ht Hts].
  destruct (numbering_turn I sent tm t Ht) as (E1 & E2 & E3 & _ & E5).
  cbn [send_run plan fmap list_fmap omap list_omap]. rewrite E3, (IH _ _ Hts). unfold turn_data, seg_data.
  rewrite E1, E2. cbn [fst snd payload_len]. destruct (Z.eqb_spec (len_at sent t) 0) as [->|Hne].
  - by rewrite andb_false_r.
  - by rewrite (E5 Hne).
Qed.

(** ** A concrete stream: three segments, a retransmission, an acknowledgement *)

Definition no_again : rt_timeout_flag_struct := RtTimeoutFlags false false.
Definition sample_turns : list turn :=
  [Turn 0 0 2500 no_again 7; Turn 1 0 2500 no_again 8; Turn 2 0 2500 no_again 9;
   Turn 0 0 2500 (RtTimeoutFlags false true) 10; Turn 0 1024 3000 no_again 11; Turn 0 1024 3000 no_again 12].

Lemma sender_sends_stream_witness :
  (λ n, (tx_pkt_seq_num_n n, payload_buf_n n)) <$>
    send_run (2 ^ 32 - 1024) zero_timer (on_circle (2 ^ 32 - 1024) <$> sample_turns) =
  [(4294966272, PayloadBuf 3072 1024); (0, PayloadBuf 0 1024); (1024, PayloadBuf 1024 448);
   (4294966272, PayloadBuf 3072 1024); (0, PayloadBuf 0 1024); (1024, PayloadBuf 1024 928)].
Proof.
  etransitivity; [apply (sender_sends_stream (2 ^ 32 - 1024) 0 zero_timer sample_turns)|vm_compute; reflexivity].
  vm_compute. repeat split; intros; discriminate.
Defined.

(** ** What the timer does not do

    A timer that runs out makes a packet, with what comes next: nothing is sent
    again unless one of the flags is set. *)
Lemma timer_sends_nothing_again tx tail tm :
  timeout_pending tm = false → rt_pending tm = false →
  ∀ now, tx_pkt_seq_num_n (numbering_stage tm tx tail now) = tx_curr_seq_num tx.
Proof. intros H1 H2 now. unfold numbering_stage. by rewrite H1, H2. Qed.

Lemma timer_sends_empty tx now :
  tx_timer_exp_n tx now = true →
  let n := numbering_stage no_again tx (tx_ptr (tx_curr_seq_num tx)) now in
  generate_pkt_n n = true ∧ payload_len (payload_buf_n n) = 0.
Proof.
  intros Ht n. assert (E : payload_len (payload_buf_n n) = 0).
  { unfold n, numbering_stage. cbn. rewrite segment_calculator_spec, Z.sub_diag by lia. done. }
  split; [|done]. unfold n, numbering_stage. cbn. by rewrite Ht.
Qed.
