(* ===== verification/SendPipe.v ===== *)
(** SendPipe: the send pipeline up to the assembly of headers, wired to its
    stores as in send_pipe/send_pipe_wrapper.sv and tcp_engine_wrapper.sv: the
    queue of send_pipe/scheduling_fifos.sv, the flags of
    send_pipe/rt_timeout_flag_store.sv, the stages of
    send_pipe/protocol_logic_pipe.sv and the pointers of
    send_pipe/payload_pointers.sv. *)

From S2P Require Import Prelude Rtl RamDual Fifo2w TcpPkg FlowStores SendStage.

(** ** rt_timeout_flag_store.sv

    The flags of all connections as two bit vectors. *)

Record rt_timeout_flag_store := FlagStore {
  rt_flags_reg : Z;
  timeout_flags_reg : Z;
  rd_val_reg : bool;
  rd_addr_reg : Z }.

(** One bit at the number of the connection, none if it is not valid. *)
Definition bitmask (val : bool) (flowid : Z) : Z := Z.shiftl (Z.b2z val) flowid mod 2 ^ Z.of_nat MAX_FLOW_CNT.

Definition flags_next (flags : Z) (set_val : bool) (set_flowid : Z) (clr_val : bool) (clr_flowid : Z)
    (new_flow_val : bool) (new_flow_flowid : Z) : Z :=
  Z.land (Z.land (Z.lor flags (bitmask set_val set_flowid)) (Z.lnot (bitmask clr_val clr_flowid)))
    (Z.lnot (bitmask new_flow_val new_flow_flowid)).

Definition flags_at (s : rt_timeout_flag_store) (flowid : Z) : rt_timeout_flag_struct :=
  RtTimeoutFlags (Z.testbit (timeout_flags_reg s) flowid) (Z.testbit (rt_flags_reg s) flowid).
Definition rd_resp_struct (s : rt_timeout_flag_store) : rt_timeout_flag_struct := flags_at s (rd_addr_reg s).

Record flag_store_in := FlagIn {
  fi_new_flow_val : bool; fi_new_flow_flowid : Z;
  fi_rd : rd_req_in;
  fi_clr_val : bool; fi_clr_flowid : Z;
  fi_timeout_set_val : bool; fi_timeout_set_flowid : Z;
  fi_rt_set_val : bool; fi_rt_set_flowid : Z }.

Definition flag_rd_req_rdy (i : flag_store_in) (s : rt_timeout_flag_store) : bool :=
  rd_resp_rdy (fi_rd i) || negb (rd_val_reg s).

Definition flag_store_next (rst : bool) (i : flag_store_in) (s : rt_timeout_flag_store) : rt_timeout_flag_store :=
  {| rt_flags_reg :=
       if rst then 0 else flags_next (rt_flags_reg s) (fi_rt_set_val i) (fi_rt_set_flowid i)
                            (fi_clr_val i) (fi_clr_flowid i) (fi_new_flow_val i) (fi_new_flow_flowid i);
     timeout_flags_reg :=
       if rst then 0 else flags_next (timeout_flags_reg s) (fi_timeout_set_val i) (fi_timeout_set_flowid i)
                            (fi_clr_val i) (fi_clr_flowid i) (fi_new_flow_val i) (fi_new_flow_flowid i);
     rd_val_reg := if rst then false else if flag_rd_req_rdy i s then rd_val (fi_rd i) else rd_val_reg s;
     rd_addr_reg := if rst then 0 else if flag_rd_req_rdy i s then rd_addr (fi_rd i) else rd_addr_reg s |}.

(** ** payload_pointers.sv *)

Record payload_pointers := PayloadPtrs { pp_head_ptrs : ram2 Z; pp_tail_ptrs : ram2 Z }.

Record pp_in := PpIn {
  pp_head_rd0 : rd_req_in; pp_head_rd1 : rd_req_in; pp_head_wr : wr_req Z;
  pp_tail_rd0 : rd_req_in; pp_tail_rd1 : rd_req_in; pp_tail_wr : wr_req Z;
  pp_new_flow_head_ptr : Z; pp_new_flow_tail_ptr : Z }.

Definition payload_pointers_next (rst : bool) (n : new_flow) (i : pp_in) (s : payload_pointers) : payload_pointers :=
  {| pp_head_ptrs := ram2_next 0 rst (mem2_in (mem_wr n (pp_new_flow_head_ptr i) (pp_head_wr i))
                                        (pp_head_rd0 i) (pp_head_rd1 i)) (pp_head_ptrs s);
     pp_tail_ptrs := ram2_next 0 rst (mem2_in (mem_wr n (pp_new_flow_tail_ptr i) (pp_tail_wr i))
                                        (pp_tail_rd0 i) (pp_tail_rd1 i)) (pp_tail_ptrs s) |}.

(** ** protocol_logic_pipe.sv *)

Record protocol_logic_pipe := LogicPipe {
  val_reg_rt : bool;
  flowid_reg_rt : Z;
  rt_timeout_flags_stall_val_reg_rt : bool;
  rt_timeout_flags_stall_data_reg_rt : rt_timeout_flag_struct;
  val_reg_n : bool;
  flowid_reg_n : Z;
  rt_timeout_flags_reg_n : rt_timeout_flag_struct;
  timestamp_reg_n : Z;
  send_q_tail_ptr_stall_val_reg_n : bool;
  send_q_tail_ptr_stall_data_reg_n : Z;
  tx_state_stall_val_reg_n : bool;
  tx_state_stall_data_reg_n : tx_state_struct;
  val_reg_w : bool;
  flowid_reg_w : Z;
  numbered_reg_w : numbered }.

Record logic_in := LogicIn {
  sched_fifo_rd_flowid : Z;
  sched_fifo_rd_empty : bool;
  rt_timeout_flag_req_rdy : bool;
  rt_timeout_flag_resp_val : bool;
  rt_timeout_flag_resp_data : rt_timeout_flag_struct;
  send_q_tail_ptr_rd_req_rdy : bool;
  send_q_tail_ptr_rd_resp_val : bool;
  send_q_tail_ptr_rd_resp_data : Z;
  tx_state_rd_req_rdy : bool;
  tx_state_rd_resp_val : bool;
  tx_state_rd_resp_data : tx_state_struct;
  tx_state_wr_req_rdy : bool;
  sched_fifo_wr_full : bool;
  assembler_tx_rdy : bool }.

Definition stall_w (i : logic_in) : bool := negb (assembler_tx_rdy i) || negb (tx_state_wr_req_rdy i).

Definition stall_n (s : protocol_logic_pipe) (i : logic_in) : bool :=
  val_reg_n s &&
  (stall_w i
   || (negb (send_q_tail_ptr_rd_resp_val i) && negb (send_q_tail_ptr_stall_val_reg_n s))
   || (negb (tx_state_rd_resp_val i) && negb (tx_state_stall_val_reg_n s))).

Definition stall_rt (s : protocol_logic_pipe) (i : logic_in) : bool :=
  val_reg_rt s &&
  (stall_n s i
   || (negb (rt_timeout_flag_resp_val i) && negb (rt_timeout_flags_stall_val_reg_rt s))
   || negb (send_q_tail_ptr_rd_req_rdy i)
   || negb (rt_timeout_flag_resp_val i)
   || negb (tx_state_rd_req_rdy i)).

Definition val_s (i : logic_in) : bool := negb (sched_fifo_rd_empty i).
Definition stall_s (s : protocol_logic_pipe) (i : logic_in) : bool :=
  val_s i && (stall_rt s i || negb (rt_timeout_flag_req_rdy i)).
Definition sched_fifo_rd_req_s (s : protocol_logic_pipe) (i : logic_in) : bool :=
  negb (stall_s s i) && negb (sched_fifo_rd_empty i).

Definition flags_to_n (s : protocol_logic_pipe) (i : logic_in) : rt_timeout_flag_struct :=
  if rt_timeout_flags_stall_val_reg_rt s then rt_timeout_flags_stall_data_reg_rt s
  else rt_timeout_flag_resp_data i.

Definition tx_data_byp_n (s : protocol_logic_pipe) (i : logic_in) : tx_state_struct :=
  if (flowid_reg_w s =? flowid_reg_n s) && val_reg_w s && val_reg_n s then next_tx_data_n (numbered_reg_w s)
  else if tx_state_stall_val_reg_n s then tx_state_stall_data_reg_n s else tx_state_rd_resp_data i.
Definition send_q_tail_ptr_byp_n (s : protocol_logic_pipe) (i : logic_in) : Z :=
  if send_q_tail_ptr_stall_val_reg_n s then send_q_tail_ptr_stall_data_reg_n s else send_q_tail_ptr_rd_resp_data i.

Definition numbered_n (s : protocol_logic_pipe) (i : logic_in) : numbered :=
  numbering_stage (rt_timeout_flags_reg_n s) (tx_data_byp_n s i) (send_q_tail_ptr_byp_n s i) (timestamp_reg_n s).

Definition logic_next (i : logic_in) (s : protocol_logic_pipe) : protocol_logic_pipe :=
  let srt := stall_rt s i in let sn := stall_n s i in let sw := stall_w i in
  {| val_reg_rt := if negb srt then val_s i && negb (stall_s s i) else val_reg_rt s;
     flowid_reg_rt := if negb srt then sched_fifo_rd_flowid i else flowid_reg_rt s;
     rt_timeout_flags_stall_val_reg_rt :=
       if srt then rt_timeout_flags_stall_val_reg_rt s || rt_timeout_flag_resp_val i else false;
     rt_timeout_flags_stall_data_reg_rt :=
       if rt_timeout_flag_resp_val i && negb (rt_timeout_flags_stall_val_reg_rt s)
       then rt_timeout_flag_resp_data i else rt_timeout_flags_stall_data_reg_rt s;
     val_reg_n := if negb sn then val_reg_rt s && negb srt else val_reg_n s;
     flowid_reg_n := if negb sn then flowid_reg_rt s else flowid_reg_n s;
     rt_timeout_flags_reg_n := if negb sn then flags_to_n s i else rt_timeout_flags_reg_n s;
     timestamp_reg_n := (timestamp_reg_n s + 1) mod 2 ^ TIMESTAMP_W;
     send_q_tail_ptr_stall_val_reg_n :=
       if sn then send_q_tail_ptr_stall_val_reg_n s || send_q_tail_ptr_rd_resp_val i else false;
     send_q_tail_ptr_stall_data_reg_n :=
       if send_q_tail_ptr_rd_resp_val i && negb (send_q_tail_ptr_stall_val_reg_n s)
       then send_q_tail_ptr_rd_resp_data i else send_q_tail_ptr_stall_data_reg_n s;
     tx_state_stall_val_reg_n := if sn then tx_state_stall_val_reg_n s || tx_state_rd_resp_val i else false;
     tx_state_stall_data_reg_n :=
       if tx_state_rd_resp_val i && negb (tx_state_stall_val_reg_n s)
       then tx_state_rd_resp_data i else tx_state_stall_data_reg_n s;
     val_reg_w := if negb sw then val_reg_n s && negb sn else val_reg_w s;
     flowid_reg_w := if negb sw then flowid_reg_n s else flowid_reg_w s;
     numbered_reg_w := if negb sw then numbered_n s i else numbered_reg_w s |}.

Definition zero_flags : rt_timeout_flag_struct := RtTimeoutFlags false false.
Definition zero_numbered : numbered := Numbered zero_tx zero_payload 0 false.
Definition logic_reset : protocol_logic_pipe :=
  LogicPipe false 0 false zero_flags false 0 zero_flags 0 false 0 false zero_tx false 0 zero_numbered.

(** The outputs of W. *)
Definition main_pipe_assembler_tx_val (s : protocol_logic_pipe) (i : logic_in) : bool :=
  val_reg_w s && negb (stall_w i) && generate_pkt_n (numbered_reg_w s).
Definition tx_state_wr_req_val (s : protocol_logic_pipe) (i : logic_in) : bool := val_reg_w s && negb (stall_w i).
Definition main_pipe_sched_fifo_tx_wr_req (s : protocol_logic_pipe) (i : logic_in) : bool :=
  negb (stall_w i) && val_reg_w s && negb (sched_fifo_wr_full i).
Definition main_pipe_rt_timeout_clr_bit_val (s : protocol_logic_pipe) : bool :=
  val_reg_w s && generate_pkt_n (numbered_reg_w s).

(** ** The read side of tx_state_store.sv for this pipeline *)

Definition send_pipe_rd_req_rdy (r : rd_req_in) (s : tx_state_store) : bool :=
  (rd_resp_rdy r && send_pipe_rd_resp_val s || negb (rd0_resp_val (tx_emit_state s)))
  && (rd_resp_rdy r && send_pipe_rd_resp_val s || negb (rd0_resp_val (tx_ack_state s))).
Definition send_pipe_rd_resp_data (s : tx_state_store) : option tx_state_struct :=
  e ← rd0_resp_data (tx_emit_state s); a ← rd0_resp_data (tx_ack_state s);
  Some (TxState (em_tx_curr_seq_num e) (em_timer e) a).

(** ** Wired together *)

Record send_unknowns := SendUnknowns { xs_tx : tx_state_struct; xs_ptr : Z; xs_flowid : Z }.

Record sender := Sender {
  main_pipe : protocol_logic_pipe;
  main_pipe_fifo : fifo2 Z;
  flag_store : rt_timeout_flag_store;
  se_tx_store : tx_state_store;
  send_qs : payload_pointers }.

Record sender_in := SenderIn {
  si_new_flow : new_flow;
  si_assembler_rdy : bool;
  si_rt_set_val : bool;
  si_rt_set_flowid : Z;
  si_recv_tx_wr : wr_req tx_state_struct;
  si_recv_tx_rd : rd_req_in;
  si_app_tail_wr : wr_req Z;
  si_app_tail_rd : rd_req_in;
  si_recv_head_wr : wr_req Z;
  si_app_head_rd : rd_req_in }.

(** What goes to the assembly of headers. *)
Record tx_pkt := TxPkt { tp_flowid : Z; tp_seq_num : Z; tp_payload : payload_buf_struct }.

Record sender_out := SenderOut {
  so_tx : option tx_pkt;
  so_state_wr : option (Z * tx_state_struct) }.

Definition sched_log2 : nat := Z.to_nat FLOWID_W.
Definition ELEM_NONE : Z := Z.ones FLOWID_W.

Section Sender.
Variable x : send_unknowns.

Definition pipe_rd (s : sender) : rd_req_in := RdReq (val_reg_rt (main_pipe s)) (flowid_reg_rt (main_pipe s)) true.

(** The stages, before the queue is looked at. *)
Definition store_wires (s : sender) (i : sender_in) (flowid : Z) (avail : bool) : logic_in :=
  {| sched_fifo_rd_flowid := flowid;
     sched_fifo_rd_empty := negb avail;
     rt_timeout_flag_req_rdy := true || negb (rd_val_reg (flag_store s));
     rt_timeout_flag_resp_val := rd_val_reg (flag_store s);
     rt_timeout_flag_resp_data := rd_resp_struct (flag_store s);
     send_q_tail_ptr_rd_req_rdy := rd_resp_rdy (pipe_rd s) || negb (rd0_resp_val (pp_tail_ptrs (send_qs s)));
     send_q_tail_ptr_rd_resp_val := rd0_resp_val (pp_tail_ptrs (send_qs s));
     send_q_tail_ptr_rd_resp_data := default (xs_ptr x) (rd0_resp_data (pp_tail_ptrs (send_qs s)));
     tx_state_rd_req_rdy := send_pipe_rd_req_rdy (pipe_rd s) (se_tx_store s);
     tx_state_rd_resp_val := send_pipe_rd_resp_val (se_tx_store s);
     tx_state_rd_resp_data := default (xs_tx x) (send_pipe_rd_resp_data (se_tx_store s));
     tx_state_wr_req_rdy := send_pipe_wr_req_rdy (si_new_flow i);
     sched_fifo_wr_full := f2_full (main_pipe_fifo s);
     assembler_tx_rdy := si_assembler_rdy i |}.

(** scheduling_fifos.sv: new connections on the first port, the ones that had
    their turn on the second. *)
Definition sched_in (s : sender) (i : sender_in) (rd_req : bool) : fifo2_in Z :=
  {| w_val_0 := nf_val (si_new_flow i); w_data_0 := nf_flowid (si_new_flow i);
     w_val_1 := main_pipe_sched_fifo_tx_wr_req (main_pipe s) (store_wires s i 0 false);
     w_data_1 := flowid_reg_w (main_pipe s);
     r_val := rd_req |}.

Definition send_wires (s : sender) (i : sender_in) : logic_in :=
  store_wires s i
    (default (xs_flowid x) (f2_r_data ELEM_NONE sched_log2 (sched_in s i false) (main_pipe_fifo s)))
    (f2_data_avail sched_log2 (sched_in s i false) (main_pipe_fifo s)).

Definition send_tx_wr (s : sender) (i : sender_in) : wr_req tx_state_struct :=
  WrReq (tx_state_wr_req_val (main_pipe s) (send_wires s i)) (flowid_reg_w (main_pipe s))
    (next_tx_data_n (numbered_reg_w (main_pipe s))).

Definition flag_wires (s : sender) (i : sender_in) : flag_store_in :=
  {| fi_new_flow_val := nf_val (si_new_flow i); fi_new_flow_flowid := nf_flowid (si_new_flow i);
     fi_rd := RdReq (val_s (send_wires s i)) (sched_fifo_rd_flowid (send_wires s i)) true;
     fi_clr_val := main_pipe_rt_timeout_clr_bit_val (main_pipe s); fi_clr_flowid := flowid_reg_w (main_pipe s);
     fi_timeout_set_val := false; fi_timeout_set_flowid := 0;
     fi_rt_set_val := si_rt_set_val i; fi_rt_set_flowid := si_rt_set_flowid i |}.

(** A connection starts with an empty buffer, at its first number. *)
Definition new_tx_ptr (n : new_flow) : Z := tx_ptr (tx_curr_ack_num (tx_curr_ack_state (nf_tx_state n))).

Definition pp_wires (s : sender) (i : sender_in) : pp_in :=
  {| pp_head_rd0 := si_app_head_rd i; pp_head_rd1 := RdReq false 0 true; pp_head_wr := si_recv_head_wr i;
     pp_tail_rd0 := pipe_rd s; pp_tail_rd1 := si_app_tail_rd i; pp_tail_wr := si_app_tail_wr i;
     pp_new_flow_head_ptr := new_tx_ptr (si_new_flow i);
     pp_new_flow_tail_ptr := new_tx_ptr (si_new_flow i) |}.

Definition sender_next (rst : bool) (i : sender_in) (s : sender) : sender :=
  let w := send_wires s i in let n := si_new_flow i in
  {| main_pipe := if rst then logic_reset else logic_next w (main_pipe s);
     main_pipe_fifo := fifo2_next ELEM_NONE sched_log2 rst (sched_in s i (sched_fifo_rd_req_s (main_pipe s) w))
                         (main_pipe_fifo s);
     flag_store := flag_store_next rst (flag_wires s i) (flag_store s);
     se_tx_store := tx_state_store_next rst n (send_tx_wr s i) (si_recv_tx_wr i) (pipe_rd s) (si_recv_tx_rd i)
                      (se_tx_store s);
     send_qs := payload_pointers_next rst n (pp_wires s i) (send_qs s) |}.

Definition send_pipe : circuit sender sender_in sender_out := Circuit
  (λ s i,
     let p := main_pipe s in let w := send_wires s i in let r := numbered_reg_w p in
     {| so_tx := if main_pipe_assembler_tx_val p w
                 then Some (TxPkt (flowid_reg_w p) (tx_pkt_seq_num_n r) (payload_buf_n r)) else None;
        so_state_wr := if tx_state_wr_req_val p w then Some (flowid_reg_w p, next_tx_data_n r) else None |})
  sender_next.
End Sender.
