(* ===== verification/SendSched.v ===== *)
(** SendSched: what the send pipeline promises: connections take turns.  Each
    turn is the numbering stage on the state the last turn of the connection
    left.  Consequences: nobody waits for long, and on each connection the turns
    are those of SendStage. *)

From stdpp Require Import functions.
From S2P Require Import Prelude TcpPkg FlowStores SendStage.

(** A connection is opened; or the one that has waited longest takes its turn,
    with what it found: the acknowledged number, the tail of its buffer, its
    flags, the time. *)
Inductive send_event :=
| OpenFlow (f : Z) (e : tx_emit_mem_struct)
| TakeTurn (t : inputs).

Record schedule := Schedule {
  waiting : list Z;
  emits : Z → tx_emit_mem_struct }.

Definition turn_result (q : schedule) (f : Z) (t : inputs) : numbered :=
  numbering_stage (n_flags t) (TxState (em_tx_curr_seq_num (emits q f)) (em_timer (emits q f)) (n_ack t))
    (n_tail t) (n_time t).

Definition send_event_next (e : send_event) (q : schedule) : schedule :=
  match e with
  | OpenFlow f em => Schedule (waiting q ++ [f]) (<[f := em]> (emits q))
  | TakeTurn t =>
      match waiting q with
      | [] => q
      | f :: l => Schedule (l ++ [f]) (<[f := emit_of (next_tx_data_n (turn_result q f t))]> (emits q))
      end
  end.

Definition event_turns (e : send_event) (q : schedule) : list (Z * numbered) :=
  match e, waiting q with
  | TakeTurn t, f :: _ => [(f, turn_result q f t)]
  | _, _ => []
  end.

Fixpoint turns (q : schedule) (es : list send_event) : list (Z * numbered) :=
  match es with
  | [] => []
  | e :: es' => event_turns e q ++ turns (send_event_next e q) es'
  end.

Definition schedule_after (q : schedule) (es : list send_event) : schedule :=
  fold_left (λ q e, send_event_next e q) es q.

Lemma turns_app q es es' : turns q (es ++ es') = turns q es ++ turns (schedule_after q es) es'.
Proof. revert q. induction es as [|e es IH]; intros q; [done|]. cbn. by rewrite IH, app_assoc. Qed.

Lemma schedule_after_app q es es' : schedule_after q (es ++ es') = schedule_after (schedule_after q es) es'.
Proof. apply fold_left_app. Qed.

(** ** One connection *)

Definition turns_on (f : Z) (ts : list (Z * numbered)) : list numbered :=
  ts ≫= λ t, if t.1 =? f then [t.2] else [].

(** What a connection finds at its turns. *)
Fixpoint inputs_on (f : Z) (q : schedule) (es : list send_event) : list inputs :=
  match es with
  | [] => []
  | e :: es' =>
      match e, waiting q with
      | TakeTurn t, g :: _ => if g =? f then [t] else []
      | _, _ => []
      end ++ inputs_on f (send_event_next e q) es'
  end.

(** The connections opened. *)
Definition opened (es : list send_event) : list Z :=
  es ≫= λ e, match e with OpenFlow f _ => [f] | TakeTurn _ => [] end.

Lemma opened_cons e es : opened (e :: es) = opened [e] ++ opened es.
Proof. unfold opened. cbn. by rewrite app_nil_r. Qed.

(** On a connection the turns follow each other. *)
Lemma turns_on_send_run f q es :
  f ∉ opened es →
  turns_on f (turns q es) =
  send_run (em_tx_curr_seq_num (emits q f)) (em_timer (emits q f)) (inputs_on f q es).
Proof.
  revert q. induction es as [|e es IH]; intros q Hf; [done|].
  cbn [turns inputs_on]. unfold turns_on in *. rewrite bind_app.
  rewrite opened_cons in Hf. assert (f ∉ opened es) as Hf' by set_solver.
  rewrite (IH _ Hf'). destruct e as [g em|t]; cbn [event_turns send_event_next].
  - assert (g ≠ f) by (intros ->; apply Hf; cbn; set_solver). cbn. by rewrite fn_lookup_insert_ne.
  - destruct (waiting q) as [|g l]; [done|]. cbn. destruct (Z.eqb_spec g f) as [->|Hne]; cbn.
    + by rewrite fn_lookup_insert.
    + by rewrite fn_lookup_insert_ne.
Qed.

(** ** Nobody waits for long

    With [k] connections in front of it, a connection takes the [k + 1]st turn
    from now on, whoever is opened in between. *)

Definition turn_count (es : list send_event) : nat :=
  length (es ≫= λ e, match e with TakeTurn t => [t] | OpenFlow _ _ => [] end).

Lemma turn_comes l f l' es q :
  waiting q = l ++ f :: l' → (length l < turn_count es)%nat → f ∈ (turns q es).*1.
Proof.
  revert l l' q. induction es as [|e es IH]; intros l l' q Hq Hc; [unfold turn_count in Hc; cbn in Hc; lia|].
  cbn [turns]. rewrite fmap_app. apply elem_of_app. destruct e as [g em|t]; cbn [event_turns send_event_next].
  - right. unfold turn_count in Hc. cbn in Hc. apply (IH l (l' ++ [g])); [|done].
    cbn. by rewrite Hq, <- app_assoc.
  - rewrite Hq. destruct l as [|g l]; cbn [app].
    + left. cbn. set_solver.
    + right. apply (IH l (l' ++ [g])); [cbn; by rewrite <- app_assoc|].
      unfold turn_count in *. cbn in Hc. lia.
Qed.

(** The schedule only grows, by the connections opened. *)
Lemma waiting_next e q : waiting (send_event_next e q) ≡ₚ waiting q ++ opened [e].
Proof.
  destruct e as [f em|t]; [done|]. cbn. rewrite app_nil_r. destruct (waiting q) as [|f l] eqn:E; [by rewrite E|].
  cbn [waiting]. symmetry. apply Permutation_cons_append.
Qed.

Lemma waiting_after q es : waiting (schedule_after q es) ≡ₚ waiting q ++ opened es.
Proof.
  revert q. induction es as [|e es IH]; intros q; [by cbn; rewrite app_nil_r|].
  cbn [schedule_after fold_left]. etransitivity; [apply IH|]. rewrite waiting_next.
  unfold opened. cbn. by rewrite app_nil_r, <- app_assoc.
Qed.

(** Only connections that wait take turns. *)
Lemma turns_waiting f q es : f ∈ (turns q es).*1 → f ∈ waiting q ++ opened es.
Proof.
  revert q. induction es as [|e es IH]; intros q; [set_solver|]. cbn [turns]. rewrite fmap_app.
  intros [H|H]%elem_of_app.
  - apply elem_of_app. left. unfold event_turns in H. destruct e as [g em|t]; [set_solver|].
    destruct (waiting q) as [|g l]; [set_solver|]. cbn in H. set_solver.
  - apply IH in H. rewrite waiting_next in H. by rewrite opened_cons, app_assoc.
Qed.

Lemma turns_on_none f q es : f ∉ waiting q ++ opened es → turns_on f (turns q es) = [] ∧ inputs_on f q es = [].
Proof.
  revert q. induction es as [|e es IH]; intros q Hf; [done|].
  assert (f ∉ waiting (send_event_next e q) ++ opened es) as Hf'.
  { rewrite waiting_next. by rewrite opened_cons, app_assoc in Hf. }
  destruct (IH _ Hf') as [H1 H2]. cbn [turns inputs_on]. unfold turns_on in *. rewrite bind_app, H1, H2.
  unfold event_turns. destruct e as [g em|t]; [done|]. destruct (waiting q) as [|g l]; [done|].
  assert (g ≠ f) by set_solver. cbn. by destruct (Z.eqb_spec g f).
Qed.

Lemma inputs_on_app f q es es' :
  inputs_on f q (es ++ es') = inputs_on f q es ++ inputs_on f (schedule_after q es) es'.
Proof. revert q. induction es as [|e es IH]; intros q; [done|]. cbn. by rewrite IH, app_assoc. Qed.

(** The turns of a connection, from its opening on. *)
Lemma turns_on_opened f e q es :
  OpenFlow f e ∈ es → NoDup (waiting q ++ opened es) →
  turns_on f (turns q es) = send_run (em_tx_curr_seq_num e) (em_timer e) (inputs_on f q es).
Proof.
  intros (es1 & es2 & ->)%list_elem_of_split Hn.
  assert (Ho : opened (es1 ++ OpenFlow f e :: es2) = opened es1 ++ f :: opened es2)
    by (unfold opened; by rewrite bind_app).
  rewrite Ho, app_assoc in Hn. apply NoDup_app in Hn as (_ & Hd & Hn2). apply NoDup_cons in Hn2 as [Hn2 _].
  assert (Hf : f ∉ waiting q ++ opened es1) by (intros H; by apply (Hd f H); left).
  rewrite turns_app, inputs_on_app. unfold turns_on at 1. rewrite bind_app.
  destruct (turns_on_none _ _ _ Hf) as [E ->]. unfold turns_on in E. rewrite E. cbn [app turns inputs_on event_turns].
  fold (turns_on f (turns (send_event_next (OpenFlow f e) (schedule_after q es1)) es2)).
  rewrite turns_on_send_run by done. cbn. by rewrite fn_lookup_insert.
Qed.
