(* ===== verification/SendRun.v ===== *)
(** SendRun: a run of the send pipeline is a run of the schedule of SendSched,
    three stages, stalls, captured responses and a queue smaller than the number
    of connections notwithstanding; and it always gets to the next turn. *)

From stdpp Require Import functions.
From S2P Require Import Prelude Rtl RamDual Fifo Fifo2w TcpPkg FlowStores SendStage SendPipe SendSched.

Section Run.
Variable x : send_unknowns.
Abbreviation pipe := main_pipe.

(** ** What happens in a run *)

(** What the stores hold of a connection. *)
Definition emit_at (s : sender) (f : Z) : tx_emit_mem_struct :=
  default (emit_of (xs_tx x)) (contents2 (tx_emit_state (se_tx_store s)) !! Z.to_nat f).
Definition ack_of (s : sender) (f : Z) : tx_ack_state_struct :=
  default (tx_curr_ack_state (xs_tx x)) (contents2 (tx_ack_state (se_tx_store s)) !! Z.to_nat f).
Definition tail_of (s : sender) (f : Z) : Z :=
  default (xs_ptr x) (contents2 (pp_tail_ptrs (send_qs s)) !! Z.to_nat f).

(** Which stages are entered at the end of a cycle, and whether W is left. *)
Definition enters_rt (s : sender) (i : sender_in) : bool := sched_fifo_rd_req_s (pipe s) (send_wires x s i).
Definition enters_n (s : sender) (i : sender_in) : bool :=
  val_reg_rt (pipe s) && negb (stall_rt (pipe s) (send_wires x s i)).
Definition enters_w (s : sender) (i : sender_in) : bool :=
  val_reg_n (pipe s) && negb (stall_n (pipe s) (send_wires x s i)).
Definition leaves_w (s : sender) (i : sender_in) : bool := tx_state_wr_req_val (pipe s) (send_wires x s i).

(** What the connections in the stages have found: its flags when it entered
    the first, the acknowledged number and the tail when it entered the second,
    the time when it left it. *)
Record seen := Seen { at_rt : rt_timeout_flag_struct; at_n : inputs; at_w : inputs }.

Definition seen_next (g : seen) (s : sender) (i : sender_in) : seen :=
  let s' := sender_next x false i s in let f := flowid_reg_n (pipe s') in
  {| at_rt := if enters_rt s i then flags_at (flag_store s') (flowid_reg_rt (pipe s')) else at_rt g;
     at_n := if enters_n s i then Inputs (ack_of s' f) (tail_of s' f) (at_rt g) 0 else at_n g;
     at_w := if enters_w s i
             then Inputs (n_ack (at_n g)) (n_tail (at_n g)) (n_flags (at_n g)) (timestamp_reg_n (pipe s))
             else at_w g |}.

(** A turn is over when the connection leaves W. *)
Definition cycle_events (g : seen) (s : sender) (i : sender_in) : list send_event :=
  (if nf_val (si_new_flow i)
   then [OpenFlow (nf_flowid (si_new_flow i)) (emit_of (nf_tx_state (si_new_flow i)))] else []) ++
  (if leaves_w s i then [TakeTurn (at_w g)] else []).

Fixpoint events (g : seen) (ins : list sender_in) (s : sender) : list send_event :=
  match ins with
  | [] => []
  | i :: ins' => cycle_events g s i ++ events (seen_next g s i) ins' (sender_next x false i s)
  end.

(** What a turn sends and what it stores. *)
Definition pkt_of (t : Z * numbered) : option tx_pkt :=
  if generate_pkt_n t.2 then Some (TxPkt t.1 (tx_pkt_seq_num_n t.2) (payload_buf_n t.2)) else None.
Definition state_of (t : Z * numbered) : Z * tx_state_struct := (t.1, next_tx_data_n t.2).

(** ** What the inputs may be *)

Record in_ok (i : sender_in) : Prop := {
  l_new : nf_val (si_new_flow i) = true → flow_ok (nf_flowid (si_new_flow i));
  l_recv : wr_val (si_recv_tx_wr i) = true → flow_ok (wr_addr (si_recv_tx_wr i));
  l_app : wr_val (si_app_tail_wr i) = true → flow_ok (wr_addr (si_app_tail_wr i)) }.

(** The connections the inputs open. *)
Definition opens (ins : list sender_in) : list Z :=
  ins ≫= λ i, if nf_val (si_new_flow i) then [nf_flowid (si_new_flow i)] else [].

(** ** The invariant *)

Definition in_pipe (p : protocol_logic_pipe) : list Z :=
  (if val_reg_w p then [flowid_reg_w p] else []) ++ (if val_reg_n p then [flowid_reg_n p] else []) ++
  (if val_reg_rt p then [flowid_reg_rt p] else []).

(** What the stores' ports are doing: the memories of the connections' state
    and of the tails are read together. *)
Record ports (s : sender) (rd : option Z) : Prop := {
  p_emit : ram_rel (port0 (tx_emit_state (se_tx_store s))) (RamView (contents2 (tx_emit_state (se_tx_store s))) rd);
  p_ack : ram_rel (port0 (tx_ack_state (se_tx_store s))) (RamView (contents2 (tx_ack_state (se_tx_store s))) rd);
  p_tail : ram_rel (port0 (pp_tail_ptrs (send_qs s))) (RamView (contents2 (pp_tail_ptrs (send_qs s))) rd);
  p_emit_size : sized (contents2 (tx_emit_state (se_tx_store s)));
  p_ack_size : sized (contents2 (tx_ack_state (se_tx_store s)));
  p_tail_size : sized (contents2 (pp_tail_ptrs (send_qs s))) }.

(** Each stage has what its connection found, in a register or on its way. *)
Definition holds_rt (g : seen) (s : sender) : Prop :=
  if rt_timeout_flags_stall_val_reg_rt (pipe s) then rt_timeout_flags_stall_data_reg_rt (pipe s) = at_rt g
  else rd_val_reg (flag_store s) = true ∧ rd_resp_struct (flag_store s) = at_rt g.

Definition holds_n (rd : option Z) (g : seen) (q : schedule) (s : sender) : Prop :=
  let p := pipe s in let f := flowid_reg_n p in
  rt_timeout_flags_reg_n p = n_flags (at_n g) ∧
  tx_state_stall_val_reg_n p = send_q_tail_ptr_stall_val_reg_n p ∧
  if send_q_tail_ptr_stall_val_reg_n p
  then send_q_tail_ptr_stall_data_reg_n p = n_tail (at_n g) ∧
       tx_state_stall_data_reg_n p =
         TxState (em_tx_curr_seq_num (emits q f)) (em_timer (emits q f)) (n_ack (at_n g))
  else rd = Some f ∧ n_tail (at_n g) = tail_of s f ∧ n_ack (at_n g) = ack_of s f.

Record inv (l : list Z) (rd : option Z) (g : seen) (q : schedule) (s : sender) : Prop := {
  i_fifo : fifo2_rel sched_log2 (main_pipe_fifo s) l;
  i_wait : waiting q = in_pipe (pipe s) ++ l;
  i_ok : Forall flow_ok (waiting q);
  i_nodup : NoDup (waiting q);
  (** The queue has somebody only when somebody is in the first stage. *)
  i_first : val_reg_rt (pipe s) = false → l = [];
  i_ports : ports s rd;
  i_emits : ∀ f, flow_ok f → emits q f = emit_at s f;
  i_rt : val_reg_rt (pipe s) = true → holds_rt g s;
  i_n : val_reg_n (pipe s) = true → holds_n rd g q s;
  i_w : val_reg_w (pipe s) = true → numbered_reg_w (pipe s) = turn_result q (flowid_reg_w (pipe s)) (at_w g);
  (** Alone in the pipeline and without an answer of the flag store, a
      connection waits for one that is in the queue. *)
  i_live : val_reg_rt (pipe s) = true → rd_val_reg (flag_store s) = false →
           val_reg_n (pipe s) = false → val_reg_w (pipe s) = false → l ≠ [] }.

(** No more connections than numbers. *)
Lemma flows_bound (l : list Z) : NoDup l → Forall flow_ok l → (length l ≤ 16)%nat.
Proof.
  intros Hn Hf. rewrite <- (size_list_to_set (C := gset Z) l Hn).
  etransitivity; [apply (subseteq_size _ (list_to_set (seqZ 0 16)))|vm_compute; lia].
  intros f Hin. apply elem_of_list_to_set in Hin. apply elem_of_list_to_set, elem_of_seqZ.
  rewrite Forall_forall in Hf. apply Hf in Hin. unfold flow_ok in Hin. change (Z.of_nat MAX_FLOW_CNT) with 16 in Hin. lia.
Qed.

Lemma sched_log2_ok : (2 ≤ sched_log2)%nat.
Proof. change sched_log2 with 4%nat. lia. Qed.

Record cycle_ok (l : list Z) (rd : option Z) (g : seen) (q : schedule) (s : sender) (i : sender_in) : Prop := {
  c_inv : inv l rd g q s;
  c_in : in_ok i;
  c_new : nf_val (si_new_flow i) = true → nf_flowid (si_new_flow i) ∉ waiting q }.

Section Cycle.
Context (l : list Z) (rd : option Z) (g : seen) (q : schedule) (s : sender) (i : sender_in).
Hypothesis Hc : cycle_ok l rd g q s i.

Abbreviation Hinv := (c_inv _ _ _ _ _ _ Hc).
Abbreviation Hin := (c_in _ _ _ _ _ _ Hc).
Abbreviation Hnew := (c_new _ _ _ _ _ _ Hc).

Abbreviation p := (main_pipe s).
Abbreviation w := (send_wires x s i).
Abbreviation s' := (sender_next x false i s).
Abbreviation opening := (nf_val (si_new_flow i)).

(** ** What the stores show *)

Lemma responses f :
  rd = Some f → flow_ok f →
  send_q_tail_ptr_rd_resp_val w = true ∧ send_q_tail_ptr_rd_resp_data w = tail_of s f ∧
  tx_state_rd_resp_val w = true ∧
  tx_state_rd_resp_data w = TxState (em_tx_curr_seq_num (emits q f)) (em_timer (emits q f)) (ack_of s f).
Proof.
  intros E Hf. destruct (i_ports _ _ _ _ _ Hinv) as [He Ha Ht Se Sa St].
  destruct (port_shows _ _ _ He E) as [Ve De]. destruct (port_shows _ _ _ Ha E) as [Va Da].
  destruct (port_shows _ _ _ Ht E) as [Vt Dt]. cbn [rv_mem] in *.
  destruct (sized_lookup _ _ Se Hf) as [em Eem]. destruct (sized_lookup _ _ Sa Hf) as [ack Eack].
  cbn [send_wires store_wires send_q_tail_ptr_rd_resp_val send_q_tail_ptr_rd_resp_data tx_state_rd_resp_val
       tx_state_rd_resp_data].
  unfold send_pipe_rd_resp_val, send_pipe_rd_resp_data. rewrite !port0_val, !port0_data, Ve, Va, Vt, De, Da, Dt.
  rewrite (i_emits _ _ _ _ _ Hinv f Hf). unfold emit_at, tail_of, ack_of. by rewrite Eem, Eack.
Qed.

(** The stores take a read in every cycle. *)
Lemma reads_taken :
  send_q_tail_ptr_rd_req_rdy w = true ∧ tx_state_rd_req_rdy w = true ∧
  reads_next rd (tx_rd0 (se_tx_store s) (pipe_rd s)) = reads_next rd (pipe_rd s).
Proof.
  destruct (i_ports _ _ _ _ _ Hinv) as [He Ha _ _ _ _].
  cbn [send_wires store_wires send_q_tail_ptr_rd_req_rdy tx_state_rd_req_rdy].
  unfold send_pipe_rd_req_rdy, tx_rd0, reads_next, send_pipe_rd_resp_val. rewrite !port0_val.
  cbn [rd_resp_rdy pipe_rd rd_val rd_addr andb]. destruct rd as [f|].
  - rewrite (proj1 (port_shows _ _ _ He eq_refl)), (proj1 (port_shows _ _ _ Ha eq_refl)). done.
  - rewrite (port_idle _ _ He eq_refl), (port_idle _ _ Ha eq_refl). done.
Qed.

(** ** Where the stages stall *)

Lemma stage_ok f : f ∈ in_pipe p → flow_ok f.
Proof.
  intros Hf. eapply Forall_forall; [apply (i_ok _ _ _ _ _ Hinv)|]. rewrite (i_wait _ _ _ _ _ Hinv).
  apply elem_of_app. by left.
Qed.

Lemma ok_n : val_reg_n p = true → flow_ok (flowid_reg_n p).
Proof. intros E. apply stage_ok. unfold in_pipe. rewrite E. set_solver. Qed.
Lemma ok_w : val_reg_w p = true → flow_ok (flowid_reg_w p).
Proof. intros E. apply stage_ok. unfold in_pipe. rewrite E. set_solver. Qed.
Lemma ok_rt : val_reg_rt p = true → flow_ok (flowid_reg_rt p).
Proof. intros E. apply stage_ok. unfold in_pipe. rewrite E. set_solver. Qed.

Lemma stall_n_eq : stall_n p w = val_reg_n p && stall_w w.
Proof.
  unfold stall_n. destruct (val_reg_n p) eqn:En; [|done]. cbn [andb].
  destruct (i_n _ _ _ _ _ Hinv En) as (_ & Es & H). rewrite Es. destruct (send_q_tail_ptr_stall_val_reg_n p).
  - by rewrite !andb_false_r, !orb_false_r.
  - destruct H as [E _]. destruct (responses _ E (ok_n En)) as (-> & _ & -> & _). by rewrite !orb_false_r.
Qed.

Lemma stall_rt_eq : stall_rt p w = val_reg_rt p && (stall_n p w || negb (rd_val_reg (flag_store s))).
Proof.
  unfold stall_rt. destruct reads_taken as (-> & -> & _). cbn [rt_timeout_flag_resp_val send_wires store_wires negb].
  destruct (val_reg_rt p), (stall_n p w), (rd_val_reg (flag_store s)), (rt_timeout_flags_stall_val_reg_rt p); done.
Qed.

(** What N computes is the turn of its connection. *)
Lemma numbered_eq :
  val_reg_n p = true →
  numbered_n p w =
  turn_result q (flowid_reg_n p)
    (Inputs (n_ack (at_n g)) (n_tail (at_n g)) (n_flags (at_n g)) (timestamp_reg_n p)).
Proof.
  intros En. destruct (i_n _ _ _ _ _ Hinv En) as (Ef & Es & H). unfold numbered_n, turn_result.
  cbn [n_flags n_ack n_tail n_time]. rewrite Ef.
  assert (Hd : tx_data_byp_n p w = if tx_state_stall_val_reg_n p then tx_state_stall_data_reg_n p
                                   else tx_state_rd_resp_data w).
  { unfold tx_data_byp_n. pose proof (i_nodup _ _ _ _ _ Hinv) as Hn. rewrite (i_wait _ _ _ _ _ Hinv) in Hn.
    unfold in_pipe in Hn. rewrite En in Hn. destruct (val_reg_w p); [|by rewrite andb_false_r].
    cbn in Hn. apply NoDup_cons in Hn as [Hn _].
    destruct (Z.eqb_spec (flowid_reg_w p) (flowid_reg_n p)) as [E|]; [|done]. set_solver. }
  rewrite Hd, Es. unfold send_q_tail_ptr_byp_n. destruct (send_q_tail_ptr_stall_val_reg_n p).
  - by destruct H as [-> ->].
  - destruct H as (E & -> & ->). by destruct (responses _ E (ok_n En)) as (_ & -> & _ & ->).
Qed.

(** ** The queue *)

(** Who is put at the end of it. *)
Definition newcomers : list Z :=
  if opening then [nf_flowid (si_new_flow i)] else if leaves_w s i then [flowid_reg_w p] else [].

Lemma opening_stalls_w : opening = true → stall_w w = true.
Proof.
  intros E. unfold stall_w. cbn [tx_state_wr_req_rdy send_wires store_wires]. unfold send_pipe_wr_req_rdy, wr_rdy.
  rewrite E. by rewrite orb_true_r.
Qed.

Lemma leaves_not_opening : leaves_w s i = true → opening = false ∧ val_reg_w p = true ∧ stall_w w = false.
Proof.
  unfold leaves_w, tx_state_wr_req_val. intros [Hv Hs]%andb_true_iff. apply negb_true_iff in Hs.
  split; [|by split]. destruct (sumbool_of_bool opening) as [E|E]; [|done]. by rewrite (opening_stalls_w E) in Hs.
Qed.

(** There is room for everybody: when somebody is in the queue, somebody is in
    the first stage. *)
Lemma room : newcomers ≠ [] → (length l < 15)%nat.
Proof.
  intros Hne. destruct (decide (l = [])) as [->|Hl]; [cbn; lia|].
  assert (val_reg_rt p = true) as Hrt
    by (destruct (val_reg_rt p) eqn:E; [done|by rewrite (i_first _ _ _ _ _ Hinv E) in Hl]).
  pose proof (i_nodup _ _ _ _ _ Hinv) as Hn. pose proof (i_ok _ _ _ _ _ Hinv) as Ho.
  assert (Hlen : (length l + 1 ≤ length (waiting q))%nat).
  { rewrite (i_wait _ _ _ _ _ Hinv), length_app. unfold in_pipe. rewrite Hrt, !length_app. cbn. lia. }
  unfold newcomers in Hne. destruct (sumbool_of_bool opening) as [Eo|Eo]; rewrite Eo in Hne.
  - pose proof (flows_bound (nf_flowid (si_new_flow i) :: waiting q)) as Hb. cbn in Hb.
    enough (S (length (waiting q)) ≤ 16)%nat by lia. apply Hb; constructor; [by apply Hnew|done|by apply (l_new _ Hin)|done].
  - destruct (leaves_w s i) eqn:El; [|done]. destruct (leaves_not_opening El) as (_ & Hw & _).
    pose proof (flows_bound _ Hn Ho). rewrite (i_wait _ _ _ _ _ Hinv), length_app in *.
    unfold in_pipe in *. rewrite Hrt, Hw, !length_app in *. cbn in *. lia.
Qed.

Lemma offered_eq b : offered (sched_in x s i b) = newcomers.
Proof.
  unfold offered, sched_in. cbn [w_val_0 w_data_0 w_val_1 w_data_1].
  assert (E : main_pipe_sched_fifo_tx_wr_req p (store_wires x s i 0 false) =
              leaves_w s i && negb (f2_full (main_pipe_fifo s))).
  { unfold main_pipe_sched_fifo_tx_wr_req, leaves_w, tx_state_wr_req_val.
    change (stall_w (store_wires x s i 0 false)) with (stall_w w). by rewrite (andb_comm (val_reg_w p)). }
  rewrite E. pose proof room as Hr. unfold newcomers in *.
  destruct (leaves_w s i) eqn:El; [|by destruct opening].
  destruct (leaves_not_opening El) as (Eo & _ & _). rewrite Eo in *. specialize (Hr ltac:(done)).
  rewrite (f2_is_full _ _ _ (i_fifo _ _ _ _ _ Hinv)), bool_decide_eq_false_2; [done|].
  change (FIFO_DEPTH sched_log2) with 16. lia.
Qed.

Lemma readable_eq b : readable sched_log2 (sched_in x s i b) l = l ++ newcomers.
Proof.
  unfold readable. rewrite offered_eq. f_equal. apply take_ge.
  change (Z.to_nat (FIFO_DEPTH sched_log2 - 1)) with 15%nat. pose proof room as Hr. revert Hr.
  unfold newcomers. destruct opening, (leaves_w s i); cbn; intros Hr; try lia; specialize (Hr ltac:(done)); lia.
Qed.

(** What the queue shows, and what is left in it. *)
Lemma queue_shows :
  val_s w = bool_decide (l ++ newcomers ≠ []) ∧
  ∀ f, head (l ++ newcomers) = Some f → sched_fifo_rd_flowid w = f.
Proof.
  destruct (fifo2_simulates ELEM_NONE sched_log2 sched_log2_ok _ _ (sched_in x s i false)
              (i_fifo _ _ _ _ _ Hinv) I) as [(Ha & Hd & _) _].
  rewrite readable_eq in *. cbn [c_out fifo_2w data_avail r_data] in *. split.
  - unfold val_s. cbn [sched_fifo_rd_empty send_wires store_wires]. by rewrite negb_involutive.
  - intros f Hf. cbn [sched_fifo_rd_flowid send_wires store_wires]. by rewrite (Hd f Hf).
Qed.

Lemma fifo_next :
  fifo2_rel sched_log2 (main_pipe_fifo s') (if enters_rt s i then tail (l ++ newcomers) else l ++ newcomers).
Proof.
  destruct (fifo2_simulates ELEM_NONE sched_log2 sched_log2_ok _ _ (sched_in x s i (enters_rt s i))
              (i_fifo _ _ _ _ _ Hinv) I) as [_ Hr].
  cbn [sp_next fifo2_spec] in Hr. rewrite readable_eq in Hr. exact Hr.
Qed.

Lemma enters_rt_eq : enters_rt s i = bool_decide (l ++ newcomers ≠ []) && negb (stall_rt p w).
Proof.
  unfold enters_rt, sched_fifo_rd_req_s, stall_s. rewrite <- (proj1 queue_shows). unfold val_s.
  cbn [rt_timeout_flag_req_rdy send_wires store_wires orb negb].
  destruct (sched_fifo_rd_empty _), (stall_rt p w); done.
Qed.

(** ** The stages after a cycle *)

Lemma stage_rt_next :
  val_reg_rt (main_pipe s') = (if stall_rt p w then true else bool_decide (l ++ newcomers ≠ [])) ∧
  flowid_reg_rt (main_pipe s') = (if stall_rt p w then flowid_reg_rt p else sched_fifo_rd_flowid w).
Proof.
  cbn [main_pipe sender_next logic_next val_reg_rt flowid_reg_rt]. rewrite (proj1 queue_shows).
  pose proof stall_rt_eq as E. unfold stall_s. rewrite (proj1 queue_shows).
  cbn [rt_timeout_flag_req_rdy send_wires store_wires orb negb].
  destruct (stall_rt p w); cbn [negb]; (split; [|done]).
  - by destruct (val_reg_rt p).
  - by rewrite orb_false_r, andb_false_r, andb_true_r.
Qed.

Lemma stage_n_next :
  val_reg_n (main_pipe s') = (if stall_n p w then true else enters_n s i) ∧
  flowid_reg_n (main_pipe s') = (if stall_n p w then flowid_reg_n p else flowid_reg_rt p).
Proof.
  cbn [main_pipe sender_next logic_next val_reg_n flowid_reg_n]. unfold enters_n.
  pose proof stall_n_eq as E. destruct (stall_n p w); cbn [negb]; (split; [|done]); [|done].
  by destruct (val_reg_n p).
Qed.

Lemma stage_w_next :
  val_reg_w (main_pipe s') = (if stall_w w then val_reg_w p else val_reg_n p) ∧
  flowid_reg_w (main_pipe s') = (if stall_w w then flowid_reg_w p else flowid_reg_n p).
Proof.
  cbn [main_pipe sender_next logic_next val_reg_w flowid_reg_w]. rewrite stall_n_eq.
  destruct (stall_w w); cbn [negb]; (split; [|done]); [done|]. by rewrite andb_false_r, andb_true_r.
Qed.

Abbreviation q' := (schedule_after q (cycle_events g s i)).
Abbreviation l' := (if enters_rt s i then tail (l ++ newcomers) else l ++ newcomers).

Lemma cycle_schedule :
  q' = if opening then send_event_next (OpenFlow (nf_flowid (si_new_flow i)) (emit_of (nf_tx_state (si_new_flow i)))) q
       else if leaves_w s i then send_event_next (TakeTurn (at_w g)) q else q.
Proof.
  unfold schedule_after, cycle_events. destruct (leaves_w s i) eqn:El.
  - by destruct (leaves_not_opening El) as (-> & _ & _).
  - by destruct opening.
Qed.

(** The order of the connections is kept. *)
Lemma order_next : waiting q' = in_pipe (main_pipe s') ++ l'.
Proof.
  rewrite cycle_schedule, enters_rt_eq. unfold in_pipe. destruct stage_rt_next as [-> ->].
  destruct stage_n_next as [-> ->]. destruct stage_w_next as [-> ->]. unfold enters_n.
  pose proof (i_wait _ _ _ _ _ Hinv) as Hw. unfold in_pipe in Hw.
  pose proof stall_n_eq as En. pose proof stall_rt_eq as Er. pose proof queue_shows as [_ Hh].
  assert (Hq : waiting (if opening then send_event_next (OpenFlow (nf_flowid (si_new_flow i))
      (emit_of (nf_tx_state (si_new_flow i)))) q else if leaves_w s i then send_event_next (TakeTurn (at_w g)) q else q) =
    (if stall_w w then if val_reg_w p then [flowid_reg_w p] else [] else []) ++
    (if val_reg_n p then [flowid_reg_n p] else []) ++ (if val_reg_rt p then [flowid_reg_rt p] else []) ++ l ++ newcomers).
  { unfold newcomers. destruct (sumbool_of_bool opening) as [Eo|Eo]; rewrite Eo.
    - rewrite (opening_stalls_w Eo). cbn. rewrite Hw. by rewrite <- !app_assoc.
    - unfold leaves_w, tx_state_wr_req_val. destruct (val_reg_w p), (stall_w w); cbn; rewrite ?Hw; cbn;
        by rewrite ?app_nil_r, <- ?app_assoc. }
  rewrite Hq. revert En Er. generalize (stall_n p w) (stall_rt p w) (rd_val_reg (flag_store s)). intros bn brt bv En Er.
  destruct (l ++ newcomers) as [|f r].
  - rewrite bool_decide_eq_false_2 by (intros H; by apply H).
    destruct (stall_w w), (val_reg_w p), (val_reg_n p), (val_reg_rt p), bv; cbn in En; subst bn; cbn in Er; subst brt; done.
  - rewrite bool_decide_eq_true_2, (Hh f) by done.
    destruct (stall_w w), (val_reg_w p), (val_reg_n p), (val_reg_rt p), bv; cbn in En; subst bn; cbn in Er; subst brt; done.
Qed.
(** ** The stores after a cycle *)

Abbreviation rd' := (if val_reg_rt p then Some (flowid_reg_rt p) else None).

Lemma sender_ports_next : ports s' rd'.
Proof.
  destruct (i_ports _ _ _ _ _ Hinv) as [He Ha Ht Se Sa St]. destruct reads_taken as (_ & _ & Hrd).
  pose proof (l_new _ Hin) as Hn.
  assert (Erd : reads_next rd (pipe_rd s) = rd') by done.
  assert (Hrt : ∀ A (m : list A) b, sized m → rd_ok m (RdReq (val_reg_rt p) (flowid_reg_rt p) b))
    by (intros A m b Sm E; apply sized_in_range; [done|]; by apply ok_rt).
  split; try (by apply sized_written).
  - rewrite <- Erd, <- Hrd. apply port0_step; [done| |by apply Hrt]. apply mem_wr_ok; [done|done|].
    cbn [wr_val wr_addr send_tx_wr]. intros E. apply ok_w. by apply leaves_not_opening.
  - rewrite <- Erd, <- Hrd. apply port0_step; [done| |by apply Hrt]. apply mem_wr_ok; [done|done|]. apply (l_recv _ Hin).
  - rewrite <- Erd. apply port0_step; [done| |by apply Hrt]. apply mem_wr_ok; [done|done|]. apply (l_app _ Hin).
Qed.

Lemma emits_next f : flow_ok f → emits q' f = emit_at s' f.
Proof.
  intros Hf. destruct (i_ports _ _ _ _ _ Hinv) as [_ _ _ Se _ _]. unfold emit_at at 1.
  change (contents2 (tx_emit_state (se_tx_store s'))) with
    (written (mem_wr (si_new_flow i) (emit_of (nf_tx_state (si_new_flow i)))
       (WrReq (leaves_w s i) (flowid_reg_w p) (emit_of (next_tx_data_n (numbered_reg_w p)))))
       (contents2 (tx_emit_state (se_tx_store s)))).
  pose proof (i_emits _ _ _ _ _ Hinv f Hf) as He. pose proof (l_new _ Hin) as Hn.
  rewrite written_lookup; [|done|done|].
  2:{ unfold mem_wr. cbn. destruct (sumbool_of_bool opening) as [Eo|Eo]; rewrite Eo; cbn; [auto|].
      intros El. apply ok_w. by apply leaves_not_opening. }
  rewrite cycle_schedule. unfold mem_wr. cbn [wr_val wr_addr wr_dat].
  destruct (sumbool_of_bool opening) as [Eo|Eo]; rewrite Eo; cbn [orb andb].
  - cbn [send_event_next emits]. destruct (Z.eqb_spec (nf_flowid (si_new_flow i)) f) as [->|Hne].
    + by rewrite fn_lookup_insert.
    + by rewrite fn_lookup_insert_ne.
  - destruct (leaves_w s i) eqn:El; cbn [andb]; [|done]. destruct (leaves_not_opening El) as (_ & Ew & _).
    cbn [send_event_next]. rewrite (i_wait _ _ _ _ _ Hinv). unfold in_pipe. rewrite Ew. cbn [app emits].
    rewrite (i_w _ _ _ _ _ Hinv Ew). destruct (Z.eqb_spec (flowid_reg_w p) f) as [->|Hne].
    + by rewrite fn_lookup_insert.
    + by rewrite fn_lookup_insert_ne.
Qed.

(** Only the connection that leaves W, and the one that is opened, change. *)
Lemma emits_kept f :
  f ∈ waiting q → (leaves_w s i = true → f ≠ flowid_reg_w p) → emits q' f = emits q f.
Proof.
  intros Hf Hw. rewrite cycle_schedule. destruct (sumbool_of_bool opening) as [Eo|Eo]; rewrite Eo.
  - cbn [send_event_next emits]. rewrite fn_lookup_insert_ne; [done|]. intros E. apply (Hnew Eo). by rewrite E.
  - destruct (leaves_w s i) eqn:El; [|done]. destruct (leaves_not_opening El) as (_ & Ew & _).
    cbn [send_event_next]. rewrite (i_wait _ _ _ _ _ Hinv). unfold in_pipe. rewrite Ew. cbn [app emits].
    rewrite fn_lookup_insert_ne; [done|]. intros <-. by apply Hw.
Qed.

(** The connections in the stages are different ones. *)
Lemma stages_differ :
  (val_reg_w p = true → val_reg_n p = true → flowid_reg_n p ≠ flowid_reg_w p) ∧
  (val_reg_w p = true → val_reg_rt p = true → flowid_reg_rt p ≠ flowid_reg_w p).
Proof.
  pose proof (i_nodup _ _ _ _ _ Hinv) as Hn. rewrite (i_wait _ _ _ _ _ Hinv) in Hn. unfold in_pipe in Hn.
  split; intros Ew E; rewrite Ew, E in Hn; cbn in Hn; apply NoDup_cons in Hn as [Hn _]; intros Eq; apply Hn;
    rewrite <- Eq; set_solver.
Qed.

Lemma in_n : val_reg_n p = true → flowid_reg_n p ∈ waiting q.
Proof. intros E. rewrite (i_wait _ _ _ _ _ Hinv). unfold in_pipe. rewrite E. set_solver. Qed.
Lemma in_rt : val_reg_rt p = true → flowid_reg_rt p ∈ waiting q.
Proof. intros E. rewrite (i_wait _ _ _ _ _ Hinv). unfold in_pipe. rewrite E. set_solver. Qed.

(** ** The registers after a cycle *)

Abbreviation g' := (seen_next g s i).

Lemma w_next :
  val_reg_w (main_pipe s') = true →
  numbered_reg_w (main_pipe s') = turn_result q' (flowid_reg_w (main_pipe s')) (at_w g').
Proof.
  destruct stage_w_next as [-> ->]. cbn [numbered_reg_w main_pipe sender_next logic_next at_w seen_next].
  unfold enters_w. rewrite stall_n_eq. destruct (stall_w w) eqn:Ew; cbn [negb]; intros E.
  - rewrite andb_true_r. replace (_ && negb _) with false by (by destruct (val_reg_n p)).
    rewrite (i_w _ _ _ _ _ Hinv E). unfold turn_result. rewrite emits_kept; [done|..].
    + rewrite (i_wait _ _ _ _ _ Hinv). unfold in_pipe. rewrite E. set_solver.
    + intros El. destruct (leaves_not_opening El) as (_ & _ & ?). by rewrite Ew in *.
  - rewrite E, andb_false_r. cbn [negb andb]. rewrite (numbered_eq E). unfold turn_result.
    rewrite emits_kept; [done|by apply in_n|]. intros El. apply stages_differ; [|done].
    by apply leaves_not_opening.
Qed.

Lemma rt_next : val_reg_rt (main_pipe s') = true → holds_rt g' s'.
Proof.
  intros Ev. unfold holds_rt. pose proof (proj1 stage_rt_next) as E. rewrite Ev in E.
  cbn [main_pipe sender_next logic_next rt_timeout_flags_stall_val_reg_rt rt_timeout_flags_stall_data_reg_rt
       flag_store rd_val_reg flag_store_next at_rt seen_next].
  rewrite enters_rt_eq. destruct (stall_rt p w) eqn:Er.
  - rewrite andb_false_r. cbn [negb]. rewrite stall_rt_eq in Er. apply andb_true_iff in Er as [Ert _].
    pose proof (i_rt _ _ _ _ _ Hinv Ert) as H. unfold holds_rt in H.
    destruct (rt_timeout_flags_stall_val_reg_rt p); [by rewrite andb_false_r|]. destruct H as [H1 H2].
    cbn [rt_timeout_flag_resp_val rt_timeout_flag_resp_data send_wires store_wires]. by rewrite H1.
  - rewrite <- E. cbn [negb andb]. split.
    + cbn [rd_val fi_rd flag_wires]. rewrite (proj1 queue_shows), <- E. done.
    + pose proof (proj2 stage_rt_next) as Ef. rewrite Er in Ef. cbn [main_pipe sender_next] in Ef. by rewrite Ef.
Qed.

Lemma n_next : val_reg_n (main_pipe s') = true → holds_n rd' g' q' s'.
Proof.
  intros Ev. unfold holds_n. rewrite (proj2 stage_n_next). rewrite (proj1 stage_n_next) in Ev.
  cbn [main_pipe sender_next logic_next rt_timeout_flags_reg_n tx_state_stall_val_reg_n
       send_q_tail_ptr_stall_val_reg_n send_q_tail_ptr_stall_data_reg_n tx_state_stall_data_reg_n at_n seen_next].
  destruct (stall_n p w) eqn:En; cbn [negb].
  - assert (enters_n s i = false) as ->
      by (unfold enters_n; rewrite stall_rt_eq, En; by destruct (val_reg_rt p)).
    rewrite stall_n_eq in En. apply andb_true_iff in En as [En Ew].
    destruct (i_n _ _ _ _ _ Hinv En) as (Hf & Es & H). split; [done|]. rewrite Es.
    assert (Hk : emits q' (flowid_reg_n p) = emits q (flowid_reg_n p)).
    { apply emits_kept; [by apply in_n|]. intros El. destruct (leaves_not_opening El) as (_ & _ & ?).
      by rewrite Ew in *. }
    rewrite Hk. destruct (send_q_tail_ptr_stall_val_reg_n p).
    + split; [done|]. cbn [orb andb negb]. rewrite !andb_false_r. exact H.
    + destruct H as (E & -> & ->). destruct (responses _ E (ok_n En)) as (-> & -> & -> & ->). done.
  - rewrite Ev. unfold enters_n in Ev. apply andb_true_iff in Ev as [Ert Er].
    split; [|split; [done|]].
    + unfold flags_to_n. pose proof (i_rt _ _ _ _ _ Hinv Ert) as H. unfold holds_rt in H.
      destruct (rt_timeout_flags_stall_val_reg_rt p); [exact H|]. apply H.
    + rewrite Ert. split; [done|]. pose proof (proj2 stage_n_next) as Ef. rewrite En in Ef.
      cbn [main_pipe sender_next] in Ef. by rewrite Ef.
Qed.

(** Nobody is left alone without an answer. *)
Lemma live_next :
  val_reg_rt (main_pipe s') = true → rd_val_reg (flag_store s') = false →
  val_reg_n (main_pipe s') = false → val_reg_w (main_pipe s') = false → l' ≠ [].
Proof.
  rewrite (proj1 stage_rt_next), (proj1 stage_n_next), (proj1 stage_w_next).
  assert (Efl : rd_val_reg (flag_store s') = val_s w) by (cbn; by destruct (rd_val_reg (flag_store s))).
  rewrite Efl, (proj1 queue_shows). unfold enters_n. intros Hrt Hv Hn Hw. apply bool_decide_eq_false in Hv.
  exfalso. apply Hv. intros E. apply app_eq_nil in E as [El Enew].
  rewrite bool_decide_eq_false_2 in Hrt by (rewrite El, Enew; by intros H; apply H).
  rewrite stall_n_eq in Hn. pose proof stall_rt_eq as Ert. rewrite stall_n_eq in Ert.
  destruct (stall_rt p w); [|done]. symmetry in Ert. apply andb_true_iff in Ert as [E1 E2].
  assert (En : val_reg_n p = false).
  { destruct (val_reg_n p), (stall_w w); done. }
  rewrite En in E2. cbn in E2. apply negb_true_iff in E2.
  assert (Ew : val_reg_w p = false).
  { destruct (stall_w w) eqn:Es; [done|]. destruct (val_reg_w p) eqn:Ew; [|done].
    unfold newcomers, leaves_w, tx_state_wr_req_val in Enew. rewrite Ew, Es in Enew. by destruct opening. }
  by apply (i_live _ _ _ _ _ Hinv E1 E2 En Ew).
Qed.

Lemma cycle_opened : opened (cycle_events g s i) = if opening then [nf_flowid (si_new_flow i)] else [].
Proof. unfold opened, cycle_events. rewrite bind_app. by destruct opening, (leaves_w s i). Qed.

Lemma sender_inv_next : inv l' rd' g' q' s'.
Proof.
  assert (Hperm : waiting q' ≡ₚ waiting q ++ (if opening then [nf_flowid (si_new_flow i)] else []))
    by (rewrite waiting_after; by rewrite cycle_opened).
  pose proof (i_ok _ _ _ _ _ Hinv) as Ho. pose proof (i_nodup _ _ _ _ _ Hinv) as Hd.
  split.
  - exact fifo_next.
  - exact order_next.
  - rewrite Hperm. apply Forall_app. split; [done|].
    destruct (sumbool_of_bool opening) as [E|E]; rewrite E; [|done]. constructor; [by apply (l_new _ Hin)|done].
  - rewrite Hperm. apply NoDup_app. split; [done|].
    destruct (sumbool_of_bool opening) as [E|E]; rewrite E.
    + split; [|apply NoDup_singleton]. intros f Hf ->%list_elem_of_singleton. by apply (Hnew E).
    + split; [set_solver|constructor].
  - intros E. rewrite (proj1 stage_rt_next) in E. destruct (stall_rt p w); [done|].
    apply bool_decide_eq_false in E. assert (l ++ newcomers = []) as -> by (destruct (l ++ newcomers); [done|by exfalso; apply E]).
    by destruct (enters_rt s i).
  - exact sender_ports_next.
  - exact emits_next.
  - exact rt_next.
  - exact n_next.
  - exact w_next.
  - exact live_next.
Qed.
(** ** What is sent and stored in a cycle *)

Lemma cycle_turns :
  turns q (cycle_events g s i) = if leaves_w s i then [(flowid_reg_w p, numbered_reg_w p)] else [].
Proof.
  unfold cycle_events. destruct (leaves_w s i) eqn:El; [|by destruct opening].
  destruct (leaves_not_opening El) as (-> & Ew & _). cbn [app turns event_turns].
  rewrite (i_wait _ _ _ _ _ Hinv). unfold in_pipe. rewrite Ew. cbn [app]. by rewrite (i_w _ _ _ _ _ Hinv Ew).
Qed.

Lemma outputs_cycle :
  option_list (so_tx (c_out (send_pipe x) s i)) = omap pkt_of (turns q (cycle_events g s i)) ∧
  option_list (so_state_wr (c_out (send_pipe x) s i)) = state_of <$> turns q (cycle_events g s i).
Proof.
  rewrite cycle_turns. cbn [c_out send_pipe so_tx so_state_wr].
  unfold leaves_w, tx_state_wr_req_val, main_pipe_assembler_tx_val.
  destruct (val_reg_w p && negb (stall_w w)); [|done]. cbn. unfold pkt_of. cbn.
  by destruct (generate_pkt_n (numbered_reg_w p)).
Qed.
End Cycle.

(** ** Runs *)

Lemma outputs_cons i ins s :
  omap so_tx (outputs (send_pipe x) (i :: ins) s) =
    option_list (so_tx (c_out (send_pipe x) s i)) ++ omap so_tx (outputs (send_pipe x) ins (sender_next x false i s)) ∧
  omap so_state_wr (outputs (send_pipe x) (i :: ins) s) =
    option_list (so_state_wr (c_out (send_pipe x) s i)) ++
    omap so_state_wr (outputs (send_pipe x) ins (sender_next x false i s)).
Proof.
  cbn -[c_out]. by destruct (so_tx (c_out (send_pipe x) s i)), (so_state_wr (c_out (send_pipe x) s i)).
Qed.

Lemma opens_cons i ins :
  opens (i :: ins) = (if nf_val (si_new_flow i) then [nf_flowid (si_new_flow i)] else []) ++ opens ins.
Proof. done. Qed.

Fixpoint seen_after (g : seen) (ins : list sender_in) (s : sender) : seen :=
  match ins with
  | [] => g
  | i :: ins' => seen_after (seen_next g s i) ins' (sender_next x false i s)
  end.

Lemma run_inv l rd g q s ins :
  inv l rd g q s → Forall in_ok ins → NoDup (waiting q ++ opens ins) →
  let es := events g ins s in let outs := outputs (send_pipe x) ins s in
  opened es = opens ins ∧ omap so_tx outs = omap pkt_of (turns q es) ∧
  omap so_state_wr outs = state_of <$> turns q es ∧
  ∃ l' rd', inv l' rd' (seen_after g ins s) (schedule_after q es) (after_cycles (send_pipe x) ins s).
Proof.
  revert l rd g q s. induction ins as [|i ins IH]; intros l rd g q s Hinv Hin Hd.
  { cbn. split_and!; try done. by exists l, rd. }
  apply Forall_cons in Hin as [Hi Hin]. rewrite opens_cons in Hd.
  assert (Hnew : nf_val (si_new_flow i) = true → nf_flowid (si_new_flow i) ∉ waiting q).
  { intros E Hf. rewrite E in Hd. apply NoDup_app in Hd as (_ & Hd & _). apply (Hd _ Hf). set_solver. }
  pose proof (Build_cycle_ok _ _ _ _ _ _ Hinv Hi Hnew) as Hc.
  pose proof (sender_inv_next l rd g q s i Hc) as Hinv'. destruct (outputs_cycle l rd g q s i Hc) as [O1 O2].
  pose proof (cycle_opened g s i) as Eo.
  assert (Hd' : NoDup (waiting (schedule_after q (cycle_events g s i)) ++ opens ins))
    by (rewrite waiting_after, Eo, <- app_assoc; exact Hd).
  destruct (IH _ _ _ _ _ Hinv' Hin Hd') as (H1 & H2 & H3 & H4).
  destruct (outputs_cons i ins s) as [E1 E2]. cbn zeta in *. rewrite E1, E2, O1, O2, H2, H3.
  cbn [events seen_after]. split_and!.
  - rewrite opens_cons, <- Eo. unfold opened in *. rewrite bind_app. by f_equal.
  - by rewrite turns_app, omap_app.
  - by rewrite turns_app, fmap_app.
  - destruct H4 as (l' & rd' & H4). exists l', rd'. by rewrite schedule_after_app.
Qed.

(** The memories have a place per connection. *)
Definition all_sized (s : sender) : Prop :=
  sized (contents2 (tx_emit_state (se_tx_store s))) ∧ sized (contents2 (tx_ack_state (se_tx_store s))) ∧
  sized (contents2 (pp_tail_ptrs (send_qs s))).

(** The start: nobody waits, and nothing has been seen. *)
Definition unseen : seen :=
  let none := Inputs zero_ack 0 zero_flags 0 in Seen zero_flags none none.
Definition start (s : sender) : schedule := Schedule [] (emit_at s).

Lemma sender_inv_reset i s :
  all_sized s → let s0 := sender_next x true i s in inv [] None unseen (start s0) s0.
Proof.
  intros (S1 & S2 & S3) s0. split; try done.
  - constructor.
  - split; try apply ram2_reset; by apply sized_written.
Qed.

(** C13: the connections take turns.  After a cycle of reset, whatever the
    memories held, and for any connections opened, each once: the packets handed
    on and the states stored are those of a schedule in which the connection at
    the front takes its turn, by the numbering stage on the state its last turn
    left, and goes to the back.  So the order of the turns is the same however
    the stages stall; no state is lost, none is used twice.  And every opened
    connection is at exactly one place, in one of the three stages or in the
    queue: none drops out, although the queue holds one connection less than
    there can be and a connection that finds it full is not put back. *)
Theorem send_pipe_round_robin i0 s ins :
  all_sized s → Forall in_ok ins → NoDup (opens ins) →
  let s0 := sender_next x true i0 s in
  let outs := outputs (send_pipe x) ins s0 in let s1 := after_cycles (send_pipe x) ins s0 in
  let ts := turns (start s0) (events unseen ins s0) in
  omap so_tx outs = omap pkt_of ts ∧ omap so_state_wr outs = state_of <$> ts ∧
  ∃ l, fifo2_rel sched_log2 (main_pipe_fifo s1) l ∧ in_pipe (main_pipe s1) ++ l ≡ₚ opens ins.
Proof.
  intros Hs Hin Hd s0 outs s1 ts.
  destruct (run_inv [] None unseen (start s0) s0 ins (sender_inv_reset i0 s Hs) Hin Hd) as (H1 & H2 & H3 & l & rd & H4).
  split_and!; [done|done|]. exists l. split; [apply H4|].
  unfold s1. rewrite <- (i_wait _ _ _ _ _ H4), waiting_after. cbn zeta in *. by rewrite H1.
Qed.

(** ** Nobody starves *)

(** A cycle in which the next stage is ready and nobody is opened. *)
Definition quiet (i : sender_in) : Prop := nf_val (si_new_flow i) = false ∧ si_assembler_rdy i = true.

(** How many cycles the next turn is away, at most. *)
Definition distance (s : sender) : nat :=
  let p := main_pipe s in
  if val_reg_w p then 0 else if val_reg_n p then 1
  else if val_reg_rt p then if rd_val_reg (flag_store s) then 2 else 3 else 3.

Lemma distance_bound s : (distance s ≤ 3)%nat.
Proof.
  unfold distance. destruct (val_reg_w (main_pipe s)), (val_reg_n (main_pipe s)), (val_reg_rt (main_pipe s)), (rd_val_reg (flag_store s)); lia.
Qed.

Lemma quiet_cycle l rd g q s i :
  cycle_ok l rd g q s i → quiet i → waiting q ≠ [] →
  if leaves_w s i then True else (distance (sender_next x false i s) < distance s)%nat.
Proof.
  intros Hc [Hnf Hrdy] Hw. pose proof (c_inv _ _ _ _ _ _ Hc) as Hinv.
  assert (Es : stall_w (send_wires x s i) = false).
  { unfold stall_w. cbn. unfold send_pipe_wr_req_rdy, wr_rdy. by rewrite Hnf, Hrdy. }
  unfold leaves_w, tx_state_wr_req_val. rewrite Es, andb_true_r. destruct (val_reg_w (pipe s)) eqn:Ew; [done|].
  unfold distance. rewrite (proj1 (stage_w_next l rd g q s i Hc)).
  rewrite (proj1 (stage_n_next l rd g q s i Hc)).
  rewrite (proj1 (stage_rt_next l rd g q s i Hc)).
  unfold enters_n. rewrite (stall_rt_eq l rd g q s i Hc), (stall_n_eq l rd g q s i Hc), Es, Ew.
  assert (Efl : rd_val_reg (flag_store (sender_next x false i s)) = val_s (send_wires x s i))
    by (cbn; by destruct (rd_val_reg (flag_store s))).
  rewrite Efl, (proj1 (queue_shows l rd g q s i Hc)).
  destruct (val_reg_n (pipe s)) eqn:En; [cbn; lia|].
  destruct (val_reg_rt (pipe s)) eqn:Ert.
  - destruct (rd_val_reg (flag_store s)) eqn:Ef; [cbn; lia|]. cbn [andb negb orb].
    pose proof (i_live _ _ _ _ _ Hinv Ert Ef En Ew) as Hl.
    rewrite bool_decide_eq_true_2 by (intros E; apply app_eq_nil in E as [? _]; done). lia.
  - exfalso. apply Hw. rewrite (i_wait _ _ _ _ _ Hinv). unfold in_pipe. rewrite Ew, En, Ert.
    by rewrite (i_first _ _ _ _ _ Hinv Ert).
Qed.

Lemma turn_count_cycle g s i : turn_count (cycle_events g s i) = if leaves_w s i then 1%nat else 0%nat.
Proof.
  unfold turn_count, cycle_events. rewrite bind_app.
  by destruct (nf_val (si_new_flow i)), (leaves_w s i).
Qed.

(** One turn in four cycles. *)
Lemma quiet_turns l rd g q s ins :
  inv l rd g q s → Forall in_ok ins → Forall quiet ins → waiting q ≠ [] →
  (length ins ≤ 4 * turn_count (events g ins s) + distance s)%nat.
Proof.
  revert l rd g q s. induction ins as [|i ins IH]; intros l rd g q s Hinv Hok Hq Hne; [cbn; lia|].
  apply Forall_cons in Hok as [Hi Hok]. apply Forall_cons in Hq as [Hqi Hq].
  assert (Hc : cycle_ok l rd g q s i) by (split; [done|done|]; intros E; destruct Hqi as [E' _]; by rewrite E' in E).
  assert (Hne' : waiting (schedule_after q (cycle_events g s i)) ≠ []).
  { intros E. apply Hne. apply Permutation_nil_r. rewrite <- E, waiting_after, (cycle_opened g s i), (proj1 Hqi).
    by rewrite app_nil_r. }
  pose proof (IH _ _ _ _ _ (sender_inv_next l rd g q s i Hc) Hok Hq Hne') as IHi.
  pose proof (quiet_cycle l rd g q s i Hc Hqi Hne) as Hd. pose proof (turn_count_cycle g s i) as Ht.
  pose proof (distance_bound (sender_next x false i s)).
  cbn [events length]. unfold turn_count in *. rewrite bind_app, length_app, Ht.
  destruct (leaves_w s i); lia.
Qed.

Lemma opens_quiet ins : Forall quiet ins → opens ins = [].
Proof. induction 1 as [|i ins [Hi _] _ IH]; [done|]. by rewrite opens_cons, Hi. Qed.

(** Nobody starves.  After any run from reset, once the assembly of headers
    is ready and no connection is opened for four cycles per connection, every
    opened connection has had a turn: a state was stored for it. *)
Theorem send_pipe_serves_all i0 s ins quiets f :
  all_sized s → Forall in_ok (ins ++ quiets) → NoDup (opens ins) → Forall quiet quiets →
  (4 * length (opens ins) ≤ length quiets)%nat → f ∈ opens ins →
  let s1 := after_cycles (send_pipe x) ins (sender_next x true i0 s) in
  f ∈ (omap so_state_wr (outputs (send_pipe x) quiets s1)).*1.
Proof.
  intros Hs [Hin Hin']%Forall_app Hd Hq Hlen Hf s1. set (s0 := sender_next x true i0 s) in *.
  destruct (run_inv [] None unseen (start s0) s0 ins (sender_inv_reset i0 s Hs) Hin Hd) as (H1 & _ & _ & l & rd & Hinv).
  fold s1 in Hinv. set (q := schedule_after _ _) in Hinv.
  assert (Hw : waiting q ≡ₚ opens ins) by (unfold q; rewrite waiting_after; cbn zeta in H1; by rewrite H1).
  pose proof (quiet_turns _ _ _ _ _ _ Hinv Hin' Hq) as Ht.
  destruct (run_inv _ _ _ _ _ quiets Hinv Hin') as (_ & _ & -> & _).
  { rewrite (opens_quiet _ Hq), app_nil_r. apply Hinv. }
  rewrite <- Hw in Hf. pose proof (Permutation_length Hw) as Hk.
  apply list_elem_of_split in Hf as (l1 & l2 & E). rewrite E, length_app in Hk. cbn in Hk.
  rewrite <- list_fmap_compose. apply (turn_comes l1 f l2); [done|].
  specialize (Ht ltac:(rewrite E; by destruct l1)). pose proof (distance_bound s1). lia.
Qed.

(** ** The stream of a connection *)

(** The data sent on a connection. *)
Definition data_of (f : Z) (p : tx_pkt) : option (Z * payload_buf_struct) :=
  if (tp_flowid p =? f) && negb (payload_len (tp_payload p) =? 0) then Some (tp_seq_num p, tp_payload p) else None.

Lemma data_of_turns f ts : omap (data_of f) (omap pkt_of ts) = omap turn_data (turns_on f ts).
Proof.
  induction ts as [|[h n] ts IH]; [done|]. unfold turns_on in *. cbn [mbind list_bind]. rewrite omap_app, <- IH.
  cbn [omap list_omap]. unfold pkt_of, turn_data. cbn [fst snd].
  destruct (generate_pkt_n n) eqn:Eg; cbn [omap list_omap]; unfold data_of; cbn;
    destruct (h =? f); cbn; rewrite ?Eg; cbn; by repeat case_match.
Qed.

Lemma events_opens g ins s i :
  i ∈ ins → nf_val (si_new_flow i) = true →
  OpenFlow (nf_flowid (si_new_flow i)) (emit_of (nf_tx_state (si_new_flow i))) ∈ events g ins s.
Proof.
  revert g s. induction ins as [|j ins IH]; intros g s Hi Hv; [by apply not_elem_of_nil in Hi|].
  cbn [events]. apply elem_of_app. apply elem_of_cons in Hi as [-> | Hi]; [left|right; by apply IH].
  unfold cycle_events. rewrite Hv. set_solver.
Qed.

(** C14: a connection sends its stream.  After any run from reset, with other
    connections opened before and after and turns between: if what the
    connection found at its turns were acknowledgements not beyond the number it
    had reached then, which a request to send again sets back, and tails of what
    the application had written, never more than the 4096 bytes of the buffer
    beyond what is acknowledged, on the circle of 32-bit numbers from its first
    number [I] on, then the data handed on for it are the segments planned, in
    order, without a gap; where a turn was asked to send again, from the first
    byte not acknowledged. *)
Theorem send_pipe_stream i0 s ins i I ts :
  all_sized s → Forall in_ok ins → NoDup (opens ins) →
  i ∈ ins → nf_val (si_new_flow i) = true → tx_curr_seq_num (nf_tx_state (si_new_flow i)) = seq I →
  let f := nf_flowid (si_new_flow i) in let s0 := sender_next x true i0 s in
  inputs_on f (start s0) (events unseen ins s0) = on_circle I <$> ts → turns_ok 0 ts →
  omap (data_of f) (omap so_tx (outputs (send_pipe x) ins s0)) = omap (seg_data I) (plan 0 ts).
Proof.
  intros Hs Hin Hd Hi Hv HI f s0 Hts Hok.
  destruct (run_inv [] None unseen (start s0) s0 ins (sender_inv_reset i0 s Hs) Hin Hd) as (H1 & -> & _).
  rewrite data_of_turns, (turns_on_opened f _ (start s0) _ (events_opens unseen ins s0 i Hi Hv)).
  - rewrite Hts. cbn [em_tx_curr_seq_num em_timer emit_of]. rewrite HI. rewrite <- (Z.add_0_r I) at 1.
    by apply send_run_data.
  - cbn zeta in H1. by rewrite H1.
Qed.
End Run.

(** ** Requests to send again

    The flags of a connection are read when it enters the first stage and reset
    when a packet of its leaves the last; a reset wins over a set. *)
Lemma rt_cleared x s i f :
  flow_ok f → main_pipe_rt_timeout_clr_bit_val (main_pipe s) = true → flowid_reg_w (main_pipe s) = f →
  rt_pending (flags_at (flag_store (sender_next x false i s)) f) = false.
Proof.
  intros [Hf Hf'] Hv Hw. cbn. rewrite Hv, Hw. unfold flags_next, bitmask. change (Z.b2z true) with 1.
  rewrite !Z.land_spec, !Z.lnot_spec, Z.mod_pow2_bits_low, Z.shiftl_spec by (unfold flow_ok in *; lia).
  by rewrite Z.sub_diag, andb_false_r.
Qed.

(** ** A concrete run

    From registers and memories full of rubbish: connections 3 and 5 are
    opened, 3 with 2500 bytes, then 500 more; the assembly stalls twice; 3 is
    asked to send again, then 1024 bytes are acknowledged. *)

Definition sample_x : send_unknowns := SendUnknowns (TxState 7 (TxAckTimer 5 true) (TxAckState 1 9)) 77 13.
Definition sample_sender : sender :=
  {| main_pipe := LogicPipe true 3 true (RtTimeoutFlags true true) true 4 (RtTimeoutFlags false true) 99 true 8 true
                    zero_tx true 5 zero_numbered;
     main_pipe_fifo := Fifo2 [] 9 8 7 true true;
     flag_store := FlagStore 65535 1 true 3;
     se_tx_store := TxStore (junk_ram2 (TxEmit (TxAckTimer 3 true) 4)) (junk_ram2 (TxAckState 2 6));
     send_qs := PayloadPtrs (junk_ram2 50) (junk_ram2 51) |}.

Definition sample_in (n : new_flow) (rdy : bool) (rt : option Z) (ack tail : option (Z * Z)) : sender_in :=
  {| si_new_flow := n; si_assembler_rdy := rdy;
     si_rt_set_val := bool_decide (is_Some rt); si_rt_set_flowid := default 0 rt;
     si_recv_tx_wr := WrReq (bool_decide (is_Some ack)) (default 0 (fst <$> ack))
                        (TxState 0 zero_timer (TxAckState 0 (default 0 (snd <$> ack))));
     si_recv_tx_rd := no_rd;
     si_app_tail_wr := WrReq (bool_decide (is_Some tail)) (default 0 (fst <$> tail)) (default 0 (snd <$> tail));
     si_app_tail_rd := no_rd; si_recv_head_wr := WrReq false 0 0; si_app_head_rd := no_rd |}.
Definition idle : sender_in := sample_in no_flow true None None None.
Definition with_flow (f n : Z) : sender_in :=
  sample_in (NewFlow true f zero_rx (TxState n zero_timer (TxAckState 0 n)) 0 0) true None None None.
Definition with_tail (f p : Z) : sender_in := sample_in no_flow true None None (Some (f, p)).
Definition with_ack (f a : Z) : sender_in := sample_in no_flow true None (Some (f, a)) None.
Definition with_rt (f : Z) : sender_in := sample_in no_flow true (Some f) None None.
Definition stalled : sender_in := sample_in no_flow false None None None.

Definition sample_first : Z := 2 ^ 32 - 1024.
Definition sample_open : list sender_in :=
  [with_flow 3 sample_first; with_flow 5 700; with_tail 3 (tx_ptr (sample_first + 2500))].
Definition sample_ins : list sender_in :=
  sample_open ++ replicate 4 idle ++ [stalled; stalled] ++ replicate 10 idle ++ [with_rt 3] ++ replicate 9 idle ++
  [with_ack 3 0; with_tail 3 (tx_ptr (sample_first + 3000))] ++ replicate 6 idle.
Definition sample_reset : sender := sender_next sample_x true idle sample_sender.

(** What connection 3 finds at its turns. *)
Definition sample_turn (acked written : Z) (rt : bool) (time : Z) : turn :=
  Turn 0 acked written (RtTimeoutFlags false rt) time.
Definition sample_found : list turn :=
  [sample_turn 0 0 false 2; sample_turn 0 2500 false 5; sample_turn 0 2500 false 9; sample_turn 0 2500 false 12;
   sample_turn 0 2500 false 15; sample_turn 0 2500 false 18; sample_turn 0 2500 true 21; sample_turn 0 2500 false 24;
   sample_turn 0 2500 false 27; sample_turn 1024 2500 false 30; sample_turn 1024 3000 false 33].

Definition in_okb (i : sender_in) : bool :=
  implb (nf_val (si_new_flow i)) (flow_okb (nf_flowid (si_new_flow i))) &&
  implb (wr_val (si_recv_tx_wr i)) (flow_okb (wr_addr (si_recv_tx_wr i))) &&
  implb (wr_val (si_app_tail_wr i)) (flow_okb (wr_addr (si_app_tail_wr i))).

Lemma in_okb_ok ins : forallb in_okb ins = true → Forall in_ok ins.
Proof.
  induction ins as [|i ins IH]; [done|]. cbn [forallb]. intros [Hi Hins]%andb_true_iff. constructor; [|by apply IH].
  unfold in_okb in Hi. rewrite !andb_true_iff in Hi. destruct Hi as [[H1 H2] H3].
  split; intros E; apply flow_okb_ok; by eapply implb_ok.
Qed.

Lemma sample_sized : all_sized sample_sender.
Proof. by split_and!. Qed.

Lemma send_pipe_round_robin_witness :
  let outs := outputs (send_pipe sample_x) sample_ins sample_reset in
  let ts := turns (start sample_x sample_reset) (events sample_x unseen sample_ins sample_reset) in
  omap so_tx outs = omap pkt_of ts ∧ length (omap so_tx outs) = 9%nat ∧
  (omap so_state_wr outs).*1 = [3; 5; 3; 5; 3; 5; 3; 5; 3; 5; 3; 5; 3; 5; 3; 5; 3; 5; 3; 5; 3; 5].
Proof.
  split; [|vm_compute; split; reflexivity].
  apply (send_pipe_round_robin sample_x idle sample_sender sample_ins sample_sized).
  - apply in_okb_ok. vm_compute. reflexivity.
  - apply (bool_decide_unpack _). vm_compute. exact I.
Defined.

Lemma send_pipe_serves_all_witness :
  let s1 := after_cycles (send_pipe sample_x) sample_ins sample_reset in
  5 ∈ (omap so_state_wr (outputs (send_pipe sample_x) (replicate 8 idle) s1)).*1.
Proof.
  apply (send_pipe_serves_all sample_x idle sample_sender sample_ins (replicate 8 idle) 5 sample_sized).
  - apply in_okb_ok. vm_compute. reflexivity.
  - apply (bool_decide_unpack _). vm_compute. exact I.
  - apply Forall_replicate. split; reflexivity.
  - vm_compute. lia.
  - apply (bool_decide_unpack _). vm_compute. exact I.
Defined.

Lemma send_pipe_stream_witness :
  omap (data_of 3) (omap so_tx (outputs (send_pipe sample_x) sample_ins sample_reset)) =
  [(sample_first, PayloadBuf 3072 1024); (0, PayloadBuf 0 1024); (1024, PayloadBuf 1024 448);
   (1472, PayloadBuf 1472 4);
   (sample_first, PayloadBuf 3072 1024); (0, PayloadBuf 0 1024); (1024, PayloadBuf 1024 448);
   (1472, PayloadBuf 1472 4); (1476, PayloadBuf 1476 480)].
Proof.
  etransitivity;
    [apply (send_pipe_stream sample_x idle sample_sender sample_ins (with_flow 3 sample_first) sample_first sample_found
              sample_sized)|vm_compute; reflexivity].
  - apply in_okb_ok. vm_compute. reflexivity.
  - apply (bool_decide_unpack _). vm_compute. exact I.
  - left.
  - reflexivity.
  - reflexivity.
  - vm_compute. reflexivity.
  - vm_compute. repeat split; discriminate.
Defined.

(** A request that comes while its connection sends is lost: whatever the cycle
    in which it comes, while there is data to send the run is the same as
    without it. *)
Definition requested (k : nat) (i : sender_in) : list tx_pkt :=
  omap so_tx (outputs (send_pipe sample_x) (sample_open ++ replicate k idle ++ [i] ++ replicate 40 idle) sample_reset).

Lemma request_lost : Forall (λ k, requested k (with_rt 3) = requested k idle) (List.seq 0 13).
Proof. repeat (constructor; [vm_compute; reflexivity|]). constructor. Qed.

Lemma request_served :
  (λ p, (tp_seq_num p, payload_len (tp_payload p))) <$> drop 4 (requested 13 (with_rt 3)) =
  [(sample_first, 1024); (0, 1024); (1024, 448); (1472, 4)].
Proof. vm_compute. reflexivity. Qed.
