(* ===== verification/HdrAssembler.v ===== *)
(** HdrAssembler: send_pipe/hdr_assembler_pipe.sv, which gives the packets of
    the send pipeline their headers, with the memories it reads: the receive
    state of the connections (recv_pipe/rx_state_store.sv) and their addresses
    (send_pipe/flowid_to_addr.sv). *)

From S2P Require Import Prelude Rtl RamDual TcpPkg FlowStores TcpStateMachine SendStage SendPipe.

(** ** hdr_assembler_pipe.sv

    The number of the connection, the sequence number and the payload of a stage
    are one register [asm_pkt_reg]. *)

Record hdr_assembler_pipe := Assembler {
  asm_val_reg_r : bool;
  asm_pkt_reg_r : tx_pkt;
  asm_val_reg_a : bool;
  asm_pkt_reg_a : tx_pkt;
  asm_val_reg_l : bool;
  asm_pkt_reg_l : tx_pkt;
  recv_state_reg_l : recv_state_entry;
  asm_val_reg_t : bool;
  asm_pkt_reg_t : tx_pkt;
  recv_state_reg_t : recv_state_entry;
  flowid_lookup_reg_t : four_tuple_struct;
  asm_val_reg_o : bool;
  flowid_reg_o : Z;
  payload_reg_o : payload_buf_struct;
  flowid_lookup_data_reg_o : four_tuple_struct;
  assembled_tcp_hdr_reg_o : tcp_pkt_hdr }.

Record asm_in := AsmIn {
  main_tx_val : bool;
  main_tx_pkt : tx_pkt;
  recv_state_rd_req_rdy : bool;
  recv_state_rd_resp_val : bool;
  recv_state_rd_resp_data : recv_state_entry;
  flowid_lookup_rd_req_rdy : bool;
  flowid_lookup_rd_resp_val : bool;
  flowid_lookup_rd_resp_data : four_tuple_struct;
  dst_assembler_tx_rdy : bool }.

Definition stall_o (i : asm_in) : bool := negb (dst_assembler_tx_rdy i).
Definition tcp_hdr_req_rdy_t (i : asm_in) : bool := negb (stall_o i).
Definition stall_t (s : hdr_assembler_pipe) (i : asm_in) : bool :=
  asm_val_reg_t s && (stall_o i || negb (tcp_hdr_req_rdy_t i)).
Definition stall_l (s : hdr_assembler_pipe) (i : asm_in) : bool :=
  asm_val_reg_l s && (stall_t s i || negb (flowid_lookup_rd_resp_val i)).
Definition stall_a (s : hdr_assembler_pipe) (i : asm_in) : bool :=
  asm_val_reg_a s &&
  (stall_l s i || negb (recv_state_rd_resp_val i) || negb (flowid_lookup_rd_req_rdy i)).
Definition stall_r (s : hdr_assembler_pipe) (i : asm_in) : bool :=
  asm_val_reg_r s && (stall_a s i || negb (recv_state_rd_req_rdy i)).
Definition stall_i (s : hdr_assembler_pipe) (i : asm_in) : bool := stall_l s i.

(** The window is never closed. *)
Definition win_size_t (s : hdr_assembler_pipe) : Z :=
  if rx_curr_wnd_size (recv_state_reg_t s) =? 0 then 1 else rx_curr_wnd_size (recv_state_reg_t s).

Definition assembled_tcp_hdr_t (s : hdr_assembler_pipe) : tcp_pkt_hdr :=
  tcp_hdr_assembler (asm_val_reg_t s) (ft_host_port (flowid_lookup_reg_t s)) (ft_dest_port (flowid_lookup_reg_t s))
    (tp_seq_num (asm_pkt_reg_t s)) (rx_curr_ack_num (recv_state_reg_t s)) (Z.lor FLAG_ACK FLAG_PSH) (win_size_t s).

Definition hdr_assembler_next (i : asm_in) (s : hdr_assembler_pipe) : hdr_assembler_pipe :=
  let sr := stall_r s i in let sa := stall_a s i in let sl := stall_l s i in let st := stall_t s i in
  let so := stall_o i in
  {| asm_val_reg_r := if negb sr then main_tx_val i else asm_val_reg_r s;
     asm_pkt_reg_r := if negb sr then main_tx_pkt i else asm_pkt_reg_r s;
     asm_val_reg_a := if negb sa then asm_val_reg_r s && negb sr else asm_val_reg_a s;
     asm_pkt_reg_a := if negb sa then asm_pkt_reg_r s else asm_pkt_reg_a s;
     asm_val_reg_l := if negb sl then asm_val_reg_a s && negb sa else asm_val_reg_l s;
     asm_pkt_reg_l := if negb sl then asm_pkt_reg_a s else asm_pkt_reg_l s;
     recv_state_reg_l := if negb sl then recv_state_rd_resp_data i else recv_state_reg_l s;
     asm_val_reg_t := if negb st then asm_val_reg_l s && negb sl else asm_val_reg_t s;
     asm_pkt_reg_t := if negb st then asm_pkt_reg_l s else asm_pkt_reg_t s;
     recv_state_reg_t := if negb st then recv_state_reg_l s else recv_state_reg_t s;
     flowid_lookup_reg_t := if negb st then flowid_lookup_rd_resp_data i else flowid_lookup_reg_t s;
     asm_val_reg_o := if negb so then asm_val_reg_t s else asm_val_reg_o s;
     flowid_reg_o := if negb so then tp_flowid (asm_pkt_reg_t s) else flowid_reg_o s;
     payload_reg_o := if negb so then tp_payload (asm_pkt_reg_t s) else payload_reg_o s;
     flowid_lookup_data_reg_o := if negb so then flowid_lookup_reg_t s else flowid_lookup_data_reg_o s;
     assembled_tcp_hdr_reg_o := if negb so then assembled_tcp_hdr_t s else assembled_tcp_hdr_reg_o s |}.

Definition zero_pkt_regs : tx_pkt := TxPkt 0 0 zero_payload.
Definition hdr_assembler_reset : hdr_assembler_pipe :=
  Assembler false zero_pkt_regs false zero_pkt_regs false zero_pkt_regs zero_rx false zero_pkt_regs zero_rx
    zero_four_tuple false 0 zero_payload zero_four_tuple zero_hdr.

(** ** With its memories *)

Record asm_sys := AsmSys {
  assembler : hdr_assembler_pipe;
  asm_rx_store : rx_state_store;
  flowid_to_addr : ram four_tuple_struct }.

Record asm_sys_in := AsmSysIn {
  as_tx_val : bool;
  as_tx_pkt : tx_pkt;
  as_new_flow : new_flow;
  as_lookup_entry : four_tuple_struct;
  as_recv_wr : wr_req recv_state_entry;
  as_recv_rd : rd_req_in;
  as_dst_rdy : bool }.

(** A packet with its header. *)
Record dst_pkt := DstPkt {
  dp_flowid : Z;
  dp_src_ip : Z;
  dp_dst_ip : Z;
  dp_tcp_hdr : tcp_pkt_hdr;
  dp_payload : payload_buf_struct }.

Record asm_unknowns := AsmUnknowns { xa_rx : recv_state_entry; xa_addr : four_tuple_struct }.

Section Assembler.
Variable x : asm_unknowns.

Definition asm_stores (s : asm_sys) (i : asm_sys_in) (recv_rdy lookup_rdy : bool) : asm_in :=
  {| main_tx_val := as_tx_val i;
     main_tx_pkt := as_tx_pkt i;
     recv_state_rd_req_rdy := recv_rdy;
     recv_state_rd_resp_val := rd1_resp_val (asm_rx_store s);
     recv_state_rd_resp_data := default (xa_rx x) (rd1_resp_data (asm_rx_store s));
     flowid_lookup_rd_req_rdy := lookup_rdy;
     flowid_lookup_rd_resp_val := rd_resp_val (flowid_to_addr s);
     flowid_lookup_rd_resp_data := default (xa_addr x) (rd_resp_data (flowid_to_addr s));
     dst_assembler_tx_rdy := as_dst_rdy i |}.

(** A memory takes a read when its response is taken or there is none. *)
Definition asm_lookup_rdy (s : asm_sys) (i : asm_sys_in) : bool :=
  negb (stall_l (assembler s) (asm_stores s i false false)) || negb (rd_resp_val (flowid_to_addr s)).
Definition asm_recv_rdy (s : asm_sys) (i : asm_sys_in) : bool :=
  negb (stall_a (assembler s) (asm_stores s i false (asm_lookup_rdy s i))) || negb (rd1_resp_val (asm_rx_store s)).
Definition asm_wires (s : asm_sys) (i : asm_sys_in) : asm_in :=
  asm_stores s i (asm_recv_rdy s i) (asm_lookup_rdy s i).

Definition asm_recv_rd (s : asm_sys) (i : asm_sys_in) : rd_req_in :=
  RdReq (asm_val_reg_r (assembler s)) (tp_flowid (asm_pkt_reg_r (assembler s)))
    (negb (stall_a (assembler s) (asm_wires s i))).
Definition asm_lookup_rd (s : asm_sys) (i : asm_sys_in) : rd_req_in :=
  RdReq (asm_val_reg_a (assembler s)) (tp_flowid (asm_pkt_reg_a (assembler s)))
    (negb (stall_l (assembler s) (asm_wires s i))).

Definition assembler_main_pipe_tx_rdy (s : asm_sys) (i : asm_sys_in) : bool :=
  negb (stall_i (assembler s) (asm_wires s i)).

Definition addr_wr (i : asm_sys_in) : wr_req four_tuple_struct :=
  WrReq (nf_val (as_new_flow i)) (nf_flowid (as_new_flow i)) (as_lookup_entry i).

Definition asm_sys_next (rst : bool) (i : asm_sys_in) (s : asm_sys) : asm_sys :=
  {| assembler := if rst then hdr_assembler_reset else hdr_assembler_next (asm_wires s i) (assembler s);
     asm_rx_store := rx_state_store_next rst (as_new_flow i) (as_recv_wr i) (as_recv_rd i) (asm_recv_rd s i)
                       (asm_rx_store s);
     flowid_to_addr := ram_next zero_four_tuple rst (mem1_in (addr_wr i) (asm_lookup_rd s i)) (flowid_to_addr s) |}.

(** What the output stage shows. *)
Definition dst_of (a : hdr_assembler_pipe) : dst_pkt :=
  {| dp_flowid := flowid_reg_o a;
     dp_src_ip := ft_host_ip (flowid_lookup_data_reg_o a);
     dp_dst_ip := ft_dest_ip (flowid_lookup_data_reg_o a);
     dp_tcp_hdr := assembled_tcp_hdr_reg_o a;
     dp_payload := payload_reg_o a |}.

Definition hdr_assembler : circuit asm_sys asm_sys_in (option dst_pkt) := Circuit
  (λ s i, if asm_val_reg_o (assembler s) && as_dst_rdy i then Some (dst_of (assembler s)) else None)
  asm_sys_next.

(** ** What is done to a packet *)

(** The packet, the receive state and the addresses of its connection. *)
Record dressed := Dressed { dr_pkt : tx_pkt; dr_rx : recv_state_entry; dr_addr : four_tuple_struct }.

Definition window (rx : recv_state_entry) : Z := if rx_curr_wnd_size rx =? 0 then 1 else rx_curr_wnd_size rx.

Definition assemble (d : dressed) : dst_pkt :=
  {| dp_flowid := tp_flowid (dr_pkt d);
     dp_src_ip := ft_host_ip (dr_addr d);
     dp_dst_ip := ft_dest_ip (dr_addr d);
     dp_tcp_hdr := TcpPktHdr (ft_host_port (dr_addr d)) (ft_dest_port (dr_addr d)) (tp_seq_num (dr_pkt d))
                     (rx_curr_ack_num (dr_rx d)) 5 0 (Z.lor FLAG_ACK FLAG_PSH) (window (dr_rx d)) 0 0;
     dp_payload := tp_payload (dr_pkt d) |}.

(** What the memories hold of a connection. *)
Definition rx_of (s : asm_sys) (f : Z) : recv_state_entry :=
  default (xa_rx x) (contents2 (asm_rx_store s) !! Z.to_nat f).
Definition addr_of (s : asm_sys) (f : Z) : four_tuple_struct :=
  default (xa_addr x) (contents (flowid_to_addr s) !! Z.to_nat f).

(** What is taken, and what is read for which packet, in a cycle. *)
Definition takes (s : asm_sys) (i : asm_sys_in) : list tx_pkt :=
  if as_tx_val i && assembler_main_pipe_tx_rdy s i then [as_tx_pkt i] else [].
Definition reads (s : asm_sys) (i : asm_sys_in) : list (tx_pkt * recv_state_entry) :=
  let a := assembler s in
  if asm_val_reg_a a && negb (stall_a a (asm_wires s i))
  then [(asm_pkt_reg_a a, rx_of s (tp_flowid (asm_pkt_reg_a a)))] else [].
Definition lookups (s : asm_sys) (i : asm_sys_in) : list (tx_pkt * four_tuple_struct) :=
  let a := assembler s in
  if asm_val_reg_l a && negb (stall_l a (asm_wires s i))
  then [(asm_pkt_reg_l a, addr_of s (tp_flowid (asm_pkt_reg_l a)))] else [].

Definition over {B} (f : asm_sys → asm_sys_in → list B) : list asm_sys_in → asm_sys → list B :=
  fix go ins s := match ins with [] => [] | i :: ins' => f s i ++ go ins' (asm_sys_next false i s) end.

(** What is in the stages, the oldest first. *)
Definition when {B} (b : bool) (d : B) : list B := if b then [d] else [].
Definition pkts_in (a : hdr_assembler_pipe) : list tx_pkt :=
  when (asm_val_reg_t a) (asm_pkt_reg_t a) ++ when (asm_val_reg_l a) (asm_pkt_reg_l a) ++
  when (asm_val_reg_a a) (asm_pkt_reg_a a) ++ when (asm_val_reg_r a) (asm_pkt_reg_r a).
(** The stages and whether they hold a packet. *)
Definition stage_slots (a : hdr_assembler_pipe) : list (bool * tx_pkt) :=
  [(asm_val_reg_t a, asm_pkt_reg_t a); (asm_val_reg_l a, asm_pkt_reg_l a); (asm_val_reg_a a, asm_pkt_reg_a a);
   (asm_val_reg_r a, asm_pkt_reg_r a)].
Definition reads_in (a : hdr_assembler_pipe) : list (tx_pkt * recv_state_entry) :=
  when (asm_val_reg_t a) (asm_pkt_reg_t a, recv_state_reg_t a) ++
  when (asm_val_reg_l a) (asm_pkt_reg_l a, recv_state_reg_l a).
Definition lookups_in (a : hdr_assembler_pipe) : list (tx_pkt * four_tuple_struct) :=
  when (asm_val_reg_t a) (asm_pkt_reg_t a, flowid_lookup_reg_t a).
Definition dst_in (a : hdr_assembler_pipe) : list dst_pkt := when (asm_val_reg_o a) (dst_of a).

(** ** The invariant: each memory is read for one stage *)

Record asm_inv (s : asm_sys) : Prop := {
  a_rx : ram_rel (port1 (asm_rx_store s)) (RamView (contents2 (asm_rx_store s))
           (if asm_val_reg_a (assembler s) then Some (tp_flowid (asm_pkt_reg_a (assembler s))) else None));
  a_addr : ram_rel (flowid_to_addr s) (RamView (contents (flowid_to_addr s))
           (if asm_val_reg_l (assembler s) then Some (tp_flowid (asm_pkt_reg_l (assembler s))) else None));
  a_rx_size : sized (contents2 (asm_rx_store s));
  a_addr_size : sized (contents (flowid_to_addr s));
  a_ok : Forall (λ p, flow_ok (tp_flowid p)) (pkts_in (assembler s)) }.

(** A packet is offered only to a pipeline that takes it. *)
Record asm_ok (s : asm_sys) (i : asm_sys_in) : Prop := {
  k_rdy : as_tx_val i = true → assembler_main_pipe_tx_rdy s i = true;
  k_tx : as_tx_val i = true → flow_ok (tp_flowid (as_tx_pkt i));
  k_new : nf_val (as_new_flow i) = true → flow_ok (nf_flowid (as_new_flow i));
  k_recv : wr_val (as_recv_wr i) = true → flow_ok (wr_addr (as_recv_wr i)) }.

Section Cycle.
Context (s : asm_sys) (i : asm_sys_in).
Hypothesis Hinv : asm_inv s.
Hypothesis Hok : asm_ok s i.

Abbreviation a := (assembler s).
Abbreviation w := (asm_wires s i).
Abbreviation s' := (asm_sys_next false i s).

Lemma rx_val : rd1_resp_val (asm_rx_store s) = asm_val_reg_a a.
Proof.
  rewrite port1_val. destruct (asm_val_reg_a a) eqn:E; pose proof (a_rx _ Hinv) as H; rewrite E in H.
  - exact (proj1 (port_shows _ _ _ H eq_refl)).
  - exact (port_idle _ _ H eq_refl).
Qed.

Lemma addr_val : rd_resp_val (flowid_to_addr s) = asm_val_reg_l a.
Proof.
  destruct (asm_val_reg_l a) eqn:E; pose proof (a_addr _ Hinv) as H; rewrite E in H.
  - exact (proj1 (port_shows _ _ _ H eq_refl)).
  - exact (port_idle _ _ H eq_refl).
Qed.

(** The stages stall from the end on: a stage stalls when the ones after it are
    full and the destination is not ready. *)
Lemma stall_t_eq b c : stall_t a (asm_stores s i b c) = asm_val_reg_t a && negb (as_dst_rdy i).
Proof. unfold stall_t, tcp_hdr_req_rdy_t, stall_o. cbn. by destruct (asm_val_reg_t a), (as_dst_rdy i). Qed.

Lemma stall_l_eq b c :
  stall_l a (asm_stores s i b c) = asm_val_reg_l a && asm_val_reg_t a && negb (as_dst_rdy i).
Proof.
  unfold stall_l. rewrite stall_t_eq. cbn [flowid_lookup_rd_resp_val asm_stores]. rewrite addr_val.
  by destruct (asm_val_reg_l a), (asm_val_reg_t a), (as_dst_rdy i).
Qed.

Lemma stall_a_eq b :
  stall_a a (asm_stores s i b (asm_lookup_rdy s i)) =
  asm_val_reg_a a && asm_val_reg_l a && asm_val_reg_t a && negb (as_dst_rdy i).
Proof.
  unfold stall_a, asm_lookup_rdy. rewrite !stall_l_eq.
  cbn [recv_state_rd_resp_val flowid_lookup_rd_req_rdy asm_stores]. rewrite rx_val, addr_val.
  by destruct (asm_val_reg_a a), (asm_val_reg_l a), (asm_val_reg_t a), (as_dst_rdy i).
Qed.

Lemma stall_r_eq :
  stall_r a w = asm_val_reg_r a && asm_val_reg_a a && asm_val_reg_l a && asm_val_reg_t a && negb (as_dst_rdy i).
Proof.
  unfold stall_r, asm_wires at 1. rewrite stall_a_eq.
  cbn [recv_state_rd_req_rdy asm_wires asm_stores]. unfold asm_recv_rdy. rewrite stall_a_eq, rx_val.
  by destruct (asm_val_reg_r a), (asm_val_reg_a a), (asm_val_reg_l a), (asm_val_reg_t a), (as_dst_rdy i).
Qed.

(** What the memories show is what they hold. *)
Lemma rx_shown :
  asm_val_reg_a a = true → recv_state_rd_resp_data w = rx_of s (tp_flowid (asm_pkt_reg_a a)).
Proof.
  intros E. pose proof (a_rx _ Hinv) as H. rewrite E in H. destruct (port_shows _ _ _ H eq_refl) as [_ Hd].
  cbn [recv_state_rd_resp_data asm_wires asm_stores]. by rewrite port1_data, Hd.
Qed.

Lemma addr_shown :
  asm_val_reg_l a = true → flowid_lookup_rd_resp_data w = addr_of s (tp_flowid (asm_pkt_reg_l a)).
Proof.
  intros E. pose proof (a_addr _ Hinv) as H. rewrite E in H. destruct (port_shows _ _ _ H eq_refl) as [_ Hd].
  cbn [flowid_lookup_rd_resp_data asm_wires asm_stores]. by rewrite Hd.
Qed.

Lemma assembled_eq :
  asm_val_reg_t a = true →
  DstPkt (tp_flowid (asm_pkt_reg_t a)) (ft_host_ip (flowid_lookup_reg_t a)) (ft_dest_ip (flowid_lookup_reg_t a))
    (assembled_tcp_hdr_t a) (tp_payload (asm_pkt_reg_t a)) =
  assemble (Dressed (asm_pkt_reg_t a) (recv_state_reg_t a) (flowid_lookup_reg_t a)).
Proof. intros E. unfold assemble, assembled_tcp_hdr_t, tcp_hdr_assembler. by rewrite E. Qed.

(** The packet that goes from the header stage to the output. *)
Definition moved : list dressed :=
  when (asm_val_reg_t a && as_dst_rdy i) (Dressed (asm_pkt_reg_t a) (recv_state_reg_t a) (flowid_lookup_reg_t a)).

Lemma cycle_moves :
  option_list (c_out hdr_assembler s i) ++ dst_in (assembler s') = dst_in a ++ (assemble <$> moved) ∧
  pkts_in a ++ takes s i = (dr_pkt <$> moved) ++ pkts_in (assembler s') ∧
  reads_in a ++ reads s i = ((λ d, (dr_pkt d, dr_rx d)) <$> moved) ++ reads_in (assembler s') ∧
  lookups_in a ++ lookups s i = ((λ d, (dr_pkt d, dr_addr d)) <$> moved) ++ lookups_in (assembler s').
Proof.
  pose proof (k_rdy _ _ Hok) as Hrdy. unfold takes, reads, lookups, moved, pkts_in, reads_in, lookups_in, dst_in.
  unfold assembler_main_pipe_tx_rdy, stall_i in *.
  cbn [assembler asm_sys_next hdr_assembler_next asm_val_reg_r asm_pkt_reg_r asm_val_reg_a asm_pkt_reg_a asm_val_reg_l
       asm_pkt_reg_l recv_state_reg_l asm_val_reg_t asm_pkt_reg_t recv_state_reg_t flowid_lookup_reg_t asm_val_reg_o
       c_out hdr_assembler main_tx_val main_tx_pkt].
  pose proof rx_shown as Hrx. pose proof addr_shown as Had. pose proof assembled_eq as Has.
  rewrite stall_r_eq. unfold asm_wires in *. rewrite stall_a_eq, stall_l_eq, stall_t_eq in *. cbn [main_tx_val main_tx_pkt asm_stores] in *.
  assert (Hso : ∀ b c, stall_o (asm_stores s i b c) = negb (as_dst_rdy i)) by done.
  unfold dst_of. cbn [flowid_reg_o payload_reg_o flowid_lookup_data_reg_o assembled_tcp_hdr_reg_o assembler asm_sys_next
    hdr_assembler_next]. unfold asm_wires. rewrite !Hso.
  destruct (asm_val_reg_r a), (asm_val_reg_a a), (asm_val_reg_l a), (asm_val_reg_t a), (as_dst_rdy i), (asm_val_reg_o a),
    (as_tx_val i); cbn in *; try (specialize (Hrdy eq_refl)); try done;
    rewrite ?Hrx, ?Had by done; rewrite ?Has by done; by repeat split.
Qed.

Lemma pkt_ok p : p ∈ pkts_in a → flow_ok (tp_flowid p).
Proof. pose proof (a_ok _ Hinv) as H. rewrite Forall_forall in H. apply H. Qed.

Lemma rx_next :
  ram_rel (port1 (asm_rx_store s')) (RamView (contents2 (asm_rx_store s'))
    (if asm_val_reg_a (assembler s') then Some (tp_flowid (asm_pkt_reg_a (assembler s'))) else None)).
Proof.
  pose proof (port1_step zero_rx (mem_wr (as_new_flow i) (nf_recv_state (as_new_flow i)) (as_recv_wr i)) (as_recv_rd i)
    (asm_recv_rd s i) _ _ (a_rx _ Hinv)) as H.
  replace (if asm_val_reg_a (assembler s') then _ else _) with
    (reads_next (if asm_val_reg_a a then Some (tp_flowid (asm_pkt_reg_a a)) else None) (asm_recv_rd s i)).
  - apply H.
    + apply mem_wr_ok; [apply Hinv|apply (k_new _ _ Hok)|apply (k_recv _ _ Hok)].
    + intros E. apply sized_in_range; [apply Hinv|]. apply pkt_ok. unfold pkts_in. cbn in E. rewrite E. set_solver.
  - unfold reads_next. cbn [asm_recv_rd rd_val rd_addr rd_resp_rdy assembler asm_sys_next hdr_assembler_next asm_val_reg_a
      asm_pkt_reg_a]. rewrite stall_r_eq. unfold asm_wires. rewrite stall_a_eq.
    by destruct (asm_val_reg_r a), (asm_val_reg_a a), (asm_val_reg_l a), (asm_val_reg_t a), (as_dst_rdy i).
Qed.

Lemma addr_next :
  ram_rel (flowid_to_addr s') (RamView (contents (flowid_to_addr s'))
    (if asm_val_reg_l (assembler s') then Some (tp_flowid (asm_pkt_reg_l (assembler s'))) else None)).
Proof.
  pose proof (mem1_step zero_four_tuple (addr_wr i) (asm_lookup_rd s i) _ _ (a_addr _ Hinv)) as H.
  cbn [flowid_to_addr asm_sys_next]. rewrite contents_written.
  replace (if asm_val_reg_l _ then _ else _) with
    (reads_next (if asm_val_reg_l a then Some (tp_flowid (asm_pkt_reg_l a)) else None) (asm_lookup_rd s i)).
  - apply H.
    + intros E. apply sized_in_range; [apply Hinv|]. by apply (k_new _ _ Hok).
    + intros E. apply sized_in_range; [apply Hinv|]. apply pkt_ok. unfold pkts_in. cbn in E. rewrite E. set_solver.
  - unfold reads_next. cbn [asm_lookup_rd rd_val rd_addr rd_resp_rdy assembler asm_sys_next hdr_assembler_next asm_val_reg_l
      asm_pkt_reg_l]. unfold asm_wires. rewrite stall_a_eq, !stall_l_eq.
    by destruct (asm_val_reg_a a), (asm_val_reg_l a), (asm_val_reg_t a), (as_dst_rdy i).
Qed.

Lemma asm_inv_next : asm_inv s'.
Proof.
  split.
  - exact rx_next.
  - exact addr_next.
  - apply sized_written, Hinv.
  - cbn [flowid_to_addr asm_sys_next]. rewrite contents_written. apply sized_written, Hinv.
  - destruct cycle_moves as (_ & Hp & _ & _).
    enough (Forall (λ p, flow_ok (tp_flowid p)) (pkts_in a ++ takes s i)) as H
      by (rewrite Hp in H; by apply Forall_app in H as [_ H]).
    apply Forall_app. split; [apply Hinv|]. unfold takes. destruct (sumbool_of_bool (as_tx_val i)) as [E|E]; rewrite E; [|constructor].
    rewrite (k_rdy _ _ Hok E). constructor; [by apply (k_tx _ _ Hok)|constructor].
Qed.

(** While the destination is ready, the packets move on in every cycle. *)
Lemma ready_next :
  as_dst_rdy i = true →
  stage_slots (assembler s') = tail (stage_slots a) ++ [(as_tx_val i, as_tx_pkt i)] ∧
  asm_val_reg_o (assembler s') = asm_val_reg_t a ∧
  takes s i = when (as_tx_val i) (as_tx_pkt i).
Proof.
  intros Hr. unfold stage_slots, takes, assembler_main_pipe_tx_rdy, stall_i.
  cbn [assembler asm_sys_next hdr_assembler_next asm_val_reg_r asm_pkt_reg_r asm_val_reg_a asm_pkt_reg_a asm_val_reg_l
       asm_pkt_reg_l asm_val_reg_t asm_pkt_reg_t asm_val_reg_o main_tx_val main_tx_pkt].
  rewrite stall_r_eq. unfold asm_wires. rewrite stall_a_eq, stall_l_eq, stall_t_eq.
  unfold stall_o. cbn [dst_assembler_tx_rdy asm_stores main_tx_val main_tx_pkt]. rewrite Hr.
  cbn [negb]. rewrite !andb_false_r. cbn [negb]. rewrite !andb_true_r. done.
Qed.
End Cycle.

(** ** Runs *)

Fixpoint asm_oks (ins : list asm_sys_in) (s : asm_sys) : Prop :=
  match ins with [] => True | i :: ins' => asm_ok s i ∧ asm_oks ins' (asm_sys_next false i s) end.

Lemma outputs_opt i ins s :
  omap id (outputs hdr_assembler (i :: ins) s) =
  option_list (c_out hdr_assembler s i) ++ omap id (outputs hdr_assembler ins (asm_sys_next false i s)).
Proof. cbn -[c_out]. by destruct (c_out hdr_assembler s i). Qed.

Lemma asm_run ins s :
  asm_inv s → asm_oks ins s →
  let s1 := after_cycles hdr_assembler ins s in
  asm_inv s1 ∧ ∃ done : list dressed,
    omap id (outputs hdr_assembler ins s) ++ dst_in (assembler s1) = dst_in (assembler s) ++ (assemble <$> done) ∧
    pkts_in (assembler s) ++ over takes ins s = (dr_pkt <$> done) ++ pkts_in (assembler s1) ∧
    reads_in (assembler s) ++ over reads ins s = ((λ d, (dr_pkt d, dr_rx d)) <$> done) ++ reads_in (assembler s1) ∧
    lookups_in (assembler s) ++ over lookups ins s =
      ((λ d, (dr_pkt d, dr_addr d)) <$> done) ++ lookups_in (assembler s1).
Proof.
  revert s. induction ins as [|i ins IH]; intros s Hinv Hok.
  { cbn. split; [done|]. exists []. by rewrite !app_nil_r. }
  destruct Hok as [Hi Hok]. destruct (cycle_moves s i Hinv Hi) as (C1 & C2 & C3 & C4).
  destruct (IH _ (asm_inv_next s i Hinv Hi) Hok) as (I0 & done' & I1 & I2 & I3 & I4).
  split; [exact I0|]. exists (moved s i ++ done'). rewrite outputs_opt. cbn [over].
  change (after_cycles hdr_assembler (i :: ins) s) with (after_cycles hdr_assembler ins (asm_sys_next false i s)).
  rewrite !fmap_app, <- !app_assoc, I1, <- I2, <- I3, <- I4, !app_assoc, C1, C2, C3, C4. done.
Qed.

(** What is offered, as it goes through the stages. *)
Definition slot_of (i : asm_sys_in) : bool * tx_pkt := (as_tx_val i, as_tx_pkt i).
Definition held (l : list (bool * tx_pkt)) : list tx_pkt := l ≫= λ b, when b.1 b.2.

Lemma pkts_in_held a : pkts_in a = held (stage_slots a).
Proof. unfold pkts_in, held. cbn. by rewrite app_nil_r. Qed.

Lemma ready_run ins s :
  asm_inv s → asm_oks ins s → Forall (λ i, as_dst_rdy i = true) ins →
  let s1 := after_cycles hdr_assembler ins s in
  asm_inv s1 ∧ stage_slots (assembler s1) = drop (length ins) (stage_slots (assembler s) ++ (slot_of <$> ins)) ∧
  over takes ins s = held (slot_of <$> ins).
Proof.
  revert s. induction ins as [|i ins IH]; intros s Hinv Hok Hr; [by split_and!|].
  destruct Hok as [Hi Hok]. apply Forall_cons in Hr as [Ri Hr].
  destruct (ready_next s i Hinv Ri) as (S1 & _ & T1).
  destruct (IH _ (asm_inv_next s i Hinv Hi) Hok Hr) as (I1 & I2 & I3).
  cbn zeta in *. change (after_cycles hdr_assembler (i :: ins) s) with (after_cycles hdr_assembler ins (asm_sys_next false i s)).
  split; [exact I1|]. rewrite I2, S1. cbn [over]. rewrite I3, T1. split; [reflexivity|done].
Qed.

Lemma asm_oks_app ins ins' s :
  asm_oks (ins ++ ins') s → asm_oks ins s ∧ asm_oks ins' (after_cycles hdr_assembler ins s).
Proof.
  revert s. induction ins as [|i ins IH]; intros s; [done|]. cbn [asm_oks app]. intros [Hi H].
  destruct (IH _ H) as [H1 H2]. split; [by split|exact H2].
Qed.

(** What is in the stages goes out in five cycles. *)
Lemma asm_flush ins s :
  asm_inv s → asm_oks ins s → Forall (λ i, as_dst_rdy i = true) ins → length ins = 5%nat →
  ∃ done : list dressed,
    omap id (outputs hdr_assembler ins s) = dst_in (assembler s) ++ (assemble <$> done) ∧
    dr_pkt <$> done = pkts_in (assembler s).
Proof.
  intros Hinv Hok Hr Hlen. destruct (asm_run ins s Hinv Hok) as (_ & done & E1 & E2 & _).
  destruct (ready_run ins s Hinv Hok Hr) as (_ & S5 & T). rewrite (pkts_in_held (assembler (after_cycles _ _ _))), S5, T in E2. clear S5 T.
  destruct ins as [|i1 ins]; [done|]. destruct ins as [|i5 ins _] using rev_ind; [done|].
  assert (Ho : asm_val_reg_o (assembler (after_cycles hdr_assembler (i1 :: ins ++ [i5]) s)) = as_tx_val i1).
  { rewrite app_comm_cons in *. apply asm_oks_app in Hok as [Hok _]. apply Forall_app in Hr as [Hr R5].
    apply Forall_cons in R5 as [R5 _]. destruct (ready_run _ s Hinv Hok Hr) as (Hinv4 & S4 & _).
    assert (after_cycles hdr_assembler ((i1 :: ins) ++ [i5]) s =
            asm_sys_next false i5 (after_cycles hdr_assembler (i1 :: ins) s)) as -> by apply fold_left_app.
    destruct (ready_next _ i5 Hinv4 R5) as (_ & -> & _).
    rewrite length_app in Hlen. cbn in Hlen. assert (length (i1 :: ins) = 4%nat) as Hl by (cbn; lia).
    rewrite Hl in S4. by injection S4. }
  cbn [length] in *. assert (length (ins ++ [i5]) = 4%nat) as Hl by lia. rewrite Hl in E2. cbn [stage_slots app drop fmap list_fmap] in E2.
  unfold held at 1 in E2. cbn [mbind list_bind fst snd slot_of] in E2. fold (held (slot_of <$> ins ++ [i5])) in E2.
  rewrite app_assoc in E2. apply app_inv_tail in E2. unfold dst_in at 1 in E1. rewrite Ho in E1. unfold when in *.
  destruct (as_tx_val i1); [|rewrite !app_nil_r in *; eauto].
  destruct done as [|d done _] using rev_ind; [by destruct (pkts_in (assembler s))|].
  rewrite fmap_app in E2. rewrite fmap_app, app_assoc in E1. apply app_inj_tail in E2 as [E2 _].
  apply app_inj_tail in E1 as [E1 _]. exists done. by split.
Qed.

Lemma asm_inv_reset i s :
  sized (contents2 (asm_rx_store s)) → sized (contents (flowid_to_addr s)) → asm_inv (asm_sys_next true i s).
Proof.
  intros Hr Ha. split.
  - apply ram2_reset.
  - apply ram_reset_rel.
  - by apply sized_written.
  - cbn [flowid_to_addr asm_sys_next]. rewrite contents_written. by apply sized_written.
  - constructor.
Qed.
End Assembler.
