(* ===== verification/SendPath.v ===== *)
(** SendPath: all of send_pipe/send_pipe_wrapper.sv with its stores: the stages
    of SendPipe in front of the assembly of headers of HdrAssembler.  The
    packets it sends are those of the schedule, in its order, each with the
    addresses its connection was opened with. *)

From S2P Require Import Prelude Rtl RamDual TcpPkg FlowStores TcpStateMachine.
From S2P Require Import SendStage SendPipe SendSched SendRun HdrAssembler.

(** ** send_pipe_wrapper.sv *)

Record send_path := SendPath { sp_send : sender; sp_asm : asm_sys }.

Record send_path_in := SendPathIn {
  sp_new_flow : new_flow;
  sp_lookup_entry : four_tuple_struct;
  sp_rt_set_val : bool;
  sp_rt_set_flowid : Z;
  sp_recv_tx_wr : wr_req tx_state_struct;
  sp_recv_tx_rd : rd_req_in;
  sp_app_tail_wr : wr_req Z;
  sp_app_tail_rd : rd_req_in;
  sp_recv_head_wr : wr_req Z;
  sp_app_head_rd : rd_req_in;
  sp_recv_rx_wr : wr_req recv_state_entry;
  sp_recv_rx_rd : rd_req_in;
  sp_dst_rdy : bool }.

Section Path.
Variable xs : send_unknowns.
Variable xa : asm_unknowns.

Definition asm_side (i : send_path_in) (val : bool) (pkt : tx_pkt) : asm_sys_in :=
  {| as_tx_val := val; as_tx_pkt := pkt; as_new_flow := sp_new_flow i; as_lookup_entry := sp_lookup_entry i;
     as_recv_wr := sp_recv_rx_wr i; as_recv_rd := sp_recv_rx_rd i; as_dst_rdy := sp_dst_rdy i |}.

Definition path_rdy (s : send_path) (i : send_path_in) : bool :=
  assembler_main_pipe_tx_rdy xa (sp_asm s) (asm_side i false zero_pkt_regs).

Definition path_sender_in (s : send_path) (i : send_path_in) : sender_in :=
  {| si_new_flow := sp_new_flow i; si_assembler_rdy := path_rdy s i; si_rt_set_val := sp_rt_set_val i;
     si_rt_set_flowid := sp_rt_set_flowid i; si_recv_tx_wr := sp_recv_tx_wr i; si_recv_tx_rd := sp_recv_tx_rd i;
     si_app_tail_wr := sp_app_tail_wr i; si_app_tail_rd := sp_app_tail_rd i; si_recv_head_wr := sp_recv_head_wr i;
     si_app_head_rd := sp_app_head_rd i |}.

Definition path_asm_in (s : send_path) (i : send_path_in) : asm_sys_in :=
  let p := main_pipe (sp_send s) in
  asm_side i (main_pipe_assembler_tx_val p (send_wires xs (sp_send s) (path_sender_in s i)))
    (TxPkt (flowid_reg_w p) (tx_pkt_seq_num_n (numbered_reg_w p)) (payload_buf_n (numbered_reg_w p))).

Definition send_path_next (rst : bool) (i : send_path_in) (s : send_path) : send_path :=
  {| sp_send := sender_next xs rst (path_sender_in s i) (sp_send s);
     sp_asm := asm_sys_next xa rst (path_asm_in s i) (sp_asm s) |}.

Definition send_pipe_wrapper : circuit send_path send_path_in (option dst_pkt) := Circuit
  (λ s i, c_out (hdr_assembler xa) (sp_asm s) (path_asm_in s i)) send_path_next.

(** ** The two parts of a run *)

Definition parts {B} (f : send_path → send_path_in → B) : list send_path_in → send_path → list B :=
  fix go ins s := match ins with [] => [] | i :: ins' => f s i :: go ins' (send_path_next false i s) end.
Abbreviation sender_ins := (parts path_sender_in).
Abbreviation asm_ins := (parts path_asm_in).

Lemma after_parts ins s :
  sp_send (after_cycles send_pipe_wrapper ins s) = after_cycles (send_pipe xs) (sender_ins ins s) (sp_send s) ∧
  sp_asm (after_cycles send_pipe_wrapper ins s) = after_cycles (hdr_assembler xa) (asm_ins ins s) (sp_asm s) ∧
  outputs send_pipe_wrapper ins s = outputs (hdr_assembler xa) (asm_ins ins s) (sp_asm s).
Proof.
  revert s. induction ins as [|i ins IH]; intros s; [done|]. destruct (IH (send_path_next false i s)) as (H1 & H2 & H3).
  split_and!; [exact H1|exact H2|]. cbn [outputs parts]. f_equal. exact H3.
Qed.

(** A packet is offered only when the assembly takes it. *)
Lemma path_rdy_eq s i : assembler_main_pipe_tx_rdy xa (sp_asm s) (path_asm_in s i) = path_rdy s i.
Proof. done. Qed.

Lemma offered_taken s i : as_tx_val (path_asm_in s i) = true → path_rdy s i = true.
Proof.
  cbn [as_tx_val path_asm_in asm_side]. unfold main_pipe_assembler_tx_val, stall_w.
  cbn [assembler_tx_rdy send_wires store_wires si_assembler_rdy path_sender_in].
  destruct (val_reg_w _), (path_rdy s i); done.
Qed.

Lemma takes_eq s i :
  takes xa (sp_asm s) (path_asm_in s i) = option_list (so_tx (c_out (send_pipe xs) (sp_send s) (path_sender_in s i))).
Proof.
  unfold takes. rewrite path_rdy_eq. pose proof (offered_taken s i) as H.
  cbn [as_tx_val as_tx_pkt path_asm_in asm_side] in *. cbn [c_out send_pipe so_tx].
  destruct (main_pipe_assembler_tx_val _ _); [by rewrite H|done].
Qed.

Lemma takes_run ins s :
  over xa (takes xa) (asm_ins ins s) (sp_asm s) = omap so_tx (outputs (send_pipe xs) (sender_ins ins s) (sp_send s)).
Proof.
  revert s. induction ins as [|i ins IH]; intros s; [done|]. cbn [parts over]. rewrite takes_eq.
  rewrite (proj1 (outputs_cons _ _ _ _)). f_equal. apply (IH (send_path_next false i s)).
Qed.

(** ** What the inputs may be *)

Record path_ok (i : send_path_in) : Prop := {
  m_new : nf_val (sp_new_flow i) = true → flow_ok (nf_flowid (sp_new_flow i));
  m_recv_tx : wr_val (sp_recv_tx_wr i) = true → flow_ok (wr_addr (sp_recv_tx_wr i));
  m_recv_rx : wr_val (sp_recv_rx_wr i) = true → flow_ok (wr_addr (sp_recv_rx_wr i));
  m_app : wr_val (sp_app_tail_wr i) = true → flow_ok (wr_addr (sp_app_tail_wr i)) }.

(** The connections opened, with their addresses. *)
Definition entry_of (i : send_path_in) : list (Z * four_tuple_struct) :=
  if nf_val (sp_new_flow i) then [(nf_flowid (sp_new_flow i), sp_lookup_entry i)] else [].
Definition entries (ins : list send_path_in) : list (Z * four_tuple_struct) := ins ≫= entry_of.

Lemma entries_opens ins s : opens (sender_ins ins s) = (entries ins).*1.
Proof.
  revert s. induction ins as [|i ins IH]; intros s; [done|]. unfold entries in *. cbn [parts mbind list_bind].
  rewrite opens_cons, fmap_app, <- (IH (send_path_next false i s)). cbn [si_new_flow path_sender_in].
  unfold entry_of. by destruct (nf_val (sp_new_flow i)).
Qed.

Lemma sender_ins_ok ins s : Forall path_ok ins → Forall in_ok (sender_ins ins s).
Proof.
  intros H. revert s. induction H as [|i ins Hi _ IH]; intros s; constructor; [|apply IH].
  split; apply Hi.
Qed.

(** ** The invariant *)

Record path_inv (tbl : list (Z * four_tuple_struct)) (l : list Z) (rd : option Z) (g : seen) (q : schedule)
    (s : send_path) : Prop := {
  y_send : inv xs l rd g q (sp_send s);
  y_asm : asm_inv (sp_asm s);
  y_tbl : waiting q ≡ₚ tbl.*1;
  y_addr : ∀ f e, (f, e) ∈ tbl → contents (flowid_to_addr (sp_asm s)) !! Z.to_nat f = Some e;
  y_pkts : ∀ p, p ∈ pkts_in (assembler (sp_asm s)) → tp_flowid p ∈ tbl.*1 }.

Section Cycle.
Context (tbl : list (Z * four_tuple_struct)) (l : list Z) (rd : option Z) (g : seen) (q : schedule).
Context (s : send_path) (i : send_path_in).
Hypothesis Hinv : path_inv tbl l rd g q s.
Hypothesis Hi : path_ok i.
Hypothesis Hnew : NoDup (tbl.*1 ++ (entry_of i).*1).

Abbreviation si := (path_sender_in s i).
Abbreviation ai := (path_asm_in s i).
Abbreviation s' := (send_path_next false i s).

Lemma sender_cycle_ok : cycle_ok xs l rd g q (sp_send s) si.
Proof.
  split; [apply Hinv|split; apply Hi|]. cbn [si_new_flow path_sender_in]. intros E Hf. unfold entry_of in Hnew.
  rewrite E in Hnew. apply NoDup_app in Hnew as (_ & Hd & _). rewrite (y_tbl _ _ _ _ _ _ Hinv) in Hf.
  apply (Hd _ Hf). set_solver.
Qed.

(** What is sent belongs to a connection that was opened. *)
Lemma sent_opened p : p ∈ takes xa (sp_asm s) ai → tp_flowid p ∈ tbl.*1.
Proof.
  rewrite takes_eq. cbn [c_out send_pipe so_tx]. unfold main_pipe_assembler_tx_val.
  destruct (val_reg_w (main_pipe (sp_send s))) eqn:E; [|intros []%not_elem_of_nil].
  destruct (_ && _ && _); [|intros []%not_elem_of_nil]. intros ->%list_elem_of_singleton. cbn [tp_flowid].
  rewrite <- (y_tbl _ _ _ _ _ _ Hinv), (i_wait _ _ _ _ _ _ (y_send _ _ _ _ _ _ Hinv)). unfold in_pipe. rewrite E. set_solver.
Qed.

Lemma opened_ok f : f ∈ tbl.*1 → flow_ok f.
Proof.
  rewrite <- (y_tbl _ _ _ _ _ _ Hinv). apply Forall_forall. apply (i_ok _ _ _ _ _ _ (y_send _ _ _ _ _ _ Hinv)).
Qed.

Lemma asm_cycle_ok : asm_ok xa (sp_asm s) ai.
Proof.
  split; [intros E; rewrite path_rdy_eq; by apply offered_taken| |apply Hi|apply Hi].
  intros E. apply opened_ok, sent_opened. unfold takes. rewrite path_rdy_eq, (offered_taken s i E), E. set_solver.
Qed.

(** A connection is looked up with the addresses it was opened with. *)
Lemma looked_up p ad : (p, ad) ∈ lookups xa (sp_asm s) ai → (tp_flowid p, ad) ∈ tbl.
Proof.
  unfold lookups. destruct (asm_val_reg_l (assembler (sp_asm s))) eqn:E; [|intros []%not_elem_of_nil].
  destruct (_ && _); [|intros []%not_elem_of_nil]. intros [= -> ->]%list_elem_of_singleton.
  assert (Hp : tp_flowid (asm_pkt_reg_l (assembler (sp_asm s))) ∈ tbl.*1).
  { apply (y_pkts _ _ _ _ _ _ Hinv). unfold pkts_in. rewrite E. set_solver. }
  apply list_elem_of_fmap in Hp as ([f e] & -> & He). cbn [fst]. unfold addr_of.
  by rewrite (y_addr _ _ _ _ _ _ Hinv f e He).
Qed.

Lemma path_inv_next :
  path_inv (tbl ++ entry_of i)
    (if enters_rt xs (sp_send s) si then tail (l ++ newcomers xs (sp_send s) si) else l ++ newcomers xs (sp_send s) si)
    (if val_reg_rt (main_pipe (sp_send s)) then Some (flowid_reg_rt (main_pipe (sp_send s))) else None)
    (seen_next xs g (sp_send s) si) (schedule_after q (cycle_events xs g (sp_send s) si)) s'.
Proof.
  pose proof (m_new _ Hi) as Hok. split.
  - exact (sender_inv_next xs l rd g q (sp_send s) si sender_cycle_ok).
  - apply asm_inv_next; [apply Hinv|apply asm_cycle_ok].
  - rewrite waiting_after, cycle_opened, (y_tbl _ _ _ _ _ _ Hinv), fmap_app. cbn [si_new_flow path_sender_in].
    unfold entry_of. by destruct (nf_val (sp_new_flow i)).
  - intros f e He. cbn [sp_asm send_path_next flowid_to_addr asm_sys_next]. rewrite contents_written.
    rewrite written_lookup; [|apply Hinv| |exact Hok].
    + cbn [addr_wr wr_val wr_addr wr_dat path_asm_in asm_side as_new_flow as_lookup_entry].
      apply elem_of_app in He as [He|He].
      * rewrite (y_addr _ _ _ _ _ _ Hinv f e He).
        destruct (sumbool_of_bool (nf_val (sp_new_flow i))) as [E|E]; rewrite E; [|done].
        destruct (Z.eqb_spec (nf_flowid (sp_new_flow i)) f) as [Ef|]; [|done]. exfalso.
        unfold entry_of in Hnew. rewrite E in Hnew. apply NoDup_app in Hnew as (_ & Hd & _). apply (Hd f); [|set_solver].
        by apply (list_elem_of_fmap_2 fst) in He.
      * unfold entry_of in He. destruct (nf_val (sp_new_flow i)); [|by apply not_elem_of_nil in He].
        apply list_elem_of_singleton in He as [= -> ->]. by rewrite Z.eqb_refl.
    + apply elem_of_app in He as [He|He].
      * apply opened_ok. by apply (list_elem_of_fmap_2 fst) in He.
      * unfold entry_of in He. destruct (nf_val (sp_new_flow i)); [|by apply not_elem_of_nil in He].
        apply list_elem_of_singleton in He as [= -> ->]. by apply Hok.
  - intros p Hp. rewrite fmap_app. apply elem_of_app. left.
    destruct (cycle_moves xa (sp_asm s) ai (y_asm _ _ _ _ _ _ Hinv) asm_cycle_ok) as (_ & E & _ & _).
    assert (Hp' : p ∈ pkts_in (assembler (sp_asm s)) ++ takes xa (sp_asm s) ai)
      by (rewrite E; apply elem_of_app; by right).
    apply elem_of_app in Hp' as [Hp'|Hp']; [by apply (y_pkts _ _ _ _ _ _ Hinv)|by apply sent_opened].
Qed.
End Cycle.

Lemma path_run tbl l rd g q s ins :
  path_inv tbl l rd g q s → Forall path_ok ins → NoDup (tbl.*1 ++ (entries ins).*1) →
  asm_oks xa (asm_ins ins s) (sp_asm s) ∧
  Forall (λ d, (tp_flowid d.1, d.2) ∈ tbl ++ entries ins) (over xa (lookups xa) (asm_ins ins s) (sp_asm s)).
Proof.
  revert tbl l rd g q s. induction ins as [|i ins IH]; intros tbl l rd g q s Hinv Hok Hd; [by split|].
  apply Forall_cons in Hok as [Hi Hok]. unfold entries in Hd. cbn [mbind list_bind] in Hd.
  rewrite fmap_app, app_assoc in Hd. pose proof (proj1 (proj1 (NoDup_app _ _) Hd)) as Hnew.
  pose proof (path_inv_next tbl l rd g q s i Hinv Hi Hnew) as Hinv'. rewrite <- fmap_app in Hd.
  destruct (IH _ _ _ _ _ _ Hinv' Hok Hd) as [H1 H2].
  cbn [parts over asm_oks]. unfold entries in *. cbn [mbind list_bind]. rewrite app_assoc. split.
  - split; [by apply (asm_cycle_ok tbl l rd g q)|exact H1].
  - apply Forall_app. split; [|exact H2]. apply Forall_forall. intros [p ad] Hp. cbn [fst snd].
    apply elem_of_app. left. apply elem_of_app. left. by apply (looked_up tbl l rd g q s i Hinv).
Qed.

(** The memories have a place per connection. *)
Definition path_sized (s : send_path) : Prop :=
  all_sized (sp_send s) ∧ sized (contents2 (asm_rx_store (sp_asm s))) ∧ sized (contents (flowid_to_addr (sp_asm s))).

Lemma path_inv_reset i s :
  path_sized s → let s0 := send_path_next true i s in path_inv [] [] None unseen (start xs (sp_send s0)) s0.
Proof.
  intros (H1 & H2 & H3) s0. split.
  - by apply sender_inv_reset.
  - by apply asm_inv_reset.
  - done.
  - intros f e []%not_elem_of_nil.
  - intros p []%not_elem_of_nil.
Qed.

(** The packets of a run, and that the assembly goes on. *)
Lemma path_sends i0 s ins :
  path_sized s → Forall path_ok ins → NoDup (entries ins).*1 →
  let s0 := send_path_next true i0 s in let s1 := after_cycles send_pipe_wrapper ins s0 in
  let ts := turns (start xs (sp_send s0)) (events xs unseen (sender_ins ins s0) (sp_send s0)) in
  asm_inv (sp_asm s0) ∧ asm_oks xa (asm_ins ins s0) (sp_asm s0) ∧ asm_inv (sp_asm s1) ∧
  ∃ done : list dressed,
    omap id (outputs send_pipe_wrapper ins s0) ++ dst_in (assembler (sp_asm s1)) = assemble <$> done ∧
    omap pkt_of ts = (dr_pkt <$> done) ++ pkts_in (assembler (sp_asm s1)) ∧
    over xa (reads xa) (asm_ins ins s0) (sp_asm s0) =
      ((λ d, (dr_pkt d, dr_rx d)) <$> done) ++ reads_in (assembler (sp_asm s1)) ∧
    Forall (λ d, (tp_flowid (dr_pkt d), dr_addr d) ∈ entries ins) done.
Proof.
  intros Hs Hok Hd s0 s1 ts. pose proof (path_inv_reset i0 s Hs) as Hinv. fold s0 in Hinv. cbn zeta in Hinv.
  destruct (path_run _ _ _ _ _ _ ins Hinv Hok Hd) as [Ho Hl].
  destruct (asm_run xa _ _ (y_asm _ _ _ _ _ _ Hinv) Ho) as (Hinv1 & done & E1 & E2 & E3 & E4).
  destruct (run_inv xs _ _ _ _ _ (sender_ins ins s0) (y_send _ _ _ _ _ _ Hinv) (sender_ins_ok ins s0 Hok)) as (_ & Et & _).
  { rewrite (entries_opens ins s0). exact Hd. }
  destruct (after_parts ins s0) as (_ & Ea & Eo). fold s1 in Ea. rewrite <- Ea, takes_run in *. cbn zeta in Et.
  split; [apply Hinv|]. split; [exact Ho|]. split; [exact Hinv1|].
  exists done. rewrite Eo. split_and!; [exact E1| |exact E3|].
  - unfold ts. rewrite <- Et. exact E2.
  - apply Forall_forall. intros d Hin. rewrite Forall_forall in Hl.
    assert (H : (dr_pkt d, dr_addr d) ∈ over xa (lookups xa) (asm_ins ins s0) (sp_asm s0)).
    { change (lookups_in (assembler (sp_asm s0))) with (@nil (tx_pkt * four_tuple_struct)) in E4.
      cbn [app] in E4. rewrite E4. apply elem_of_app. left. by apply (list_elem_of_fmap_2 (λ d, (dr_pkt d, dr_addr d))). }
    by apply (Hl _ H).
Qed.

Lemma window_open rx : window rx ≠ 0.
Proof. unfold window. by destruct (Z.eqb_spec (rx_curr_wnd_size rx) 0). Qed.

(** C15: what goes to the frontend.  After a cycle of reset, whatever the
    memories held, and for any connections opened, each once: the packets that
    leave are those of the turns of the schedule, in their order, none lost and
    none twice, but for the at most five on their way; each with the addresses
    and ports its connection was opened with, the sequence number and the
    payload of its turn, and the acknowledged number and the window its
    connection had when they were read for it; the window is never 0. *)
Theorem send_pipe_wrapper_sends i0 s ins :
  path_sized s → Forall path_ok ins → NoDup (entries ins).*1 →
  let s0 := send_path_next true i0 s in let s1 := after_cycles send_pipe_wrapper ins s0 in
  let ts := turns (start xs (sp_send s0)) (events xs unseen (sender_ins ins s0) (sp_send s0)) in
  ∃ done : list dressed,
    omap id (outputs send_pipe_wrapper ins s0) ++ dst_in (assembler (sp_asm s1)) = assemble <$> done ∧
    omap pkt_of ts = (dr_pkt <$> done) ++ pkts_in (assembler (sp_asm s1)) ∧
    over xa (reads xa) (asm_ins ins s0) (sp_asm s0) =
      ((λ d, (dr_pkt d, dr_rx d)) <$> done) ++ reads_in (assembler (sp_asm s1)) ∧
    Forall (λ d, (tp_flowid (dr_pkt d), dr_addr d) ∈ entries ins ∧ win_size (dp_tcp_hdr (assemble d)) ≠ 0) done.
Proof.
  intros Hs Hok Hd s0 s1 ts. destruct (path_sends i0 s ins Hs Hok Hd) as (_ & _ & _ & done & E1 & E2 & E3 & E4).
  exists done. split_and!; [exact E1|exact E2|exact E3|]. eapply Forall_impl; [exact E4|]. intros d H.
  split; [exact H|]. apply window_open.
Qed.

Lemma parts_app {B} (f : send_path → send_path_in → B) ins ins' s :
  parts f (ins ++ ins') s = parts f ins s ++ parts f ins' (after_cycles send_pipe_wrapper ins s).
Proof. revert s. induction ins as [|i ins IH]; intros s; [done|]. cbn [parts app]. f_equal. apply IH. Qed.

Lemma outputs_app ins ins' s :
  outputs send_pipe_wrapper (ins ++ ins') s =
  outputs send_pipe_wrapper ins s ++ outputs send_pipe_wrapper ins' (after_cycles send_pipe_wrapper ins s).
Proof. revert s. induction ins as [|i ins IH]; intros s; [done|]. cbn [outputs app]. f_equal. apply IH. Qed.

(** C16: the packet of a turn leaves within five cycles in which the frontend
    takes packets: after any run from reset and five such cycles, the packets
    that have left are exactly those of the turns of the run, in their order. *)
Theorem send_pipe_wrapper_delivers i0 s ins five :
  path_sized s → Forall path_ok (ins ++ five) → NoDup (entries (ins ++ five)).*1 →
  Forall (λ i, sp_dst_rdy i = true) five → length five = 5%nat →
  let s0 := send_path_next true i0 s in
  let ts := turns (start xs (sp_send s0)) (events xs unseen (sender_ins ins s0) (sp_send s0)) in
  ∃ done : list dressed,
    omap id (outputs send_pipe_wrapper (ins ++ five) s0) = assemble <$> done ∧ omap pkt_of ts = dr_pkt <$> done.
Proof.
  intros Hs Hok Hd Hr Hlen s0 ts. destruct (path_sends i0 s _ Hs Hok Hd) as (_ & Ho & _). fold s0 in Ho.
  rewrite parts_app in Ho. apply asm_oks_app in Ho as [_ Ho].
  assert (Hd' : NoDup (entries ins).*1)
    by (unfold entries in Hd; rewrite bind_app, fmap_app in Hd; by apply NoDup_app in Hd as (? & _ & _)).
  apply Forall_app in Hok as [Hok _].
  destruct (path_sends i0 s ins Hs Hok Hd') as (_ & _ & Hinv & done & E1 & E2 & _). fold s0 ts in Hinv, E1, E2.
  rewrite <- (proj1 (proj2 (after_parts ins s0))) in Ho.
  destruct (asm_flush xa _ _ Hinv Ho) as (done5 & F1 & F2).
  { clear -Hr. generalize (after_cycles send_pipe_wrapper ins s0).
    induction Hr as [|i five Hi _ IH]; intros s1; constructor; [exact Hi|apply IH]. }
  { clear -Hlen. rewrite <- Hlen. generalize (after_cycles send_pipe_wrapper ins s0). clear Hlen.
    induction five as [|i five IH]; intros s1; [done|]. cbn [parts length]. f_equal. apply IH. }
  exists (done ++ done5). rewrite outputs_app, omap_app, !fmap_app, E2, F2. split; [|done].
  rewrite (proj2 (proj2 (after_parts five _))), F1, app_assoc, E1. done.
Qed.
End Path.

(** ** send_merger.sv

    The answers of the handshake pipeline go before the packets of the send
    pipeline. *)

Record rx_send_queue_struct := RxSendQueue { rs_src_ip : Z; rs_dst_ip : Z; rs_flowid : Z; rs_tcp_hdr : tcp_pkt_hdr }.

Record merger_out := MergerOut {
  merger_tx_pipe_tx_rdy : bool;
  rx_pipe_merger_tx_deq_req_val : bool;
  send_dst_tx_val : bool;
  send_dst_tx : dst_pkt }.

Definition send_merger (tx_pipe_val : bool) (tx_pipe_tx : dst_pkt) (rx_deq_data : rx_send_queue_struct)
    (rx_empty dst_rdy : bool) : merger_out :=
  let use_rx_pipe_send := negb rx_empty in
  let deq := use_rx_pipe_send && dst_rdy in
  {| merger_tx_pipe_tx_rdy := negb use_rx_pipe_send && dst_rdy;
     rx_pipe_merger_tx_deq_req_val := deq;
     send_dst_tx_val := if use_rx_pipe_send then deq else tx_pipe_val;
     send_dst_tx :=
       if use_rx_pipe_send
       then DstPkt (rs_flowid rx_deq_data) (rs_src_ip rx_deq_data) (rs_dst_ip rx_deq_data) (rs_tcp_hdr rx_deq_data)
              zero_payload
       else tx_pipe_tx |}.

(** What is taken from the two sources is what is handed on. *)
Lemma send_merger_transfers val tx rx empty rdy :
  let o := send_merger val tx rx empty rdy in
  (if send_dst_tx_val o && rdy then [send_dst_tx o] else []) =
  (if rx_pipe_merger_tx_deq_req_val o
   then [DstPkt (rs_flowid rx) (rs_src_ip rx) (rs_dst_ip rx) (rs_tcp_hdr rx) zero_payload] else []) ++
  (if val && merger_tx_pipe_tx_rdy o then [tx] else []).
Proof. destruct val, empty, rdy; done. Qed.

(** An answer is valid only while the destination is ready: a destination that
    waits for it never takes it. *)
Lemma send_merger_waits val tx rx : send_dst_tx_val (send_merger val tx rx false false) = false.
Proof. done. Qed.

(** ** A concrete run

    The run of SendRun, with registers of rubbish in the assembly of headers,
    too: the frontend is not ready in two cycles, and the receive state of
    connection 3 changes on the way. *)

Definition junk_addr : ram four_tuple_struct :=
  {| mem_wr_req_val_reg := true; mem_wr_req_addr_reg := 3; mem_wr_req_data_reg := FourTuple 9 9 9 9;
     mem_rd_req_val_reg := true; mem_rd_req_addr_reg := 3;
     tcp_data_mem := BsgMem (replicate 16 (FourTuple 8 8 8 8)) (Some 3) |}.
Definition sample_path : send_path :=
  {| sp_send := sample_sender;
     sp_asm :=
       {| assembler :=
            Assembler true (TxPkt 1 2 (PayloadBuf 3 4)) true (TxPkt 5 6 (PayloadBuf 7 8)) true (TxPkt 5 6 (PayloadBuf 7 8))
              (RecvStateEntry 1 2) true (TxPkt 5 6 (PayloadBuf 7 8)) (RecvStateEntry 1 2) (FourTuple 1 2 3 4) true 5
              (PayloadBuf 7 8) (FourTuple 1 2 3 4) zero_hdr;
          asm_rx_store := junk_ram2 (RecvStateEntry 5 6);
          flowid_to_addr := junk_addr |} |}.

Definition sample_path_in (i : sender_in) (entry : four_tuple_struct) (rx : option (Z * recv_state_entry)) : send_path_in :=
  {| sp_new_flow := si_new_flow i; sp_lookup_entry := entry; sp_rt_set_val := si_rt_set_val i;
     sp_rt_set_flowid := si_rt_set_flowid i; sp_recv_tx_wr := si_recv_tx_wr i; sp_recv_tx_rd := si_recv_tx_rd i;
     sp_app_tail_wr := si_app_tail_wr i; sp_app_tail_rd := si_app_tail_rd i; sp_recv_head_wr := si_recv_head_wr i;
     sp_app_head_rd := si_app_head_rd i;
     sp_recv_rx_wr := WrReq (bool_decide (is_Some rx)) (default 0 (fst <$> rx)) (default zero_rx (snd <$> rx));
     sp_recv_rx_rd := no_rd; sp_dst_rdy := si_assembler_rdy i |}.
Definition plain (i : sender_in) : send_path_in := sample_path_in i (FourTuple 7 7 7 7) None.
Definition sample_path_ins : list send_path_in :=
  [sample_path_in (with_flow 3 sample_first) (FourTuple 20 10 80 4000) None;
   sample_path_in (with_flow 5 700) (FourTuple 20 11 80 5000) None;
   sample_path_in (with_tail 3 (tx_ptr (sample_first + 2500))) (FourTuple 7 7 7 7) (Some (3, RecvStateEntry 900 4096))] ++
  replicate 6 (plain idle) ++ [plain stalled; plain stalled] ++
  [sample_path_in idle (FourTuple 7 7 7 7) (Some (3, RecvStateEntry 1300 0))] ++ replicate 3 (plain idle).
Definition sample_xa : asm_unknowns := AsmUnknowns (RecvStateEntry 77 78) (FourTuple 79 80 81 82).
Definition sample_path_reset : send_path := send_path_next sample_x sample_xa true (plain idle) sample_path.

Definition path_okb (i : send_path_in) : bool :=
  implb (nf_val (sp_new_flow i)) (flow_okb (nf_flowid (sp_new_flow i))) &&
  implb (wr_val (sp_recv_tx_wr i)) (flow_okb (wr_addr (sp_recv_tx_wr i))) &&
  implb (wr_val (sp_recv_rx_wr i)) (flow_okb (wr_addr (sp_recv_rx_wr i))) &&
  implb (wr_val (sp_app_tail_wr i)) (flow_okb (wr_addr (sp_app_tail_wr i))).

Lemma path_okb_ok ins : forallb path_okb ins = true → Forall path_ok ins.
Proof.
  induction ins as [|i ins IH]; [done|]. cbn [forallb]. intros [Hi Hins]%andb_true_iff. constructor; [|by apply IH].
  unfold path_okb in Hi. rewrite !andb_true_iff in Hi. destruct Hi as [[[H1 H2] H3] H4].
  split; intros E; apply flow_okb_ok; by eapply implb_ok.
Qed.

Lemma sample_path_sized : path_sized sample_path.
Proof. by repeat split. Qed.

(** Flow, addresses, ports, numbers, window and length of what is sent. *)
Definition summary (d : dst_pkt) : list Z :=
  let h := dp_tcp_hdr d in
  [dp_flowid d; dp_src_ip d; dp_dst_ip d; src_port h; dst_port h; seq_num h; ack_num h; win_size h;
   payload_len (dp_payload d)].

Lemma send_pipe_wrapper_sends_witness :
  let c := send_pipe_wrapper sample_x sample_xa in let s1 := after_cycles c sample_path_ins sample_path_reset in
  (∃ done : list dressed,
     omap id (outputs c sample_path_ins sample_path_reset) ++ dst_in (assembler (sp_asm s1)) = assemble <$> done ∧
     Forall (λ d, (tp_flowid (dr_pkt d), dr_addr d) ∈ entries sample_path_ins ∧ win_size (dp_tcp_hdr (assemble d)) ≠ 0)
       done) ∧
  summary <$> omap id (outputs c sample_path_ins sample_path_reset) =
  [[3; 20; 10; 80; 4000; sample_first; 900; 4096; 1024]; [3; 20; 10; 80; 4000; 0; 900; 4096; 1024]].
Proof.
  split; [|vm_compute; reflexivity].
  destruct (send_pipe_wrapper_sends sample_x sample_xa (plain idle) sample_path sample_path_ins sample_path_sized)
    as (done & H1 & _ & _ & H2).
  - apply path_okb_ok. vm_compute. reflexivity.
  - apply (bool_decide_unpack _). vm_compute. exact I.
  - exists done. split; assumption.
Defined.

Lemma send_pipe_wrapper_delivers_witness :
  let c := send_pipe_wrapper sample_x sample_xa in
  (∃ done : list dressed,
     omap id (outputs c (sample_path_ins ++ replicate 5 (plain idle)) sample_path_reset) = assemble <$> done) ∧
  summary <$> omap id (outputs c (sample_path_ins ++ replicate 5 (plain idle)) sample_path_reset) =
  [[3; 20; 10; 80; 4000; sample_first; 900; 4096; 1024]; [3; 20; 10; 80; 4000; 0; 900; 4096; 1024];
   [3; 20; 10; 80; 4000; 1024; 1300; 1; 448]].
Proof.
  split; [|vm_compute; reflexivity].
  destruct (send_pipe_wrapper_delivers sample_x sample_xa (plain idle) sample_path sample_path_ins
              (replicate 5 (plain idle)) sample_path_sized) as (done & H1 & _).
  - apply path_okb_ok. vm_compute. reflexivity.
  - apply (bool_decide_unpack _). vm_compute. exact I.
  - apply Forall_replicate. reflexivity.
  - reflexivity.
  - exists done. exact H1.
Defined.
