(* ===== verification/Engine.v ===== *)
(** Engine: the receive and the send pipeline over the stores they share, with
    the queue of the answers of the handshake pipeline and the merger, as wired
    in tcp_engine_wrapper.sv.  What the send pipeline acknowledges is what the
    receive pipeline has received. *)

From stdpp Require Import functions.
From S2P Require Import Prelude Rtl RamDual Fifo Fifo2w TcpPkg AckEngines EstArbiter FlowStores EstPipe.
From S2P Require Import EstBackend EstRun EstFlow TcpStateMachine SendStage SendPipe SendSched SendRun HdrAssembler SendPath.

(** ** tcp_engine_wrapper.sv

    The state of the connections and the receive state are in the backend; the
    send pipeline reads and writes them there. *)

Record engine := Engine {
  en_recv : backend;
  en_main : protocol_logic_pipe;
  en_sched : fifo2 Z;
  en_flags : rt_timeout_flag_store;
  en_send_qs : payload_pointers;
  en_asm : hdr_assembler_pipe;
  en_addr : ram four_tuple_struct;
  rx_send_queue : fifo rx_send_queue_struct }.

Record engine_in := EngineIn {
  ei_hdr_val : bool;
  ei_pkt : est_pkt;
  ei_new_flow : new_flow;
  ei_lookup_entry : four_tuple_struct;
  ei_fsm_rx_rd : rd_req_in;
  ei_fsm_tx_rd : rd_req_in;
  ei_answer : option rx_send_queue_struct;
  ei_rx_head_wr : wr_req Z;
  ei_rx_head_rd : rd_req_in;
  ei_commit_wr : wr_req Z;
  ei_commit_rd0 : rd_req_in;
  ei_commit_rd1 : rd_req_in;
  ei_store_buf_q_full : bool;
  ei_tx_tail_wr : wr_req Z;
  ei_tx_tail_rd : rd_req_in;
  ei_tx_head_rd : rd_req_in;
  ei_dst_rdy : bool }.

Record engine_out := EngineOut {
  eo_recv : backend_out;
  eo_answers_full : bool;
  eo_tx : option dst_pkt }.

Definition answers_log2 : nat := 2.
Definition zero_answer : rx_send_queue_struct := RxSendQueue 0 0 0 zero_hdr.

Section Engine.
Variable x : unknowns.
Variable xs : send_unknowns.
Variable xa : asm_unknowns.
Variable xq : rx_send_queue_struct.

(** The send side, with the stores. *)
Definition path_of (e : engine) : send_path :=
  {| sp_send := Sender (en_main e) (en_sched e) (en_flags e) (tx_store (en_recv e)) (en_send_qs e);
     sp_asm := AsmSys (en_asm e) (rx_store (en_recv e)) (en_addr e) |}.

(** The merger: answers go first. *)
Definition engine_merger (e : engine) (i : engine_in) : merger_out :=
  send_merger (asm_val_reg_o (en_asm e)) (dst_of (en_asm e)) (default xq (rd_resp_data (fifo_mem (rx_send_queue e))))
    (fifo_empty answers_log2 (rx_send_queue e)) (ei_dst_rdy i).

(** The inputs of the receive side, before the send side is looked at. *)
Definition recv_base (i : engine_in) (send_rx_rd send_tx_rd : rd_req_in) (send_tx_wr : wr_req tx_state_struct) : backend_in :=
  {| bi_hdr_val := ei_hdr_val i; bi_pkt := ei_pkt i; bi_new_flow := ei_new_flow i;
     bi_fsm_rx_rd := ei_fsm_rx_rd i; bi_fsm_tx_rd := ei_fsm_tx_rd i;
     bi_send_rx_rd := send_rx_rd; bi_send_tx_rd := send_tx_rd; bi_send_tx_wr := send_tx_wr;
     bi_app_head_wr := ei_rx_head_wr i; bi_app_head_rd := ei_rx_head_rd i;
     bi_commit_wr := ei_commit_wr i; bi_commit_rd0 := ei_commit_rd0 i; bi_commit_rd1 := ei_commit_rd1 i;
     bi_tx_head_ptr_wr_rdy := head_ptr_wr_req_rdy (ei_new_flow i);
     bi_store_buf_q_full := ei_store_buf_q_full i |}.

Definition engine_arb (e : engine) (i : engine_in) : arb_in :=
  sys_arb_in x (en_recv e) (recv_base i (RdReq false 0 false) (RdReq false 0 false) (WrReq false 0 zero_tx)).

(** The writes of the receive side and its requests to send again. *)
Definition engine_path_in (e : engine) (i : engine_in) : send_path_in :=
  let p := est_flow_pipe (en_recv e) in
  {| sp_new_flow := ei_new_flow i;
     sp_lookup_entry := ei_lookup_entry i;
     sp_rt_set_val := set_rt_flag_val p;
     sp_rt_set_flowid := est_flowid_reg_w p;
     sp_recv_tx_wr := tx_wr (en_recv e);
     sp_recv_tx_rd := tx_rd1_req (en_recv e) (engine_arb e i);
     sp_app_tail_wr := ei_tx_tail_wr i;
     sp_app_tail_rd := ei_tx_tail_rd i;
     sp_recv_head_wr := WrReq (est_hdr_val_reg_w p) (est_flowid_reg_w p) (next_tx_head_ptr_reg_w p);
     sp_app_head_rd := ei_tx_head_rd i;
     sp_recv_rx_wr := rx_wr (en_recv e);
     sp_recv_rx_rd := rx_rd0 (en_recv e) (engine_arb e i);
     sp_dst_rdy := merger_tx_pipe_tx_rdy (engine_merger e i) |}.

(** The reads of the send side and its write. *)
Definition engine_recv_in (e : engine) (i : engine_in) : backend_in :=
  let s := path_of e in let pi := engine_path_in e i in
  recv_base i (asm_recv_rd xa (sp_asm s) (path_asm_in xs xa s pi)) (pipe_rd (sp_send s))
    (send_tx_wr xs (sp_send s) (path_sender_in xa s pi)).

Definition answers_in (e : engine) (i : engine_in) : fifo_in rx_send_queue_struct :=
  FifoIn (rx_pipe_merger_tx_deq_req_val (engine_merger e i))
    (bool_decide (is_Some (ei_answer i)) && negb (fifo_full answers_log2 (rx_send_queue e)))
    (default zero_answer (ei_answer i)).

Definition engine_next (rst : bool) (i : engine_in) (e : engine) : engine :=
  let s := send_path_next xs xa rst (engine_path_in e i) (path_of e) in
  {| en_recv := backend_next x rst (engine_recv_in e i) (en_recv e);
     en_main := main_pipe (sp_send s);
     en_sched := main_pipe_fifo (sp_send s);
     en_flags := flag_store (sp_send s);
     en_send_qs := send_qs (sp_send s);
     en_asm := assembler (sp_asm s);
     en_addr := flowid_to_addr (sp_asm s);
     rx_send_queue := c_next (fifo_1r1w zero_answer answers_log2) rst (answers_in e i) (rx_send_queue e) |}.

Definition tcp_engine : circuit engine engine_in engine_out := Circuit
  (λ e i,
     let m := engine_merger e i in
     {| eo_recv := c_out (est_backend x) (en_recv e) (engine_recv_in e i);
        eo_answers_full := fifo_full answers_log2 (rx_send_queue e);
        eo_tx := if send_dst_tx_val m && ei_dst_rdy i then Some (send_dst_tx m) else None |})
  engine_next.

(** ** Both sides see the same stores *)

Lemma engine_path rst i e :
  path_of (engine_next rst i e) = send_path_next xs xa rst (engine_path_in e i) (path_of e).
Proof. reflexivity. Qed.

(** The inputs of the two sides in a run. *)
Definition recv_ins : list engine_in → engine → list backend_in :=
  fix go ins e := match ins with [] => [] | i :: ins' => engine_recv_in e i :: go ins' (engine_next false i e) end.
Definition path_ins : list engine_in → engine → list send_path_in :=
  fix go ins e := match ins with [] => [] | i :: ins' => engine_path_in e i :: go ins' (engine_next false i e) end.

Lemma engine_parts ins e :
  en_recv (after_cycles tcp_engine ins e) = after_cycles (est_backend x) (recv_ins ins e) (en_recv e) ∧
  path_of (after_cycles tcp_engine ins e) = after_cycles (send_pipe_wrapper xs xa) (path_ins ins e) (path_of e).
Proof.
  revert e. induction ins as [|i ins IH]; intros e; [done|]. destruct (IH (engine_next false i e)) as [H1 H2].
  rewrite engine_path in H2. split; [exact H1|exact H2].
Qed.

Lemma recv_ins_app ins ins' e :
  recv_ins (ins ++ ins') e = recv_ins ins e ++ recv_ins ins' (after_cycles tcp_engine ins e).
Proof. revert e. induction ins as [|i ins IH]; intros e; [done|]. cbn [recv_ins app]. f_equal. apply IH. Qed.

Lemma path_ins_app ins ins' e :
  path_ins (ins ++ ins') e = path_ins ins e ++ path_ins ins' (after_cycles tcp_engine ins e).
Proof. revert e. induction ins as [|i ins IH]; intros e; [done|]. cbn [path_ins app]. f_equal. apply IH. Qed.

(** ** What the inputs may be

    As for the two sides: connections are opened once, while none of their
    packets is in the receive pipeline; no packet reads the tail of its buffer
    in the cycle in which it is written. *)

Record engine_ok (e : engine) (i : engine_in) : Prop := {
  n_pkt : ei_hdr_val i = true → flow_ok (est_flowid (ei_pkt i));
  n_new : nf_val (ei_new_flow i) = true →
    flow_ok (nf_flowid (ei_new_flow i)) ∧ not_in_stages (est_flow_pipe (en_recv e)) (nf_flowid (ei_new_flow i));
  n_fsm_rx : rd_val (ei_fsm_rx_rd i) = true → flow_ok (rd_addr (ei_fsm_rx_rd i));
  n_fsm_tx : rd_val (ei_fsm_tx_rd i) = true → flow_ok (rd_addr (ei_fsm_tx_rd i));
  n_fsm_rdy : rd_resp_rdy (ei_fsm_rx_rd i) = rd_resp_rdy (ei_fsm_tx_rd i);
  n_head : wr_val (ei_rx_head_wr i) = true → flow_ok (wr_addr (ei_rx_head_wr i));
  n_tail : wr_val (ei_tx_tail_wr i) = true → flow_ok (wr_addr (ei_tx_tail_wr i));
  n_fresh : stale_tail x (en_recv e) (engine_recv_in e i) = false }.

Fixpoint engine_oks (ins : list engine_in) (e : engine) : Prop :=
  match ins with [] => True | i :: ins' => engine_ok e i ∧ engine_oks ins' (engine_next false i e) end.

Definition openings (ins : list engine_in) : list Z :=
  ins ≫= λ i, if nf_val (ei_new_flow i) then [nf_flowid (ei_new_flow i)] else [].

Lemma engine_oks_snoc ins i e :
  engine_oks (ins ++ [i]) e → engine_oks ins e ∧ engine_ok (after_cycles tcp_engine ins e) i.
Proof.
  revert e. induction ins as [|j ins IH]; intros e; [by intros [? _]|]. intros [Hj H].
  destruct (IH _ H) as [H1 H2]. split; [by split|exact H2].
Qed.

Lemma entries_openings ins e : (entries (path_ins ins e)).*1 = openings ins.
Proof.
  revert e. induction ins as [|i ins IH]; intros e; [done|]. unfold entries, openings in *.
  cbn [path_ins mbind list_bind]. rewrite fmap_app, IH. f_equal. unfold entry_of. cbn [sp_new_flow engine_path_in].
  by destruct (nf_val (ei_new_flow i)).
Qed.

(** ** What is stored of a connection, against the packets processed *)

Lemma flows_after_flow f L es : flows_after L es f = flows_after L (flow_events f es) f.
Proof.
  assert (H : ∀ L', L f = L' f → flows_after L es f = flows_after L' (flow_events f es) f); [|by apply H].
  unfold flows_after. revert L. induction es as [|ev es IH]; intros L L' E; [done|]. cbn [fold_left flow_events List.filter].
  destruct (on_flow f ev) eqn:Ef.
  - apply IH. destruct ev as [p h s|g st]; cbn in *; apply Z.eqb_eq in Ef as <-; by rewrite !fn_lookup_insert, ?E.
  - apply IH. destruct ev as [p h s|g st]; cbn in *; apply Z.eqb_neq in Ef; by rewrite fn_lookup_insert_ne.
Qed.

Lemma flow_events_app f es es' : flow_events f (es ++ es') = flow_events f es ++ flow_events f es'.
Proof. apply List.filter_app. Qed.

(** All the packets of the connection; or, if one of it is in the last stage of
    the pipeline, which it leaves when it is written back, all but that one. *)
Definition up_to_date (L : Z → flow_state) (es : list est_event) (b : backend) (f : Z) (st : flow_state) : Prop :=
  st = flows_after L es f ∨
  est_hdr_val_reg_w (est_flow_pipe b) = true ∧ est_flowid_reg_w (est_flow_pipe b) = f ∧
  ∃ es' last, flow_events f es = es' ++ [last] ∧ st = flows_after L es' f.

Lemma flows_after_other f L es es' : flow_events f es' = [] → flows_after L (es ++ es') f = flows_after L es f.
Proof. intros E. rewrite (flows_after_flow f L (es ++ es')), flow_events_app, E, app_nil_r. symmetry. apply flows_after_flow. Qed.

(** A packet that goes into the last stage is there in the next cycle. *)
Lemma entered_w h L s i :
  EstRun.inv x h L s → legal s i → EstRun.enters_w x s i = true →
  let p := est_flow_pipe (backend_next x false i s) in
  est_hdr_val_reg_w p = true ∧ est_flowid_reg_w p = est_flowid (est_pkt_reg_c (est_flow_pipe s)).
Proof.
  intros Hinv Hl E p. unfold p. rewrite (EstRun.val_w_next x s i). pose proof E as E'. unfold EstRun.enters_w in E'.
  rewrite (EstRun.stalled_c_eq x h L s i Hinv) in E'.
  assert (Hw : stalled_w x s i = false ∧ est_hdr_val_reg_c (est_flow_pipe s) = true)
    by (revert E'; by destruct (est_hdr_val_reg_c (est_flow_pipe s)), (stalled_w x s i)).
  destruct Hw as [Hw Hc]. rewrite Hw, E. split; [done|].
  by destruct (EstRun.w_taken x h L s i Hinv Hl Hw Hc) as (-> & _).
Qed.

Lemma stored_up_to_date L es h s i f :
  EstRun.inv x h (flows_after L es) s → legal s i → flow_ok f →
  up_to_date L es s f (stored x s f) →
  up_to_date L (es ++ EstRun.cycle_events x h s i) (backend_next x false i s) f (stored x (backend_next x false i s) f).
Proof.
  intros Hinv Hl Hf Hu. rewrite (EstRun.stored_next x h _ s i Hinv Hl f Hf).
  pose proof (EstRun.i_flows _ _ _ _ Hinv f Hf) as HL. unfold EstRun.cycle_events.
  destruct (sumbool_of_bool (nf_val (bi_new_flow i))) as [E|E]; rewrite E; cbn [andb].
  - pose proof (EstRun.opening_stalls x s i E) as Hstall.
    assert (Hw : EstRun.enters_w x s i = false).
    { unfold EstRun.enters_w. rewrite (EstRun.stalled_c_eq x h _ s i Hinv), Hstall.
      by destruct (est_hdr_val_reg_c (est_flow_pipe s)). }
    rewrite Hw. cbn [app]. destruct (Z.eqb_spec (nf_flowid (bi_new_flow i)) f) as [<-|Hne].
    + left. unfold flows_after. rewrite fold_left_app. cbn. by rewrite fn_lookup_insert.
    + assert (Ef : ∀ st, flow_events f [Opened (nf_flowid (bi_new_flow i)) st] = [])
        by (intros st; unfold flow_events; cbn; by rewrite (proj2 (Z.eqb_neq _ _) Hne)).
      destruct Hu as [->|(Ev & Efl & es' & last & E1 & ->)]; [left; by rewrite flows_after_other|right].
      rewrite (EstRun.val_w_next x s i), Hstall. destruct (EstRun.w_kept x s i Hstall) as (-> & _).
      split; [done|]. split; [done|]. exists es', last. by rewrite flow_events_app, Ef, app_nil_r.
  - rewrite app_nil_r, <- HL. destruct (EstRun.enters_w x s i) eqn:Ew; [|rewrite app_nil_r; by left].
    destruct (entered_w h _ s i Hinv Hl Ew) as [Hv Hfl].
    set (p := est_pkt_reg_c (est_flow_pipe s)) in *. set (sn := sent_of x s (est_flowid p)).
    destruct (Z.eqb_spec (est_flowid p) f) as [Ep|Hne]; [right|left].
    + split; [exact Hv|]. split; [by rewrite Hfl|]. exists (flow_events f es), (Segment p h sn).
      rewrite flow_events_app. split; [|apply flows_after_flow].
      unfold flow_events at 2. cbn. by rewrite (proj2 (Z.eqb_eq _ _) Ep).
    + unfold flows_after. rewrite fold_left_app. cbn. by rewrite fn_lookup_insert_ne.
Qed.

(** ** A run, and what is known after it *)

Fixpoint heads (h : Z) (ins : list backend_in) (s : backend) : Z :=
  match ins with [] => h | i :: ins' => heads (EstRun.head_next x h s i) ins' (backend_next x false i s) end.

Lemma est_events_snoc h ins i s :
  EstRun.events x h (ins ++ [i]) s =
    EstRun.events x h ins s ++
    EstRun.cycle_events x (heads h ins s) (after_cycles (est_backend x) ins s) i ∧
  heads h (ins ++ [i]) s = EstRun.head_next x (heads h ins s) (after_cycles (est_backend x) ins s) i.
Proof.
  revert h s. induction ins as [|j ins IH]; intros h s; [by cbn; rewrite app_nil_r|].
  cbn [app EstRun.events heads]. destruct (IH (EstRun.head_next x h s j) (backend_next x false j s)) as [-> ->].
  by rewrite <- app_assoc.
Qed.

Lemma send_events_snoc g ins i s :
  SendRun.events xs g (ins ++ [i]) s =
    SendRun.events xs g ins s ++
    SendRun.cycle_events xs (seen_after xs g ins s) (after_cycles (send_pipe xs) ins s) i ∧
  seen_after xs g (ins ++ [i]) s = seen_next xs (seen_after xs g ins s) (after_cycles (send_pipe xs) ins s) i.
Proof.
  revert g s. induction ins as [|j ins IH]; intros g s; [by cbn; rewrite app_nil_r|].
  cbn [app SendRun.events seen_after]. destruct (IH (seen_next xs g s j) (sender_next xs false j s)) as [-> ->].
  by rewrite <- app_assoc.
Qed.

Section Run.
Variable e0 : engine.

Abbreviation after ins := (after_cycles tcp_engine ins e0).
Abbreviation first_flows := (stored x (en_recv e0)).
Abbreviation first_turns := (SendRun.start xs (sp_send (path_of e0))).
Abbreviation send_ins ins := (parts xs xa (path_sender_in xa) (path_ins ins e0) (path_of e0)).

(** The packets processed, the turns taken, and what the stages have seen. *)
Definition engine_segments (ins : list engine_in) : list est_event :=
  EstRun.events x 0 (recv_ins ins e0) (en_recv e0).
Definition engine_turns (ins : list engine_in) : list send_event :=
  SendRun.events xs unseen (send_ins ins) (sp_send (path_of e0)).
Definition engine_seen (ins : list engine_in) : seen := seen_after xs unseen (send_ins ins) (sp_send (path_of e0)).
Definition engine_head (ins : list engine_in) : Z := heads 0 (recv_ins ins e0) (en_recv e0).

(** What the connection has received after [ins]: what the processing of its
    packets, all that have been processed or all but the one that is being
    written back, gives. *)
Definition now (ins : list engine_in) : Z → flow_state → Prop :=
  up_to_date first_flows (engine_segments ins) (en_recv (after ins)).

(** The acknowledged numbers found by the connections: when a connection enters
    the second stage, and for which turn. *)
Definition look (s : sender) (j : sender_in) : list (Z * tx_ack_state_struct) :=
  if enters_n xs s j
  then let s' := sender_next xs false j s in let f := flowid_reg_n (main_pipe s') in [(f, ack_of xs s' f)] else [].
Fixpoint looks (ins : list sender_in) (s : sender) : list (Z * tx_ack_state_struct) :=
  match ins with [] => [] | j :: ins' => look s j ++ looks ins' (sender_next xs false j s) end.
Definition engine_looks (ins : list engine_in) : list (Z * tx_ack_state_struct) :=
  looks (send_ins ins) (sp_send (path_of e0)).

(** Those of the turns taken, and those of the connections in the stages. *)
Fixpoint turn_acks (q : schedule) (es : list send_event) : list (Z * tx_ack_state_struct) :=
  match es with
  | [] => []
  | ev :: es' =>
      match ev, waiting q with
      | TakeTurn t, f :: _ => [(f, n_ack t)]
      | _, _ => []
      end ++ turn_acks (send_event_next ev q) es'
  end.
Definition looks_in (g : seen) (p : protocol_logic_pipe) : list (Z * tx_ack_state_struct) :=
  (if val_reg_w p then [(flowid_reg_w p, n_ack (at_w g))] else []) ++
  (if val_reg_n p then [(flowid_reg_n p, n_ack (at_n g))] else []).

Lemma turn_acks_app q es es' : turn_acks q (es ++ es') = turn_acks q es ++ turn_acks (schedule_after q es) es'.
Proof. revert q. induction es as [|ev es IH]; intros q; [done|]. cbn [app turn_acks]. by rewrite IH, app_assoc. Qed.

Lemma looks_snoc ins j s : looks (ins ++ [j]) s = looks ins s ++ look (after_cycles (send_pipe xs) ins s) j.
Proof.
  revert s. induction ins as [|k ins IH]; intros s; [by cbn; rewrite app_nil_r|]. cbn [app looks]. by rewrite IH, app_assoc.
Qed.

Record engine_inv (ins : list engine_in) : Prop := {
  v_recv : EstRun.inv x (engine_head ins) (flows_after first_flows (engine_segments ins)) (en_recv (after ins));
  v_path : ∃ l rd, path_inv xs (entries (path_ins ins e0)) l rd (engine_seen ins)
                     (schedule_after first_turns (engine_turns ins)) (path_of (after ins));
  v_stored : ∀ f, flow_ok f → now ins f (stored x (en_recv (after ins)) f);
  v_looks : engine_looks ins = turn_acks first_turns (engine_turns ins) ++ looks_in (engine_seen ins) (en_main (after ins)) }.

(** One cycle more. *)
Lemma after_snoc ins i : after (ins ++ [i]) = engine_next false i (after ins).
Proof. unfold after_cycles. by rewrite fold_left_app. Qed.

Lemma segments_snoc ins i :
  engine_segments (ins ++ [i]) =
    engine_segments ins ++ EstRun.cycle_events x (engine_head ins) (en_recv (after ins)) (engine_recv_in (after ins) i) ∧
  engine_head (ins ++ [i]) = EstRun.head_next x (engine_head ins) (en_recv (after ins)) (engine_recv_in (after ins) i).
Proof.
  unfold engine_segments, engine_head. rewrite recv_ins_app. cbn [recv_ins]. rewrite (proj1 (engine_parts ins e0)).
  apply est_events_snoc.
Qed.

Abbreviation sender_in_of ins i :=
  (path_sender_in xa (path_of (after ins)) (engine_path_in (after ins) i)).

Lemma sender_after ins : sp_send (path_of (after ins)) = after_cycles (send_pipe xs) (send_ins ins) (sp_send (path_of e0)).
Proof. rewrite (proj2 (engine_parts ins e0)). apply after_parts. Qed.

Lemma send_ins_snoc ins i : send_ins (ins ++ [i]) = send_ins ins ++ [sender_in_of ins i].
Proof. rewrite path_ins_app, parts_app, <- (proj2 (engine_parts ins e0)). done. Qed.

Lemma turns_snoc ins i :
  engine_turns (ins ++ [i]) =
    engine_turns ins ++ SendRun.cycle_events xs (engine_seen ins) (sp_send (path_of (after ins))) (sender_in_of ins i) ∧
  engine_seen (ins ++ [i]) = seen_next xs (engine_seen ins) (sp_send (path_of (after ins))) (sender_in_of ins i).
Proof.
  unfold engine_turns, engine_seen. rewrite send_ins_snoc, sender_after. apply send_events_snoc.
Qed.

(** What fits a cycle.  A header is given what the connection has received then;
    a connection finds, for its turn, what it has received at the end of the
    cycle; and a packet is processed with the number the sender has reached by
    the turns taken. *)
Definition header_fits (ins : list engine_in) (i : engine_in) : tx_pkt * recv_state_entry → Prop :=
  λ '(p, rx), ∃ st, now ins (tp_flowid p) st ∧ rx = fs_rx st.
Definition look_fits (ins : list engine_in) (i : engine_in) : Z * tx_ack_state_struct → Prop :=
  λ '(f, ack), ∃ st, now (ins ++ [i]) f st ∧ ack = fs_ack st.
Definition segment_fits (ins : list engine_in) (i : engine_in) (ev : est_event) : Prop :=
  match ev with
  | Segment p _ sent =>
      sent = em_tx_curr_seq_num (emits (schedule_after first_turns (engine_turns ins)) (est_flowid p))
  | Opened _ _ => True
  end.

Section Cycle.
Context (ins : list engine_in) (i : engine_in).
Hypothesis Hinv : engine_inv ins.
Hypothesis Hok : engine_ok (after ins) i.
Hypothesis Hnew : NoDup (openings (ins ++ [i])).

Abbreviation e := (after ins).

(** What each side does is what the other side may be given. *)
Lemma recv_flow_ok : est_hdr_val_reg_w (est_flow_pipe (en_recv e)) = true → flow_ok (est_flowid_reg_w (est_flow_pipe (en_recv e))).
Proof. apply (g_w _ _ (EstRun.i_stages _ _ _ _ (v_recv _ Hinv))). Qed.

Lemma engine_path_ok : path_ok (engine_path_in e i).
Proof.
  split; [apply (n_new _ _ Hok)|apply recv_flow_ok|apply recv_flow_ok|apply (n_tail _ _ Hok)].
Qed.

Lemma engine_entries : NoDup ((entries (path_ins ins e0)).*1 ++ (entry_of (engine_path_in e i)).*1).
Proof.
  pose proof (entries_openings (ins ++ [i]) e0) as E. rewrite path_ins_app in E. unfold entries in E.
  rewrite bind_app, fmap_app in E. cbn [path_ins mbind list_bind] in E. rewrite app_nil_r in E. unfold entries. by rewrite E.
Qed.

Lemma engine_legal : legal (en_recv e) (engine_recv_in e i).
Proof.
  destruct (v_path _ Hinv) as (l & rd & Hp). split; try apply Hok.
  intros [E _]%andb_true_iff. apply (SendRun.ok_w xs l rd _ _ _ _ (sender_cycle_ok xs xa _ l rd _ _ _ _ Hp engine_path_ok engine_entries) E).
Qed.

Abbreviation e' := (after (ins ++ [i])).
Abbreviation snd := (sp_send (path_of e)).
Abbreviation si := (sender_in_of ins i).

Lemma recv_next :
  EstRun.inv x (engine_head (ins ++ [i])) (flows_after first_flows (engine_segments (ins ++ [i]))) (en_recv e').
Proof.
  destruct (segments_snoc ins i) as [-> ->]. rewrite after_snoc, flows_after_app.
  apply (EstRun.inv_next x _ _ _ _ (v_recv _ Hinv) engine_legal). apply (n_fresh _ _ Hok).
Qed.

Lemma path_next :
  ∃ l rd, path_inv xs (entries (path_ins (ins ++ [i]) e0)) l rd (engine_seen (ins ++ [i]))
            (schedule_after first_turns (engine_turns (ins ++ [i]))) (path_of e').
Proof.
  destruct (v_path _ Hinv) as (l & rd & Hp). destruct (turns_snoc ins i) as [-> ->].
  rewrite after_snoc, path_ins_app, schedule_after_app. unfold entries. rewrite bind_app. cbn [path_ins mbind list_bind].
  rewrite app_nil_r. eexists _, _.
  exact (path_inv_next xs xa _ l rd _ _ _ _ Hp engine_path_ok engine_entries).
Qed.

Lemma stored_next_engine f :
  flow_ok f → now (ins ++ [i]) f (stored x (en_recv e') f).
Proof.
  intros Hf. unfold now. rewrite (proj1 (segments_snoc ins i)), after_snoc.
  apply (stored_up_to_date _ _ _ _ _ _ (v_recv _ Hinv) engine_legal Hf). by apply (v_stored _ Hinv).
Qed.

(** What the send side reads of a connection is what the receive side stored. *)
Lemma ack_stored f : flow_ok f → ack_of xs (sp_send (path_of e')) f = fs_ack (stored x (en_recv e') f).
Proof.
  intros Hf. destruct (EstRun.i_ports _ _ _ _ recv_next) as (a & b & HP & _).
  destruct (sized_lookup _ _ (EstRun.p_ack_size _ _ _ HP) Hf) as [d E].
  unfold ack_of, stored. cbn [sp_send path_of se_tx_store fs_ack]. by rewrite E.
Qed.

Lemma send_cycle_ok :
  ∃ l rd, SendRun.cycle_ok xs l rd (engine_seen ins) (schedule_after first_turns (engine_turns ins)) snd si.
Proof.
  destruct (v_path _ Hinv) as (l & rd & Hp). exists l, rd.
  exact (sender_cycle_ok xs xa _ l rd _ _ _ _ Hp engine_path_ok engine_entries).
Qed.

Lemma looks_engine_snoc : engine_looks (ins ++ [i]) = engine_looks ins ++ look snd si.
Proof. unfold engine_looks. by rewrite send_ins_snoc, looks_snoc, <- sender_after. Qed.

(** The turn of a cycle is of the connection that leaves the last stage. *)
Lemma cycle_turn_acks l rd :
  SendRun.cycle_ok xs l rd (engine_seen ins) (schedule_after first_turns (engine_turns ins)) snd si →
  turn_acks (schedule_after first_turns (engine_turns ins)) (SendRun.cycle_events xs (engine_seen ins) snd si) =
  if leaves_w xs snd si then [(flowid_reg_w (main_pipe snd), n_ack (at_w (engine_seen ins)))] else [].
Proof.
  intros Hc. unfold SendRun.cycle_events. destruct (leaves_w xs snd si) eqn:El.
  - destruct (SendRun.leaves_not_opening xs snd si El) as (Eo & Ev & _). rewrite Eo. cbn [app turn_acks].
    rewrite (SendRun.i_wait _ _ _ _ _ _ (SendRun.c_inv _ _ _ _ _ _ _ Hc)). unfold in_pipe. by rewrite Ev.
  - by destruct (nf_val _).
Qed.

(** What is looked up goes through the two stages to the turn. *)
Lemma looks_next :
  engine_looks (ins ++ [i]) =
  turn_acks first_turns (engine_turns (ins ++ [i])) ++ looks_in (engine_seen (ins ++ [i])) (en_main e').
Proof.
  destruct send_cycle_ok as (l & rd & Hc). destruct (turns_snoc ins i) as [Et Eg].
  rewrite looks_engine_snoc, (v_looks _ Hinv), Et, Eg, turn_acks_app, after_snoc, <- !app_assoc. f_equal.
  change (en_main (engine_next false i e)) with (main_pipe (sender_next xs false si snd)).
  change (en_main e) with (main_pipe snd).
  destruct (SendRun.stage_n_next xs l rd _ _ _ _ Hc) as [Vn Fn]. destruct (SendRun.stage_w_next xs l rd _ _ _ _ Hc) as [Vw Fw].
  pose proof (SendRun.stall_n_eq xs l rd _ _ _ _ Hc) as Sn. pose proof (SendRun.stall_rt_eq xs l rd _ _ _ _ Hc) as Srt.
  pose proof (SendRun.i_wait _ _ _ _ _ _ (SendRun.c_inv _ _ _ _ _ _ _ Hc)) as Hq.
  unfold looks_in, look. rewrite Vn, Fn, Vw, Fw, (cycle_turn_acks l rd Hc). cbn [at_n at_w seen_next]. rewrite Fn. clear -Sn Srt.
  unfold enters_w, leaves_w, tx_state_wr_req_val, enters_n. rewrite Srt, Sn. clear Sn Srt.
  by destruct (val_reg_w _), (val_reg_n _), (val_reg_rt _), (stall_w _), (rd_val_reg _).
Qed.

Lemma look_stored : Forall (look_fits ins i) (look snd si).
Proof.
  destruct send_cycle_ok as (l & rd & Hc). unfold look. destruct (enters_n xs snd si) eqn:E; [|constructor].
  apply Forall_singleton. destruct (SendRun.stage_n_next xs l rd _ _ _ _ Hc) as [_ Fn].
  pose proof ack_stored as Ha. rewrite after_snoc, engine_path in Ha.
  change (sp_send (send_path_next _ _ _ _ _)) with (sender_next xs false si snd) in Ha.
  assert (Hf : flow_ok (flowid_reg_n (main_pipe (sender_next xs false si snd)))).
  { rewrite Fn. pose proof (SendRun.stall_n_eq xs l rd _ _ _ _ Hc) as Sn. destruct (stall_n _ _).
    - apply (SendRun.ok_n xs l rd _ _ _ _ Hc). symmetry in Sn. by apply andb_true_iff in Sn as [].
    - apply (SendRun.ok_rt xs l rd _ _ _ _ Hc). by apply andb_true_iff in E as []. }
  eexists. split; [by apply stored_next_engine|]. rewrite after_snoc. by apply Ha.
Qed.

Lemma engine_inv_next : engine_inv (ins ++ [i]).
Proof. split; [exact recv_next|exact path_next|exact stored_next_engine|exact looks_next]. Qed.

(** What a packet of a cycle is processed with, what a turn has found, what a
    header is given. *)
Lemma segment_sent :
  Forall (segment_fits ins i)
    (EstRun.cycle_events x (engine_head ins) (en_recv e) (engine_recv_in e i)).
Proof.
  destruct (v_path _ Hinv) as (l & rd & Hp). unfold EstRun.cycle_events. apply Forall_app. split.
  2:{ by destruct (nf_val _); repeat constructor. }
  destruct (EstRun.enters_w x _ _) eqn:Ew; [|constructor]. apply Forall_singleton. cbn [segment_fits]. apply andb_true_iff in Ew as [Ec _].
  pose proof (g_c _ _ (EstRun.i_stages _ _ _ _ (v_recv _ Hinv)) Ec) as Hf. unfold est_flowid_reg_c in Hf.
  rewrite (SendRun.i_emits _ _ _ _ _ _ (y_send _ _ _ _ _ _ _ Hp) _ Hf).
  destruct (SendRun.i_ports _ _ _ _ _ _ (y_send _ _ _ _ _ _ _ Hp)) as [_ _ _ Se _ _].
  destruct (sized_lookup _ _ Se Hf) as [d E]. unfold sent_of, emit_at. cbn [sp_send path_of se_tx_store] in *. by rewrite E.
Qed.

Lemma headers_read :
  Forall (header_fits ins i)
    (reads xa (sp_asm (path_of e)) (path_asm_in xs xa (path_of e) (engine_path_in e i))).
Proof.
  destruct (v_path _ Hinv) as (l & rd & Hp). unfold reads. destruct (asm_val_reg_a _) eqn:Ea; [|constructor].
  destruct (_ && _); [|constructor]. apply Forall_singleton.
  assert (Hf : flow_ok (tp_flowid (asm_pkt_reg_a (en_asm e)))).
  { pose proof (a_ok _ (y_asm _ _ _ _ _ _ _ Hp)) as H. rewrite Forall_forall in H. apply H. unfold pkts_in.
    cbn [sp_asm path_of assembler] in *. rewrite Ea. set_solver. }
  exists (stored x (en_recv e) (tp_flowid (asm_pkt_reg_a (en_asm e)))). split; [by apply (v_stored _ Hinv)|].
  destruct (EstRun.i_ports _ _ _ _ (v_recv _ Hinv)) as (a & b & HP & _).
  destruct (sized_lookup _ _ (EstRun.p_rx_size _ _ _ HP) Hf) as [d E]. unfold rx_of, stored.
  cbn [sp_asm path_of asm_rx_store assembler fs_rx]. by rewrite E.
Qed.
End Cycle.

Lemma over_snoc {B} (f : asm_sys → asm_sys_in → list B) l i s :
  over xa f (l ++ [i]) s = over xa f l s ++ f (after_cycles (hdr_assembler xa) l s) i.
Proof.
  revert s. induction l as [|j l IH]; intros s; [by cbn; rewrite app_nil_r|]. cbn [app over]. by rewrite IH, app_assoc.
Qed.

Definition engine_reads (ins : list engine_in) : list (tx_pkt * recv_state_entry) :=
  over xa (reads xa) (parts xs xa (path_asm_in xs xa) (path_ins ins e0) (path_of e0)) (sp_asm (path_of e0)).

Lemma reads_snoc ins i :
  engine_reads (ins ++ [i]) =
  engine_reads ins ++ reads xa (sp_asm (path_of (after ins))) (path_asm_in xs xa (path_of (after ins)) (engine_path_in (after ins) i)).
Proof.
  unfold engine_reads. rewrite path_ins_app, parts_app, <- (proj2 (engine_parts ins e0)). cbn [path_ins parts].
  rewrite over_snoc. by rewrite <- (proj1 (proj2 (after_parts xs xa (path_ins ins e0) (path_of e0)))), <- (proj2 (engine_parts ins e0)).
Qed.

Lemma engine_run ins :
  engine_inv [] → engine_oks ins e0 → NoDup (openings ins) →
  engine_inv ins ∧ dated engine_reads header_fits ins ∧ dated engine_looks look_fits ins ∧
  dated engine_segments segment_fits ins.
Proof.
  intros H0. induction ins as [|i ins IH] using rev_ind; intros Hok Hd.
  { split; [done|]. split_and!; by apply dated_nil. }
  destruct (engine_oks_snoc _ _ _ Hok) as [Hok' Hi].
  assert (Hd' : NoDup (openings ins)) by (unfold openings in *; rewrite bind_app in Hd; by apply NoDup_app in Hd as (? & _ & _)).
  destruct (IH Hok' Hd') as (Hinv & H1 & H2 & H3). split; [by apply engine_inv_next|]. split_and!.
  - exact (dated_snoc _ _ _ _ _ H1 (reads_snoc ins i) (headers_read ins i Hinv Hi Hd)).
  - exact (dated_snoc _ _ _ _ _ H2 (looks_engine_snoc ins i) (look_stored ins i Hinv Hi Hd)).
  - exact (dated_snoc _ _ _ _ _ H3 (proj1 (segments_snoc ins i)) (segment_sent ins i Hinv)).
Qed.
End Run.

(** ** From reset on *)

Definition engine_sized (e : engine) : Prop :=
  EstRun.all_sized (en_recv e) ∧ path_sized (path_of e) ∧
  Z.of_nat (length (contents (fifo_mem (rx_send_queue e)))) = slots answers_log2.

Lemma engine_inv_reset i e : engine_sized e → engine_inv (engine_next true i e) [].
Proof.
  intros (H1 & H2 & _). split; cbn [after_cycles fold_left].
  - by apply EstRun.inv_reset.
  - exists [], None. exact (path_inv_reset xs xa (engine_path_in e i) (path_of e) H2).
  - intros f _. by left.
  - done.
Qed.

(** The two directions work on each other's state.  In any run of the two
    pipelines from a reset on, in every cycle: each header that is made is given
    the receive state that the processing of the packets of its connection, one
    at a time, gives: of all that have been processed by then, or of all but the
    one that is being written back; each connection that gets to its turn finds
    the acknowledged number of that kind, and it is with these that the turns
    are taken; and each packet is processed with the number the sender has
    reached by the turns taken by then. *)
Lemma tcp_engine_closes_loop i0 e ins :
  engine_sized e →
  let e0 := engine_next true i0 e in
  engine_oks ins e0 → NoDup (openings ins) →
  let q0 := SendRun.start xs (sp_send (path_of e0)) in
  dated (engine_reads e0) (header_fits e0) ins ∧
  (dated (engine_looks e0) (look_fits e0) ins ∧
   engine_looks e0 ins =
     turn_acks q0 (engine_turns e0 ins) ++ looks_in (engine_seen e0 ins) (en_main (after_cycles tcp_engine ins e0))) ∧
  dated (engine_segments e0) (segment_fits e0) ins.
Proof.
  intros Hs e0 Hok Hd q0. destruct (engine_run e0 ins (engine_inv_reset i0 e Hs) Hok Hd) as (Hinv & H1 & H2 & H3).
  split; [exact H1|]. split; [split; [exact H2|exact (v_looks _ _ Hinv)]|exact H3].
Qed.

(** ** What leaves

    An answer of the handshake, as it leaves. *)
Definition answer_pkt (a : rx_send_queue_struct) : dst_pkt :=
  DstPkt (rs_flowid a) (rs_src_ip a) (rs_dst_ip a) (rs_tcp_hdr a) zero_payload.

(** The answers taken by the queue. *)
Definition answer_taken (e : engine) (i : engine_in) : list rx_send_queue_struct :=
  if fifo_full answers_log2 (rx_send_queue e) then [] else option_list (ei_answer i).
Fixpoint answers_taken (ins : list engine_in) (e : engine) : list rx_send_queue_struct :=
  match ins with [] => [] | i :: ins' => answer_taken e i ++ answers_taken ins' (engine_next false i e) end.

Abbreviation path_out e i := (c_out (send_pipe_wrapper xs xa) (path_of e) (engine_path_in e i)).
Abbreviation answers_rel e := (fifo_rel answers_log2 (rx_send_queue e)).

Lemma answers_in_legal e i q : answers_rel e q → sp_legal (queue_spec answers_log2) q (answers_in e i).
Proof.
  intros Hq. destruct (fifo_flags _ _ _ Hq) as [He Hf]. pose proof (fr_cap _ _ _ Hq) as Hc. split.
  - cbn [Fifo.rd_req answers_in]. unfold engine_merger, send_merger. cbn [rx_pipe_merger_tx_deq_req_val]. rewrite He.
    intros [E _]%andb_true_iff. by apply negb_true_iff, bool_decide_eq_false in E.
  - cbn [Fifo.wr_req answers_in]. rewrite Hf. intros [_ E]%andb_true_iff. left.
    apply negb_true_iff, bool_decide_eq_false in E. lia.
Qed.

(** One cycle of the queue and the merger. *)
Lemma merger_cycle e i q :
  answers_rel e q →
  ∃ given q', answers_rel (engine_next false i e) q' ∧ q ++ answer_taken e i = given ++ q' ∧
    option_list (eo_tx (c_out tcp_engine e i)) = (answer_pkt <$> given) ++ option_list (path_out e i).
Proof.
  intros Hq. destruct (fifo_flags _ _ _ Hq) as [He Hf].
  destruct (fifo_simulates zero_answer answers_log2 _ _ _ Hq (answers_in_legal e i q Hq)) as [_ Hq'].
  set (deq := rx_pipe_merger_tx_deq_req_val (engine_merger e i)).
  assert (Ed : deq = negb (bool_decide (q = [])) && ei_dst_rdy i) by (unfold deq; cbn; by rewrite He).
  assert (Hx : option_list (eo_tx (c_out tcp_engine e i)) =
    (if deq then [answer_pkt (default xq (rd_resp_data (fifo_mem (rx_send_queue e))))] else []) ++ option_list (path_out e i)).
  { pose proof (send_merger_transfers (asm_val_reg_o (en_asm e)) (dst_of (en_asm e))
      (default xq (rd_resp_data (fifo_mem (rx_send_queue e)))) (fifo_empty answers_log2 (rx_send_queue e)) (ei_dst_rdy i)) as H.
    cbn [c_out tcp_engine eo_tx send_pipe_wrapper hdr_assembler sp_asm path_of assembler path_asm_in asm_side as_dst_rdy
      engine_path_in sp_dst_rdy]. fold (engine_merger e i) in H. cbn zeta in H. fold deq in H. unfold answer_pkt. revert H.
    destruct (send_dst_tx_val _ && _), (asm_val_reg_o _ && _); intros H; exact H. }
  exists (if deq then option_list (head q) else []), (queue_next (answers_in e i) q).
  split; [exact Hq'|]. split.
  - unfold queue_next, answer_taken. cbn [Fifo.rd_req Fifo.wr_req wr_data answers_in]. fold deq. rewrite app_assoc. f_equal.
    + destruct deq; [|done]. symmetry in Ed. apply andb_true_iff in Ed as [Ed _].
      apply negb_true_iff, bool_decide_eq_false in Ed. by destruct q.
    + destruct (fifo_full _ _); [by rewrite andb_false_r|]. rewrite andb_true_r. by destruct (ei_answer i).
  - rewrite Hx. f_equal. destruct deq; [|done]. symmetry in Ed. apply andb_true_iff in Ed as [Ed _].
    apply negb_true_iff, bool_decide_eq_false in Ed. destruct q as [|a q]; [done|].
    by rewrite (fr_head _ _ _ Hq a eq_refl).
Qed.

(** Two lists, put together in some order. *)
Inductive merged {B} : list B → list B → list B → Prop :=
| merged_nil : merged [] [] []
| merged_l b l1 l2 l : merged l1 l2 l → merged (b :: l1) l2 (b :: l)
| merged_r b l1 l2 l : merged l1 l2 l → merged l1 (b :: l2) (b :: l).

Lemma merged_app {B} (l1 l2 k1 k2 k : list B) : merged k1 k2 k → merged (l1 ++ k1) (l2 ++ k2) ((l1 ++ l2) ++ k).
Proof.
  intros H. induction l1 as [|b l1 IH]; [|by constructor]. cbn. induction l2 as [|b l2 IH]; [done|by constructor].
Qed.

Lemma merger_run ins e q :
  answers_rel e q →
  ∃ answers q', answers_rel (after_cycles tcp_engine ins e) q' ∧ q ++ answers_taken ins e = answers ++ q' ∧
    merged (answer_pkt <$> answers) (omap id (outputs (send_pipe_wrapper xs xa) (path_ins ins e) (path_of e)))
      (omap eo_tx (outputs tcp_engine ins e)).
Proof.
  revert e q. induction ins as [|i ins IH]; intros e q Hq.
  { exists [], q. cbn [answers_taken]. rewrite app_nil_r. split; [exact Hq|]. split; [done|constructor]. }
  destruct (merger_cycle e i q Hq) as (given & q1 & Hq1 & E1 & O1).
  destruct (IH _ _ Hq1) as (answers & q2 & Hq2 & E2 & M2). exists (given ++ answers), q2. split; [exact Hq2|]. split.
  - cbn [answers_taken]. by rewrite app_assoc, E1, <- !app_assoc, E2.
  - rewrite fmap_app.
    change (omap eo_tx (outputs tcp_engine (i :: ins) e)) with
      (omap eo_tx ([c_out tcp_engine e i] ++ outputs tcp_engine ins (engine_next false i e))).
    assert (outputs (send_pipe_wrapper xs xa) (path_ins (i :: ins) e) (path_of e) =
      [path_out e i] ++ outputs (send_pipe_wrapper xs xa) (path_ins ins (engine_next false i e))
         (path_of (engine_next false i e))) as -> by (rewrite engine_path; reflexivity).
    rewrite !omap_app. assert (∀ A B (f : A → option B) a, omap f [a] = option_list (f a)) as Ho
      by (intros A B f a; cbn; by destruct (f a)).
    rewrite !Ho, O1. apply merged_app. exact M2.
Qed.

Lemma engine_path_oks e0 ins :
  engine_inv e0 [] → engine_oks ins e0 → NoDup (openings ins) →
  Forall path_ok (path_ins ins e0) ∧ legal_cycles x (recv_ins ins e0) (en_recv e0).
Proof.
  intros H0. induction ins as [|i ins IH] using rev_ind; intros Hok Hd; [by split; [constructor|]|].
  destruct (engine_oks_snoc _ _ _ Hok) as [Hok' Hi].
  assert (Hd' : NoDup (openings ins)) by (unfold openings in *; rewrite bind_app in Hd; by apply NoDup_app in Hd as (? & _ & _)).
  destruct (IH Hok' Hd') as [H1 H2]. destruct (engine_run e0 ins H0 Hok' Hd') as [Hinv _].
  rewrite path_ins_app, recv_ins_app. split.
  - apply Forall_app. split; [exact H1|]. constructor; [|constructor]. by apply (engine_path_ok e0 ins i Hinv).
  - assert (Hs : ∀ l b c, legal_cycles x l b → legal (after_cycles (est_backend x) l b) c →
      stale_tail x (after_cycles (est_backend x) l b) c = false → legal_cycles x (l ++ [c]) b).
    { intros l. induction l as [|c' l IHl]; intros b c Hl Hc Hst; [by split_and!|].
      destruct Hl as (? & ? & Hl). split_and!; [done|done|]. by apply IHl. }
    cbn [recv_ins]. apply Hs; [exact H2| |]; rewrite <- (proj1 (engine_parts ins e0)).
    + by apply engine_legal.
    + apply Hi.
Qed.

(** What the engine does.  In any run of both directions from a reset on,
    whatever the memories held: the packets taken from the network are processed
    one at a time, and what is written back is what that gives; what leaves are
    the answers of the handshake, first in first out, merged with the packets of
    the turns of the connections, in the order of the turns, none lost and none
    twice but for those on their way; and each of these packets has the addresses
    its connection was opened with and acknowledges what the processing of the
    packets received on the connection, all that had been processed in the cycle
    its header was made or all but the one that was being written back then, had
    received. *)
Lemma tcp_engine_exchanges i0 e ins :
  engine_sized e →
  let e0 := engine_next true i0 e in let e1 := after_cycles tcp_engine ins e0 in
  engine_oks ins e0 → NoDup (openings ins) →
  let es := engine_segments e0 ins in let bouts := outputs (est_backend x) (recv_ins ins e0) (en_recv e0) in
  let ts := turns (SendRun.start xs (sp_send (path_of e0))) (engine_turns e0 ins) in
  (accepted_pkts (recv_ins ins e0) bouts = segments es ++ in_stages (en_recv e1) ∧
   process (stored x (en_recv e0)) es = writebacks bouts ++ in_w (en_recv e1)) ∧
  ∃ answers queued packets (done : list dressed),
    answers_taken ins e0 = answers ++ queued ∧ fifo_rel answers_log2 (rx_send_queue e1) queued ∧
    merged (answer_pkt <$> answers) packets (omap eo_tx (outputs tcp_engine ins e0)) ∧
    packets ++ dst_in (en_asm e1) = assemble <$> done ∧
    omap pkt_of ts = (dr_pkt <$> done) ++ pkts_in (en_asm e1) ∧
    engine_reads e0 ins = ((λ d, (dr_pkt d, dr_rx d)) <$> done) ++ reads_in (en_asm e1) ∧
    dated (engine_reads e0) (header_fits e0) ins ∧
    Forall (λ d, (tp_flowid (dr_pkt d), dr_addr d) ∈ entries (path_ins ins e0)) done.
Proof.
  intros Hs e0 e1 Hok Hd es bouts ts. pose proof (engine_inv_reset i0 e Hs) as H0. fold e0 in H0.
  destruct (engine_run e0 ins H0 Hok Hd) as (_ & Hr & _). destruct (engine_path_oks e0 ins H0 Hok Hd) as [Hp Hl].
  destruct Hs as (Hs1 & Hs2 & Hs3). destruct (engine_parts ins e0) as [P1 P2]. fold e1 in P1, P2. split.
  - destruct (EstRun.sequential_run x 0 _ _ _ (EstRun.inv_reset x 0 (engine_recv_in e i0) _ Hs1) Hl)
      as (E1 & E2 & _). cbn zeta in E1, E2. rewrite P1. split; [exact E1|exact E2].
  - destruct (merger_run ins e0 [] (fifo_reset zero_answer answers_log2 _ (answers_in e i0) Hs3))
      as (answers & queued & M1 & M2 & M3).
    assert (Hd' : NoDup (entries (path_ins ins e0)).*1) by (by rewrite entries_openings).
    destruct (path_sends xs xa (engine_path_in e i0) (path_of e) (path_ins ins e0) Hs2 Hp Hd')
      as (_ & _ & _ & done & F1 & F2 & F3 & F4). rewrite <- (engine_path true i0 e) in F1, F2, F3. fold e0 in F1, F2, F3.
    rewrite <- P2 in F1, F2, F3. exists answers, queued, (omap id (outputs (send_pipe_wrapper xs xa) (path_ins ins e0) (path_of e0))), done.
    split_and!; [exact M2|exact M1|exact M3|exact F1|exact F2|exact F3|exact Hr|exact F4].
Qed.
End Engine.

(** ** A concrete run

    Connection 3 is opened; a segment of 100 bytes arrives, the application
    writes 2500 bytes, the handshake pipeline answers somebody; later 1024 of the
    bytes are acknowledged, with 50 bytes more. *)

Definition engine_cycle (n : new_flow) (entry : four_tuple_struct) (pkt : option est_pkt)
    (answer : option rx_send_queue_struct) (tail : option (Z * Z)) (rdy : bool) : engine_in :=
  {| ei_hdr_val := bool_decide (is_Some pkt); ei_pkt := default zero_pkt pkt; ei_new_flow := n;
     ei_lookup_entry := entry; ei_fsm_rx_rd := no_rd; ei_fsm_tx_rd := no_rd; ei_answer := answer;
     ei_rx_head_wr := WrReq false 0 0; ei_rx_head_rd := no_rd; ei_commit_wr := WrReq false 0 0;
     ei_commit_rd0 := no_rd; ei_commit_rd1 := no_rd; ei_store_buf_q_full := false;
     ei_tx_tail_wr := WrReq (bool_decide (is_Some tail)) (default 0 (fst <$> tail)) (default 0 (snd <$> tail));
     ei_tx_tail_rd := no_rd; ei_tx_head_rd := no_rd; ei_dst_rdy := rdy |}.
Definition engine_idle : engine_in := engine_cycle no_flow zero_four_tuple None None None true.
Definition sample_answer : rx_send_queue_struct := RxSendQueue 20 12 7 (TcpPktHdr 80 6000 1 2 5 0 18 4096 0 0).
Definition engine_ins : list engine_in :=
  [engine_cycle (NewFlow true 3 (RecvStateEntry 1000 4096) (TxState sample_first zero_timer (TxAckState 0 sample_first)) 0 0)
     (FourTuple 20 10 80 4000) None None None true;
   engine_cycle no_flow zero_four_tuple (Some (segment 3 1000 sample_first 100)) (Some sample_answer)
     (Some (3, tx_ptr (sample_first + 2500))) true] ++
  replicate 6 engine_idle ++ [engine_cycle no_flow zero_four_tuple None None None false] ++ replicate 8 engine_idle ++
  [engine_cycle no_flow zero_four_tuple (Some (segment 3 1100 0 50)) None (Some (3, tx_ptr (sample_first + 3000))) true] ++
  replicate 12 engine_idle.

Definition junk_engine : engine :=
  {| en_recv := junk_backend; en_main := main_pipe sample_sender; en_sched := main_pipe_fifo sample_sender;
     en_flags := flag_store sample_sender; en_send_qs := send_qs sample_sender;
     en_asm := assembler (sp_asm sample_path); en_addr := junk_addr;
     rx_send_queue :=
       {| wr_ptr_reg := 3; rd_ptr_reg := 2;
          fifo_mem :=
            {| mem_wr_req_val_reg := true; mem_wr_req_addr_reg := 1; mem_wr_req_data_reg := zero_answer;
               mem_rd_req_val_reg := true; mem_rd_req_addr_reg := 0;
               tcp_data_mem := BsgMem (replicate 4 zero_answer) (Some 1) |} |} |}.

Abbreviation sample_xb := EstRun.sample_x.
Abbreviation sample_xs := SendRun.sample_x.
Definition engine_start : engine := engine_next sample_xb sample_xs sample_xa zero_answer true engine_idle junk_engine.
Definition sample_engine := tcp_engine sample_xb sample_xs sample_xa zero_answer.

Section Check.
Variable x : unknowns.
Variable xs : send_unknowns.
Variable xa : asm_unknowns.
Variable xq : rx_send_queue_struct.

Definition engine_okb (e : engine) (i : engine_in) : bool :=
  implb (ei_hdr_val i) (flow_okb (est_flowid (ei_pkt i))) &&
  implb (nf_val (ei_new_flow i))
    (flow_okb (nf_flowid (ei_new_flow i)) && not_in_stagesb (est_flow_pipe (en_recv e)) (nf_flowid (ei_new_flow i))) &&
  implb (rd_val (ei_fsm_rx_rd i)) (flow_okb (rd_addr (ei_fsm_rx_rd i))) &&
  implb (rd_val (ei_fsm_tx_rd i)) (flow_okb (rd_addr (ei_fsm_tx_rd i))) &&
  Bool.eqb (rd_resp_rdy (ei_fsm_rx_rd i)) (rd_resp_rdy (ei_fsm_tx_rd i)) &&
  implb (wr_val (ei_rx_head_wr i)) (flow_okb (wr_addr (ei_rx_head_wr i))) &&
  implb (wr_val (ei_tx_tail_wr i)) (flow_okb (wr_addr (ei_tx_tail_wr i))) &&
  negb (stale_tail x (en_recv e) (engine_recv_in x xs xa xq e i)).

Fixpoint engine_oksb (ins : list engine_in) (e : engine) : bool :=
  match ins with [] => true | i :: ins' => engine_okb e i && engine_oksb ins' (engine_next x xs xa xq false i e) end.

Lemma engine_oksb_ok ins e : engine_oksb ins e = true → engine_oks x xs xa xq ins e.
Proof.
  revert e. induction ins as [|i ins IH]; intros e; [done|]. cbn [engine_oksb engine_oks].
  intros [H Hins]%andb_true_iff. split; [|by apply IH]. unfold engine_okb in H. rewrite !andb_true_iff in H.
  destruct H as [[[[[[[H1 H2] H3] H4] H5] H6] H7] H8].
  split; try (intros E; apply flow_okb_ok; by eapply implb_ok).
  - intros E. destruct (proj1 (andb_true_iff _ _) (implb_ok _ _ H2 E)) as [Hf Hn].
    split; [by apply flow_okb_ok|by apply not_in_stagesb_ok].
  - by apply Bool.eqb_prop.
  - by apply negb_true_iff.
Qed.
End Check.

Lemma junk_engine_sized : engine_sized junk_engine.
Proof. by repeat split. Qed.

Lemma engine_ins_ok : engine_oks sample_xb sample_xs sample_xa zero_answer engine_ins engine_start.
Proof. apply engine_oksb_ok. vm_compute. reflexivity. Qed.

Lemma tcp_engine_exchanges_witness :
  process (stored sample_xb (en_recv engine_start)) (engine_segments sample_xb sample_xs sample_xa zero_answer engine_start engine_ins) =
    writebacks (outputs (est_backend sample_xb) (recv_ins sample_xb sample_xs sample_xa zero_answer engine_ins engine_start)
                  (en_recv engine_start)) ++
    in_w (en_recv (after_cycles sample_engine engine_ins engine_start)) ∧
  summary <$> omap eo_tx (outputs sample_engine engine_ins engine_start) =
  [[7; 20; 12; 80; 6000; 1; 2; 4096; 0];
   [3; 20; 10; 80; 4000; sample_first; 1100; 4096; 1024]; [3; 20; 10; 80; 4000; 0; 1100; 4096; 1024];
   [3; 20; 10; 80; 4000; 1024; 1100; 4096; 448]; [3; 20; 10; 80; 4000; 1472; 1100; 4096; 4];
   [3; 20; 10; 80; 4000; 1476; 1150; 3996; 480]; [3; 20; 10; 80; 4000; 1956; 1150; 3996; 20]].
Proof.
  split; [|vm_compute; reflexivity].
  apply (tcp_engine_exchanges sample_xb sample_xs sample_xa zero_answer engine_idle junk_engine engine_ins junk_engine_sized
           engine_ins_ok).
  apply (bool_decide_unpack _). vm_compute. exact I.
Defined.

Lemma tcp_engine_closes_loop_witness :
  let ins := engine_ins in let e0 := engine_start in
  (∀ p h sent, Segment p h sent ∈ engine_segments sample_xb sample_xs sample_xa zero_answer e0 ins →
    ∃ before i later, ins = before ++ i :: later ∧
      sent = em_tx_curr_seq_num (emits (schedule_after (SendRun.start sample_xs (sp_send (path_of e0)))
              (engine_turns sample_xb sample_xs sample_xa zero_answer e0 before)) (est_flowid p))) ∧
  engine_segments sample_xb sample_xs sample_xa zero_answer e0 ins =
    [Opened 3 (FlowState (RecvStateEntry 1000 4096) (TxAckState 0 sample_first) 0);
     Segment (segment 3 1000 sample_first 100) 0 sample_first; Segment (segment 3 1100 0 50) 0 1476].
Proof.
  split; [|vm_compute; reflexivity]. intros p h sent Hin.
  refine (dated_elem _ _ _ _ (proj2 (proj2 (tcp_engine_closes_loop sample_xb sample_xs sample_xa zero_answer engine_idle
    junk_engine engine_ins junk_engine_sized engine_ins_ok _))) Hin).
  apply (bool_decide_unpack _). vm_compute. exact I.
Defined.
