(* ===== verification/TcpEngine.v ===== *)
(** TcpEngine: tcp_engine_wrapper.sv as a whole: RxPipe, which finds the
    connections and does their handshakes, wired to Engine, the two directions
    of the established ones.  What Engine supposes of its inputs is what RxPipe
    does. *)

From stdpp Require Import functions.
From S2P Require Import Prelude Rtl RamDual Fifo Fifo2w TcpPkg AckEngines EstArbiter FlowStores EstPipe.
From S2P Require Import EstBackend EstRun EstFlow TcpStateMachine RxFsm Cam IssuePipe Lfsr FsmHistory RxPipe.
From S2P Require Import SendStage SendPipe SendSched SendRun HdrAssembler SendPath Engine.

(** ** Wires *)

Record wrapper := Wrapper { wr_rx : rx_pipe; wr_engine : engine }.

(** The network, the application and the engine that copies the payloads.
    [wi_app_rdy] is the input of the handshake pipeline that nothing drives. *)
Record wrapper_in := WrapperIn {
  wi_hdr_val : bool;
  wi_pkt : issue_pkt;
  wi_app_rdy : bool;
  wi_rx_head_wr : wr_req Z;
  wi_rx_head_rd : rd_req_in;
  wi_commit_wr : wr_req Z;
  wi_commit_rd0 : rd_req_in;
  wi_commit_rd1 : rd_req_in;
  wi_store_buf_q_full : bool;
  wi_tx_tail_wr : wr_req Z;
  wi_tx_tail_rd : rd_req_in;
  wi_tx_head_rd : rd_req_in;
  wi_dst_rdy : bool }.

Record wrapper_out := WrapperOut { wo_rx : rx_pipe_out; wo_engine : engine_out }.

(** Whether every store takes a connection that is opened: always. *)
Definition new_flow_rdy : bool := wr_req_rdy && (wr2_req_rdy && wr2_req_rdy) && (wr2_req_rdy && wr2_req_rdy) && wr2_req_rdy.

(** What the handshake pipeline sends to the queue of the answers. *)
Definition answer_of (s : rx_fsm) : option rx_send_queue_struct :=
  let p := pkt_reg s in
  if fsm_send_pkt_enqueue_val s
  then Some (RxSendQueue (fsm_dst_ip p) (fsm_src_ip p) (fsm_flowid p) (hdr_of (send_tcp_hdr_reg s))) else None.

Definition new_flow_of (s : rx_fsm) : new_flow :=
  let h := hdr_of (send_tcp_hdr_reg s) in
  NewFlow (new_flow_val s) (fsm_flowid (pkt_reg s)) (rx_state_init h) (tx_state_init h) 0 0.

Section Wrapper.
Variable x : unknowns.
Variable xs : send_unknowns.
Variable xa : asm_unknowns.
Variable xq : rx_send_queue_struct.
Variable xt : tcp_flow_state_e.
Variable xf : fsm_pkt.
Variable xe : est_pkt.

Abbreviation fsm s := (fsm_pipe (wr_rx s)).
Abbreviation backend s := (en_recv (wr_engine s)).

(** The inputs of the front, given what the engine answers. *)
Definition front_wires (s : wrapper) (i : wrapper_in) (est_rdy grant resp_val : bool) : rx_pipe_in :=
  {| rpi_hdr_val := wi_hdr_val i; rpi_pkt := wi_pkt i; rpi_est_rdy := est_rdy;
     rpi_rd_grant := grant; rpi_rd_resp_val := resp_val;
     rpi_rx := default (x_rx x) (rd0_resp_data (rx_store (backend s)));
     rpi_tx := default (x_tx x) (recv_pipe_rd_resp_data (tx_store (backend s)));
     rpi_send_queue_full := fifo_full answers_log2 (rx_send_queue (wr_engine s));
     rpi_new_flow_rdy := new_flow_rdy; rpi_app_rdy := wi_app_rdy i |}.

(** The inputs of the engine, given what the front offers and whether it takes
    a response. *)
Definition engine_wires (s : wrapper) (i : wrapper_in) (est : option est_pkt) (resp_rdy : bool) : engine_in :=
  let f := fsm s in
  let rd := RdReq (fsm_state_rd_req_val f (fsm_wires xt xf (wr_rx s) (front_wires s i false false false)))
              (fsm_flowid (pkt_reg f)) resp_rdy in
  {| ei_hdr_val := bool_decide (is_Some est); ei_pkt := default zero_pkt est;
     ei_new_flow := new_flow_of f; ei_lookup_entry := flow_lookup_init (pkt_reg f);
     ei_fsm_rx_rd := rd; ei_fsm_tx_rd := rd; ei_answer := answer_of f;
     ei_rx_head_wr := wi_rx_head_wr i; ei_rx_head_rd := wi_rx_head_rd i; ei_commit_wr := wi_commit_wr i;
     ei_commit_rd0 := wi_commit_rd0 i; ei_commit_rd1 := wi_commit_rd1 i;
     ei_store_buf_q_full := wi_store_buf_q_full i; ei_tx_tail_wr := wi_tx_tail_wr i;
     ei_tx_tail_rd := wi_tx_tail_rd i; ei_tx_head_rd := wi_tx_head_rd i; ei_dst_rdy := wi_dst_rdy i |}.

(** Nothing loops: a response needs no request, the grant and the readiness of
    the pipeline of established connections need no packet. *)
Definition fsm_resp_val (s : wrapper) (i : wrapper_in) : bool :=
  arbiter_fsm_rd_resp_val (fsm_est_pipe_arbiter (backend s)) (engine_arb x (wr_engine s) (engine_wires s i None false)).
Definition fsm_resp_rdy (s : wrapper) (i : wrapper_in) : bool :=
  fsm_state_rd_resp_rdy (fsm s) (fsm_wires xt xf (wr_rx s) (front_wires s i false false (fsm_resp_val s i))).
Definition fsm_grant (s : wrapper) (i : wrapper_in) : bool :=
  arbiter_fsm_rd_req_grant (fsm_est_pipe_arbiter (backend s)) (engine_arb x (wr_engine s) (engine_wires s i None (fsm_resp_rdy s i))).
Definition est_rdy (s : wrapper) (i : wrapper_in) : bool :=
  bo_rdy (eo_recv (c_out (tcp_engine x xs xa xq) (wr_engine s) (engine_wires s i None (fsm_resp_rdy s i)))).

Definition front_in (s : wrapper) (i : wrapper_in) : rx_pipe_in :=
  front_wires s i (est_rdy s i) (fsm_grant s i) (fsm_resp_val s i).
Definition front_out (s : wrapper) (i : wrapper_in) : rx_pipe_out := c_out (rx_pipe_wrap xt xf xe) (wr_rx s) (front_in s i).
Definition engine_in_of (s : wrapper) (i : wrapper_in) : engine_in :=
  engine_wires s i (rpo_est (front_out s i)) (fsm_resp_rdy s i).

Definition wrapper_next (rst : bool) (i : wrapper_in) (s : wrapper) : wrapper :=
  {| wr_rx := rx_pipe_next xt xf rst (front_in s i) (wr_rx s);
     wr_engine := engine_next x xs xa xq rst (engine_in_of s i) (wr_engine s) |}.

Definition tcp_engine_wrapper : circuit wrapper wrapper_in wrapper_out := Circuit
  (λ s i, WrapperOut (front_out s i) (c_out (tcp_engine x xs xa xq) (wr_engine s) (engine_in_of s i)))
  wrapper_next.

(** What is fed back does not depend on the packet offered. *)
Lemma est_rdy_eq s i : bo_rdy (eo_recv (c_out (tcp_engine x xs xa xq) (wr_engine s) (engine_in_of s i))) = est_rdy s i.
Proof. reflexivity. Qed.
Lemma fsm_grant_eq s i :
  arbiter_fsm_rd_req_grant (fsm_est_pipe_arbiter (backend s)) (engine_arb x (wr_engine s) (engine_in_of s i)) = fsm_grant s i.
Proof. reflexivity. Qed.
Lemma fsm_resp_val_eq s i :
  arbiter_fsm_rd_resp_val (fsm_est_pipe_arbiter (backend s)) (engine_arb x (wr_engine s) (engine_in_of s i)) = fsm_resp_val s i.
Proof. reflexivity. Qed.
Lemma fsm_resp_rdy_eq s i : fsm_state_rd_resp_rdy (fsm s) (fsm_wires xt xf (wr_rx s) (front_in s i)) = fsm_resp_rdy s i.
Proof. reflexivity. Qed.

(** ** Both parts of a run *)

Definition front_ins : list wrapper_in → wrapper → list rx_pipe_in :=
  fix go ins s := match ins with [] => [] | i :: ins' => front_in s i :: go ins' (wrapper_next false i s) end.
Definition engine_ins_of : list wrapper_in → wrapper → list engine_in :=
  fix go ins s := match ins with [] => [] | i :: ins' => engine_in_of s i :: go ins' (wrapper_next false i s) end.

Lemma wrapper_parts ins s :
  wr_rx (after_cycles tcp_engine_wrapper ins s) = after_cycles (rx_pipe_wrap xt xf xe) (front_ins ins s) (wr_rx s) ∧
  wr_engine (after_cycles tcp_engine_wrapper ins s) =
    after_cycles (tcp_engine x xs xa xq) (engine_ins_of ins s) (wr_engine s).
Proof. revert s. induction ins as [|i ins IH]; intros s; [done|]. exact (IH (wrapper_next false i s)). Qed.

Lemma wrapper_outputs ins s :
  wo_rx <$> outputs tcp_engine_wrapper ins s = outputs (rx_pipe_wrap xt xf xe) (front_ins ins s) (wr_rx s) ∧
  wo_engine <$> outputs tcp_engine_wrapper ins s = outputs (tcp_engine x xs xa xq) (engine_ins_of ins s) (wr_engine s).
Proof.
  revert s. induction ins as [|i ins IH]; intros s; [done|]. destruct (IH (wrapper_next false i s)) as [H1 H2].
  cbn [outputs front_ins engine_ins_of fmap list_fmap]. split; [exact (f_equal _ H1)|exact (f_equal _ H2)].
Qed.

Lemma front_ins_app ins ins' s :
  front_ins (ins ++ ins') s = front_ins ins s ++ front_ins ins' (after_cycles tcp_engine_wrapper ins s).
Proof. revert s. induction ins as [|i ins IH]; intros s; [done|]. cbn [front_ins app]. f_equal. apply IH. Qed.
Lemma engine_ins_app ins ins' s :
  engine_ins_of (ins ++ ins') s = engine_ins_of ins s ++ engine_ins_of ins' (after_cycles tcp_engine_wrapper ins s).
Proof. revert s. induction ins as [|i ins IH]; intros s; [done|]. cbn [engine_ins_of app]. f_equal. apply IH. Qed.

(** ** What the inputs may be

    The application writes the pointers of connections there are; no packet
    enters C in the cycle in which an accepted one of its connection leaves W. *)
Record wrapper_ok (s : wrapper) (i : wrapper_in) : Prop := {
  w_head : wr_val (wi_rx_head_wr i) = true → flow_ok (wr_addr (wi_rx_head_wr i));
  w_tail : wr_val (wi_tx_tail_wr i) = true → flow_ok (wr_addr (wi_tx_tail_wr i));
  w_fresh : stale_tail x (backend s) (engine_recv_in x xs xa xq (wr_engine s) (engine_in_of s i)) = false }.

Fixpoint wrapper_oks (ins : list wrapper_in) (s : wrapper) : Prop :=
  match ins with [] => True | i :: ins' => wrapper_ok s i ∧ wrapper_oks ins' (wrapper_next false i s) end.

Lemma wrapper_oks_snoc ins i s :
  wrapper_oks (ins ++ [i]) s → wrapper_oks ins s ∧ wrapper_ok (after_cycles tcp_engine_wrapper ins s) i.
Proof.
  revert s. induction ins as [|j ins IH]; intros s; [by intros [? _]|]. intros [Hj H].
  destruct (IH _ H) as [H1 H2]. split; [by split|exact H2].
Qed.

Lemma engine_oks_app ins i e :
  engine_oks x xs xa xq ins e → engine_ok x xs xa xq (after_cycles (tcp_engine x xs xa xq) ins e) i →
  engine_oks x xs xa xq (ins ++ [i]) e.
Proof. revert e. induction ins as [|j ins IH]; intros e H Hi; [by split|]. destruct H as [Hj H]. split; [done|]. by apply IH. Qed.

(** ** The packets of the other pipeline *)

(** All that is in its stages is of connections with a property. *)
Definition stages_of (P : Z → Prop) (p : est_pipe) : Prop :=
  (est_hdr_val_reg_r p = true → P (est_flowid_reg_r p)) ∧
  (est_hdr_val_reg_c p = true → P (est_flowid_reg_c p)) ∧
  (est_hdr_val_reg_w p = true → P (est_flowid_reg_w p)).

Lemma stages_of_weaken (P Q : Z → Prop) p : (∀ n, P n → Q n) → stages_of P p → stages_of Q p.
Proof. intros H (H1 & H2 & H3). split_and!; auto. Qed.

Lemma stages_of_not P p n : stages_of P p → ¬ P n → not_in_stages p n.
Proof. intros (H1 & H2 & H3) Hn. split_and!; intros E <-; auto. Qed.

Lemma stages_of_next P h L b j :
  EstRun.inv x h L b → legal b j → stages_of P (est_flow_pipe b) →
  (bi_hdr_val j && bo_rdy (c_out (est_backend x) b j) = true → P (est_flowid (bi_pkt j))) →
  stages_of P (est_flow_pipe (backend_next x false j b)).
Proof.
  intros Hinv Hl (Hr & Hc & Hw) Hj. destruct (EstRun.val_r_next x b j) as [Vr Pr]. destruct (EstRun.val_c_next x b j) as [Vc Pc].
  pose proof (EstRun.val_w_next x b j) as Vw. split_and!.
  - unfold est_flowid_reg_r. rewrite Vr, Pr. destruct (stalled_r x b j) eqn:E; [exact Hr|]. intros Ev. apply Hj. rewrite Ev.
    by rewrite EstRun.bo_rdy_eq, E.
  - unfold est_flowid_reg_c. rewrite Vc, Pc. destruct (stalled_c x b j) eqn:E.
    + intros _. apply Hc. rewrite (EstRun.stalled_c_eq x h L b j Hinv) in E. by apply andb_true_iff in E as [].
    + intros [Er _]%andb_true_iff. by apply Hr.
  - rewrite Vw. destruct (stalled_w x b j) eqn:E.
    + destruct (EstRun.w_kept x b j E) as (-> & _). exact Hw.
    + intros [Ec _]%andb_true_iff. destruct (EstRun.w_taken x h L b j Hinv Hl E Ec) as (-> & _). by apply Hc.
Qed.

(** ** The engine is used as it supposes *)

Section Run.
Variable s0 : wrapper.
Hypothesis Hrx : rx_inv [] [] [] [] no_connections (Reads TCP_NONE zero_rx zero_tx) [] [] (wr_rx s0).
Hypothesis Hen : engine_inv x xs xa xq (wr_engine s0) [].
Hypothesis Hst : stages_of (λ _, False) (est_flow_pipe (backend s0)).

Abbreviation after ins := (after_cycles tcp_engine_wrapper ins s0).
Abbreviation front_outs ins := (outputs (rx_pipe_wrap xt xf xe) (front_ins ins s0) (wr_rx s0)).
Abbreviation effects ins := (run_effects (front_outs ins)).
Abbreviation given ins := (run_est (front_ins ins s0) (front_outs ins)).
Abbreviation dealt_with ins := (run_handled xt xf (front_ins ins s0) (wr_rx s0)).
Abbreviation engine_run_ins ins := (engine_ins_of ins s0).

Lemma front_inv ins :
  ∃ sent d q rq, rx_inv (dealt_with ins) (effects ins) (given ins) sent d
    (reads_run (Reads TCP_NONE zero_rx zero_tx) (fsm_ins xt xf (front_ins ins s0) (wr_rx s0)) (fsm s0)) q rq (wr_rx (after ins)).
Proof.
  destruct (rx_run xt xf xe _ _ _ _ _ _ _ _ _ (front_ins ins s0) Hrx) as (q & rq & H). cbn [app] in H.
  eexists _, _, q, rq. rewrite (proj1 (wrapper_parts ins s0)). exact H.
Qed.

Lemma outs_snoc ins i : front_outs (ins ++ [i]) = front_outs ins ++ [front_out (after ins) i].
Proof.
  rewrite front_ins_app. cbn [front_ins]. unfold front_out. rewrite (proj1 (wrapper_parts ins s0)).
  generalize (front_in (after ins) i) as j. generalize (wr_rx s0) as r. generalize (front_ins ins s0) as l.
  induction l as [|k l IH]; intros r j; [done|]. cbn [app outputs]. by rewrite IH.
Qed.

Lemma length_front_ins ins s : length (front_ins ins s) = length ins.
Proof. revert s. induction ins as [|i ins IH]; intros s; [done|]. cbn. by rewrite IH. Qed.
Lemma length_outs ins : length (front_outs ins) = length (front_ins ins s0).
Proof.
  generalize (wr_rx s0) as r. generalize (front_ins ins s0) as l. induction l as [|k l IH]; intros r; [done|]. cbn. by rewrite IH.
Qed.

Lemma given_snoc ins i : given (ins ++ [i]) = given ins ++ est_taken (front_in (after ins) i) (front_out (after ins) i).
Proof.
  rewrite outs_snoc, front_ins_app. unfold run_est. rewrite zip_with_app by (by rewrite length_outs). rewrite concat_app.
  cbn [front_ins zip_with concat]. by rewrite app_nil_r.
Qed.

Lemma effects_snoc ins i : effects (ins ++ [i]) = effects ins ++ rpo_effects (front_out (after ins) i).
Proof. rewrite outs_snoc. unfold run_effects. rewrite bind_app. cbn. by rewrite app_nil_r. Qed.

(** A connection is opened in the engine when the front opens it. *)
Lemma opened_effects f w :
  opened_by (fsm_effects f w) = if new_flow_val f && RxFsm.new_flow_rdy w then [fsm_flowid (pkt_reg f)] else [].
Proof.
  unfold fsm_effects. rewrite !opened_by_app. unfold RxFsm.when.
  by destruct (fsm_reinject_q_enq_req_val f w), (tcp_fsm_clear_flowid_val f w), (new_flow_val f && _),
    (next_flow_state_wr_req_val f && _), (fsm_send_pkt_enqueue_val f && _), (app_new_flow_notif_val f && _).
Qed.

Lemma openings_effects ins : openings (engine_run_ins ins) = opened_by (effects ins).
Proof.
  induction ins as [|i ins IH] using rev_ind; [done|]. rewrite effects_snoc, opened_by_app, engine_ins_app, <- IH.
  unfold openings. rewrite bind_app. f_equal. cbn [engine_ins_of mbind list_bind]. rewrite app_nil_r.
  unfold front_out. cbn [rpo_effects c_out rx_pipe_wrap]. rewrite opened_effects.
  cbn [ei_new_flow engine_in_of engine_wires nf_val nf_flowid new_flow_of RxFsm.new_flow_rdy fsm_wires rpi_new_flow_rdy front_in front_wires].
  change new_flow_rdy with true. by rewrite andb_true_r.
Qed.

Lemma openings_nodup ins : NoDup (openings (engine_run_ins ins)).
Proof.
  rewrite openings_effects. destruct (front_inv ins) as (sent & d & q & rq & H).
  pose proof (opened_once _ (x_handled H)) as Hn. rewrite <- (x_todo H), opened_by_app in Hn. by apply NoDup_app in Hn as [Hn _].
Qed.

(** The reads of the handshake pipeline are for a connection there is. *)
Lemma fsm_read_pending f w : fsm_state_rd_req_val f w = true → pkt_reg f ∈ pending f.
Proof.
  unfold fsm_state_rd_req_val, in_state, pending. destruct (ctrl_state_reg f); cbn; try done; intros _; by left.
Qed.

Lemma engine_ok_next ins i :
  stages_of (λ n, n ∈ est_flowid <$> given ins) (est_flow_pipe (backend (after ins))) → wrapper_ok (after ins) i →
  engine_ok x xs xa xq (wr_engine (after ins)) (engine_in_of (after ins) i).
Proof.
  intros Hs Hi. destruct (front_inv ins) as (sent & d & q & rq & H).
  assert (Hrd : fsm_state_rd_req_val (fsm (after ins)) (fsm_wires xt xf (wr_rx (after ins)) (front_wires (after ins) i false false false)) = true →
    flow_ok (fsm_flowid (pkt_reg (fsm (after ins))))).
  { intros E. eapply numbers_ok; [exact H|]. eapply pending_flow; [exact H|]. by eapply fsm_read_pending. }
  split; cbn [ei_hdr_val ei_pkt ei_new_flow ei_fsm_rx_rd ei_fsm_tx_rd ei_rx_head_wr ei_tx_tail_wr engine_in_of engine_wires
    nf_val nf_flowid new_flow_of rd_val rd_addr].
  - unfold front_out. destruct (rpo_est _) as [p|] eqn:E; [|done]. intros _. exact (offered_flow _ _ _ _ _ _ _ _ _ _ _ _ _ H p E).
  - intros E. destruct (opening_fresh _ _ _ _ _ _ _ _ _ H E) as (H1 & _ & H3). split; [exact H1|].
    apply (stages_of_not _ _ _ Hs). intros Hin. apply H3. rewrite fmap_app, elem_of_app. by left.
  - exact Hrd.
  - exact Hrd.
  - done.
  - apply Hi.
  - apply Hi.
  - apply Hi.
Qed.

Lemma after_wrapper_snoc ins i : after (ins ++ [i]) = wrapper_next false i (after ins).
Proof. unfold after_cycles. by rewrite fold_left_app. Qed.

Lemma wrapper_legal ins i :
  engine_oks x xs xa xq (engine_run_ins ins) (wr_engine s0) →
  stages_of (λ n, n ∈ est_flowid <$> given ins) (est_flow_pipe (backend (after ins))) → wrapper_ok (after ins) i →
  ∃ h L, EstRun.inv x h L (backend (after ins)) ∧
    legal (backend (after ins)) (engine_recv_in x xs xa xq (wr_engine (after ins)) (engine_in_of (after ins) i)).
Proof.
  intros He Hs Hi. pose proof (engine_ok_next ins i Hs Hi) as Hni.
  destruct (engine_run x xs xa xq _ _ Hen He (openings_nodup ins)) as [Hinv _].
  pose proof (openings_nodup (ins ++ [i])) as Hnd. rewrite engine_ins_app in Hnd. cbn [engine_ins_of] in Hnd.
  pose proof (engine_legal x xs xa xq _ _ (engine_in_of (after ins) i) Hinv) as Hl.
  pose proof (v_recv _ _ _ _ _ _ Hinv) as Hv. rewrite <- (proj2 (wrapper_parts ins s0)) in Hl, Hv.
  eexists _, _. split; [exact Hv|exact (Hl Hni Hnd)].
Qed.

Lemma wrapper_run ins :
  wrapper_oks ins s0 →
  engine_oks x xs xa xq (engine_run_ins ins) (wr_engine s0) ∧
  stages_of (λ n, n ∈ est_flowid <$> given ins) (est_flow_pipe (backend (after ins))).
Proof.
  induction ins as [|i ins IH] using rev_ind; intros Hok.
  { split; [done|]. eapply stages_of_weaken; [|exact Hst]. done. }
  destruct (wrapper_oks_snoc _ _ _ Hok) as [Hok' Hi]. destruct (IH Hok') as [He Hs]. clear IH Hok.
  destruct (wrapper_legal ins i He Hs Hi) as (h & L & Hv & Hl). rewrite engine_ins_app. cbn [engine_ins_of]. split.
  - apply engine_oks_app; [done|]. rewrite <- (proj2 (wrapper_parts ins s0)). by apply engine_ok_next.
  - rewrite after_wrapper_snoc. cbn [wr_engine wrapper_next en_recv engine_next].
    eapply stages_of_next; [exact Hv|exact Hl| |].
    + eapply stages_of_weaken; [|exact Hs]. intros n. cbn beta. rewrite given_snoc, fmap_app, elem_of_app. by left.
    + rewrite given_snoc, fmap_app, elem_of_app. intros Ha. right. apply andb_true_iff in Ha as [Hval Hrdy].
      cbn [bi_hdr_val bi_pkt engine_recv_in recv_base ei_hdr_val ei_pkt engine_in_of engine_wires] in *.
      apply bool_decide_eq_true in Hval as [p Ep]. rewrite Ep. unfold est_taken. rewrite Ep.
      change (rpi_est_rdy (front_in (after ins) i)) with (est_rdy (after ins) i). rewrite <- est_rdy_eq.
      change (bo_rdy (eo_recv (c_out (tcp_engine x xs xa xq) (wr_engine (after ins)) (engine_in_of (after ins) i)))) with
        (bo_rdy (c_out (est_backend x) (backend (after ins)) (engine_recv_in x xs xa xq (wr_engine (after ins)) (engine_in_of (after ins) i)))).
      rewrite Hrdy. by left.
Qed.
End Run.

(** ** The signals between the two *)

Abbreviation front_outs ins s := (outputs (rx_pipe_wrap xt xf xe) (front_ins ins s) (wr_rx s)).

(** The answers the handshake pipeline asks for, and the addresses of the
    connections it opens. *)
Definition answers_of (es : list effect) : list rx_send_queue_struct :=
  omap (λ e, match e with SendPkt f src dst h => Some (RxSendQueue src dst f h) | _ => None end) es.
Definition entries_of (es : list effect) : list (Z * four_tuple_struct) :=
  omap (λ e, match e with RxFsm.OpenFlow f entry _ _ => Some (f, entry) | _ => None end) es.

Lemma answers_effects f w :
  answers_of (fsm_effects f w) = if fsm_send_pkt_enqueue_rdy w then option_list (answer_of f) else [].
Proof.
  unfold fsm_effects, answers_of. rewrite !omap_app. unfold RxFsm.when, answer_of.
  by destruct (fsm_reinject_q_enq_req_val f w), (tcp_fsm_clear_flowid_val f w), (new_flow_val f && _),
    (next_flow_state_wr_req_val f && _), (fsm_send_pkt_enqueue_val f), (fsm_send_pkt_enqueue_rdy w), (app_new_flow_notif_val f && _).
Qed.

Lemma entries_effects f w :
  entries_of (fsm_effects f w) =
    if new_flow_val f && RxFsm.new_flow_rdy w then [(fsm_flowid (pkt_reg f), flow_lookup_init (pkt_reg f))] else [].
Proof.
  unfold fsm_effects, entries_of. rewrite !omap_app. unfold RxFsm.when.
  by destruct (fsm_reinject_q_enq_req_val f w), (tcp_fsm_clear_flowid_val f w), (new_flow_val f && _),
    (next_flow_state_wr_req_val f && _), (fsm_send_pkt_enqueue_val f && _), (app_new_flow_notif_val f && _).
Qed.

Lemma effects_cons i ins s :
  run_effects (front_outs (i :: ins) s) = rpo_effects (front_out s i) ++ run_effects (front_outs ins (wrapper_next false i s)).
Proof. reflexivity. Qed.

Lemma answers_run ins s :
  answers_taken x xs xa xq (engine_ins_of ins s) (wr_engine s) = answers_of (run_effects (front_outs ins s)).
Proof.
  revert s. induction ins as [|i ins IH]; intros s; [done|]. rewrite effects_cons. unfold answers_of. rewrite omap_app.
  cbn [engine_ins_of answers_taken]. f_equal; [|exact (IH (wrapper_next false i s))].
  unfold front_out. cbn [rpo_effects c_out rx_pipe_wrap]. fold (answers_of (fsm_effects (fsm s) (fsm_wires xt xf (wr_rx s) (front_in s i)))).
  rewrite answers_effects. unfold answer_taken.
  cbn [fsm_send_pkt_enqueue_rdy fsm_wires rpi_send_queue_full front_in front_wires ei_answer engine_in_of engine_wires].
  by destruct (fifo_full answers_log2 (rx_send_queue (wr_engine s))).
Qed.

Lemma entries_run ins s :
  entries (path_ins x xs xa xq (engine_ins_of ins s) (wr_engine s)) = entries_of (run_effects (front_outs ins s)).
Proof.
  revert s. induction ins as [|i ins IH]; intros s; [done|]. rewrite effects_cons. unfold entries_of, entries. rewrite omap_app.
  cbn [engine_ins_of path_ins mbind list_bind]. f_equal; [|exact (IH (wrapper_next false i s))].
  unfold front_out. cbn [rpo_effects c_out rx_pipe_wrap]. fold (entries_of (fsm_effects (fsm s) (fsm_wires xt xf (wr_rx s) (front_in s i)))).
  rewrite entries_effects. unfold entry_of.
  cbn [sp_new_flow sp_lookup_entry engine_path_in ei_new_flow ei_lookup_entry engine_in_of engine_wires nf_val nf_flowid new_flow_of
    RxFsm.new_flow_rdy fsm_wires rpi_new_flow_rdy front_in front_wires].
  change new_flow_rdy with true. by rewrite andb_true_r.
Qed.

(** What the one offers and the other takes. *)
Lemma given_run ins s :
  let e := wr_engine s in
  accepted_pkts (recv_ins x xs xa xq (engine_ins_of ins s) e)
    (outputs (est_backend x) (recv_ins x xs xa xq (engine_ins_of ins s) e) (en_recv e)) =
  run_est (front_ins ins s) (front_outs ins s).
Proof.
  revert s. induction ins as [|i ins IH]; intros s; [done|]. cbn zeta in *. cbn [engine_ins_of recv_ins front_ins].
  rewrite EstRun.accepted_cons. unfold run_est. cbn [outputs zip_with concat]. f_equal; [|exact (IH (wrapper_next false i s))].
  unfold est_taken. change (c_out (rx_pipe_wrap xt xf xe) (wr_rx s) (front_in s i)) with (front_out s i).
  change (rpi_est_rdy (front_in s i)) with (est_rdy s i). rewrite <- est_rdy_eq.
  change (bo_rdy (eo_recv (c_out (tcp_engine x xs xa xq) (wr_engine s) (engine_in_of s i)))) with
    (bo_rdy (c_out (est_backend x) (en_recv (wr_engine s)) (engine_recv_in x xs xa xq (wr_engine s) (engine_in_of s i)))).
  cbn [bi_hdr_val bi_pkt engine_recv_in recv_base ei_hdr_val ei_pkt engine_in_of engine_wires].
  destruct (bo_rdy _); [|by rewrite andb_false_r]. by destruct (rpo_est (front_out s i)).
Qed.

Definition wrapper_sized (s : wrapper) : Prop := rx_pipe_sized (wr_rx s) ∧ engine_sized (wr_engine s).

Lemma wrapper_reset_run i0 s ins :
  wrapper_sized s → let s0 := wrapper_next true i0 s in wrapper_oks ins s0 →
  engine_oks x xs xa xq (engine_ins_of ins s0) (wr_engine s0) ∧ NoDup (openings (engine_ins_of ins s0)).
Proof.
  intros [H1 H2] s0 Hok. pose proof (rx_inv_reset xt xf (front_in s i0) _ H1) as Hrx. split.
  - refine (proj1 (wrapper_run s0 Hrx (engine_inv_reset x xs xa xq (engine_in_of s i0) _ H2) _ ins Hok)). by repeat split.
  - exact (openings_nodup s0 Hrx ins).
Qed.

(** C1: what the engine does.  In any run of the whole from a reset on, whatever
    the memories held, in which the application writes the pointers of
    connections there are and no packet enters the computing stage of the
    pipeline in the cycle in which an accepted one of its connection leaves the
    last (it would read a tail that is out of date): what the handshake pipeline
    asks for are decisions made one after the other, each on the state the ones
    before it left; the packets given to the other pipeline are processed one at
    a time, in their order, and what is written back is what that gives; and what
    leaves are the answers asked for, first in first out, merged with the packets
    of the turns of the connections, in the order of the turns, none lost and
    none twice but for those on their way; each of the latter has the addresses
    its connection was opened with and the receive state read for it; and in
    every cycle in which one is read, it is what the processing of the packets of
    its connection gives, of all that have been processed before that cycle or of
    all but one that is in the last stage of the pipeline then, being written
    back. *)
Theorem wrapper_exchanges i0 s ins :
  wrapper_sized s →
  let s0 := wrapper_next true i0 s in let s1 := after_cycles tcp_engine_wrapper ins s0 in
  wrapper_oks ins s0 →
  let effects := run_effects (front_outs ins s0) in let given := run_est (front_ins ins s0) (front_outs ins s0) in
  let hs := run_handled xt xf (front_ins ins s0) (wr_rx s0) in
  let e0 := wr_engine s0 in let e1 := wr_engine s1 in let eins := engine_ins_of ins s0 in
  let es := engine_segments x xs xa xq e0 eins in let bouts := outputs (est_backend x) (recv_ins x xs xa xq eins e0) (en_recv e0) in
  let ts := turns (SendRun.start xs (sp_send (path_of e0))) (engine_turns x xs xa xq e0 eins) in
  (consistent hs ∧ effects ++ todo (fsm s1) = hs ≫= handled_effects) ∧
  (given = segments es ++ in_stages (en_recv e1) ∧ process (stored x (en_recv e0)) es = writebacks bouts ++ in_w (en_recv e1)) ∧
  ∃ answers queued packets (done : list dressed),
    answers_of effects = answers ++ queued ∧ fifo_rel answers_log2 (rx_send_queue e1) queued ∧
    merged (answer_pkt <$> answers) packets (omap eo_tx (wo_engine <$> outputs tcp_engine_wrapper ins s0)) ∧
    packets ++ dst_in (en_asm e1) = assemble <$> done ∧
    omap pkt_of ts = (dr_pkt <$> done) ++ pkts_in (en_asm e1) ∧
    engine_reads x xs xa xq e0 eins = ((λ d, (dr_pkt d, dr_rx d)) <$> done) ++ reads_in (en_asm e1) ∧
    dated (engine_reads x xs xa xq e0) (header_fits x xs xa xq e0) eins ∧
    Forall (λ d, (tp_flowid (dr_pkt d), dr_addr d) ∈ entries_of effects) done.
Proof.
  intros Hs s0 s1 Hok effects given hs e0 e1 eins es bouts ts.
  destruct (wrapper_reset_run i0 s ins Hs Hok) as [He Hn]. destruct Hs as [H1 H2].
  pose proof (rx_inv_reset xt xf (front_in s i0) _ H1) as Hrx. split.
  - destruct (front_inv s0 Hrx ins) as (sent & d & q & rq & H). split; [exact (x_handled H)|exact (x_todo H)].
  - destruct (tcp_engine_exchanges x xs xa xq (engine_in_of s i0) (wr_engine s) eins H2 He Hn) as (Ha & answers & queued & packets & done & Hb).
    destruct (wrapper_parts ins s0) as [_ P2]. destruct (wrapper_outputs ins s0) as [_ O2].
    fold s1 e1 eins e0 in P2. change (engine_next x xs xa xq true (engine_in_of s i0) (wr_engine s)) with e0 in *.
    cbn zeta in Ha, Hb. rewrite <- P2 in Ha, Hb. rewrite O2.
    assert (Eg : accepted_pkts (recv_ins x xs xa xq eins e0) bouts = given) by exact (given_run ins s0).
    assert (Ea : answers_taken x xs xa xq eins e0 = answers_of effects) by exact (answers_run ins s0).
    assert (En : entries (path_ins x xs xa xq eins e0) = entries_of effects) by exact (entries_run ins s0).
    fold bouts in Ha. rewrite Eg in Ha. rewrite Ea, En in Hb. split; [exact Ha|]. by exists answers, queued, packets, done.
Qed.

(** C3: the two directions work on each other's state.  In any run of the whole
    from a reset on, whatever the memories held, in which the application writes
    the pointers of connections there are and no packet enters the computing
    stage of the pipeline in the cycle in which an accepted one of its connection
    leaves the last, in every cycle: the receive state, acknowledged number and
    window, that a header made in the cycle is given is what the processing of
    the packets of its connection, one at a time, gives: of all that have been
    processed before the cycle, or of all but one that is in the last stage then;
    the acknowledged number that a connection finds when it enters the second
    stage of the send pipeline is that of the packets processed up to the end of
    the cycle, or of all but one in the last stage then, and these are, in their
    order, the numbers the turns are taken with, but for those of the
    connections still in the two stages; and a packet that is processed in the
    cycle is processed with the sequence number the sender of its connection has
    reached by the turns taken before the cycle. *)
Theorem wrapper_closes_loop i0 s ins :
  wrapper_sized s →
  let s0 := wrapper_next true i0 s in let e0 := wr_engine s0 in let eins := engine_ins_of ins s0 in
  let e1 := wr_engine (after_cycles tcp_engine_wrapper ins s0) in
  wrapper_oks ins s0 →
  let q0 := SendRun.start xs (sp_send (path_of e0)) in
  dated (engine_reads x xs xa xq e0) (header_fits x xs xa xq e0) eins ∧
  (dated (engine_looks x xs xa xq e0) (look_fits x xs xa xq e0) eins ∧
   engine_looks x xs xa xq e0 eins =
     turn_acks q0 (engine_turns x xs xa xq e0 eins) ++ looks_in (engine_seen x xs xa xq e0 eins) (en_main e1)) ∧
  dated (engine_segments x xs xa xq e0) (segment_fits x xs xa xq e0) eins.
Proof.
  intros Hs s0 e0 eins e1 Hok q0. destruct (wrapper_reset_run i0 s ins Hs Hok) as [He Hn].
  assert (E1 : e1 = after_cycles (tcp_engine x xs xa xq) eins e0) by exact (proj2 (wrapper_parts ins s0)). rewrite E1.
  exact (tcp_engine_closes_loop x xs xa xq (engine_in_of s i0) (wr_engine s) eins (proj2 Hs) He Hn).
Qed.
End Wrapper.

(** ** A concrete run

    A client does the handshake and sends 10 bytes right after its ACK, which
    come to the handshake pipeline before the connection is established and are
    given back; the application writes 1500 bytes; later the client acknowledges
    1024 of them with 10 bytes more. *)

Definition wrapper_cycle (pkt : option issue_pkt) (tail : option (Z * Z)) (rdy : bool) : wrapper_in :=
  {| wi_hdr_val := bool_decide (is_Some pkt); wi_pkt := default zero_issue_pkt pkt; wi_app_rdy := true;
     wi_rx_head_wr := WrReq false 0 0; wi_rx_head_rd := no_rd; wi_commit_wr := WrReq false 0 0;
     wi_commit_rd0 := no_rd; wi_commit_rd1 := no_rd; wi_store_buf_q_full := false;
     wi_tx_tail_wr := WrReq (bool_decide (is_Some tail)) (default 0 (fst <$> tail)) (default 0 (snd <$> tail));
     wi_tx_tail_rd := no_rd; wi_tx_head_rd := no_rd; wi_dst_rdy := rdy |}.
Definition wrapper_idle : wrapper_in := wrapper_cycle None None true.
Definition wrapper_ins : list wrapper_in :=
  [wrapper_cycle (Some (conn_pkt 1000 100 0 FLAG_SYN false)) None true] ++ replicate 24 wrapper_idle ++
  [wrapper_cycle (Some (conn_pkt 1000 101 4096 FLAG_ACK false)) None true;
   wrapper_cycle (Some (conn_pkt 1000 101 4096 FLAG_ACK true)) None true] ++
  replicate 24 wrapper_idle ++
  [wrapper_cycle None (Some (0, tx_ptr (4096 + 1500))) true] ++ replicate 12 wrapper_idle ++
  [wrapper_cycle None None false] ++ replicate 12 wrapper_idle ++
  [wrapper_cycle (Some (conn_pkt 1000 111 (4096 + 1024) FLAG_ACK true)) None true] ++ replicate 24 wrapper_idle.

Definition junk_wrapper : wrapper := Wrapper junk_rx_pipe junk_engine.
Definition sample_wrapper : circuit wrapper wrapper_in wrapper_out :=
  tcp_engine_wrapper sample_xb sample_xs sample_xa zero_answer TCP_UND zero_fsm_pkt zero_pkt.
Definition wrapper_start : wrapper := c_next sample_wrapper true wrapper_idle junk_wrapper.
Abbreviation sample_front_ins := (front_ins sample_xb sample_xs sample_xa zero_answer TCP_UND zero_fsm_pkt zero_pkt).
Abbreviation sample_engine_ins := (engine_ins_of sample_xb sample_xs sample_xa zero_answer TCP_UND zero_fsm_pkt zero_pkt).

Section Check.
Variable x : unknowns.
Variable xs : send_unknowns.
Variable xa : asm_unknowns.
Variable xq : rx_send_queue_struct.
Variable xt : tcp_flow_state_e.
Variable xf : fsm_pkt.
Variable xe : est_pkt.

Definition wrapper_okb (s : wrapper) (i : wrapper_in) : bool :=
  implb (wr_val (wi_rx_head_wr i)) (flow_okb (wr_addr (wi_rx_head_wr i))) &&
  implb (wr_val (wi_tx_tail_wr i)) (flow_okb (wr_addr (wi_tx_tail_wr i))) &&
  negb (stale_tail x (en_recv (wr_engine s))
          (engine_recv_in x xs xa xq (wr_engine s) (engine_in_of x xs xa xq xt xf xe s i))).

Fixpoint wrapper_oksb (ins : list wrapper_in) (s : wrapper) : bool :=
  match ins with
  | [] => true
  | i :: ins' => wrapper_okb s i && wrapper_oksb ins' (wrapper_next x xs xa xq xt xf xe false i s)
  end.

Lemma wrapper_oksb_ok ins s : wrapper_oksb ins s = true → wrapper_oks x xs xa xq xt xf xe ins s.
Proof.
  revert s. induction ins as [|i ins IH]; intros s; [done|]. cbn [wrapper_oksb wrapper_oks].
  intros [H Hins]%andb_true_iff. split; [|by apply IH]. unfold wrapper_okb in H. rewrite !andb_true_iff in H.
  destruct H as [[H1 H2] H3]. split; [| |by apply negb_true_iff]; intros E; apply flow_okb_ok; by eapply implb_ok.
Qed.
End Check.

Lemma junk_wrapper_sized : wrapper_sized junk_wrapper.
Proof. split; [exact junk_rx_pipe_sized|exact junk_engine_sized]. Qed.

Lemma wrapper_ins_ok : wrapper_oks sample_xb sample_xs sample_xa zero_answer TCP_UND zero_fsm_pkt zero_pkt wrapper_ins wrapper_start.
Proof. apply wrapper_oksb_ok. vm_compute. reflexivity. Qed.

Lemma wrapper_exchanges_witness :
  let fins := sample_front_ins wrapper_ins wrapper_start in
  let effects := run_effects (outputs sample_rx fins (wr_rx wrapper_start)) in
  effects ++ todo (fsm_pipe (wr_rx (after_cycles sample_wrapper wrapper_ins wrapper_start))) =
    run_handled TCP_UND zero_fsm_pkt fins (wr_rx wrapper_start) ≫= handled_effects ∧
  (λ p, (est_flowid p, seq_num (est_tcp_hdr p))) <$> run_est fins (outputs sample_rx fins (wr_rx wrapper_start)) =
    [(0, 101); (0, 111)] ∧
  summary <$> omap eo_tx (wo_engine <$> outputs sample_wrapper wrapper_ins wrapper_start) =
    [[0; 1; 2; 80; 1000; 4095; 101; 4096; 0]; [0; 1; 2; 80; 1000; 4096; 111; 4096; 1024];
     [0; 1; 2; 80; 1000; 5120; 111; 4096; 448]; [0; 1; 2; 80; 1000; 5568; 111; 4096; 28]].
Proof.
  split; [|vm_compute; by split].
  exact (proj2 (proj1 (wrapper_exchanges sample_xb sample_xs sample_xa zero_answer TCP_UND zero_fsm_pkt zero_pkt wrapper_idle
    junk_wrapper wrapper_ins junk_wrapper_sized wrapper_ins_ok))).
Defined.

Lemma wrapper_closes_loop_witness :
  let e0 := wr_engine wrapper_start in let eins := sample_engine_ins wrapper_ins wrapper_start in
  dated (engine_segments sample_xb sample_xs sample_xa zero_answer e0)
    (segment_fits sample_xb sample_xs sample_xa zero_answer e0) eins ∧
  omap (λ e, match e with Segment p h snd => Some (est_flowid p, seq_num (est_tcp_hdr p), h, snd) | _ => None end)
    (engine_segments sample_xb sample_xs sample_xa zero_answer e0 eins) = [(0, 101, 0, 4096); (0, 111, 0, 5596)] ∧
  (λ '(p, rx), (tp_seq_num p, rx_curr_ack_num rx)) <$> engine_reads sample_xb sample_xs sample_xa zero_answer e0 eins =
    [(4096, 111); (5120, 111); (5568, 111)] ∧
  (λ '(f, ack), (f, tx_curr_ack_num ack)) <$> engine_looks sample_xb sample_xs sample_xa zero_answer e0 eins =
    replicate 25 (0, 4096) ++ replicate 7 (0, 5120).
Proof.
  split; [|split_and!; vm_compute; reflexivity].
  exact (proj2 (proj2 (wrapper_closes_loop sample_xb sample_xs sample_xa zero_answer TCP_UND zero_fsm_pkt zero_pkt wrapper_idle
    junk_wrapper wrapper_ins junk_wrapper_sized wrapper_ins_ok))).
Defined.
