(* ===== verification/Handshake.v ===== *)
(** Handshake: the numbers of a handshake, through the whole of
    tcp_engine_wrapper.sv.  What the handshake pipeline reads by way of the
    arbiter is what it had the stores written with when it opened the
    connection, as long as that is not established. *)

From stdpp Require Import functions.
From S2P Require Import Prelude Rtl RamDual Fifo Fifo2w TcpPkg AckEngines EstArbiter FlowStores EstPipe.
From S2P Require Import EstBackend EstRun EstFlow TcpStateMachine RxFsm Cam IssuePipe Lfsr FsmHistory RxPipe.
From S2P Require Import SendStage SendPipe SendSched SendRun HdrAssembler SendPath Engine TcpEngine.

(** ** Steps of the handshake pipeline *)

(** A grant lets it wait for the responses. *)
Lemma fsm_granted c v :
  fsm_state_rd_req_val c v = true → tx_state_fsm_rd_req_rdy v && rx_state_fsm_rd_req_rdy v = true →
  in_state RX_TX_STATE_RD_RESP (fsm_next v c) = true ∧ in_state READY c = false.
Proof.
  unfold fsm_state_rd_req_val, in_state, fsm_next. intros H Hg. rewrite Hg.
  destruct c as [[] p st rx tx nst sv sh nf]; cbn in *; try done.
  destruct (tcp_state_fsm_rd_resp_val v); [|done]. destruct (bool_decide (tcp_state_fsm_rd_resp_data v = TCP_EST)); done.
Qed.

(** A packet that is not new is decided on with the responses. *)
Lemma fsm_enters_dec c v :
  in_state STATE_DEC (fsm_next v c) = true → fsm_new_flow (pkt_reg (fsm_next v c)) = false →
  in_state RX_TX_STATE_RD_RESP c = true ∧ rx_state_fsm_rd_resp_val v = true ∧
  rx_state_reg (fsm_next v c) = rx_state_fsm_rd_resp_data v ∧ pkt_reg (fsm_next v c) = pkt_reg c.
Proof.
  unfold in_state, fsm_next. destruct c as [[] p st rx tx nst sv sh nf]; cbn; repeat case_match; cbn; try done.
  - intros _ Hn. by destruct (fsm_new_flow p).
  - intros _ _. match goal with E : _ && _ = true |- _ => apply andb_true_iff in E as [_ E] end. by split_and!.
Qed.

(** An opening is made in one state only. *)
Lemma open_now f entry rx tx c v :
  RxFsm.OpenFlow f entry rx tx ∈ fsm_effects c v →
  new_flow_val c = true ∧ RxFsm.OpenFlow f entry rx tx = open_effect c.
Proof.
  unfold fsm_effects. rewrite !elem_of_app. unfold RxFsm.when.
  destruct (fsm_reinject_q_enq_req_val c v), (tcp_fsm_clear_flowid_val c v), (new_flow_val c), (RxFsm.new_flow_rdy v),
    (next_flow_state_wr_req_val c && _), (fsm_send_pkt_enqueue_val c && _), (app_new_flow_notif_val c && _);
    cbn [andb]; rewrite ?list_elem_of_singleton, ?elem_of_nil; intros [|[|[|[|[|]]]]]; done.
Qed.

Section Handshake.
Variable x : unknowns.
Variable xs : send_unknowns.
Variable xa : asm_unknowns.
Variable xq : rx_send_queue_struct.
Variable xt : tcp_flow_state_e.
Variable xf : fsm_pkt.
Variable xe : est_pkt.

Abbreviation whole := (tcp_engine_wrapper x xs xa xq xt xf xe).
Abbreviation fsm s := (fsm_pipe (wr_rx s)).
Abbreviation backend s := (en_recv (wr_engine s)).
Abbreviation arb s := (fsm_est_pipe_arbiter (backend s)).
Abbreviation fsm_in_of s i := (fsm_wires xt xf (wr_rx s) (front_in x xs xa xq xt xf s i)).
Abbreviation recv_in_of s i := (engine_recv_in x xs xa xq (wr_engine s) (engine_in_of x xs xa xq xt xf xe s i)).

(** ** One cycle *)

Section Cycle.
Context (h : Z) (L : Z → flow_state) (s : wrapper) (i : wrapper_in).
Hypothesis Hinv : EstRun.inv x h L (backend s).
Hypothesis Hlegal : legal (backend s) (recv_in_of s i).

Abbreviation s' := (wrapper_next x xs xa xq xt xf xe false i s).

(** While the arbiter serves the handshake pipeline, that waits, and the receive
    state read is its connection's. *)
Definition serves (s : wrapper) : Prop :=
  state_reg (arb s) = WAIT → arb_decision_reg (arb s) = FSM_GRANT →
  in_state RX_TX_STATE_RD_RESP (fsm s) = true ∧ mem_rd0_req_addr_reg (rx_store (backend s)) = fsm_flowid (pkt_reg (fsm s)).

Lemma both_val :
  state_reg (arb s) = WAIT → arb_decision_reg (arb s) = FSM_GRANT →
  rd0_resp_val (rx_store (backend s)) = true ∧ recv_pipe_rd_resp_val (tx_store (backend s)) = true.
Proof.
  intros E1 E2. destruct (EstRun.i_ports _ _ _ _ Hinv) as (a & b & HP & HS). unfold served in HS. rewrite E1 in HS.
  destruct HS as [(Hd & _)|(_ & _ & [a' ->] & [b' ->])]; [by rewrite E2 in Hd|].
  unfold recv_pipe_rd_resp_val. rewrite port0_val, !port1_val.
  rewrite (proj1 (port_shows _ _ _ (EstRun.p_rx _ _ _ HP) eq_refl)).
  rewrite (proj1 (port_shows _ _ _ (EstRun.p_emit _ _ _ HP) eq_refl)).
  by rewrite (proj1 (port_shows _ _ _ (EstRun.p_ack _ _ _ HP) eq_refl)).
Qed.

Lemma resp_val_eq :
  fsm_resp_val x xt xf s i =
  bool_decide (state_reg (arb s) = WAIT) &&
  (rd0_resp_val (rx_store (backend s)) && recv_pipe_rd_resp_val (tx_store (backend s))) &&
  bool_decide (arb_decision_reg (arb s) = FSM_GRANT).
Proof. reflexivity. Qed.

Lemma serves_next : serves s → serves s'.
Proof.
  intros Hs. unfold serves at 1. cbn [wr_engine wr_rx wrapper_next en_recv engine_next fsm_est_pipe_arbiter backend_next
    arbiter_next state_reg arb_decision_reg].
  set (aj := sys_arb_in x (backend s) (recv_in_of s i)). destruct (state_reg (arb s)) eqn:Est.
  - destruct (arb_advance (arb s) aj) eqn:Hadv; [|done]. intros _ Hg.
    destruct (grant_one_hot _ _ (EstRun.i_arb _ _ _ _ Hinv) Hadv) as [[Hg' _]|[_ Hw]]; [by rewrite Hg in Hg'|].
    assert (Hgr : fsm_grant x xt xf s i = true).
    { rewrite <- (fsm_grant_eq x xs xa xq xt xf xe). unfold arbiter_fsm_rd_req_grant.
      change (engine_arb x (wr_engine s) (engine_in_of x xs xa xq xt xf xe s i)) with aj. by rewrite Hadv, Hg. }
    assert (Hrd : fsm_state_rd_req_val (fsm s) (fsm_in_of s i) = true) by (by apply andb_true_iff in Hw as []).
    destruct (fsm_granted (fsm s) (fsm_in_of s i) Hrd) as [Hf Hr].
    { cbn [tx_state_fsm_rd_req_rdy rx_state_fsm_rd_req_rdy fsm_wires rpi_rd_grant front_in front_wires]. by rewrite Hgr. }
    cbn [fsm_pipe rx_pipe_next c_next rx_fsm_pipe]. split; [exact Hf|]. rewrite next_pkt, Hr. cbn [andb].
    destruct (EstRun.i_ports _ _ _ _ Hinv) as (a & b & HP & HS). unfold served in HS. rewrite Est in HS. destruct HS as (-> & -> & _).
    pose proof (EstRun.p_rx _ _ _ (EstRun.ports_next x h L _ _ Hinv Hlegal _ _ HP)) as (_ & _ & Ha). fold aj in Ha.
    cbn [rv_read] in Ha. unfold reads_next in Ha. rewrite bool_decide_eq_true_2, orb_true_r in Ha by done.
    cbn [rd_val rd_addr rx_rd0] in Ha. unfold curr_recv_state_rd_req_val in Ha. rewrite Hadv in Ha.
    destruct (Ha _ eq_refl) as (E & _). etransitivity; [exact E|]. unfold curr_recv_state_rd_req_flowid. by rewrite Hg.
  - assert (Hadv : arb_advance (arb s) aj = false) by (unfold arb_advance; by rewrite Est). rewrite Hadv.
    intros Hn Hd. exfalso. destruct (Hs Est Hd) as [Hf _]. destruct (both_val Est Hd) as [H1 H2]. revert Hn.
    assert (Hrdy : fsm_resp_rdy x xt xf s i = true).
    { unfold fsm_resp_rdy, fsm_state_rd_resp_rdy. rewrite Hf.
      cbn [tx_state_fsm_rd_resp_val rx_state_fsm_rd_resp_val fsm_wires rpi_rd_resp_val front_wires]. rewrite resp_val_eq.
      by rewrite Est, Hd, H1, H2. }
    unfold both_resp_val, curr_recv_state_rd_resp_rdy, curr_tx_state_rd_resp_rdy. rewrite Hd.
    rewrite bool_decide_eq_true_2 by done.
    change (curr_recv_state_rd_resp_val aj) with (rd0_resp_val (rx_store (backend s))).
    change (curr_tx_state_rd_resp_val aj) with (recv_pipe_rd_resp_val (tx_store (backend s))).
    change (fsm_rx_rd_resp_rdy aj) with (fsm_resp_rdy x xt xf s i). change (fsm_tx_rd_resp_rdy aj) with (fsm_resp_rdy x xt xf s i).
    by rewrite H1, H2, Hrdy.
Qed.

(** The response it takes is the receive state stored for its connection. *)
Lemma reads_stored :
  serves s → in_state STATE_DEC (fsm s') = true → fsm_new_flow (pkt_reg (fsm s')) = false →
  pkt_reg (fsm s') = pkt_reg (fsm s) ∧ in_state RX_TX_STATE_RD_RESP (fsm s) = true ∧
  rx_state_reg (fsm s') = fs_rx (stored x (backend s) (fsm_flowid (pkt_reg (fsm s)))).
Proof.
  intros Hs Hd Hn. cbn [wr_rx wrapper_next fsm_pipe rx_pipe_next c_next rx_fsm_pipe] in *.
  destruct (fsm_enters_dec _ _ Hd Hn) as (Hf & Hv & Hrx & Hp). split; [exact Hp|]. split; [exact Hf|]. etransitivity; [exact Hrx|].
  cbn [rx_state_fsm_rd_resp_val rx_state_fsm_rd_resp_data fsm_wires rpi_rd_resp_val rpi_rx front_in front_wires] in *.
  rewrite resp_val_eq, !andb_true_iff, !bool_decide_eq_true in Hv. destruct Hv as [[E1 _] E2]. destruct (Hs E1 E2) as [_ Ea].
  destruct (EstRun.i_ports _ _ _ _ Hinv) as (a & b & HP & HS). unfold served in HS. rewrite E1 in HS.
  destruct HS as [(Hg & _)|(_ & _ & [a' ->] & _)]; [by rewrite E2 in Hg|].
  destruct (EstRun.p_rx _ _ _ HP) as (_ & _ & Ha). destruct (Ha a' eq_refl) as (E & _ & Ed). cbn [rv_mem] in Ed.
  rewrite port0_data, Ed. unfold stored. cbn [fs_rx]. rewrite <- E. change (mem_rd_req_addr_reg (port0 (rx_store (backend s)))) with
    (mem_rd0_req_addr_reg (rx_store (backend s))). by rewrite Ea.
Qed.
End Cycle.

(** ** A run *)

Section Run.
Context (i0 : wrapper_in) (s : wrapper).
Hypothesis Hsized : wrapper_sized s.

Abbreviation s0 := (wrapper_next x xs xa xq xt xf xe true i0 s).
Abbreviation after ins := (after_cycles whole ins s0).
Abbreviation fins ins := (front_ins x xs xa xq xt xf xe ins s0).
Abbreviation outs ins := (outputs (rx_pipe_wrap xt xf xe) (fins ins) (wr_rx s0)).
Abbreviation effects ins := (run_effects (outs ins)).
Abbreviation given ins := (run_est (fins ins) (outs ins)).
Abbreviation dealt_with ins := (run_handled xt xf (fins ins) (wr_rx s0)).
Abbreviation oks ins := (wrapper_oks x xs xa xq xt xf xe ins s0).

Lemma start_front : rx_inv [] [] [] [] no_connections (Reads TCP_NONE zero_rx zero_tx) [] [] (wr_rx s0).
Proof. apply rx_inv_reset, Hsized. Qed.
Lemma start_engine : engine_inv x xs xa xq (wr_engine s0) [].
Proof. apply engine_inv_reset, Hsized. Qed.

Lemma run_stages ins : oks ins → stages_of (λ n, n ∈ est_flowid <$> given ins) (est_flow_pipe (backend (after ins))).
Proof. intros Hok. refine (proj2 (wrapper_run _ _ _ _ _ _ _ _ start_front start_engine _ ins Hok)). by repeat split. Qed.

Lemma run_legal ins i :
  oks (ins ++ [i]) → ∃ h L, EstRun.inv x h L (backend (after ins)) ∧ legal (backend (after ins)) (recv_in_of (after ins) i).
Proof.
  intros Hok. destruct (wrapper_oks_snoc _ _ _ _ _ _ _ _ _ _ Hok) as [Hok' Hi].
  refine (wrapper_legal _ _ _ _ _ _ _ _ start_front start_engine ins i _ (run_stages ins Hok') Hi).
  refine (proj1 (wrapper_run _ _ _ _ _ _ _ _ start_front start_engine _ ins Hok')). by repeat split.
Qed.

Lemma run_front ins :
  ∃ sent d q rq, rx_inv (dealt_with ins) (effects ins) (given ins) sent d
    (reads_run (Reads TCP_NONE zero_rx zero_tx) (fsm_ins xt xf (fins ins) (wr_rx s0)) (fsm s0)) q rq (wr_rx (after ins)).
Proof. exact (front_inv _ _ _ _ _ _ _ _ start_front ins). Qed.

Abbreviation now ins i := (fsm_effects (fsm (after ins)) (fsm_in_of (after ins) i)).

Lemma effects_next ins i : effects (ins ++ [i]) = effects ins ++ now ins i.
Proof. exact (effects_snoc _ _ _ _ _ _ _ _ ins i). Qed.

Record numbers_inv (ins : list wrapper_in) : Prop := {
  z_serves : serves (after ins);
  z_stored : ∀ f entry rx tx, unspoiled (effects ins) f entry rx tx → fs_rx (stored x (backend (after ins)) f) = rx;
  z_read : in_state STATE_DEC (fsm (after ins)) = true → fsm_new_flow (pkt_reg (fsm (after ins))) = false →
    ∀ entry rx tx, unspoiled (effects ins) (fsm_flowid (pkt_reg (fsm (after ins)))) entry rx tx →
    rx_state_reg (fsm (after ins)) = rx;
  z_handled : well_read (dealt_with ins) }.

Lemma numbers_start : numbers_inv [].
Proof. split; try done; [intros f entry rx tx [H _]; by apply not_elem_of_nil in H|constructor]. Qed.

Section Step.
Context (ins : list wrapper_in) (i : wrapper_in).
Hypothesis Hok : oks (ins ++ [i]).
Hypothesis Hz : numbers_inv ins.

Lemma unspoiled_before f entry rx tx :
  unspoiled (effects (ins ++ [i])) f entry rx tx →
  (unspoiled (effects ins) f entry rx tx ∨
   new_flow_val (fsm (after ins)) = true ∧ RxFsm.OpenFlow f entry rx tx = open_effect (fsm (after ins))) ∧
  (f, TCP_EST) ∉ state_writes (effects ins).
Proof.
  unfold unspoiled. rewrite effects_next, state_writes_app, elem_of_app, not_elem_of_app. intros [[Ho|Ho] [Hw _]]; (split; [|done]).
  - by left.
  - right. by eapply open_now.
Qed.

Lemma stored_kept f entry rx tx :
  unspoiled (effects (ins ++ [i])) f entry rx tx → fs_rx (stored x (backend (after (ins ++ [i]))) f) = rx.
Proof.
  intros Hu. destruct (unspoiled_before _ _ _ _ Hu) as [Hcase Hno]. rewrite after_wrapper_snoc.
  destruct (run_legal ins i Hok) as (h & L & Hinv & Hl). destruct (run_front ins) as (sent & d & q & rq & H).
  pose proof (run_stages ins (proj1 (wrapper_oks_snoc _ _ _ _ _ _ _ _ _ _ Hok))) as Hst.
  cbn [wr_engine wrapper_next en_recv engine_next].
  assert (Hf : flow_ok f).
  { destruct Hcase as [[Ho _]|[Hn Ho]].
    - eapply numbers_ok; [exact H|]. eapply handled_flow; [exact H|]. apply opens_flows. rewrite <- (x_todo H), opened_by_app, elem_of_app.
      left. by eapply opened_by_in.
    - injection Ho as -> _ _ _. by eapply opening_fresh. }
  rewrite (EstRun.stored_next x h L _ _ Hinv Hl f Hf).
  cbn [bi_new_flow engine_recv_in recv_base ei_new_flow engine_in_of engine_wires nf_val nf_flowid nf_recv_state nf_tx_state
    nf_rx_tail_ptr new_flow_of].
  destruct Hcase as [Hold|[Hn Ho]].
  - destruct (new_flow_val (fsm (after ins))) eqn:En; cbn [andb].
    + destruct (Z.eqb_spec (fsm_flowid (pkt_reg (fsm (after ins)))) f) as [E|Hne]; [|by eapply z_stored].
      exfalso. destruct (opening_fresh _ _ _ _ _ _ _ _ _ H En) as (_ & Hfresh & _). apply Hfresh. rewrite E.
      eapply opened_by_in, Hold.
    + rewrite <- (z_stored _ Hz _ _ _ _ Hold). unfold logical.
      destruct (est_hdr_val_reg_w _) eqn:Ew; [|done]. cbn [andb]. destruct (Z.eqb_spec (est_flowid_reg_w (est_flow_pipe (backend (after ins)))) f) as [E|]; [|done].
      exfalso. destruct Hst as (_ & _ & Hw). specialize (Hw Ew). rewrite E in Hw. apply list_elem_of_fmap in Hw as (p & Ep & Hin).
      apply Hno. pose proof (x_est H) as He. apply Forall_app in He as [He _]. rewrite Forall_forall in He. rewrite Ep. by apply He.
  - injection Ho as -> _ -> _. rewrite Hn. cbn [andb]. by rewrite Z.eqb_refl.
Qed.

Lemma read_opened :
  in_state STATE_DEC (fsm (after (ins ++ [i]))) = true → fsm_new_flow (pkt_reg (fsm (after (ins ++ [i])))) = false →
  ∀ entry rx tx, unspoiled (effects (ins ++ [i])) (fsm_flowid (pkt_reg (fsm (after (ins ++ [i]))))) entry rx tx →
  rx_state_reg (fsm (after (ins ++ [i]))) = rx.
Proof.
  rewrite after_wrapper_snoc. intros Hd Hn entry rx tx Hu. destruct (run_legal ins i Hok) as (h & L & Hinv & Hl).
  destruct (reads_stored h L _ i Hinv (z_serves _ Hz) Hd Hn) as (Hp & Hf & ->). rewrite Hp in Hu.
  destruct (unspoiled_before _ _ _ _ Hu) as [[Hold|[Hnew _]] _].
  - by eapply z_stored.
  - exfalso. unfold new_flow_val, in_state in *. by destruct (ctrl_state_reg (fsm (after ins))).
Qed.

Lemma handled_well_read : well_read (dealt_with (ins ++ [i])).
Proof.
  pose proof (z_handled _ Hz) as Hw. destruct (run_front ins) as (sent & d & q & rq & H).
  rewrite (front_ins_app x xs xa xq xt xf xe ins [i] s0). cbn [front_ins]. rewrite (handled_snoc xt xf xe), <- (proj1 (wrapper_parts x xs xa xq xt xf xe ins s0)).
  set (g := reads_run _ _ _) in *. unfold handled_now. pose proof (z_read _ Hz) as Hr. pose proof (x_fsm H) as Hi.
  pose proof (no_todo _ _ _ _ _ _ _ _ _ H) as Ht. unfold next_state_req, fsm_inv, pending, in_state in *.
  destruct (ctrl_state_reg (fsm (after ins))); cbn [andb app] in *; rewrite ?app_nil_r; try done.
  - destruct (tcp_state_fsm_rd_resp_val _ && _ && _); [by constructor|by rewrite app_nil_r].
  - constructor; [done|]. intros Hn entry rx0 tx0. rewrite Hn in Hi. destruct Hi as (_ & Hrx & _). rewrite Ht by done. rewrite <- Hrx.
    by apply Hr.
Qed.

Lemma handshake_numbers_next : numbers_inv (ins ++ [i]).
Proof.
  destruct (run_legal ins i Hok) as (h & L & Hinv & Hl). split.
  - rewrite after_wrapper_snoc. exact (serves_next h L _ i Hinv Hl (z_serves _ Hz)).
  - exact stored_kept.
  - exact read_opened.
  - exact handled_well_read.
Qed.
End Step.

Lemma numbers_run ins : oks ins → numbers_inv ins.
Proof.
  induction ins as [|i ins IH] using rev_ind; intros Hok; [exact numbers_start|]. apply handshake_numbers_next; [done|].
  apply IH. by apply wrapper_oks_snoc in Hok as [].
Qed.
End Run.

(** C2: the numbers of a handshake, end to end.  In any run of the whole from a
    reset on, whatever the memories held, in which the application writes the
    pointers of connections there are and no packet enters the computing stage
    of the pipeline of established connections in the cycle in which an accepted
    one of its connection leaves the last: a packet is given to the pipeline of
    established connections, on a connection that was opened, only after a SYN
    with some number s, the first packet of that connection, and later an ACK
    that carries the number s + 1, both read back through the stores and the
    arbiter, and acknowledges the number read for the sender. *)
Theorem established_by_numbers i0 s ins :
  wrapper_sized s →
  let s0 := wrapper_next x xs xa xq xt xf xe true i0 s in
  wrapper_oks x xs xa xq xt xf xe ins s0 →
  let fins := front_ins x xs xa xq xt xf xe ins s0 in let outs := outputs (rx_pipe_wrap xt xf xe) fins (wr_rx s0) in
  ∀ p, p ∈ run_est fins outs → est_flowid p ∈ opened_by (run_effects outs) →
  ∃ hs1 syn st rx tx isn hs2 ack rx' tx' isn' hs3,
    run_handled xt xf fins (wr_rx s0) =
      hs1 ++ Decided syn st rx tx isn :: hs2 ++ Decided ack TCP_SYN_RECV rx' tx' isn' :: hs3 ∧
    (fsm_flowid syn = est_flowid p ∧ fsm_new_flow syn = true ∧ flags (fsm_tcp_hdr syn) = FLAG_SYN) ∧
    (fsm_flowid ack = est_flowid p ∧ fsm_new_flow ack = false ∧ flags (fsm_tcp_hdr ack) = FLAG_ACK) ∧
    seq_num (fsm_tcp_hdr ack) = seq (seq_num (fsm_tcp_hdr syn) + 1) ∧ ack_num (fsm_tcp_hdr ack) = tx_curr_seq_num tx'.
Proof.
  intros Hs s0 Hok fins outs p Hp Ho. destruct (run_front i0 s Hs ins) as (sent & d & q & rq & H).
  pose proof (z_handled _ _ _ (numbers_run i0 s Hs ins Hok)) as Hw. pose proof (x_est H) as He. apply Forall_app in He as [He _].
  rewrite Forall_forall in He. specialize (He p Hp). fold s0 fins outs in H, Hw, He.
  apply (handshake_seq _ _ (x_handled H) Hw); rewrite <- (x_todo H).
  - rewrite state_writes_app, elem_of_app. by left.
  - rewrite opened_by_app, elem_of_app. by left.
Qed.
End Handshake.

(** The connection of the concrete run: the SYN has the number 100, the ACK 101. *)
Lemma established_by_numbers_witness :
  let fins := sample_front_ins wrapper_ins wrapper_start in
  let outs := outputs sample_rx fins (wr_rx wrapper_start) in
  let p := EstPkt (TcpPktHdr 1000 80 101 4096 5 0 FLAG_ACK 4096 0 0) 0 true (PayloadBuf 64 10) in
  (p ∈ run_est fins outs ∧ est_flowid p ∈ opened_by (run_effects outs)) ∧
  ∃ hs1 syn st rx tx isn hs2 ack rx' tx' isn' hs3,
    run_handled TCP_UND zero_fsm_pkt fins (wr_rx wrapper_start) =
      hs1 ++ Decided syn st rx tx isn :: hs2 ++ Decided ack TCP_SYN_RECV rx' tx' isn' :: hs3 ∧
    (fsm_flowid syn = 0 ∧ fsm_new_flow syn = true ∧ flags (fsm_tcp_hdr syn) = FLAG_SYN) ∧
    (fsm_flowid ack = 0 ∧ fsm_new_flow ack = false ∧ flags (fsm_tcp_hdr ack) = FLAG_ACK) ∧
    seq_num (fsm_tcp_hdr ack) = seq (seq_num (fsm_tcp_hdr syn) + 1) ∧ ack_num (fsm_tcp_hdr ack) = tx_curr_seq_num tx'.
Proof.
  intros fins outs p.
  assert (Hp : p ∈ run_est fins outs) by (vm_compute; left).
  assert (Ho : est_flowid p ∈ opened_by (run_effects outs)) by (apply (bool_decide_unpack _); vm_compute; exact I).
  split; [by split|].
  exact (established_by_numbers sample_xb sample_xs sample_xa zero_answer TCP_UND zero_fsm_pkt zero_pkt wrapper_idle
    junk_wrapper wrapper_ins junk_wrapper_sized wrapper_ins_ok p Hp Ho).
Defined.

(** ** A first packet that is not a SYN

    Its addresses keep the number it was given, for good, since rx_pipe_wrap ties
    the signals that would take it back to zero: the connection is never opened. *)
Lemma stray_first_packet x xs xa xq xt xf xe i0 s ins hs1 p st rx tx isn hs2 :
  wrapper_sized s →
  let s0 := wrapper_next x xs xa xq xt xf xe true i0 s in let fins := front_ins x xs xa xq xt xf xe ins s0 in
  run_handled xt xf fins (wr_rx s0) = hs1 ++ Decided p st rx tx isn :: hs2 →
  fsm_new_flow p = true → flags (fsm_tcp_hdr p) ≠ FLAG_SYN →
  fsm_flowid p ∉ opened_by (run_effects (outputs (rx_pipe_wrap xt xf xe) fins (wr_rx s0))).
Proof.
  intros Hs s0 fins Hh Hnew Hfl. destruct (run_front x xs xa xq xt xf xe i0 s Hs ins) as (sent & d & q & rq & H).
  pose proof (x_handled H) as Hc. pose proof (x_todo H) as Ht. fold s0 fins in Hc, Ht. rewrite Hh in Hc, Ht.
  pose proof (stray_not_opened _ _ _ _ _ _ _ Hc Hnew Hfl) as Hn. rewrite <- Ht, opened_by_app, not_elem_of_app in Hn. apply Hn.
Qed.

(** A later SYN is answered with the right numbers, the ACK that follows is
    compared with what the memories held, and one with these numbers establishes
    the connection, whose packets go to the other pipeline with no addresses
    stored for it. *)
Definition stray_ins (ack : issue_pkt) : list wrapper_in :=
  [wrapper_cycle (Some (conn_pkt 1000 99 0 FLAG_ACK false)) None true] ++ replicate 24 wrapper_idle ++
  [wrapper_cycle (Some (conn_pkt 1000 100 0 FLAG_SYN false)) None true] ++ replicate 24 wrapper_idle ++
  [wrapper_cycle (Some ack) None true] ++ replicate 24 wrapper_idle ++
  [wrapper_cycle (Some (conn_pkt 1000 101 4096 FLAG_ACK true)) None true] ++ replicate 24 wrapper_idle.
Definition stray_run (ack : issue_pkt) : list (Z * tcp_flow_state_e) * list Z * list (list Z) * list Z :=
  let ins := stray_ins ack in let fins := sample_front_ins ins wrapper_start in
  let outs := outputs sample_rx fins (wr_rx wrapper_start) in
  (state_writes (run_effects outs), opened_by (run_effects outs),
   summary <$> omap eo_tx (wo_engine <$> outputs sample_wrapper ins wrapper_start),
   (λ p, seq_num (est_tcp_hdr p)) <$> run_est fins outs).

Example ack_ignored :
  let '(states, openings, sent, given) := stray_run (conn_pkt 1000 101 4096 FLAG_ACK false) in
  states = [(0, TCP_NONE); (0, TCP_SYN_RECV); (0, TCP_SYN_RECV); (0, TCP_SYN_RECV)] ∧ openings = [] ∧
  take 2 sent = [[0; 1; 2; 80; 1000; 4095; 101; 4096; 0]; [0; 1; 2; 80; 1000; 4; 1; 4096; 0]] ∧ given = [].
Proof. vm_compute. by split_and!. Qed.

Lemma ghost_connection :
  let '(states, openings, sent, given) := stray_run (conn_pkt 1000 1 4 FLAG_ACK false) in
  states = [(0, TCP_NONE); (0, TCP_SYN_RECV); (0, TCP_EST)] ∧ openings = [] ∧
  sent = [[0; 1; 2; 80; 1000; 4095; 101; 4096; 0]] ∧ given = [101].
Proof. vm_compute. by split_and!. Qed.
